(* ===== verification/_CoqProject ===== *)
-Q . S2P
Prelude.v
Bits.v
Util.v
Getopt.v
Freelist.v
Hash.v
XnvmeEnv.v
Striping.v
StripedIO.v
Flexalloc.v
PoolEntry.v
Geometry.v
CommandSet.v
SlabList.v
SlabCache.v
Slab.v
Pool.v
Object.v
Alloc.v
Printing.v
ObjectIO.v
DataPlacement.v
Layout.v
Format.v
System.v
Typed.v
History.v
Store.v
Directory.v
Mkfs.v
FioEngine.v
Introspection.v
Durability.v
Sync.v
FioFiles.v
Inspect.v
PoolLife.v
Restart.v
Socket.v
Daemon.v
DaemonLoop.v
DaemonClient.v
DaemonMain.v
Cli.v
Remote.v
Dispatch.v
Clients.v
SharedPool.v
