(* ===== verification/Prelude.v ===== *)
(** * FlexAlloc: an object allocator for NVMe devices, modelled and verified

    FlexAlloc ([src/src]) divides a device into slabs and gives out fixed-size
    objects from them.  A pool is a named set of slabs whose objects all have one
    size.  The metadata (superblock, pool segment, slab segment) is at the start of
    the device, the slabs follow, and the last blocks of a slab hold its freelist.
    While the system is open the two segments are in one buffer and the freelists
    of the slabs in use are cached.  A process opens the system itself ([fla_open])
    or is a client of a daemon that has opened it ([fla_daemon_open]); the calls of
    [libflexalloc.c] go through a table of functions to the one or the other.

    ** Conventions

    A C function is a Rocq function of the same name.  Unsigned integers are [Z] in
    the range of their width with the reductions [u16], [u32] and [u64] written
    where the source's arithmetic can wrap.  The result is an [option]: [None] is
    undefined behaviour (an access outside an array, a division by zero, a call
    through a pointer that was not set) or an exhausted loop bound; theorems that
    say a function returns [Some] exclude both.  Error codes are the [int]s of the
    source.  Out-parameters are components of the result.  The handle
    [struct flexalloc] is the record [flexalloc], threaded through every operation;
    a pointer to a slab header or pool entry is its index, so aliasing of headers
    and entries is kept.  Devices and the C allocator are a world [W] with the
    operations of the class [XnvmeEnv]; what is assumed of them is the class
    [XnvmeLaws], and [XnvmeEnv.RamDisk] is an instance that satisfies it.
    Allocation can fail at any point.  Opening and identifying devices is the class
    [XnvmeAdm], sockets are [SockEnv], [PollEnv] and [UnixEnv] with the laws
    [SockLaws] and [PollLaws]; [Socket.wire] and [DaemonLoop.net] are instances.

    ** Files, in the order of dependency

    - [Prelude]: machine integers, indexed lists, tactics.
    - [Bits] ([flexalloc_bits.c]): trailing zeros, population count.
    - [Util] ([flexalloc_util.c]): rounding up, strings, [fla_nelems_max].
    - [Getopt]: [getopt_long] of the C library, as far as the programs use it.
    - [Freelist] ([flexalloc_freelist.c]): bitmaps of free entries; [Bitmap] is the
      abstract specification they refine.
    - [Hash] ([flexalloc_hash.c]): the Robin Hood table of pool names; it refines a
      finite map.
    - [XnvmeEnv] ([flexalloc_xnvme_env.c]): transfers split by the device's limit.
    - [Striping] ([flexalloc_xnvme_env.c]): asynchronous striped transfers; the class
      [XnvmeQueue] is the command queue.
    - [StripedIO]: striped transfers under any order of completion.
    - [Flexalloc] (the headers): the records of the system.
    - [PoolEntry] ([flexalloc_pool.c]): functions per pool entry, root objects.
    - [Geometry] ([flexalloc_mm.c], [flexalloc_pool.c], [flexalloc_cs*.c]): layout of
      the device, number of slabs, number of objects in a slab.
    - [CommandSet] ([flexalloc_cs*.c]): conventional and zoned devices, object
      addresses.
    - [SlabList] ([flexalloc_ll.c]): lists linked through the slab headers.
    - [SlabCache] ([flexalloc_slabcache.c]): the cached freelists, loading, flushing.
    - [Slab] ([flexalloc_mm.c]): formatting, acquiring and releasing slabs.
    - [Pool] ([flexalloc_pool.c]): creating, opening and destroying pools; the
      invariant [dir_inv] of the directory.
    - [Object] ([flexalloc_mm.c]): creating, opening and destroying objects.
    - [Alloc]: the invariant [alloc_inv] of lists, reference counts and freelists,
      kept by the operations of [Slab] and [Object] on every path.
    - [Printing] ([flexalloc_mm.c], [flexalloc_pool.c]): the values the debug printers walk
      through.
    - [ObjectIO] ([flexalloc_mm.c]): reading and writing objects; the class [FlaDp] is
      the data placement the transfers call.
    - [DataPlacement] ([flexalloc_dp*.c], [flexalloc_xnvme_env.c]): opening devices,
      FDP placement identifiers, their cache.
    - [Layout]: the metadata as bytes, loading and storing each structure.
    - [Format] ([flexalloc_mm.c]): what [fla_mkfs] writes and how it is laid out.
    - [System] ([flexalloc_mm.c]): [fla_mkfs], [fla_open], [fla_flush] and closing.
    - [Typed]: every field of the metadata stays in the range of its C type.
    - [History]: formatted systems and client histories.
    - [Store]: the refinement of an abstract store of byte arrays.
    - [Directory]: names and handles of pools.
    - [Mkfs] ([flexalloc_mkfs.c]): the program [mkfs.flexalloc].
    - [FioEngine] ([fio-ioengine/flexalloc.c]): the threads of the fio engine and the
      handles they share; the class [EngineLib] is the library as the engine sees it.
    - [Introspection] ([flexalloc_introspection.c], [flexalloc_inspect.c]): the
      consistency checks.
    - [Durability]: flushing, closing and opening again.
    - [Sync]: synchronising an open system.
    - [FioFiles] ([fio-ioengine/flexalloc.c]): the files of a thread of the fio engine.
    - [Inspect] ([flexalloc_inspect.c]): [fla_inspect] on systems the library made.
    - [PoolLife]: pools from creation to destruction.
    - [Restart]: any number of sessions on one device.
    - [Socket] ([flexalloc_daemon_base.c]): messages over a stream socket.
    - [Daemon] ([flexalloc_daemon_base.c], [flexalloc_daemon.c]): structures as bytes,
      the responses [fla_daemon_*_rsp] and [msg_handler].
    - [DaemonLoop] ([flexalloc_daemon_base.c]): [fla_daemon_loop], its table of clients.
    - [DaemonClient] ([flexalloc_daemon_base.c], [libflexalloc.c]): the requests
      [fla_daemon_*_rq], connecting, and the dispatch of the library.
    - [DaemonMain] ([flexalloc_daemon.c]): the program [flexalloc_daemon].
    - [Cli] ([flexalloc_cli_common.c], [flexalloc_mkfs.c], [flexalloc_inspect.c],
      [flexalloc_daemon.c]): the tables of options, the help, and the programs from their
      arguments on.
    - [Remote]: a client and the daemon's loop composed; a request and its answer.
    - [Dispatch]: calls of the library on a direct handle and through the daemon.
    - [Clients]: several clients of one daemon, interleaved with its loop.
    - [SharedPool]: several clients that allocate from one pool.

    ** What is shown

    The main results are about a formatted device with one pool.  [Store] shows that any
    sequence of creations, destructions and writes runs to the end and that the objects
    behave as independent byte arrays; [History] that held objects are exactly the
    reserved freelist entries and occupy disjoint blocks behind the metadata, before
    their freelist and inside the device, and what creation and destruction do on every
    path.  [Directory] shows that pools are found under the names they were created
    with, [PoolLife] that pools can be created, used and destroyed any number of times
    without losing a slab, but for those whose freelist was refused memory, [Restart] that through any number of sessions, each closed, or synchronised and cut
    off, and opened again, every object and every name stays, [Inspect] that the
    consistency checks pass on such systems, pools of ten-block objects apart, and when
    they fail, [StripedIO] that a striped transfer whose first commands stay inside it
    reaches the blocks of the striping map in whatever order its commands complete.  [Cli] shows which lines of arguments the formatting program
    accepts and which call of [fla_mkfs] it then is, [FioEngine] that the threads of a
    device share one open handle and that the last of them closes it, as long as
    [fla_open] does not fail and no thread looks for a handle while the pointer of
    another one leads to freed data,
    [FioFiles] that the files of a thread keep what was written to them.  [Dispatch]
    shows that a client of the daemon gets the results of a direct handle, [Clients]
    that the daemon serialises the calls of all its clients and gives each its own
    results, [SharedPool] that clients of one pool never hold the same or overlapping
    objects, [DaemonLoop] the invariant of the table of clients, up to the first undefined pass,
    and that the daemon ends once its clients have closed, [Socket] that messages are sent and received whole or
    an error is returned.  The component files show what these rest on: freelists refine
    bitmaps, partly satisfied requests apart, and the hash table a finite map, updates in
    a full table apart, list operations keep the links of every
    list, a flushed freelist is loaded back unchanged from the last blocks of its slab, the layout fits the device and
    slabs are disjoint, chunked transfers equal one transfer.

    Some theorems show where the code departs from what it means to do: with two
    pools objects can overlap ([History.two_pools_overlap]), unaligned writes are not
    checked against the object ([Store.unaligned_write_unchecked]) and offsets near 2^64 pass the check of the aligned
    ones ([Store]), a failed allocation makes a second pool of the same name and the
    functions of some pools are not installed on opening ([Directory]), some requests
    are not served as the library serves them ([Dispatch.remote_calls_differ]), a closed
    connection is taken for an answer ([Socket.recv_msg_closed]), a full table of
    clients or a long message is undefined behaviour ([DaemonLoop]), a new client can make
    the daemon wait for it ([Clients.new_client_blocks]), the daemon ends
    without writing what its clients changed ([DaemonMain.daemon_loses_changes]), destroying a pool
    with objects takes a slab out of its list ([PoolLife.pool_destroy_in_use]) and short
    names cannot always be destroyed ([PoolLife.pool_destroy_departs]),
    the checks need not end ([Inspect.inspect_loops]), striped transfers overrun
    their buffer and lose errors ([StripedIO]), the formatting program exits with 0 when
    formatting fails ([Cli]), and threads of the fio engine lose handles
    ([FioEngine.engine_nobody_closes], [FioEngine.engine_handles_lost]).  Because of the first of these the allocator's
    invariant is stated for a pool at entry 0, the one entry for which the owner
    recorded in a slab header is right.

    ** Bounds

    A device has fewer than 2^31 blocks ([geo_ok]) and slab ids are below the list
    terminator 2^31 - 1.  Names are taken from a finite set [U] without colliding
    secondary hashes ([keys_ok]), since the table compares hashes only.  Tables have
    fewer than 2^16 slots, the range of the probe length.  Loop bounds are the sizes
    of the arrays walked: [S] of the number of blocks for transfers, the number of
    headers for lists, the table size for probing; the theorems show they suffice.
    Sending takes at most one call per byte and interruption, receiving a message
    three retries, and shutting the daemon down as many passes as there are clients.
    A striped transfer has at most 512 objects and one completion per block and object
    ([completions_max]); a busy queue is asked again [retries] times, which
    [queue_patience] bounds.  The checks take one round per slot of the table.
    A line of arguments is any list of words; [Getopt.getopt_long] goes through it once.
    [Clients] is about connected clients that make the calls of [Dispatch.call] and leave;
    none connects while it runs, because of [Clients.new_client_blocks].  The threads of the
    fio engine are any number; [FioFiles] is about one of them, since the engine does
    not serialise the allocator calls of threads that share a handle.
    For [Durability], [Sync] and [Restart] the metadata is smaller than 2^32 bytes, a block is a multiple of
    4 bytes and there are fewer than 2^15 pools, not 32 of them.

    ** Not modelled

    The text around printed values and the error messages, [fla_max_open_files], the
    vendored containers ([flexalloc_uthash.h], [flexalloc_utlist.h]), the tables with
    which the engine registers with fio, the examples and the tests.  No pool selects
    striped transfers ([ObjectIO.io_striped_never]), so [fla_object_read] and
    [fla_object_write] do not call them.  Freeing memory and closing devices have
    no effect that the model keeps. *)
From Stdlib Require Export ZArith Lia.
From stdpp Require Export base option numbers list gmap.

#[global] Open Scope Z_scope.
#[global] Set Default Goal Selector "!".

(** ** Tactics *)

(** One bind of the option monad whose first part is known. *)
Ltac bind_step := cbn [mbind option_bind].
(** Past an error check whose code is 0. *)
Ltac no_err := change (negb (0 =? 0)) with false; cbv iota.

(** Split a successful computation into the steps that led to it. *)
Ltac run_inv := repeat (cbn [mbind option_bind] in *; simplify_eq; match goal with
  | H : mbind _ ?x = Some _ |- _ => let E := fresh "E" in destruct x eqn:E; [|discriminate H]
  | H : (let '(_, _) := ?p in _) = Some _ |- _ => destruct p eqn:?
  | H : (if ?b then _ else _) = Some _ |- _ => destruct b eqn:?
  | H : match ?x with _ => _ end = Some _ |- _ => destruct x eqn:?
  end); cbn [mbind option_bind] in *; simplify_eq.

(** ** Machine integers

    A C unsigned integer of width [w] is the [Z] in [0 .. 2^w) that it denotes;
    every arithmetic result that the source stores in a [w]-bit object goes
    through the reduction below. *)

Definition u8 (x : Z) : Z := x mod 2 ^ 8.
Definition u16 (x : Z) : Z := x mod 2 ^ 16.
Definition u32 (x : Z) : Z := x mod 2 ^ 32.
Definition u64 (x : Z) : Z := x mod 2 ^ 64.

(** Conversion to [int] (two's complement, the implementation-defined
    conversion of every compiler the project builds with). *)
Definition i32 (x : Z) : Z := (x + 2 ^ 31) mod 2 ^ 32 - 2 ^ 31.

Definition is_u16 (x : Z) : Prop := 0 <= x < 2 ^ 16.
Definition is_u32 (x : Z) : Prop := 0 <= x < 2 ^ 32.
Definition is_u64 (x : Z) : Prop := 0 <= x < 2 ^ 64.

(** Bitwise complement of a 32-bit word. *)
Definition not32 (x : Z) : Z := 2 ^ 32 - 1 - x.

Lemma u16_small x : is_u16 x -> u16 x = x.
Proof. apply Z.mod_small. Qed.
Lemma u32_small x : is_u32 x -> u32 x = x.
Proof. apply Z.mod_small. Qed.
Lemma u64_small x : is_u64 x -> u64 x = x.
Proof. apply Z.mod_small. Qed.

Lemma u16_range x : is_u16 (u16 x).
Proof. apply Z.mod_pos_bound; lia. Qed.
Lemma u32_range x : is_u32 (u32 x).
Proof. apply Z.mod_pos_bound; lia. Qed.
Lemma u64_range x : is_u64 (u64 x).
Proof. apply Z.mod_pos_bound; lia. Qed.

Lemma i32_small x : - 2 ^ 31 <= x < 2 ^ 31 -> i32 x = x.
Proof. intros ?. unfold i32. rewrite Z.mod_small; lia. Qed.

(** The [errno] values of Linux the sources return. *)
Definition ENOENT : Z := 2.
Definition EIO : Z := 5.
Definition EAGAIN : Z := 11.
Definition ENOMEM : Z := 12.
Definition EBUSY : Z := 16.
Definition ENOSPC : Z := 28.
Definition EINVAL : Z := 22.

Create HintDb flex.
#[export] Hint Resolve u16_range u32_range u64_range : flex.

(** ** Lists as arrays *)

Lemma list_alter_insert {A} (g : A -> A) (l : list A) k x :
  l !! k = Some x -> alter g k l = <[k := g x]> l.
Proof.
  intros Hk. pose proof (lookup_lt_Some _ _ _ Hk). apply list_eq. intros j.
  destruct (decide (k = j)) as [->|].
  - by rewrite list_lookup_alter_eq, list_lookup_insert_eq, Hk.
  - by rewrite list_lookup_alter_ne, list_lookup_insert_ne.
Qed.

Lemma length_filter_fmap {A B} (g : A -> B) (P : B -> Prop) `{!forall x, Decision (P x)} (l : list A) :
  length (filter P (g <$> l)) = length (filter (fun x => P (g x)) l).
Proof.
  induction l as [|x l IH]; [done|]. cbn [fmap list_fmap]. rewrite !filter_cons.
  case_decide; cbn; by rewrite IH.
Qed.

(** Overwriting one element changes a filter's length by that element only. *)
Lemma length_filter_insert {A} (P : A -> Prop) `{!forall x, Decision (P x)} (l : list A) k x y :
  l !! k = Some y ->
  (length (filter P (<[k := x]> l)) + (if decide (P y) then 1 else 0) =
   length (filter P l) + (if decide (P x) then 1 else 0))%nat.
Proof.
  revert k. induction l as [|z l IH]; intros k Hk; [done|].
  destruct k as [|k].
  - change (<[0%nat := x]> (z :: l)) with (x :: l). injection Hk as ->.
    rewrite !filter_cons. repeat case_decide; cbn [length]; lia.
  - change (<[S k := x]> (z :: l)) with (z :: <[k := x]> l). specialize (IH k Hk).
    rewrite !filter_cons. repeat case_decide; cbn [length] in *; lia.
Qed.

(** Indexing an array with a C integer; a negative index is outside. *)
Definition lookupZ {A} (l : list A) (i : Z) : option A := if i <? 0 then None else l !! Z.to_nat i.
Definition insertZ {A} (i : Z) (x : A) (l : list A) : list A :=
  if i <? 0 then l else <[Z.to_nat i := x]> l.

Lemma lookupZ_nat {A} (l : list A) i : lookupZ l (Z.of_nat i) = l !! i.
Proof. unfold lookupZ. rewrite (proj2 (Z.ltb_ge _ 0)) by lia. by rewrite Nat2Z.id. Qed.
Lemma insertZ_nat {A} (l : list A) i x : insertZ (Z.of_nat i) x l = <[i := x]> l.
Proof. unfold insertZ. rewrite (proj2 (Z.ltb_ge _ 0)) by lia. by rewrite Nat2Z.id. Qed.

Lemma lookupZ_Some {A} (l : list A) i x :
  lookupZ l i = Some x -> 0 <= i < Z.of_nat (length l).
Proof.
  unfold lookupZ. destruct (Z.ltb_spec i 0); [done|]. intros ?%lookup_lt_Some. lia.
Qed.

Lemma lookupZ_is_Some {A} (l : list A) i :
  0 <= i < Z.of_nat (length l) -> exists x, lookupZ l i = Some x.
Proof.
  intros. unfold lookupZ. rewrite (proj2 (Z.ltb_ge _ _)) by lia.
  destruct (lookup_lt_is_Some_2 l (Z.to_nat i)) as [x Hx]; [lia|]. by exists x.
Qed.

Lemma length_insertZ {A} i (x : A) l : length (insertZ i x l) = length l.
Proof. unfold insertZ. destruct (i <? 0); [done|apply length_insert]. Qed.

Lemma lookupZ_insertZ_eq {A} (l : list A) i x :
  0 <= i < Z.of_nat (length l) -> lookupZ (insertZ i x l) i = Some x.
Proof.
  intros. unfold lookupZ, insertZ. rewrite (proj2 (Z.ltb_ge _ _)) by lia.
  apply list_lookup_insert_eq. lia.
Qed.

Lemma lookupZ_insertZ_ne {A} (l : list A) i j x :
  i <> j -> lookupZ (insertZ i x l) j = lookupZ l j.
Proof.
  intros. unfold lookupZ, insertZ. destruct (Z.ltb_spec j 0); [done|].
  destruct (Z.ltb_spec i 0); [done|]. apply list_lookup_insert_ne. lia.
Qed.

Lemma lookupZ_insertZ_Some {A} (l : list A) i j x y :
  lookupZ (insertZ i x l) j = Some y -> (i = j /\ x = y) \/ (i <> j /\ lookupZ l j = Some y).
Proof.
  intros H. pose proof (lookupZ_Some _ _ _ H) as Hj. rewrite length_insertZ in Hj.
  destruct (decide (i = j)) as [<-|].
  - rewrite lookupZ_insertZ_eq in H by done. left. by simplify_eq.
  - rewrite lookupZ_insertZ_ne in H by done. by right.
Qed.

Lemma lookupZ_ext {A} (l l' : list A) : (forall i, lookupZ l i = lookupZ l' i) -> l = l'.
Proof.
  intros H. apply list_eq. intros i. specialize (H (Z.of_nat i)). unfold lookupZ in H.
  rewrite (proj2 (Z.ltb_ge _ _)), Nat2Z.id in H by lia. done.
Qed.

Lemma lookupZ_fmap {A B} (f : A -> B) l i : lookupZ (f <$> l) i = f <$> lookupZ l i.
Proof. unfold lookupZ. destruct (i <? 0); [done|]. apply list_lookup_fmap. Qed.

Lemma filter_all {A} (P : A -> Prop) `{!forall x, Decision (P x)} (l : list A) :
  (forall x, x ∈ l -> P x) -> filter P l = l.
Proof.
  induction l as [|x l IH]; intros Hl; [done|].
  rewrite filter_cons_True, IH; [done|intros; apply Hl; set_solver|apply Hl; set_solver].
Qed.

(** Injectivity for results of three components, without evaluating them. *)
Lemma Some2_inj {A B} (a a' : A) (b b' : B) : Some (a, b) = Some (a', b') -> a = a' /\ b = b'.
Proof. by intros [= -> ->]. Qed.
Lemma Some3_inj {A B C} (a a' : A) (b b' : B) (c c' : C) :
  Some (a, b, c) = Some (a', b', c') -> a = a' /\ b = b' /\ c = c'.
Proof. by intros [= -> -> ->]. Qed.

Lemma Some4_inj {A B C D} (a a' : A) (b b' : B) (c c' : C) (d d' : D) :
  Some (a, b, c, d) = Some (a', b', c', d') -> a = a' /\ b = b' /\ c = c' /\ d = d'.
Proof. by intros [= -> -> -> ->]. Qed.
