(* ===== verification/Bits.v ===== *)
(** * Bits: [src/src/flexalloc_bits.c]

    The two bit tricks the freelist is built on, [ntz] (number of trailing zero
    bits) and [count_set_bits] (population count), as the source computes them,
    and the reference definitions they are proved equal to. *)
From S2P Require Import Prelude.

(** ** The routines *)

(** [ntz]: the four "batch" tests of the source, in its order; [n] and [x] are
    the two 32-bit locals it updates. *)
Definition ntz (x : Z) : Z :=
  if x =? 0 then 32
  else
    let n := 1 in
    let '(n, x) := if Z.land x 0x0000FFFF =? 0 then (u32 (n + 16), Z.shiftr x 16) else (n, x) in
    let '(n, x) := if Z.land x 0x000000FF =? 0 then (u32 (n + 8), Z.shiftr x 8) else (n, x) in
    let '(n, x) := if Z.land x 0x0000000F =? 0 then (u32 (n + 4), Z.shiftr x 4) else (n, x) in
    let '(n, x) := if Z.land x 0x00000003 =? 0 then (u32 (n + 2), Z.shiftr x 2) else (n, x) in
    u32 (n - Z.land x 1).

(** [count_set_bits]: the Hacker's Delight population count, each addition
    reduced to 32 bits. *)
Definition count_set_bits (val : Z) : Z :=
  let val := u32 (Z.land val 0x55555555 + Z.land (Z.shiftr val 1) 0x55555555) in
  let val := u32 (Z.land val 0x33333333 + Z.land (Z.shiftr val 2) 0x33333333) in
  let val := u32 (Z.land val 0x0F0F0F0F + Z.land (Z.shiftr val 4) 0x0F0F0F0F) in
  let val := u32 (Z.land val 0x00FF00FF + Z.land (Z.shiftr val 8) 0x00FF00FF) in
  u32 (Z.land val 0x0000FFFF + Z.land (Z.shiftr val 16) 0x0000FFFF).

(** ** Reference definitions *)

(** [t] is the index of the lowest set bit of [x]. *)
Definition lowest_bit (x t : Z) : Prop :=
  0 <= t /\ Z.testbit x t = true /\ (forall i, 0 <= i < t -> Z.testbit x i = false).

(** Sum of the [n] lowest base-[2^w] digits of [v]; [digit_sum 1 n v] is the
    number of ones among the [n] lowest bits. *)
Fixpoint digit_sum (w : Z) (n : nat) (v : Z) : Z :=
  match n with
  | O => 0
  | S n => v mod 2 ^ w + digit_sum w n (v / 2 ^ w)
  end.

Definition popcount (n : nat) (v : Z) : Z := digit_sum 1 n v.

(** ** [ntz] *)

Lemma lowest_bit_unique x t t' : lowest_bit x t -> lowest_bit x t' -> t = t'.
Proof.
  intros (? & Ht & Hlt) (? & Ht' & Hlt').
  destruct (Z.lt_trichotomy t t') as [?|[?|?]]; [|done|].
  - rewrite Hlt' in Ht by lia. done.
  - rewrite Hlt in Ht' by lia. done.
Qed.

Lemma lowest_bit_shift x k t :
  0 <= k -> lowest_bit x t -> lowest_bit (x * 2 ^ k) (t + k).
Proof.
  intros ? (? & Ht & Hlt). split_and!; [lia| |].
  - rewrite Z.mul_pow2_bits by lia. by replace (t + k - k) with t by lia.
  - intros i ?. rewrite Z.mul_pow2_bits by lia.
    destruct (decide (i < k)); [by apply Z.testbit_neg_r; lia|]. apply Hlt. lia.
Qed.

(** One batch of [ntz]: a state [(n, x)] stands for [x * 2^(n-1)], the argument
    of the call, and a batch of [k] bits leaves a set bit among the [k] lowest. *)
Definition ntz_state (x0 k : Z) (st : Z * Z) : Prop :=
  1 <= st.1 <= 33 - k /\ 0 <= st.2 /\ x0 = st.2 * 2 ^ (st.1 - 1) /\ st.2 mod 2 ^ k <> 0.

Lemma ntz_batch x0 k n x :
  0 < k <= 16 -> ntz_state x0 (2 * k) (n, x) ->
  ntz_state x0 k (if Z.land x (Z.ones k) =? 0 then (u32 (n + k), Z.shiftr x k) else (n, x)).
Proof.
  unfold ntz_state. cbn [fst snd]. intros Hk (Hn & Hx & Heq & Hnz).
  rewrite Z.land_ones by lia. destruct (Z.eqb_spec (x mod 2 ^ k) 0) as [H0|?]; cbn [fst snd].
  2: { split_and!; try lia. }
  rewrite Z.shiftr_div_pow2 by lia. rewrite u32_small by (unfold is_u32; lia).
  pose proof (Z.pow_pos_nonneg 2 k ltac:(lia) ltac:(lia)) as Hpk.
  pose proof (Z.div_mod x (2 ^ k) ltac:(lia)) as Hdm.
  pose proof (Z.div_pos x (2 ^ k) ltac:(lia) Hpk).
  split_and!; [lia|lia|lia| |].
  - replace (n + k - 1) with (k + (n - 1)) by lia. rewrite Z.pow_add_r by lia.
    rewrite Z.mul_assoc. rewrite <- Z.mul_comm with (n := 2 ^ k). rewrite Heq. f_equal. lia.
  - intros Hm. apply Hnz. replace (2 * k) with (k + k) by lia. rewrite Z.pow_add_r by lia.
    rewrite Z.rem_mul_r by lia. lia.
Qed.

Lemma ntz_finish x0 n x :
  ntz_state x0 2 (n, x) -> lowest_bit x0 (u32 (n - Z.land x 1)) /\ u32 (n - Z.land x 1) < 32.
Proof.
  intros (Hn & Hx & -> & Hnz). cbn [fst snd] in *.
  assert (Z.land x 1 = x mod 2) as -> by (apply (Z.land_ones x 1); lia).
  assert (x mod 2 = 0 \/ x mod 2 = 1) as [Hm|Hm] by (pose proof (Z.mod_pos_bound x 2); lia).
  all: rewrite Hm, u32_small by (unfold is_u32; lia).
  - rewrite Z.sub_0_r. split; [|lia]. replace n with (1 + (n - 1)) at 2 by lia.
    apply lowest_bit_shift; [lia|]. split_and!; [lia| |].
    + rewrite Z.testbit_true by lia. change (2 ^ 1) with 2. change (2 ^ 2) with (2 * 2) in Hnz.
      rewrite Z.rem_mul_r in Hnz by lia. pose proof (Z.mod_pos_bound (x / 2) 2). lia.
    + intros i ?. replace i with 0 by lia. rewrite Z.testbit_false by lia.
      by rewrite Z.pow_0_r, Z.div_1_r.
  - split; [|lia]. replace (n - 1) with (0 + (n - 1)) at 2 by lia.
    apply lowest_bit_shift; [lia|]. split_and!; [lia| |lia].
    rewrite Z.testbit_true by lia. by rewrite Z.pow_0_r, Z.div_1_r.
Qed.

Lemma ntz_lowest x : is_u32 x -> x <> 0 -> lowest_bit x (ntz x) /\ ntz x < 32.
Proof.
  intros Hx Hnz. unfold ntz. destruct (Z.eqb_spec x 0); [done|]. cbv zeta.
  change 0x0000FFFF with (Z.ones 16). change 0x000000FF with (Z.ones 8).
  change 0x0000000F with (Z.ones 4). change 0x00000003 with (Z.ones 2).
  assert (ntz_state x 32 (1, x)) as H0.
  { unfold ntz_state, is_u32 in *. cbn [fst snd]. rewrite Z.mod_small by lia. split_and!; lia. }
  pose proof (ntz_batch x 16 1 x ltac:(lia) H0) as H1. destruct (if _ =? 0 then _ else _) as [n1 x1].
  pose proof (ntz_batch x 8 n1 x1 ltac:(lia) H1) as H2. destruct (if _ =? 0 then _ else _) as [n2 x2].
  pose proof (ntz_batch x 4 n2 x2 ltac:(lia) H2) as H3. destruct (if _ =? 0 then _ else _) as [n3 x3].
  pose proof (ntz_batch x 2 n3 x3 ltac:(lia) H3) as H4. destruct (if _ =? 0 then _ else _) as [n4 x4].
  by apply ntz_finish.
Qed.

(** ** [count_set_bits] *)

(** [lanes w n v] adds, in each of the [n] lanes of [2w] bits of [v], the two
    halves of the lane. *)
Fixpoint lanes (w : Z) (n : nat) (v : Z) : Z :=
  match n with
  | O => 0
  | S n => v mod 2 ^ w + (v / 2 ^ w) mod 2 ^ w + 2 ^ (2 * w) * lanes w n (v / 2 ^ (2 * w))
  end.

(** The mask with the low half of each of [n] lanes set. *)
Fixpoint lane_mask (w : Z) (n : nat) : Z :=
  match n with
  | O => 0
  | S n => Z.ones w + 2 ^ (2 * w) * lane_mask w n
  end.

Lemma land_split k a b a' b' :
  0 <= k -> 0 <= a < 2 ^ k -> 0 <= a' < 2 ^ k ->
  Z.land (a + 2 ^ k * b) (a' + 2 ^ k * b') = Z.land a a' + 2 ^ k * Z.land b b'.
Proof.
  intros Hk Ha Ha'. rewrite !(Z.mul_comm (2 ^ k)), <- !Z.shiftl_mul_pow2 by lia.
  assert (forall x i, 0 <= x < 2 ^ k -> k <= i -> Z.testbit x i = false) as Hhi.
  { intros x i ? ?. rewrite <- (Z.mod_small x (2 ^ k)) by lia. by apply Z.mod_pow2_bits_high. }
  assert (forall x y, 0 <= x < 2 ^ k -> x + Z.shiftl y k = Z.lor x (Z.shiftl y k)) as Hor.
  { intros x y Hx. rewrite <- Z.lxor_lor; [apply Z.add_nocarry_lxor|];
      (apply Z.bits_inj'; intros i Hi; rewrite Z.land_spec, Z.bits_0, Z.shiftl_spec by lia;
       destruct (decide (i < k)); [by rewrite (Z.testbit_neg_r y), andb_false_r by lia|];
       by rewrite (Hhi x) by lia). }
  assert (0 <= Z.land a a' < 2 ^ k).
  { split; [apply Z.land_nonneg; lia|]. rewrite <- (Z.mod_small a (2 ^ k)) by lia.
    rewrite <- Z.land_ones, <- Z.land_assoc, (Z.land_comm (Z.ones k)), Z.land_assoc, Z.land_ones by lia.
    apply Z.mod_pos_bound. lia. }
  rewrite !Hor by lia. apply Z.bits_inj'. intros i Hi.
  rewrite !Z.lor_spec, !Z.land_spec, !Z.lor_spec, !Z.shiftl_spec, !Z.land_spec by lia.
  destruct (decide (i < k)).
  - rewrite !(Z.testbit_neg_r _ (i - k)) by lia. cbn. by rewrite !orb_false_r.
  - by rewrite (Hhi a), (Hhi a') by lia.
Qed.

Lemma lane_mask_land w n v :
  0 < w -> 0 <= v ->
  Z.land v (lane_mask w n) + Z.land (Z.shiftr v w) (lane_mask w n) = lanes w n v.
Proof.
  intros Hw. revert v. induction n as [|n IH]; intros v Hv.
  { cbn [lane_mask lanes]. by rewrite !Z.land_0_r. }
  cbn [lane_mask lanes].
  assert (0 < 2 ^ w) by (apply Z.pow_pos_nonneg; lia).
  assert (2 ^ (2 * w) = 2 ^ w * 2 ^ w) as Hp by (rewrite <- Z.pow_add_r by lia; f_equal; lia).
  assert (forall x, 0 <= x -> Z.land x (Z.ones w + 2 ^ (2 * w) * lane_mask w n)
            = x mod 2 ^ w + 2 ^ (2 * w) * Z.land (x / 2 ^ (2 * w)) (lane_mask w n)) as Hland.
  { intros x Hx. rewrite (Z.div_mod x (2 ^ (2 * w))) at 1 by lia. rewrite Z.add_comm.
    rewrite land_split; [|lia|apply Z.mod_pos_bound; lia|].
    2: { rewrite Z.ones_equiv, Hp. nia. }
    rewrite Z.land_ones by lia. f_equal. rewrite Hp, Z.rem_mul_r by lia.
    rewrite Z.mul_comm, Z.mod_add by lia. apply Z.mod_small. apply Z.mod_pos_bound. lia. }
  rewrite Z.shiftr_div_pow2 by lia.
  rewrite !Hland by (try apply Z.div_pos; lia).
  rewrite <- (IH (v / 2 ^ (2 * w))) by (apply Z.div_pos; lia).
  rewrite Z.shiftr_div_pow2 by lia.
  rewrite (Z.div_div v (2 ^ w)), (Z.div_div v (2 ^ (2 * w)) (2 ^ w)) by lia.
  rewrite (Z.mul_comm (2 ^ w) (2 ^ (2 * w))). lia.
Qed.

Lemma lanes_range w n v : 0 < w -> 0 <= lanes w n v < 2 ^ (2 * w * Z.of_nat n).
Proof.
  intros Hw. revert v. induction n as [|n IH]; intros v; cbn [lanes].
  { replace (2 * w * Z.of_nat 0) with 0 by lia. cbn. lia. }
  assert (0 < 2 ^ w) by (apply Z.pow_pos_nonneg; lia).
  assert (2 ^ (2 * w) = 2 ^ w * 2 ^ w) as Hp by (rewrite <- Z.pow_add_r by lia; f_equal; lia).
  replace (2 * w * Z.of_nat (S n)) with (2 * w + 2 * w * Z.of_nat n) by lia.
  rewrite Z.pow_add_r by lia. specialize (IH (v / 2 ^ (2 * w))).
  pose proof (Z.mod_pos_bound v (2 ^ w) ltac:(lia)).
  pose proof (Z.mod_pos_bound (v / 2 ^ w) (2 ^ w) ltac:(lia)).
  assert (2 * 2 ^ w <= 2 ^ (2 * w)).
  { rewrite Hp. pose proof (Z.pow_le_mono_r 2 1 w ltac:(lia) ltac:(lia)). nia. }
  nia.
Qed.

(** The sum of the digits survives a lane addition: this is why the population
    count can be taken two bits, then four, then eight at a time. *)
Lemma digit_sum_lanes w n v :
  0 < w -> 0 <= v -> digit_sum (2 * w) n (lanes w n v) = digit_sum w (2 * n) v.
Proof.
  intros Hw. revert v. induction n as [|n IH]; intros v Hv; [done|].
  replace (2 * S n)%nat with (S (S (2 * n))) by lia. cbn [digit_sum lanes].
  assert (0 < 2 ^ w) by (apply Z.pow_pos_nonneg; lia).
  assert (2 ^ (2 * w) = 2 ^ w * 2 ^ w) as Hp by (rewrite <- Z.pow_add_r by lia; f_equal; lia).
  pose proof (Z.mod_pos_bound v (2 ^ w) ltac:(lia)).
  pose proof (Z.mod_pos_bound (v / 2 ^ w) (2 ^ w) ltac:(lia)).
  assert (2 * 2 ^ w <= 2 ^ (2 * w)).
  { rewrite Hp. pose proof (Z.pow_le_mono_r 2 1 w ltac:(lia) ltac:(lia)). nia. }
  set (s := v mod 2 ^ w + _) in *.
  rewrite (Z.mul_comm (2 ^ (2 * w))), Z.mod_add, Z.div_add by lia.
  rewrite (Z.mod_small s), (Z.div_small s) by lia. rewrite Z.add_0_l.
  rewrite IH by (apply Z.div_pos; lia). rewrite Z.div_div by lia. rewrite <- Hp. lia.
Qed.

(** One step of [count_set_bits]. *)
Lemma count_step w n v :
  0 < w -> 2 * w * Z.of_nat n = 32 -> 0 <= v ->
  let v' := u32 (Z.land v (lane_mask w n) + Z.land (Z.shiftr v w) (lane_mask w n)) in
  0 <= v' < 2 ^ 32 /\ digit_sum (2 * w) n v' = digit_sum w (2 * n) v.
Proof.
  intros Hw Hn Hv. cbv zeta. rewrite lane_mask_land by lia.
  pose proof (lanes_range w n v Hw) as Hr. rewrite Hn in Hr.
  rewrite u32_small by done. split; [done|]. by apply digit_sum_lanes.
Qed.

Lemma count_set_bits_popcount v : is_u32 v -> count_set_bits v = popcount 32 v.
Proof.
  intros Hv. unfold count_set_bits, popcount. cbv zeta.
  change 0x55555555 with (lane_mask 1 16). change 0x33333333 with (lane_mask 2 8).
  change 0x0F0F0F0F with (lane_mask 4 4). change 0x00FF00FF with (lane_mask 8 2).
  change 0x0000FFFF with (lane_mask 16 1).
  destruct (count_step 1 16 v) as [R1 E1]; [lia..|unfold is_u32 in Hv; lia|].
  set (v1 := u32 _) in *. clearbody v1.
  destruct (count_step 2 8 v1) as [R2 E2]; [lia..|].
  set (v2 := u32 _) in *. clearbody v2.
  destruct (count_step 4 4 v2) as [R3 E3]; [lia..|].
  set (v3 := u32 _) in *. clearbody v3.
  destruct (count_step 8 2 v3) as [R4 E4]; [lia..|].
  set (v4 := u32 _) in *. clearbody v4.
  destruct (count_step 16 1 v4) as [R5 E5]; [lia..|].
  set (v5 := u32 _) in *. clearbody v5.
  change (2 * 16)%nat with 32%nat in E1. rewrite <- E1.
  change (2 * 1) with 2 in *. change (2 * 8)%nat with 16%nat in E2. rewrite <- E2.
  change (2 * 2) with 4 in *. change (2 * 4)%nat with 8%nat in E3. rewrite <- E3.
  change (2 * 4) with 8 in *. change (2 * 2)%nat with 4%nat in E4. rewrite <- E4.
  change (2 * 8) with 16 in *. change (2 * 1)%nat with 2%nat in E5. rewrite <- E5.
  cbn [digit_sum]. change (2 * 16) with 32. rewrite Z.mod_small by lia. lia.
Qed.

(** ** Isolating one bit of a word *)

Lemma is_u32_testbit w i : is_u32 w -> 32 <= i -> Z.testbit w i = false.
Proof.
  intros Hw Hi. rewrite <- (Z.mod_small w (2 ^ 32)) by done. by apply Z.mod_pow2_bits_high.
Qed.

Lemma u32_testbit x i : 0 <= i < 32 -> Z.testbit (u32 x) i = Z.testbit x i.
Proof. intros Hi. apply Z.mod_pow2_bits_low. lia. Qed.

Lemma not32_testbit w i : is_u32 w -> 0 <= i < 32 -> Z.testbit (not32 w) i = negb (Z.testbit w i).
Proof.
  intros Hw Hi. rewrite <- Z.lnot_spec by lia. rewrite <- (u32_testbit (Z.lnot w)) by lia.
  f_equal. unfold u32, not32, Z.lnot, is_u32 in *. symmetry.
  replace (Z.pred (- w)) with ((2 ^ 32 - 1 - w) + (-1) * 2 ^ 32) by lia.
  rewrite Z.mod_add by lia. apply Z.mod_small. lia.
Qed.

Lemma not32_range w : is_u32 w -> is_u32 (not32 w).
Proof. unfold is_u32, not32. lia. Qed.

Lemma lowest_bit_pow2 t : 0 <= t -> lowest_bit (2 ^ t) t.
Proof.
  intros Ht. split_and!; [done|by apply Z.pow2_bits_true|].
  intros i Hi. apply Z.pow2_bits_false. lia.
Qed.

Lemma ntz_pow2 t : 0 <= t < 32 -> ntz (2 ^ t) = t.
Proof.
  intros Ht. assert (is_u32 (2 ^ t)) as Hu.
  { split; [apply Z.pow_nonneg; lia|apply Z.pow_lt_mono_r; lia]. }
  destruct (ntz_lowest (2 ^ t) Hu) as [H _]; [pose proof (Z.pow_pos_nonneg 2 t); lia|].
  eapply lowest_bit_unique; [done|apply lowest_bit_pow2; lia].
Qed.

(** [w & -w] keeps exactly the lowest set bit of [w]. *)
Lemma land_opp_lowest w t :
  is_u32 w -> lowest_bit w t -> t < 32 -> Z.land w (u32 (- w)) = 2 ^ t.
Proof.
  intros Hw (Ht0 & Ht & Hlo) Ht32.
  assert (forall i, 0 <= i < 32 -> Z.testbit (- w) i = if decide (i < t) then false
            else if decide (i = t) then true else negb (Z.testbit w i)) as Hopp.
  { intros i Hi. set (q := w / 2 ^ (t + 1)).
    assert (w = 2 ^ t + q * 2 ^ (t + 1)) as Hq.
    { subst q. rewrite (Z.div_mod w (2 ^ (t + 1))) at 1 by (apply Z.pow_nonzero; lia).
      enough (w mod 2 ^ (t + 1) = 2 ^ t) by lia.
      apply Z.bits_inj'. intros j Hj. rewrite Z.testbit_mod_pow2, Z.pow2_bits_eqb by lia.
      destruct (Z.ltb_spec j (t + 1)), (Z.eqb_spec t j); cbn; subst; try done; try lia.
      apply Hlo. lia. }
    assert (- w = 2 ^ t + Z.lnot q * 2 ^ (t + 1)) as ->.
    { rewrite Hq. unfold Z.lnot. rewrite Z.pow_add_r by lia. lia. }
    assert (Z.testbit w i = Z.testbit (2 ^ t + q * 2 ^ (t + 1)) i) as -> by congruence.
    assert (forall p, Z.testbit (2 ^ t + p * 2 ^ (t + 1)) i
      = if decide (i <= t) then Z.eqb i t else Z.testbit p (i - t - 1)) as Hbits.
    { intros p. destruct (decide (i <= t)).
      - rewrite <- (Z.mod_pow2_bits_low _ (t + 1)) by lia.
        rewrite Z.mod_add by (apply Z.pow_nonzero; lia).
        rewrite Z.mod_pow2_bits_low, Z.pow2_bits_eqb by lia. lia.
      - replace i with (i - (t + 1) + (t + 1)) at 1 by lia.
        rewrite <- Z.div_pow2_bits by lia.
        rewrite Z.div_add by (apply Z.pow_nonzero; lia).
        rewrite Z.div_small; [|split; [apply Z.pow_nonneg; lia|apply Z.pow_lt_mono_r; lia]].
        by replace (i - (t + 1)) with (i - t - 1) by lia. }
    rewrite !Hbits. repeat case_decide; try lia. by rewrite Z.lnot_spec by lia. }
  apply Z.bits_inj'. intros i Hi. rewrite Z.land_spec, Z.pow2_bits_eqb by lia.
  destruct (decide (i < 32)).
  - rewrite u32_testbit, Hopp by lia. destruct (Z.eqb_spec t i) as [<-|].
    + rewrite Ht. by repeat case_decide; try lia.
    + repeat case_decide; try lia. by rewrite andb_negb_r.
  - rewrite is_u32_testbit by (done || lia). cbn. symmetry. apply Z.eqb_neq. lia.
Qed.

(** ** Properties *)

(** for a non-zero 32-bit word, [ntz] returns the index of its lowest set
    bit (in particular a value below 32), and 32 for zero. *)
Theorem ntz_correct x :
  is_u32 x ->
  (x = 0 -> ntz x = 32) /\
  (x <> 0 -> ntz x < 32 /\ Z.testbit x (ntz x) = true /\
             forall i, 0 <= i < ntz x -> Z.testbit x i = false).
Proof.
  intros Hx. split; [by intros ->|]. intros Hnz.
  destruct (ntz_lowest x Hx Hnz) as [(_ & ? & ?) ?]. by split_and!.
Qed.

Lemma ntz_correct_witness : is_u32 40 /\ ntz 40 < 32 /\ Z.testbit 40 (ntz 40) = true.
Proof.
  assert (is_u32 40) as H by (split; vm_compute; congruence).
  destruct (ntz_correct 40 H) as [_ H1]. destruct (H1 ltac:(discriminate)) as (? & ? & _). auto.
Defined.

(** The branch-free population count of [count_set_bits] equals the number
    of set bits of a 32-bit word, with no intermediate overflow. *)
Theorem count_set_bits_correct v :
  is_u32 v -> count_set_bits v = Z.of_nat (length (filter (fun i => Z.testbit v (Z.of_nat i) = true) (seq 0 32))).
Proof.
  intros Hv. rewrite count_set_bits_popcount by done. unfold popcount. generalize 32%nat.
  assert (0 <= v) as Hnn by apply Hv. clear Hv. intros n. revert v Hnn.
  induction n as [|n IH]; intros v Hv; [done|]. cbn [digit_sum].
  rewrite IH by (apply Z.div_pos; lia). change (seq 0 (S n)) with ([0%nat] ++ seq 1 n).
  rewrite filter_app, length_app, <- fmap_S_seq, length_filter_fmap, Nat2Z.inj_add. f_equal.
  - rewrite filter_cons, filter_nil. change (Z.of_nat 0) with 0. rewrite Z.bit0_eqb. change (2 ^ 1) with 2.
    pose proof (Z.mod_pos_bound v 2). destruct (Z.eqb_spec (v mod 2) 1); case_decide; cbn; lia || congruence.
  - do 2 f_equal. apply list_filter_iff. intros i. cbn.
    rewrite Z.div_pow2_bits by lia. by replace (Z.of_nat i + 1) with (Z.of_nat (S i)) by lia.
Qed.

