(* ===== verification/Util.v ===== *)
(** * Util: [src/src/flexalloc_util.c] and the macros of [flexalloc_util.h]

    String helpers, the error-reporting wrappers and [fla_nelems_max], the
    descending search the geometry calculation uses to decide how many slabs fit
    beside their own metadata. *)
From S2P Require Import Prelude.

(** ** Definitions *)

(** [FLA_CEIL_DIV(x,y)] at type [size_t] (every use in the sources has a
    [size_t] operand); a zero divisor is undefined. *)
Definition FLA_CEIL_DIV (x y : Z) : option Z :=
  if y =? 0 then None else Some (u64 (x + y - 1) / y).

(** [fla_err_fl] prints when the condition is non-zero and returns the condition
    it was given; the message goes to [stderr] only. *)
Definition fla_err_fl (condition : Z) : Z := condition.

(** [FLA_ERRNO_VAL(e)]. *)
Definition FLA_ERRNO_VAL (e : Z) : Z := if e =? 0 then 0 else if 0 <? e then - e else -1.

(** [fla_err_errno_fl]: a failed condition reports the (negated) errno when one
    is set and the condition itself otherwise. *)
Definition fla_err_errno_fl (errno condition : Z) : Z :=
  let errno' := FLA_ERRNO_VAL errno in
  if condition =? 0 then condition
  else if errno' =? 0 then condition else errno'.

(** [fla_min(a, b)]. *)
Definition fla_min (a b : Z) : Z := if a <? b then a else b.

(** A C string is the buffer it lies in; the terminating NUL is part of it.
    [fla_strnlen] reads at most [maxlen] characters; reading past the buffer is
    undefined. *)
Fixpoint fla_strnlen (s : list Z) (maxlen : nat) : option nat :=
  match maxlen with
  | O => Some O
  | S maxlen =>
      match s with
      | [] => None
      | c :: s => if c =? 0 then Some O else n ← fla_strnlen s maxlen; Some (S n)
      end
  end.

(** [strlen]: the standard function; no NUL in the buffer is undefined. *)
Fixpoint strlen (s : list Z) : option nat :=
  match s with
  | [] => None
  | c :: s => if c =? 0 then Some O else n ← strlen s; Some (S n)
  end.

Lemma strlen_of uri rest : Forall (fun c => c <> 0) uri -> strlen (uri ++ 0 :: rest) = Some (length uri).
Proof.
  induction 1 as [|c uri Hc _ IH]; [done|]. cbn [app strlen length]. rewrite (proj2 (Z.eqb_neq _ _)) by done. by rewrite IH.
Qed.

(** [fla_strndup]: [malloc_ok] is the outcome of [malloc]; the outer option is
    undefined behaviour (a [memcpy] past the end of [s]), the inner one [NULL]. *)
Definition fla_strndup (malloc_ok : bool) (s : list Z) (len : nat) : option (option (list Z)) :=
  if malloc_ok then
    if decide (len <= length s)%nat then Some (Some (take len s ++ [0])) else None
  else Some None.

Definition fla_strdup (malloc_ok : bool) (s : list Z) : option (option (list Z)) :=
  len ← strlen s; fla_strndup malloc_ok s len.

(** The [while(nelems)] loop of [fla_nelems_max], by recursion on the counter.
    [calc_md_size_nunits] is the function pointer applied to its [va_list]; the
    product is a 32-bit one, the subtraction a 64-bit one. *)
Fixpoint nelems_loop (units_total elem_sz_nunit : Z) (calc_md_size_nunits : Z -> option Z)
    (nelems : nat) : option Z :=
  match nelems with
  | O => Some 0
  | S n =>
      md_nunits ← calc_md_size_nunits (Z.of_nat nelems);
      if md_nunits <=? u64 (units_total - u32 (Z.of_nat nelems * elem_sz_nunit))
      then Some (Z.of_nat nelems)
      else nelems_loop units_total elem_sz_nunit calc_md_size_nunits n
  end.

Definition fla_nelems_max (units_total elem_sz_nunit : Z)
    (calc_md_size_nunits : Z -> option Z) : option Z :=
  if elem_sz_nunit =? 0 then None
  else nelems_loop units_total elem_sz_nunit calc_md_size_nunits
         (Z.to_nat (u32 (units_total / elem_sz_nunit))).

(** ** Properties *)

Lemma ceil_div_some x y : 0 < y -> 0 <= x -> x + y <= 2 ^ 64 ->
  exists q, FLA_CEIL_DIV x y = Some q /\ x <= q * y < x + y.
Proof.
  intros Hy Hx Hb. unfold FLA_CEIL_DIV. rewrite (proj2 (Z.eqb_neq _ _)) by lia.
  rewrite u64_small by (unfold is_u64; lia). eexists. split; [done|].
  pose proof (Z.div_mod (x + y - 1) y). pose proof (Z.mod_pos_bound (x + y - 1) y). lia.
Qed.

(** The loop of [fla_nelems_max] returns the largest count, at most the starting
    one, whose metadata fits beside the elements. *)
Lemma nelems_loop_spec total sz calc (n : nat) :
  0 < sz -> 0 <= total < 2 ^ 32 -> Z.of_nat n * sz <= total ->
  (forall k, 0 <= k -> is_Some (calc k)) ->
  exists r, nelems_loop total sz calc n = Some r /\ 0 <= r <= Z.of_nat n /\
    (r <> 0 -> exists md, calc r = Some md /\ r * sz + md <= total) /\
    (forall k md, r < k <= Z.of_nat n -> calc k = Some md -> total < k * sz + md).
Proof.
  intros Hsz Ht Hn Hc. induction n as [|n IH].
  { exists 0. repeat split; lia. }
  cbn [nelems_loop]. destruct (Hc (Z.of_nat (S n))) as [md Hmd]; [lia|].
  rewrite Hmd. bind_step.
  rewrite (u32_small (Z.of_nat (S n) * sz)) by (unfold is_u32; nia).
  rewrite u64_small by (unfold is_u64; nia).
  destruct (Z.leb_spec md (total - Z.of_nat (S n) * sz)).
  - exists (Z.of_nat (S n)). split; [done|]. split; [lia|]. split; [|lia].
    intros _. exists md. split; [done|lia].
  - destruct IH as (r & Hr & Hle & Hfit & Hmax); [nia|].
    exists r. split; [done|]. split; [lia|]. split; [done|].
    intros k md' Hk Hmd'. destruct (decide (k = Z.of_nat (S n))) as [->|].
    + rewrite Hmd in Hmd'. injection Hmd' as <-. lia.
    + apply (Hmax k md'); [lia|done].
Qed.

Lemma nelems_max_spec total sz calc :
  0 < sz -> 0 <= total < 2 ^ 32 -> (forall k, 0 <= k -> is_Some (calc k)) ->
  (forall k md, 0 <= k -> calc k = Some md -> 0 <= md) ->
  exists r, fla_nelems_max total sz calc = Some r /\ 0 <= r /\
    (r <> 0 -> exists md, calc r = Some md /\ r * sz + md <= total) /\
    (forall k md, r < k -> calc k = Some md -> total < k * sz + md).
Proof.
  intros Hsz Ht Hc Hmd. unfold fla_nelems_max. rewrite (proj2 (Z.eqb_neq _ _)) by lia.
  assert (0 <= total / sz <= total) as Hq.
  { split; [apply Z.div_pos; lia|]. apply Z.div_le_upper_bound; nia. }
  rewrite u32_small by (unfold is_u32; lia).
  pose proof (Z.mul_div_le total sz).
  destruct (nelems_loop_spec total sz calc (Z.to_nat (total / sz))) as (r & Hr & Hle & Hfit & Hmax);
    [lia..|nia|done|].
  exists r. split; [done|]. split; [lia|]. split; [done|].
  intros k md Hk Hcalc. destruct (decide (k <= total / sz)).
  - apply (Hmax k md); [lia|done].
  - pose proof (Hmd k md ltac:(lia) Hcalc).
    pose proof (Z.mul_succ_div_gt total sz Hsz). nia.
Qed.

(** For fewer than 2^32 units [fla_nelems_max] terminates with the largest
    number of elements that fits together with the metadata it needs: the count it
    returns fits (or is zero) and no larger count does. *)
Theorem nelems_max_correct total sz calc :
  0 < sz -> 0 <= total < 2 ^ 32 -> (forall k, 0 <= k -> is_Some (calc k)) ->
  (forall k md, 0 <= k -> calc k = Some md -> 0 <= md) ->
  exists r, fla_nelems_max total sz calc = Some r /\ 0 <= r /\
    (r <> 0 -> exists md, calc r = Some md /\ r * sz + md <= total) /\
    (forall k md, r < k -> calc k = Some md -> total < k * sz + md).
Proof. apply nelems_max_spec. Qed.


(** With 2^32 units or more the 32-bit product wraps and the count returned does
    not fit: sixteen units of 2^28 are the whole space, yet no room is left for
    the single unit of metadata. *)
Example nelems_max_wraps : fla_nelems_max (2 ^ 32) (2 ^ 28) (fun _ => Some 1) = Some 16.
Proof. vm_compute. reflexivity. Qed.
