(* ===== verification/Getopt.v ===== *)
(** * Getopt: [getopt_long] of the C library

    The three programs of the repository read their arguments with [getopt_long].  The
    model is the documented behaviour of the GNU C library without [POSIXLY_CORRECT]:
    options and operands may come in any order, a long option may be abbreviated to an
    unambiguous prefix, ["--"] ends the options, an option that is not known or that
    lacks its argument gives a question mark.  A run is the list of the options returned
    with [optarg], and the operands that are left from [optind] on.  Arguments are lists
    of characters without the terminator, [optarg] and the operands are C strings. *)
From S2P Require Import Prelude.

Inductive arg_kind := no_argument | required_argument | optional_argument.
#[export] Instance arg_kind_eq_dec : EqDecision arg_kind.
Proof. solve_decision. Defined.

(** [struct option] with a null [flag]. *)
Record long_option := mk_long { lo_name : list Z; lo_has_arg : arg_kind; lo_val : Z }.

Definition MINUS : Z := 45.
Definition EQUALS : Z := 61.
Definition COLON : Z := 58.
Definition QUESTION : Z := 63.

Definition c_string (s : list Z) : list Z := s ++ [0].

Section getopt.
Variables (optstring : list Z) (longopts : list long_option).

(** The argument of the option letter [c]. *)
Fixpoint short_kind_in (s : list Z) (c : Z) : option arg_kind :=
  match s with
  | [] => None
  | x :: s =>
      if x =? c then
        Some (match s with
              | a :: b :: _ => if (a =? COLON) && (b =? COLON) then optional_argument
                               else if a =? COLON then required_argument else no_argument
              | [a] => if a =? COLON then required_argument else no_argument
              | [] => no_argument
              end)
      else short_kind_in s c
  end.
Definition short_kind (c : Z) : option arg_kind := if (c =? COLON) || (c =? 59) then None else short_kind_in optstring c.

Definition same_option (o o' : long_option) : bool := bool_decide (lo_has_arg o = lo_has_arg o') && (lo_val o =? lo_val o').

(** The option with this name, or the one that it abbreviates. *)
Definition find_long (name : list Z) : option long_option :=
  match filter (fun o => lo_name o = name) longopts with
  | o :: _ => Some o
  | [] =>
      match filter (fun o => take (length name) (lo_name o) = name) longopts with
      | [] => None
      | o :: os => if forallb (same_option o) os then Some o else None
      end
  end.

(** The name and the value of [name=value]. *)
Fixpoint split_value (s : list Z) : list Z * option (list Z) :=
  match s with
  | [] => ([], None)
  | c :: s => if c =? EQUALS then ([], Some s) else let '(name, v) := split_value s in (c :: name, v)
  end.

(** An option with what is known of its argument: [inl] is complete, [inr] takes the
    next argument. *)
Definition long_result (s : list Z) : Z * option (list Z) + Z :=
  let '(name, v) := split_value s in
  match find_long name with
  | None => inl (QUESTION, None)
  | Some o =>
      match lo_has_arg o, v with
      | no_argument, Some _ => inl (QUESTION, None)
      | no_argument, None | optional_argument, None => inl (lo_val o, None)
      | required_argument, None => inr (lo_val o)
      | _, Some v => inl (lo_val o, Some (c_string v))
      end
  end.

(** The letters of an argument such as [-vs64]; the last may take the next argument. *)
Fixpoint cluster (s : list Z) : list (Z * option (list Z)) * option Z :=
  match s with
  | [] => ([], None)
  | c :: s =>
      match short_kind c with
      | None => let '(os, w) := cluster s in ((QUESTION, None) :: os, w)
      | Some no_argument => let '(os, w) := cluster s in ((c, None) :: os, w)
      | Some required_argument => match s with [] => ([], Some c) | _ => ([(c, Some (c_string s))], None) end
      | Some optional_argument => ([(c, match s with [] => None | _ => Some (c_string s) end)], None)
      end
  end.

(** How an argument begins. *)
Inductive word := Operand | Terminator | Long (s : list Z) | Short (s : list Z).
Definition word_of (a : list Z) : word :=
  match a with
  | x :: y :: s => if x =? MINUS then if y =? MINUS then match s with [] => Terminator | _ => Long s end else Short (y :: s) else Operand
  | _ => Operand
  end.

Fixpoint getopt_long (args : list (list Z)) : list (Z * option (list Z)) * list (list Z) :=
  match args with
  | [] => ([], [])
  | a :: args =>
      let next os w :=
        match w with
        | None => let '(opts, rest) := getopt_long args in (os ++ opts, rest)
        | Some c =>
            match args with
            | [] => (os ++ [(QUESTION, None)], [])
            | b :: args => let '(opts, rest) := getopt_long args in (os ++ (c, Some (c_string b)) :: opts, rest)
            end
        end in
      match word_of a with
      | Terminator => ([], c_string <$> args)
      | Long s => match long_result s with inl o => next [o] None | inr c => next [] (Some c) end
      | Short s => let '(os, w) := cluster s in next os w
      | Operand => let '(opts, rest) := getopt_long args in (opts, c_string a :: rest)
      end
  end.

(** ** Lines of arguments *)

(** An item of a line: an operand, or an option spelled as a long or a short one, with
    its argument attached, in the next word, or without one. *)
Inductive item :=
  | IOperand (s : list Z)
  | ILong (name : list Z) (value : option (list Z))
  | ILongNext (name value : list Z)
  | IShort (c : Z) (value : list Z)
  | IShortNext (c : Z) (value : list Z).

Definition spelled (it : item) : list (list Z) :=
  match it with
  | IOperand s => [s]
  | ILong name None => [MINUS :: MINUS :: name]
  | ILong name (Some v) => [MINUS :: MINUS :: name ++ EQUALS :: v]
  | ILongNext name v => [MINUS :: MINUS :: name; v]
  | IShort c v => [MINUS :: c :: v]
  | IShortNext c v => [[MINUS; c]; v]
  end.

(** What the item stands for. *)
Definition item_option (it : item) : option (Z * option (list Z)) :=
  match it with
  | IOperand _ => None
  | ILong name v => o ← find_long name; Some (lo_val o, c_string <$> v)
  | ILongNext name v => o ← find_long name; Some (lo_val o, Some (c_string v))
  | IShort c v => Some (c, if decide (v = []) then None else Some (c_string v))
  | IShortNext c v => Some (c, Some (c_string v))
  end.
Definition item_operand (it : item) : option (list Z) := match it with IOperand s => Some (c_string s) | _ => None end.

(** The spelling fits the tables. *)
Definition item_ok (it : item) : Prop :=
  match it with
  | IOperand s => word_of s = Operand
  | ILong name v => name <> [] /\ EQUALS ∉ name /\ exists o, find_long name = Some o /\
      lo_has_arg o <> if v is Some _ then no_argument else required_argument
  | ILongNext name _ => name <> [] /\ EQUALS ∉ name /\ exists o, find_long name = Some o /\ lo_has_arg o = required_argument
  | IShort c v => c <> MINUS /\ exists k, short_kind c = Some k /\ k <> if decide (v = []) then required_argument else no_argument
  | IShortNext c _ => c <> MINUS /\ short_kind c = Some required_argument
  end.

Lemma split_value_none name : EQUALS ∉ name -> split_value name = (name, None).
Proof.
  induction name as [|c name IH]; intros Hn; [done|]. rewrite not_elem_of_cons in Hn. destruct Hn as [Hc Hn]. cbn [split_value].
  rewrite (proj2 (Z.eqb_neq c EQUALS)), IH by done. done.
Qed.

Lemma split_value_some name v : EQUALS ∉ name -> split_value (name ++ EQUALS :: v) = (name, Some v).
Proof.
  induction name as [|c name IH]; intros Hn; [done|]. rewrite not_elem_of_cons in Hn. destruct Hn as [Hc Hn]. cbn [split_value app].
  rewrite (proj2 (Z.eqb_neq c EQUALS)), IH by done. done.
Qed.

(** An item in front of a line. *)
Lemma getopt_item it args : item_ok it ->
  getopt_long (spelled it ++ args) = (option_list (item_option it) ++ (getopt_long args).1, option_list (item_operand it) ++ (getopt_long args).2).
Proof.
  destruct (getopt_long args) as [opts rest] eqn:E. cbn [fst snd].
  destruct it as [s|name v|name v|c v|c v]; cbn [item_ok spelled app item_operand item_option option_list].
  - intros Hw. cbn [getopt_long]. by rewrite Hw, E.
  - intros (Hne & Heq & o & Ho & Hk). rewrite Ho. destruct name as [|x name]; [done|].
    destruct v as [v|]; cbn [getopt_long word_of app]; cbn [Z.eqb Pos.eqb MINUS]; unfold long_result.
    + change (split_value (x :: name ++ EQUALS :: v)) with (split_value ((x :: name) ++ EQUALS :: v)).
      rewrite split_value_some, Ho, E by done. by destruct (lo_has_arg o).
    + rewrite split_value_none, Ho, E by done. by destruct (lo_has_arg o).
  - intros (Hne & Heq & o & Ho & Hk). rewrite Ho. destruct name as [|x name]; [done|]. cbn [getopt_long word_of]. cbn [Z.eqb Pos.eqb MINUS].
    unfold long_result. by rewrite split_value_none, Ho, Hk, E by done.
  - intros (Hc & k & Hk & Hkv). cbn [getopt_long word_of]. change (MINUS =? MINUS) with true. cbv iota.
    rewrite (proj2 (Z.eqb_neq c MINUS)) by done. cbn [cluster]. rewrite Hk. destruct (decide (v = [])) as [->|Hv].
    + destruct k; [|done|]; cbn [cluster]; by rewrite E.
    + destruct k; [done| |]; destruct v; try done; by rewrite E.
  - intros (Hc & Hk). cbn [getopt_long word_of]. change (MINUS =? MINUS) with true. cbv iota.
    rewrite (proj2 (Z.eqb_neq c MINUS)) by done. cbn [cluster]. by rewrite Hk, E.
Qed.

(** The options and operands of a line of items, and of what follows a ["--"]. *)
Lemma getopt_line its tail : Forall item_ok its ->
  getopt_long (concat (spelled <$> its) ++ from_option (fun ops => [MINUS; MINUS] :: ops) [] tail) =
  (omap item_option its, omap item_operand its ++ (c_string <$> default [] tail)).
Proof.
  induction 1 as [|it its Hok _ IH]; [by destruct tail|]. rewrite fmap_cons. cbn [concat]. rewrite <- app_assoc, getopt_item, IH by done.
  cbn [fst snd omap list_omap]. by destruct (item_option it), (item_operand it).
Qed.

(** ** Arguments of options *)

(** An option without an argument that is none by a table. *)
Definition lacks_arg (o : Z * option (list Z)) : Prop := o.2 = None -> o.1 = QUESTION \/
  (exists k, short_kind o.1 = Some k /\ k <> required_argument) \/
  exists lo, lo ∈ longopts /\ lo_val lo = o.1 /\ lo_has_arg lo <> required_argument.

Lemma find_long_in name o : find_long name = Some o -> o ∈ longopts.
Proof.
  unfold find_long. intros Hf. repeat case_match; simplify_eq; eapply (list_elem_of_filter _ longopts).
  all: match goal with E : filter _ _ = _ :: _ |- _ => rewrite E; by left end.
Qed.

Lemma cluster_lacks s : Forall lacks_arg (cluster s).1.
Proof.
  induction s as [|c s IH]; [constructor|]. cbn [cluster]. destruct (short_kind c) as [k|] eqn:Ek.
  2: { destruct (cluster s) as [os w]. constructor; [by intros _; left|done]. }
  destruct k; [destruct (cluster s) as [os w]; constructor; [|done]|destruct s; repeat constructor; done|].
  - intros _. right. left. by exists no_argument.
  - apply Forall_singleton. intros _. right. left. by exists optional_argument.
Qed.

Lemma long_lacks s o : long_result s = inl o -> lacks_arg o.
Proof.
  unfold long_result. destruct (split_value s) as [name v]. destruct (find_long name) as [lo|] eqn:E; [|intros [= <-] _; by left].
  apply find_long_in in E. destruct (lo_has_arg lo) eqn:Ek, v; intros [= <-]; intros Hn; try done; try (by left);
    right; right; exists lo; by rewrite Ek.
Qed.

(** [getopt_long] returns an option without [optarg] only where a table allows it. *)
Lemma getopt_lacks args : Forall lacks_arg (getopt_long args).1.
Proof.
  remember (length args) as k eqn:Hk. assert (length args <= k)%nat as Hle by lia. clear Hk. revert args Hle.
  induction k as [|k IH]; intros [|a args] Hle; [constructor|cbn in Hle; lia|constructor|].
  assert (forall os w, Forall lacks_arg os -> Forall lacks_arg (match w with
    | None => let '(opts, rest) := getopt_long args in (os ++ opts, rest)
    | Some c => match args with [] => (os ++ [(QUESTION, None)], [])
                | b :: args => let '(opts, rest) := getopt_long args in (os ++ (c, Some (c_string b)) :: opts, rest) end
    end).1) as Hnext.
  { cbn in Hle. intros os [c|] Hos; [destruct args as [|b args]|].
    - apply Forall_app_2; [done|]. apply Forall_singleton. by intros _; left.
    - pose proof (IH args ltac:(cbn in Hle; lia)) as Hi. destruct (getopt_long args) as [opts rest]. apply Forall_app_2; [done|]. by constructor.
    - pose proof (IH args ltac:(lia)) as Hi. destruct (getopt_long args) as [opts rest]. by apply Forall_app_2. }
  cbn [getopt_long]. destruct (word_of a) as [| |s|s].
  - pose proof (IH args ltac:(cbn in Hle; lia)) as Hi. by destruct (getopt_long args).
  - constructor.
  - destruct (long_result s) as [o|c] eqn:E; [apply (Hnext [o] None), Forall_singleton; by eapply long_lacks|by apply (Hnext [] (Some c))].
  - pose proof (cluster_lacks s) as Hc. destruct (cluster s) as [os w]. by apply Hnext.
Qed.
End getopt.
