(* ===== verification/Freelist.v ===== *)
(** * Freelist: [src/src/flexalloc_freelist.c]

    A freelist is an array of [uint32_t]: word 0 holds the number of entries and
    the following words one bit per entry, 1 for free and 0 for reserved.  The
    model keeps the array as the list of its words; an access outside the array
    is undefined behaviour ([None]). *)
From S2P Require Import Prelude Bits Util.

(** ** The routines *)

(** [FLA_FREELIST_U32_ELEMS(b)]: [FLA_CEIL_DIV] by the constant [sizeof(uint32_t) * 8]. *)
Definition FLA_FREELIST_U32_ELEMS (b : Z) : Z := u64 (b + 32 - 1) / 32.

Definition fla_flist_size (len : Z) : Z := u64 (4 * u64 (1 + FLA_FREELIST_U32_ELEMS len)).

Definition fla_flist_len (flist : list Z) : option Z := flist !! 0%nat.

Fixpoint num_reserved_loop (n : nat) (flist : list Z) (ptr : nat) (free_entries : Z) : option Z :=
  match n with
  | O => Some free_entries
  | S n =>
      w ← flist !! ptr;
      num_reserved_loop n flist (S ptr) (u32 (free_entries + count_set_bits w))
  end.

Definition fla_flist_num_reserved (flist : list Z) : option Z :=
  len ← flist !! 0%nat;
  let end_ := fla_flist_size len / 4 in
  free_entries ← num_reserved_loop (Z.to_nat (end_ - 1)) flist 1 0;
  Some (u32 (len - free_entries)).

(** [for (; elem != elem_last; elem++) *elem = ~0;] — leaving the buffer before
    [elem_last] is met is undefined. *)
Fixpoint reset_loop (fuel : nat) (flist : list Z) (elem elem_last : Z) : option (list Z) :=
  match fuel with
  | O => None
  | S fuel =>
      if elem =? elem_last then Some flist
      else if decide (Z.to_nat elem < length flist)%nat
           then reset_loop fuel (<[Z.to_nat elem := 2 ^ 32 - 1]> flist) (elem + 1) elem_last
           else None
  end.

Definition fla_flist_reset (flist : list Z) : option (list Z) :=
  len ← flist !! 0%nat;
  let elems := u32 (FLA_FREELIST_U32_ELEMS len) in
  let elem := 1 in
  let elem_last := elem + elems - 1 in
  flist ← reset_loop (S (length flist)) flist elem elem_last;
  len ← flist !! 0%nat;
  let unused_spots := u32 (u64 (elems * 4 * 8 - len)) in
  if decide (Z.to_nat elem_last < length flist)%nat
  then Some (<[Z.to_nat elem_last := Z.shiftr (2 ^ 32 - 1) unused_spots]> flist)
  else None.

Definition fla_flist_init (flist : list Z) (len : Z) : option (list Z) :=
  match flist with
  | [] => None
  | _ => fla_flist_reset (<[0%nat := len]> flist)
  end.

(** [fla_flist_new]: [buf] is what [malloc] returned, [None] for [NULL] and
    otherwise a block of [fla_flist_size len] bytes with arbitrary contents. *)
Definition fla_flist_new (buf : option (list Z)) (len : Z) : option (Z * option (list Z)) :=
  match buf with
  | None => Some (- ENOMEM, None)
  | Some flist => flist ← fla_flist_init flist len; Some (0, Some flist)
  end.

Definition fla_flist_load (data : list Z) : list Z := data.

(** The search loop of [fla_flist_entry_alloc]; [n] words are left, the next one
    is word [i]. *)
Fixpoint entry_alloc_loop (n i : nat) (flist : list Z) : option (Z * list Z) :=
  match n with
  | O => Some (-1, flist)
  | S n =>
      elem ← flist !! (1 + i)%nat;
      if elem =? 0 then entry_alloc_loop n (S i) flist
      else
        let wndx := Z.land elem (u32 (- elem)) in
        Some (i32 (Z.of_nat i * 4 * 8 + ntz wndx),
              <[(1 + i)%nat := Z.land elem (not32 wndx)]> flist)
  end.

Definition fla_flist_entry_alloc (flist : list Z) (elems : Z) : option (Z * list Z) :=
  entry_alloc_loop (Z.to_nat elems) 0 flist.

(** [for(alloc_count = 1; alloc_count != num; ++alloc_count)]: the counter is
    32 bits wide, so [num = 0] only stops when the freelist is exhausted.  Every
    iteration but the last reserves an entry, so one more iteration than there
    are bits in the buffer is enough fuel. *)
Fixpoint entries_alloc_loop (fuel : nat) (flist : list Z) (elems num alloc_ret alloc_count : Z)
    : option (Z * list Z) :=
  match fuel with
  | O => None
  | S fuel =>
      if alloc_count =? num then Some (alloc_ret, flist)
      else
        '(r, flist) ← fla_flist_entry_alloc flist elems;
        if r =? -1 then Some (-1, flist)
        else entries_alloc_loop fuel flist elems num alloc_ret (u32 (alloc_count + 1))
  end.

Definition fla_flist_entries_alloc (flist : list Z) (num : Z) : option (Z * list Z) :=
  len ← flist !! 0%nat;
  let elems := u32 (FLA_FREELIST_U32_ELEMS len) in
  '(alloc_ret, flist) ← fla_flist_entry_alloc flist elems;
  if num =? 1 then Some (alloc_ret, flist)
  else entries_alloc_loop (S (S (32 * length flist))) flist elems num alloc_ret 1.

(** [while (ndx >= 32) { elem++; ndx -= 32; }] then [*elem |= 1 << ndx]; the loop
    cannot make more steps than the buffer has words without leaving it. *)
Fixpoint entry_free_loop (fuel : nat) (flist : list Z) (elem : nat) (ndx : Z) : option (list Z) :=
  match fuel with
  | O => None
  | S fuel =>
      if 32 <=? ndx then entry_free_loop fuel flist (S elem) (ndx - 32)
      else
        w ← flist !! elem;
        Some (<[elem := Z.lor w (u32 (Z.shiftl 1 ndx))]> flist)
  end.

Definition fla_flist_entry_free (flist : list Z) (ndx : Z) : option (Z * list Z) :=
  len ← flist !! 0%nat;
  if len <? ndx then Some (-1, flist)
  else flist ← entry_free_loop (length flist) flist 1 ndx; Some (0, flist).

Fixpoint entries_free_loop (n : nat) (flist : list Z) (ndx i : Z) : option (Z * list Z) :=
  match n with
  | O => Some (0, flist)
  | S n =>
      '(r, flist) ← fla_flist_entry_free flist (u32 (ndx + i));
      if r =? 0 then entries_free_loop n flist ndx (i + 1) else Some (-1, flist)
  end.

Definition fla_flist_entries_free (flist : list Z) (ndx num : Z) : option (Z * list Z) :=
  entries_free_loop (Z.to_nat num) flist ndx 0.

(** ** [fla_flist_search_wfunc]

    The callback [f] works on a state [St] (the objects its variadic arguments
    point to) and may fault. *)
Section search.
Context {St : Type} (f : Z -> St -> option (Z * St)).

Definition FLA_FLIST_SEARCH_EXEC_FIRST : Z := 1.

(** Outcome of a part of the search: carry on with [*found] and the state, or
    return from the function. *)
Inductive search_step :=
| SearchGo (found : Z) (st : St)
| SearchRet (ret found : Z) (st : St).

(** [for (uint8_t j = 0; j < 32 && elem_cpy != 0xFFFFFFFF; ++j)]. *)
Fixpoint search_word (fuel : nat) (u32_elem elem_cpy found : Z) (st : St) : option search_step :=
  match fuel with
  | O => Some (SearchGo found st)
  | S fuel =>
      if elem_cpy =? 0xFFFFFFFF then Some (SearchGo found st)
      else
        let wndx := Z.land (not32 elem_cpy) (u32 (elem_cpy + 1)) in
        '(r, st) ← f (u32 (u32_elem * 4 * 8 + ntz wndx)) st;
        let ret := u32 r in
        if ret =? 1 then search_word fuel u32_elem (Z.lor elem_cpy wndx) (u32 (found + ret)) st
        else if ret =? 0 then search_word fuel u32_elem (Z.lor elem_cpy wndx) found st
        else Some (SearchRet (i32 ret) found st)
  end.

Fixpoint search_words (n : nat) (flist : list Z) (len u32_elems u32_elem found : Z) (st : St)
    : option (Z * Z * St) :=
  match n with
  | O => Some (0, found, st)
  | S n =>
      elem_cpy ← flist !! Z.to_nat (1 + u32_elem);
      let elem_cpy :=
        if u32_elem + 1 =? u32_elems
        then Z.lor elem_cpy (u32 (Z.shiftl (-1) (len mod 32)))
        else elem_cpy in
      if elem_cpy =? 0xFFFFFFFF
      then search_words n flist len u32_elems (u32_elem + 1) found st
      else
        r ← search_word 32 u32_elem elem_cpy found st;
        match r with
        | SearchGo found st => search_words n flist len u32_elems (u32_elem + 1) found st
        | SearchRet ret found st => Some (ret, found, st)
        end
  end.

(** Returns the status, [*found] and the callback's state; [found0] is what
    [*found] held before. *)
Definition fla_flist_search_wfunc (flist : list Z) (flags found0 : Z) (st : St)
    : option (Z * Z * St) :=
  len ← flist !! 0%nat;
  let u32_elems := u32 (FLA_FREELIST_U32_ELEMS len) in
  if Z.land flags FLA_FLIST_SEARCH_EXEC_FIRST =? 0 then Some (- EINVAL, found0, st)
  else search_words (Z.to_nat u32_elems) flist len u32_elems 0 0 st.
End search.

Arguments SearchGo {St}.
Arguments SearchRet {St}.

(** ** Well-formed freelists and their bits *)

(** Entry [i] is free: its bit is set. *)
Definition free_bit (flist : list Z) (i : Z) : bool :=
  match flist !! Z.to_nat (1 + i / 32) with
  | Some w => Z.testbit w (i mod 32)
  | None => false
  end.

(** A freelist of [len] entries: the header holds [len], the words it needs are
    there and are 32-bit values, and the bits past the last entry are reserved. *)
Record flist_wf (flist : list Z) (len : Z) : Prop := {
  wf_len : flist !! 0%nat = Some len;
  wf_range : 0 < len < 2 ^ 31;
  wf_size : 1 + FLA_FREELIST_U32_ELEMS len <= Z.of_nat (length flist);
  wf_words : forall k w, (1 <= k)%nat -> Z.of_nat k <= FLA_FREELIST_U32_ELEMS len ->
      flist !! k = Some w -> is_u32 w;
  wf_pad : forall i, len <= i < 32 * FLA_FREELIST_U32_ELEMS len -> free_bit flist i = false
}.

(** Reserve or release one entry in the array. *)
Definition flist_clear (flist : list Z) (i : Z) : list Z :=
  alter (fun w => Z.land w (not32 (2 ^ (i mod 32)))) (Z.to_nat (1 + i / 32)) flist.
Definition flist_set (flist : list Z) (i : Z) : list Z :=
  alter (fun w => Z.lor w (2 ^ (i mod 32))) (Z.to_nat (1 + i / 32)) flist.

Lemma elems_bounds len :
  0 <= len < 2 ^ 32 ->
  32 * FLA_FREELIST_U32_ELEMS len - 32 < len <= 32 * FLA_FREELIST_U32_ELEMS len.
Proof.
  intros ?. unfold FLA_FREELIST_U32_ELEMS. rewrite u64_small by (unfold is_u64; lia).
  pose proof (Z.div_mod (len + 32 - 1) 32). pose proof (Z.mod_pos_bound (len + 32 - 1) 32). lia.
Qed.

Lemma elems_u32 len :
  0 <= len < 2 ^ 32 -> u32 (FLA_FREELIST_U32_ELEMS len) = FLA_FREELIST_U32_ELEMS len.
Proof. intros H. pose proof (elems_bounds len H). apply u32_small. unfold is_u32. lia. Qed.

Lemma flist_size_words len :
  0 <= len < 2 ^ 32 -> fla_flist_size len / 4 = 1 + FLA_FREELIST_U32_ELEMS len.
Proof.
  intros H. pose proof (elems_bounds len H). unfold fla_flist_size.
  rewrite !u64_small by (unfold is_u64; rewrite ?u64_small; unfold is_u64; lia).
  rewrite Z.mul_comm. apply Z.div_mul. lia.
Qed.

(** Facts about one well-formed freelist, for [lia]. *)
Ltac flist_facts :=
  repeat match goal with
  | H : flist_wf ?f ?len |- _ =>
      lazymatch goal with
      | _ : 32 * FLA_FREELIST_U32_ELEMS len - 32 < len <= _ |- _ => fail
      | _ => pose proof (wf_range f len H); pose proof (wf_size f len H);
             pose proof (elems_bounds len ltac:(lia))
      end
  end.

Lemma flist_word flist len i :
  flist_wf flist len -> 0 <= i < 32 * FLA_FREELIST_U32_ELEMS len ->
  exists w, flist !! Z.to_nat (1 + i / 32) = Some w /\ is_u32 w.
Proof.
  intros Hwf Hi. flist_facts.
  pose proof (Z.div_mod i 32). pose proof (Z.mod_pos_bound i 32).
  destruct (lookup_lt_is_Some_2 flist (Z.to_nat (1 + i / 32))) as [w Hw]; [lia|].
  exists w. split; [done|]. eapply wf_words; [done| | |done]; lia.
Qed.

Lemma pow2_is_u32 t : 0 <= t < 32 -> is_u32 (2 ^ t).
Proof. intros ?. split; [apply Z.pow_nonneg; lia|apply Z.pow_lt_mono_r; lia]. Qed.

Lemma land_not32_range w m : is_u32 w -> is_u32 (Z.land w m).
Proof.
  intros Hw. unfold is_u32 in *. split; [apply Z.land_nonneg; lia|].
  destruct (decide (Z.land w m = 0)) as [->|]; [lia|].
  apply Z.log2_lt_pow2; [pose proof (proj2 (Z.land_nonneg w m)); lia|].
  destruct (decide (w = 0)) as [->|]; [done|].
  destruct (Z.lt_ge_cases (Z.log2 (Z.land w m)) 32) as [|Hge]; [done|].
  assert (Z.testbit (Z.land w m) (Z.log2 (Z.land w m)) = true) as Hb.
  { apply Z.bit_log2. pose proof (proj2 (Z.land_nonneg w m)). lia. }
  rewrite Z.land_spec, is_u32_testbit in Hb by (done || unfold is_u32; lia). done.
Qed.

Lemma lor_range w m : is_u32 w -> is_u32 m -> is_u32 (Z.lor w m).
Proof.
  intros Hw Hm. unfold is_u32 in *. split; [apply Z.lor_nonneg; lia|].
  destruct (decide (Z.lor w m = 0)) as [->|]; [lia|].
  assert (0 <= Z.lor w m) by (apply Z.lor_nonneg; lia).
  apply Z.log2_lt_pow2; [lia|].
  destruct (Z.lt_ge_cases (Z.log2 (Z.lor w m)) 32) as [|Hge]; [done|].
  assert (Z.testbit (Z.lor w m) (Z.log2 (Z.lor w m)) = true) as Hb by (apply Z.bit_log2; lia).
  rewrite Z.lor_spec, !is_u32_testbit in Hb by (done || unfold is_u32; lia). done.
Qed.
#[export] Hint Resolve pow2_is_u32 land_not32_range lor_range not32_range : flex.

(** Changing one word changes the bits of that word only. *)
Lemma free_bit_alter flist g i j :
  0 <= i -> 0 <= j ->
  free_bit (alter g (Z.to_nat (1 + i / 32)) flist) j =
    if decide (i / 32 = j / 32)
    then match flist !! Z.to_nat (1 + i / 32) with Some w => Z.testbit (g w) (j mod 32) | None => false end
    else free_bit flist j.
Proof.
  intros Hi Hj. unfold free_bit.
  pose proof (Z.div_pos i 32). pose proof (Z.div_pos j 32).
  case_decide as Heq.
  - rewrite Heq, list_lookup_alter_eq. by destruct (flist !! _).
  - rewrite list_lookup_alter_ne; [done|lia].
Qed.

Lemma free_bit_clear flist len i j :
  flist_wf flist len -> 0 <= i < 32 * FLA_FREELIST_U32_ELEMS len -> 0 <= j ->
  free_bit (flist_clear flist i) j = if decide (j = i) then false else free_bit flist j.
Proof.
  intros Hwf Hi Hj. unfold flist_clear. rewrite free_bit_alter by lia.
  destruct (flist_word flist len i Hwf Hi) as (w & Hw & Hu).
  pose proof (Z.mod_pos_bound j 32). pose proof (Z.mod_pos_bound i 32).
  pose proof (Z.div_mod i 32). pose proof (Z.div_mod j 32).
  rewrite Hw. case_decide as Heq.
  - rewrite Z.land_spec, not32_testbit, Z.pow2_bits_eqb by (try apply pow2_is_u32; lia).
    unfold free_bit. rewrite <- Heq, Hw. case_decide; subst.
    + by rewrite Z.eqb_refl, andb_false_r.
    + destruct (Z.eqb_spec (i mod 32) (j mod 32)); [lia|]. by rewrite andb_true_r.
  - case_decide; [subst; lia|done].
Qed.

Lemma free_bit_set flist len i j :
  flist_wf flist len -> 0 <= i < 32 * FLA_FREELIST_U32_ELEMS len -> 0 <= j ->
  free_bit (flist_set flist i) j = if decide (j = i) then true else free_bit flist j.
Proof.
  intros Hwf Hi Hj. unfold flist_set. rewrite free_bit_alter by lia.
  destruct (flist_word flist len i Hwf Hi) as (w & Hw & Hu).
  pose proof (Z.mod_pos_bound j 32). pose proof (Z.mod_pos_bound i 32).
  pose proof (Z.div_mod i 32). pose proof (Z.div_mod j 32).
  rewrite Hw. case_decide as Heq.
  - rewrite Z.lor_spec, Z.pow2_bits_eqb by lia.
    unfold free_bit. rewrite <- Heq, Hw. case_decide; subst.
    + by rewrite Z.eqb_refl, orb_true_r.
    + destruct (Z.eqb_spec (i mod 32) (j mod 32)); [lia|]. by rewrite orb_false_r.
  - case_decide; [subst; lia|done].
Qed.

Lemma flist_wf_alter flist len g i :
  flist_wf flist len -> 0 <= i < len ->
  (forall w, is_u32 w -> is_u32 (g w)) ->
  (forall j, len <= j < 32 * FLA_FREELIST_U32_ELEMS len ->
     free_bit (alter g (Z.to_nat (1 + i / 32)) flist) j = false) ->
  flist_wf (alter g (Z.to_nat (1 + i / 32)) flist) len.
Proof.
  intros Hwf Hi Hg Hpad. pose proof (Z.div_pos i 32). split.
  - rewrite list_lookup_alter_ne by lia. apply Hwf.
  - apply Hwf.
  - rewrite length_alter. apply Hwf.
  - intros k w Hk1 Hk2. destruct (decide (k = Z.to_nat (1 + i / 32))) as [->|].
    + rewrite list_lookup_alter_eq. intros (w' & Hw' & ->)%fmap_Some. apply Hg.
      by eapply wf_words.
    + rewrite list_lookup_alter_ne by done. by apply (wf_words _ _ Hwf).
  - done.
Qed.

Lemma flist_clear_wf flist len i :
  flist_wf flist len -> 0 <= i < len -> flist_wf (flist_clear flist i) len.
Proof.
  intros Hwf Hi. flist_facts. apply flist_wf_alter; [done|done|auto with flex|].
  intros j Hj. change (free_bit (flist_clear flist i) j = false).
  rewrite (free_bit_clear _ len) by (done || lia). case_decide; [done|]. by apply (wf_pad _ _ Hwf).
Qed.

Lemma flist_set_wf flist len i :
  flist_wf flist len -> 0 <= i < len -> flist_wf (flist_set flist i) len.
Proof.
  intros Hwf Hi. flist_facts. pose proof (Z.mod_pos_bound i 32).
  apply flist_wf_alter; [done|done| |].
  { intros w Hw. apply lor_range; [done|apply pow2_is_u32; lia]. }
  intros j Hj. change (free_bit (flist_set flist i) j = false).
  rewrite (free_bit_set _ len) by (done || lia). case_decide; [lia|]. by apply (wf_pad _ _ Hwf).
Qed.

(** ** Allocation *)

(** [r] is the lowest free entry. *)
Definition first_free (flist : list Z) (r : Z) : Prop :=
  0 <= r /\ free_bit flist r = true /\ (forall j, 0 <= j < r -> free_bit flist j = false).

Definition none_free (flist : list Z) (len : Z) : Prop :=
  forall j, 0 <= j < len -> free_bit flist j = false.

Lemma word_lowest w : is_u32 w -> w <> 0 ->
  exists t, 0 <= t < 32 /\ lowest_bit w t /\
    ntz (Z.land w (u32 (- w))) = t /\ Z.land w (u32 (- w)) = 2 ^ t.
Proof.
  intros Hw Hnz. destruct (ntz_lowest w Hw Hnz) as [Hl Hlt]. exists (ntz w).
  assert (0 <= ntz w) by apply Hl.
  rewrite (land_opp_lowest w (ntz w)) by done. rewrite ntz_pow2 by lia. by split_and!.
Qed.

Lemma div32_word i t : 0 <= t < 32 -> (32 * i + t) / 32 = i.
Proof. intros. rewrite Z.add_comm, Z.mul_comm, Z.div_add, Z.div_small by lia. lia. Qed.

Lemma mod32_word i t : 0 <= t < 32 -> (32 * i + t) mod 32 = t.
Proof. intros. rewrite Z.add_comm, Z.mul_comm, Z.mod_add, Z.mod_small by lia. lia. Qed.

(** Entry [32 * i + t] of the array is bit [t] of word [i]. *)
Lemma free_bit_word flist i t :
  0 <= t < 32 ->
  free_bit flist (32 * Z.of_nat i + t) =
    match flist !! (1 + i)%nat with Some w => Z.testbit w t | None => false end.
Proof.
  intros Ht. unfold free_bit. rewrite div32_word, mod32_word by lia.
  by replace (Z.to_nat (1 + Z.of_nat i)) with (1 + i)%nat by lia.
Qed.

Lemma entry_alloc_loop_spec flist len n i :
  flist_wf flist len -> Z.of_nat (i + n) = FLA_FREELIST_U32_ELEMS len ->
  (forall j, 0 <= j < 32 * Z.of_nat i -> free_bit flist j = false) ->
  (exists r, r < len /\ first_free flist r /\
     entry_alloc_loop n i flist = Some (r, flist_clear flist r)) \/
  (none_free flist (32 * FLA_FREELIST_U32_ELEMS len) /\
     entry_alloc_loop n i flist = Some (-1, flist)).
Proof.
  intros Hwf. flist_facts. revert i. induction n as [|n IH]; intros i Hn Hlow.
  { right. split; [|done]. intros j Hj. apply Hlow. lia. }
  destruct (flist_word flist len (32 * Z.of_nat i) Hwf) as (w & Hw & Hu); [lia|].
  rewrite Z.mul_comm, Z.div_mul in Hw by lia.
  replace (Z.to_nat (1 + Z.of_nat i)) with (1 + i)%nat in Hw by lia.
  cbn [entry_alloc_loop]. rewrite Hw. bind_step.
  assert (forall j, 32 * Z.of_nat i <= j < 32 * Z.of_nat i + 32 ->
            free_bit flist j = Z.testbit w (j - 32 * Z.of_nat i)) as Hword.
  { intros j Hj. replace j with (32 * Z.of_nat i + (j - 32 * Z.of_nat i)) at 1 by lia.
    rewrite free_bit_word, Hw by lia. done. }
  destruct (Z.eqb_spec w 0) as [->|Hnz].
  - apply IH; [lia|]. intros j Hj. destruct (decide (j < 32 * Z.of_nat i)); [apply Hlow; lia|].
    rewrite Hword by lia. apply Z.bits_0.
  - left. destruct (word_lowest w Hu Hnz) as (t & Ht & (_ & Hb & Hlo) & Hntz & Hland).
    set (r := 32 * Z.of_nat i + t).
    assert (free_bit flist r = true) as Hfree.
    { rewrite Hword by lia. by replace (r - 32 * Z.of_nat i) with t by lia. }
    assert (r < len) as Hr.
    { destruct (Z.lt_ge_cases r len); [done|]. rewrite (wf_pad _ _ Hwf) in Hfree by lia. done. }
    exists r. split_and!; [done|split_and!; [lia|done|]|].
    + intros j Hj. destruct (decide (j < 32 * Z.of_nat i)); [apply Hlow; lia|].
      rewrite Hword by lia. apply Hlo. lia.
    + rewrite Hntz, Hland, i32_small by lia. f_equal. f_equal; [lia|].
      unfold flist_clear, r. rewrite div32_word, mod32_word by lia.
      replace (Z.to_nat (1 + Z.of_nat i)) with (1 + i)%nat by lia.
      by rewrite (list_alter_insert _ _ _ w).
Qed.

(** [fla_flist_entry_alloc] takes the lowest free entry, or reports that there
    is none. *)
Lemma entry_alloc_spec flist len :
  flist_wf flist len ->
  (exists r, r < len /\ first_free flist r /\
     fla_flist_entry_alloc flist (FLA_FREELIST_U32_ELEMS len) = Some (r, flist_clear flist r)) \/
  (none_free flist len /\
     fla_flist_entry_alloc flist (FLA_FREELIST_U32_ELEMS len) = Some (-1, flist)).
Proof.
  intros Hwf. flist_facts. unfold fla_flist_entry_alloc.
  destruct (entry_alloc_loop_spec flist len (Z.to_nat (FLA_FREELIST_U32_ELEMS len)) 0 Hwf)
    as [?|[Hn ?]]; [lia|lia|by left|right].
  split; [|done]. intros j Hj. apply Hn. lia.
Qed.

(** ** The abstract bitmap

    What a freelist promises, without its words: a vector of booleans, one per
    entry, [true] for free. *)
Module Bitmap.

(** Index of the first free entry. *)
Fixpoint first (b : list bool) : option nat :=
  match b with
  | [] => None
  | true :: _ => Some O
  | false :: b => S <$> first b
  end.

(** Reserve the first free entry, if there is one. *)
Definition take1 (b : list bool) : list bool :=
  match first b with Some i => <[i := false]> b | None => b end.

(** Reserve the [n] first free entries (all of them if there are fewer). *)
Definition take (n : nat) (b : list bool) : list bool := Nat.iter n take1 b.

Definition release (i : nat) (b : list bool) : list bool := <[i := true]> b.

Fixpoint count (b : list bool) : nat :=
  match b with
  | [] => O
  | x :: b => ((if x then 1 else 0) + count b)%nat
  end.

Lemma first_Some b i :
  first b = Some i <-> b !! i = Some true /\ (forall j, (j < i)%nat -> b !! j = Some false).
Proof.
  revert i. induction b as [|[] b IH]; intros i; cbn [first].
  - split; [done|]. intros [? _]. done.
  - split; [intros [= <-]; split; [done|intros j ?; lia]|].
    intros [_ H]. destruct i as [|i]; [done|]. specialize (H 0%nat ltac:(lia)). done.
  - rewrite fmap_Some. split.
    + intros (k & Hk & ->). apply IH in Hk as [Hk Hlt]. split; [done|].
      intros [|j] ?; [done|]. apply Hlt. lia.
    + intros [Hi Hlt]. destruct i as [|i]; [done|]. exists i. split; [|done].
      apply IH. split; [done|]. intros j ?. apply (Hlt (S j)). lia.
Qed.

Lemma first_None b : first b = None <-> (forall j x, b !! j = Some x -> x = false).
Proof.
  induction b as [|[] b IH]; cbn [first].
  - split; [|done]. intros _ j x H. by rewrite lookup_nil in H.
  - split; [done|]. intros H. by specialize (H 0%nat true eq_refl).
  - rewrite fmap_None, IH. split.
    + intros H [|j] x Hx; [by simplify_eq/=|]. by eapply H.
    + intros H j x Hx. by apply (H (S j)).
Qed.

Lemma count_insert_false b i : b !! i = Some true -> count b = S (count (<[i := false]> b)).
Proof.
  revert i. induction b as [|x b IH]; intros [|i] Hi; simplify_eq/=; [done|].
  rewrite (IH i) by done. destruct x; cbn; lia.
Qed.

Lemma count_insert_true b i : b !! i = Some false -> count (<[i := true]> b) = S (count b).
Proof.
  revert i. induction b as [|x b IH]; intros [|i] Hi; simplify_eq/=; [done|].
  rewrite (IH i) by done. destruct x; cbn; lia.
Qed.

Lemma count_0 b : count b = O <-> first b = None.
Proof.
  induction b as [|[] b IH]; cbn; [done|done|]. rewrite IH, fmap_None. done.
Qed.

Lemma count_le b : (count b <= length b)%nat.
Proof. induction b as [|[] b IH]; cbn; lia. Qed.

Lemma count_take1 b : count (take1 b) = pred (count b).
Proof.
  unfold take1. destruct (first b) as [i|] eqn:Hf.
  - apply first_Some in Hf as [Hi _]. by rewrite (count_insert_false b i).
  - apply count_0 in Hf. by rewrite Hf.
Qed.

Lemma take_S n b : take (S n) b = take n (take1 b).
Proof. unfold take. by rewrite Nat.iter_succ_r. Qed.

Lemma count_take n b : count (take n b) = (count b - n)%nat.
Proof.
  revert b. induction n as [|n IH]; intros b; [cbn; lia|]. rewrite take_S, IH, count_take1. lia.
Qed.

Lemma take_full n b : first b = None -> take n b = b.
Proof.
  intros Hf. induction n as [|n IH]; [done|]. rewrite take_S.
  unfold take1. rewrite Hf. done.
Qed.
End Bitmap.

(** The bitmap a freelist stands for. *)
Definition flist_bits (flist : list Z) (len : Z) : list bool :=
  (fun i => free_bit flist (Z.of_nat i)) <$> seq 0 (Z.to_nat len).

Lemma flist_bits_length flist len : length (flist_bits flist len) = Z.to_nat len.
Proof. unfold flist_bits. by rewrite length_fmap, length_seq. Qed.

Lemma flist_bits_lookup flist len i :
  (i < Z.to_nat len)%nat -> flist_bits flist len !! i = Some (free_bit flist (Z.of_nat i)).
Proof.
  intros Hi. unfold flist_bits. rewrite list_lookup_fmap, lookup_seq_lt by done. done.
Qed.

Lemma flist_bits_ext (flist' : list Z) len b :
  length b = Z.to_nat len ->
  (forall i, (i < Z.to_nat len)%nat -> b !! i = Some (free_bit flist' (Z.of_nat i))) ->
  flist_bits flist' len = b.
Proof.
  intros Hl H. apply list_eq. intros i. destruct (decide (i < Z.to_nat len)%nat).
  - by rewrite flist_bits_lookup, H.
  - rewrite !lookup_ge_None_2; [done|lia|rewrite flist_bits_length; lia].
Qed.

Lemma flist_bits_clear flist len r :
  flist_wf flist len -> 0 <= r < len ->
  flist_bits (flist_clear flist r) len = <[Z.to_nat r := false]> (flist_bits flist len).
Proof.
  intros Hwf Hr. flist_facts. apply flist_bits_ext.
  { by rewrite length_insert, flist_bits_length. }
  intros i Hi. rewrite (free_bit_clear _ len) by (done || lia).
  destruct (decide (i = Z.to_nat r)) as [->|].
  - rewrite list_lookup_insert_eq by (rewrite flist_bits_length; lia). case_decide; [done|lia].
  - rewrite list_lookup_insert_ne, flist_bits_lookup by done. case_decide; [lia|done].
Qed.

Lemma flist_bits_set flist len r :
  flist_wf flist len -> 0 <= r < len ->
  flist_bits (flist_set flist r) len = Bitmap.release (Z.to_nat r) (flist_bits flist len).
Proof.
  intros Hwf Hr. flist_facts. apply flist_bits_ext.
  { unfold Bitmap.release. by rewrite length_insert, flist_bits_length. }
  intros i Hi. rewrite (free_bit_set _ len) by (done || lia). unfold Bitmap.release.
  destruct (decide (i = Z.to_nat r)) as [->|].
  - rewrite list_lookup_insert_eq by (rewrite flist_bits_length; lia). case_decide; [done|lia].
  - rewrite list_lookup_insert_ne, flist_bits_lookup by done. case_decide; [lia|done].
Qed.

Lemma flist_first_Some flist len r :
  flist_wf flist len -> r < len -> first_free flist r ->
  Bitmap.first (flist_bits flist len) = Some (Z.to_nat r).
Proof.
  intros Hwf Hr (? & Hf & Hlt). apply Bitmap.first_Some. split.
  - rewrite flist_bits_lookup by lia. by rewrite Z2Nat.id, Hf by lia.
  - intros j Hj. rewrite flist_bits_lookup by lia. f_equal. apply Hlt. lia.
Qed.

Lemma flist_first_None flist len :
  none_free flist len -> Bitmap.first (flist_bits flist len) = None.
Proof.
  intros Hn. apply Bitmap.first_None. intros j x Hj.
  pose proof (lookup_lt_Some _ _ _ Hj) as Hl. rewrite flist_bits_length in Hl.
  rewrite flist_bits_lookup in Hj by done. injection Hj as <-. apply Hn. lia.
Qed.

(** [fla_flist_entry_alloc] against the bitmap. *)
Lemma entry_alloc_bits flist len :
  flist_wf flist len ->
  exists r flist', fla_flist_entry_alloc flist (FLA_FREELIST_U32_ELEMS len) = Some (r, flist') /\
    flist_wf flist' len /\ length flist' = length flist /\
    flist_bits flist' len = Bitmap.take1 (flist_bits flist len) /\
    match Bitmap.first (flist_bits flist len) with
    | Some i => r = Z.of_nat i /\ 0 <= r < len
    | None => r = -1 /\ flist' = flist
    end.
Proof.
  intros Hwf. destruct (entry_alloc_spec flist len Hwf) as [(r & Hr & Hf & ->)|[Hn ->]].
  - exists r, (flist_clear flist r). assert (0 <= r) by apply Hf.
    unfold Bitmap.take1. rewrite (flist_first_Some _ _ r) by done.
    split_and!; [done|by apply flist_clear_wf| |by apply flist_bits_clear|lia|done|done].
    unfold flist_clear. by rewrite length_alter.
  - exists (-1), flist. unfold Bitmap.take1. rewrite flist_first_None by done. by split_and!.
Qed.

(** Allocating [num] entries: [k] of the iterations are still to come. *)
Lemma entries_alloc_loop_spec fuel flist len num alloc_ret alloc_count :
  flist_wf flist len -> (Bitmap.count (flist_bits flist len) < fuel)%nat ->
  let k := u32 (num - alloc_count) in
  let c := Z.of_nat (Bitmap.count (flist_bits flist len)) in
  is_u32 num -> is_u32 alloc_count ->
  exists flist',
    entries_alloc_loop fuel flist (FLA_FREELIST_U32_ELEMS len) num alloc_ret alloc_count =
      Some (if k <=? c then alloc_ret else -1, flist') /\
    flist_wf flist' len /\ length flist' = length flist /\
    flist_bits flist' len = Bitmap.take (Z.to_nat (Z.min k c)) (flist_bits flist len).
Proof.
  intros Hwf Hfuel k c Hnum Hcnt. subst k c. revert flist alloc_count Hwf Hfuel Hcnt.
  induction fuel as [|fuel IH]; intros flist cnt Hwf Hfuel Hcnt; [lia|].
  cbn [entries_alloc_loop]. unfold is_u32 in *.
  destruct (Z.eqb_spec cnt num) as [->|Hne].
  { exists flist. replace (u32 (num - num)) with 0 by (rewrite Z.sub_diag; done).
    destruct (Z.leb_spec 0 (Z.of_nat (Bitmap.count (flist_bits flist len)))); [|lia].
    rewrite Z.min_l by lia. done. }
  assert (0 < u32 (num - cnt)) as Hk.
  { pose proof (u32_range (num - cnt)) as [??]. enough (u32 (num - cnt) <> 0) by lia.
    unfold u32. intros Hz. apply Z.mod_divide in Hz; [|lia]. destruct Hz as [q Hq]. nia. }
  destruct (entry_alloc_bits flist len Hwf) as (r & flist1 & -> & Hwf1 & Hlen1 & Hb1 & Hr).
  bind_step. pose proof (Bitmap.count_take1 (flist_bits flist len)) as Hc1.
  destruct (Bitmap.first (flist_bits flist len)) as [i|] eqn:Hf.
  - destruct Hr as [-> ?]. destruct (Z.eqb_spec (Z.of_nat i) (-1)); [lia|].
    assert (0 < Bitmap.count (flist_bits flist len))%nat as Hpos.
    { destruct (Bitmap.count _) eqn:Hz; [|lia]. apply Bitmap.count_0 in Hz. congruence. }
    assert (u32 (num - u32 (cnt + 1)) = u32 (num - cnt) - 1) as Hk1.
    { unfold u32 in *. rewrite Zminus_mod_idemp_r.
      replace (num - (cnt + 1)) with (num - cnt - 1) by lia.
      rewrite <- Zminus_mod_idemp_l. apply Z.mod_small.
      pose proof (Z.mod_pos_bound (num - cnt) (2 ^ 32)). lia. }
    rewrite <- Hb1 in Hc1.
    destruct (IH flist1 (u32 (cnt + 1)) Hwf1) as (flist2 & -> & Hwf2 & Hlen2 & Hb2);
      [lia|apply u32_range|].
    exists flist2. rewrite Hk1 in *. split_and!; [|done|lia|].
    + f_equal. f_equal. destruct (Z.leb_spec (u32 (num - cnt) - 1) (Z.of_nat (Bitmap.count (flist_bits flist1 len)))),
        (Z.leb_spec (u32 (num - cnt)) (Z.of_nat (Bitmap.count (flist_bits flist len)))); lia || done.
    + rewrite Hb2, Hc1, Hb1, <- Bitmap.take_S. f_equal. lia.
  - destruct Hr as [-> ->]. assert (Bitmap.count (flist_bits flist len) = O) as Hz.
    { by apply Bitmap.count_0. }
    exists flist. rewrite Hz. change (Z.of_nat 0) with 0.
    destruct (Z.leb_spec (u32 (num - cnt)) 0); [lia|]. rewrite Z.min_r by lia. by split_and!.
Qed.

(** Number of entries [fla_flist_entries_alloc] sets out to reserve: [num], and
    the whole 32-bit cycle for [num = 0]. *)
Definition alloc_request (num : Z) : Z := u32 (num - 1) + 1.

Lemma entries_alloc_bits flist len num :
  flist_wf flist len -> is_u32 num ->
  let b := flist_bits flist len in
  exists flist',
    fla_flist_entries_alloc flist num =
      Some (match Bitmap.first b with
            | Some i => if alloc_request num <=? Z.of_nat (Bitmap.count b) then Z.of_nat i else -1
            | None => -1
            end, flist') /\
    flist_wf flist' len /\ length flist' = length flist /\
    flist_bits flist' len =
      Bitmap.take (Z.to_nat (Z.min (alloc_request num) (Z.of_nat (Bitmap.count b)))) b.
Proof.
  intros Hwf Hnum b. subst b. flist_facts. unfold fla_flist_entries_alloc.
  rewrite (wf_len _ _ Hwf). bind_step. rewrite elems_u32 by lia.
  destruct (entry_alloc_bits flist len Hwf) as (r & flist1 & -> & Hwf1 & Hlen1 & Hb1 & Hr).
  bind_step. set (b := flist_bits flist len) in *.
  pose proof (Bitmap.count_take1 b) as Hc1. rewrite <- Hb1 in Hc1.
  assert (num = 1 \/ num <> 1 /\ 1 <= u32 (num - 1)) as Hcase.
  { destruct (decide (num = 1)); [by left|right; split; [done|]].
    unfold u32, is_u32 in *. destruct (decide (num = 0)) as [->|]; [done|]. rewrite Z.mod_small; lia. }
  pose proof (u32_range (num - 1)) as Hk. unfold is_u32 in Hk.
  assert (Bitmap.first b = None -> Bitmap.count b = O) as Hnone by apply Bitmap.count_0.
  assert (forall i, Bitmap.first b = Some i -> (0 < Bitmap.count b)%nat) as Hsome.
  { intros i Hi. destruct (Bitmap.count b) eqn:Hz; [|lia]. apply Bitmap.count_0 in Hz. congruence. }
  unfold alloc_request. destruct Hcase as [->|[Hn1 Hk1]].
  - rewrite Z.eqb_refl. change (u32 (1 - 1)) with 0. exists flist1.
    destruct (Bitmap.first b) as [i|].
    + specialize (Hsome i eq_refl). destruct (Z.leb_spec (0 + 1) (Z.of_nat (Bitmap.count b))); [|lia].
      destruct Hr as [-> ?]. rewrite Z.min_l by lia. by split_and!.
    + rewrite Hnone by done. destruct Hr as [-> ->]. by split_and!.
  - destruct (Z.eqb_spec num 1); [done|].
    destruct (entries_alloc_loop_spec (S (S (32 * length flist1))) flist1 len num r 1 Hwf1)
      as (flist2 & -> & Hwf2 & Hlen2 & Hb2); [|done|unfold is_u32; lia|].
    { pose proof (Bitmap.count_le (flist_bits flist1 len)) as Hle. rewrite flist_bits_length in Hle. lia. }
    exists flist2. split_and!; [|done|lia|].
    + f_equal. f_equal. destruct (Bitmap.first b) as [i|].
      * specialize (Hsome i eq_refl). destruct Hr as [-> ?].
        destruct (Z.leb_spec (u32 (num - 1)) (Z.of_nat (Bitmap.count (flist_bits flist1 len)))),
          (Z.leb_spec (u32 (num - 1) + 1) (Z.of_nat (Bitmap.count b))); lia || done.
      * destruct Hr as [-> ->]. by destruct (_ <=? _).
    + rewrite Hb2, Hc1, Hb1. destruct (Bitmap.first b) as [i|] eqn:Hf.
      * specialize (Hsome i eq_refl). rewrite <- Bitmap.take_S. f_equal. lia.
      * unfold Bitmap.take1. rewrite Hf, !Bitmap.take_full by done. done.
Qed.

(** ** Release *)

Lemma entry_free_loop_eq fuel flist elem ndx :
  0 <= ndx -> ndx / 32 < Z.of_nat fuel ->
  entry_free_loop fuel flist elem ndx =
    (w ← flist !! (elem + Z.to_nat (ndx / 32))%nat;
     Some (<[(elem + Z.to_nat (ndx / 32))%nat := Z.lor w (2 ^ (ndx mod 32))]> flist)).
Proof.
  revert elem ndx. induction fuel as [|fuel IH]; intros elem ndx Hn Hf.
  { pose proof (Z.div_pos ndx 32). lia. }
  cbn [entry_free_loop]. destruct (Z.leb_spec 32 ndx) as [Hge|Hlt].
  - assert ((ndx - 32) / 32 = ndx / 32 - 1) as Hd.
    { replace (ndx - 32) with (ndx + (-1) * 32) by lia. rewrite Z.div_add by lia. lia. }
    assert ((ndx - 32) mod 32 = ndx mod 32) as Hm.
    { replace (ndx - 32) with (ndx + (-1) * 32) by lia. by rewrite Z.mod_add by lia. }
    pose proof (Z.div_le_mono 32 ndx 32 ltac:(lia) Hge) as H1. change (32 / 32) with 1 in H1.
    rewrite IH by lia. rewrite Hd, Hm.
    by replace (S elem + Z.to_nat (ndx / 32 - 1))%nat with (elem + Z.to_nat (ndx / 32))%nat by lia.
  - rewrite Z.div_small, Z.mod_small by lia. rewrite Nat.add_0_r.
    rewrite Z.shiftl_1_l, u32_small by (apply pow2_is_u32; lia). done.
Qed.

Lemma entry_free_spec flist len ndx :
  flist_wf flist len -> 0 <= ndx < len ->
  fla_flist_entry_free flist ndx = Some (0, flist_set flist ndx).
Proof.
  intros Hwf Hn. flist_facts. unfold fla_flist_entry_free. rewrite (wf_len _ _ Hwf).
  bind_step. destruct (Z.ltb_spec len ndx); [lia|].
  destruct (flist_word flist len ndx Hwf) as (w & Hw & _); [lia|].
  pose proof (Z.div_lt_upper_bound ndx 32 (FLA_FREELIST_U32_ELEMS len)).
  pose proof (Z.div_pos ndx 32).
  rewrite entry_free_loop_eq by lia.
  replace (1 + Z.to_nat (ndx / 32))%nat with (Z.to_nat (1 + ndx / 32)) by lia.
  rewrite Hw. bind_step. unfold flist_set. by rewrite (list_alter_insert _ _ _ w).
Qed.

Lemma entry_free_rejects flist len ndx :
  flist_wf flist len -> len < ndx -> fla_flist_entry_free flist ndx = Some (-1, flist).
Proof.
  intros Hwf Hn. unfold fla_flist_entry_free. rewrite (wf_len _ _ Hwf). bind_step.
  destruct (Z.ltb_spec len ndx); [done|lia].
Qed.

(** Releasing [n] consecutive entries of the bitmap. *)
Fixpoint release_range (i n : nat) (b : list bool) : list bool :=
  match n with
  | O => b
  | S n => release_range (S i) n (Bitmap.release i b)
  end.

Lemma release_range_lookup i n b j :
  (i + n <= length b)%nat ->
  release_range i n b !! j = if decide (i <= j < i + n)%nat then Some true else b !! j.
Proof.
  revert i b. induction n as [|n IH]; intros i b Hl; cbn [release_range].
  { case_decide; [lia|done]. }
  rewrite IH by (unfold Bitmap.release; rewrite length_insert; lia). unfold Bitmap.release.
  destruct (decide (i = j)) as [->|].
  - rewrite list_lookup_insert_eq by lia. repeat case_decide; done || lia.
  - rewrite list_lookup_insert_ne by done. repeat case_decide; done || lia.
Qed.

Lemma entries_free_loop_spec n flist len ndx i :
  flist_wf flist len -> 0 <= ndx -> 0 <= i -> ndx + i + Z.of_nat n <= len ->
  exists flist', entries_free_loop n flist ndx i = Some (0, flist') /\ flist_wf flist' len /\
    length flist' = length flist /\
    flist_bits flist' len = release_range (Z.to_nat (ndx + i)) n (flist_bits flist len).
Proof.
  revert flist i. induction n as [|n IH]; intros flist i Hwf Hn Hi Hle; cbn [entries_free_loop].
  { exists flist. by split_and!. }
  flist_facts. rewrite u32_small by (unfold is_u32; lia).
  rewrite (entry_free_spec flist len) by (done || lia). cbn [mbind option_bind Z.eqb].
  destruct (IH (flist_set flist (ndx + i)) (i + 1)) as (flist' & -> & Hwf' & Hl' & Hb');
    [apply flist_set_wf; [done|lia]|lia..|].
  exists flist'. split_and!; [done|done| |].
  - rewrite Hl'. unfold flist_set. apply length_alter.
  - rewrite Hb', flist_bits_set by (done || lia). cbn [release_range].
    by replace (Z.to_nat (ndx + (i + 1))) with (S (Z.to_nat (ndx + i))) by lia.
Qed.

(** ** Initialisation *)

Lemma reset_loop_spec fuel flist elem elem_last :
  1 <= elem <= elem_last -> elem_last < Z.of_nat (length flist) ->
  elem_last - elem < Z.of_nat fuel ->
  exists flist', reset_loop fuel flist elem elem_last = Some flist' /\
    length flist' = length flist /\
    (forall k, flist' !! k = if decide (Z.to_nat elem <= k < Z.to_nat elem_last)%nat
                             then Some (2 ^ 32 - 1) else flist !! k).
Proof.
  revert flist elem. induction fuel as [|fuel IH]; intros flist elem He Hl Hf; [lia|].
  cbn [reset_loop]. destruct (Z.eqb_spec elem elem_last) as [->|Hne].
  { exists flist. split_and!; [done|done|]. intros k. case_decide; [lia|done]. }
  case_decide as Hlt; [|lia].
  destruct (IH (<[Z.to_nat elem := 2 ^ 32 - 1]> flist) (elem + 1)) as (flist' & -> & Hl' & Hk);
    [lia|rewrite length_insert; lia|lia|].
  exists flist'. split_and!; [done|by rewrite Hl', length_insert|].
  intros k. rewrite Hk. destruct (decide (k = Z.to_nat elem)) as [->|].
  - rewrite list_lookup_insert_eq by lia. repeat case_decide; done || lia.
  - rewrite list_lookup_insert_ne by done. repeat case_decide; done || lia.
Qed.

(** The last word: the used bits are set, the unused ones clear. *)
Lemma last_word_testbit u t :
  0 <= u <= 32 -> 0 <= t -> Z.testbit (Z.shiftr (2 ^ 32 - 1) u) t = bool_decide (t < 32 - u).
Proof.
  intros Hu Ht. change (2 ^ 32 - 1) with (Z.ones 32). rewrite Z.shiftr_spec by lia.
  rewrite Z.testbit_ones_nonneg by lia. case_bool_decide; lia.
Qed.

Lemma flist_init_spec buf len :
  0 < len < 2 ^ 31 -> 1 + FLA_FREELIST_U32_ELEMS len <= Z.of_nat (length buf) ->
  exists flist, fla_flist_init buf len = Some flist /\ flist_wf flist len /\
    length flist = length buf /\ (forall i, 0 <= i < len -> free_bit flist i = true).
Proof.
  intros Hlen Hbuf. pose proof (elems_bounds len ltac:(lia)) as He.
  unfold fla_flist_init, fla_flist_reset. destruct buf as [|w0 buf]; [cbn in Hbuf; lia|].
  cbn [list_insert insert lookup list_lookup mbind option_bind]. rewrite elems_u32 by lia.
  set (E := FLA_FREELIST_U32_ELEMS len) in *. cbv zeta.
  destruct (reset_loop_spec (S (length (len :: buf))) (len :: buf) 1 (1 + E - 1))
    as (flist & Hreset & Hl & Hk); [lia|cbn in *; lia|cbn in *; lia|].
  rewrite Hreset. bind_step.
  assert (flist !! 0%nat = Some len) as H0.
  { rewrite Hk. case_decide; [lia|done]. }
  rewrite H0. bind_step. case_decide as Hlt; [|cbn in *; lia].
  assert (u32 (u64 (E * 4 * 8 - len)) = 32 * E - len) as ->.
  { rewrite u64_small by (unfold is_u64; lia). rewrite u32_small by (unfold is_u32; lia). lia. }
  assert (forall t, 0 <= t -> Z.testbit (Z.shiftr (2 ^ 32 - 1) (32 * E - len)) t
            = bool_decide (t < 32 - (32 * E - len))) as Hlast.
  { intros t Ht. apply last_word_testbit; lia. }
  set (last := Z.shiftr (2 ^ 32 - 1) (32 * E - len)) in *.
  set (flist' := <[Z.to_nat (1 + E - 1) := last]> flist).
  assert (forall i, 0 <= i < 32 * E -> free_bit flist' i = bool_decide (i < len)) as Hbits.
  { intros i Hi. unfold free_bit, flist'. pose proof (Z.div_mod i 32). pose proof (Z.mod_pos_bound i 32).
    destruct (decide (i / 32 = E - 1)) as [Hd|Hd].
    - rewrite Hd. replace (Z.to_nat (1 + (E - 1))) with (Z.to_nat (1 + E - 1)) by lia.
      rewrite list_lookup_insert_eq by lia. rewrite Hlast by lia. apply bool_decide_ext. lia.
    - rewrite list_lookup_insert_ne by lia. rewrite Hk. case_decide; [|lia].
      change (2 ^ 32 - 1) with (Z.ones 32). rewrite Z.testbit_ones_nonneg by lia.
      case_bool_decide; lia. }
  exists flist'. split_and!; [done| | |].
  - split; [|done| | |].
    + unfold flist'. by rewrite list_lookup_insert_ne by lia.
    + unfold flist'. rewrite length_insert, Hl. cbn in *. lia.
    + intros k w Hk1 Hk2. unfold flist'. destruct (decide (k = Z.to_nat (1 + E - 1))) as [->|].
      * rewrite list_lookup_insert_eq by lia. intros [= <-]. unfold last.
        rewrite Z.shiftr_div_pow2 by lia. unfold is_u32. split; [apply Z.div_pos; lia|].
        apply Z.div_lt_upper_bound; nia.
      * rewrite list_lookup_insert_ne by lia. rewrite Hk. case_decide; [|lia]. intros [= <-]. done.
    + intros i Hi. rewrite Hbits by lia. case_bool_decide; [lia|done].
  - unfold flist'. rewrite length_insert, Hl. done.
  - intros i Hi. rewrite Hbits by lia. case_bool_decide; [done|lia].
Qed.

(** ** Counting the reserved entries *)

Lemma bitmap_count_app b1 b2 : Bitmap.count (b1 ++ b2) = (Bitmap.count b1 + Bitmap.count b2)%nat.
Proof. induction b1 as [|x b1 IH]; cbn; [done|]. rewrite IH. lia. Qed.

Lemma bitmap_count_false b : (forall j x, b !! j = Some x -> x = false) -> Bitmap.count b = O.
Proof. intros H. apply Bitmap.count_0, Bitmap.first_None, H. Qed.

Definition word_bits (w : Z) : list bool := (fun t => Z.testbit w (Z.of_nat t)) <$> seq 0 32.

Lemma popcount_bits n w :
  0 <= w -> popcount n w = Z.of_nat (Bitmap.count ((fun t => Z.testbit w (Z.of_nat t)) <$> seq 0 n)).
Proof.
  unfold popcount. revert w. induction n as [|n IH]; intros w Hw; [done|].
  cbn [digit_sum seq fmap list_fmap Bitmap.count]. rewrite IH by (apply Z.div_pos; lia).
  rewrite <- fmap_S_seq, <- list_fmap_compose.
  assert ((compose (fun t => Z.testbit w (Z.of_nat t)) S <$> seq 0 n)
    = ((fun t => Z.testbit (w / 2 ^ 1) (Z.of_nat t)) <$> seq 0 n)) as ->.
  { apply list_fmap_ext. intros _ t _. cbn. rewrite Z.div_pow2_bits by lia. f_equal. lia. }
  rewrite Nat2Z.inj_add. f_equal. change (Z.of_nat 0) with 0. rewrite Z.bit0_eqb. change (2 ^ 1) with 2.
  pose proof (Z.mod_pos_bound w 2). destruct (Z.eqb_spec (w mod 2) 1); cbn; lia.
Qed.

Lemma flist_bits_word flist i w :
  flist !! (1 + i)%nat = Some w ->
  flist_bits flist (32 * Z.of_nat (S i)) = flist_bits flist (32 * Z.of_nat i) ++ word_bits w.
Proof.
  intros Hw. unfold flist_bits, word_bits.
  replace (Z.to_nat (32 * Z.of_nat (S i))) with (Z.to_nat (32 * Z.of_nat i) + 32)%nat by lia.
  rewrite seq_app, fmap_app. f_equal. rewrite Nat.add_0_l, <- (Nat.add_0_r (Z.to_nat _)).
  rewrite <- fmap_add_seq, <- list_fmap_compose. apply list_fmap_ext.
  intros k t Ht. apply lookup_seq in Ht as [-> Hlt]. cbn [compose].
  replace (Z.of_nat (Z.to_nat (32 * Z.of_nat i) + (0 + k))) with (32 * Z.of_nat i + Z.of_nat k) by lia.
  rewrite free_bit_word, Hw by lia. done.
Qed.

Lemma num_reserved_loop_spec n flist len i acc :
  flist_wf flist len -> Z.of_nat (i + n) = FLA_FREELIST_U32_ELEMS len ->
  acc = Z.of_nat (Bitmap.count (flist_bits flist (32 * Z.of_nat i))) ->
  num_reserved_loop n flist (1 + i) acc =
    Some (Z.of_nat (Bitmap.count (flist_bits flist (32 * FLA_FREELIST_U32_ELEMS len)))).
Proof.
  intros Hwf. flist_facts. revert i acc. induction n as [|n IH]; intros i acc Hn ->.
  { cbn. by rewrite <- Hn, Nat.add_0_r. }
  destruct (flist_word flist len (32 * Z.of_nat i) Hwf) as (w & Hw & Hu); [lia|].
  rewrite Z.mul_comm, Z.div_mul in Hw by lia.
  replace (Z.to_nat (1 + Z.of_nat i)) with (1 + i)%nat in Hw by lia.
  cbn [num_reserved_loop]. rewrite Hw. bind_step.
  pose proof (Bitmap.count_le (flist_bits flist (32 * Z.of_nat (S i)))) as Hle.
  rewrite flist_bits_length in Hle.
  rewrite (flist_bits_word _ _ _ Hw), bitmap_count_app in Hle.
  rewrite count_set_bits_popcount, popcount_bits by (done || unfold is_u32 in Hu; lia).
  change ((fun t => Z.testbit w (Z.of_nat t)) <$> seq 0 32) with (word_bits w).
  rewrite u32_small by (unfold is_u32; lia).
  apply (IH (S i)); [lia|]. rewrite (flist_bits_word _ _ _ Hw), bitmap_count_app. lia.
Qed.

Lemma flist_bits_pad flist len :
  flist_wf flist len ->
  Bitmap.count (flist_bits flist (32 * FLA_FREELIST_U32_ELEMS len)) = Bitmap.count (flist_bits flist len).
Proof.
  intros Hwf. flist_facts. set (E := FLA_FREELIST_U32_ELEMS len) in *. unfold flist_bits.
  replace (Z.to_nat (32 * E)) with (Z.to_nat len + (Z.to_nat (32 * E) - Z.to_nat len))%nat by lia.
  rewrite seq_app, fmap_app, bitmap_count_app.
  rewrite (bitmap_count_false (_ <$> seq (0 + Z.to_nat len) _)); [lia|].
  intros j x Hj. apply list_lookup_fmap_Some in Hj as (k & -> & Hk).
  apply lookup_seq in Hk as [-> Hlt]. apply (wf_pad _ _ Hwf). lia.
Qed.

Lemma num_reserved_spec flist len :
  flist_wf flist len ->
  fla_flist_num_reserved flist = Some (len - Z.of_nat (Bitmap.count (flist_bits flist len))).
Proof.
  intros Hwf. flist_facts. unfold fla_flist_num_reserved. rewrite (wf_len _ _ Hwf).
  bind_step. cbv zeta. rewrite flist_size_words by lia.
  replace (1 + FLA_FREELIST_U32_ELEMS len - 1) with (FLA_FREELIST_U32_ELEMS len) by lia.
  pose proof (num_reserved_loop_spec (Z.to_nat (FLA_FREELIST_U32_ELEMS len)) flist len 0 0 Hwf) as Hloop.
  change (1 + 0)%nat with 1%nat in Hloop.
  rewrite Hloop by (done || lia). bind_step.
  rewrite flist_bits_pad by done. f_equal.
  pose proof (Bitmap.count_le (flist_bits flist len)) as Hle. rewrite flist_bits_length in Hle.
  apply u32_small. unfold is_u32. lia.
Qed.

(** ** Searching the reserved entries *)

(** The positions [k .. k+n-1] at which [g] is false, ascending. *)
Fixpoint zeros (g : Z -> bool) (k : Z) (n : nat) : list Z :=
  match n with
  | O => []
  | S n => if g k then zeros g (k + 1) n else k :: zeros g (k + 1) n
  end.

Lemma zeros_app g k n m : zeros g k (n + m) = zeros g k n ++ zeros g (k + Z.of_nat n) m.
Proof.
  revert k. induction n as [|n IH]; intros k; cbn [zeros Nat.add].
  - by replace (k + Z.of_nat 0) with k by lia.
  - rewrite IH. replace (k + 1 + Z.of_nat n) with (k + Z.of_nat (S n)) by lia. by destruct (g k).
Qed.

Lemma zeros_ext g g' k k' n :
  (forall i, 0 <= i < Z.of_nat n -> g (k + i) = g' (k' + i)) ->
  zeros g k n = (fun i => i + (k - k')) <$> zeros g' k' n.
Proof.
  revert k k'. induction n as [|n IH]; intros k k' H; [done|]. cbn [zeros].
  rewrite (IH (k + 1) (k' + 1)); last first.
  { intros i Hi. replace (k + 1 + i) with (k + (1 + i)) by lia.
    replace (k' + 1 + i) with (k' + (1 + i)) by lia. apply H. lia. }
  pose proof (H 0 ltac:(lia)) as H0. rewrite !Z.add_0_r in H0. rewrite H0.
  replace (k + 1 - (k' + 1)) with (k - k') by lia. destruct (g' k'); [done|].
  cbn. f_equal. lia.
Qed.

Lemma zeros_nil g k n : (forall i, k <= i < k + Z.of_nat n -> g i = true) -> zeros g k n = [].
Proof.
  revert k. induction n as [|n IH]; intros k H; [done|]. cbn [zeros].
  rewrite H by lia. apply IH. intros i Hi. apply H. lia.
Qed.

Lemma zeros_elem g k n i : i ∈ zeros g k n <-> k <= i < k + Z.of_nat n /\ g i = false.
Proof.
  revert k. induction n as [|n IH]; intros k; cbn [zeros].
  { rewrite elem_of_nil. lia. }
  destruct (g k) eqn:Hg.
  - rewrite IH. split; [intros [? ?]; split; [lia|done]|].
    intros [? ?]. split; [|done]. destruct (decide (i = k)); [congruence|lia].
  - rewrite elem_of_cons, IH. split.
    + intros [->|[? ?]]; (split; [lia|done]).
    + intros [? ?]. destruct (decide (i = k)); [by left|right; split; [lia|done]].
Qed.

Section search_spec.
Context {St : Type} (f : Z -> St -> option (Z * St)).

(** Reference search: run the callback on a list of indices, counting the ones
    it returns and stopping at the first other non-zero value. *)
Fixpoint search_list (l : list Z) (found : Z) (st : St) : option (search_step (St := St)) :=
  match l with
  | [] => Some (SearchGo found st)
  | i :: l =>
      '(r, st) ← f i st;
      if u32 r =? 1 then search_list l (u32 (found + 1)) st
      else if u32 r =? 0 then search_list l found st
      else Some (SearchRet (i32 (u32 r)) found st)
  end.

Definition search_result (r : search_step (St := St)) : Z * Z * St :=
  match r with
  | SearchGo found st => (0, found, st)
  | SearchRet ret found st => (ret, found, st)
  end.

Lemma search_list_app l1 l2 found st :
  search_list (l1 ++ l2) found st =
    (r ← search_list l1 found st;
     match r with
     | SearchGo found st => search_list l2 found st
     | SearchRet ret found st => Some (SearchRet ret found st)
     end).
Proof.
  revert found st. induction l1 as [|i l1 IH]; intros found st; [done|].
  cbn [app search_list]. destruct (f i st) as [[r st']|]; [|done]. bind_step.
  destruct (u32 r =? 1); [apply IH|]. destruct (u32 r =? 0); [apply IH|done].
Qed.

(** The lowest clear bit of a word. *)
Lemma word_lowest_zero e k :
  is_u32 e -> 0 <= k < 32 -> (forall i, 0 <= i < k -> Z.testbit e i = true) ->
  Z.testbit e k = false ->
  Z.land (not32 e) (u32 (e + 1)) = 2 ^ k /\ ntz (Z.land (not32 e) (u32 (e + 1))) = k.
Proof.
  intros He Hk Hones Hz.
  assert (u32 (e + 1) = u32 (- not32 e)) as ->.
  { unfold u32, not32. replace (e + 1) with (- (2 ^ 32 - 1 - e) + 1 * 2 ^ 32) by lia. by rewrite Z.mod_add by lia. }
  rewrite (land_opp_lowest (not32 e) k); [|by apply not32_range| |lia].
  { split; [done|]. by apply ntz_pow2. }
  split_and!; [lia|by rewrite not32_testbit, Hz by (done || lia)|].
  intros i Hi. by rewrite not32_testbit, Hones by (done || lia).
Qed.

Lemma all_ones e : is_u32 e -> (forall i, 0 <= i < 32 -> Z.testbit e i = true) -> e = 0xFFFFFFFF.
Proof.
  intros He H. change 0xFFFFFFFF with (Z.ones 32). apply Z.bits_inj'. intros i Hi.
  rewrite Z.testbit_ones_nonneg by lia. destruct (Z.ltb_spec i 32); [by apply H|].
  apply is_u32_testbit; [done|lia].
Qed.

Lemma search_word_spec fuel n k u e found st :
  is_u32 e -> 0 <= k -> k + Z.of_nat n = 32 -> (n <= fuel)%nat -> 0 <= u -> 32 * u + 32 <= 2 ^ 32 ->
  (forall i, 0 <= i < k -> Z.testbit e i = true) ->
  search_word f fuel u e found st =
    search_list ((fun t => t + 32 * u) <$> zeros (Z.testbit e) k n) found st.
Proof.
  intros He. revert fuel k e He found st.
  induction n as [|n IH]; intros fuel k e He found st Hk Hn Hf Hu Hu32 Hones.
  { rewrite (all_ones e He) by (intros; apply Hones; lia). by destruct fuel. }
  cbn [zeros]. destruct (Z.testbit e k) eqn:Hb.
  { apply IH; try done; try lia. intros i Hi. destruct (decide (i = k)) as [->|]; [done|apply Hones; lia]. }
  destruct fuel as [|fuel]; [lia|]. cbn [search_word fmap list_fmap search_list].
  destruct (Z.eqb_spec e 0xFFFFFFFF) as [->|Hne].
  { change 0xFFFFFFFF with (Z.ones 32) in Hb. rewrite Z.testbit_ones_nonneg in Hb by lia. lia. }
  destruct (word_lowest_zero e k He ltac:(lia) Hones Hb) as [Hland Hntz].
  rewrite Hntz, Hland.
  replace (u32 (u * 4 * 8 + k)) with (k + 32 * u) by (rewrite u32_small; unfold is_u32; lia).
  assert (forall i, 0 <= i -> Z.testbit (Z.lor e (2 ^ k)) i = if decide (i = k) then true else Z.testbit e i) as Hlor.
  { intros i Hi. rewrite Z.lor_spec, Z.pow2_bits_eqb by lia.
    case_decide as Hik; [by rewrite Hik, Z.eqb_refl, orb_true_r|].
    destruct (Z.eqb_spec k i); [lia|]. by rewrite orb_false_r. }
  assert (zeros (Z.testbit e) (k + 1) n = zeros (Z.testbit (Z.lor e (2 ^ k))) (k + 1) n) as ->.
  { rewrite (zeros_ext _ (Z.testbit (Z.lor e (2 ^ k))) (k + 1) (k + 1)).
    - rewrite Z.sub_diag. rewrite <- (list_fmap_id (zeros _ _ n)) at 2.
      apply list_fmap_ext. intros. cbn. lia.
    - intros i Hi. rewrite Hlor by lia. case_decide; [lia|done]. }
  destruct (f (k + 32 * u) st) as [[r st']|]; [|done]. bind_step.
  assert (forall found, search_word f fuel u (Z.lor e (2 ^ k)) found st' =
    search_list ((fun t => t + 32 * u) <$> zeros (Z.testbit (Z.lor e (2 ^ k))) (k + 1) n) found st') as Hrec.
  { intros found'. apply IH; try lia.
    - apply lor_range; [done|apply pow2_is_u32; lia].
    - intros i Hi. rewrite Hlor by lia. case_decide; [done|apply Hones; lia]. }
  destruct (Z.eqb_spec (u32 r) 1) as [->|]; [apply Hrec|].
  destruct (u32 r =? 0); [apply Hrec|done].
Qed.

(** The last word of the search: the bits from [m] on are forced to one. *)
Lemma zeros_masked e m :
  is_u32 e -> 0 <= m < 32 ->
  is_u32 (Z.lor e (u32 (Z.shiftl (-1) m))) /\
  zeros (Z.testbit (Z.lor e (u32 (Z.shiftl (-1) m)))) 0 32 = zeros (Z.testbit e) 0 (Z.to_nat m).
Proof.
  intros He Hm.
  assert (forall i, 0 <= i < 32 -> Z.testbit (Z.lor e (u32 (Z.shiftl (-1) m))) i
            = if decide (i < m) then Z.testbit e i else true) as Hb.
  { intros i Hi. rewrite Z.lor_spec, u32_testbit, Z.shiftl_spec by lia. case_decide.
    - by rewrite (Z.testbit_neg_r (-1)), orb_false_r by lia.
    - by rewrite Z.bits_m1, orb_true_r by lia. }
  split; [apply lor_range; [done|apply u32_range]|].
  replace 32%nat with (Z.to_nat m + (32 - Z.to_nat m))%nat by lia.
  rewrite zeros_app, (zeros_nil _ (0 + _)), app_nil_r.
  - rewrite (zeros_ext _ (Z.testbit e) 0 0).
    + rewrite <- (list_fmap_id (zeros _ _ _)) at 2. apply list_fmap_ext. intros. cbn. lia.
    + intros i Hi. rewrite Hb by lia. case_decide; [done|lia].
  - intros i Hi. rewrite Hb by lia. case_decide; [lia|done].
Qed.

(** How far the search looks: all the words but the last in full, and
    [len mod 32] bits of the last one. *)
Definition search_limit (len : Z) : Z := 32 * (FLA_FREELIST_U32_ELEMS len - 1) + len mod 32.

Lemma search_words_spec n flist len u found st :
  flist_wf flist len -> 0 <= u -> u + Z.of_nat n = FLA_FREELIST_U32_ELEMS len ->
  search_words f n flist len (FLA_FREELIST_U32_ELEMS len) u found st =
    search_result <$> search_list (zeros (free_bit flist) (32 * u)
                        (Z.to_nat (search_limit len - 32 * u))) found st.
Proof.
  intros Hwf. flist_facts. pose proof (Z.mod_pos_bound len 32) as Hm. unfold search_limit.
  set (E := FLA_FREELIST_U32_ELEMS len) in *.
  revert u found st. induction n as [|n IH]; intros u found st Hu Hn.
  { replace (Z.to_nat _) with O by lia. done. }
  destruct (flist_word flist len (32 * u) Hwf) as (w & Hw & Hw32); [lia|].
  replace (32 * u / 32) with u in Hw by (rewrite Z.mul_comm, Z.div_mul; lia).
  cbn [search_words]. rewrite Hw. bind_step.
  assert (forall i, 0 <= i < 32 -> free_bit flist (32 * u + i) = Z.testbit w (0 + i)) as Hfree.
  { intros i Hi. unfold free_bit. by rewrite div32_word, mod32_word, Hw by lia. }
  (* whole word or masked last word *)
  set (e := if u + 1 =? E then Z.lor w (u32 (Z.shiftl (-1) (len mod 32))) else w).
  set (m := if u + 1 =? E then Z.to_nat (len mod 32) else 32%nat).
  assert (is_u32 e /\ zeros (Z.testbit e) 0 32 = zeros (Z.testbit w) 0 m) as [He Hz].
  { subst e m. destruct (u + 1 =? E); [by apply zeros_masked; [|lia]|done]. }
  assert (((fun t => t + 32 * u) <$> zeros (Z.testbit e) 0 32) = zeros (free_bit flist) (32 * u) m) as Hz'.
  { rewrite Hz. rewrite (zeros_ext (free_bit flist) (Z.testbit w) (32 * u) 0).
    - by rewrite Z.sub_0_r.
    - intros i Hi. apply Hfree. subst m. destruct (u + 1 =? E); lia. }
  assert (forall A (k : search_step (St := St) -> option A),
    (if e =? 0xFFFFFFFF then k (SearchGo found st) else search_word f 32 u e found st ≫= k)
    = search_list (zeros (free_bit flist) (32 * u) m) found st ≫= k) as Hcont.
  { intros A k. rewrite <- Hz', <- (search_word_spec 32 32 0 u e) by (done || lia).
    destruct (Z.eqb_spec e 0xFFFFFFFF) as [->|]; done. }
  specialize (Hcont _ (fun r => match r with
    | SearchGo found st => search_words f n flist len E (u + 1) found st
    | SearchRet ret found st => Some (ret, found, st) end)). cbn beta iota in Hcont. rewrite Hcont.
  set (rest := Z.to_nat (32 * (E - 1) + len mod 32 - 32 * (u + 1))).
  assert (Z.to_nat (32 * (E - 1) + len mod 32 - 32 * u) = m + rest)%nat as ->.
  { subst m rest. destruct (Z.eqb_spec (u + 1) E); lia. }
  assert (zeros (free_bit flist) (32 * u + Z.of_nat m) rest = zeros (free_bit flist) (32 * (u + 1)) rest) as Hrest.
  { subst m rest. destruct (Z.eqb_spec (u + 1) E) as [Heq|].
    - replace (Z.to_nat (_ - 32 * (u + 1))) with O by lia. done.
    - f_equal. lia. }
  rewrite zeros_app, Hrest, search_list_app.
  destruct (search_list (zeros _ _ m) found st) as [[found' st'|ret found' st']|]; [|done|done].
  bind_step. rewrite IH by lia. done.
Qed.

Lemma search_wfunc_spec flist len flags found0 st :
  flist_wf flist len -> Z.land flags 1 <> 0 ->
  fla_flist_search_wfunc f flist flags found0 st =
    search_result <$> search_list (zeros (free_bit flist) 0 (Z.to_nat (search_limit len))) 0 st.
Proof.
  intros Hwf Hfl. flist_facts. unfold fla_flist_search_wfunc. rewrite (wf_len _ _ Hwf).
  bind_step. rewrite elems_u32 by lia. unfold FLA_FLIST_SEARCH_EXEC_FIRST.
  destruct (Z.eqb_spec (Z.land flags 1) 0); [done|].
  rewrite (search_words_spec _ _ len) by (done || lia).
  change (32 * 0) with 0. by rewrite Z.sub_0_r.
Qed.
End search_spec.

(** ** Runs of a freelist

    The two operations that change a freelist, as events of a transition system:
    an allocation of one entry (with the value it returned) and a release. *)
Inductive flist_event :=
| EvAlloc (r : Z)
| EvFree (ndx : Z).

Inductive flist_step : list Z -> flist_event -> list Z -> Prop :=
| step_alloc flist r flist' :
    fla_flist_entries_alloc flist 1 = Some (r, flist') -> flist_step flist (EvAlloc r) flist'
| step_free flist ndx flist' len :
    flist !! 0%nat = Some len -> 0 <= ndx < len ->
    fla_flist_entry_free flist ndx = Some (0, flist') -> flist_step flist (EvFree ndx) flist'.

Inductive flist_run : list Z -> list flist_event -> list Z -> Prop :=
| run_nil flist : flist_run flist [] flist
| run_cons flist ev flist1 evs flist2 :
    flist_step flist ev flist1 -> flist_run flist1 evs flist2 ->
    flist_run flist (ev :: evs) flist2.

Lemma entries_alloc_1 flist len :
  flist_wf flist len ->
  (exists r, r < len /\ first_free flist r /\
     fla_flist_entries_alloc flist 1 = Some (r, flist_clear flist r)) \/
  (none_free flist len /\ fla_flist_entries_alloc flist 1 = Some (-1, flist)).
Proof.
  intros Hwf. flist_facts. unfold fla_flist_entries_alloc. rewrite (wf_len _ _ Hwf).
  bind_step. rewrite elems_u32 by lia.
  destruct (entry_alloc_spec flist len Hwf) as [(r & ? & ? & ->)|[? ->]]; cbn; eauto.
Qed.

Lemma entries_free_1 flist len ndx :
  flist_wf flist len -> 0 <= ndx < len ->
  fla_flist_entries_free flist ndx 1 = Some (0, flist_set flist ndx).
Proof.
  intros Hwf Hn. flist_facts. unfold fla_flist_entries_free. change (Z.to_nat 1) with 1%nat.
  cbn [entries_free_loop]. rewrite Z.add_0_r, u32_small by (unfold is_u32; lia).
  by rewrite (entry_free_spec flist len).
Qed.

Lemma flist_step_wf flist len ev flist' :
  flist_wf flist len -> flist_step flist ev flist' -> flist_wf flist' len.
Proof.
  intros Hwf Hstep. inversion Hstep as [? r ? Ha|? ndx ? len' Hl Hn Hf]; subst.
  - destruct (entries_alloc_1 flist len Hwf) as [(r' & ? & [? _] & Heq)|[_ Heq]];
      rewrite Heq in Ha; simplify_eq; [|done]. apply flist_clear_wf; [done|lia].
  - rewrite (wf_len _ _ Hwf) in Hl. injection Hl as <-.
    rewrite (entry_free_spec _ _ _ Hwf) in Hf by done. simplify_eq. by apply flist_set_wf.
Qed.

(** An entry that is reserved stays reserved, and is not handed out again, as
    long as it is not released. *)
Lemma flist_run_reserved flist len evs flist' r :
  flist_wf flist len -> 0 <= r < len -> free_bit flist r = false ->
  flist_run flist evs flist' -> EvFree r ∉ evs ->
  (EvAlloc r ∉ evs) /\ free_bit flist' r = false /\ flist_wf flist' len.
Proof.
  intros Hwf Hr Hres Hrun. revert Hwf Hres.
  induction Hrun as [flist|flist ev flist1 evs flist2 Hstep Hrun IH]; intros Hwf Hres Hnf.
  { split_and!; [apply not_elem_of_nil|done|done]. }
  apply not_elem_of_cons in Hnf as [Hne Hnf].
  pose proof (flist_step_wf _ _ _ _ Hwf Hstep) as Hwf1. flist_facts.
  inversion Hstep as [? a ? Ha|? ndx ? len' Hl Hn Hf]; subst.
  - assert (a <> r /\ free_bit flist1 r = false) as [Hne1 Hres1].
    { destruct (entries_alloc_1 flist len Hwf) as [(r' & ? & (? & Hfree & _) & Heq)|[_ Heq]];
        rewrite Heq in Ha; simplify_eq.
      - split; [congruence|]. rewrite (free_bit_clear _ len) by (done || lia). by case_decide.
      - split; [lia|done]. }
    destruct (IH Hwf1 Hres1 Hnf) as (? & ? & ?). split_and!; [|done|done].
    apply not_elem_of_cons. split; [congruence|done].
  - rewrite (wf_len _ _ Hwf) in Hl. injection Hl as <-.
    rewrite (entry_free_spec _ _ _ Hwf) in Hf by done. simplify_eq.
    assert (free_bit (flist_set flist ndx) r = false) as Hres1.
    { rewrite (free_bit_set _ len) by (done || lia). case_decide; [|done]. subst. done. }
    destruct (IH Hwf1 Hres1 Hnf) as (? & ? & ?). split_and!; [|done|done].
    apply not_elem_of_cons. by split.
Qed.

Lemma set_clear_id flist len r :
  flist_wf flist len -> 0 <= r < len -> free_bit flist r = true ->
  flist_set (flist_clear flist r) r = flist.
Proof.
  intros Hwf Hr Hf. flist_facts. unfold flist_set, flist_clear.
  destruct (flist_word flist len r Hwf) as (w & Hw & Hu); [lia|].
  pose proof (lookup_lt_Some _ _ _ Hw). rewrite (list_alter_insert _ flist _ w) by done.
  erewrite list_alter_insert by (by apply list_lookup_insert_eq). rewrite list_insert_insert_eq.
  pose proof (Z.mod_pos_bound r 32) as Hm.
  enough (Z.lor (Z.land w (not32 (2 ^ (r mod 32)))) (2 ^ (r mod 32)) = w) as ->
    by (by apply list_insert_id).
  unfold free_bit in Hf. rewrite Hw in Hf. apply Z.bits_inj'. intros i Hi.
  rewrite Z.lor_spec, Z.land_spec, Z.pow2_bits_eqb by lia.
  destruct (decide (i < 32)).
  - rewrite not32_testbit, Z.pow2_bits_eqb by (try apply pow2_is_u32; lia).
    destruct (Z.eqb_spec (r mod 32) i) as [<-|]; cbn.
    + by rewrite Hf, orb_true_r.
    + by rewrite andb_true_r, orb_false_r.
  - rewrite (is_u32_testbit w) by (done || lia). cbn. apply Z.eqb_neq. lia.
Qed.

(** ** Findings *)

(** Releasing entry [len] of a freelist of [len] entries is accepted: the guard
    is [ndx > *flist].  The padding bit it sets is then handed out. *)
Example free_accepts_len :
  fla_flist_entry_free [5; 0] 5 = Some (0, [5; 32]) /\
  fla_flist_entries_alloc [5; 32] 1 = Some (5, [5; 0]).
Proof. split; reflexivity. Qed.

(** With a length that is a multiple of 32 the same call writes past the array. *)
Example free_len_out_of_bounds : fla_flist_entry_free [32; 0] 32 = None.
Proof. reflexivity. Qed.

(** A failed multi-entry allocation keeps what it reserved on the way. *)
Example failed_alloc_leaks : fla_flist_entries_alloc [4; 15] 5 = Some (-1, [4; 0]).
Proof. reflexivity. Qed.

(** With a length that is a multiple of 32 the search skips the last word: all
    32 entries of this freelist are reserved and the callback never runs. *)
Example search_skips_full_word :
  fla_flist_search_wfunc (fun i st => Some (1, i :: st)) [32; 0] 1 0 [] = Some (0, 0, []).
Proof. reflexivity. Qed.

(** ** Properties *)

(** [fla_flist_init] on any large enough buffer yields a well-formed
    freelist whose [len] entries are all free, and of which none counts as
    reserved. *)
Theorem flist_init_correct buf len :
  0 < len < 2 ^ 31 -> 1 + FLA_FREELIST_U32_ELEMS len <= Z.of_nat (length buf) ->
  exists flist, fla_flist_init buf len = Some flist /\ flist_wf flist len /\
    flist_bits flist len = replicate (Z.to_nat len) true /\
    fla_flist_num_reserved flist = Some 0.
Proof.
  intros Hlen Hbuf. destruct (flist_init_spec buf len Hlen Hbuf) as (flist & Hi & Hwf & _ & Hb).
  assert (flist_bits flist len = replicate (Z.to_nat len) true) as Hrep.
  { apply flist_bits_ext; [apply length_replicate|]. intros i Hi'.
    rewrite lookup_replicate_2 by done. by rewrite Hb by lia. }
  exists flist. split_and!; [done|done|done|]. rewrite (num_reserved_spec _ _ Hwf), Hrep. f_equal.
  assert (forall n, Bitmap.count (replicate n true) = n) as Hc by (intros n; induction n; cbn; lia).
  rewrite Hc. lia.
Qed.


(** C24: [fla_flist_entries_alloc] implements the bitmap.  With at least [num] free
    entries it returns the lowest one and reserves exactly the [num] lowest; without
    any free entry it returns -1 and changes no entry.  (Requests for more entries than
    are free, when some are, are left out: the code reserves those on the way to its
    failure, [failed_alloc_leaks], where the header promises that no allocation was
    made.) *)
Theorem flist_alloc_refines flist len num :
  flist_wf flist len -> 1 <= num < 2 ^ 32 ->
  let b := flist_bits flist len in
  (num <= Z.of_nat (Bitmap.count b) -> exists i flist', Bitmap.first b = Some i /\
     fla_flist_entries_alloc flist num = Some (Z.of_nat i, flist') /\ flist_wf flist' len /\ length flist' = length flist /\
     flist_bits flist' len = Bitmap.take (Z.to_nat num) b) /\
  (Bitmap.count b = O -> exists flist', fla_flist_entries_alloc flist num = Some (-1, flist') /\
     flist_wf flist' len /\ length flist' = length flist /\ flist_bits flist' len = b).
Proof.
  intros Hwf Hnum b.
  destruct (entries_alloc_bits flist len num Hwf ltac:(unfold is_u32; lia)) as (flist' & Ha & Hwf' & Hl & Hb).
  fold b in Ha, Hb. unfold alloc_request in *. rewrite u32_small in Ha, Hb by (unfold is_u32; lia).
  replace (num - 1 + 1) with num in Ha, Hb by lia. split; intros Hc.
  - destruct (Bitmap.first b) as [i|] eqn:Hf; [|apply Bitmap.count_0 in Hf; lia].
    exists i, flist'. rewrite Z.min_l in Hb by lia.
    destruct (Z.leb_spec num (Z.of_nat (Bitmap.count b))); [by split_and!|lia].
  - exists flist'. rewrite Z.min_r, Nat2Z.id, Hc in Hb by lia. split_and!; [by rewrite Ha, (proj1 (Bitmap.count_0 b) Hc)|done|done|].
    by rewrite Hb.
Qed.

(** Bits past the end of a freelist of 37 entries are clear when the second word has
    only five. *)
Lemma wf_37 v w : 0 <= v < 2 ^ 32 -> 0 <= w < 2 ^ 5 -> flist_wf [37; v; w] 37.
Proof.
  intros Hv Hw. split; [done|lia|vm_compute; congruence| |].
  - intros [|[|[|k]]] x; [lia| | |]; cbn; intros _ _ Hx; simplify_eq; split; lia.
  - intros i [Hi1 Hi2]. change (32 * FLA_FREELIST_U32_ELEMS 37) with 64 in Hi2. unfold free_bit.
    assert (i / 32 = 1 /\ i mod 32 = i - 32) as [-> ->].
    { replace i with (32 * 1 + (i - 32)) by lia. rewrite div32_word, mod32_word by lia. lia. }
    cbn [Z.to_nat lookup]. change (Z.testbit w (i - 32) = false). rewrite <- (Z.mod_small w (2 ^ 5)) by lia.
    apply Z.mod_pow2_bits_high. lia.
Qed.
Lemma flist_wf_example : flist_wf [37; 4294967290; 31] 37.
Proof. apply wf_37; lia. Qed.

Lemma flist_alloc_refines_witness :
  (exists i flist', Bitmap.first (flist_bits [37; 4294967290; 31] 37) = Some i /\
      fla_flist_entries_alloc [37; 4294967290; 31] 2 = Some (Z.of_nat i, flist') /\ flist_wf flist' 37 /\ length flist' = 3%nat /\
      flist_bits flist' 37 = Bitmap.take 2 (flist_bits [37; 4294967290; 31] 37)) /\
  exists flist', fla_flist_entries_alloc [37; 0; 0] 2 = Some (-1, flist') /\ flist_bits flist' 37 = flist_bits [37; 0; 0] 37.
Proof.
  split.
  - apply (flist_alloc_refines [37; 4294967290; 31] 37 2 flist_wf_example ltac:(lia)). vm_compute. discriminate.
  - destruct (flist_alloc_refines [37; 0; 0] 37 2) as [_ Hf]; [apply wf_37; lia|lia|].
    destruct (Hf eq_refl) as (flist' & Ha & _ & _ & Hb). exists flist'. split; [exact Ha|exact Hb].
Defined.

(** C39: Releasing the entry that an allocation of one entry returned restores the
    freelist, word for word, and the entry lies inside the freelist. *)
Theorem flist_alloc_free_roundtrip flist len r flist1 :
  flist_wf flist len -> fla_flist_entries_alloc flist 1 = Some (r, flist1) -> r <> -1 ->
  0 <= r < len /\ fla_flist_entry_free flist1 r = Some (0, flist).
Proof.
  intros Hwf Ha Hr. destruct (entries_alloc_1 flist len Hwf) as [(r' & Hlt & (Hge & Hf & _) & Heq)|[_ Heq]];
    rewrite Heq in Ha; simplify_eq.
  split; [lia|]. rewrite (entry_free_spec _ len) by (try apply flist_clear_wf; done || lia).
  by rewrite (set_clear_id _ len) by (done || lia).
Qed.

Lemma flist_alloc_free_roundtrip_witness :
  0 <= 1 < 37 /\ fla_flist_entry_free [37; 4294967288; 31] 1 = Some (0, [37; 4294967290; 31]).
Proof.
  apply (flist_alloc_free_roundtrip [37; 4294967290; 31] 37 1 [37; 4294967288; 31]);
    [exact flist_wf_example|reflexivity|discriminate].
Defined.

(** [fla_flist_entries_free] releases exactly the entries [ndx .. ndx+num-1]
    and nothing else, whether they were reserved or not. *)
Theorem flist_entries_free_correct flist len ndx num :
  flist_wf flist len -> 0 <= ndx -> 0 <= num -> ndx + num <= len ->
  exists flist', fla_flist_entries_free flist ndx num = Some (0, flist') /\ flist_wf flist' len /\
    (forall i, 0 <= i < len ->
       free_bit flist' i = if decide (ndx <= i < ndx + num) then true else free_bit flist i).
Proof.
  intros Hwf Hn Hnum Hle. unfold fla_flist_entries_free.
  destruct (entries_free_loop_spec (Z.to_nat num) flist len ndx 0 Hwf) as (flist' & -> & Hwf' & _ & Hb); [lia..|].
  exists flist'. split_and!; [done|done|]. intros i Hi.
  assert (Some (free_bit flist' i) = Some (if decide (ndx <= i < ndx + num) then true else free_bit flist i)) as Heq.
  { replace i with (Z.of_nat (Z.to_nat i)) at 1 by lia. rewrite <- flist_bits_lookup with (len := len) by lia.
    rewrite Hb, release_range_lookup by (rewrite flist_bits_length; lia).
    rewrite flist_bits_lookup, Z2Nat.id by lia. repeat case_decide; done || lia. }
  by injection Heq.
Qed.


(** [fla_flist_num_reserved] is the number of entries whose bit is clear. *)
Theorem flist_num_reserved_correct flist len :
  flist_wf flist len ->
  fla_flist_num_reserved flist =
    Some (Z.of_nat (length (filter (fun b => b = false) (flist_bits flist len)))).
Proof.
  intros Hwf. flist_facts. rewrite (num_reserved_spec _ _ Hwf). f_equal.
  assert (forall b, length (filter (fun x => x = false) b) = length b - Bitmap.count b)%nat as Hc.
  { induction b as [|x b IH]; [done|]. rewrite filter_cons. pose proof (Bitmap.count_le b).
    destruct x; case_decide; try done; cbn [length Bitmap.count]; lia. }
  rewrite Hc, flist_bits_length.
  pose proof (Bitmap.count_le (flist_bits flist len)) as Hle. rewrite flist_bits_length in Hle. lia.
Qed.

Lemma flist_num_reserved_correct_witness : fla_flist_num_reserved [37; 4294967290; 31] = Some 2.
Proof. rewrite (flist_num_reserved_correct _ 37 flist_wf_example). vm_compute. reflexivity. Defined.

(** between an allocation that returned [r] and the release of [r], no
    allocation returns [r] again, whatever the interleaving of the other
    allocations and releases. *)
Theorem flist_no_double_alloc flist len r flist1 evs flist2 :
  flist_wf flist len -> fla_flist_entries_alloc flist 1 = Some (r, flist1) -> r <> -1 ->
  flist_run flist1 evs flist2 -> EvFree r ∉ evs -> EvAlloc r ∉ evs.
Proof.
  intros Hwf Ha Hr Hrun Hnf. flist_facts.
  destruct (entries_alloc_1 flist len Hwf) as [(r' & Hlt & (Hge & _) & Heq)|[_ Heq]];
    rewrite Heq in Ha; simplify_eq.
  eapply (flist_run_reserved _ len); [by apply flist_clear_wf|done| |done|done].
  rewrite (free_bit_clear _ len) by (done || lia). by case_decide.
Qed.


(** [fla_flist_search_wfunc] calls the callback on the reserved entries below
    [search_limit len] in ascending order, counting the ones it returns; for a
    length that is not a multiple of 32 those are all the reserved entries. *)
Theorem flist_search_correct {St} (f : Z -> St -> option (Z * St)) flist len found0 st :
  flist_wf flist len ->
  let l := zeros (free_bit flist) 0 (Z.to_nat (search_limit len)) in
  fla_flist_search_wfunc f flist FLA_FLIST_SEARCH_EXEC_FIRST found0 st = search_result <$> search_list f l 0 st /\
  (forall i, i ∈ l <-> 0 <= i < search_limit len /\ free_bit flist i = false) /\
  (len mod 32 <> 0 -> search_limit len = len).
Proof.
  intros Hwf l. flist_facts. pose proof (Z.mod_pos_bound len 32). split_and!.
  - by apply search_wfunc_spec.
  - intros i. unfold l. rewrite zeros_elem. unfold search_limit. split; intros [? ?]; (split; [lia|done]).
  - intros Hm. unfold search_limit. pose proof (Z.div_mod len 32). lia.
Qed.

