(* ===== verification/Hash.v ===== *)
(** * Hash: [src/src/flexalloc_hash.c] and [flexalloc_hash.h]

    The two string hashes, the compression function and the Robin Hood hash
    table that maps pool names to pool entries.  A table slot is a record, the
    table a list, a pointer into it an index.  [None] is undefined behaviour (an
    access outside the table, a division by zero) or an exhausted loop bound; the
    theorems show that neither happens on a well-formed table.

    The table refines a finite map from secondary hashes to values ([abs]).  The
    invariant [tbl_inv] is the local form of the Robin Hood placement: a slot
    whose probe length is [d + 1] follows a used slot of probe length at least
    [d], and an entry lies its probe length after its home slot. *)
From S2P Require Import Prelude Util.

(** ** Hash functions *)

(** A [char] of the key as the [int] it promotes to ([char] is signed). *)
Definition char_val (c : Z) : Z := if c <? 128 then c else c - 256.

(** The loop of [fla_hash_djb2] over the characters of the key. *)
Fixpoint djb2_loop (hash : Z) (key : list Z) : Z :=
  match key with
  | [] => hash
  | c :: key => djb2_loop (u64 (u64 (u64 (Z.shiftl hash 5) + hash) + char_val c)) key
  end.

Definition fla_hash_djb2 (key : list Z) : option Z :=
  key_len ← strlen key;
  Some (djb2_loop 5381 (take key_len key)).

(** [fla_hash_sdbm] stops at the terminating NUL by itself. *)
Fixpoint sdbm_loop (hash : Z) (key : list Z) : option Z :=
  match key with
  | [] => None
  | c :: key =>
      if c =? 0 then Some hash
      else sdbm_loop (u64 (char_val c + Z.shiftl hash 6 + Z.shiftl hash 16 - hash)) key
  end.

Definition fla_hash_sdbm (key : list Z) : option Z := sdbm_loop 0 key.

Definition fla_mad_compression (key a b n : Z) : option Z :=
  if n =? 0 then None else Some (u64 (a * key + b) mod n).

Definition FLA_HTBL_ENTRY_UNSET : Z := u64 (-1).
Definition FLA_HTBL_H1 (key : list Z) : option Z := fla_hash_djb2 key.
Definition FLA_HTBL_H2 (key : list Z) : option Z := fla_hash_sdbm key.
Definition FLA_HTBL_COMPRESS (hval tbl_size : Z) : option Z :=
  fla_mad_compression hval 31 5745 tbl_size.

(** ** The table *)

Record fla_htbl_entry := mk_entry { h2 : Z; val : Z; psl : Z }.

Record fla_htbl := mk_htbl {
  tbl : option (list fla_htbl_entry);
  tbl_size : Z;
  len : Z;
  stat_insert_calls : Z;
  stat_insert_failed : Z;
  stat_insert_tries : Z
}.

#[global] Instance fla_htbl_entry_eq_dec : EqDecision fla_htbl_entry.
Proof. solve_decision. Defined.

(** A slot is used unless its secondary hash is the sentinel. *)
Definition occ (e : fla_htbl_entry) : Prop := h2 e <> FLA_HTBL_ENTRY_UNSET.
#[global] Instance occ_dec e : Decision (occ e).
Proof. unfold occ. apply _. Defined.

(** [fla_htbl_entries_init]: the [memset] and the loop over [tbl_size] slots;
    a table shorter than [tbl_size] is undefined. *)
Definition fla_htbl_entries_init (t : list fla_htbl_entry) (n : nat) :
    option (list fla_htbl_entry) :=
  if decide (n <= length t)%nat
  then Some (replicate n (mk_entry FLA_HTBL_ENTRY_UNSET 0 0) ++ drop n t)
  else None.

(** [htbl_init]; [calloc_ok] is the outcome of the allocation. *)
Definition htbl_init (calloc_ok : bool) (t : fla_htbl) (size : Z) : option (fla_htbl * Z) :=
  match tbl t with
  | Some _ => Some (t, 1)
  | None =>
      if calloc_ok then
        table ← fla_htbl_entries_init
                  (replicate (Z.to_nat size) (mk_entry 0 0 0)) (Z.to_nat size);
        Some (mk_htbl (Some table) size 0 0 0 0, 0)
      else Some (t, - ENOMEM)
  end.

(** [htbl_new]: [junk] is the freshly allocated, uninitialised structure. *)
Definition htbl_new (malloc_ok calloc_ok : bool) (junk : fla_htbl) (size : Z) :
    option (option fla_htbl * Z) :=
  if malloc_ok then
    '(t, err) ← htbl_init calloc_ok
                  (mk_htbl None (tbl_size junk) (len junk) (stat_insert_calls junk)
                     (stat_insert_failed junk) (stat_insert_tries junk)) size;
    if err =? 0 then Some (Some t, 0) else Some (None, err)
  else Some (None, - ENOMEM).

(** How the insertion loop ends. *)
Inductive ins_res :=
  | Placed (t : list fla_htbl_entry) (n_tries : Z)
  | Updated (t : list fla_htbl_entry).

(** The index step of the probing loops: [ndx++] with wrap-around. *)
Definition next_ndx (n ndx : nat) : nat := if decide (S ndx = n) then O else S ndx.

(** The [while (1)] of [htbl_insert]. *)
Fixpoint insert_loop (fuel : nat) (n : nat) (t : list fla_htbl_entry) (ndx : nat)
    (current : fla_htbl_entry) (n_tries : Z) : option ins_res :=
  match fuel with
  | O => None
  | S fuel =>
      entry ← t !! ndx;
      let n_tries := u32 (n_tries + 1) in
      if h2 entry =? FLA_HTBL_ENTRY_UNSET then Some (Placed (<[ndx := current]> t) n_tries)
      else if psl entry <? psl current then
        insert_loop fuel n (<[ndx := current]> t) (next_ndx n ndx)
          (mk_entry (h2 entry) (val entry) (u16 (psl entry + 1))) n_tries
      else if h2 entry =? h2 current then
        Some (Updated (<[ndx := mk_entry (h2 entry) (val current) (psl entry)]> t))
      else
        insert_loop fuel n t (next_ndx n ndx)
          (mk_entry (h2 current) (val current) (u16 (psl current + 1))) n_tries
  end.

Definition htbl_insert (t : fla_htbl) (key : list Z) (v : Z) : option (fla_htbl * Z) :=
  hash1 ← FLA_HTBL_H1 key;
  ndx ← FLA_HTBL_COMPRESS hash1 (tbl_size t);
  hash2 ← FLA_HTBL_H2 key;
  let current := mk_entry hash2 v 0 in
  let calls := u32 (stat_insert_calls t + 1) in
  if len t =? tbl_size t then
    Some (mk_htbl (tbl t) (tbl_size t) (len t) calls
            (stat_insert_failed t) (stat_insert_tries t), 2)
  else
    slots ← tbl t;
    r ← insert_loop (S (length slots)) (Z.to_nat (tbl_size t)) slots (Z.to_nat ndx) current 0;
    match r with
    | Placed slots' n_tries =>
        Some (mk_htbl (Some slots') (tbl_size t) (u32 (len t + 1)) calls
                (stat_insert_failed t) (u32 (stat_insert_tries t + n_tries)), 0)
    | Updated slots' =>
        Some (mk_htbl (Some slots') (tbl_size t) (len t) calls
                (stat_insert_failed t) (stat_insert_tries t), 0)
    end.

(** The [while(1)] of [__htbl_lookup]; the result is the slot's index, [None]
    inside for [NULL]. *)
Fixpoint lookup_loop (fuel : nat) (n : nat) (t : list fla_htbl_entry) (hash2 : Z) (ndx : nat)
    (p : Z) : option (option nat) :=
  match fuel with
  | O => None
  | S fuel =>
      entry ← t !! ndx;
      if h2 entry =? hash2 then Some (Some ndx)
      else if (h2 entry =? FLA_HTBL_ENTRY_UNSET) || (psl entry <? p) then Some None
      else lookup_loop fuel n t hash2 (next_ndx n ndx) (u32 (p + 1))
  end.

Definition __htbl_lookup (t : fla_htbl) (hash2 ndx : Z) : option (option nat) :=
  slots ← tbl t;
  lookup_loop (S (S (length slots))) (Z.to_nat (tbl_size t)) slots hash2 (Z.to_nat ndx) 0.

Definition htbl_lookup (t : fla_htbl) (key : list Z) : option (option nat) :=
  hash2 ← FLA_HTBL_H2 key;
  hash1 ← FLA_HTBL_H1 key;
  ndx ← FLA_HTBL_COMPRESS hash1 (tbl_size t);
  __htbl_lookup t hash2 ndx.

(** The [while(1)] of [htbl_remove]: shift the run after the removed slot back
    by one; returns the slot to clear. *)
Fixpoint remove_loop (fuel : nat) (n : nat) (t : list fla_htbl_entry) (entry : nat) :
    option (list fla_htbl_entry * nat) :=
  match fuel with
  | O => None
  | S fuel =>
      let next := next_ndx n entry in
      e ← t !! next;
      if psl e =? 0 then Some (t, entry)
      else remove_loop fuel n
             (<[entry := mk_entry (h2 e) (val e) (u16 (psl e - 1))]> t) next
  end.

Definition htbl_remove (t : fla_htbl) (key : list Z) : option fla_htbl :=
  hash2 ← FLA_HTBL_H2 key;
  hash1 ← FLA_HTBL_H1 key;
  ndx ← FLA_HTBL_COMPRESS hash1 (tbl_size t);
  found ← __htbl_lookup t hash2 ndx;
  match found with
  | None => Some t
  | Some entry =>
      slots ← tbl t;
      '(slots', last) ← remove_loop (S (length slots)) (Z.to_nat (tbl_size t)) slots entry;
      e ← slots' !! last;
      Some (mk_htbl (Some (<[last := mk_entry FLA_HTBL_ENTRY_UNSET (val e) 0]> slots'))
              (tbl_size t) (u32 (len t - 1))
              (stat_insert_calls t) (stat_insert_failed t) (stat_insert_tries t))
  end.

(** ** Positions on the ring of [n] slots *)

(** [adv n h d] is the slot [d] steps after [h]. *)
Definition adv (n h d : nat) : nat := ((h + d) mod n)%nat.

Lemma adv_lt n h d : (0 < n)%nat -> (adv n h d < n)%nat.
Proof. intros. apply Nat.mod_upper_bound. lia. Qed.

Lemma adv_0 n h : (h < n)%nat -> adv n h 0 = h.
Proof. intros. unfold adv. rewrite Nat.add_0_r. by apply Nat.mod_small. Qed.

Lemma adv_adv n h d k : (0 < n)%nat -> adv n (adv n h d) k = adv n h (d + k).
Proof. intros. unfold adv. rewrite Nat.Div0.add_mod_idemp_l. f_equal. lia. Qed.

Lemma next_ndx_adv n p : (p < n)%nat -> next_ndx n p = adv n p 1.
Proof.
  intros. unfold next_ndx, adv. case_decide.
  - replace (p + 1)%nat with n by lia. symmetry. apply Nat.Div0.mod_same.
  - rewrite Nat.mod_small; lia.
Qed.

Lemma adv_full n h : (h < n)%nat -> adv n h n = h.
Proof.
  intros. unfold adv. rewrite <- Nat.Div0.add_mod_idemp_r, Nat.Div0.mod_same, Nat.add_0_r.
  by apply Nat.mod_small.
Qed.

Lemma adv_1_fix n p : (p < n)%nat -> adv n p 1 = p -> n = 1%nat.
Proof.
  intros ? E. rewrite <- next_ndx_adv in E by done. unfold next_ndx in E. case_decide; lia.
Qed.

(** Every slot is at a unique distance from [h]. *)
Lemma adv_dist n h p : (h < n)%nat -> (p < n)%nat -> exists d, (d < n)%nat /\ adv n h d = p.
Proof.
  intros. destruct (decide (h <= p)%nat).
  - exists (p - h)%nat. split; [lia|]. unfold adv. rewrite Nat.mod_small; lia.
  - exists (n + p - h)%nat. split; [lia|]. unfold adv. symmetry.
    apply Nat.mod_unique with 1%nat; lia.
Qed.

Lemma adv_cancel n h h' d : (h < n)%nat -> (h' < n)%nat -> adv n h d = adv n h' d -> h = h'.
Proof.
  intros Hh Hh' E.
  assert (forall x, (x < n)%nat -> adv n (adv n x d) (n - d mod n) = x) as B.
  { intros x Hx. rewrite adv_adv by lia. unfold adv.
    pose proof (Nat.Div0.div_mod d n). pose proof (Nat.mod_upper_bound d n).
    replace (x + (d + (n - d mod n)))%nat with (x + (S (d / n)) * n)%nat by nia.
    rewrite Nat.Div0.mod_add. by apply Nat.mod_small. }
  rewrite <- (B h Hh), <- (B h' Hh'). by rewrite E.
Qed.

(** ** The invariant of the table *)

Section table.
Context (n : nat) (hm : Z -> nat) (n_pos : 0 < Z.of_nat n < 2 ^ 16).
Context (hm_lt : forall h, (hm h < n)%nat).

(** The placement of the entries: an unused slot has probe length zero, a used
    one lies [psl] slots after the home slot of its hash, and a displaced entry
    follows an entry that is at least as far from home, less one. *)
Record placed (t : list fla_htbl_entry) : Prop := {
  pl_length : length t = n;
  pl_unset : forall p e, t !! p = Some e -> ~ occ e -> psl e = 0;
  pl_psl : forall p e, t !! p = Some e -> 0 <= psl e;
  pl_prev : forall p e, (p < n)%nat -> t !! adv n p 1 = Some e -> 0 < psl e ->
    exists e', t !! p = Some e' /\ occ e' /\ psl e - 1 <= psl e'
}.

Definition homed (t : list fla_htbl_entry) : Prop :=
  forall p e, t !! p = Some e -> occ e -> p = adv n (hm (h2 e)) (Z.to_nat (psl e)).

Definition unique (t : list fla_htbl_entry) : Prop :=
  forall p p' e e', t !! p = Some e -> t !! p' = Some e' -> occ e -> h2 e = h2 e' -> p = p'.

(** Some slot has probe length zero: the run after a removed entry ends. *)
Definition has_start (t : list fla_htbl_entry) : Prop :=
  exists p e, t !! p = Some e /\ psl e = 0.

Record tbl_inv (t : list fla_htbl_entry) : Prop := {
  inv_placed : placed t;
  inv_homed : homed t;
  inv_unique : unique t;
  inv_start : has_start t
}.

(** [h] is bound to [v] in some slot. *)
Definition has (t : list fla_htbl_entry) (h v : Z) : Prop :=
  exists p e, t !! p = Some e /\ occ e /\ h2 e = h /\ val e = v.

(** Walking back from a slot of probe length at least [k]. *)
Lemma placed_back t p k e : placed t -> (p < n)%nat -> t !! adv n p k = Some e ->
  Z.of_nat k <= psl e ->
  exists e', t !! p = Some e' /\ psl e - Z.of_nat k <= psl e' /\ (occ e -> occ e').
Proof.
  intros Ht Hp. revert e. induction k as [|k IH]; intros e He Hk.
  - rewrite adv_0 in He by done. exists e. split; [done|]. split; [lia|done].
  - assert (adv n p (S k) = adv n (adv n p k) 1) as E.
    { rewrite adv_adv by lia. f_equal. lia. }
    rewrite E in He.
    destruct (pl_prev t Ht (adv n p k) e) as (e' & He' & Ho & Hle);
      [apply adv_lt; lia|done|lia|].
    destruct (IH e' He') as (e'' & ? & ? & ?); [lia|].
    exists e''. split; [done|]. split; [lia|]. auto.
Qed.

(** Probe lengths stay below the table size. *)
Lemma placed_psl_lt t p e : placed t -> has_start t -> t !! p = Some e -> psl e < Z.of_nat n.
Proof.
  intros Ht (q & eq & Hq & Hq0) Hp.
  destruct (decide (psl e < Z.of_nat n)) as [|Hge]; [done|]. exfalso.
  assert (q < n)%nat as Hqn by (rewrite <- (pl_length t Ht); by eapply lookup_lt_Some).
  assert (p < n)%nat as Hpn by (rewrite <- (pl_length t Ht); by eapply lookup_lt_Some).
  destruct (adv_dist n q p) as (d & Hd & Hdp); [done..|].
  rewrite <- Hdp in Hp.
  destruct (placed_back t q d e Ht Hqn Hp) as (e' & He' & Hle & _); [lia|].
  simplify_eq. lia.
Qed.

(** An entry is found on the way from its home slot: every slot before it is
    used and at least as far from home as the probe. *)
Lemma probe_path t p e k : placed t -> homed t -> t !! p = Some e -> occ e ->
  (Z.of_nat k <= psl e) ->
  exists e', t !! adv n (hm (h2 e)) k = Some e' /\ Z.of_nat k <= psl e' /\ occ e'.
Proof.
  intros Ht Hh Hp Ho Hk.
  pose proof (Hh p e Hp Ho) as E.
  destruct (placed_back t (adv n (hm (h2 e)) k) (Z.to_nat (psl e) - k) e Ht) as (e' & ? & ? & ?).
  - apply adv_lt; lia.
  - rewrite adv_adv by lia. replace (k + _)%nat with (Z.to_nat (psl e)) by lia. by rewrite <- E.
  - lia.
  - exists e'. split; [done|]. split; [lia|]. auto.
Qed.

(** ** Lookup *)

Lemma lookup_loop_spec t h k fuel :
  tbl_inv t -> h <> FLA_HTBL_ENTRY_UNSET ->
  (forall p e, t !! p = Some e -> h2 e = h -> Z.of_nat k <= psl e) ->
  (k <= n)%nat -> (n + 1 <= k + fuel)%nat ->
  exists r, lookup_loop fuel n t h (adv n (hm h) k) (Z.of_nat k) = Some r /\
    match r with
    | Some p => exists e, t !! p = Some e /\ h2 e = h
    | None => forall p e, t !! p = Some e -> h2 e <> h
    end.
Proof.
  intros Ht Hh. revert k. induction fuel as [|fuel IH]; intros k Hall Hkn Hf; [lia|].
  destruct Ht as [Hp Hho Hu Hs].
  assert (adv n (hm h) k < n)%nat as Hlt by (apply adv_lt; lia).
  destruct (lookup_lt_is_Some_2 t (adv n (hm h) k)) as [e He]; [by rewrite (pl_length t Hp)|].
  cbn [lookup_loop]. rewrite He. bind_step.
  destruct (Z.eqb_spec (h2 e) h) as [E|E]; [eexists; split; [done|]; by exists e|].
  assert (forall p' e', t !! p' = Some e' -> h2 e' = h ->
            Z.of_nat k <= psl e /\ occ e) as Hpath.
  { intros p' e' He' Eh. subst h.
    destruct (probe_path t p' e' k) as (e'' & ? & ? & ?); [done..|by eapply Hall|].
    by simplify_eq. }
  destruct (Z.eqb_spec (h2 e) FLA_HTBL_ENTRY_UNSET) as [E'|E']; cbn [orb].
  { eexists; split; [done|]. intros p' e' He' Eh. by destruct (Hpath p' e' He' Eh). }
  destruct (Z.ltb_spec (psl e) (Z.of_nat k)).
  { eexists; split; [done|]. intros p' e' He' Eh. destruct (Hpath p' e' He' Eh). lia. }
  pose proof (placed_psl_lt t _ e Hp Hs He).
  rewrite u32_small by (unfold is_u32; lia).
  rewrite next_ndx_adv, adv_adv by lia.
  replace (Z.of_nat k + 1) with (Z.of_nat (k + 1)) by lia.
  apply IH; [|lia..].
  intros p' e' He' Eh.
  pose proof (Hall p' e' He' Eh).
  destruct (decide (psl e' = Z.of_nat k)) as [Ek|]; [|lia]. exfalso. apply E.
  assert (p' = adv n (hm h) k) as ->.
  { rewrite (Hho p' e' He'); [by rewrite Eh, Ek, Nat2Z.id|]. unfold occ. by rewrite Eh. }
  by simplify_eq.
Qed.

(** ** Insertion *)

(** The slot before [p] allows an entry like [x] in [p]. *)
Definition prev_ok (t : list fla_htbl_entry) (p : nat) (x : fla_htbl_entry) : Prop :=
  0 < psl x -> forall p0, (p0 < n)%nat -> adv n p0 1 = p ->
  exists e', t !! p0 = Some e' /\ occ e' /\ psl x - 1 <= psl e'.

Lemma placed_insert t p e x :
  placed t -> t !! p = Some e -> occ x -> psl e <= psl x -> prev_ok t p x ->
  placed (<[p := x]> t).
Proof.
  intros Ht He Hx Hle Hprev.
  pose proof (lookup_lt_Some _ _ _ He) as Hlt.
  pose proof (pl_psl t Ht _ _ He).
  split.
  - rewrite length_insert. apply Ht.
  - intros p' e' He' Ho. destruct (decide (p = p')) as [<-|].
    + rewrite list_lookup_insert_eq in He' by done. by simplify_eq.
    + rewrite list_lookup_insert_ne in He' by done. by eapply pl_unset.
  - intros p' e' He'. destruct (decide (p = p')) as [<-|].
    + rewrite list_lookup_insert_eq in He' by done. simplify_eq. lia.
    + rewrite list_lookup_insert_ne in He' by done. by eapply pl_psl.
  - intros p' e' Hp' He' Hpos.
    assert (exists e0, t !! p' = Some e0 /\ occ e0 /\ psl e' - 1 <= psl e0) as (e0 & H0 & ? & ?).
    { destruct (decide (p = adv n p' 1)) as [->|].
      - rewrite list_lookup_insert_eq in He' by done. simplify_eq. by apply Hprev.
      - rewrite list_lookup_insert_ne in He' by done. by apply pl_prev. }
    destruct (decide (p = p')) as [<-|].
    + rewrite list_lookup_insert_eq by done. simplify_eq. exists x. repeat split; [done|lia].
    + rewrite list_lookup_insert_ne by done. by exists e0.
Qed.

Lemma homed_insert t p x :
  homed t -> p = adv n (hm (h2 x)) (Z.to_nat (psl x)) -> homed (<[p := x]> t).
Proof.
  intros Ht E p' e' He' Ho. apply list_lookup_insert_Some in He' as [(<- & <- & _)|(? & He')].
  - done.
  - by apply Ht.
Qed.

(** [x] may be stored in slot [p]: its hash is nowhere else. *)
Definition only_at (t : list fla_htbl_entry) (p : nat) (h : Z) : Prop :=
  forall p' e', t !! p' = Some e' -> h2 e' = h -> p' = p.

Lemma unique_insert t p x : unique t -> only_at t p (h2 x) -> unique (<[p := x]> t).
Proof.
  intros Ht Ha p1 p2 e1 e2 H1 H2 Ho E.
  apply list_lookup_insert_Some in H1 as [(<- & <- & _)|(? & H1)];
    apply list_lookup_insert_Some in H2 as [(<- & <- & _)|(? & H2)]; try done.
  - symmetry. by eapply Ha.
  - by eapply Ha.
  - by eapply Ht.
Qed.

Lemma has_insert t p e x h v :
  unique t -> t !! p = Some e -> occ x -> only_at t p (h2 x) ->
  has (<[p := x]> t) h v <->
  (h = h2 x /\ v = val x) \/ (h <> h2 x /\ h <> h2 e /\ has t h v).
Proof.
  intros Hu He Hx Ha. pose proof (lookup_lt_Some _ _ _ He) as Hlt. split.
  - intros (p' & e' & He' & Ho & <- & <-).
    apply list_lookup_insert_Some in He' as [(<- & <- & _)|(Hne & He')]; [by left|].
    right. split; [|split].
    + intros E. by specialize (Ha p' e' He' E).
    + intros E. apply Hne. symmetry. by eapply Hu.
    + by exists p', e'.
  - intros [[-> ->]|(Hnx & Hne & p' & e' & He' & Ho & <- & <-)].
    + exists p, x. by rewrite list_lookup_insert_eq.
    + exists p', e'. rewrite list_lookup_insert_ne; [done|]. intros <-. by simplify_eq.
Qed.

(** Once the probe has reached a slot that is unused, or closer to its home
    than the probe to its own, the searched hash is not in the table. *)
Lemma probe_absent t x e c :
  placed t -> homed t -> occ x ->
  t !! adv n (hm (h2 x)) c = Some e ->
  (forall p' e', t !! p' = Some e' -> h2 e' = h2 x -> Z.of_nat c <= psl e') ->
  ~ occ e \/ psl e < Z.of_nat c ->
  forall p' e', t !! p' = Some e' -> h2 e' <> h2 x.
Proof.
  intros Hp Hh Hx He Hall Hd p' e' He' E.
  destruct (probe_path t p' e' c) as (e'' & He'' & ? & ?);
    [done..|unfold occ; by rewrite E|by eapply Hall|].
  rewrite E in He''. simplify_eq. destruct Hd; [done|lia].
Qed.

(** What storing [x] does to the bindings. *)
Definition bound_after (t : list fla_htbl_entry) (x : fla_htbl_entry) (h v : Z) : Prop :=
  (h = h2 x /\ v = val x) \/ (h <> h2 x /\ has t h v).

Definition insert_post (t : list fla_htbl_entry) (x : fla_htbl_entry) (r : ins_res) : Prop :=
  match r with
  | Placed t' _ =>
      tbl_inv t' /\ (forall h v, has t' h v <-> bound_after t x h v) /\
      length (filter occ t') = S (length (filter occ t)) /\
      (forall p e, t !! p = Some e -> h2 e <> h2 x)
  | Updated t' =>
      tbl_inv t' /\ (forall h v, has t' h v <-> bound_after t x h v) /\
      length (filter occ t') = length (filter occ t) /\
      (exists p e, t !! p = Some e /\ h2 e = h2 x)
  end.

(** The state of the insertion loop: [x], probing for the [c]-th time, has not
    passed an entry with its own hash. *)
Record probing (t : list fla_htbl_entry) (x : fla_htbl_entry) (c : nat) : Prop := {
  pr_placed : placed t;
  pr_homed : homed t;
  pr_unique : unique t;
  pr_occ : occ x;
  pr_psl : psl x = Z.of_nat c;
  pr_prev : prev_ok t (adv n (hm (h2 x)) c) x;
  pr_ahead : forall p e, t !! p = Some e -> h2 e = h2 x -> Z.of_nat c <= psl e
}.

Lemma adv_pred p c h : (p < n)%nat -> (h < n)%nat -> adv n p 1 = adv n h (c + 1) -> p = adv n h c.
Proof.
  intros ?? E. replace (adv n h (c + 1)) with (adv n (adv n h c) 1) in E by (apply adv_adv; lia).
  eapply adv_cancel; [done|apply adv_lt; lia|done].
Qed.

Lemma placed_place t x c e :
  probing t x c -> t !! adv n (hm (h2 x)) c = Some e -> ~ occ e -> forall r,
  insert_post t x (Placed (<[adv n (hm (h2 x)) c := x]> t) r).
Proof.
  intros [Hp Hh Hu Hx Hc Hprev Hah] He Hne r. set (p := adv n (hm (h2 x)) c) in *.
  pose proof (lookup_lt_Some _ _ _ He) as Hlt.
  pose proof (probe_absent t x e c Hp Hh Hx He Hah (or_introl Hne)) as Habs.
  assert (only_at t p (h2 x)) as Hon by (intros ?? Hl E; by destruct (Habs _ _ Hl)).
  pose proof (pl_unset t Hp p e He Hne) as He0.
  assert (p < n)%nat as Hpn by (rewrite <- (pl_length t Hp); done).
  split; [split|split; [|split]]; [| | | | | |done].
  - eapply placed_insert; [done..|lia|done].
  - apply homed_insert; [done|]. by rewrite Hc, Nat2Z.id.
  - by apply unique_insert.
  - destruct (lookup_lt_is_Some_2 t (adv n p 1)) as [e1 He1].
    { rewrite (pl_length t Hp). apply adv_lt. lia. }
    destruct (decide (adv n p 1 = p)) as [E|].
    + exists p, x. rewrite list_lookup_insert_eq by done. split; [done|].
      destruct (decide (0 < psl x)) as [Hpos|]; [exfalso|lia].
      destruct (Hprev Hpos p Hpn E) as (e' & ? & ? & _). by simplify_eq.
    + exists (adv n p 1), e1. rewrite list_lookup_insert_ne by done. split; [done|].
      destruct (decide (0 < psl e1)) as [Hpos|]; [exfalso|pose proof (pl_psl t Hp _ _ He1); lia].
      destruct (pl_prev t Hp p e1 Hpn He1 Hpos) as (e' & ? & ? & _). by simplify_eq.
  - intros h v. rewrite has_insert by done. unfold bound_after.
    split; [intuition|]. intros [?|[? Hhas]]; [by left|right]. split; [done|]. split; [|done].
    destruct Hhas as (q & eq & ? & Ho & <- & _). intros E. apply Hne. unfold occ in *. by rewrite <- E.
  - pose proof (length_filter_insert occ t p x e He) as L.
    destruct (decide (occ x)), (decide (occ e)); try done; lia.
Qed.

Lemma placed_update t x c e :
  probing t x c -> has_start t -> t !! adv n (hm (h2 x)) c = Some e -> occ e -> h2 e = h2 x ->
  insert_post t x (Updated (<[adv n (hm (h2 x)) c := mk_entry (h2 e) (val x) (psl e)]> t)).
Proof.
  intros [Hp Hh Hu Hx Hc Hprev Hah] Hs He Ho E. set (p := adv n (hm (h2 x)) c) in *.
  pose proof (lookup_lt_Some _ _ _ He) as Hlt.
  set (y := mk_entry (h2 e) (val x) (psl e)).
  assert (only_at t p (h2 y)) as Hon by (intros ?? Hl E'; by eapply (Hu _ _ _ e Hl He); [unfold occ; rewrite E'|]).
  split; [split|split; [|split]].
  - eapply placed_insert; [done..| |]; cbn; [lia|].
    intros Hpos p0 Hp0 E0. change (psl y) with (psl e) in *. apply pl_prev; [done..|by rewrite E0|done].
  - apply homed_insert; [done|]. exact (Hh p e He Ho).
  - by apply unique_insert.
  - destruct Hs as (q & eq & Hq & Hq0). destruct (decide (q = p)) as [->|].
    + exists p, y. rewrite list_lookup_insert_eq by done. by simplify_eq.
    + exists q, eq. by rewrite list_lookup_insert_ne.
  - intros h v. rewrite (has_insert t p e y) by done. unfold bound_after. cbn. rewrite E.
    intuition.
  - pose proof (length_filter_insert occ t p y e He) as L.
    destruct (decide (occ y)), (decide (occ e)); try done; lia.
  - by exists p, e.
Qed.

Lemma start_of_unset t q e : placed t -> t !! q = Some e -> ~ occ e -> has_start t.
Proof. intros Ht He Hn. exists q, e. split; [done|]. by eapply pl_unset. Qed.

(** The displaced entry of a swap continues as the probing one. *)
Lemma probing_swap t x c e :
  probing t x c -> has_start t -> t !! adv n (hm (h2 x)) c = Some e -> occ e -> psl e < psl x ->
  probing (<[adv n (hm (h2 x)) c := x]> t) (mk_entry (h2 e) (val e) (u16 (psl e + 1)))
    (Z.to_nat (psl e) + 1) /\
  (forall p' e', <[adv n (hm (h2 x)) c := x]> t !! p' = Some e' -> h2 e' <> h2 e).
Proof.
  intros [Hp Hh Hu Hx Hc Hprev Hah] Hs He Ho Hlt. set (p := adv n (hm (h2 x)) c) in *.
  pose proof (lookup_lt_Some _ _ _ He) as Hpt.
  assert (p < n)%nat as Hpn by (rewrite <- (pl_length t Hp); done).
  pose proof (pl_psl t Hp p e He) as H0.
  pose proof (placed_psl_lt t p e Hp Hs He) as Hn.
  rewrite Hc in Hlt.
  pose proof (probe_absent t x e c Hp Hh Hx He Hah (or_intror Hlt)) as Habs.
  assert (forall p' e', <[p := x]> t !! p' = Some e' -> h2 e' <> h2 e) as Hgone.
  { intros p' e' He' E.
    apply list_lookup_insert_Some in He' as [(<- & <- & _)|(Hne & He')].
    - by apply (Habs p e He).
    - apply Hne. symmetry. eapply Hu; [exact He'|exact He| |done]. unfold occ. by rewrite E. }
  split; [|done].
  rewrite u16_small by (unfold is_u16; lia).
  split; cbn [h2 psl val].
  - eapply placed_insert; [done..|lia|done].
  - apply homed_insert; [done|]. by rewrite Hc, Nat2Z.id.
  - apply unique_insert; [done|]. intros ?? Hl E. by destruct (Habs _ _ Hl).
  - done.
  - lia.
  - intros _ p0 Hp0 E. apply adv_pred in E; [|done..]. rewrite <- (Hh p e He Ho) in E. subst p0.
    exists x. rewrite list_lookup_insert_eq by done. repeat split; [done|cbn; lia].
  - intros p' e' He' E. by destruct (Hgone p' e').
Qed.

Lemma insert_post_swap t x e p r x' :
  unique t -> t !! p = Some e -> occ e -> occ x ->
  (forall p' e', t !! p' = Some e' -> h2 e' <> h2 x) ->
  (forall p' e', <[p := x]> t !! p' = Some e' -> h2 e' <> h2 e) ->
  h2 x' = h2 e -> val x' = val e ->
  insert_post (<[p := x]> t) x' r -> insert_post t x r.
Proof.
  intros Hu He Ho Hx Habs Hgone E2 Ev.
  assert (length (filter occ (<[p := x]> t)) = length (filter occ t)) as Hlen.
  { pose proof (length_filter_insert occ t p x e He).
    destruct (decide (occ x)), (decide (occ e)); try done; lia. }
  assert (forall h v, bound_after (<[p := x]> t) x' h v <-> bound_after t x h v) as Hb.
  { intros h v. unfold bound_after.
    rewrite (has_insert t p e x) by (done || (intros ?? Hl E; by destruct (Habs _ _ Hl))).
    rewrite E2, Ev. pose proof (Habs p e He).
    destruct (decide (h = h2 e)) as [->|]; [|intuition].
    split.
    - intros [[_ ->]|[? _]]; [|done]. right. split; [done|]. by exists p, e.
    - intros [[? _]|[_ (p' & e' & He' & ? & E & <-)]]; [done|].
      left. split; [done|]. assert (p' = p) as -> by (by eapply Hu). by simplify_eq. }
  destruct r as [t' k|t']; cbn [insert_post]; rewrite Hlen.
  - intros (? & Hhas & ? & _). split; [done|]. split; [|done].
    intros h v. by rewrite Hhas, Hb.
  - intros (_ & _ & _ & p' & e' & He' & E). exfalso. eapply Hgone; [done|]. by rewrite E.
Qed.

Lemma insert_loop_spec fuel t x c tries m q eq :
  probing t x c -> t !! q = Some eq -> ~ occ eq ->
  adv n (adv n (hm (h2 x)) c) m = q -> (m < fuel)%nat ->
  exists r, insert_loop fuel n t (adv n (hm (h2 x)) c) x tries = Some r /\ insert_post t x r.
Proof.
  revert t x c tries m. induction fuel as [|fuel IH]; intros t x c tries m Hpr Hq Hne Hm Hf; [lia|].
  pose proof (start_of_unset t q eq (pr_placed _ _ _ Hpr) Hq Hne) as Hs.
  assert (adv n (hm (h2 x)) c < n)%nat as Hlt by (apply adv_lt; lia).
  destruct (lookup_lt_is_Some_2 t (adv n (hm (h2 x)) c)) as [e He].
  { by rewrite (pl_length t (pr_placed _ _ _ Hpr)). }
  cbn [insert_loop]. rewrite He. bind_step.
  destruct (Z.eqb_spec (h2 e) FLA_HTBL_ENTRY_UNSET) as [E|Ho].
  { eexists; split; [done|]. eapply placed_place; [done..|]. by intros []. }
  change (occ e) in Ho.
  assert (m <> 0)%nat as Hm0.
  { intros ->. rewrite adv_0 in Hm by done. subst q. by simplify_eq. }
  rewrite (next_ndx_adv n _ Hlt).
  assert (adv n (adv n (adv n (hm (h2 x)) c) 1) (m - 1) = q) as Hm'.
  { rewrite adv_adv by lia. by replace (1 + (m - 1))%nat with m by lia. }
  assert (adv n (hm (h2 x)) c <> q) as Hpq by (intros <-; by simplify_eq).
  destruct (Z.ltb_spec (psl e) (psl x)) as [Hr|Hr].
  - destruct (probing_swap t x c e Hpr Hs He Ho Hr) as [Hpr' Hgone].
    assert (adv n (adv n (hm (h2 x)) c) 1 = adv n (hm (h2 e)) (Z.to_nat (psl e) + 1)) as Epos.
    { rewrite (pr_homed _ _ _ Hpr _ e He Ho), adv_adv by lia. done. }
    rewrite Epos in Hm' |- *.
    destruct (IH _ _ _ (u32 (tries + 1)) (m - 1)%nat Hpr') as (r & Hr1 & Hr2); try done; [|lia|].
    { by rewrite list_lookup_insert_ne. }
    exists r. split; [exact Hr1|]. eapply insert_post_swap, Hr2; try done.
    + by eapply pr_unique.
    + by eapply pr_occ.
    + destruct Hpr as [Hp Hh Hu Hx Hc Hprev Hah]. eapply probe_absent; try done. right. lia.
  - destruct (Z.eqb_spec (h2 e) (h2 x)) as [E|E].
    { eexists; split; [done|]. by eapply placed_update. }
    rewrite (adv_adv n (hm (h2 x)) c 1) in Hm' |- * by lia.
    apply (IH t (mk_entry (h2 x) (val x) (u16 (psl x + 1))) (c + 1)%nat (u32 (tries + 1))
             (m - 1)%nat); [|done..|lia].
    destruct Hpr as [Hp Hh Hu Hx Hc Hprev Hah].
    pose proof (placed_psl_lt t _ e Hp Hs He).
    rewrite u16_small by (unfold is_u16; lia). split; cbn [h2 val psl]; try done; [lia| |].
    + intros _ p0 Hp0 E0. apply adv_pred in E0; [|done..]. subst p0.
      exists e. split; [done|]. split; [done|]. cbn. lia.
    + intros p' e' He' E'. pose proof (Hah p' e' He' E').
      destruct (decide (psl e' = Z.of_nat c)) as [Ec|]; [|lia]. exfalso. apply E.
      assert (p' = adv n (hm (h2 x)) c) as ->; [|by simplify_eq].
      rewrite (Hh p' e' He'); [by rewrite E', Ec, Nat2Z.id|]. unfold occ. by rewrite E'.
Qed.

(** ** Removal *)

(** While a run is shifted back, slot [p] holds a stale entry: the placement is
    intact, the bindings are those of the other slots. *)
Definition has_off (t : list fla_htbl_entry) (p : nat) (h v : Z) : Prop :=
  exists p' e, p' <> p /\ t !! p' = Some e /\ occ e /\ h2 e = h /\ val e = v.

Record shifting (t : list fla_htbl_entry) (p : nat) (e : fla_htbl_entry) : Prop := {
  sh_placed : placed t;
  sh_stale : t !! p = Some e;
  sh_occ : occ e;
  sh_homed : forall p' e', p' <> p -> t !! p' = Some e' -> occ e' ->
    p' = adv n (hm (h2 e')) (Z.to_nat (psl e'));
  sh_unique : forall p1 p2 e1 e2, p1 <> p -> p2 <> p -> t !! p1 = Some e1 -> t !! p2 = Some e2 ->
    occ e1 -> h2 e1 = h2 e2 -> p1 = p2
}.

(** Moving the next entry one slot back keeps the placement. *)
Lemma placed_shift t p e e1 y :
  placed t -> t !! p = Some e -> occ e -> t !! adv n p 1 = Some e1 -> adv n p 1 <> p ->
  0 < psl e1 -> psl e1 - 1 <= psl e -> occ y -> psl y = psl e1 - 1 ->
  placed (<[p := y]> t).
Proof.
  intros Ht Hst Ho He1 Hne Hpos Hle Hoy Hy.
  pose proof (lookup_lt_Some _ _ _ Hst) as Hlt.
  split.
  - rewrite length_insert. apply Ht.
  - intros p' e' Hl Hno. apply list_lookup_insert_Some in Hl as [(_ & <- & _)|[_ Hl]]; [done|].
    by eapply pl_unset.
  - intros p' e' Hl. apply list_lookup_insert_Some in Hl as [(_ & <- & _)|[_ Hl]]; [lia|].
    by eapply pl_psl.
  - intros p' e' Hp' Hl Hpos'.
    destruct (decide (p' = p)) as [->|Hp'p].
    { rewrite list_lookup_insert_ne in Hl by done. simplify_eq.
      exists y. rewrite list_lookup_insert_eq by done. repeat split; [done|lia]. }
    rewrite list_lookup_insert_ne by done.
    destruct (decide (adv n p' 1 = p)) as [E|E].
    + rewrite E, list_lookup_insert_eq in Hl by done. injection Hl as <-.
      destruct (pl_prev t Ht p' e) as (e' & ? & ? & ?); [done|by rewrite E|lia|].
      exists e'. repeat split; [done..|lia].
    + rewrite list_lookup_insert_ne in Hl by done. by apply pl_prev.
Qed.

Lemma shifting_step t p e e1 :
  shifting t p e -> has_start t -> t !! adv n p 1 = Some e1 -> 0 < psl e1 ->
  let t' := <[p := mk_entry (h2 e1) (val e1) (u16 (psl e1 - 1))]> t in
  adv n p 1 <> p /\ psl e1 - 1 <= psl e /\ shifting t' (adv n p 1) e1 /\
  (forall h v, has_off t' (adv n p 1) h v <-> has_off t p h v) /\
  length (filter occ t') = length (filter occ t).
Proof.
  intros [Ht Hst Ho Hh Hu] Hs He1 Hpos t'.
  pose proof (lookup_lt_Some _ _ _ Hst) as Hlt.
  assert (p < n)%nat as Hpn by (rewrite <- (pl_length t Ht); done).
  pose proof (placed_psl_lt t _ e1 Ht Hs He1) as Hn.
  destruct (pl_prev t Ht p e1 Hpn He1 Hpos) as (e' & He' & Ho' & Hle).
  assert (e' = e) as -> by congruence.
  assert (occ e1) as Ho1.
  { destruct (decide (occ e1)) as [|Hno]; [done|]. pose proof (pl_unset t Ht _ e1 He1 Hno). lia. }
  assert (adv n p 1 <> p) as Hne.
  { intros E. pose proof (adv_1_fix n p Hpn E). rewrite E in He1. simplify_eq. lia. }
  subst t'. rewrite u16_small by (unfold is_u16; lia). set (y := mk_entry _ _ _).
  assert (occ y) as Hoy by done.
  split; [done|]. split; [done|]. split; [split|split].
  - eapply placed_shift; try done.
  - by rewrite list_lookup_insert_ne.
  - done.
  - intros p' e' Hp' Hl Ho2.
    apply list_lookup_insert_Some in Hl as [(<- & <- & _)|[Hpp Hl]]; [|by apply Hh].
    pose proof (Hh _ e1 Hne He1 Ho1) as E. change (h2 y) with (h2 e1). 
    change (psl y) with (psl e1 - 1).
    apply adv_pred; [done..|]. rewrite E. f_equal. lia.
  - intros p1 p2 x1 x2 Hp1 Hp2 Hl1 Hl2 Hox E.
    apply list_lookup_insert_Some in Hl1 as [(<- & <- & _)|[? Hl1]];
      apply list_lookup_insert_Some in Hl2 as [(<- & <- & _)|[? Hl2]]; [done| | |by eapply Hu].
    + exfalso. apply Hp2. symmetry. by eapply (Hu (adv n p 1) p2 e1 x2).
    + exfalso. apply Hp1. by eapply (Hu p1 (adv n p 1) x1 e1).
  - intros h v. split; intros (p' & e' & Hp' & Hl & Hox & <- & <-).
    + apply list_lookup_insert_Some in Hl as [(<- & <- & _)|[? Hl]].
      * by exists (adv n p 1), e1.
      * by exists p', e'.
    + destruct (decide (p' = adv n p 1)) as [->|].
      * simplify_eq. exists p, y. rewrite list_lookup_insert_eq by done. done.
      * exists p', e'. rewrite list_lookup_insert_ne by done. done.
  - pose proof (length_filter_insert occ t p y e Hst).
    destruct (decide (occ y)), (decide (occ e)); try done; lia.
Qed.

Lemma shifting_finish t p e e1 v0 :
  shifting t p e -> t !! adv n p 1 = Some e1 -> psl e1 = 0 ->
  let t' := <[p := mk_entry FLA_HTBL_ENTRY_UNSET v0 0]> t in
  tbl_inv t' /\ (forall h v, has t' h v <-> has_off t p h v) /\
  S (length (filter occ t')) = length (filter occ t).
Proof.
  intros [Ht Hst Ho Hh Hu] He1 H1 t'. subst t'. set (y := mk_entry _ _ _).
  pose proof (lookup_lt_Some _ _ _ Hst) as Hlt.
  assert (~ occ y) as Hoy by (intros H; by apply H).
  split; [split|split].
  - split.
    + rewrite length_insert. apply Ht.
    + intros p' e' Hl Hno. apply list_lookup_insert_Some in Hl as [(_ & <- & _)|[_ Hl]]; [done|].
      by eapply pl_unset.
    + intros p' e' Hl. apply list_lookup_insert_Some in Hl as [(_ & <- & _)|[_ Hl]]; [cbn; lia|].
      by eapply pl_psl.
    + intros p' e' Hp' Hl Hpos'.
      apply list_lookup_insert_Some in Hl as [(_ & <- & _)|[_ Hl]]; [cbn in Hpos'; lia|].
      destruct (pl_prev t Ht p' e') as (e'' & ? & ? & ?); [done..|].
      exists e''. split; [|done]. rewrite list_lookup_insert_ne; [done|].
      intros ->. simplify_eq. lia.
  - intros p' e' Hl Ho'. apply list_lookup_insert_Some in Hl as [(_ & <- & _)|[? Hl]]; [done|].
    by apply Hh.
  - intros p1 p2 e1' e2' Hl1 Hl2 Ho' E.
    apply list_lookup_insert_Some in Hl1 as [(_ & <- & _)|[? Hl1]]; [done|].
    apply list_lookup_insert_Some in Hl2 as [(_ & <- & _)|[? Hl2]].
    + destruct Hoy. unfold occ in *. by rewrite <- E.
    + by eapply Hu.
  - exists p, y. by rewrite list_lookup_insert_eq.
  - intros h v. split.
    + intros (p' & e' & Hl & Ho' & <- & <-).
      apply list_lookup_insert_Some in Hl as [(_ & <- & _)|[? Hl]]; [done|]. by exists p', e'.
    + intros (p' & e' & Hp' & Hl & Ho' & <- & <-). exists p', e'.
      by rewrite list_lookup_insert_ne.
  - pose proof (length_filter_insert occ t p y e Hst).
    destruct (decide (occ y)), (decide (occ e)); try done; lia.
Qed.

Lemma remove_loop_spec fuel t p e k e0 :
  shifting t p e -> t !! adv n p k = Some e0 -> psl e0 = 0 -> (1 <= k <= n)%nat -> (k <= fuel)%nat ->
  exists t' last el, remove_loop fuel n t p = Some (t', last) /\ t' !! last = Some el /\
    let t'' := <[last := mk_entry FLA_HTBL_ENTRY_UNSET (val el) 0]> t' in
    tbl_inv t'' /\ (forall h v, has t'' h v <-> has_off t p h v) /\
    S (length (filter occ t'')) = length (filter occ t).
Proof.
  revert t p e k e0. induction fuel as [|fuel IH]; intros t p e k e0 Hsh Hk H0 Hkn Hf; [lia|].
  pose proof (sh_placed _ _ _ Hsh) as Ht. pose proof (sh_stale _ _ _ Hsh) as Hst.
  pose proof (lookup_lt_Some _ _ _ Hst) as Hlt.
  assert (p < n)%nat as Hpn by (rewrite <- (pl_length t Ht); done).
  destruct (lookup_lt_is_Some_2 t (adv n p 1)) as [e1 He1].
  { rewrite (pl_length t Ht). apply adv_lt. lia. }
  cbn [remove_loop]. rewrite (next_ndx_adv n p Hpn), He1. bind_step.
  destruct (Z.eqb_spec (psl e1) 0) as [E|E].
  - exists t, p, e. split; [done|]. split; [done|]. by eapply shifting_finish.
  - pose proof (pl_psl t Ht _ _ He1).
    destruct (shifting_step t p e e1 Hsh) as (Hne & Hle & Hsh' & Hhas & Hlen);
      [by exists (adv n p k), e0|done|lia|].
    assert (k <> 1%nat) as Hk1 by (intros ->; by simplify_eq).
    set (t1 := <[p := _]> t) in *.
    assert (exists e0', t1 !! adv n (adv n p 1) (k - 1) = Some e0' /\ psl e0' = 0)
      as (e0' & Hk' & H0').
    { rewrite adv_adv by lia. replace (1 + (k - 1))%nat with k by lia. subst t1.
      destruct (decide (adv n p k = p)) as [Ep|].
      - rewrite Ep in Hk |- *. simplify_eq. rewrite list_lookup_insert_eq by done.
        eexists. split; [done|]. cbn. replace (psl e1 - 1) with 0 by lia. done.
      - exists e0. by rewrite list_lookup_insert_ne. }
    destruct (IH t1 (adv n p 1) e1 (k - 1)%nat e0' Hsh' Hk' H0') as (t' & last & el & ? & ? & H3);
      [lia..|].
    exists t', last, el. split; [done|]. split; [done|]. cbn zeta in *.
    destruct H3 as (? & Hh3 & ?). split; [done|]. split; [|congruence].
    intros h v. by rewrite Hh3, Hhas.
Qed.

(** Removing the entry in slot [p]. *)
Lemma remove_loop_inv t p e :
  tbl_inv t -> t !! p = Some e -> occ e ->
  exists t' last el, remove_loop (S n) n t p = Some (t', last) /\ t' !! last = Some el /\
    let t'' := <[last := mk_entry FLA_HTBL_ENTRY_UNSET (val el) 0]> t' in
    tbl_inv t'' /\ (forall h v, has t'' h v <-> h <> h2 e /\ has t h v) /\
    S (length (filter occ t'')) = length (filter occ t).
Proof.
  intros [Ht Hh Hu (q & eq & Hq & Hq0)] He Ho.
  assert (q < n)%nat as Hqn by (rewrite <- (pl_length t Ht); by eapply lookup_lt_Some).
  assert (p < n)%nat as Hpn by (rewrite <- (pl_length t Ht); by eapply lookup_lt_Some).
  assert (shifting t p e) as Hsh.
  { split; try done; [intros; by apply Hh|]. intros p1 p2 ??????? . by eapply Hu. }
  assert (exists k, (1 <= k <= n)%nat /\ adv n p k = q) as (k & Hk & Hkq).
  { destruct (adv_dist n p q) as (d & ? & <-); [done..|].
    destruct d; [exists n|exists (S d); split; [lia|done]].
    split; [lia|]. by rewrite adv_full, adv_0. }
  rewrite <- Hkq in Hq.
  destruct (remove_loop_spec (S n) t p e k eq Hsh Hq Hq0 Hk) as (t' & last & el & ? & ? & H3); [lia|].
  exists t', last, el. split; [done|]. split; [done|]. cbn zeta in *.
  destruct H3 as (? & Hh3 & ?). split; [done|]. split; [|done].
  intros h v. rewrite Hh3. split.
  - intros (p' & e' & Hp' & Hl & Ho' & <- & <-). split; [|by exists p', e'].
    intros E. apply Hp'. by eapply Hu.
  - intros [Hne (p' & e' & Hl & Ho' & <- & <-)]. exists p', e'. split; [|done].
    intros ->. by simplify_eq.
Qed.
End table.

(** ** Refinement of a finite map *)

(** The bindings of a table: secondary hash to value. *)
Definition slots_map (t : list fla_htbl_entry) : gmap Z Z :=
  list_to_map ((fun e => (h2 e, val e)) <$> filter occ t).

Definition htbl_map (t : fla_htbl) : gmap Z Z := from_option slots_map ∅ (tbl t).

Lemma unique_tail x t : unique (x :: t) -> unique t.
Proof.
  intros Hu p p' e e' He He' Ho E.
  enough (S p = S p') by lia. by eapply (Hu (S p) (S p')).
Qed.

Lemma unique_NoDup t : unique t -> NoDup (h2 <$> filter occ t).
Proof.
  induction t as [|x t IH]; intros Hu; [constructor|].
  specialize (IH (unique_tail x t Hu)). rewrite filter_cons. case_decide as Ho; [|done].
  cbn. constructor; [|done]. intros Hin.
  apply list_elem_of_fmap in Hin as (y & E & Hy). apply list_elem_of_filter in Hy as [_ Hy].
  apply list_elem_of_lookup in Hy as [p Hp].
  pose proof (Hu 0%nat (S p) x y eq_refl Hp Ho E). lia.
Qed.

Lemma slots_map_lookup t h v : unique t -> slots_map t !! h = Some v <-> has t h v.
Proof.
  intros Hu. unfold slots_map. rewrite <- elem_of_list_to_map.
  2: { rewrite <- list_fmap_compose. cbn. by apply unique_NoDup. }
  rewrite list_elem_of_fmap. setoid_rewrite list_elem_of_filter.
  setoid_rewrite list_elem_of_lookup. unfold has. split.
  - intros (e & E & Ho & p & Hp). injection E as -> ->. by exists p, e.
  - intros (p & e & Hp & Ho & <- & <-). exists e. split; [done|]. split; [done|]. by exists p.
Qed.

Lemma slots_map_none t h : unique t ->
  (forall p e, t !! p = Some e -> h2 e <> h) -> slots_map t !! h = None.
Proof.
  intros Hu Hn. destruct (slots_map t !! h) as [v|] eqn:E; [|done]. exfalso.
  apply slots_map_lookup in E as (p & e & He & _ & Eh & _); [|done]. by eapply Hn.
Qed.

(** The names in use: C strings, none of whose secondary hash is the sentinel,
    and that collide in the secondary hash only if they do in the primary. *)
Record keys_ok (U : list (list Z)) : Prop := {
  ko_string : forall k, k ∈ U -> exists a b, FLA_HTBL_H1 k = Some a /\ FLA_HTBL_H2 k = Some b;
  ko_unset : forall k, k ∈ U -> FLA_HTBL_H2 k <> Some FLA_HTBL_ENTRY_UNSET;
  ko_collide : forall k k', k ∈ U -> k' ∈ U -> FLA_HTBL_H2 k = FLA_HTBL_H2 k' ->
    FLA_HTBL_H1 k = FLA_HTBL_H1 k'
}.

(** The home slot of a secondary hash, by the first name in use that has it. *)
Definition home_of (U : list (list Z)) (size : Z) (h : Z) : nat :=
  match list_find (fun k => FLA_HTBL_H2 k = Some h) U with
  | Some (_, k) => from_option Z.to_nat O (a ← FLA_HTBL_H1 k; FLA_HTBL_COMPRESS a size)
  | None => O
  end.

Lemma home_of_lt U size h : 0 < size -> (home_of U size h < Z.to_nat size)%nat.
Proof.
  intros. unfold home_of. destruct (list_find _ U) as [[? k]|]; [|lia].
  destruct (FLA_HTBL_H1 k) as [a|]; cbn; [|lia].
  unfold FLA_HTBL_COMPRESS, fla_mad_compression. destruct (Z.eqb_spec size 0); cbn; [lia|].
  pose proof (Z.mod_pos_bound (u64 (31 * a + 5745)) size). lia.
Qed.

Lemma home_of_slots U t (slots : list fla_htbl_entry) :
  Z.of_nat (length slots) = tbl_size t -> 0 < tbl_size t ->
  forall h, (home_of U (tbl_size t) h < length slots)%nat.
Proof. intros E ? h. rewrite <- (Nat2Z.id (length slots)), E. by apply home_of_lt. Qed.

Lemma home_of_key U size k a h z : keys_ok U -> k ∈ U ->
  FLA_HTBL_H1 k = Some a -> FLA_HTBL_H2 k = Some h -> FLA_HTBL_COMPRESS a size = Some z ->
  home_of U size h = Z.to_nat z.
Proof.
  intros HU Hk Ha Hh Hz. unfold home_of.
  destruct (list_find (fun k0 => FLA_HTBL_H2 k0 = Some h) U) as [[i k']|] eqn:E.
  - apply list_find_Some in E as (Hi & Hk' & _).
    assert (FLA_HTBL_H1 k' = Some a) as ->.
    { rewrite <- Ha. apply (ko_collide U HU); [by eapply list_elem_of_lookup_2|done|congruence]. }
    cbn. by rewrite Hz.
  - exfalso. apply list_find_None in E. rewrite Forall_forall in E. by apply (E k).
Qed.

(** A table whose bindings were made through the names of [U]. *)
Record htbl_inv (U : list (list Z)) (t : fla_htbl) : Prop := {
  hi_size : 0 < tbl_size t < 2 ^ 16;
  hi_slots : exists slots, tbl t = Some slots /\ Z.of_nat (length slots) = tbl_size t /\
    tbl_inv (length slots) (home_of U (tbl_size t)) slots /\
    len t = Z.of_nat (length (filter occ slots))
}.

Lemma compress_some a size : 0 < size -> exists z, FLA_HTBL_COMPRESS a size = Some z /\ 0 <= z < size.
Proof.
  intros. unfold FLA_HTBL_COMPRESS, fla_mad_compression.
  destruct (Z.eqb_spec size 0); [lia|]. eexists. split; [done|]. apply Z.mod_pos_bound. lia.
Qed.

(** A key of [U] hashes to some [h]; its home is the slot the code computes. *)
Lemma key_home U t k h : keys_ok U -> htbl_inv U t -> k ∈ U -> FLA_HTBL_H2 k = Some h ->
  exists a z, FLA_HTBL_H1 k = Some a /\ FLA_HTBL_COMPRESS a (tbl_size t) = Some z /\
    home_of U (tbl_size t) h = Z.to_nat z /\ h <> FLA_HTBL_ENTRY_UNSET.
Proof.
  intros HU [Hsz _] Hk Hh.
  destruct (ko_string U HU k Hk) as (a & b & Ha & _).
  destruct (compress_some a (tbl_size t)) as (z & Hz & _); [lia|].
  exists a, z. repeat split; try done; [by eapply home_of_key|].
  intros ->. by apply (ko_unset U HU k).
Qed.

Lemma all_occ_full (t : list fla_htbl_entry) :
  (length (filter occ t) < length t)%nat -> exists q e, t !! q = Some e /\ ~ occ e.
Proof.
  induction t as [|x t IH]; [cbn; lia|]. rewrite filter_cons. case_decide as Ho; cbn [length].
  - intros ?. destruct IH as (q & e & ? & ?); [lia|]. by exists (S q), e.
  - intros _. by exists O, x.
Qed.

(** ** Specifications of the table operations *)

Lemma htbl_lookup_spec U t k h :
  keys_ok U -> htbl_inv U t -> k ∈ U -> FLA_HTBL_H2 k = Some h ->
  exists r slots, htbl_lookup t k = Some r /\ tbl t = Some slots /\
    match r with
    | Some p => exists e, slots !! p = Some e /\ h2 e = h /\ htbl_map t !! h = Some (val e)
    | None => htbl_map t !! h = None
    end.
Proof.
  intros HU Ht Hk Hh.
  destruct (key_home U t k h HU Ht Hk Hh) as (a & z & Ha & Hz & Hhome & Hu).
  destruct Ht as [Hsz (slots & Htb & Hlen & Hinv & Hocc)].
  unfold htbl_lookup, __htbl_lookup, htbl_map. rewrite Hh. cbn. rewrite Ha. cbn. rewrite Hz. cbn.
  rewrite Htb. cbn [mbind option_bind from_option].
  pose proof (home_of_slots U t slots Hlen ltac:(lia)) as Hhm.
  destruct (lookup_loop_spec (length slots) (home_of U (tbl_size t)) ltac:(lia)
              slots h 0 (S (S (length slots))) Hinv Hu) as (r & Hr & Hpost); [|lia..|].
  { intros p e He _. eapply pl_psl, He. apply Hinv. }
  rewrite adv_0 in Hr by done.
  rewrite Hhome in Hr. replace (Z.to_nat (tbl_size t)) with (length slots) by lia.
  exists r, slots. split; [exact Hr|]. split; [done|].
  destruct r as [p|].
  - destruct Hpost as (e & He & E). exists e. split; [done|]. split; [done|].
    apply slots_map_lookup; [apply Hinv|]. exists p, e. split; [done|]. split; [|done].
    unfold occ. by rewrite E.
  - apply slots_map_none; [apply Hinv|done].
Qed.

(** What a table operation leaves: the invariant, and the bindings [m]. *)
Definition htbl_repr (U : list (list Z)) (t : fla_htbl) (m : gmap Z Z) : Prop :=
  htbl_inv U t /\ htbl_map t = m.

Lemma slots_map_ext t m : unique t ->
  (forall h v, has t h v <-> m !! h = Some v) -> slots_map t = m.
Proof.
  intros Hu H. apply map_eq. intros h. apply option_eq. intros v.
  by rewrite slots_map_lookup, H.
Qed.

Lemma bound_after_insert slots x h v : unique slots ->
  bound_after slots x h v <-> <[h2 x := val x]> (slots_map slots) !! h = Some v.
Proof.
  intros Hu. unfold bound_after. rewrite lookup_insert_Some, slots_map_lookup by done.
  intuition congruence.
Qed.

Lemma htbl_insert_spec U t k h v :
  keys_ok U -> htbl_inv U t -> k ∈ U -> FLA_HTBL_H2 k = Some h ->
  if decide (len t = tbl_size t)
  then exists t', htbl_insert t k v = Some (t', 2) /\ htbl_inv U t' /\ tbl t' = tbl t /\
         tbl_size t' = tbl_size t
  else exists t', htbl_insert t k v = Some (t', 0) /\
         htbl_repr U t' (<[h := v]> (htbl_map t)) /\ tbl_size t' = tbl_size t.
Proof.
  intros HU Ht Hk Hh.
  destruct (key_home U t k h HU Ht Hk Hh) as (a & z & Ha & Hz & Hhome & Hu).
  pose proof Ht as [Hsz (slots & Htb & Hlen & Hinv & Hocc)].
  unfold htbl_insert. rewrite Ha. bind_step. rewrite Hz. bind_step.
  rewrite Hh. bind_step.
  case_decide as Hfull.
  { rewrite (proj2 (Z.eqb_eq _ _) Hfull). eexists. split; [done|]. split; [|done].
    split; cbn; [done|]. by exists slots. }
  rewrite (proj2 (Z.eqb_neq _ _) Hfull), Htb. bind_step.
  pose proof (length_filter occ slots) as Hle.
  destruct (all_occ_full slots) as (q & eq & Hq & Hne); [lia|].
  set (n := length slots) in *. set (hm := home_of U (tbl_size t)) in *.
  pose proof (home_of_slots U t slots Hlen ltac:(lia)) as Hhm. fold n hm in Hhm.
  assert (0 < Z.of_nat n < 2 ^ 16) as Hn by lia.
  set (x := mk_entry h v 0).
  assert (probing n hm slots x 0) as Hpr.
  { destruct Hinv as [Hp ? ? ?]. split; try done. intros p e He _. by eapply pl_psl. }
  destruct (adv_dist n (hm h) q) as (m & Hm & Hmq); [done|by eapply lookup_lt_Some|].
  destruct (insert_loop_spec n hm Hn Hhm (S n) slots x 0 0 m q eq) as (r & Hr & Hpost);
    [done..|by rewrite adv_0|lia|].
  rewrite adv_0 in Hr by done. change (h2 x) with h in Hr. rewrite Hhome in Hr.
  replace (Z.to_nat (tbl_size t)) with n by lia. rewrite Hr. bind_step.
  unfold htbl_repr, htbl_map. rewrite Htb. cbn [from_option].
  assert (forall t', tbl_inv n hm t' -> (forall h v, has t' h v <-> bound_after slots x h v) ->
    slots_map t' = <[h := v]> (slots_map slots)) as Hmap.
  { intros t' Hi Hb. apply slots_map_ext; [apply Hi|]. intros h' v'. rewrite Hb.
    apply bound_after_insert, Hinv. }
  destruct r as [t' tries|t']; destruct Hpost as (Hi & Hb & Hc & _);
    (eexists; split; [done|]; split; [split; [split; cbn; [done|]|cbn; by apply Hmap]|done]);
    exists t'; pose proof (pl_length _ _ (inv_placed _ _ _ Hi)) as Hl; rewrite Hl;
    (split; [done|]; split; [lia|]; split; [done|]); [|congruence].
  rewrite Hc, u32_small; unfold is_u32; lia.
Qed.

Lemma htbl_remove_spec U t k h :
  keys_ok U -> htbl_inv U t -> k ∈ U -> FLA_HTBL_H2 k = Some h ->
  exists t', htbl_remove t k = Some t' /\ htbl_repr U t' (delete h (htbl_map t)) /\
    tbl_size t' = tbl_size t.
Proof.
  intros HU Ht Hk Hh.
  destruct (key_home U t k h HU Ht Hk Hh) as (a & z & Ha & Hz & Hhome & Hu).
  destruct (htbl_lookup_spec U t k h HU Ht Hk Hh) as (r & slots & Hl & Htb & Hr).
  pose proof Ht as [Hsz (slots' & Htb' & Hlen & Hinv & Hocc)].
  rewrite Htb in Htb'. injection Htb' as <-.
  unfold htbl_lookup in Hl. unfold htbl_remove.
  rewrite Hh in *. cbn [mbind option_bind] in *. rewrite Ha in *. cbn [mbind option_bind] in *.
  rewrite Hz in *. cbn [mbind option_bind] in *.
  rewrite Hl. bind_step. destruct r as [p|].
  - destruct Hr as (e & He & E & Hm). rewrite Htb. bind_step.
    set (n := length slots) in *. set (hm := home_of U (tbl_size t)) in *.
    pose proof (home_of_slots U t slots Hlen ltac:(lia)) as Hhm.
    replace (Z.to_nat (tbl_size t)) with n by lia.
    destruct (remove_loop_inv n hm ltac:(lia) Hhm slots p e Hinv He) as
      (t' & last & el & Hrl & Hel & Hi & Hhas & Hc); [unfold occ; by rewrite E|].
    rewrite Hrl. bind_step. rewrite Hel. bind_step.
    eexists. split; [done|]. split; [|done]. split.
    + split; cbn; [done|]. eexists. split; [done|].
      rewrite (pl_length _ _ (inv_placed _ _ _ Hi)). split; [done|]. split; [done|].
      rewrite Hocc, u32_small; unfold is_u32; [lia|].
      pose proof (length_filter occ slots). lia.
    + cbn. unfold htbl_map. rewrite Htb. cbn. apply slots_map_ext; [apply Hi|].
      intros h' v'. rewrite Hhas, lookup_delete_Some, slots_map_lookup by apply Hinv.
      rewrite E. intuition congruence.
  - exists t. split; [done|]. split; [|done]. split; [done|]. by rewrite delete_id.
Qed.

(** [keys_ok] is decidable. *)
Definition keys_okb (U : list (list Z)) : bool :=
  forallb (fun k =>
    match FLA_HTBL_H1 k, FLA_HTBL_H2 k with
    | Some a, Some b =>
        negb (b =? FLA_HTBL_ENTRY_UNSET) &&
        forallb (fun k' =>
          bool_decide (FLA_HTBL_H2 k = FLA_HTBL_H2 k' -> FLA_HTBL_H1 k = FLA_HTBL_H1 k')) U
    | _, _ => false
    end) U.

Lemma keys_okb_sound U : keys_okb U = true -> keys_ok U.
Proof.
  unfold keys_okb. rewrite forallb_forall. intros H.
  assert (forall k, k ∈ U -> exists a b, FLA_HTBL_H1 k = Some a /\ FLA_HTBL_H2 k = Some b /\
    b <> FLA_HTBL_ENTRY_UNSET /\ forall k', k' ∈ U -> FLA_HTBL_H2 k = FLA_HTBL_H2 k' ->
    FLA_HTBL_H1 k = FLA_HTBL_H1 k') as HU.
  { intros k Hk. apply list_elem_of_In in Hk. specialize (H k Hk). cbn beta in H.
    destruct (FLA_HTBL_H1 k) as [a|] eqn:Ea; [|done].
    destruct (FLA_HTBL_H2 k) as [b|] eqn:Eb; [|done].
    apply andb_prop in H as [H1 H2]. exists a, b. repeat split; try done.
    - apply negb_true_iff, Z.eqb_neq in H1. done.
    - rewrite forallb_forall in H2. intros k' Hk' E. apply list_elem_of_In in Hk'.
      specialize (H2 k' Hk'). apply bool_decide_eq_true in H2. by apply H2. }
  split.
  - intros k Hk. destruct (HU k Hk) as (a & b & ? & ? & _). by exists a, b.
  - intros k Hk E. destruct (HU k Hk) as (a & b & ? & ? & ? & _). congruence.
  - intros k k' Hk Hk' E. destruct (HU k Hk) as (a & b & _ & _ & _ & H'). by apply H'.
Qed.

Lemma tbl_inv_empty n hm : (0 < n)%nat ->
  tbl_inv n hm (replicate n (mk_entry FLA_HTBL_ENTRY_UNSET 0 0)).
Proof.
  intros Hn. split; [split| | |].
  - apply length_replicate.
  - intros p e [-> _]%lookup_replicate _. done.
  - intros p e [-> _]%lookup_replicate. done.
  - intros p e _ [-> _]%lookup_replicate. done.
  - intros p e [-> _]%lookup_replicate []. done.
  - intros p p' e e' [-> _]%lookup_replicate _ []. done.
  - exists O, (mk_entry FLA_HTBL_ENTRY_UNSET 0 0). split; [|done]. by apply lookup_replicate.
Qed.

Lemma filter_occ_unset n v : filter occ (replicate n (mk_entry FLA_HTBL_ENTRY_UNSET v 0)) = [].
Proof.
  induction n as [|n IH]; [done|]. cbn [replicate]. rewrite filter_cons_False; [done|].
  intros H. by apply H.
Qed.

(** A fresh table represents the empty map. *)
Lemma htbl_init_spec U junk size : 0 < size < 2 ^ 16 -> tbl junk = None ->
  exists t, htbl_init true junk size = Some (t, 0) /\ htbl_repr U t ∅ /\ tbl_size t = size.
Proof.
  intros Hs Hj. unfold htbl_init. rewrite Hj. unfold fla_htbl_entries_init.
  rewrite decide_True by (rewrite length_replicate; lia). bind_step.
  rewrite drop_ge by (rewrite length_replicate; lia). rewrite app_nil_r.
  eexists. split; [done|]. split; [|done]. split.
  - split; [done|]. eexists. split; [done|]. cbn [tbl_size len].
    rewrite length_replicate, filter_occ_unset. split; [lia|]. split; [|done].
    apply tbl_inv_empty. lia.
  - unfold htbl_map, slots_map. cbn. by rewrite filter_occ_unset.
Qed.

Lemma htbl_len_size U t : htbl_inv U t -> len t = Z.of_nat (size (htbl_map t)).
Proof.
  intros [_ (slots & Htb & _ & Hi & ->)]. unfold htbl_map. rewrite Htb. cbn. f_equal.
  unfold slots_map. rewrite map_size_list_to_map; [by rewrite length_fmap|].
  rewrite <- list_fmap_compose. apply unique_NoDup, Hi.
Qed.

(** ** The table as a map with a capacity *)

Inductive htbl_op := Insert (k : list Z) (v : Z) | Remove (k : list Z) | Find (k : list Z).
Inductive htbl_obs := Returned (err : Z) | Done | Found (v : option Z).

Definition op_key (o : htbl_op) : list Z :=
  match o with Insert k _ | Remove k | Find k => k end.

(** One call on the C table, with what the caller sees. *)
Definition htbl_step (t : fla_htbl) (o : htbl_op) : option (fla_htbl * htbl_obs) :=
  match o with
  | Insert k v => '(t', err) ← htbl_insert t k v; Some (t', Returned err)
  | Remove k => t' ← htbl_remove t k; Some (t', Done)
  | Find k =>
      r ← htbl_lookup t k;
      match r with
      | None => Some (t, Found None)
      | Some p => slots ← tbl t; e ← slots !! p; Some (t, Found (Some (val e)))
      end
  end.

Fixpoint htbl_run (t : fla_htbl) (os : list htbl_op) : option (fla_htbl * list htbl_obs) :=
  match os with
  | [] => Some (t, [])
  | o :: os =>
      '(t', r) ← htbl_step t o; '(t'', rs) ← htbl_run t' os; Some (t'', r :: rs)
  end.

(** The same call on a finite map of at most [cap] bindings, as the header documents it:
    an insertion updates a binding that is present, and is refused when there is none
    and no room for one. *)
Definition map_step (cap : Z) (m : gmap Z Z) (o : htbl_op) : gmap Z Z * htbl_obs :=
  let h := default 0 (FLA_HTBL_H2 (op_key o)) in
  match o with
  | Insert _ v =>
      if (Z.of_nat (size m) =? cap) && bool_decide (m !! h = None) then (m, Returned 2) else (<[h := v]> m, Returned 0)
  | Remove _ => (delete h m, Done)
  | Find _ => (m, Found (m !! h))
  end.

Fixpoint map_run (cap : Z) (m : gmap Z Z) (os : list htbl_op) : gmap Z Z * list htbl_obs :=
  match os with
  | [] => (m, [])
  | o :: os =>
      let '(m', r) := map_step cap m o in
      let '(m'', rs) := map_run cap m' os in (m'', r :: rs)
  end.

(** No call updates a key while the map is full. *)
Definition update_fits (cap : Z) (m : gmap Z Z) (o : htbl_op) : bool :=
  match o with
  | Insert k _ => negb (Z.of_nat (size m) =? cap) || bool_decide (m !! default 0 (FLA_HTBL_H2 k) = None)
  | _ => true
  end.

Fixpoint updates_fit (cap : Z) (m : gmap Z Z) (os : list htbl_op) : bool :=
  match os with
  | [] => true
  | o :: os => update_fits cap m o && updates_fit cap (fst (map_step cap m o)) os
  end.

Lemma htbl_find_spec U t k h :
  keys_ok U -> htbl_inv U t -> k ∈ U -> FLA_HTBL_H2 k = Some h ->
  htbl_step t (Find k) = Some (t, Found (htbl_map t !! h)).
Proof.
  intros HU Ht Hk Hh. cbn [htbl_step].
  destruct (htbl_lookup_spec U t k h HU Ht Hk Hh) as (r & slots & -> & Htb & Hr).
  bind_step. destruct r as [p|]; [|by rewrite Hr].
  destruct Hr as (e & He & _ & Hm). rewrite Htb. bind_step. rewrite He.
  cbn. by rewrite Hm.
Qed.

Lemma htbl_step_refines U t o :
  keys_ok U -> htbl_inv U t -> op_key o ∈ U -> update_fits (tbl_size t) (htbl_map t) o = true ->
  exists t', htbl_step t o = Some (t', snd (map_step (tbl_size t) (htbl_map t) o)) /\
    htbl_repr U t' (fst (map_step (tbl_size t) (htbl_map t) o)) /\ tbl_size t' = tbl_size t.
Proof.
  intros HU Ht Ho Hf. destruct (ko_string U HU _ Ho) as (a & h & _ & Hh).
  destruct o as [k v|k|k]; cbn [op_key update_fits] in *; unfold map_step; cbn [op_key]; rewrite Hh in *;
    cbn [default htbl_step] in *.
  - pose proof (htbl_insert_spec U t k h v HU Ht Ho Hh) as H.
    rewrite <- (htbl_len_size U t Ht) in *. destruct (Z.eqb_spec (len t) (tbl_size t)) as [E|E]; cbn [negb orb andb] in *.
    + rewrite decide_True in H by done. cbn [from_option id] in *. rewrite Hf. destruct H as (t' & -> & ? & Etb & ?).
      exists t'. split; [done|]. split; [|done]. split; [done|]. unfold htbl_map. by rewrite Etb.
    + rewrite decide_False in H by done. destruct H as (t' & -> & ? & ?). by exists t'.
  - destruct (htbl_remove_spec U t k h HU Ht Ho Hh) as (t' & -> & ? & ?). by exists t'.
  - exists t. split; [by apply (htbl_find_spec U)|]. done.
Qed.

Lemma htbl_run_spec U os t :
  keys_ok U -> htbl_inv U t -> Forall (fun o => op_key o ∈ U) os -> updates_fit (tbl_size t) (htbl_map t) os = true ->
  exists t', htbl_run t os = Some (t', snd (map_run (tbl_size t) (htbl_map t) os)) /\
    htbl_repr U t' (fst (map_run (tbl_size t) (htbl_map t) os)).
Proof.
  intros HU. revert t. induction os as [|o os IH]; intros t Ht Hos Hf; [by exists t|].
  inversion Hos as [|?? Ho Hos']; subst. cbn [updates_fit] in Hf. apply andb_true_iff in Hf as [Hf Hfs].
  destruct (htbl_step_refines U t o HU Ht Ho Hf) as (t1 & E1 & [Hi Hm] & Hs).
  destruct (IH t1 Hi Hos') as (t2 & E2 & H2); [by rewrite Hm, Hs|].
  exists t2. cbn [htbl_run map_run]. rewrite E1. bind_step. rewrite E2.
  rewrite Hm, Hs in *. destruct (map_step _ _ o) as [m' r]. cbn [fst snd] in *.
  by destruct (map_run _ m' os).
Qed.

(** ** Claims *)

(** C23: A table fresh from [htbl_new], of less than 2^16 slots, driven by any sequence
    of [htbl_insert], [htbl_remove] and [htbl_lookup] calls that does not update a key
    while the table is full, returns what a finite map with capacity [tbl_size] returns:
    every call terminates inside the table, a lookup sees the last value stored under
    the key and not removed since, an insertion of a new key into a full table is
    refused with 2, and the bindings at the end are those of the map.  The keys are
    terminated strings of the set [U], no two of which have the same second hash and
    different first ones, and no second hash is the mark of an unused slot ([keys_ok]);
    the table knows a key by its second hash, and so does the map.
    An update in a full table is left out: the code refuses it, against its header
    ([htbl_full_update_rejected]). *)
Theorem htbl_run_refines U os junk size :
  keys_ok U -> Forall (fun o => op_key o ∈ U) os -> 0 < size < 2 ^ 16 -> updates_fit size ∅ os = true ->
  exists t0 t, htbl_new true true junk size = Some (Some t0, 0) /\
    htbl_run t0 os = Some (t, snd (map_run size ∅ os)) /\
    htbl_repr U t (fst (map_run size ∅ os)).
Proof.
  intros HU Hos Hs Hf.
  destruct (htbl_init_spec U (mk_htbl None (tbl_size junk) (len junk) (stat_insert_calls junk)
    (stat_insert_failed junk) (stat_insert_tries junk)) size Hs eq_refl)
    as (t0 & E0 & [Hi Hm] & Hsz).
  destruct (htbl_run_spec U os t0 HU Hi Hos) as (t & E & Hr); [by rewrite Hm, Hsz|].
  exists t0, t. rewrite Hm, Hsz in *. split; [|done]. unfold htbl_new. by rewrite E0.
Qed.

Definition ex_keys : list (list Z) := [[97; 0]; [98; 0]; [99; 100; 0]; [120; 0]].
Definition ex_junk : fla_htbl := mk_htbl None 7 8 9 10 11.
Definition ex_ops : list htbl_op :=
  [Insert [97; 0] 1; Insert [98; 0] 2; Insert [99; 100; 0] 3; Insert [120; 0] 4; Find [98; 0];
   Remove [97; 0]; Find [97; 0]; Insert [98; 0] 9; Insert [120; 0] 4; Find [98; 0]].

Lemma htbl_run_refines_witness :
  exists t0 t, htbl_new true true ex_junk 3 = Some (Some t0, 0) /\
    htbl_run t0 ex_ops = Some (t, [Returned 0; Returned 0; Returned 0; Returned 2; Found (Some 2);
      Done; Found None; Returned 0; Returned 0; Found (Some 9)]) /\
    htbl_repr ex_keys t (fst (map_run 3 ∅ ex_ops)).
Proof.
  refine (htbl_run_refines ex_keys ex_ops ex_junk 3 _ _ _ _).
  - apply keys_okb_sound. vm_compute. reflexivity.
  - unfold ex_ops. repeat constructor; cbn [op_key]; unfold ex_keys; set_solver.
  - lia.
  - vm_compute. reflexivity.
Defined.

(** In a table that is not full, [htbl_insert] succeeds and afterwards
    [htbl_lookup] of the key yields a slot holding the value, while a lookup of a
    key with another secondary hash is answered as before the insertion. *)
Theorem htbl_insert_lookup U t k k' v :
  keys_ok U -> htbl_inv U t -> k ∈ U -> k' ∈ U -> len t <> tbl_size t ->
  exists t', htbl_insert t k v = Some (t', 0) /\ htbl_inv U t' /\
    htbl_step t' (Find k) = Some (t', Found (Some v)) /\
    (FLA_HTBL_H2 k' <> FLA_HTBL_H2 k ->
     exists r, htbl_step t (Find k') = Some (t, r) /\ htbl_step t' (Find k') = Some (t', r)).
Proof.
  intros HU Ht Hk Hk' Hf.
  destruct (ko_string U HU _ Hk) as (a & h & _ & Hh).
  destruct (ko_string U HU _ Hk') as (a' & h' & _ & Hh').
  pose proof (htbl_insert_spec U t k h v HU Ht Hk Hh) as H. rewrite decide_False in H by done.
  destruct H as (t' & E & [Hi Hm] & _). exists t'. split; [done|]. split; [done|].
  rewrite (htbl_find_spec U t' k h), Hm, lookup_insert_eq by done. split; [done|].
  intros Hne. exists (Found (htbl_map t !! h')).
  rewrite (htbl_find_spec U t k' h'), (htbl_find_spec U t' k' h'), Hm by done.
  by rewrite lookup_insert_ne by congruence.
Qed.

(** After [htbl_remove] of a key its lookup finds nothing; a key with another
    secondary hash keeps its binding, although its entry may have been moved. *)
Theorem htbl_remove_lookup U t k k' :
  keys_ok U -> htbl_inv U t -> k ∈ U -> k' ∈ U ->
  exists t', htbl_remove t k = Some t' /\ htbl_inv U t' /\
    htbl_step t' (Find k) = Some (t', Found None) /\
    (FLA_HTBL_H2 k' <> FLA_HTBL_H2 k ->
     exists r, htbl_step t (Find k') = Some (t, r) /\ htbl_step t' (Find k') = Some (t', r)).
Proof.
  intros HU Ht Hk Hk'.
  destruct (ko_string U HU _ Hk) as (a & h & _ & Hh).
  destruct (ko_string U HU _ Hk') as (a' & h' & _ & Hh').
  destruct (htbl_remove_spec U t k h HU Ht Hk Hh) as (t' & E & [Hi Hm] & _).
  exists t'. split; [done|]. split; [done|].
  rewrite (htbl_find_spec U t' k h), Hm, lookup_delete_eq by done. split; [done|].
  intros Hne. exists (Found (htbl_map t !! h')).
  rewrite (htbl_find_spec U t k' h'), (htbl_find_spec U t' k' h'), Hm by done.
  by rewrite lookup_delete_ne by congruence.
Qed.

(** A table reached by two insertions, for the witnesses. *)
Lemma ex_htbl_inv : exists t t1, htbl_init true ex_junk 3 = Some (t, 0) /\
  htbl_insert t [97; 0] 1 = Some (t1, 0) /\ htbl_inv ex_keys t1 /\ len t1 <> tbl_size t1.
Proof.
  assert (keys_ok ex_keys) as HU by (apply keys_okb_sound; vm_compute; reflexivity).
  destruct (htbl_init_spec ex_keys ex_junk 3) as (t & E & [Hi Hm] & Hs); [lia|done|].
  pose proof (htbl_insert_spec ex_keys t [97; 0] 97 1 HU Hi) as H.
  assert (len t = 0) as Hl by (by rewrite (htbl_len_size _ _ Hi), Hm, map_size_empty).
  rewrite decide_False in H by (rewrite Hl, Hs; done).
  destruct H as (t1 & E1 & [Hi1 Hm1] & Hs1); [unfold ex_keys; set_solver|reflexivity|].
  exists t, t1. split; [done|]. split; [done|]. split; [done|].
  rewrite (htbl_len_size _ _ Hi1), Hm1, Hm, Hs1, Hs. vm_compute. done.
Qed.

Lemma htbl_insert_lookup_witness :
  exists t t', htbl_insert t [98; 0] 7 = Some (t', 0) /\
    htbl_step t' (Find [98; 0]) = Some (t', Found (Some 7)) /\
    exists r, htbl_step t (Find [97; 0]) = Some (t, r) /\ htbl_step t' (Find [97; 0]) = Some (t', r).
Proof.
  destruct ex_htbl_inv as (t0 & t & _ & _ & Hi & Hf). exists t.
  destruct (htbl_insert_lookup ex_keys t [98; 0] [97; 0] 7) as (t' & E & _ & E1 & E2);
    [apply keys_okb_sound; vm_compute; reflexivity|exact Hi|unfold ex_keys; set_solver..|exact Hf|].
  exists t'. split; [exact E|]. split; [exact E1|]. apply E2. vm_compute. done.
Defined.

Lemma htbl_remove_lookup_witness :
  exists t t', htbl_remove t [97; 0] = Some t' /\
    htbl_step t' (Find [97; 0]) = Some (t', Found None).
Proof.
  destruct ex_htbl_inv as (t0 & t & _ & _ & Hi & Hf). exists t.
  destruct (htbl_remove_lookup ex_keys t [97; 0] [98; 0]) as (t' & E & _ & E1 & _);
    [apply keys_okb_sound; vm_compute; reflexivity|exact Hi|unfold ex_keys; set_solver..|].
  exists t'. split; [exact E|exact E1].
Defined.

(** Updating an existing key of a full table is refused, although the header
    promises that [htbl_insert] updates an entry that is present. *)
Example htbl_full_update_rejected :
  match htbl_new true true ex_junk 1 with
  | Some (Some t, 0) =>
      htbl_run t [Insert [97; 0] 1; Insert [97; 0] 2; Find [97; 0]] ≫= (fun r => Some (snd r))
      = Some [Returned 0; Returned 2; Found (Some 1)]
  | _ => False
  end.
Proof. vm_compute. reflexivity. Qed.
