(* ===== verification/XnvmeEnv.v ===== *)
(** * XnvmeEnv: the device layer, [src/src/flexalloc_xnvme_env.c]

    libxnvme is not part of the repository.  The class [XnvmeEnv] lists the
    library calls the sources make, over an abstract world [W] that holds the
    devices and the allocator; [XnvmeLaws] states what the code relies on: a
    completed write command stores exactly the addressed blocks, a completed read
    returns them, and address ranges are what the library documents.  [RamDisk]
    is an instance that satisfies the laws.

    The routines of the file are modelled over that class.  A buffer is the list
    of its bytes; a transfer that would leave its buffer is undefined ([None]), as
    is one that does not terminate within its bound. *)
From S2P Require Import Prelude Util.

(** ** Devices *)

Inductive xnvme_geo_type :=
  | XNVME_GEO_CONVENTIONAL
  | XNVME_GEO_ZONED
  | XNVME_GEO_OTHER (t : Z).

#[global] Instance xnvme_geo_type_eq_dec : EqDecision xnvme_geo_type.
Proof. solve_decision. Defined.

(** The fields of [struct xnvme_geo] the sources read. *)
Record xnvme_geo := mk_xnvme_geo {
  geo_type : xnvme_geo_type;
  geo_lba_nbytes : Z;
  geo_tbytes : Z;
  geo_mdts_nbytes : Z;
  geo_nzone : Z;
  geo_nsect : Z
}.

(** An open device: its identity and the geometry [xnvme_dev_get_geo] reports. *)
Record xnvme_dev := mk_xnvme_dev { dev_id : Z; xnvme_dev_get_geo : xnvme_geo }.

#[global] Instance xnvme_geo_eq_dec : EqDecision xnvme_geo.
Proof. solve_decision. Defined.
#[global] Instance xnvme_dev_eq_dec : EqDecision xnvme_dev.
Proof. solve_decision. Defined.

(** [struct xnvme_lba_range]. *)
Record xnvme_lba_range := mk_lba_range {
  r_slba : Z; r_elba : Z; r_naddrs : Z; r_nbytes : Z; r_is_valid : bool
}.

(** The management actions sent to zones. *)
Inductive znd_action := MGMT_SEND_FINISH | MGMT_SEND_RESET.

(** The calls into libxnvme and the C allocator.  A command returns the new
    world, its error code and its completion status. *)
Class XnvmeEnv (W : Type) := {
  malloc : W -> Z -> W * bool;
  xnvme_buf_alloc : W -> xnvme_dev -> Z -> W * option (list Z);
  xnvme_nvm_write : W -> xnvme_dev -> Z -> Z -> list Z -> W * (Z * Z);
  xnvme_nvm_read : W -> xnvme_dev -> Z -> Z -> W * (Z * Z) * list Z;
  xnvme_znd_mgmt_send : W -> xnvme_dev -> Z -> bool -> znd_action -> W * (Z * Z);
  xnvme_lba_range_from_slba_naddrs : xnvme_dev -> Z -> Z -> xnvme_lba_range;
  xnvme_lba_range_from_offset_nbytes : xnvme_dev -> Z -> Z -> xnvme_lba_range
}.

Definition dev_lba (dev : xnvme_dev) : Z := geo_lba_nbytes (xnvme_dev_get_geo dev).
Definition dev_nlb (dev : xnvme_dev) : Z := geo_tbytes (xnvme_dev_get_geo dev) / dev_lba dev.

(** ** Accessors *)

Definition fla_xne_dev_tbytes (dev : xnvme_dev) : Z := geo_tbytes (xnvme_dev_get_geo dev).
Definition fla_xne_dev_lba_nbytes (dev : xnvme_dev) : Z := geo_lba_nbytes (xnvme_dev_get_geo dev).
Definition fla_xne_dev_znd_zones (dev : xnvme_dev) : Z := geo_nzone (xnvme_dev_get_geo dev).
Definition fla_xne_dev_znd_sect (dev : xnvme_dev) : Z := geo_nsect (xnvme_dev_get_geo dev).
Definition fla_xne_dev_type (dev : xnvme_dev) : xnvme_geo_type := geo_type (xnvme_dev_get_geo dev).
Definition fla_xne_dev_mdts_nbytes (dev : xnvme_dev) : Z :=
  geo_mdts_nbytes (xnvme_dev_get_geo dev).

(** The number of blocks of one command; a block size of zero is undefined. *)
Definition fla_xne_calc_mdts_naddrs (dev : xnvme_dev) : option Z :=
  let geo := xnvme_dev_get_geo dev in
  if geo_lba_nbytes geo =? 0 then None
  else Some (fla_min (geo_mdts_nbytes geo / geo_lba_nbytes geo) (2 ^ 16 - 1)).

Section env.
Context {W : Type} `{XnvmeEnv W}.

Definition fla_xne_lba_range_from_slba_naddrs (dev : xnvme_dev) (slba naddrs : Z) :
    xnvme_lba_range := xnvme_lba_range_from_slba_naddrs dev slba naddrs.
Definition fla_xne_lba_range_from_offset_nbytes (dev : xnvme_dev) (offset nbytes : Z) :
    xnvme_lba_range := xnvme_lba_range_from_offset_nbytes dev offset nbytes.
Definition fla_xne_alloc_buf (w : W) (dev : xnvme_dev) (nbytes : Z) : W * option (list Z) :=
  xnvme_buf_alloc w dev nbytes.

(** [err ? err : -EIO] after a failed command. *)
Definition cmd_err (e : Z * Z) : Z := if e.1 =? 0 then - EIO else e.1.
Definition cmd_failed (e : Z * Z) : bool := negb (e.1 =? 0) || negb (e.2 =? 0).

Definition fla_xne_dev_znd_send_mgmt (w : W) (dev : xnvme_dev) (slba : Z) (act : znd_action)
    (all : bool) : W * Z :=
  if bool_decide (fla_xne_dev_type dev = XNVME_GEO_ZONED) then
    let '(w, e) := xnvme_znd_mgmt_send w dev slba all act in
    (w, if cmd_failed e then cmd_err e else 0)
  else (w, - EINVAL).

(** The [for] loop of [fla_xne_sync_seq_w]: one command per [mdts_naddrs] blocks;
    [wbuf] is the rest of the buffer. *)
Fixpoint sync_w_loop (fuel : nat) (w : W) (dev : xnvme_dev) (elba mdts_naddrs slba : Z)
    (wbuf : list Z) : option (W * Z) :=
  match fuel with
  | O => None
  | S fuel =>
      if slba <=? elba then
        let nlb := u32 (fla_min (u64 (elba - slba)) (u32 (mdts_naddrs - 1))) in
        let step := u32 (u32 (nlb + 1) * dev_lba dev) in
        if Z.of_nat (length wbuf) <? step then None
        else
          let '(w, e) := xnvme_nvm_write w dev slba (u16 nlb) (take (Z.to_nat step) wbuf) in
          if cmd_failed e then Some (w, cmd_err e)
          else sync_w_loop fuel w dev elba mdts_naddrs (u64 (slba + mdts_naddrs))
                 (drop (Z.to_nat step) wbuf)
      else Some (w, 0)
  end.

Definition fla_xne_sync_seq_w (w : W) (range : xnvme_lba_range) (dev : xnvme_dev)
    (buf : list Z) : option (W * Z) :=
  mdts_naddrs ← fla_xne_calc_mdts_naddrs dev;
  sync_w_loop (S (S (Z.to_nat (r_elba range - r_slba range)))) w dev (r_elba range) mdts_naddrs
    (r_slba range) buf.

(** [fla_xne_sync_seq_w_xneio]: [prep_ctx] is the data-placement callback ([None]
    for [NULL]); it sets up the command context and returns an error code. *)
Definition fla_xne_sync_seq_w_xneio (prep_ctx : option (W -> W * Z)) (w : W)
    (range : xnvme_lba_range) (dev : xnvme_dev) (buf : list Z) : option (W * Z) :=
  match prep_ctx with
  | None => fla_xne_sync_seq_w w range dev buf
  | Some prep =>
      let '(w, err) := prep w in
      if err =? 0 then fla_xne_sync_seq_w w range dev buf else Some (w, err)
  end.

(** The [for] loop of [fla_xne_sync_seq_r]: each command fills the next part of
    the buffer; [done] is what was filled, [rbuf] the rest of the buffer. *)
Fixpoint sync_r_loop (fuel : nat) (w : W) (dev : xnvme_dev) (elba mdts_naddrs slba : Z)
    (done rbuf : list Z) : option (W * Z * list Z) :=
  match fuel with
  | O => None
  | S fuel =>
      if slba <=? elba then
        let nlb := u32 (fla_min (u64 (elba - slba)) (u32 (mdts_naddrs - 1))) in
        let step := u32 (u32 (nlb + 1) * dev_lba dev) in
        if Z.of_nat (length rbuf) <? step then None
        else
          let '(w, e, data) := xnvme_nvm_read w dev slba (u16 nlb) in
          if cmd_failed e then Some (w, cmd_err e, done ++ rbuf)
          else sync_r_loop fuel w dev elba mdts_naddrs (u64 (slba + mdts_naddrs))
                 (done ++ data) (drop (Z.to_nat step) rbuf)
      else Some (w, 0, done ++ rbuf)
  end.

Definition fla_xne_sync_seq_r (w : W) (range : xnvme_lba_range) (dev : xnvme_dev)
    (buf : list Z) : option (W * Z * list Z) :=
  mdts_naddrs ← fla_xne_calc_mdts_naddrs dev;
  sync_r_loop (S (S (Z.to_nat (r_elba range - r_slba range)))) w dev (r_elba range) mdts_naddrs
    (r_slba range) [] buf.

Definition fla_xne_sync_seq_r_xneio (w : W) (range : xnvme_lba_range) (dev : xnvme_dev)
    (buf : list Z) : option (W * Z * list Z) :=
  fla_xne_sync_seq_r w range dev buf.
End env.

(** ** What the code relies on *)

(** Blocks [slba .. slba + n) as one list of bytes. *)
Definition concat_blocks (blk : Z -> list Z) (slba : Z) (n : nat) : list Z :=
  concat ((fun i => blk (slba + Z.of_nat i)) <$> seq 0 n).

(** The device contents seen through [block]: the bytes of one logical block.
    [nlb] is zero-based, as in the NVMe command. *)
Class XnvmeLaws (W : Type) `{XnvmeEnv W} (block : W -> xnvme_dev -> Z -> list Z) := {
  block_length : forall w dev lba, 0 <= dev_lba dev ->
    Z.of_nat (length (block w dev lba)) = dev_lba dev;
  write_ok : forall w dev slba nlb buf w' e, 0 <= nlb -> 0 < dev_lba dev ->
    Z.of_nat (length buf) = (nlb + 1) * dev_lba dev ->
    xnvme_nvm_write w dev slba nlb buf = (w', e) -> cmd_failed e = false ->
    concat_blocks (block w' dev) slba (Z.to_nat (nlb + 1)) = buf;
  write_frame : forall w dev slba nlb buf w' e, 0 <= nlb ->
    xnvme_nvm_write w dev slba nlb buf = (w', e) ->
    forall dev' lba, dev_id dev' <> dev_id dev \/ lba < slba \/ slba + nlb < lba ->
    block w' dev' lba = block w dev' lba;
  read_ok : forall w dev slba nlb w' e data, 0 <= nlb -> 0 < dev_lba dev ->
    xnvme_nvm_read w dev slba nlb = (w', e, data) -> cmd_failed e = false ->
    data = concat_blocks (block w dev) slba (Z.to_nat (nlb + 1));
  read_frame : forall w dev slba nlb w' e data,
    xnvme_nvm_read w dev slba nlb = (w', e, data) ->
    forall dev' lba, block w' dev' lba = block w dev' lba;
  alloc_frame : forall w dev n w' r, xnvme_buf_alloc w dev n = (w', r) ->
    forall dev' lba, block w' dev' lba = block w dev' lba;
  alloc_length : forall w dev n w' buf, 0 <= n -> xnvme_buf_alloc w dev n = (w', Some buf) ->
    Z.of_nat (length buf) = n;
  malloc_frame : forall w n w' r, malloc w n = (w', r) ->
    forall dev' lba, block w' dev' lba = block w dev' lba;
  range_slba : forall dev slba naddrs, 0 < naddrs -> 0 <= slba -> slba + naddrs <= dev_nlb dev ->
    xnvme_lba_range_from_slba_naddrs dev slba naddrs =
    mk_lba_range slba (slba + naddrs - 1) naddrs (naddrs * dev_lba dev) true;
  range_offset : forall dev off n, r_is_valid (xnvme_lba_range_from_offset_nbytes dev off n) = true ->
    0 < dev_lba dev -> 0 <= off -> 0 < n ->
    off mod dev_lba dev = 0 /\ n mod dev_lba dev = 0 /\ off + n <= geo_tbytes (xnvme_dev_get_geo dev) /\
    xnvme_lba_range_from_offset_nbytes dev off n =
    mk_lba_range (off / dev_lba dev) (off / dev_lba dev + n / dev_lba dev - 1) (n / dev_lba dev) n true;
  range_offset_valid : forall dev off n, 0 < dev_lba dev -> 0 <= off -> 0 < n ->
    off mod dev_lba dev = 0 -> n mod dev_lba dev = 0 -> off + n <= geo_tbytes (xnvme_dev_get_geo dev) ->
    r_is_valid (xnvme_lba_range_from_offset_nbytes dev off n) = true
}.

(** ** Chunked transfers *)

Lemma concat_blocks_app blk slba n m :
  concat_blocks blk slba (n + m) =
  concat_blocks blk slba n ++ concat_blocks blk (slba + Z.of_nat n) m.
Proof.
  unfold concat_blocks. rewrite seq_app, fmap_app, concat_app. f_equal. cbn [Nat.add].
  f_equal. apply list_eq. intros i. rewrite !list_lookup_fmap.
  destruct (decide (i < m)%nat).
  - rewrite !lookup_seq_lt by lia. cbn. do 2 f_equal. lia.
  - by rewrite !lookup_seq_ge by lia.
Qed.

Lemma concat_blocks_ext blk blk' slba n :
  (forall lba, slba <= lba < slba + Z.of_nat n -> blk lba = blk' lba) ->
  concat_blocks blk slba n = concat_blocks blk' slba n.
Proof.
  intros Hb. unfold concat_blocks. f_equal. apply list_fmap_ext. intros i x Hx.
  apply lookup_seq in Hx as [-> ?]. apply Hb. lia.
Qed.

Lemma concat_blocks_length blk slba n k : 0 <= k ->
  (forall lba, Z.of_nat (length (blk lba)) = k) ->
  Z.of_nat (length (concat_blocks blk slba n)) = Z.of_nat n * k.
Proof.
  intros Hk Hb. revert slba. induction n as [|n IH]; intros slba; [done|].
  change (S n) with (1 + n)%nat. rewrite concat_blocks_app, length_app, Nat2Z.inj_add, IH.
  unfold concat_blocks. cbn. rewrite app_nil_r, Hb. lia.
Qed.

(** A device on which a transfer makes progress and no command overflows. *)
Record dev_ok (dev : xnvme_dev) : Prop := {
  do_lba : 0 < dev_lba dev;
  do_mdts : dev_lba dev <= geo_mdts_nbytes (xnvme_dev_get_geo dev) < 2 ^ 32
}.

Section transfers.
Context {W : Type} `{E : XnvmeEnv W} (block : W -> xnvme_dev -> Z -> list Z) `{!XnvmeLaws W block}.

(** One chunk of a transfer of [n] remaining blocks. *)
Lemma chunk_size dev slba elba n mdts :
  dev_ok dev -> fla_xne_calc_mdts_naddrs dev = Some mdts ->
  elba = slba + Z.of_nat n - 1 -> (0 < n)%nat -> Z.of_nat n < 2 ^ 64 ->
  exists k, (0 < k <= n)%nat /\ Z.of_nat k <= mdts /\ (k = n \/ Z.of_nat k = mdts) /\ 0 < mdts < 2 ^ 16 /\
    let nlb := u32 (fla_min (u64 (elba - slba)) (u32 (mdts - 1))) in
    nlb = Z.of_nat k - 1 /\ u16 nlb = nlb /\
    u32 (u32 (nlb + 1) * dev_lba dev) = Z.of_nat k * dev_lba dev.
Proof.
  intros [Hl Hm] Hc He Hn Hb. unfold fla_xne_calc_mdts_naddrs in Hc.
  change (geo_lba_nbytes (xnvme_dev_get_geo dev)) with (dev_lba dev) in Hc.
  rewrite (proj2 (Z.eqb_neq _ _)) in Hc by lia. injection Hc as Hc.
  set (q := geo_mdts_nbytes (xnvme_dev_get_geo dev) / dev_lba dev) in *.
  assert (1 <= q) by (apply Z.div_le_lower_bound; lia).
  assert (q * dev_lba dev <= geo_mdts_nbytes (xnvme_dev_get_geo dev)).
  { rewrite Z.mul_comm. apply Z.mul_div_le. lia. }
  assert (1 <= mdts <= 65535 /\ mdts <= q) as [? ?].
  { unfold fla_min in Hc. destruct (Z.ltb_spec q (2 ^ 16 - 1)); lia. }
  exists (Z.to_nat (Z.min (Z.of_nat n) mdts)). subst elba. cbv zeta.
  rewrite (u64_small (_ - slba)) by (unfold is_u64; lia).
  rewrite (u32_small (mdts - 1)) by (unfold is_u32; lia).
  assert (fla_min (slba + Z.of_nat n - 1 - slba) (mdts - 1) = Z.min (Z.of_nat n) mdts - 1) as ->.
  { unfold fla_min. destruct (Z.ltb_spec (slba + Z.of_nat n - 1 - slba) (mdts - 1)); lia. }
  rewrite (u32_small (Z.min _ _ - 1)) by (unfold is_u32; lia).
  rewrite u16_small by (unfold is_u16; lia).
  rewrite (u32_small (Z.min _ _ - 1 + 1)) by (unfold is_u32; lia).
  rewrite u32_small by (unfold is_u32; nia).
  repeat split; lia || nia.
Qed.

Lemma sync_w_loop_spec fuel w dev slba n mdts wbuf :
  dev_ok dev -> fla_xne_calc_mdts_naddrs dev = Some mdts ->
  0 <= slba -> slba + Z.of_nat n + 2 ^ 16 < 2 ^ 64 -> (n < fuel)%nat ->
  Z.of_nat n * dev_lba dev <= Z.of_nat (length wbuf) ->
  exists w' err, sync_w_loop fuel w dev (slba + Z.of_nat n - 1) mdts slba wbuf = Some (w', err) /\
    (err = 0 -> concat_blocks (block w' dev) slba n = take (Z.to_nat (Z.of_nat n * dev_lba dev)) wbuf) /\
    (forall dev' lba, dev_id dev' <> dev_id dev \/ lba < slba \/ slba + Z.of_nat n <= lba ->
      block w' dev' lba = block w dev' lba).
Proof.
  intros Hd Hm. revert w slba n wbuf.
  induction fuel as [|fuel IH]; intros w slba n wbuf Hs Hov Hf Hlen; [lia|].
  cbn [sync_w_loop]. destruct n as [|n'].
  { rewrite (proj2 (Z.leb_gt _ _)) by lia. exists w, 0. split; [done|]. split; [|done]. done. }
  set (n := S n') in *. rewrite (proj2 (Z.leb_le _ _)) by lia.
  destruct (chunk_size dev slba (slba + Z.of_nat n - 1) n mdts Hd Hm eq_refl) as
    (k & Hk & Hkm & Hkn & Hmd & Enlb & E16 & Estep); [lia..|].
  pose proof (do_lba dev Hd). cbv zeta in *. rewrite E16, Estep, Enlb in *.
  rewrite (proj2 (Z.ltb_ge _ _)) by nia.
  destruct (xnvme_nvm_write w dev slba (Z.of_nat k - 1)
              (take (Z.to_nat (Z.of_nat k * dev_lba dev)) wbuf)) as [w1 e] eqn:Ew.
  assert (0 <= Z.of_nat k - 1) as Hk0 by lia.
  pose proof (write_frame _ _ _ _ _ _ _ Hk0 Ew) as Hfr.
  destruct (cmd_failed e) eqn:Ee.
  { exists w1, (cmd_err e). split; [done|]. split.
    - unfold cmd_failed, cmd_err in *. intros E0. destruct (Z.eqb_spec e.1 0); [done|congruence].
    - intros dev' lba Hx. apply Hfr. lia. }
  assert (Z.of_nat (length (take (Z.to_nat (Z.of_nat k * dev_lba dev)) wbuf))
          = (Z.of_nat k - 1 + 1) * dev_lba dev) as Elen by (rewrite length_take; nia).
  pose proof (write_ok _ _ _ _ _ _ _ Hk0 H Elen Ew Ee) as Hwr.
  replace (Z.to_nat (Z.of_nat k - 1 + 1)) with k in Hwr by lia.
  rewrite (u64_small (slba + mdts)) by (unfold is_u64; lia).
  destruct (decide (k = n)) as [Ekn|Ekn].
  { destruct fuel as [|fuel']; [lia|]. cbn [sync_w_loop].
    rewrite (proj2 (Z.leb_gt _ _)) by lia. exists w1, 0. split; [done|]. subst k.
    split; [intros _; exact Hwr|]. intros dev' lba Hx. apply Hfr. lia. }
  destruct (IH w1 (slba + mdts) (n - k)%nat (drop (Z.to_nat (Z.of_nat k * dev_lba dev)) wbuf))
    as (w' & err & Eq & Hok & Hfr'); [lia..|rewrite length_drop; nia|].
  exists w', err. replace (slba + Z.of_nat n - 1) with
    (slba + mdts + Z.of_nat (n - k) - 1) by lia. split; [exact Eq|]. split.
  - intros E0. replace n with (k + (n - k))%nat at 1 by lia. rewrite concat_blocks_app.
    replace (slba + Z.of_nat k) with (slba + mdts) by lia. rewrite (Hok E0).
    rewrite (concat_blocks_ext _ (block w1 dev)), Hwr by (intros; apply Hfr'; lia).
    replace (Z.to_nat (Z.of_nat n * dev_lba dev)) with (Z.to_nat (Z.of_nat k * dev_lba dev) +
      Z.to_nat (Z.of_nat (n - k) * dev_lba dev))%nat by nia.
    by rewrite <- take_take_drop.
  - intros dev' lba Hx. rewrite Hfr', Hfr by lia. done.
Qed.

Lemma cmd_err_nonzero e : cmd_failed e = true -> cmd_err e <> 0.
Proof. unfold cmd_failed, cmd_err. destruct (Z.eqb_spec e.1 0); [done|done]. Qed.

Lemma sync_r_loop_spec fuel w dev slba n mdts done rbuf :
  dev_ok dev -> fla_xne_calc_mdts_naddrs dev = Some mdts ->
  0 <= slba -> slba + Z.of_nat n + 2 ^ 16 < 2 ^ 64 -> (n < fuel)%nat ->
  Z.of_nat n * dev_lba dev <= Z.of_nat (length rbuf) ->
  exists w' err data,
    sync_r_loop fuel w dev (slba + Z.of_nat n - 1) mdts slba done rbuf = Some (w', err, data) /\
    (err = 0 -> data = done ++ concat_blocks (block w dev) slba n ++
                       drop (Z.to_nat (Z.of_nat n * dev_lba dev)) rbuf) /\
    (forall dev' lba, block w' dev' lba = block w dev' lba).
Proof.
  intros Hd Hm. revert w slba n done rbuf.
  induction fuel as [|fuel IH]; intros w slba n done rbuf Hs Hov Hf Hlen; [lia|].
  cbn [sync_r_loop]. destruct n as [|n'].
  { rewrite (proj2 (Z.leb_gt _ _)) by lia. eexists w, 0, _. done. }
  set (n := S n') in *. rewrite (proj2 (Z.leb_le _ _)) by lia.
  destruct (chunk_size dev slba (slba + Z.of_nat n - 1) n mdts Hd Hm eq_refl) as
    (k & Hk & Hkm & Hkn & Hmd & Enlb & E16 & Estep); [lia..|].
  pose proof (do_lba dev Hd). cbv zeta in *. rewrite E16, Estep, Enlb in *.
  rewrite (proj2 (Z.ltb_ge _ _)) by nia.
  destruct (xnvme_nvm_read w dev slba (Z.of_nat k - 1)) as [[w1 e] data] eqn:Er.
  assert (0 <= Z.of_nat k - 1) as Hk0 by lia.
  pose proof (read_frame _ _ _ _ _ _ _ Er) as Hfr.
  destruct (cmd_failed e) eqn:Ee.
  { eexists w1, (cmd_err e), _. split; [reflexivity|]. split; [|done].
    intros E0. by apply cmd_err_nonzero in Ee. }
  pose proof (read_ok _ _ _ _ _ _ _ Hk0 H Er Ee) as Hrd.
  replace (Z.to_nat (Z.of_nat k - 1 + 1)) with k in Hrd by lia.
  rewrite (u64_small (slba + mdts)) by (unfold is_u64; lia).
  destruct (decide (k = n)) as [Ekn|Ekn].
  { destruct fuel as [|fuel']; [lia|]. cbn [sync_r_loop].
    rewrite (proj2 (Z.leb_gt _ _)) by lia. eexists w1, 0, _. split; [reflexivity|].
    subst k data. split; [|done]. intros _. by rewrite app_assoc. }
  destruct (IH w1 (slba + mdts) (n - k)%nat (done ++ data)
              (drop (Z.to_nat (Z.of_nat k * dev_lba dev)) rbuf))
    as (w' & err & data' & Eq & Hok & Hfr'); [lia..|rewrite length_drop; nia|].
  exists w', err, data'. replace (slba + Z.of_nat n - 1) with
    (slba + mdts + Z.of_nat (n - k) - 1) by lia. split; [exact Eq|]. split.
  - intros E0. rewrite (Hok E0), Hrd, drop_drop, <- !app_assoc. f_equal.
    replace (concat_blocks (block w dev) slba n) with
      (concat_blocks (block w dev) slba (k + (n - k))) by (f_equal; lia).
    rewrite concat_blocks_app, <- app_assoc. f_equal.
    replace (slba + Z.of_nat k) with (slba + mdts) by lia.
    rewrite (concat_blocks_ext (block w1 dev) (block w dev)) by (intros; apply Hfr).
    do 2 f_equal. nia.
  - intros dev' lba. by rewrite Hfr', Hfr.
Qed.

(** A range as the library builds it. *)
Definition range_of (slba n : Z) (dev : xnvme_dev) : xnvme_lba_range :=
  mk_lba_range slba (slba + n - 1) n (n * dev_lba dev) true.

Lemma mdts_some dev : dev_ok dev -> exists mdts, fla_xne_calc_mdts_naddrs dev = Some mdts.
Proof.
  intros [Hl _]. unfold fla_xne_calc_mdts_naddrs, dev_lba in *.
  rewrite (proj2 (Z.eqb_neq _ _)) by lia. by eexists.
Qed.

Lemma sync_seq_w_spec w dev slba n buf :
  dev_ok dev -> 0 <= slba -> 0 <= n -> slba + n + 2 ^ 16 < 2 ^ 64 ->
  n * dev_lba dev <= Z.of_nat (length buf) ->
  exists w' err, fla_xne_sync_seq_w w (range_of slba n dev) dev buf = Some (w', err) /\
    (err = 0 -> concat_blocks (block w' dev) slba (Z.to_nat n) = take (Z.to_nat (n * dev_lba dev)) buf) /\
    (forall dev' lba, dev_id dev' <> dev_id dev \/ lba < slba \/ slba + n <= lba ->
      block w' dev' lba = block w dev' lba).
Proof.
  intros Hd Hs Hn Hov Hlen. destruct (mdts_some dev Hd) as [mdts Hm].
  unfold fla_xne_sync_seq_w. rewrite Hm. cbn [mbind option_bind range_of r_elba r_slba].
  pose proof (sync_w_loop_spec (S (S (Z.to_nat (slba + n - 1 - slba)))) w dev slba (Z.to_nat n) mdts
                buf Hd Hm Hs) as L. rewrite !Z2Nat.id in L by lia. apply L; lia.
Qed.

Lemma sync_seq_r_spec w dev slba n buf :
  dev_ok dev -> 0 <= slba -> 0 <= n -> slba + n + 2 ^ 16 < 2 ^ 64 ->
  n * dev_lba dev <= Z.of_nat (length buf) ->
  exists w' err data, fla_xne_sync_seq_r w (range_of slba n dev) dev buf = Some (w', err, data) /\
    (err = 0 -> data = concat_blocks (block w dev) slba (Z.to_nat n) ++
                       drop (Z.to_nat (n * dev_lba dev)) buf) /\
    (forall dev' lba, block w' dev' lba = block w dev' lba).
Proof.
  intros Hd Hs Hn Hov Hlen. destruct (mdts_some dev Hd) as [mdts Hm].
  unfold fla_xne_sync_seq_r. rewrite Hm. cbn [mbind option_bind range_of r_elba r_slba].
  pose proof (sync_r_loop_spec (S (S (Z.to_nat (slba + n - 1 - slba)))) w dev slba (Z.to_nat n) mdts
                [] buf Hd Hm Hs) as L. rewrite !Z2Nat.id in L by lia. cbn [app] in L. apply L; lia.
Qed.
End transfers.

(** ** An instance: devices in memory *)

Module RamDisk.
(** Stored blocks by device and address, and the outcomes of the next
    allocations (all succeed once the list is used up). *)
Record world := mk_world { blocks : gmap (Z * Z) (list Z); allocs : list bool }.

Definition block (w : world) (dev : xnvme_dev) (lba : Z) : list Z :=
  let n := Z.to_nat (dev_lba dev) in
  take n (default [] (blocks w !! (dev_id dev, lba)) ++ replicate n 0).

Definition next_alloc (w : world) : world * bool :=
  match allocs w with
  | [] => (w, true)
  | b :: bs => (mk_world (blocks w) bs, b)
  end.

Fixpoint store (m : gmap (Z * Z) (list Z)) (dev : xnvme_dev) (slba : Z) (n : nat) (buf : list Z) :
    gmap (Z * Z) (list Z) :=
  match n with
  | O => m
  | S n =>
      let k := Z.to_nat (dev_lba dev) in
      <[(dev_id dev, slba) := take k buf]> (store m dev (slba + 1) n (drop k buf))
  end.

Definition range_from (dev : xnvme_dev) (slba n nbytes : Z) (ok : bool) : xnvme_lba_range :=
  mk_lba_range slba (slba + n - 1) n nbytes ok.

#[global] Instance env : XnvmeEnv world := {
  malloc := fun w _ => next_alloc w;
  xnvme_buf_alloc := fun w _ n =>
    let '(w, ok) := next_alloc w in (w, if ok then Some (replicate (Z.to_nat n) 0) else None);
  xnvme_nvm_write := fun w dev slba nlb buf =>
    (mk_world (store (blocks w) dev slba (Z.to_nat (nlb + 1)) buf) (allocs w), (0, 0));
  xnvme_nvm_read := fun w dev slba nlb =>
    (w, (0, 0), concat_blocks (block w dev) slba (Z.to_nat (nlb + 1)));
  xnvme_znd_mgmt_send := fun w _ _ _ _ => (w, (0, 0));
  xnvme_lba_range_from_slba_naddrs := fun dev slba n =>
    range_from dev slba n (n * dev_lba dev)
      ((0 <? n) && (0 <=? slba) && (slba + n <=? dev_nlb dev));
  xnvme_lba_range_from_offset_nbytes := fun dev off n =>
    range_from dev (off / dev_lba dev) (n / dev_lba dev) n
      ((off mod dev_lba dev =? 0) && (n mod dev_lba dev =? 0) &&
       (off + n <=? geo_tbytes (xnvme_dev_get_geo dev)))
}.

Lemma block_len w dev lba : 0 <= dev_lba dev -> Z.of_nat (length (block w dev lba)) = dev_lba dev.
Proof. intros. unfold block. rewrite length_take, length_app, length_replicate. lia. Qed.

Lemma store_other m dev slba n buf d lba :
  d <> dev_id dev \/ lba < slba \/ slba + Z.of_nat n <= lba ->
  store m dev slba n buf !! (d, lba) = m !! (d, lba).
Proof.
  revert slba buf. induction n as [|n IH]; intros slba buf Hx; [done|]. cbn [store].
  rewrite lookup_insert_ne by (intros [=]; lia). apply IH. lia.
Qed.

Lemma store_concat m al dev slba n buf :
  0 < dev_lba dev -> Z.of_nat (length buf) = Z.of_nat n * dev_lba dev ->
  concat_blocks (block (mk_world (store m dev slba n buf) al) dev) slba n = buf.
Proof.
  intros Hl. revert m slba buf. induction n as [|n IH]; intros m slba buf Hlen.
  { cbn. destruct buf; [done|cbn in Hlen; lia]. }
  change (S n) with (1 + n)%nat at 2. rewrite concat_blocks_app.
  set (k := Z.to_nat (dev_lba dev)).
  assert (concat_blocks (block (mk_world (store m dev slba (S n) buf) al) dev) slba 1 = take k buf) as ->.
  { unfold concat_blocks. cbn [seq fmap list_fmap concat app]. rewrite app_nil_r.
    replace (slba + Z.of_nat 0) with slba by lia. unfold block. cbn [store blocks].
    rewrite lookup_insert_eq. cbn [default id]. fold k. rewrite take_app_le by (rewrite length_take; lia).
    by rewrite take_take, Nat.min_id. }
  rewrite (concat_blocks_ext _ (block (mk_world (store m dev (slba + 1) n (drop k buf)) al) dev)).
  - rewrite IH by (rewrite length_drop; lia). apply take_drop.
  - intros lba Hlba. unfold block. cbn [store blocks].
    rewrite lookup_insert_ne by (intros [=]; lia). done.
Qed.

#[global] Instance laws : XnvmeLaws world block.
Proof.
  split.
  - intros. by apply block_len.
  - intros w dev slba nlb buf w' e Hn Hl Hlen [= <- <-] _. apply store_concat; [done|]. lia.
  - intros w dev slba nlb buf w' e Hn [= <- <-] dev' lba Hx. unfold block. cbn [blocks].
    rewrite store_other by lia. done.
  - intros w dev slba nlb w' e data Hn Hl [= <- <- <-] _. done.
  - intros w dev slba nlb w' e data [= <- <- <-]. done.
  - intros w dev n w' r. cbn. unfold next_alloc. destruct (allocs w) as [|b bs]; intros [= <- <-]; done.
  - intros w dev n w' buf Hn. cbn. unfold next_alloc.
    destruct (allocs w) as [|[] bs]; intros E; simplify_eq; rewrite length_replicate; lia.
  - intros w n w' r. cbn. unfold next_alloc. destruct (allocs w) as [|b bs]; intros [= <- <-]; done.
  - intros dev slba n ???. cbn. unfold range_from. f_equal.
    rewrite !andb_true_iff, Z.ltb_lt, !Z.leb_le. lia.
  - intros dev off n Hv Hl Ho Hn. cbn in *. rewrite !andb_true_iff, !Z.eqb_eq, Z.leb_le in Hv.
    destruct Hv as [[Hv1 Hv2] Hv3]. split; [done|]. split; [done|]. split; [done|].
    unfold range_from. f_equal. rewrite !andb_true_iff, !Z.eqb_eq, Z.leb_le. done.
  - intros dev off n Hl Ho Hn Hm1 Hm2 Ht. cbn. by rewrite !andb_true_iff, !Z.eqb_eq, Z.leb_le.
Qed.
End RamDisk.

(** ** Claims *)

(** C31: Splitting a write into commands of at most the device's transfer limit is
    invisible: on a device that obeys its commands [fla_xne_sync_seq_w] terminates
    without leaving the buffer, and when it returns 0 the blocks of the range hold
    the buffer's bytes in order; whatever it returns, no block outside the range,
    and no other device, has changed. *)
Theorem seq_write_correct {W} `{E : XnvmeEnv W} block `{!XnvmeLaws W block} w dev slba n buf :
  dev_ok dev -> 0 <= slba -> 0 <= n -> slba + n + 2 ^ 16 < 2 ^ 64 ->
  n * dev_lba dev <= Z.of_nat (length buf) ->
  exists w' err, fla_xne_sync_seq_w w (range_of slba n dev) dev buf = Some (w', err) /\
    (err = 0 -> concat_blocks (block w' dev) slba (Z.to_nat n) = take (Z.to_nat (n * dev_lba dev)) buf) /\
    (forall dev' lba, dev_id dev' <> dev_id dev \/ lba < slba \/ slba + n <= lba ->
      block w' dev' lba = block w dev' lba).
Proof. apply sync_seq_w_spec. exact _. Qed.

(** A device of 16 blocks of 4 bytes that takes at most two blocks a command. *)
Definition ex_dev : xnvme_dev := mk_xnvme_dev 1 (mk_xnvme_geo XNVME_GEO_CONVENTIONAL 4 64 8 0 0).
Definition ex_world : RamDisk.world := RamDisk.mk_world ∅ [].
Definition ex_bytes : list Z := [1; 2; 3; 4; 5; 6; 7; 8; 9; 10; 11; 12].

Lemma seq_write_correct_witness :
  exists w' err, fla_xne_sync_seq_w ex_world (range_of 5 3 ex_dev) ex_dev ex_bytes = Some (w', err) /\
    (err = 0 -> concat_blocks (RamDisk.block w' ex_dev) 5 3 = ex_bytes) /\
    RamDisk.block w' ex_dev 8 = [0; 0; 0; 0].
Proof.
  destruct (seq_write_correct RamDisk.block ex_world ex_dev 5 3 ex_bytes) as (w' & err & E & Hok & Hfr);
    [split; vm_compute; split; congruence|lia|lia|lia|vm_compute; congruence|].
  exists w', err. split; [exact E|]. split; [exact Hok|].
  rewrite Hfr by lia. reflexivity.
Defined.

(** Reading back a range that [fla_xne_sync_seq_w] wrote without error yields
    exactly the bytes written, whatever the transfer limit, and a read changes no
    block. *)
Theorem seq_write_read_roundtrip {W} `{E : XnvmeEnv W} block `{!XnvmeLaws W block}
    w dev slba n buf rbuf w1 w2 err data :
  dev_ok dev -> 0 <= slba -> 0 <= n -> slba + n + 2 ^ 16 < 2 ^ 64 ->
  Z.of_nat (length buf) = n * dev_lba dev -> length rbuf = length buf ->
  fla_xne_sync_seq_w w (range_of slba n dev) dev buf = Some (w1, 0) ->
  fla_xne_sync_seq_r w1 (range_of slba n dev) dev rbuf = Some (w2, err, data) ->
  (err = 0 -> data = buf) /\ (forall dev' lba, block w2 dev' lba = block w1 dev' lba).
Proof.
  intros Hd Hs Hn Hov Hl Hr Hw Hrd.
  destruct (sync_seq_w_spec block w dev slba n buf) as (w1' & e & Ew & Hok & _); try done; [lia|].
  destruct (sync_seq_r_spec block w1 dev slba n rbuf) as (w2' & e2 & data' & Er & Hdata & Hfr);
    try done; [lia|].
  rewrite Hw in Ew. rewrite Hrd in Er. injection Ew as <- <-. injection Er as <- <- <-.
  split; [|done]. intros E0. rewrite (Hdata E0), (Hok eq_refl).
  rewrite drop_ge by lia. rewrite app_nil_r. apply take_ge. lia.
Qed.

Lemma seq_write_read_roundtrip_witness :
  exists w1 w2 data, fla_xne_sync_seq_w ex_world (range_of 5 3 ex_dev) ex_dev ex_bytes = Some (w1, 0) /\
    fla_xne_sync_seq_r w1 (range_of 5 3 ex_dev) ex_dev (replicate 12 0) = Some (w2, 0, data) /\
    data = ex_bytes.
Proof.
  do 3 eexists. split; [vm_compute; reflexivity|]. split; [vm_compute; reflexivity|].
  refine (proj1 (seq_write_read_roundtrip RamDisk.block ex_world ex_dev 5 3 ex_bytes (replicate 12 0)
    _ _ 0 _ _ _ _ _ _ _ _ _) eq_refl);
    [split; vm_compute; split; congruence|lia|lia|lia|reflexivity|reflexivity
    |vm_compute; reflexivity|vm_compute; reflexivity].
Defined.
