(* ===== verification/Striping.v ===== *)
(** * Striping: striped transfers, [src/src/flexalloc_xnvme_env.c]

    A striped object is a row of [strp_nobjs] adjacent objects; its bytes go round
    them in chunks of [strp_chunk_nbytes].  [fla_xne_async_strp_seq_xneio] sends one
    command per object and lets the completion callback [fla_async_strp_cb] send the
    next one for that object, so that up to [strp_nobjs] commands are in flight and
    complete in any order.

    The queue of libxnvme is the class [XnvmeQueue]: it decides whether a command is
    accepted and which command in flight completes next.  A command takes effect when
    it completes, as the command of [XnvmeEnv] on the same blocks. *)
From S2P Require Import Prelude Util XnvmeEnv.

(** ** Parameters *)

(** [struct fla_strp_params]. *)
Record fla_strp_params := mk_strp {
  sp_nobjs : Z; sp_chunk_nbytes : Z; sp_faobj_nlbs : Z; sp_xfer_snbytes : Z; sp_xfer_nbytes : Z;
  sp_obj_tnbytes : Z; sp_obj_start_nbytes : Z; sp_lba_nbytes : Z; sp_write : bool
}.

(** [struct fla_async_strp_cb_args] with the counters of its [cb_args]; [nsid], the
    buffer and the parameters in [cmn_args] are the same for all of them. *)
Record fla_async_strp_cb_args := mk_cb {
  cb_slba : Z; cb_nlbs : Z; cb_sbuf_nbytes : Z; cb_ecount : Z; cb_completed : Z; cb_submitted : Z
}.
Definition cb_zero : fla_async_strp_cb_args := mk_cb 0 0 0 0 0 0.

(** ** Addresses *)

(** A division by zero is undefined. *)
Definition calc_chunk_translation (zero_offset chunk translation_step : Z) : option Z :=
  if chunk =? 0 then None
  else Some (u64 (zero_offset mod chunk + u64 (zero_offset / chunk * translation_step))).

Definition calc_strp_obj_slba (snbytes : Z) (sp : fla_strp_params) : option Z :=
  chunks_in_faobs ← calc_chunk_translation snbytes (sp_chunk_nbytes sp) (u64 (sp_faobj_nlbs sp * sp_lba_nbytes sp));
  off ← calc_chunk_translation chunks_in_faobs (sp_obj_tnbytes sp) (sp_chunk_nbytes sp);
  if sp_lba_nbytes sp =? 0 then None else Some (off / sp_lba_nbytes sp).

Definition calc_strp_obj_next_nbls (sbuf_nbytes : Z) (sp : fla_strp_params) : option Z :=
  let nbytes_to_xfer := u64 (sp_xfer_nbytes sp - sbuf_nbytes) in
  if sp_lba_nbytes sp =? 0 then None
  else Some (u16 (u64 (fla_min (sp_chunk_nbytes sp) nbytes_to_xfer / sp_lba_nbytes sp - 1))).

Definition calc_strp_obj_first_nlbs (snbytes : Z) (sp : fla_strp_params) : option Z :=
  if (sp_chunk_nbytes sp =? 0) || (sp_lba_nbytes sp =? 0) then None
  else Some (u16 (u64 (fla_min (sp_xfer_nbytes sp) (u64 (sp_chunk_nbytes sp - snbytes mod sp_chunk_nbytes sp))
                         / sp_lba_nbytes sp - 1))).

(** The second product is one of 32-bit values. *)
Definition calc_strp_obj_next_sbuf_nbytes (curr_sbuf_nbytes xfered_nbls : Z) (sp : fla_strp_params) : Z :=
  u64 (u64 (curr_sbuf_nbytes + u32 (u32 (xfered_nbls + 1) * sp_lba_nbytes sp)) +
       u32 (sp_chunk_nbytes sp * u32 (sp_nobjs sp - 1))).

(** ** The queue *)

(** - [xnvme_queue_init], [xnvme_queue_term]: the error code;
    - [xnvme_queue_get_cmd_ctx]: whether there is a context, and [errno] otherwise;
    - [xnvme_queue_submit]: the code with which a command is accepted or refused;
    - [xnvme_queue_poke], [xnvme_queue_drain]: with [n] commands in flight, the one
      that completes next, or the value with which the call returns. *)
Class XnvmeQueue (W : Type) := {
  xnvme_queue_init : W -> xnvme_dev -> Z -> W * Z;
  xnvme_queue_term : W -> W * Z;
  xnvme_queue_get_cmd_ctx : W -> W * (Z + unit);
  xnvme_queue_submit : W -> W * Z;
  xnvme_queue_poke : W -> nat -> W * (Z + nat);
  xnvme_queue_drain : W -> nat -> W * (Z + nat)
}.

Section transfer.
Context {W : Type} `{XnvmeEnv W} `{XnvmeQueue W}.

(** A transfer under way: the callback arguments, the commands in flight by the
    index of their arguments, the data buffer. *)
Record xfer := mk_xfer { x_w : W; x_args : list fla_async_strp_cb_args; x_flight : list nat; x_buf : list Z }.

Definition set_w (w : W) (x : xfer) : xfer := mk_xfer w (x_args x) (x_flight x) (x_buf x).
Definition set_arg (i : nat) (c : fla_async_strp_cb_args) (x : xfer) : xfer :=
  mk_xfer (x_w x) (<[i := c]> (x_args x)) (x_flight x) (x_buf x).

Context (dev : xnvme_dev) (sp : fla_strp_params).

(** The bytes a command moves; it must stay inside the buffer. *)
Definition cmd_nbytes (c : fla_async_strp_cb_args) : Z := (cb_nlbs c + 1) * dev_lba dev.
Definition cmd_inside (c : fla_async_strp_cb_args) (buf : list Z) : bool :=
  cb_sbuf_nbytes c + cmd_nbytes c <=? Z.of_nat (length buf).
Definition cmd_slice (c : fla_async_strp_cb_args) (buf : list Z) : list Z :=
  take (Z.to_nat (cmd_nbytes c)) (drop (Z.to_nat (cb_sbuf_nbytes c)) buf).

(** [xnvme_nvm_write] or [xnvme_nvm_read] on the queue: accepted, the command is in
    flight. *)
Definition submit (i : nat) (x : xfer) : option (xfer * Z) :=
  c ← x_args x !! i;
  if negb (cmd_inside c (x_buf x)) then None
  else
    let '(w, err) := xnvme_queue_submit (x_w x) in
    if err =? 0 then
      Some (mk_xfer w (<[i := mk_cb (cb_slba c) (cb_nlbs c) (cb_sbuf_nbytes c) (cb_ecount c) (cb_completed c)
                                (u32 (cb_submitted c + 1))]> (x_args x)) (x_flight x ++ [i]) (x_buf x), 0)
    else Some (set_w w x, err).

(** The device carries out the command with arguments [c]. *)
Definition perform (c : fla_async_strp_cb_args) (x : xfer) : xfer * bool :=
  if sp_write sp then
    let '(w, e) := xnvme_nvm_write (x_w x) dev (cb_slba c) (cb_nlbs c) (cmd_slice c (x_buf x)) in
    (set_w w x, cmd_failed e)
  else
    let '(w, e, data) := xnvme_nvm_read (x_w x) dev (cb_slba c) (cb_nlbs c) in
    let at_ := Z.to_nat (cb_sbuf_nbytes c) in
    (mk_xfer w (x_args x) (x_flight x)
       (if cmd_failed e then x_buf x else take at_ (x_buf x) ++ data ++ drop (at_ + length data) (x_buf x)),
     cmd_failed e).

(** The callback for the arguments at [i]: the next command of the same object, if
    the buffer goes on that far.  A command that is not accepted is given up. *)
Definition fla_async_strp_cb (i : nat) (failed : bool) (x : xfer) : option xfer :=
  c ← x_args x !! i;
  let ecount := if failed then u32 (cb_ecount c + 1) else cb_ecount c in
  let sbuf := calc_strp_obj_next_sbuf_nbytes (cb_sbuf_nbytes c) (cb_nlbs c) sp in
  if sbuf <? sp_xfer_nbytes sp then
    nlbs ← calc_strp_obj_next_nbls sbuf sp;
    let c' := mk_cb (u64 (cb_slba c + (cb_nlbs c + 1))) nlbs sbuf ecount (u32 (cb_completed c + 1)) (cb_submitted c) in
    '(x, _) ← submit i (set_arg i c' x);
    Some x
  else Some (set_arg i (mk_cb (cb_slba c) (cb_nlbs c) sbuf ecount (u32 (cb_completed c + 1)) (cb_submitted c)) x).

(** The command at position [k] of those in flight completes. *)
Definition complete (k : nat) (x : xfer) : option xfer :=
  i ← x_flight x !! k;
  c ← x_args x !! i;
  let '(x, failed) := perform c (mk_xfer (x_w x) (x_args x) (delete k (x_flight x)) (x_buf x)) in
  fla_async_strp_cb i failed x.

(** [xnvme_queue_poke] and [xnvme_queue_drain] run callbacks until they return. *)
Fixpoint completions (next : W -> nat -> W * (Z + nat)) (fuel : nat) (x : xfer) : option (xfer * Z) :=
  match fuel with
  | O => None
  | S fuel =>
      let '(w, r) := next (x_w x) (length (x_flight x)) in
      match r with
      | inl ret => Some (set_w w x, ret)
      | inr k => x ← complete k (set_w w x); completions next fuel x
      end
  end.

(** More completions than there can be: one per block and object. *)
Definition completions_max : nat := S (512 * S (Z.to_nat (sp_xfer_nbytes sp)))%nat.

(** From the label [submit]: again as long as the queue is busy.  The flag says
    whether the loop of the caller goes on. *)
Fixpoint submit_retry (retries : nat) (i : nat) (x : xfer) : option (xfer * bool) :=
  match retries with
  | O => None
  | S retries =>
      '(x, err) ← submit i x;
      if err =? 0 then Some (x, true)
      else if (err =? - EBUSY) || (err =? - EAGAIN) then
        '(x, ret) ← completions xnvme_queue_poke completions_max x;
        if ret <? 0 then Some (x, false) else submit_retry retries i x
      else Some (x, false)
  end.

(** The body of the first loop for object [i]: the number of bytes it moves, unless
    it leaves for [close_queue]. *)
Definition start_object (prep_ctx : option (W -> W * Z)) (retries : nat) (i sbuf_nbytes : Z) (x : xfer) :
    option (xfer * option Z) :=
  let '(w, ctx) := xnvme_queue_get_cmd_ctx (x_w x) in
  let x := set_w w x in
  match ctx with
  | inl _ => Some (x, None)
  | inr _ =>
      let '(w, err) := match prep_ctx with Some prep => prep (x_w x) | None => (x_w x, 0) end in
      let x := set_w w x in
      if negb (err =? 0) then Some (x, None)
      else
        curr_nlbs ← calc_strp_obj_first_nlbs (u64 (sbuf_nbytes + sp_xfer_snbytes sp)) sp;
        c ← lookupZ (x_args x) i;
        slba ← calc_strp_obj_slba (u64 (sbuf_nbytes + sp_xfer_snbytes sp)) sp;
        let slba := u64 (slba + sp_obj_start_nbytes sp / sp_lba_nbytes sp) in
        let c := mk_cb slba curr_nlbs sbuf_nbytes (cb_ecount c) (cb_completed c) (cb_submitted c) in
        '(x, ok) ← submit_retry retries (Z.to_nat i) (set_arg (Z.to_nat i) c x);
        Some (x, if (ok : bool) then Some (u32 ((curr_nlbs + 1) * sp_lba_nbytes sp)) else None)
  end.

(** The first loop, over the [n] objects from [i] on. *)
Fixpoint start_objects (prep_ctx : option (W -> W * Z)) (retries n : nat) (i sbuf_nbytes : Z) (x : xfer) : option xfer :=
  match n with
  | O => Some x
  | S n =>
      if sbuf_nbytes <? sp_xfer_nbytes sp then
        '(x, moved) ← start_object prep_ctx retries i sbuf_nbytes x;
        match moved with
        | None => Some x
        | Some m => start_objects prep_ctx retries n (i + 1) (u64 (sbuf_nbytes + m)) x
        end
      else Some x
  end.

(** From [close_queue] on.  The last loop tests the first arguments only, whichever
    its index. *)
Definition close_queue (x : xfer) : option (xfer * Z) :=
  '(x, ret) ← completions xnvme_queue_drain completions_max x;
  if ret <? 0 then Some (x, 1)
  else
    let '(w, err) := xnvme_queue_term (x_w x) in
    let x := set_w w x in
    if negb (err =? 0) then Some (x, err)
    else
      c ← x_args x !! 0%nat;
      Some (x, if sp_nobjs sp =? 0 then 0 else cb_ecount c).

Definition fla_xne_async_strp_seq_xneio (prep_ctx : option (W -> W * Z)) (retries : nat) (w : W) (buf : list Z) :
    option (xfer * Z) :=
  let x := mk_xfer w (replicate 512 cb_zero) [] buf in
  if sp_lba_nbytes sp =? 0 then None
  else if negb (sp_xfer_nbytes sp mod sp_lba_nbytes sp =? 0) || negb (sp_xfer_snbytes sp mod sp_lba_nbytes sp =? 0)
  then Some (x, 1)
  else
    let '(w, err) := xnvme_queue_init w dev (u32 (sp_nobjs sp * 2)) in
    let x := set_w w x in
    if negb (err =? 0) then Some (x, err)
    else
      x ← start_objects prep_ctx retries (Z.to_nat (sp_nobjs sp)) 0 0 x;
      close_queue x.
End transfer.

(** ** The address map in blocks *)

(** Block [k] of a striped object of [n] objects with [A] chunks of [C] blocks each,
    which starts at block [b]: the chunks go round the objects. *)
Definition strp_block (n A C b k : Z) : Z := b + (k / C) mod n * (A * C) + k / C / n * C + k mod C.
(** The position in the striped object of the block at [v]. *)
Definition strp_pos (n A C b v : Z) : Z :=
  let o := (v - b) / (A * C) in let r := (v - b) mod (A * C) in (r / C * n + o) * C + r mod C.

Section map.
Context (n A C b : Z) (Hn : 0 < n) (HA : 0 < A) (HC : 0 < C).

(** The row of a chunk and its place in it. *)
Lemma strp_split k : 0 <= k < n * (A * C) ->
  k = (k / C / n * n + (k / C) mod n) * C + k mod C /\ 0 <= k mod C < C /\ 0 <= (k / C) mod n < n /\ 0 <= k / C / n < A.
Proof using Hn HA HC.
  intros Hk. pose proof (Z.div_mod k C). pose proof (Z.mod_pos_bound k C). pose proof (Z.div_mod (k / C) n). pose proof (Z.mod_pos_bound (k / C) n).
  assert (k / C / n < A) by (apply Z.div_lt_upper_bound; [lia|]; apply Z.div_lt_upper_bound; lia).
  assert (0 <= k / C / n) by (apply Z.div_pos; [apply Z.div_pos; lia|lia]). repeat split; lia.
Qed.

Lemma strp_block_range k : 0 <= k < n * (A * C) -> b <= strp_block n A C b k < b + n * (A * C).
Proof using All.
  intros Hk. destruct (strp_split k Hk) as (_ & Ht & Hq & Hr). unfold strp_block.
  assert (0 <= k / C / n * C + k mod C < A * C) by nia. assert (0 <= (k / C) mod n * (A * C) <= (n - 1) * (A * C)) by nia. lia.
Qed.

Lemma strp_pos_block k : 0 <= k < n * (A * C) -> strp_pos n A C b (strp_block n A C b k) = k.
Proof using All.
  intros Hk. destruct (strp_split k Hk) as (Ek & ? & ? & ?). unfold strp_pos, strp_block.
  set (q := (k / C) mod n) in *. set (r := k / C / n) in *. set (t := k mod C) in *.
  replace (b + q * (A * C) + r * C + t - b) with (q * (A * C) + (r * C + t)) by lia.
  assert (0 <= r * C + t < A * C) by nia.
  assert ((q * (A * C) + (r * C + t)) / (A * C) = q) as -> by (symmetry; apply Z.div_unique with (r := r * C + t); lia).
  assert ((q * (A * C) + (r * C + t)) mod (A * C) = r * C + t) as -> by (symmetry; apply Z.mod_unique with (q := q); lia).
  assert ((r * C + t) / C = r) as -> by (symmetry; apply Z.div_unique with (r := t); lia).
  assert ((r * C + t) mod C = t) as -> by (symmetry; apply Z.mod_unique with (q := r); lia). lia.
Qed.

Lemma strp_block_inj k k' : 0 <= k < n * (A * C) -> 0 <= k' < n * (A * C) -> strp_block n A C b k = strp_block n A C b k' -> k = k'.
Proof using All. intros Hk Hk' He. rewrite <- (strp_pos_block k), <- (strp_pos_block k') by done. by rewrite He. Qed.

(** Inside a chunk blocks are adjacent; after a chunk the next row of the object. *)
Lemma strp_block_add k t : 0 <= t -> k mod C + t < C -> strp_block n A C b (k + t) = strp_block n A C b k + t.
Proof using HC.
  intros Ht Hc. pose proof (Z.mod_pos_bound k C HC). pose proof (Z.div_mod k C ltac:(lia)). unfold strp_block.
  assert ((k + t) / C = k / C) as -> by (symmetry; apply Z.div_unique with (r := k mod C + t); lia).
  assert ((k + t) mod C = k mod C + t) as -> by (symmetry; apply Z.mod_unique with (q := k / C); lia). lia.
Qed.
End map.

(** ** Parameters in blocks *)

(** The parameters of a transfer of [m] blocks from block [s] of a striped object on:
    blocks of [lb] bytes, [n] objects of [A] chunks of [C] blocks, the first of them
    at block [b] of the device.  Chunks divide objects and the transfer stays inside
    the object; a chunk is at most one command, a device has fewer than 2^31 blocks,
    and neither the 32-bit product of a row nor the 64-bit one of the address
    computation wraps. *)
Record strp_units (dev : xnvme_dev) (sp : fla_strp_params) (lb n A C b s m : Z) : Prop := {
  su_lba : sp_lba_nbytes sp = lb;
  su_dev : dev_lba dev = lb;
  su_nobjs : sp_nobjs sp = n;
  su_chunk : sp_chunk_nbytes sp = C * lb;
  su_faobj : sp_faobj_nlbs sp = A * C;
  su_total : sp_obj_tnbytes sp = n * (A * C) * lb;
  su_start : sp_obj_start_nbytes sp = b * lb;
  su_snbytes : sp_xfer_snbytes sp = s * lb;
  su_nbytes : sp_xfer_nbytes sp = m * lb;
  su_lb : 0 < lb < 2 ^ 32;
  su_n : 0 < n <= 512;
  su_C : 0 < C <= 2 ^ 16;
  su_A : 0 < A;
  su_b : 0 <= b;
  su_s : 0 <= s;
  su_m : 0 <= m;
  su_inside : s + m <= n * (A * C);
  su_row : n * C * lb < 2 ^ 32;
  su_scale : A * (n * (A * C) * lb) < 2 ^ 64;
  su_blocks : b + n * (A * C) < 2 ^ 31
}.

(** The sizes that occur in the address computation. *)
Lemma strp_bounds n A C F lb q r t : 0 < n -> 0 < A -> 0 < C -> F = A * C -> 0 < lb -> 0 <= t < C -> 0 <= q < n -> 0 <= r < A ->
  (0 < F /\ 0 < F * lb <= n * F * lb /\ n * F * lb <= A * (n * F * lb)) /\ 0 <= t * lb /\ 0 <= (r * n + q) * (F * lb) /\
  (r * n + q) * (F * lb) + t * lb < A * (n * F * lb) /\ 0 <= q * F + t < n * F /\ 0 <= r * C + (q * F + t) < n * F /\
  0 <= r * (C * lb) <= n * F * lb.
Proof.
  intros Hn HA HC -> Hlb Ht Hq Hr. assert (0 < A * C) as HF by nia. set (F := A * C) in *.
  assert (r * C + t < F) by (unfold F; nia). assert (t < F) by nia. assert (q * F <= (n - 1) * F) by nia. assert (0 <= q * F) by nia.
  assert (0 <= r * C) by nia. assert (0 < F * lb) by nia.
  assert ((r * n + q + 1) * (F * lb) <= A * n * (F * lb)) by (apply Z.mul_le_mono_nonneg_r; nia).
  assert (t * lb < F * lb) by nia. assert (F * lb <= n * F * lb) by nia. assert (n * F * lb <= A * (n * F * lb)) by nia.
  assert (r * C * lb <= n * F * lb) by (apply Z.mul_le_mono_nonneg_r; nia). repeat split; nia.
Qed.

Lemma mul_div_mul lb k d : 0 < lb -> 0 < d -> k * lb / (d * lb) = k / d.
Proof. intros Hl Hd. by rewrite Z.div_mul_cancel_r by lia. Qed.
Lemma mul_mod_mul lb k d : 0 < lb -> 0 < d -> (k * lb) mod (d * lb) = k mod d * lb.
Proof. intros Hl Hd. by rewrite Z.mul_mod_distr_r by lia. Qed.

Section units.
Context (dev : xnvme_dev) (sp : fla_strp_params) (lb n A C b s m : Z) (U : strp_units dev sp lb n A C b s m).

Lemma calc_slba_eq k : 0 <= k < n * (A * C) -> calc_strp_obj_slba (k * lb) sp = Some (strp_block n A C b k - b).
Proof using U.
  intros Hk. destruct U as [Ul Ud Un Uc Uf Ut Us Uss Un' Hlb Hn HC HA Hb Hs Hm Hin Hrow Hsc Hbl].
  unfold calc_strp_obj_slba, calc_chunk_translation. rewrite Uc, Ul, Uf, Ut.
  destruct (strp_split n A C ltac:(lia) HA ltac:(lia) k Hk) as (Ek & Ht & Hq & Hr).
  unfold strp_block. rewrite mul_div_mul, mul_mod_mul by lia. set (q := (k / C) mod n) in *. set (r := k / C / n) in *. set (t := k mod C) in *. set (F := A * C) in *.
  assert (k / C = r * n + q) as Ekq by (pose proof (Z.div_mod (k / C) n ltac:(lia)); unfold q, r; lia).
  destruct (strp_bounds n A C F lb q r t ltac:(lia) HA ltac:(lia) eq_refl ltac:(lia) Ht Hq Hr)
    as ((HF & [HFl HnF] & HAF) & Ht0 & Hz0 & Hz & Hqt & Hrq & Hrc). clearbody F q r t.
  assert (0 < C /\ 0 < n /\ 0 < lb) as (HC0 & Hn0 & Hlb0) by lia. clear - HC0 Hn0 Hlb0 Hsc Ekq HF HFl HnF HAF Ht0 Hz0 Hz Hqt Hrq Hrc.
  rewrite (proj2 (Z.eqb_neq (C * lb) 0)), (proj2 (Z.eqb_neq (n * F * lb) 0)) by nia.
  rewrite Ekq, (u64_small (F * lb)) by (unfold is_u64; lia).
  rewrite (u64_small ((r * n + q) * (F * lb))) by (unfold is_u64; lia). rewrite u64_small by (unfold is_u64; lia). bind_step.
  replace (t * lb + (r * n + q) * (F * lb)) with ((r * (n * F) + (q * F + t)) * lb) by lia.
  rewrite mul_div_mul, mul_mod_mul by nia.
  assert ((r * (n * F) + (q * F + t)) / (n * F) = r) as -> by (symmetry; apply Z.div_unique with (r := q * F + t); lia).
  assert ((r * (n * F) + (q * F + t)) mod (n * F) = q * F + t) as -> by (symmetry; apply Z.mod_unique with (q := r); lia).
  rewrite (u64_small (r * (C * lb))), u64_small by (unfold is_u64; nia). bind_step. rewrite (proj2 (Z.eqb_neq lb 0)) by lia.
  replace ((q * F + t) * lb + r * (C * lb)) with ((q * F + t + r * C) * lb) by lia. rewrite Z.div_mul by lia.
  f_equal. lia.
Qed.

(** The command at buffer position [p] (in blocks) ends with its chunk or with the
    transfer; the object it goes to, counted from the one the transfer starts in; the
    position of the next command of that object; the first position of object [i]. *)
Definition cmd_size (p : Z) : Z := Z.min (C - (s + p) mod C) (m - p).
Definition owner (p : Z) : Z := ((s + p) / C - s / C) mod n.
Definition next_pos (p : Z) : Z := p + cmd_size p + C * (n - 1).
Definition first_pos (i : Z) : Z := if i =? 0 then 0 else i * C - s mod C.

Lemma cmd_size_range p : 0 <= p < m -> 0 < cmd_size p <= C /\ p + cmd_size p <= m /\ (s + p) mod C + cmd_size p <= C.
Proof using U.
  intros Hp. pose proof (su_C _ _ _ _ _ _ _ _ _ U). pose proof (Z.mod_pos_bound (s + p) C ltac:(lia)). unfold cmd_size. lia.
Qed.

Lemma next_pos_spec p : 0 <= p < m -> p < next_pos p /\
  (next_pos p < m -> (s + next_pos p) mod C = 0 /\ owner (next_pos p) = owner p /\
     strp_block n A C b (s + next_pos p) = strp_block n A C b (s + p) + cmd_size p) /\
  forall j, p + cmd_size p <= j < m -> j < next_pos p -> owner j <> owner p.
Proof using U.
  intros Hp. destruct (cmd_size_range p Hp) as (Hz & Hm & Hc). destruct U as [_ _ _ _ _ _ _ _ _ Hlb Hn HC HA Hb Hs _ Hin _ _ _].
  pose proof (Z.div_mod (s + p) C ltac:(lia)) as Ed. pose proof (Z.mod_pos_bound (s + p) C ltac:(lia)) as Hr.
  assert (0 <= C * (n - 1)) as Hcn by (clear - HC Hn; nia). split; [unfold next_pos; lia|]. set (q := (s + p) / C) in *. set (r := (s + p) mod C) in *.
  assert (p + cmd_size p < m -> cmd_size p = C - r) as Hfull by (unfold cmd_size; fold r; lia). split.
  - intros Hlt. assert (cmd_size p = C - r) as Hf by (apply Hfull; unfold next_pos in Hlt; lia).
    assert (s + next_pos p = (q + n) * C) as En by (unfold next_pos; rewrite Hf; lia).
    assert ((s + next_pos p) / C = q + n) as Eq by (rewrite En; apply Z.div_mul; lia).
    rewrite En at 1. rewrite Z.mod_mul by lia. split; [done|]. split.
    + unfold owner. rewrite Eq. fold q. replace (q + n - s / C) with (q - s / C + 1 * n) by lia. by rewrite Z.mod_add by lia.
    + rewrite Hf. unfold strp_block. rewrite Eq, En, Z.mod_mul by lia. fold q r.
      replace (q + n) with (q + 1 * n) by lia. rewrite Z.div_add, Z.mod_add by lia. lia.
  - intros j Hj Hjn He. assert (cmd_size p = C - r) as Hf by (apply Hfull; lia).
    pose proof (Z.div_mod (s + j) C ltac:(lia)) as Ej. pose proof (Z.mod_pos_bound (s + j) C ltac:(lia)) as Hrj. set (qj := (s + j) / C) in *.
    assert (q < qj < q + n) as Hqj by (unfold next_pos in Hjn; rewrite Hf in *; clear - Hjn Ej Ed Hrj Hr Hj HC Hn; nia).
    unfold owner in He. fold q qj in He. pose proof (Z.div_mod (qj - s / C) n ltac:(lia)) as D1. pose proof (Z.div_mod (q - s / C) n ltac:(lia)) as D2.
    rewrite He in D1.
    set (x := (qj - s / C) / n) in *. set (y := (q - s / C) / n) in *. clearbody q qj x y. assert (qj - q = n * (x - y)) as Hx by lia.
    clear - Hx Hqj Hn. destruct (Z.le_gt_cases (x - y) 0); nia.
Qed.

Lemma first_pos_spec i : 0 <= i < n -> 0 <= first_pos i /\ owner (first_pos i) = i /\ (forall j, 0 <= j -> owner j = i -> first_pos i <= j).
Proof using U.
  intros Hi. destruct U as [_ _ _ _ _ _ _ _ _ Hlb Hn HC HA Hb Hs _ _ _ _ _].
  pose proof (Z.div_mod s C ltac:(lia)) as Ed. pose proof (Z.mod_pos_bound s C ltac:(lia)) as Hr.
  assert (0 <= first_pos i) as H0 by (unfold first_pos; destruct (Z.eqb_spec i 0); nia). split; [done|].
  assert ((s + first_pos i) / C = s / C + i) as Eq.
  { unfold first_pos. destruct (Z.eqb_spec i 0) as [->|]; [by rewrite !Z.add_0_r|].
    replace (s + (i * C - s mod C)) with ((s / C + i) * C) by lia. apply Z.div_mul. lia. }
  split; [unfold owner; rewrite Eq; replace (s / C + i - s / C) with i by lia; by apply Z.mod_small|].
  intros j Hj Ho. unfold owner in Ho. pose proof (Z.div_mod (s + j) C ltac:(lia)) as Ej. pose proof (Z.mod_pos_bound (s + j) C ltac:(lia)).
  assert (s / C <= (s + j) / C) by (apply Z.div_le_mono; lia).
  pose proof (Z.mod_le ((s + j) / C - s / C) n ltac:(lia) ltac:(lia)) as Hle. rewrite Ho in Hle.
  unfold first_pos. destruct (Z.eqb_spec i 0); [done|]. nia.
Qed.

(** What the code computes for them. *)
Lemma next_sbuf_eq p z : 0 <= p < 2 ^ 31 -> 0 < z <= C -> calc_strp_obj_next_sbuf_nbytes (p * lb) (z - 1) sp = (p + z + C * (n - 1)) * lb.
Proof using U.
  intros Hp Hz. destruct U as [Ul _ Un Uc _ _ _ _ _ Hlb Hn HC HA _ _ _ _ Hrow _ _]. unfold calc_strp_obj_next_sbuf_nbytes. rewrite Ul, Un, Uc.
  assert (0 < z * lb <= C * lb) as Hzl by (clear - Hz Hlb; nia). assert (0 <= C * lb * (n - 1)) as Hrl by (clear - HC Hlb Hn; nia).
  assert (n * C * lb = C * lb * (n - 1) + C * lb) as En by lia. assert (0 <= p * lb < 2 ^ 63) by (clear - Hp Hlb; nia).
  rewrite (u32_small (n - 1)), (u32_small (C * lb * (n - 1))), (u32_small (z - 1 + 1)) by (unfold is_u32; lia).
  replace (z - 1 + 1) with z by lia. rewrite (u32_small (z * lb)) by (unfold is_u32; lia).
  rewrite (u64_small (p * lb + z * lb)) by (unfold is_u64; lia). rewrite u64_small by (unfold is_u64; lia). lia.
Qed.

Lemma size_nlbs z : 0 < z <= C -> u16 (u64 (z * lb / lb - 1)) = z - 1.
Proof using U.
  intros Hz. destruct U as [_ _ _ _ _ _ _ _ _ Hlb _ HC _ _ _ _ _ _ _ _]. rewrite Z.div_mul by lia.
  rewrite (u64_small (z - 1)) by (unfold is_u64; lia). apply u16_small. unfold is_u16. lia.
Qed.

Lemma fla_min_mul a c : fla_min (a * lb) (c * lb) = Z.min a c * lb.
Proof using U. destruct U as [_ _ _ _ _ _ _ _ _ Hlb _ _ _ _ _ _ _ _ _ _]. unfold fla_min. destruct (Z.ltb_spec (a * lb) (c * lb)); nia. Qed.

Lemma next_nbls_eq p : 0 <= p < m -> (s + p) mod C = 0 -> calc_strp_obj_next_nbls (p * lb) sp = Some (cmd_size p - 1).
Proof using U.
  intros Hp Hc. destruct (cmd_size_range p Hp) as (Hz & _). pose proof U as [Ul _ _ Uc _ _ _ _ Um Hlb Hn HC _ Hb Hs _ Hin _ _ Hbl].
  unfold calc_strp_obj_next_nbls. rewrite Ul, Uc, Um, (proj2 (Z.eqb_neq lb 0)) by lia.
  replace (m * lb - p * lb) with ((m - p) * lb) by lia. rewrite (u64_small ((m - p) * lb)) by (unfold is_u64; nia).
  rewrite fla_min_mul. replace (Z.min C (m - p)) with (cmd_size p) by (unfold cmd_size; rewrite Hc; lia). by rewrite size_nlbs.
Qed.

Lemma first_nlbs_eq p : 0 <= p < m ->
  calc_strp_obj_first_nlbs ((p + s) * lb) sp = Some (Z.min m (C - (s + p) mod C) - 1).
Proof using U.
  intros Hp. pose proof U as [Ul _ _ Uc _ _ _ _ Um Hlb Hn HC _ Hb Hs _ Hin _ _ Hbl].
  pose proof (Z.mod_pos_bound (s + p) C ltac:(lia)) as Hr. unfold calc_strp_obj_first_nlbs.
  rewrite Ul, Uc, Um, (proj2 (Z.eqb_neq lb 0)), (proj2 (Z.eqb_neq (C * lb) 0)) by nia. cbn [orb].
  rewrite mul_mod_mul by lia. replace (p + s) with (s + p) by lia.
  replace (C * lb - (s + p) mod C * lb) with ((C - (s + p) mod C) * lb) by lia.
  rewrite (u64_small ((C - (s + p) mod C) * lb)) by (unfold is_u64; nia). rewrite fla_min_mul, size_nlbs by lia. done.
Qed.

(** The commands of the first round: each object's first one is capped by the whole
    length of the transfer, not by what is left of it.  They fit when the first command
    is the only one, when the transfer ends with a chunk, or when it goes once round. *)
Definition first_round_fits : Prop := m <= C - s mod C \/ (s + m) mod C = 0 \/ n * C <= s mod C + m.

Lemma first_round_size i : 0 <= i < n -> first_pos i < m -> first_round_fits ->
  Z.min m (C - (s + first_pos i) mod C) = cmd_size (first_pos i).
Proof using U.
  intros Hi Hp Hf. destruct (first_pos_spec i Hi) as (H0 & _ & _). pose proof U as [_ _ _ _ _ _ _ _ _ _ Hn HC _ _ Hs _ _ _ _ _].
  pose proof (Z.mod_pos_bound s C ltac:(lia)) as Hr. pose proof (Z.div_mod s C ltac:(lia)) as Ed. unfold cmd_size, first_pos in *.
  destruct (Z.eqb_spec i 0) as [->|Hi0]; [rewrite Z.add_0_r; lia|].
  assert ((s + (i * C - s mod C)) mod C = 0) as ->.
  { replace (s + (i * C - s mod C)) with ((s / C + i) * C) by lia. apply Z.mod_mul. lia. }
  assert (C <= m - (i * C - s mod C)) as Hc; [|lia]. destruct Hf as [Hf|[Hf|Hf]].
  - nia.
  - pose proof (Z.div_mod (s + m) C ltac:(lia)) as Em. rewrite Hf in Em.
    assert (s + m = (s / C + i) * C + (m - (i * C - s mod C))) as E1 by lia.
    set (x := (s + m) / C) in *. clearbody x. assert (m - (i * C - s mod C) = C * (x - (s / C + i))) as Ex by lia.
    set (y := x - (s / C + i)) in *. clearbody y. rewrite Ex in *. clear - Hp Ex HC. assert (0 < C * y) by lia.
    assert (0 < y) by nia. nia.
  - nia.
Qed.

Lemma first_pos_next i : 0 <= i -> first_pos (i + 1) = first_pos i + (C - (s + first_pos i) mod C).
Proof using U.
  intros Hi. pose proof U as [_ _ _ _ _ _ _ _ _ _ _ HC _ _ _ _ _ _ _ _]. pose proof (Z.div_mod s C ltac:(lia)).
  unfold first_pos. destruct (Z.eqb_spec (i + 1) 0); [lia|]. destruct (Z.eqb_spec i 0) as [->|Hi0]; [rewrite Z.add_0_r; lia|].
  replace (s + (i * C - s mod C)) with ((s / C + i) * C) by lia. rewrite Z.mod_mul by lia. lia.
Qed.

Lemma first_pos_mono i j : 0 <= i <= j -> first_pos i <= first_pos j.
Proof using U.
  intros Hij. pose proof U as [_ _ _ _ _ _ _ _ _ _ _ HC _ _ _ _ _ _ _ _]. pose proof (Z.mod_pos_bound s C ltac:(lia)).
  unfold first_pos. destruct (Z.eqb_spec i 0), (Z.eqb_spec j 0); nia.
Qed.
End units.
