(* ===== verification/StripedIO.v ===== *)
(** * StripedIO: what a striped transfer does

    The commands of a striped transfer complete in any order.  The invariant says
    that every block of the transfer whose command has completed without error is
    the same on the device and in the buffer; since commands of different objects
    touch different blocks no order of completions disturbs it.  [XnvmeQueueLaws] is
    what is assumed of the queue. *)
From S2P Require Import Prelude Util XnvmeEnv Striping.

(** ** Parts of buffers *)

(** Part of a list in which [x] was put at [i]. *)
Section put.
Context {T : Type} (l x : list T) (i d k : nat).
Local Notation put := (take i l ++ x ++ drop (i + length x) l).

Lemma put_before : (d + k <= i <= length l)%nat -> take k (drop d put) = take k (drop d l).
Proof using.
  intros Hi. rewrite drop_app_le by (rewrite length_take; lia). rewrite take_app_le by (rewrite length_drop, length_take; lia).
  rewrite !take_drop_commute, take_take. by rewrite Nat.min_l by lia.
Qed.
Lemma put_after : (i + length x <= d)%nat -> (i + length x <= length l)%nat -> drop d put = drop d l.
Proof using.
  intros Hd Hl. rewrite drop_app_ge by (rewrite length_take; lia). rewrite drop_app_ge by (rewrite length_take; lia).
  rewrite drop_drop, length_take. f_equal. lia.
Qed.
Lemma put_inside : (i <= d)%nat -> (d + k <= i + length x)%nat -> (i <= length l)%nat -> take k (drop d put) = take k (drop (d - i) x).
Proof using.
  intros Hd Hk Hl. rewrite drop_app_ge by (rewrite length_take; lia). rewrite length_take, Nat.min_l by lia.
  rewrite drop_app_le by lia. by rewrite take_app_le by (rewrite length_drop; lia).
Qed.
End put.

Lemma part_of_part {T} (l : list T) q z d k : (d + k <= z)%nat -> take k (drop d (take z (drop q l))) = take k (drop (q + d) l).
Proof. intros Hz. rewrite take_drop_commute, take_take, Nat.min_l by done. by rewrite <- take_drop_commute, drop_drop. Qed.

(** One block of several. *)
Lemma concat_blocks_nth blk t0 k (t lb : nat) : (forall lba, length (blk lba) = lb) -> (t < k)%nat ->
  take lb (drop (t * lb) (concat_blocks blk t0 k)) = blk (t0 + Z.of_nat t).
Proof.
  intros Hl Ht. assert (forall s0 i, length (concat_blocks blk s0 i) = (i * lb)%nat) as Hlen.
  { intros s0 i. apply Nat2Z.inj. rewrite Nat2Z.inj_mul. apply concat_blocks_length; [lia|]. intros. by rewrite Hl. }
  replace k with (t + (1 + (k - t - 1)))%nat by lia. rewrite !concat_blocks_app. rewrite drop_app_length' by (symmetry; apply Hlen).
  rewrite take_app_length' by (rewrite Hlen; lia). unfold concat_blocks. cbn. by rewrite Z.add_0_r, app_nil_r.
Qed.

(** ** What is assumed of the queue *)

(** The queue's own operations change no block; what completes next is one of the
    commands in flight, and draining returns a count only when none is left; the queue
    is busy only a bounded number of times. *)
Class XnvmeQueueLaws (W : Type) `{XnvmeEnv W} `{XnvmeQueue W} (block : W -> xnvme_dev -> Z -> list Z) := {
  queue_init_frame : forall w dev n w' e, xnvme_queue_init w dev n = (w', e) -> forall d lba, block w' d lba = block w d lba;
  queue_term_frame : forall w w' e, xnvme_queue_term w = (w', e) -> forall d lba, block w' d lba = block w d lba;
  queue_ctx_frame : forall w w' e, xnvme_queue_get_cmd_ctx w = (w', e) -> forall d lba, block w' d lba = block w d lba;
  queue_submit_frame : forall w w' e, xnvme_queue_submit w = (w', e) -> forall d lba, block w' d lba = block w d lba;
  queue_poke_frame : forall w n w' r, xnvme_queue_poke w n = (w', r) -> forall d lba, block w' d lba = block w d lba;
  queue_drain_frame : forall w n w' r, xnvme_queue_drain w n = (w', r) -> forall d lba, block w' d lba = block w d lba;
  queue_poke_next : forall w n w' k, xnvme_queue_poke w n = (w', inr k) -> (k < n)%nat;
  queue_drain_next : forall w n w' k, xnvme_queue_drain w n = (w', inr k) -> (k < n)%nat;
  queue_drained : forall w n w' r, xnvme_queue_drain w n = (w', inl r) -> 0 <= r -> n = 0%nat;
  queue_patience : W -> nat;
  patience_init : forall w dev n w' e, xnvme_queue_init w dev n = (w', e) -> (queue_patience w' <= queue_patience w)%nat;
  patience_ctx : forall w w' e, xnvme_queue_get_cmd_ctx w = (w', e) -> (queue_patience w' <= queue_patience w)%nat;
  patience_submit : forall w w' e, xnvme_queue_submit w = (w', e) -> (queue_patience w' <= queue_patience w)%nat;
  patience_busy : forall w w' e, xnvme_queue_submit w = (w', e) -> e = - EBUSY \/ e = - EAGAIN ->
    (queue_patience w' < queue_patience w)%nat;
  patience_poke : forall w n w' r, xnvme_queue_poke w n = (w', r) -> (queue_patience w' <= queue_patience w)%nat;
  patience_drain : forall w n w' r, xnvme_queue_drain w n = (w', r) -> (queue_patience w' <= queue_patience w)%nat;
  patience_write : forall w dev slba nlb buf w' e, xnvme_nvm_write w dev slba nlb buf = (w', e) ->
    (queue_patience w' <= queue_patience w)%nat;
  patience_read : forall w dev slba nlb w' e data, xnvme_nvm_read w dev slba nlb = (w', e, data) ->
    (queue_patience w' <= queue_patience w)%nat
}.

(** A queue, a device and a preparation of commands that fail nothing. *)
Record reliable {W : Type} `{XnvmeEnv W} `{XnvmeQueue W} (prep : option (W -> W * Z)) : Prop := {
  rl_prep : forall f w, prep = Some f -> (f w).2 = 0;
  rl_init : forall w dev n, (xnvme_queue_init w dev n).2 = 0;
  rl_term : forall w, (xnvme_queue_term w).2 = 0;
  rl_ctx : forall w, (xnvme_queue_get_cmd_ctx w).2 = inr tt;
  rl_submit : forall w, (xnvme_queue_submit w).2 = 0;
  rl_drain : forall w n w' r, xnvme_queue_drain w n = (w', inl r) -> 0 <= r;
  rl_write : forall w dev slba nlb buf, cmd_failed (xnvme_nvm_write w dev slba nlb buf).2 = false;
  rl_read : forall w dev slba nlb, cmd_failed (xnvme_nvm_read w dev slba nlb).1.2 = false
}.

Section transfer.
Context {W : Type} `{E : XnvmeEnv W} `{Q : XnvmeQueue W} (block : W -> xnvme_dev -> Z -> list Z).
Context `{!XnvmeLaws W block} `{!XnvmeQueueLaws W block}.
Context (dev : xnvme_dev) (sp : fla_strp_params) (lb n A C b s m : Z) (U : strp_units dev sp lb n A C b s m).
Context (prep : option (W -> W * Z)) (Hprep : forall f w w' e, prep = Some f -> f w = (w', e) ->
  (forall d lba, block w' d lba = block w d lba) /\ (queue_patience w' <= queue_patience w)%nat).

Local Notation xfer := (xfer (W := W)).
Local Notation at_block p := (strp_block n A C b (s + p)).
Local Notation size := (cmd_size C s m).
Local Notation owner := (owner n C s).
Local Notation next := (next_pos n C s m).
Local Notation first := (first_pos C s).

(** Block [j] of the buffer. *)
Definition buf_block (buf : list Z) (j : Z) : list Z := take (Z.to_nat lb) (drop (Z.to_nat (j * lb)) buf).
(** Block [j] of the transfer is the same on both sides. *)
Definition agree (x : xfer) (j : Z) : Prop := block (x_w x) dev (at_block j) = buf_block (x_buf x) j.

(** From [x] to [x'] no blocks but those at the positions [P] of the transfer have
    changed, on the side that is written. *)
Record keeps (P : Z -> Prop) (x x' : xfer) : Prop := {
  ke_len : length (x_buf x') = length (x_buf x);
  ke_blocks : forall d lba, dev_id d <> dev_id dev \/ (forall j, P j -> lba <> at_block j) ->
    block (x_w x') d lba = block (x_w x) d lba;
  ke_buf : forall j, 0 <= j -> ~ P j -> buf_block (x_buf x') j = buf_block (x_buf x) j;
  ke_side : if sp_write sp then x_buf x' = x_buf x else forall d lba, block (x_w x') d lba = block (x_w x) d lba
}.

Lemma keeps_trans (P : Z -> Prop) x1 x2 x3 : keeps P x1 x2 -> keeps P x2 x3 -> keeps P x1 x3.
Proof using.
  intros [L1 B1 F1 S1] [L2 B2 F2 S2]. split; [congruence| | |].
  - intros d lba Hd. by rewrite B2, B1.
  - intros j Hj Hp. by rewrite F2, F1.
  - destruct (sp_write sp); [congruence|]. intros d lba. by rewrite S2.
Qed.

Lemma keeps_weaken (P P' : Z -> Prop) x x' : (forall j, P j -> P' j) -> keeps P x x' -> keeps P' x x'.
Proof using.
  intros Hp [L B F S]. split; [done| | |done].
  - intros d lba Hd. apply B. destruct Hd as [|Hd]; [by left|right]. intros j Hj. by apply Hd, Hp.
  - intros j Hj Hn. apply F; [done|]. by intros ?%Hp.
Qed.

(** A step of the queue alone. *)
Lemma keeps_quiet P x x' : x_buf x' = x_buf x -> (forall d lba, block (x_w x') d lba = block (x_w x) d lba) -> keeps P x x'.
Proof using. intros Eb Ew. split; rewrite ?Eb; try done. by destruct (sp_write sp). Qed.

(** Positions that are not touched still agree. *)
Lemma keeps_agree (P : Z -> Prop) x x' j : (forall i, P i -> 0 <= i < m) -> keeps P x x' -> 0 <= j < m -> ~ P j -> agree x j -> agree x' j.
Proof using U.
  intros HP [_ B F _] Hj Hn Ha. unfold agree in *. rewrite F by (done || lia). rewrite <- Ha. apply B. right. intros i Hi Heq.
  destruct U as [_ _ _ _ _ _ _ _ _ _ Hn0 HC HA _ Hs _ Hin _ _ _]. specialize (HP i Hi).
  assert (s + j = s + i) by (eapply (strp_block_inj n A C b); [..|exact Heq]; lia). replace i with j in Hi by lia. done.
Qed.

(** The arguments [c] describe the command at position [p]. *)
Record at_pos (c : fla_async_strp_cb_args) (p : Z) : Prop := {
  ap_range : 0 <= p < m;
  ap_sbuf : cb_sbuf_nbytes c = p * lb;
  ap_slba : cb_slba c = at_block p;
  ap_nlbs : cb_nlbs c = size p - 1
}.
Definition cmd_at (p j : Z) : Prop := p <= j < p + size p.

Lemma strp_block_len w lba : length (block w dev lba) = Z.to_nat lb.
Proof using U XnvmeLaws0.
  pose proof (su_lb _ _ _ _ _ _ _ _ _ U). pose proof (su_dev _ _ _ _ _ _ _ _ _ U) as Ud. apply Nat2Z.inj. rewrite block_length by lia. lia.
Qed.

(** The addresses of one command. *)
Lemma cmd_addr p j : 0 <= p < m -> cmd_at p j -> at_block j = at_block p + (j - p).
Proof using U.
  intros Hp [Hj Hj2]. destruct (cmd_size_range dev sp lb n A C b s m U p Hp) as (_ & _ & Hc).
  destruct U as [_ _ _ _ _ _ _ _ _ _ _ HC _ _ _ _ _ _ _ _]. replace (s + j) with (s + p + (j - p)) by lia. apply strp_block_add; lia.
Qed.

Lemma perform_spec c x p : at_pos c p -> m * lb <= Z.of_nat (length (x_buf x)) ->
  exists x' failed, perform dev sp c x = (x', failed) /\ x_args x' = x_args x /\ x_flight x' = x_flight x /\
    keeps (cmd_at p) x x' /\ (queue_patience (x_w x') <= queue_patience (x_w x))%nat /\
    (failed = false -> forall j, cmd_at p j -> agree x' j) /\ (reliable prep -> failed = false).
Proof using All.
  intros [Hp Hs Hb Hn] Hlen. destruct (cmd_size_range dev sp lb n A C b s m U p Hp) as (Hz & Hpm & _).
  pose proof (su_lb _ _ _ _ _ _ _ _ _ U) as Hlb. pose proof (su_dev _ _ _ _ _ _ _ _ _ U) as Ud.
  assert ((p + size p) * lb <= m * lb) as Hfit by nia. assert (0 <= p * lb) by nia.
  assert (cmd_nbytes dev c = size p * lb) as Hcn by (unfold cmd_nbytes; rewrite Hn, Ud; lia).
  unfold perform. destruct (sp_write sp) eqn:Ewr.
  - destruct (xnvme_nvm_write (x_w x) dev (cb_slba c) (cb_nlbs c) (cmd_slice dev c (x_buf x))) as [w e] eqn:Ew.
    eexists _, _. split; [done|]. do 2 (split; [done|]). unfold cmd_slice in Ew. rewrite Hcn, Hs, Hb, Hn in Ew. split; [|split; [|split]].
    + split; [done| |done|by rewrite Ewr]. intros d lba Hd. cbn. eapply write_frame; [|exact Ew|]; [lia|]. destruct Hd as [|Hd]; [by left|right].
      destruct (decide (lba < at_block p)); [by left|right]. destruct (decide (at_block p + (size p - 1) < lba)); [done|exfalso].
      apply (Hd (p + (lba - at_block p))); [split; lia|]. rewrite (cmd_addr p); [lia|done|split; lia].
    + cbn. by eapply patience_write.
    + intros He j Hj. unfold agree, buf_block. cbn.
      apply (write_ok (block := block)) in Ew; [|lia|lia|rewrite length_take, length_drop; lia|done].
      replace (size p - 1 + 1) with (size p) in Ew by lia. rewrite (cmd_addr p j Hp Hj). destruct Hj as [Hj1 Hj2].
      rewrite <- (Z2Nat.id (j - p)) at 1 by lia.
      rewrite <- (concat_blocks_nth (block w dev) (at_block p) (Z.to_nat (size p)) (Z.to_nat (j - p)) (Z.to_nat lb)), Ew by (lia || apply strp_block_len).
      rewrite part_of_part by nia. do 2 f_equal. nia.
    + intros R. pose proof (rl_write _ R (x_w x) dev (at_block p) (size p - 1) (take (Z.to_nat (size p * lb)) (drop (Z.to_nat (p * lb)) (x_buf x)))) as Hr.
      by rewrite Ew in Hr.
  - destruct (xnvme_nvm_read (x_w x) dev (cb_slba c) (cb_nlbs c)) as [[w e] data] eqn:Er. rewrite Hb, Hn in Er.
    eexists _, _. split; [done|]. do 2 (split; [done|]).
    pose proof (read_frame (block := block) _ _ _ _ _ _ _ Er) as Hfr. rewrite Hs.
    assert (cmd_failed e = false -> data = concat_blocks (block w dev) (at_block p) (Z.to_nat (size p)) /\
      Z.of_nat (length data) = size p * lb) as Hdata.
    { intros He. apply (read_ok (block := block)) in Er; [|lia|lia|done]. replace (size p - 1 + 1) with (size p) in Er by lia. split.
      - rewrite Er. apply concat_blocks_ext. intros. by rewrite Hfr.
      - rewrite Er. rewrite (concat_blocks_length _ _ _ lb); [lia|lia|]. intros. rewrite strp_block_len. lia. }
    split; [|split; [|split]].
    + split; [|intros d lba _; apply Hfr| |rewrite Ewr; apply Hfr].
      * cbn. destruct (cmd_failed e); [done|]. destruct (Hdata eq_refl) as [_ Hl]. rewrite !length_app, length_take, length_drop. lia.
      * intros j Hj Hnj. cbn. destruct (cmd_failed e); [done|]. destruct (Hdata eq_refl) as [_ Hl]. unfold buf_block, cmd_at in *.
        destruct (decide (j < p)) as [Hlt|Hge]; [apply put_before; nia|]. rewrite put_after by nia. done.
    + cbn. by eapply patience_read.
    + intros He j Hj. rewrite He. destruct (Hdata He) as [Ed Hl]. unfold agree, buf_block. cbn. rewrite (cmd_addr p j Hp Hj).
      destruct Hj as [Hj1 Hj2]. rewrite put_inside by nia. rewrite Ed.
      replace (Z.to_nat (j * lb) - Z.to_nat (p * lb))%nat with (Z.to_nat (j - p) * Z.to_nat lb)%nat by nia.
      rewrite concat_blocks_nth by (lia || apply strp_block_len). f_equal. lia.
    + intros R. pose proof (rl_read _ R (x_w x) dev (at_block p) (size p - 1)) as Hr. by rewrite Er in Hr.
Qed.

(** ** The invariant *)

(** Of an object whose arguments count no error every block before the position they
    have reached agrees. *)
Definition settled (x : xfer) : Prop := forall i c, x_args x !! i = Some c -> cb_ecount c = 0 ->
  forall j, 0 <= j < m -> owner j = Z.of_nat i -> j * lb < cb_sbuf_nbytes c -> agree x j.

(** The arguments at [i] belong to a command of object [i]. *)
Definition running_at (x : xfer) (i : nat) : Prop :=
  exists c p, x_args x !! i = Some c /\ at_pos c p /\ owner p = Z.of_nat i /\ 0 <= cb_ecount c <= p.

(** A transfer that began as [x0] and has started the first [t] objects. *)
Record strp_inv (x0 : xfer) (t : Z) (x : xfer) : Prop := {
  iv_args : length (x_args x) = 512%nat;
  iv_keeps : keeps (fun j => 0 <= j < m) x0 x;
  iv_nodup : NoDup (x_flight x);
  iv_flight : forall i, i ∈ x_flight x -> Z.of_nat i < t /\ running_at x i;
  iv_settled : settled x;
  iv_reliable : reliable prep -> forall i c, x_args x !! i = Some c ->
    cb_ecount c = 0 /\ (Z.of_nat i < t -> i ∈ x_flight x \/ m * lb <= cb_sbuf_nbytes c)
}.

(** The bytes the objects with a command in flight have left. *)
Definition bytes_left (args : list fla_async_strp_cb_args) (i : nat) : nat :=
  from_option (fun c => Z.to_nat (m * lb - cb_sbuf_nbytes c)) 0%nat (args !! i).
Definition work (x : xfer) : nat := sum_list_with (bytes_left (x_args x)) (x_flight x).

(** A command is accepted and in flight, or refused. *)
Lemma submit_spec i x c p : x_args x !! i = Some c -> at_pos c p -> m * lb <= Z.of_nat (length (x_buf x)) ->
  exists w err, submit dev i x =
      Some (if err =? 0 then mk_xfer w (<[i := mk_cb (cb_slba c) (cb_nlbs c) (cb_sbuf_nbytes c) (cb_ecount c) (cb_completed c)
                                                (u32 (cb_submitted c + 1))]> (x_args x)) (x_flight x ++ [i]) (x_buf x)
            else set_w w x, err) /\
    (forall d lba, block w d lba = block (x_w x) d lba) /\ (queue_patience w <= queue_patience (x_w x))%nat /\
    (err = - EBUSY \/ err = - EAGAIN -> (queue_patience w < queue_patience (x_w x))%nat) /\ (reliable prep -> err = 0).
Proof using U XnvmeQueueLaws0.
  intros Hc [Hp Hs Hb Hn] Hlen. destruct (cmd_size_range dev sp lb n A C b s m U p Hp) as (Hz & Hpm & _).
  pose proof (su_lb _ _ _ _ _ _ _ _ _ U) as Hlb. pose proof (su_dev _ _ _ _ _ _ _ _ _ U) as Ud.
  unfold submit. rewrite Hc. bind_step. unfold cmd_inside, cmd_nbytes. rewrite Hn, Hs, Ud, (proj2 (Z.leb_le _ _)) by nia. cbn [negb].
  destruct (xnvme_queue_submit (x_w x)) as [w err] eqn:Eq. exists w, err. split; [by destruct (Z.eqb_spec err 0) as [->|]|].
  split; [by eapply queue_submit_frame|]. split; [by eapply patience_submit|]. split; [by eapply patience_busy|].
  intros R. pose proof (rl_submit _ R (x_w x)) as Hr. by rewrite Eq in Hr.
Qed.

(** Which arguments are in flight, and how far they are, is all the invariant needs. *)
Lemma agree_quiet x x' j : x_buf x' = x_buf x -> (forall d lba, block (x_w x') d lba = block (x_w x) d lba) -> agree x j -> agree x' j.
Proof using. unfold agree. intros -> Hb. by rewrite Hb. Qed.

Lemma owner_cmd p j : 0 <= p < m -> cmd_at p j -> owner j = owner p.
Proof using U.
  intros Hp [Hj1 Hj2]. destruct (cmd_size_range dev sp lb n A C b s m U p Hp) as (_ & _ & Hc).
  destruct U as [_ _ _ _ _ _ _ _ _ _ _ HC _ _ _ _ _ _ _ _]. unfold Striping.owner. do 2 f_equal. symmetry.
  pose proof (Z.mod_pos_bound (s + p) C ltac:(lia)). pose proof (Z.div_mod (s + p) C ltac:(lia)).
  apply Z.div_unique with (r := (s + p) mod C + (j - p)); lia.
Qed.

Lemma cmd_at_range p j : 0 <= p < m -> cmd_at p j -> 0 <= j < m.
Proof using U. intros Hp [Hj1 Hj2]. destruct (cmd_size_range dev sp lb n A C b s m U p Hp) as (_ & Hm & _). lia. Qed.

(** The error count after a completion. *)
Definition ecount_after (failed : bool) (e : Z) : Z := if failed then u32 (e + 1) else e.
Lemma ecount_after_spec failed e p : 0 <= e <= p -> p < m -> 0 <= ecount_after failed e <= p + 1 /\
  (ecount_after failed e = 0 -> failed = false /\ e = 0).
Proof using U.
  intros He Hp. destruct U as [_ _ _ _ _ _ _ _ _ _ _ _ _ Hb Hs _ Hin _ _ Hbl]. unfold ecount_after. destruct failed; [|by split; [lia|]].
  rewrite u32_small by (unfold is_u32; lia). lia.
Qed.

(** One object has moved on by one command. *)
Lemma settled_advance x x1 i c p failed c1 : settled x -> x_args x !! i = Some c -> at_pos c p -> owner p = Z.of_nat i ->
  0 <= cb_ecount c <= p -> keeps (cmd_at p) x x1 -> x_args x1 = x_args x -> (failed = false -> forall j, cmd_at p j -> agree x1 j) ->
  cb_sbuf_nbytes c1 = next p * lb -> cb_ecount c1 = ecount_after failed (cb_ecount c) -> settled (set_arg i c1 x1).
Proof using U.
  intros Hst Hc [Hp Hs _ _] Ho He Hk Ea Hag Hs1 He1 i' c' Hc' H0 j Hj Hoj Hlt. change (agree x1 j). cbn in Hc'. rewrite Ea in Hc'.
  pose proof (su_lb _ _ _ _ _ _ _ _ _ U) as Hlb. destruct (ecount_after_spec failed _ p He (proj2 Hp)) as [_ Hz].
  assert (settled x -> ~ cmd_at p j -> (exists c0, x_args x !! i' = Some c0 /\ cb_ecount c0 = 0 /\ j * lb < cb_sbuf_nbytes c0) -> agree x1 j) as Hold.
  { intros _ Hn (c0 & Hc0 & H00 & Hl0). apply (keeps_agree (cmd_at p) x x1 j); [intros i0; by apply cmd_at_range|exact Hk|done|done|]. by eapply (Hst i' c0). }
  destruct (decide (i' = i)) as [->|Hne].
  - rewrite list_lookup_insert_eq in Hc' by (by eapply lookup_lt_Some). injection Hc' as <-. rewrite He1 in H0. destruct (Hz H0) as [-> H00].
    rewrite Hs1 in Hlt. destruct (decide (cmd_at p j)) as [Hcm|Hcm]; [by apply Hag|].
    destruct (decide (j < p)) as [Hjp|Hjp]; [apply Hold; [done|done|exists c; rewrite Hs; split; [done|split; [done|nia]]]|].
    exfalso. destruct (next_pos_spec dev sp lb n A C b s m U p Hp) as (_ & _ & Hno). unfold cmd_at in Hcm. apply (Hno j); [lia|nia|congruence].
  - rewrite list_lookup_insert_ne in Hc' by done. apply Hold; [done| |by exists c']. intros Hcm. apply Hne, Nat2Z.inj.
    rewrite <- Hoj, <- Ho. by apply owner_cmd.
Qed.

(** Nothing but counters of submissions has changed. *)
Lemma settled_quiet x x' : settled x -> x_buf x' = x_buf x -> (forall d lba, block (x_w x') d lba = block (x_w x) d lba) ->
  (forall i c', x_args x' !! i = Some c' -> exists c, x_args x !! i = Some c /\ cb_sbuf_nbytes c' = cb_sbuf_nbytes c /\ cb_ecount c' = cb_ecount c) ->
  settled x'.
Proof using.
  intros Hst Hb Hw Ha i c' Hc' H0 j Hj Ho Hl. destruct (Ha i c' Hc') as (c & Hc & Es & Ee). eapply agree_quiet; [done|done|].
  eapply (Hst i c); rewrite ?Es, ?Ee in *; done.
Qed.

(** The callback's bookkeeping. *)
Lemma callback_next x i c p failed : x_args x !! i = Some c -> at_pos c p -> next p < m ->
  exists c1, at_pos c1 (next p) /\ cb_ecount c1 = ecount_after failed (cb_ecount c) /\
    fla_async_strp_cb dev sp i failed x = r ← submit dev i (set_arg i c1 x); Some r.1.
Proof using U.
  intros Hc [Hp Hs Hb Hn] Hnx. destruct (cmd_size_range dev sp lb n A C b s m U p Hp) as (Hz & Hpm & _).
  destruct (next_pos_spec dev sp lb n A C b s m U p Hp) as (Hgt & Hmod & _). destruct (Hmod Hnx) as (Hm0 & _ & Hblk).
  pose proof U as [_ _ _ _ _ _ _ _ Um Hlb Hn0 HC HA Hb0 Hs0 _ Hin _ _ Hbl].
  pose proof (strp_block_range n A C b ltac:(lia) HA ltac:(lia) (s + p) ltac:(lia)) as Hrange.
  unfold fla_async_strp_cb. rewrite Hc. bind_step. rewrite Hs, Hn, (next_sbuf_eq dev sp lb n A C b s m U p (size p)) by lia. fold (next p).
  rewrite Um, (proj2 (Z.ltb_lt _ _)) by nia. rewrite (next_nbls_eq dev sp lb n A C b s m U) by (done || lia). bind_step.
  exists (mk_cb (u64 (cb_slba c + (size p - 1 + 1))) (size (next p) - 1) (next p * lb) (ecount_after failed (cb_ecount c))
    (u32 (cb_completed c + 1)) (cb_submitted c)).
  split; [|split; [done|]]; [|unfold ecount_after; by destruct (submit _ _ _) as [[? ?]|]]. split; cbn; [lia|done| |done].
  rewrite Hblk, Hb. replace (size p - 1 + 1) with (size p) by lia. apply u64_small. unfold is_u64. lia.
Qed.

Lemma callback_last x i c p failed : x_args x !! i = Some c -> at_pos c p -> m <= next p ->
  exists c1, cb_sbuf_nbytes c1 = next p * lb /\ cb_ecount c1 = ecount_after failed (cb_ecount c) /\
    fla_async_strp_cb dev sp i failed x = Some (set_arg i c1 x).
Proof using U.
  intros Hc [Hp Hs Hb Hn] Hnx. destruct (cmd_size_range dev sp lb n A C b s m U p Hp) as (Hz & Hpm & _).
  pose proof U as [_ _ _ _ _ _ _ _ Um Hlb Hn0 HC HA Hb0 Hs0 _ Hin _ _ Hbl].
  unfold fla_async_strp_cb. rewrite Hc. bind_step. rewrite Hs, Hn, (next_sbuf_eq dev sp lb n A C b s m U p (size p)) by lia. fold (next p).
  rewrite Um, (proj2 (Z.ltb_ge _ _)) by nia.
  exists (mk_cb (cb_slba c) (size p - 1) (next p * lb) (ecount_after failed (cb_ecount c)) (u32 (cb_completed c + 1)) (cb_submitted c)). done.
Qed.

(** What one completion, or several, leave. *)
Definition moved_on (x0 : xfer) (t : Z) (x x' : xfer) : Prop :=
  strp_inv x0 t x' /\ length (x_buf x') = length (x_buf x) /\ (queue_patience (x_w x') <= queue_patience (x_w x))%nat /\
  forall i, i ∉ x_flight x -> x_args x' !! i = x_args x !! i /\ i ∉ x_flight x'.

(** ** A completion *)

(** The command of object [i] was at position [k] of those in flight. *)
Section step.
Context (x0 x : xfer) (t : Z) (k i : nat) (c : fla_async_strp_cb_args) (p : Z).
Context (I : strp_inv x0 t x) (Hk : x_flight x !! k = Some i) (Hc : x_args x !! i = Some c) (Hat : at_pos c p).
Context (Ho : owner p = Z.of_nat i) (He : 0 <= cb_ecount c <= p).

Lemma flight_split : i ∉ delete k (x_flight x) /\ NoDup (delete k (x_flight x)) /\
  (forall j, j ∈ x_flight x <-> j = i \/ j ∈ delete k (x_flight x)) /\
  forall f, sum_list_with f (x_flight x) = (f i + sum_list_with f (delete k (x_flight x)))%nat.
Proof using I Hk.
  pose proof (delete_Permutation _ _ _ Hk) as Hp. pose proof (iv_nodup _ _ _ I) as Hnd. rewrite Hp in Hnd. apply NoDup_cons in Hnd as [? ?].
  do 2 (split; [done|]). split; [|intros f; by rewrite Hp at 1]. intros j. rewrite Hp at 1. apply elem_of_cons.
Qed.

Context (x1 x' : xfer) (failed inflight : bool) (c2 : fla_async_strp_cb_args).
Context (Hke : keeps (cmd_at p) x x1) (Hag : failed = false -> forall j, cmd_at p j -> agree x1 j) (Hrf : reliable prep -> failed = false).
Context (Ha : x_args x' = <[i := c2]> (x_args x)) (Hfl : x_flight x' = delete k (x_flight x) ++ (if inflight then [i] else [])).
Context (Hbuf : x_buf x' = x_buf x1) (Hbl : forall d lba, block (x_w x') d lba = block (x_w x1) d lba).
Context (Hs2 : cb_sbuf_nbytes c2 = next p * lb) (He2 : cb_ecount c2 = ecount_after failed (cb_ecount c)).
Context (Hif : inflight = true -> at_pos c2 (next p)) (Hri : reliable prep -> inflight = true \/ m <= next p).

Lemma args_other j : j <> i -> x_args x' !! j = x_args x !! j.
Proof using Ha. intros Hj. rewrite Ha. by apply list_lookup_insert_ne. Qed.
Lemma args_this : x_args x' !! i = Some c2.
Proof using Ha Hc. rewrite Ha. apply list_lookup_insert_eq. by eapply lookup_lt_Some. Qed.

Lemma advance_settled : settled x'.
Proof using U I Hc Hat Ho He Hke Hag Ha Hbuf Hbl Hs2 He2.
  apply (settled_quiet (mk_xfer (x_w x1) (x_args x') (x_flight x1) (x_buf x1))); [|done|done|by intros j c' Hj; exists c'].
  assert (settled (set_arg i c2 (mk_xfer (x_w x1) (x_args x) (x_flight x1) (x_buf x1)))) as Hst.
  { apply (settled_advance x _ i c p failed c2 (iv_settled _ _ _ I) Hc Hat Ho He); [|done|exact Hag|done|done].
    destruct Hke as [? ? ? ?]. by split. }
  unfold set_arg in Hst. cbn in Hst. by rewrite <- Ha in Hst.
Qed.

Lemma advance_inv : strp_inv x0 t x' /\ (work x' < work x)%nat.
Proof using All.
  destruct flight_split as (Hni & Hnd & Hel & Hsum). destruct (next_pos_spec dev sp lb n A C b s m U p (ap_range _ _ Hat)) as (Hgt & Hnx & _).
  pose proof (su_lb _ _ _ _ _ _ _ _ _ U) as Hlb. destruct Hat as [Hp Hsb _ _]. destruct (iv_flight _ _ _ I i) as [Hit _]; [by apply Hel; left|].
  assert (forall j, j ∈ x_flight x' -> (j = i /\ inflight = true) \/ (j <> i /\ j ∈ delete k (x_flight x))) as Hfl'.
  { intros j. rewrite Hfl. intros [Hj|Hj]%elem_of_app; [right; split; [by intros ->|done]|left]. destruct inflight; [|by apply not_elem_of_nil in Hj].
    by apply list_elem_of_singleton in Hj. }
  split; [split|].
  - rewrite Ha, length_insert. apply I.
  - apply (keeps_trans _ _ x1); [|by apply keeps_quiet]. apply (keeps_trans _ _ x); [apply I|].
    eapply keeps_weaken; [|exact Hke]. intros j. by apply cmd_at_range.
  - rewrite Hfl. destruct inflight; [|by rewrite app_nil_r]. apply NoDup_app. split; [done|]. split; [|apply NoDup_singleton].
    intros j Hj ->%list_elem_of_singleton. done.
  - intros j [[-> Hi]|[Hne Hj]]%Hfl'; [split; [done|]|].
    + exists c2, (next p). rewrite args_this. split; [done|]. pose proof (Hif Hi) as Hc2. split; [done|].
      destruct (Hnx (proj2 (ap_range _ _ Hc2))) as (_ & Ho' & _). split; [congruence|]. rewrite He2.
      destruct (ecount_after_spec failed _ p He (proj2 Hp)) as [? _]. lia.
    + destruct (iv_flight _ _ _ I j) as [Hjt (c' & p' & Hc' & Hrest)]; [by apply Hel; right|]. split; [done|]. exists c', p'. by rewrite args_other.
  - exact advance_settled.
  - intros R j c' Hc'. destruct (decide (j = i)) as [->|Hne].
    + rewrite args_this in Hc'. injection Hc' as <-. destruct (iv_reliable _ _ _ I R i c Hc) as [H0 _]. split.
      * rewrite He2, (Hrf R). exact H0.
      * intros _. rewrite Hs2. destruct (Hri R) as [->|?]; [left|right; nia]. rewrite Hfl. apply elem_of_app. right. by left.
    + rewrite args_other in Hc' by done. destruct (iv_reliable _ _ _ I R j c' Hc') as [? Hjf]. split; [done|].
      intros Hj. destruct (Hjf Hj) as [Hin|]; [left|by right]. apply Hel in Hin as [?|?]; [done|]. rewrite Hfl. apply elem_of_app. by left.
  - unfold work. rewrite (Hsum (bytes_left (x_args x))), Hfl, sum_list_with_app.
    assert (sum_list_with (bytes_left (x_args x')) (delete k (x_flight x)) = sum_list_with (bytes_left (x_args x)) (delete k (x_flight x))) as ->.
    { clear - Hni Ha. induction (delete k (x_flight x)) as [|j l IH]; [done|]. apply not_elem_of_cons in Hni as [Hne Hni]. cbn. rewrite IH by done.
      f_equal. unfold bytes_left. by rewrite args_other by (by apply not_eq_sym). }
    assert (bytes_left (x_args x) i = Z.to_nat (m * lb - p * lb)) as -> by (unfold bytes_left; by rewrite Hc; cbn; rewrite Hsb).
    assert (bytes_left (x_args x') i = Z.to_nat (m * lb - next p * lb)) as Hl' by (unfold bytes_left; by rewrite args_this; cbn; rewrite Hs2).
    assert (Z.to_nat (m * lb - next p * lb) < Z.to_nat (m * lb - p * lb))%nat by nia. destruct inflight; cbn; lia.
Qed.

Lemma advance_moved : (queue_patience (x_w x') <= queue_patience (x_w x))%nat -> moved_on x0 t x x' /\ (work x' < work x)%nat.
Proof using All.
  intros Hpat. destruct advance_inv as [I' Hw]. split; [|done]. split; [done|]. split; [by rewrite Hbuf, (ke_len _ _ _ Hke)|]. split; [done|].
  intros j Hj. destruct flight_split as (_ & _ & Hel & _). assert (j <> i) as Hne by (intros ->; apply Hj, Hel; by left).
  split; [by apply args_other|]. rewrite Hfl. intros [Hj'|Hj']%elem_of_app; [by apply Hj, Hel; right|].
  destruct inflight; [by apply list_elem_of_singleton in Hj'|by apply not_elem_of_nil in Hj'].
Qed.
End step.

Lemma complete_spec x0 t x k : strp_inv x0 t x -> m * lb <= Z.of_nat (length (x_buf x)) -> (k < length (x_flight x))%nat ->
  exists x', complete dev sp k x = Some x' /\ moved_on x0 t x x' /\ (work x' < work x)%nat.
Proof using All.
  intros I Hlen Hk. destruct (lookup_lt_is_Some_2 _ _ Hk) as [i Hi].
  destruct (iv_flight _ _ _ I i) as [Hit (c & p & Hc & Hat & Ho & He)]; [by eapply list_elem_of_lookup_2|].
  unfold complete. rewrite Hi. bind_step. rewrite Hc. bind_step.
  destruct (perform_spec c (mk_xfer (x_w x) (x_args x) (delete k (x_flight x)) (x_buf x)) p Hat Hlen)
    as (x1 & failed & -> & Ea & Ef & Hke & Hpat & Hag & Hrf). cbn in Ea, Ef, Hpat.
  assert (keeps (cmd_at p) x x1) as Hke' by (destruct Hke as [? ? ? ?]; by split). pose proof (ke_len _ _ _ Hke) as Hl1. cbn in Hl1.
  assert (i < length (x_args x))%nat as Hil by by eapply lookup_lt_Some.
  destruct (Z.lt_ge_cases (next p) m) as [Hlt|Hge].
  - destruct (callback_next x1 i c p failed) as (c1 & Hat1 & He1 & ->); [by rewrite Ea|done|done|].
    destruct (submit_spec i (set_arg i c1 x1) c1 (next p)) as (w & err & -> & Hbl & Hpw & _ & Hrs);
      [cbn; rewrite Ea; by apply list_lookup_insert_eq|done|cbn; lia|]. cbn [mbind option_bind fst]. eexists. split; [done|]. cbn in Hpw, Hbl.
    destruct (Z.eqb_spec err 0) as [->|Hne].
    + eapply (advance_moved x0 x t k i c p I Hi Hc Hat Ho He x1 _ failed true (mk_cb (cb_slba c1) (cb_nlbs c1) (cb_sbuf_nbytes c1) (cb_ecount c1)
        (cb_completed c1) (u32 (cb_submitted c1 + 1)))); first [exact Hke'|exact Hag|exact Hrf|cbn; try done].
      * by rewrite Ea, list_insert_insert_eq.
      * by rewrite Ef.
      * apply Hat1.
      * intros _. by destruct Hat1; split.
      * by left.
      * lia.
    + eapply (advance_moved x0 x t k i c p I Hi Hc Hat Ho He x1 _ failed false c1); first [exact Hke'|exact Hag|exact Hrf|cbn; try done].
      * by rewrite Ea.
      * by rewrite Ef, app_nil_r.
      * apply Hat1.
      * intros R. by destruct Hne; apply Hrs.
      * lia.
  - destruct (callback_last x1 i c p failed) as (c1 & Hs1 & He1 & ->); [by rewrite Ea|done|done|]. eexists. split; [done|].
    eapply (advance_moved x0 x t k i c p I Hi Hc Hat Ho He x1 _ failed false c1); first [exact Hke'|exact Hag|exact Hrf|cbn; try done].
    + by rewrite Ea.
    + by rewrite Ef, app_nil_r.
    + by right.
Qed.

(** ** Poking and draining *)

Lemma moved_on_trans x0 t x x1 x2 : moved_on x0 t x x1 -> moved_on x0 t x1 x2 -> moved_on x0 t x x2.
Proof using.
  intros (_ & L1 & P1 & O1) (I2 & L2 & P2 & O2). split; [done|]. split; [congruence|]. split; [lia|]. intros i Hi.
  destruct (O1 i Hi) as [E1 N1]. destruct (O2 i N1) as [E2 N2]. split; [congruence|done].
Qed.

Lemma inv_set_w x0 t x w : strp_inv x0 t x -> (forall d lba, block w d lba = block (x_w x) d lba) -> strp_inv x0 t (set_w w x).
Proof using.
  intros [Ha Hk Hn Hf Hs Hr] Hw. split; try done.
  - eapply keeps_trans; [exact Hk|]. by apply keeps_quiet.
  - eapply settled_quiet; [exact Hs|done|done|]. intros i c Hc. by exists c.
Qed.

Lemma moved_on_w x0 t x w : strp_inv x0 t x -> (forall d lba, block w d lba = block (x_w x) d lba) ->
  (queue_patience w <= queue_patience (x_w x))%nat -> moved_on x0 t x (set_w w x).
Proof using. intros I Hw Hp. split; [by apply inv_set_w|]. by split. Qed.

Lemma work_bound x0 t x : strp_inv x0 t x -> (work x <= 512 * Z.to_nat (m * lb))%nat.
Proof using U.
  intros [Ha _ Hnd Hf _ _]. unfold work. pose proof (su_lb _ _ _ _ _ _ _ _ _ U) as Hlb.
  assert (length (x_flight x) <= 512)%nat as Hl.
  { rewrite <- (length_seq 512 0). apply submseteq_length, NoDup_submseteq; [done|]. intros i Hi. apply elem_of_seq.
    destruct (Hf i Hi) as [_ (c & p & Hc & _)]. apply lookup_lt_Some in Hc. lia. }
  assert (forall i, i ∈ x_flight x -> (bytes_left (x_args x) i <= Z.to_nat (m * lb))%nat) as Hb.
  { intros i Hi. destruct (Hf i Hi) as [_ (c & p & Hc & [Hp Hs _ _] & _)]. unfold bytes_left. rewrite Hc. cbn. nia. }
  assert (sum_list_with (bytes_left (x_args x)) (x_flight x) <= length (x_flight x) * Z.to_nat (m * lb))%nat; [|nia].
  clear Hl Hf Hnd. induction (x_flight x) as [|i l IH]; [done|]. cbn. pose proof (Hb i ltac:(by left)).
  assert (sum_list_with (bytes_left (x_args x)) l <= length l * Z.to_nat (m * lb))%nat by (apply IH; intros j Hj; apply Hb; by right). lia.
Qed.

Lemma completions_spec nx x0 t : (forall w k w' r, nx w k = (w', r) -> (forall d lba, block w' d lba = block w d lba) /\
    (queue_patience w' <= queue_patience w)%nat) -> (forall w k w' j, nx w k = (w', inr j) -> (j < k)%nat) ->
  forall fuel x, strp_inv x0 t x -> m * lb <= Z.of_nat (length (x_buf x)) -> (work x < fuel)%nat ->
  exists x' ret, completions dev sp nx fuel x = Some (x', ret) /\ moved_on x0 t x x' /\
    exists w w', nx w (length (x_flight x')) = (w', inl ret).
Proof using All.
  intros Hfr Hlt. induction fuel as [|fuel IH]; intros x I Hlen Hw; [lia|]. cbn [completions].
  destruct (nx (x_w x) (length (x_flight x))) as [w r] eqn:En. destruct (Hfr _ _ _ _ En) as [Hb Hp].
  pose proof (moved_on_w x0 t x w I Hb Hp) as M1. destruct r as [ret|k].
  - eexists _, ret. split; [done|]. split; [done|]. by exists (x_w x), w.
  - destruct (complete_spec x0 t (set_w w x) k) as (x1 & -> & M2 & Hw1); [apply M1|done|cbn; by eapply Hlt|]. bind_step.
    pose proof (moved_on_trans _ _ _ _ _ M1 M2) as M. destruct (IH x1) as (x' & ret & -> & M3 & Hr); [apply M|by destruct M as (_ & -> & _)| |].
    { change (work (set_w w x)) with (work x) in Hw1. lia. }
    exists x', ret. split; [done|]. split; [by eapply moved_on_trans|done].
Qed.

Lemma completions_max_enough x0 t x : strp_inv x0 t x -> (work x < completions_max sp)%nat.
Proof using U.
  intros I. pose proof (work_bound x0 t x I). unfold completions_max. rewrite (su_nbytes _ _ _ _ _ _ _ _ _ U). lia.
Qed.

Lemma poke_spec x0 t x : strp_inv x0 t x -> m * lb <= Z.of_nat (length (x_buf x)) ->
  exists x' ret, completions dev sp xnvme_queue_poke (completions_max sp) x = Some (x', ret) /\ moved_on x0 t x x'.
Proof using All.
  intros I Hlen. destruct (completions_spec xnvme_queue_poke x0 t) with (fuel := completions_max sp) (x := x) as (x' & ret & Ec & M & _); try done.
  - intros w k w' r Ep. split; [by eapply queue_poke_frame|by eapply patience_poke].
  - apply queue_poke_next.
  - by eapply completions_max_enough.
  - by exists x', ret.
Qed.

Lemma drain_spec x0 t x : strp_inv x0 t x -> m * lb <= Z.of_nat (length (x_buf x)) ->
  exists x' ret, completions dev sp xnvme_queue_drain (completions_max sp) x = Some (x', ret) /\ moved_on x0 t x x' /\
    (0 <= ret -> x_flight x' = []) /\ (reliable prep -> 0 <= ret).
Proof using All.
  intros I Hlen. destruct (completions_spec xnvme_queue_drain x0 t) with (fuel := completions_max sp) (x := x)
    as (x' & ret & Ec & M & w & w' & Hd); try done.
  - intros w k w' r Ep. split; [by eapply queue_drain_frame|by eapply patience_drain].
  - apply queue_drain_next.
  - by eapply completions_max_enough.
  - exists x', ret. do 2 (split; [done|]). split; [|intros R; by eapply rl_drain].
    intros Hr. apply length_zero_iff_nil. by eapply queue_drained.
Qed.

(** ** Starting the objects *)

(** The first command of an object is accepted. *)
Lemma accepted_inv x0 i c p x w c2 : at_pos c p -> owner p = Z.of_nat i -> cb_ecount c = 0 -> strp_inv x0 (Z.of_nat i) x ->
  x_args x !! i = Some c -> i ∉ x_flight x -> (forall d lba, block w d lba = block (x_w x) d lba) -> at_pos c2 p ->
  cb_sbuf_nbytes c2 = cb_sbuf_nbytes c -> cb_ecount c2 = cb_ecount c ->
  strp_inv x0 (Z.of_nat i + 1) (mk_xfer w (<[i := c2]> (x_args x)) (x_flight x ++ [i]) (x_buf x)).
Proof using.
  intros Hat Ho He [Ha Hk Hnd Hf Hs Hr] Hc Hni Hbl Hat2 Es Ee.
  assert (i < length (x_args x))%nat as Hil by by eapply lookup_lt_Some. split; cbn.
  - by rewrite length_insert.
  - eapply keeps_trans; [exact Hk|]. by apply keeps_quiet.
  - apply NoDup_app. split; [done|]. split; [|apply NoDup_singleton]. by intros j Hj ->%list_elem_of_singleton.
  - intros j [Hj|Hj]%elem_of_app.
    + destruct (Hf j Hj) as [Hjt (cj & pj & Hcj & Hrest)]. split; [lia|]. exists cj, pj. cbn. by rewrite list_lookup_insert_ne by (intros ->; lia).
    + apply list_elem_of_singleton in Hj as ->. split; [lia|]. exists c2, p. cbn. rewrite list_lookup_insert_eq by done.
      do 3 (split; [done|]). destruct Hat. lia.
  - eapply settled_quiet; [exact Hs|done|done|]. cbn. intros j c' Hj. destruct (decide (j = i)) as [->|Hne].
    + rewrite list_lookup_insert_eq in Hj by done. injection Hj as <-. by exists c.
    + rewrite list_lookup_insert_ne in Hj by done. by exists c'.
  - intros R j c' Hc'. destruct (decide (j = i)) as [->|Hne].
    + rewrite list_lookup_insert_eq in Hc' by done. injection Hc' as <-. split; [congruence|]. left. apply elem_of_app. right. by left.
    + rewrite list_lookup_insert_ne in Hc' by done. destruct (Hr R j c' Hc') as [? Hj]. split; [done|]. intros Hjt.
      destruct Hj as [?|?]; [lia|left|by right]. apply elem_of_app. by left.
Qed.

Lemma retry_spec x0 i c p : at_pos c p -> owner p = Z.of_nat i -> cb_ecount c = 0 ->
  forall retries x, strp_inv x0 (Z.of_nat i) x -> x_args x !! i = Some c -> i ∉ x_flight x -> m * lb <= Z.of_nat (length (x_buf x)) ->
  (queue_patience (x_w x) < retries)%nat ->
  exists x' ok, submit_retry dev sp retries i x = Some (x', ok) /\ strp_inv x0 (Z.of_nat i + if ok then 1 else 0) x' /\
    length (x_buf x') = length (x_buf x) /\ (queue_patience (x_w x') <= queue_patience (x_w x))%nat /\
    (forall j, j <> i -> j ∉ x_flight x -> x_args x' !! j = x_args x !! j) /\ (reliable prep -> ok = true).
Proof using All.
  intros Hat Ho He. induction retries as [|retries IH]; intros x I Hc Hni Hlen Hpat; [lia|]. cbn [submit_retry].
  destruct (submit_spec i x c p Hc Hat Hlen) as (w & err & -> & Hbl & Hpw & Hbusy & Hrel). bind_step. destruct (Z.eqb_spec err 0) as [->|Hne].
  - eexists _, true. split; [done|]. split; [by eapply (accepted_inv x0 i c p); try done; destruct Hat; split|]. do 2 (split; [done|]).
    split; [|done]. intros j Hj _. cbn. by rewrite list_lookup_insert_ne.
  - destruct ((err =? - EBUSY) || (err =? - EAGAIN)) eqn:Eb.
    + apply orb_true_iff in Eb. destruct (poke_spec x0 (Z.of_nat i) (set_w w x)) as (x1 & ret & -> & M); [by apply inv_set_w|done|]. bind_step.
      pose proof (moved_on_trans _ _ _ _ _ (moved_on_w x0 (Z.of_nat i) x w I Hbl Hpw) M) as (I1 & L1 & P1 & O1).
      destruct (ret <? 0).
      * exists x1, false. rewrite Z.add_0_r. split; [done|]. do 3 (split; [done|]). split; [intros j _ Hj; by apply O1|]. intros R. by destruct Hne; apply Hrel.
      * destruct (O1 i Hni) as [E1 N1]. destruct M as (_ & _ & P2 & _).
        destruct (IH x1) as (x' & ok & -> & I2 & L2 & P3 & O2 & R2); [done|by rewrite E1|done|by rewrite L1|cbn in P2; lia|].
        exists x', ok. split; [done|]. split; [done|]. split; [congruence|]. split; [lia|]. split; [|done].
        intros j Hj Hjf. destruct (O1 j Hjf) as [? ?]. rewrite O2 by done. done.
    + exists (set_w w x), false. rewrite Z.add_0_r. split; [done|]. split; [by apply inv_set_w|]. do 2 (split; [done|]). split; [done|].
      intros R. by destruct Hne; apply Hrel.
Qed.

(** The loop has started objects below [t]; the others' arguments are untouched. *)
Definition fresh_from (t : Z) (x : xfer) : Prop := forall i, t <= Z.of_nat i -> (i < 512)%nat -> x_args x !! i = Some cb_zero.

Lemma start_inv x0 i c p x : strp_inv x0 (Z.of_nat i) x -> (i < 512)%nat -> Z.of_nat i < n -> p = first (Z.of_nat i) -> cb_sbuf_nbytes c = p * lb ->
  cb_ecount c = 0 -> strp_inv x0 (Z.of_nat i) (set_arg i c x).
Proof using U.
  intros [Ha Hk Hnd Hf Hs Hr] Hi Hin -> Hsb He0. pose proof (su_lb _ _ _ _ _ _ _ _ _ U) as Hlb. split; cbn; try done.
  - by rewrite length_insert.
  - destruct Hk as [? ? ? ?]. by split.
  - intros j Hj. destruct (Hf j Hj) as [Hjt (cj & pj & Hcj & Hrest)]. split; [done|]. exists cj, pj. cbn.
    by rewrite list_lookup_insert_ne by (intros ->; lia).
  - intros j c' Hc' H0 q Hq Ho Hlt. cbn in Hc'. change (agree x q). destruct (decide (j = i)) as [->|Hne].
    + rewrite list_lookup_insert_eq in Hc' by lia. injection Hc' as <-. rewrite Hsb in Hlt.
      destruct (first_pos_spec dev sp lb n A C b s m U (Z.of_nat i) ltac:(lia)) as (_ & _ & Hmin). specialize (Hmin q ltac:(lia) Ho). nia.
    + rewrite list_lookup_insert_ne in Hc' by done. by eapply Hs.
  - intros R j c' Hc'. destruct (decide (j = i)) as [->|Hne].
    + rewrite list_lookup_insert_eq in Hc' by lia. injection Hc' as <-. split; [done|lia].
    + rewrite list_lookup_insert_ne in Hc' by done. by apply Hr.
Qed.

Lemma prep_spec w : exists w' err, match prep with Some f => f w | None => (w, 0) end = (w', err) /\
  (forall d lba, block w' d lba = block w d lba) /\ (queue_patience w' <= queue_patience w)%nat /\ (reliable prep -> err = 0).
Proof using Hprep.
  destruct prep as [f|] eqn:Epr; [|by exists w, 0]. destruct (f w) as [w' err] eqn:Ef. exists w', err. split; [done|].
  destruct (Hprep f w w' err eq_refl Ef) as [? ?]. do 2 (split; [done|]). intros R. pose proof (rl_prep _ R f w eq_refl) as Hz0. by rewrite Ef in Hz0.
Qed.

Context (Hfits : first_round_fits n C s m).

Lemma start_object_spec x0 retries i x : let p := first (Z.of_nat i) in
  strp_inv x0 (Z.of_nat i) x -> fresh_from (Z.of_nat i) x -> Z.of_nat i < n -> p < m -> m * lb <= Z.of_nat (length (x_buf x)) ->
  (queue_patience (x_w x) < retries)%nat ->
  exists x' (ok : bool), start_object dev sp prep retries (Z.of_nat i) (p * lb) x = Some (x', if ok then Some (size p * lb) else None) /\
    strp_inv x0 (Z.of_nat i + if ok then 1 else 0) x' /\ fresh_from (Z.of_nat i + 1) x' /\ length (x_buf x') = length (x_buf x) /\
    (queue_patience (x_w x') <= queue_patience (x_w x))%nat /\ (reliable prep -> ok = true).
Proof using All.
  intros p I Hfr Hin Hp Hlen Hpat. pose proof U as [Ul _ Un _ _ _ Us Uss _ Hlb Hn HC HA Hb Hs0 _ Hins Hrow _ Hbl].
  destruct (first_pos_spec dev sp lb n A C b s m U (Z.of_nat i) ltac:(lia)) as (Hp0 & Hop & _). fold p in Hp0, Hop.
  destruct (cmd_size_range dev sp lb n A C b s m U p ltac:(lia)) as (Hz & Hpm & _).
  assert (fresh_from (Z.of_nat i + 1) x) as Hfr1 by (intros j Hj; apply Hfr; lia).
  unfold start_object. destruct (xnvme_queue_get_cmd_ctx (x_w x)) as [w1 ctx] eqn:Ec.
  pose proof (moved_on_w x0 _ x w1 I (queue_ctx_frame _ _ _ Ec) (patience_ctx _ _ _ Ec)) as M1. destruct ctx as [e|u].
  { exists (set_w w1 x), false. rewrite Z.add_0_r. split; [done|]. split; [apply M1|]. do 3 (split; [done || apply M1|]).
    intros R. pose proof (rl_ctx _ R (x_w x)) as Hc. by rewrite Ec in Hc. }
  destruct (prep_spec (x_w (set_w w1 x))) as (w2 & err & -> & Hb2 & Hp2 & Hr2).
  pose proof (moved_on_trans _ _ _ _ _ M1 (moved_on_w x0 _ (set_w w1 x) w2 (proj1 M1) Hb2 Hp2)) as (I2 & L2 & P2 & _).
  destruct (Z.eqb_spec err 0) as [->|Hne]; cbn [negb].
  2: { exists (set_w w2 (set_w w1 x)), false. rewrite Z.add_0_r. split; [done|]. do 4 (split; [done|]). intros R. by destruct Hne; apply Hr2. }
  rewrite Uss. replace (p * lb + s * lb) with ((p + s) * lb) by lia. rewrite (u64_small ((p + s) * lb)) by (unfold is_u64; nia).
  rewrite (first_nlbs_eq dev sp lb n A C b s m U p) by lia. bind_step.
  assert (Z.min m (C - (s + p) mod C) = size p) as -> by exact (first_round_size dev sp lb n A C b s m U (Z.of_nat i) ltac:(lia) Hp Hfits). unfold lookupZ. rewrite (proj2 (Z.ltb_ge _ _)), Nat2Z.id by lia. cbn [x_args set_w]. rewrite (Hfr i) by lia. bind_step.
  replace (p + s) with (s + p) by lia. rewrite (calc_slba_eq dev sp lb n A C b s m U) by lia. bind_step.
  rewrite Us, Ul, Z.div_mul by lia. pose proof (strp_block_range n A C b ltac:(lia) HA ltac:(lia) (s + p) ltac:(lia)) as Hrange.
  replace (at_block p - b + b) with (at_block p) by lia. rewrite (u64_small (at_block p)) by (unfold is_u64; lia).
  match goal with |- context [set_arg i ?c0 _] => set (c := c0) end. set (x2 := set_w w2 (set_w w1 x)) in *.
  assert (at_pos c p) as Hat by (split; [lia|done..]).
  destruct (retry_spec x0 i c p Hat Hop eq_refl retries (set_arg i c x2)) as (x' & ok & -> & I' & L' & P' & O' & R');
    [by eapply start_inv; try done; lia|cbn; rewrite list_lookup_insert_eq; [done|rewrite (iv_args _ _ _ I); lia]| |done|cbn in *; lia|].
  { cbn. intros Hi. destruct (iv_flight _ _ _ I i Hi). lia. }
  bind_step. exists x', ok. split.
  { destruct ok; [|done]. replace (size p - 1 + 1) with (size p) by lia. rewrite u32_small; [done|]. unfold is_u32.
    clear - Hz Hlb Hn HC Hrow. assert (0 < size p * lb <= C * lb) by nia. assert (C * lb <= n * C * lb) by nia. lia. }
  split; [done|]. split; [|split; [exact L'|split; [cbn in *; lia|done]]].
  intros j Hj H5. rewrite O'; [|lia|cbn; intros Hjf; destruct (iv_flight _ _ _ I j Hjf); lia]. cbn. rewrite list_lookup_insert_ne by lia. by apply Hfr1.
Qed.

Lemma start_objects_spec x0 retries : forall k i q x, Z.of_nat i + Z.of_nat k = n -> strp_inv x0 (Z.of_nat i) x -> fresh_from (Z.of_nat i) x ->
  q = first (Z.of_nat i) \/ q = m /\ m <= first (Z.of_nat i) -> m * lb <= Z.of_nat (length (x_buf x)) -> (queue_patience (x_w x) < retries)%nat ->
  exists x' t, start_objects dev sp prep retries k (Z.of_nat i) (q * lb) x = Some x' /\ strp_inv x0 t x' /\ length (x_buf x') = length (x_buf x) /\
    0 <= t /\ (reliable prep -> t = n \/ m <= first t).
Proof using All.
  pose proof U as [Ul _ Un _ _ _ Us Uss Um Hlb Hn HC HA Hb Hs0 _ Hins Hrow _ Hbl].
  induction k as [|k IH]; intros i q x Hi I Hfr Hq Hlen Hpat; cbn [start_objects].
  { exists x, (Z.of_nat i). do 3 (split; [done|]). split; [lia|]. intros _. left. lia. }
  rewrite Um. destruct (Z.ltb_spec (q * lb) (m * lb)) as [Hlt|Hge].
  - assert (q = first (Z.of_nat i)) as -> by (destruct Hq as [|[-> _]]; [done|lia]). assert (first (Z.of_nat i) < m) as Hp by nia.
    destruct (start_object_spec x0 retries i x I Hfr ltac:(lia) Hp Hlen Hpat) as (x1 & ok & -> & I1 & F1 & L1 & P1 & R1). bind_step.
    destruct ok.
    2: { exists x1, (Z.of_nat i). rewrite Z.add_0_r in I1. do 3 (split; [done|]). split; [lia|]. intros R. by specialize (R1 R). }
    destruct (first_pos_spec dev sp lb n A C b s m U (Z.of_nat i) ltac:(lia)) as (Hp0 & _ & _).
    destruct (cmd_size_range dev sp lb n A C b s m U (first (Z.of_nat i)) ltac:(lia)) as (Hz & Hpm & _).
    pose proof (first_pos_next dev sp lb n A C b s m U (Z.of_nat i) ltac:(lia)) as Hnx.
    rewrite u64_small by (unfold is_u64; nia).
    replace (first (Z.of_nat i) * lb + size (first (Z.of_nat i)) * lb) with ((first (Z.of_nat i) + size (first (Z.of_nat i))) * lb) by lia.
    replace (Z.of_nat i + 1) with (Z.of_nat (S i)) in * by lia.
    destruct (IH (S i) (first (Z.of_nat i) + size (first (Z.of_nat i))) x1) as (x' & t & -> & I2 & L2 & Ht & R2); try done; [lia| |by rewrite L1|lia|].
    { rewrite Hnx. unfold cmd_size. lia. }
    exists x', t. do 2 (split; [done|]). split; [congruence|done].
  - exists x, (Z.of_nat i). do 3 (split; [done|]). split; [lia|]. intros _. right. destruct Hq as [<-|[_ ?]]; [nia|done].
Qed.

(** Every object that takes part has come to the end without an error. *)
Definition finished (x : xfer) : Prop := forall i c, Z.of_nat i < n -> first (Z.of_nat i) < m -> x_args x !! i = Some c ->
  cb_ecount c = 0 /\ m * lb <= cb_sbuf_nbytes c.

Lemma settled_finished x : settled x -> length (x_args x) = 512%nat -> finished x -> forall j, 0 <= j < m -> agree x j.
Proof using U.
  intros Hs Hl Hf j Hj. pose proof U as [_ _ _ _ _ _ _ _ _ Hlb Hn HC _ _ _ _ _ _ _ _].
  pose proof (Z.mod_pos_bound ((s + j) / C - s / C) n ltac:(lia)) as Ho. fold (owner j) in Ho.
  destruct (first_pos_spec dev sp lb n A C b s m U (owner j) Ho) as (_ & _ & Hmin). specialize (Hmin j ltac:(lia) eq_refl).
  assert (Z.of_nat (Z.to_nat (owner j)) = owner j) as Eo by lia. destruct (lookup_lt_is_Some_2 (x_args x) (Z.to_nat (owner j))) as [c Hc]; [lia|].
  destruct (Hf (Z.to_nat (owner j)) c) as [H0 Hsb]; [lia|rewrite Eo; lia|done|]. apply (Hs _ c Hc H0 j Hj); [by rewrite Eo|nia].
Qed.

(** From the label [close_queue] on. *)
Lemma close_spec x0 t x : strp_inv x0 t x -> m * lb <= Z.of_nat (length (x_buf x)) -> 0 <= t -> (reliable prep -> t = n \/ m <= first t) ->
  exists x' err, close_queue dev sp x = Some (x', err) /\ strp_inv x0 t x' /\ (reliable prep -> err = 0 /\ finished x').
Proof using All.
  intros I Hlen Ht Hrel. pose proof U as [_ _ Un _ _ _ _ _ _ _ Hn _ _ _ _ _ _ _ _ _]. unfold close_queue.
  destruct (drain_spec x0 t x I Hlen) as (x3 & ret & -> & (I3 & L3 & _ & _) & Hempty & Hret). bind_step.
  destruct (Z.ltb_spec ret 0) as [Hneg|Hpos]; [exists x3, 1; split; [done|]; split; [done|]; intros R; specialize (Hret R); lia|].
  destruct (xnvme_queue_term (x_w x3)) as [w4 err4] eqn:Et. pose proof (inv_set_w x0 t x3 w4 I3 (queue_term_frame _ _ _ Et)) as I4.
  destruct (Z.eqb_spec err4 0) as [->|Hne4]; cbn [negb].
  2: { exists (set_w w4 x3), err4. split; [done|]. split; [done|]. intros R. pose proof (rl_term _ R (x_w x3)) as Hi. by rewrite Et in Hi. }
  destruct (lookup_lt_is_Some_2 (x_args x3) 0%nat) as [c0 Hc0]; [rewrite (iv_args _ _ _ I3); lia|]. cbn [x_args set_w]. rewrite Hc0. bind_step.
  eexists _, _. split; [done|]. split; [done|]. intros R. rewrite Un, (proj2 (Z.eqb_neq n 0)) by lia.
  split; [by destruct (iv_reliable _ _ _ I4 R 0%nat c0 Hc0)|]. intros i c Hi Hfi Hc. assert (Z.of_nat i < t) as Hit.
  { destruct (Hrel R) as [->|Hft]; [done|]. destruct (Z.lt_ge_cases (Z.of_nat i) t) as [|Hge]; [done|].
    pose proof (first_pos_mono dev sp lb n A C b s m U t (Z.of_nat i) ltac:(lia)). lia. }
  destruct (iv_reliable _ _ _ I4 R i c Hc) as [? Hfl]. split; [done|]. destruct (Hfl Hit) as [Hin|?]; [|done].
  cbn in Hin. rewrite Hempty in Hin by done. by apply not_elem_of_nil in Hin.
Qed.

(** The whole transfer. *)
Lemma transfer_spec retries w buf : m * lb <= Z.of_nat (length buf) -> (queue_patience w < retries)%nat ->
  exists x err, fla_xne_async_strp_seq_xneio dev sp prep retries w buf = Some (x, err) /\
    keeps (fun j => 0 <= j < m) (mk_xfer w [] [] buf) x /\ (finished x -> forall j, 0 <= j < m -> agree x j) /\
    (reliable prep -> err = 0 /\ finished x).
Proof using All.
  intros Hlen Hpat. pose proof U as [Ul _ Un _ _ _ Us Uss Um Hlb Hn HC HA Hb Hs0 Hm Hins Hrow _ Hbl].
  unfold fla_xne_async_strp_seq_xneio. rewrite Ul, Um, Uss, Un, (proj2 (Z.eqb_neq lb 0)), !Z.mod_mul by lia. cbn [Z.eqb negb orb].
  destruct (xnvme_queue_init w dev (u32 (n * 2))) as [w1 err] eqn:Ei. pose proof (queue_init_frame _ _ _ _ _ Ei) as Hb1.
  set (x0 := mk_xfer w [] [] buf). set (x1 := set_w w1 _).
  assert (strp_inv x0 0 x1) as I1.
  { split; try done; [by apply keeps_quiet|constructor|by intros i ?%not_elem_of_nil| |intros _ i c Hc; apply lookup_replicate in Hc as [-> _]; split; [done|lia]].
    intros i c Hc _ j Hj _ Hlt. apply lookup_replicate in Hc as [-> _]. cbn in Hlt. nia. }
  assert (forall x t, strp_inv x0 t x -> keeps (fun j => 0 <= j < m) x0 x /\ (finished x -> forall j, 0 <= j < m -> agree x j)) as Hout.
  { intros x t Ix. split; [apply Ix|]. apply settled_finished; apply Ix. }
  destruct (Z.eqb_spec err 0) as [->|Hne]; cbn [negb].
  2: { exists x1, err. split; [done|]. destruct (Hout x1 0 I1) as [? ?]. do 2 (split; [done|]).
       intros R. pose proof (rl_init _ R w dev (u32 (n * 2))) as Hi. by rewrite Ei in Hi. }
  destruct (start_objects_spec x0 retries (Z.to_nat n) 0%nat 0 x1) as (x2 & t & Es & I2 & L2 & Ht & R2); try done;
    [lia|intros i _ Hi; by apply lookup_replicate_2|by left|pose proof (patience_init _ _ _ _ _ Ei); cbn; lia|].
  change (0 * lb) with 0 in Es. change (Z.of_nat 0) with 0 in Es. rewrite Es. bind_step.
  destruct (close_spec x0 t x2 I2) as (x3 & err3 & -> & I3 & R3); [by rewrite L2|done|done|].
  exists x3, err3. split; [done|]. destruct (Hout x3 t I3) as [? ?]. done.
Qed.
End transfer.

(** ** A queue in memory *)

(** The newest command in flight completes first; [code] is the answer to submissions. *)
Definition ram_queue (code : Z) : XnvmeQueue RamDisk.world := {|
  xnvme_queue_init := fun w _ _ => (w, 0);
  xnvme_queue_term := fun w => (w, 0);
  xnvme_queue_get_cmd_ctx := fun w => (w, inr tt);
  xnvme_queue_submit := fun w => (w, code);
  xnvme_queue_poke := fun w _ => (w, inl 0);
  xnvme_queue_drain := fun w n => (w, match n with O => inl 0 | S k => inr k end)
|}.

#[export] Instance ram_queue_laws code : code <> - EBUSY -> code <> - EAGAIN ->
  @XnvmeQueueLaws RamDisk.world RamDisk.env (ram_queue code) RamDisk.block.
Proof.
  intros Hb Ha. refine {| queue_patience := fun _ => 0%nat |}; cbn; intros; simplify_eq; try done.
  - match goal with H : _ = inr _ |- _ => destruct n; [done|]; injection H as <-; lia end.
  - destruct n; done.
  - by destruct H0.
Defined.

Lemma ram_reliable : @reliable RamDisk.world RamDisk.env (ram_queue 0) None.
Proof. split; try done. cbn. intros w n w' r. destruct n; intros [=]; subst; done. Qed.

(** Blocks of 4 bytes, a striped object of three objects with two chunks of two
    blocks each, from block 5 of the device on. *)
Definition ex_strp_dev : xnvme_dev := mk_xnvme_dev 3 (mk_xnvme_geo XNVME_GEO_CONVENTIONAL 4 400 4096 0 0).
Definition ex_strp (snbytes nbytes : Z) (write : bool) : fla_strp_params := mk_strp 3 8 4 snbytes nbytes 48 20 4 write.
Definition ex_strp_world : RamDisk.world := RamDisk.mk_world ∅ [].

Lemma ex_strp_units s m write : 0 <= s -> 0 <= m -> s + m <= 12 -> strp_units ex_strp_dev (ex_strp (s * 4) (m * 4) write) 4 3 2 2 5 s m.
Proof. intros Hs Hm Hin. split; cbn; try done; lia. Qed.

(** ** Claims *)

(** C32: The address computation of striped transfers.  For a byte offset that starts
    block [k] of a striped object, [calc_strp_obj_slba] returns the block that the
    reference map [strp_block] gives: chunk after chunk round the objects, row after
    row.  That block is inside the striped object, and the map is invertible, so no
    two blocks of the object share a place on the device. *)
Theorem striped_addresses dev sp lb n A C b s m k : strp_units dev sp lb n A C b s m -> 0 <= k < n * (A * C) ->
  calc_strp_obj_slba (k * lb) sp = Some (strp_block n A C b k - b) /\
  b <= strp_block n A C b k < b + n * (A * C) /\ strp_pos n A C b (strp_block n A C b k) = k.
Proof.
  intros U Hk. pose proof U as [_ _ _ _ _ _ _ _ _ _ Hn HC HA _ _ _ _ _ _ _].
  split; [by apply (calc_slba_eq dev sp lb n A C b s m U)|]. split; [apply strp_block_range; lia|apply strp_pos_block; lia].
Qed.

Lemma striped_addresses_witness : calc_strp_obj_slba 24 (ex_strp 4 40 true) = Some 2 /\ strp_pos 3 2 2 5 7 = 6.
Proof.
  destruct (striped_addresses ex_strp_dev (ex_strp 4 40 true) 4 3 2 2 5 1 10 6) as (Ha & _ & Hp);
    [apply (ex_strp_units 1 10); lia|lia|]. split; [exact Ha|exact Hp].
Defined.

(** C14: Striped transfers, whatever the order of completions.  Two conditions: the
    first command of every object stays inside the transfer ([first_round_fits]; what
    happens otherwise is [striped_first_round_overruns]), and the queue answers a
    submission with [-EBUSY] or [-EAGAIN] only finitely often, at most [queue_patience]
    times: the code resubmits such a command without bound, so that on a queue that is
    busy for ever it does not return.  Then the transfer of [m] blocks from block [s] of
    a striped object returns, however the queue orders the completions, whichever
    commands it refuses with another error and whichever fail.  On the device only
    blocks of the transfer change, none for a read, and a write leaves the buffer alone.
    If every object came to its end without an error, block [j] of the buffer is what
    the device has at the place of block [s + j]; and if nothing fails that is so and 0
    is returned. *)
Theorem striped_transfer {W} `{E : XnvmeEnv W} `{Q : XnvmeQueue W} block `{!XnvmeLaws W block} `{!XnvmeQueueLaws W block}
    dev sp lb n A C b s m (prep : option (W -> W * Z)) retries w buf :
  strp_units dev sp lb n A C b s m -> first_round_fits n C s m ->
  (forall f w w' e, prep = Some f -> f w = (w', e) ->
     (forall d lba, block w' d lba = block w d lba) /\ (queue_patience w' <= queue_patience w)%nat) ->
  m * lb <= Z.of_nat (length buf) -> (queue_patience w < retries)%nat ->
  exists x err, fla_xne_async_strp_seq_xneio dev sp prep retries w buf = Some (x, err) /\
    (forall d lba, dev_id d <> dev_id dev \/ (forall j, 0 <= j < m -> lba <> strp_block n A C b (s + j)) ->
       block (x_w x) d lba = block w d lba) /\
    (if sp_write sp then x_buf x = buf else forall d lba, block (x_w x) d lba = block w d lba) /\
    (finished lb n C s m x -> forall j, 0 <= j < m -> block (x_w x) dev (strp_block n A C b (s + j)) = buf_block lb (x_buf x) j) /\
    (reliable prep -> err = 0 /\ finished lb n C s m x).
Proof.
  intros U Hf Hp Hl Hr. destruct (transfer_spec block dev sp lb n A C b s m U prep Hp Hf retries w buf Hl Hr) as (x & err & Ex & [_ Hb _ Hs] & Ha & R).
  by exists x, err.
Qed.

(** Ten blocks from block 1 on. *)
Definition ex_strp_buf : list Z := Z.of_nat <$> seq 0 40.
Lemma striped_transfer_witness : exists x, @fla_xne_async_strp_seq_xneio _ _ (ram_queue 0) ex_strp_dev (ex_strp 4 40 true) None 1 ex_strp_world ex_strp_buf =
    Some (x, 0) /\ RamDisk.block (x_w x) ex_strp_dev 7 = [20; 21; 22; 23].
Proof.
  destruct (@striped_transfer _ _ (ram_queue 0) RamDisk.block _ (ram_queue_laws 0 ltac:(discriminate) ltac:(discriminate)) ex_strp_dev (ex_strp 4 40 true) 4 3 2 2 5 1 10 None 1 ex_strp_world ex_strp_buf)
    as (x & err & Ex & _ & Hw & Hfin & HR); [apply (ex_strp_units 1 10); lia|right; right; discriminate|discriminate|discriminate|vm_compute; lia|].
  destruct (HR ram_reliable) as [-> Hf]. exists x. split; [exact Ex|]. specialize (Hfin Hf 5 ltac:(lia)). cbn in Hw. rewrite Hw in Hfin. exact Hfin.
Defined.

(** The same device, on which commands to block [bad] complete with an error. *)
Definition bad_env (bad : Z) : XnvmeEnv RamDisk.world := {|
  malloc := malloc; xnvme_buf_alloc := xnvme_buf_alloc; xnvme_nvm_read := xnvme_nvm_read;
  xnvme_nvm_write := fun w dev slba nlb buf => if slba =? bad then (w, (0, 1)) else xnvme_nvm_write w dev slba nlb buf;
  xnvme_znd_mgmt_send := xnvme_znd_mgmt_send;
  xnvme_lba_range_from_slba_naddrs := xnvme_lba_range_from_slba_naddrs;
  xnvme_lba_range_from_offset_nbytes := xnvme_lba_range_from_offset_nbytes
|}.

(** C35: The first command of an object is capped by the length of the transfer, not by
    what is left of it.  Whenever the first round does not fit there is an object whose
    first command starts inside the transfer and goes on past its end, past the end of
    the caller's buffer; with a buffer of just that length the run is undefined. *)
Theorem striped_first_round_overruns dev sp lb n A C b s m : strp_units dev sp lb n A C b s m -> ~ first_round_fits n C s m ->
  (exists i nlbs, 0 <= i < n /\ first_pos C s i < m /\ calc_strp_obj_first_nlbs ((first_pos C s i + s) * lb) sp = Some nlbs /\
     sp_xfer_nbytes sp < (first_pos C s i + (nlbs + 1)) * lb) /\
  @fla_xne_async_strp_seq_xneio _ RamDisk.env (ram_queue 0) ex_strp_dev (ex_strp 0 12 true) None 1 ex_strp_world (replicate 12 1) = None.
Proof.
  intros U Hf. split; [|by vm_compute]. unfold first_round_fits in Hf. pose proof U as [_ _ _ _ _ _ _ _ Um Hlb Hn HC _ _ Hs Hm _ _ _ _].
  pose proof (Z.mod_pos_bound s C ltac:(lia)) as Hr. pose proof (Z.div_mod s C ltac:(lia)) as Ed.
  set (i := (s mod C + m) / C). pose proof (Z.div_mod (s mod C + m) C ltac:(lia)) as Ei. pose proof (Z.mod_pos_bound (s mod C + m) C ltac:(lia)) as Hri. fold i in Ei.
  assert ((s mod C + m) mod C = (s + m) mod C) as Em by (by rewrite Z.add_mod_idemp_l by lia).
  assert (0 < i < n) as Hi by (split; [apply Z.div_str_pos; lia|apply Z.div_lt_upper_bound; lia]).
  assert (first_pos C s i = i * C - s mod C) as Ef by (unfold first_pos; by rewrite (proj2 (Z.eqb_neq i 0)) by lia).
  assert ((s + first_pos C s i) mod C = 0) as E0.
  { rewrite Ef. replace (s + (i * C - s mod C)) with ((s / C + i) * C) by lia. apply Z.mod_mul. lia. }
  assert (0 < first_pos C s i < m) as Hp by (rewrite Ef; clearbody i; split; [nia|lia]).
  exists i, (Z.min m C - 1). split; [lia|]. split; [lia|].
  rewrite (first_nlbs_eq dev sp lb n A C b s m U) by lia. rewrite E0, Z.sub_0_r. split; [done|]. rewrite Um. apply Z.mul_lt_mono_pos_r; lia.
Qed.

Lemma striped_first_round_overruns_witness : exists i nlbs, calc_strp_obj_first_nlbs ((first_pos 2 0 i + 0) * 4) (ex_strp 0 12 true) = Some nlbs /\
  12 < (first_pos 2 0 i + (nlbs + 1)) * 4.
Proof.
  destruct (striped_first_round_overruns ex_strp_dev (ex_strp 0 12 true) 4 3 2 2 5 0 3) as ((i & nlbs & _ & _ & He & Hlt) & _);
    [apply (ex_strp_units 0 3); lia|unfold first_round_fits; vm_compute; intros [H|[H|H]]; congruence|].
  exists i, nlbs. split; [exact He|exact Hlt].
Defined.

(** Errors of a striped transfer are lost.  A write whose commands are all refused
    returns 0 although nothing was written, because the result of draining the queue
    takes the place of the error; and a write of which one command fails on the device
    returns 0 when the command is not one of the first object's, because only its error
    count is tested. *)
Theorem striped_errors_lost :
  (exists x, @fla_xne_async_strp_seq_xneio _ RamDisk.env (ram_queue (- EIO)) ex_strp_dev (ex_strp 0 48 true) None 1 ex_strp_world
     (replicate 48 1) = Some (x, 0) /\ x_w x = ex_strp_world) /\
  exists x, @fla_xne_async_strp_seq_xneio _ (bad_env 11) (ram_queue 0) ex_strp_dev (ex_strp 0 48 true) None 1 ex_strp_world
     (replicate 48 1) = Some (x, 0) /\ RamDisk.block (x_w x) ex_strp_dev 11 = [0; 0; 0; 0] /\ (cb_ecount <$> take 3 (x_args x)) = [0; 1; 0].
Proof. split; eexists; vm_compute; (split; [reflexivity|]); [reflexivity|split; reflexivity]. Qed.
