(* ===== verification/Flexalloc.v ===== *)
(** * Flexalloc: the data of [src/src/flexalloc.h], [flexalloc_mm.h],
    [flexalloc_pool.h], [flexalloc_shared.h] and [flexalloc_slabcache.h]

    The system handle [flexalloc] with everything the allocator keeps in memory.
    The metadata buffer of the program is one block of memory into which typed
    pointers are laid; here each typed part is a field.  A pointer to a slab header
    or to a pool entry is its index.  A table of function pointers that the sources
    fill from one of two sets is the name of the set. *)
From S2P Require Import Prelude Hash XnvmeEnv.

(** ** Constants *)

Definition FLA_LINKED_LIST_NULL : Z := 2 ^ 31 - 1.
Definition FLA_MAGIC : Z := 0x00534621.
Definition FLA_FMT_VER : Z := 1.
Definition FLA_SUPER_SLBA : Z := 0.
Definition FLA_STATE_OPEN : Z := 1.
Definition FLA_NAME_SIZE_POOL : Z := 112.
Definition FLA_ROOT_OBJ_NONE : Z := 2 ^ 64 - 1.
Definition FLA_MDTS_MIN_NBYTES : Z := 512.
Definition FLA_ERR_ALL_SLABS_USED : Z := 2001.
Definition FLA_SLAB_CACHE_INVALID_STATE : Z := 5001.
(** The first (and only) enumerator of [enum fla_pool_entry_flags]. *)
Definition FLA_POOL_ENTRY_STRP : Z := 0.

(** Sizes in bytes of the on-disk structures. *)
Definition sizeof_slab_header : Z := 24.
Definition sizeof_htbl_entry : Z := 16.
Definition sizeof_pool_htbl_header : Z := 8.
Definition sizeof_pool_entry : Z := 160.
Definition sizeof_super : Z := 32.

(** ** Geometry *)

Record fla_geo_pool_sgmt := mk_pool_sgmt {
  freelist_nlb : Z; htbl_nlb : Z; htbl_tbl_size : Z; entries_nlb : Z
}.

Record fla_geo_slab_sgmt := mk_slab_sgmt { slab_sgmt_nlb : Z }.

Record fla_geo := mk_geo {
  g_nlb : Z;
  g_lb_nbytes : Z;
  g_slab_nlb : Z;
  g_npools : Z;
  g_nslabs : Z;
  g_md_nlb : Z;
  g_pool_sgmt : fla_geo_pool_sgmt;
  g_slab_sgmt : fla_geo_slab_sgmt
}.

Record fla_super := mk_super {
  s_magic : Z; s_nslabs : Z; s_slab_nlb : Z; s_npools : Z; s_md_nlb : Z; s_fmt_version : Z
}.

(** ** Slabs, objects and pools *)

Record fla_slab_header := mk_hdr { sl_pool : Z; sl_prev : Z; sl_next : Z; sl_refcount : Z }.

Record fla_object := mk_obj { o_slab_id : Z; o_entry_ndx : Z }.

(** A pool handle: the secondary hash of the name and the entry's index. *)
Record fla_pool := mk_pool { p_h2 : Z; p_ndx : Z }.

Record fla_pool_create_arg := mk_create_arg {
  a_flags : Z; a_name : list Z; a_name_len : Z; a_obj_nlb : Z; a_strp_nobjs : Z; a_strp_nbytes : Z
}.

Record fla_pool_entry := mk_pool_entry {
  pe_empty_slabs : Z;
  pe_full_slabs : Z;
  pe_partial_slabs : Z;
  pe_obj_nlb : Z;
  pe_slab_nobj : Z;
  pe_root_obj_hndl : Z;
  pe_flags : Z;
  pe_usable : Z;
  pe_name : list Z
}.

(** [struct fla_pool_strp], laid over the 64-bit [usable] field. *)
Definition strp_nobjs (usable : Z) : Z := usable mod 2 ^ 32.
Definition strp_nbytes (usable : Z) : Z := u32 (Z.shiftr usable 32).
Definition strp_pack (nobjs nbytes : Z) : Z := nobjs + nbytes * 2 ^ 32.

(** A [struct fla_object] laid over the 64-bit root object handle. *)
Definition obj_pack (o : fla_object) : Z := o_slab_id o + o_entry_ndx o * 2 ^ 32.
Definition obj_unpack (h : Z) : fla_object := mk_obj (h mod 2 ^ 32) (u32 (Z.shiftr h 32)).

(** [struct fla_pool_entry_fnc]: the set of functions installed for an entry,
    [fnc_unset] before [fla_pool_initialize_entrie_func_] has run for it. *)
Inductive fla_pool_entry_fnc := fnc_default | fnc_strp | fnc_unset.

Record fla_pool_htbl_header := mk_htbl_hdr { hh_size : Z; hh_len : Z }.

Record fla_pools := mk_pools {
  ps_freelist : list Z;
  ps_htbl : fla_htbl;
  ps_htbl_hdr : fla_pool_htbl_header;
  ps_entries : list fla_pool_entry;
  ps_entrie_funcs : list fla_pool_entry_fnc
}.

Record fla_slabs := mk_slabs {
  ss_headers : list fla_slab_header; ss_fslab_num : Z; ss_fslab_head : Z; ss_fslab_tail : Z
}.

(** ** The freelist cache *)

Inductive fla_slab_flist_elem_state :=
  | FLA_SLAB_CACHE_ELEM_STALE | FLA_SLAB_CACHE_ELEM_DIRTY | FLA_SLAB_CACHE_ELEM_CLEAN.

Record fla_slab_flist_cache_elem := mk_elem {
  ce_freelist : option (list Z); ce_state : fla_slab_flist_elem_state
}.

(** ** Command sets and data placement *)

Inductive fla_cs_t := FLA_CS_ZNS | FLA_CS_CNS.

Record fla_cs_zns := mk_cs_zns { zns_nzones : Z; zns_nzsect : Z }.

(** [struct fla_cs]: the installed command set ([None] before
    [fla_init_cs]) and its private data. *)
Record fla_cs := mk_cs { cs_fncs : option fla_cs_t; cs_zns : option fla_cs_zns }.

Record fla_dev := mk_fla_dev { d_dev : xnvme_dev; d_md_dev : option xnvme_dev; d_lb_nbytes : Z }.

(** ** The system handle *)

Record flexalloc := mk_fs {
  fs_dev : fla_dev;
  fs_state : Z;
  fs_cache : option (list fla_slab_flist_cache_elem);
  fs_geo : fla_geo;
  fs_super : fla_super;
  fs_pools : fla_pools;
  fs_slabs : fla_slabs;
  fs_cs : fla_cs
}.

#[global] Instance slab_header_eq_dec : EqDecision fla_slab_header.
Proof. solve_decision. Defined.
#[global] Instance object_eq_dec : EqDecision fla_object.
Proof. solve_decision. Defined.
#[global] Instance pool_eq_dec : EqDecision fla_pool.
Proof. solve_decision. Defined.
#[global] Instance elem_state_eq_dec : EqDecision fla_slab_flist_elem_state.
Proof. solve_decision. Defined.
#[global] Instance pool_entry_fnc_eq_dec : EqDecision fla_pool_entry_fnc.
Proof. solve_decision. Defined.

(** ** Assignments to the fields *)

Definition set_cache (c : option (list fla_slab_flist_cache_elem)) (fs : flexalloc) : flexalloc :=
  mk_fs (fs_dev fs) (fs_state fs) c (fs_geo fs) (fs_super fs) (fs_pools fs) (fs_slabs fs) (fs_cs fs).
Definition set_pools (p : fla_pools) (fs : flexalloc) : flexalloc :=
  mk_fs (fs_dev fs) (fs_state fs) (fs_cache fs) (fs_geo fs) (fs_super fs) p (fs_slabs fs) (fs_cs fs).
Definition set_slabs (s : fla_slabs) (fs : flexalloc) : flexalloc :=
  mk_fs (fs_dev fs) (fs_state fs) (fs_cache fs) (fs_geo fs) (fs_super fs) (fs_pools fs) s (fs_cs fs).

Definition set_headers (h : list fla_slab_header) (s : fla_slabs) : fla_slabs :=
  mk_slabs h (ss_fslab_num s) (ss_fslab_head s) (ss_fslab_tail s).
Definition set_entries (e : list fla_pool_entry) (p : fla_pools) : fla_pools :=
  mk_pools (ps_freelist p) (ps_htbl p) (ps_htbl_hdr p) e (ps_entrie_funcs p).
Definition set_freelist (l : list Z) (p : fla_pools) : fla_pools :=
  mk_pools l (ps_htbl p) (ps_htbl_hdr p) (ps_entries p) (ps_entrie_funcs p).
Definition set_htbl (t : fla_htbl) (p : fla_pools) : fla_pools :=
  mk_pools (ps_freelist p) t (ps_htbl_hdr p) (ps_entries p) (ps_entrie_funcs p).
Definition set_entrie_funcs (f : list fla_pool_entry_fnc) (p : fla_pools) : fla_pools :=
  mk_pools (ps_freelist p) (ps_htbl p) (ps_htbl_hdr p) (ps_entries p) f.

(** The three slab lists of a pool entry, by the address of their head. *)
Inductive slab_list := EmptySlabs | FullSlabs | PartialSlabs.

#[global] Instance slab_list_eq_dec : EqDecision slab_list.
Proof. solve_decision. Defined.

Definition pe_head (l : slab_list) (e : fla_pool_entry) : Z :=
  match l with
  | EmptySlabs => pe_empty_slabs e | FullSlabs => pe_full_slabs e | PartialSlabs => pe_partial_slabs e
  end.

Definition pe_set_head (l : slab_list) (h : Z) (e : fla_pool_entry) : fla_pool_entry :=
  match l with
  | EmptySlabs => mk_pool_entry h (pe_full_slabs e) (pe_partial_slabs e) (pe_obj_nlb e)
      (pe_slab_nobj e) (pe_root_obj_hndl e) (pe_flags e) (pe_usable e) (pe_name e)
  | FullSlabs => mk_pool_entry (pe_empty_slabs e) h (pe_partial_slabs e) (pe_obj_nlb e)
      (pe_slab_nobj e) (pe_root_obj_hndl e) (pe_flags e) (pe_usable e) (pe_name e)
  | PartialSlabs => mk_pool_entry (pe_empty_slabs e) (pe_full_slabs e) h (pe_obj_nlb e)
      (pe_slab_nobj e) (pe_root_obj_hndl e) (pe_flags e) (pe_usable e) (pe_name e)
  end.

Definition pe_set_root (r : Z) (e : fla_pool_entry) : fla_pool_entry :=
  mk_pool_entry (pe_empty_slabs e) (pe_full_slabs e) (pe_partial_slabs e) (pe_obj_nlb e)
    (pe_slab_nobj e) r (pe_flags e) (pe_usable e) (pe_name e).
Definition pe_set_usable (u : Z) (e : fla_pool_entry) : fla_pool_entry :=
  mk_pool_entry (pe_empty_slabs e) (pe_full_slabs e) (pe_partial_slabs e) (pe_obj_nlb e)
    (pe_slab_nobj e) (pe_root_obj_hndl e) (pe_flags e) u (pe_name e).

Definition sl_set_prev (v : Z) (h : fla_slab_header) : fla_slab_header :=
  mk_hdr (sl_pool h) v (sl_next h) (sl_refcount h).
Definition sl_set_next (v : Z) (h : fla_slab_header) : fla_slab_header :=
  mk_hdr (sl_pool h) (sl_prev h) v (sl_refcount h).
Definition sl_set_refcount (v : Z) (h : fla_slab_header) : fla_slab_header :=
  mk_hdr (sl_pool h) (sl_prev h) (sl_next h) v.
