(* ===== verification/PoolEntry.v ===== *)
(** * PoolEntry: per-entry operations of a pool, [src/src/flexalloc_pool.c]

    The two sets of functions a pool entry can be given (plain and striped), how
    they are chosen, and the root object.  Calling through a function pointer that
    was never set is undefined ([None]). *)
From S2P Require Import Prelude Util Freelist Hash XnvmeEnv Flexalloc.

Definition get_slab_elba_default (pool_entry : fla_pool_entry) (obj_ndx : Z) : Z :=
  u32 (pe_obj_nlb pool_entry * u32 (obj_ndx + 1)).

Definition get_slab_elba_strp (pool_entry : fla_pool_entry) (obj_ndx : Z) : Z :=
  u32 (pe_obj_nlb pool_entry * u32 (obj_ndx + strp_nobjs (pe_usable pool_entry))).

(** [memcpy] of [name_len] bytes into the entry's name; the rest of the name stays.
    A negative or too long length, or a source shorter than it, is undefined. *)
Definition name_copy (old : list Z) (name : list Z) (name_len : Z) : option (list Z) :=
  if (name_len <? 0) || (Z.of_nat (length old) <? name_len) || (Z.of_nat (length name) <? name_len)
  then None
  else Some (take (Z.to_nat name_len) name ++ drop (Z.to_nat name_len) old).

Definition fla_pool_entry_reset_default (pool_entry : fla_pool_entry) (arg : fla_pool_create_arg)
    (slab_nobj : Z) : option (fla_pool_entry * Z) :=
  name ← name_copy (pe_name pool_entry) (a_name arg) (a_name_len arg);
  Some (mk_pool_entry FLA_LINKED_LIST_NULL FLA_LINKED_LIST_NULL FLA_LINKED_LIST_NULL
          (a_obj_nlb arg) slab_nobj FLA_ROOT_OBJ_NONE (pe_flags pool_entry) (pe_usable pool_entry)
          name, 0).

Definition fla_pool_entry_reset_strp (pool_entry : fla_pool_entry) (arg : fla_pool_create_arg)
    (slab_nobj : Z) : option (fla_pool_entry * Z) :=
  '(pool_entry, err) ← fla_pool_entry_reset_default pool_entry arg slab_nobj;
  if negb (err =? 0) then Some (pool_entry, err)
  else Some (pe_set_usable (strp_pack (a_strp_nobjs arg) (a_strp_nbytes arg)) pool_entry, 0).

Definition fla_pool_num_fla_objs_strp (pool_entry : fla_pool_entry) : Z :=
  strp_nobjs (pe_usable pool_entry).

Definition fla_pool_num_fla_objs_default (pool_entry : fla_pool_entry) : Z := 1.

(** ** Calls through the installed set *)

Definition get_slab_elba (f : fla_pool_entry_fnc) (e : fla_pool_entry) (ndx : Z) : option Z :=
  match f with
  | fnc_default => Some (get_slab_elba_default e ndx)
  | fnc_strp => Some (get_slab_elba_strp e ndx)
  | fnc_unset => None
  end.

Definition fla_pool_entry_reset (f : fla_pool_entry_fnc) (e : fla_pool_entry)
    (arg : fla_pool_create_arg) (slab_nobj : Z) : option (fla_pool_entry * Z) :=
  match f with
  | fnc_default => fla_pool_entry_reset_default e arg slab_nobj
  | fnc_strp => fla_pool_entry_reset_strp e arg slab_nobj
  | fnc_unset => None
  end.

Definition fla_pool_num_fla_objs (f : fla_pool_entry_fnc) (e : fla_pool_entry) : option Z :=
  match f with
  | fnc_default => Some (fla_pool_num_fla_objs_default e)
  | fnc_strp => Some (fla_pool_num_fla_objs_strp e)
  | fnc_unset => None
  end.

(** The choice of the set.  The flag tested is the enumerator 0. *)
Definition fla_pool_initialize_entrie_func_ (pools : fla_pools) (ndx : Z) : option (fla_pools * Z) :=
  e ← lookupZ (ps_entries pools) ndx;
  f ← lookupZ (ps_entrie_funcs pools) ndx;
  let fnc := if Z.land (pe_flags e) FLA_POOL_ENTRY_STRP =? 0 then fnc_default else fnc_strp in
  Some (set_entrie_funcs (insertZ ndx fnc (ps_entrie_funcs pools)) pools, 0).

(** The callback [fla_flist_search_wfunc] runs on every pool in use. *)
Definition fla_pool_initialize_entrie_func (ndx : Z) (pools : fla_pools) : option (Z * fla_pools) :=
  '(pools, r) ← fla_pool_initialize_entrie_func_ pools ndx; Some (r, pools).

(** ** Root objects *)

Definition ROOT_OBJ_SET_DEF : Z := 0.
Definition ROOT_OBJ_SET_FORCE : Z := 1.
Definition ROOT_OBJ_SET_CLEAR : Z := 2.

Definition fla_pool_lookup_root_object (fs : flexalloc) (pool : fla_pool) : option Z :=
  e ← lookupZ (ps_entries (fs_pools fs)) (p_ndx pool); Some (pe_root_obj_hndl e).

Definition upd_entry (fs : flexalloc) (ndx : Z) (f : fla_pool_entry -> fla_pool_entry) :
    option flexalloc :=
  e ← lookupZ (ps_entries (fs_pools fs)) ndx;
  Some (set_pools (set_entries (insertZ ndx (f e) (ps_entries (fs_pools fs))) (fs_pools fs)) fs).

Definition fla_base_pool_set_root_object (fs : flexalloc) (pool : fla_pool) (obj : fla_object)
    (act : Z) : option (flexalloc * Z) :=
  root ← fla_pool_lookup_root_object fs pool;
  if negb (root =? FLA_ROOT_OBJ_NONE) && (Z.land act ROOT_OBJ_SET_FORCE =? 0)
  then Some (fs, EINVAL)
  else
    fs ← upd_entry fs (p_ndx pool)
           (pe_set_root (if Z.land act ROOT_OBJ_SET_CLEAR =? 0 then obj_pack obj
                         else FLA_ROOT_OBJ_NONE));
    Some (fs, 0).

Definition fla_base_pool_get_root_object (fs : flexalloc) (pool : fla_pool) :
    option (option fla_object * Z) :=
  root ← fla_pool_lookup_root_object fs pool;
  if root =? FLA_ROOT_OBJ_NONE then Some (None, EINVAL)
  else Some (Some (obj_unpack root), 0).

Definition fla_pool_obj_nlb (fs : flexalloc) (pool : fla_pool) : option Z :=
  e ← lookupZ (ps_entries (fs_pools fs)) (p_ndx pool); Some (pe_obj_nlb e).

(** ** Properties *)

(** Striping is never selected, whatever the entry's flags. *)
Lemma entrie_func_default pools ndx pools' r :
  fla_pool_initialize_entrie_func_ pools ndx = Some (pools', r) ->
  r = 0 /\ pools' = set_entrie_funcs (insertZ ndx fnc_default (ps_entrie_funcs pools)) pools.
Proof.
  unfold fla_pool_initialize_entrie_func_. destruct (lookupZ (ps_entries pools) ndx) as [e|]; [|done].
  cbn. destruct (lookupZ (ps_entrie_funcs pools) ndx); [|done]. cbn.
  unfold FLA_POOL_ENTRY_STRP. rewrite Z.land_0_r. cbn. by intros [= <- <-].
Qed.

Lemma obj_pack_unpack o : is_u32 (o_slab_id o) -> is_u32 (o_entry_ndx o) ->
  obj_unpack (obj_pack o) = o.
Proof.
  destruct o as [s n]. unfold is_u32, obj_pack, obj_unpack. cbn [o_slab_id o_entry_ndx]. intros Hs Hn.
  rewrite Z.shiftr_div_pow2, Z.div_add, Z.mod_add by lia.
  rewrite (Z.div_small s), (Z.mod_small s) by lia. rewrite u32_small by (unfold is_u32; lia).
  by rewrite Z.add_0_l.
Qed.

(** The root object of a pool: once set (on a pool without one, or with
    [ROOT_OBJ_SET_FORCE]) it is what [fla_base_pool_get_root_object] returns; a
    second set without force is refused with [EINVAL] and changes nothing; clearing
    makes the query fail with [EINVAL].  The object whose two fields are all ones
    is the marker for none and is excluded. *)
Theorem root_object_correct fs pool obj e :
  lookupZ (ps_entries (fs_pools fs)) (p_ndx pool) = Some e ->
  is_u32 (o_slab_id obj) -> is_u32 (o_entry_ndx obj) -> obj_pack obj <> FLA_ROOT_OBJ_NONE ->
  (pe_root_obj_hndl e <> FLA_ROOT_OBJ_NONE ->
     fla_base_pool_set_root_object fs pool obj ROOT_OBJ_SET_DEF = Some (fs, EINVAL)) /\
  (exists fs', fla_base_pool_set_root_object fs pool obj ROOT_OBJ_SET_FORCE = Some (fs', 0) /\
     fla_base_pool_get_root_object fs' pool = Some (Some obj, 0) /\
     exists fs'', fla_base_pool_set_root_object fs' pool obj
         (Z.lor ROOT_OBJ_SET_FORCE ROOT_OBJ_SET_CLEAR) = Some (fs'', 0) /\
       fla_base_pool_get_root_object fs'' pool = Some (None, EINVAL)) /\
  (pe_root_obj_hndl e = FLA_ROOT_OBJ_NONE ->
     fla_base_pool_set_root_object fs pool obj ROOT_OBJ_SET_DEF =
     fla_base_pool_set_root_object fs pool obj ROOT_OBJ_SET_FORCE).
Proof.
  intros He Hs Hn Hnone.
  unfold fla_base_pool_set_root_object, fla_base_pool_get_root_object, fla_pool_lookup_root_object,
    upd_entry. rewrite He. bind_step.
  pose proof (lookupZ_Some _ _ _ He) as Hlt. split; [|split].
  - intros H. by rewrite (proj2 (Z.eqb_neq _ _) H).
  - rewrite andb_false_r. eexists. split; [done|].
    cbn [fs_pools set_pools ps_entries set_entries]. rewrite lookupZ_insertZ_eq by done.
    bind_step. change (Z.land ROOT_OBJ_SET_FORCE ROOT_OBJ_SET_CLEAR =? 0) with true.
    cbv iota. cbn [pe_root_obj_hndl pe_set_root]. rewrite (proj2 (Z.eqb_neq _ _) Hnone).
    rewrite obj_pack_unpack by done. split; [done|]. cbn [negb andb].
    change (Z.land (Z.lor ROOT_OBJ_SET_FORCE ROOT_OBJ_SET_CLEAR) ROOT_OBJ_SET_FORCE =? 0) with false.
    change (Z.land (Z.lor ROOT_OBJ_SET_FORCE ROOT_OBJ_SET_CLEAR) ROOT_OBJ_SET_CLEAR =? 0) with false.
    cbv iota. eexists. split; [done|]. cbn [fs_pools set_pools ps_entries set_entries].
    rewrite lookupZ_insertZ_eq by (by rewrite length_insertZ). done.
  - intros ->. done.
Qed.
