(* ===== verification/Geometry.v ===== *)
(** * Geometry: disk layout, [src/src/flexalloc_mm.c], [flexalloc_pool.c],
    [flexalloc_cs.c], [flexalloc_cs_cns.c], [flexalloc_cs_zns.c] and the size
    calculation of [flexalloc_slabcache.c]

    On a device without a separate metadata device the layout is: super block,
    pool segment (freelist, hash table, entries), slab segment (headers and the
    three words of the free list), slabs.  [fla_mkfs_geo_calc] computes it from the
    device's size; the other routines compute offsets from it.  [None] is a
    division by zero. *)
From S2P Require Import Prelude Util Freelist Hash XnvmeEnv Flexalloc.

(** ** Segment sizes *)

Definition fla_slab_sgmt_calc (nslabs lb_nbytes : Z) : option Z :=
  let needed_end_nbytes := 12 in
  let slab_headers_nbytes := u64 (nslabs * sizeof_slab_header) in
  n ← FLA_CEIL_DIV (u64 (slab_headers_nbytes + needed_end_nbytes)) lb_nbytes;
  Some (u32 n).

Definition fla_slab_sgmt_calc_v (lb_nbytes nslabs : Z) : option Z :=
  fla_slab_sgmt_calc nslabs lb_nbytes.

Definition fla_geo_slab_sgmt_calc (nslabs lb_nbytes : Z) : option fla_geo_slab_sgmt :=
  n ← fla_slab_sgmt_calc nslabs lb_nbytes; Some (mk_slab_sgmt n).

Definition fla_geo_slab_sgmt_nblocks (geo : fla_geo_slab_sgmt) : Z := slab_sgmt_nlb geo.

Definition fla_nslabs_max_mddev (blocks slab_nlb lb_nbytes md_blocks : Z) : option Z :=
  if slab_nlb =? 0 then None
  else
    let nslabs := u32 (blocks / slab_nlb) in
    md_nlb ← fla_slab_sgmt_calc nslabs lb_nbytes;
    Some (if md_nlb <=? md_blocks then nslabs else 0).

Definition fla_geo_pool_sgmt_nblocks (geo : fla_geo_pool_sgmt) : Z :=
  u32 (freelist_nlb geo + htbl_nlb geo + entries_nlb geo).

Definition fla_geo_pool_sgmt_calc (npools lb_nbytes : Z) : option fla_geo_pool_sgmt :=
  freelist ← FLA_CEIL_DIV (fla_flist_size npools) lb_nbytes;
  let tbl_size := u32 (npools * 2) in
  htbl ← FLA_CEIL_DIV (u64 (sizeof_pool_htbl_header + tbl_size * sizeof_htbl_entry)) lb_nbytes;
  entries ← FLA_CEIL_DIV (u64 (npools * sizeof_pool_entry)) lb_nbytes;
  Some (mk_pool_sgmt (u32 freelist) (u32 htbl) tbl_size (u32 entries)).

Definition fla_geo_nblocks (geo : fla_geo) : Z :=
  u32 (g_md_nlb geo + fla_geo_pool_sgmt_nblocks (g_pool_sgmt geo)
       + fla_geo_slab_sgmt_nblocks (g_slab_sgmt geo)).

Definition fla_geo_nbytes (geo : fla_geo) : Z := u64 (fla_geo_nblocks geo * g_lb_nbytes geo).

(** ** Geometry of an existing system and of a new one *)

Definition fla_geo_from_super (dev : xnvme_dev) (super : fla_super) : option fla_geo :=
  let lb_nbytes := fla_xne_dev_lba_nbytes dev in
  if lb_nbytes =? 0 then None
  else
    pool_sgmt ← fla_geo_pool_sgmt_calc (s_npools super) lb_nbytes;
    slab_sgmt ← fla_geo_slab_sgmt_calc (s_nslabs super) lb_nbytes;
    Some (mk_geo (fla_xne_dev_tbytes dev / lb_nbytes) lb_nbytes (s_slab_nlb super)
            (s_npools super) (s_nslabs super) (s_md_nlb super) pool_sgmt slab_sgmt).

(** [fla_geo_init] fills part of the structure; [geo] is what it held. *)
Definition fla_geo_init (dev : xnvme_dev) (npools slab_nlb lb_nbytes : Z) (geo : fla_geo) :
    option fla_geo :=
  if lb_nbytes =? 0 then None
  else
    md_nlb ← FLA_CEIL_DIV sizeof_super lb_nbytes;
    Some (mk_geo (fla_xne_dev_tbytes dev / lb_nbytes) lb_nbytes slab_nlb npools (g_nslabs geo)
            (u32 md_nlb) (g_pool_sgmt geo) (g_slab_sgmt geo)).

Definition set_npools (n : Z) (g : fla_geo) : fla_geo :=
  mk_geo (g_nlb g) (g_lb_nbytes g) (g_slab_nlb g) n (g_nslabs g) (g_md_nlb g) (g_pool_sgmt g)
    (g_slab_sgmt g).
Definition set_nslabs (n : Z) (g : fla_geo) : fla_geo :=
  mk_geo (g_nlb g) (g_lb_nbytes g) (g_slab_nlb g) (g_npools g) n (g_md_nlb g) (g_pool_sgmt g)
    (g_slab_sgmt g).
Definition set_pool_sgmt (p : fla_geo_pool_sgmt) (g : fla_geo) : fla_geo :=
  mk_geo (g_nlb g) (g_lb_nbytes g) (g_slab_nlb g) (g_npools g) (g_nslabs g) (g_md_nlb g) p
    (g_slab_sgmt g).
Definition set_slab_sgmt (s : fla_geo_slab_sgmt) (g : fla_geo) : fla_geo :=
  mk_geo (g_nlb g) (g_lb_nbytes g) (g_slab_nlb g) (g_npools g) (g_nslabs g) (g_md_nlb g)
    (g_pool_sgmt g) s.

(** [fla_cs_geo_check]: slabs of a zoned device are whole zones. *)
Definition fla_cs_geo_check (dev : xnvme_dev) (geo : fla_geo) : option Z :=
  let nzsect := fla_xne_dev_znd_sect dev in
  if bool_decide (fla_xne_dev_type dev = XNVME_GEO_ZONED) then
    if nzsect =? 0 then None
    else Some (if g_slab_nlb geo mod nzsect =? 0 then 0 else -1)
  else Some 0.

(** [fla_mkfs_geo_calc]: [geo0] and [md_geo0] are the uninitialised structures.
    The result is the geometry as far as it was filled and the return value. *)
Definition fla_mkfs_geo_calc (dev : xnvme_dev) (md_dev : option xnvme_dev)
    (npools slab_nlb : Z) (geo0 md_geo0 : fla_geo) : option (fla_geo * Z) :=
  let lb_nbytes := fla_xne_dev_lba_nbytes dev in
  geo ← fla_geo_init dev npools slab_nlb lb_nbytes geo0;
  md_geo ← fla_geo_init dev npools slab_nlb lb_nbytes md_geo0;
  err ← fla_cs_geo_check dev geo;
  if negb (err =? 0) then Some (geo, err) else
  nslabs_approx ←
    match md_dev with
    | None => fla_nelems_max (u64 (g_nlb geo - g_md_nlb geo)) slab_nlb
                (fla_slab_sgmt_calc_v lb_nbytes)
    | Some _ => fla_nslabs_max_mddev (g_nlb geo) slab_nlb lb_nbytes (g_nlb md_geo)
    end;
  if nslabs_approx =? 0 then Some (geo, -1) else
  if nslabs_approx <? npools then Some (geo, -1) else
  let geo := if npools =? 0 then set_npools nslabs_approx geo else geo in
  pool_sgmt ← fla_geo_pool_sgmt_calc (g_npools geo) lb_nbytes;
  let geo := set_pool_sgmt pool_sgmt geo in
  nslabs ←
    match md_dev with
    | None =>
        fla_nelems_max
          (u64 (g_nlb geo - g_md_nlb geo - fla_geo_pool_sgmt_nblocks (g_pool_sgmt geo)))
          slab_nlb (fla_slab_sgmt_calc_v lb_nbytes)
    | Some _ =>
        fla_nslabs_max_mddev (g_nlb geo) slab_nlb lb_nbytes
          (u64 (g_nlb md_geo - g_md_nlb geo - fla_geo_pool_sgmt_nblocks (g_pool_sgmt geo)))
    end;
  let geo := set_nslabs nslabs geo in
  if g_nslabs geo =? 0 then Some (geo, -1) else
  slab_sgmt ← fla_geo_slab_sgmt_calc (g_nslabs geo) lb_nbytes;
  let geo := set_slab_sgmt slab_sgmt geo in
  if g_nslabs geo <? npools then Some (geo, -1) else
  if g_nslabs geo <? g_npools geo then
    let geo := set_npools (g_nslabs geo) geo in
    pool_sgmt ← fla_geo_pool_sgmt_calc (g_npools geo) lb_nbytes;
    Some (set_pool_sgmt pool_sgmt geo, 0)
  else Some (geo, 0).

(** ** Offsets *)

Definition fla_geo_pool_sgmt_lb_off (geo : fla_geo) : Z := g_md_nlb geo.

Definition fla_geo_pool_sgmt_off (geo : fla_geo) : Z :=
  u64 (g_lb_nbytes geo * fla_geo_pool_sgmt_lb_off geo).

Definition fla_geo_slab_sgmt_lb_off (geo : fla_geo) : Z :=
  u64 (fla_geo_pool_sgmt_lb_off geo + fla_geo_pool_sgmt_nblocks (g_pool_sgmt geo)).

Definition fla_geo_slabs_lb_off (geo : fla_geo) : Z :=
  u64 (fla_geo_slab_sgmt_lb_off geo + fla_geo_slab_sgmt_nblocks (g_slab_sgmt geo)).

Definition fla_geo_slab_sgmt_off (geo : fla_geo) : Z :=
  u64 (g_lb_nbytes geo * fla_geo_slab_sgmt_lb_off geo).

(** The [slab_offset] entry of the two command sets.  The product is 32 bits
    wide.  For zoned devices the remainder is added to the offset. *)
Definition fla_cs_cns_slab_offset (fs : flexalloc) (slab_id slabs_base : Z) : Z :=
  u64 (slabs_base + u32 (slab_id * g_slab_nlb (fs_geo fs))).

Definition fla_cs_zns_slab_offset (fs : flexalloc) (slab_id slabs_base : Z) : option Z :=
  let off := fla_cs_cns_slab_offset fs slab_id slabs_base in
  zns ← cs_zns (fs_cs fs);
  if zns_nzsect zns =? 0 then None
  else Some (if off mod zns_nzsect zns =? 0 then off else u64 (off + off mod zns_nzsect zns)).

(** Calling through an unset function pointer is undefined. *)
Definition cs_slab_offset (fs : flexalloc) (slab_id slabs_base : Z) : option Z :=
  cs ← cs_fncs (fs_cs fs);
  match cs with
  | FLA_CS_CNS => Some (fla_cs_cns_slab_offset fs slab_id slabs_base)
  | FLA_CS_ZNS => fla_cs_zns_slab_offset fs slab_id slabs_base
  end.

Definition fla_geo_slab_lb_off (fs : flexalloc) (slab_id : Z) : option Z :=
  let slabs_base :=
    match d_md_dev (fs_dev fs) with None => fla_geo_slabs_lb_off (fs_geo fs) | Some _ => 0 end in
  cs_slab_offset fs slab_id slabs_base.

(** ** Objects in a slab *)

Definition fla_slab_cache_flist_nlb (fs : flexalloc) (flist_len : Z) : option Z :=
  FLA_CEIL_DIV (fla_flist_size flist_len) (g_lb_nbytes (fs_geo fs)).

(** The descending loop of [fla_calc_objs_in_slab]. *)
Fixpoint calc_objs_loop (fs : flexalloc) (obj_nlb : Z) (obj_num : nat) : option Z :=
  match obj_num with
  | O => Some 0
  | S n =>
      let unused_nlb := u32 (g_slab_nlb (fs_geo fs) - u32 (Z.of_nat obj_num * obj_nlb)) in
      free_list_nlb ← fla_slab_cache_flist_nlb fs (Z.of_nat obj_num);
      if free_list_nlb <=? unused_nlb then Some (Z.of_nat obj_num)
      else calc_objs_loop fs obj_nlb n
  end.

Definition fla_calc_objs_in_slab (fs : flexalloc) (obj_nlb : Z) : option Z :=
  if obj_nlb =? 0 then None
  else
    match d_md_dev (fs_dev fs) with
    | None => calc_objs_loop fs obj_nlb (Z.to_nat (g_slab_nlb (fs_geo fs) / obj_nlb))
    | Some _ => Some (g_slab_nlb (fs_geo fs) / obj_nlb)
    end.

(** ** Properties of the layout *)

Lemma flist_size_eq len : 0 <= len < 2 ^ 32 -> fla_flist_size len = 4 * (1 + (len + 31) / 32).
Proof.
  intros. unfold fla_flist_size, FLA_FREELIST_U32_ELEMS.
  rewrite (u64_small (len + 32 - 1)) by (unfold is_u64; lia).
  replace (len + 32 - 1) with (len + 31) by lia.
  assert (0 <= (len + 31) / 32 < 2 ^ 32) by (split; [apply Z.div_pos|apply Z.div_lt_upper_bound]; lia).
  rewrite !u64_small; unfold is_u64; rewrite ?u64_small; unfold is_u64; lia.
Qed.

(** [q] blocks of [lb] bytes are what [x] bytes need. *)
Definition blocks_for (q x lb : Z) : Prop := 0 <= q /\ x <= q * lb < x + lb.

Lemma blocks_for_mono q x q' x' lb : 0 < lb -> blocks_for q x lb -> blocks_for q' x' lb ->
  x' <= x -> q' <= q.
Proof. unfold blocks_for. intros ? [? ?] [? ?] ?. nia. Qed.

(** The pool segment is sized for [np] pools. *)
Record pool_sgmt_ok (np lb : Z) (sg : fla_geo_pool_sgmt) : Prop := {
  ps_fl : blocks_for (freelist_nlb sg) (fla_flist_size np) lb;
  ps_ht : blocks_for (htbl_nlb sg) (sizeof_pool_htbl_header + 2 * np * sizeof_htbl_entry) lb;
  ps_en : blocks_for (entries_nlb sg) (np * sizeof_pool_entry) lb;
  ps_size : htbl_tbl_size sg = 2 * np;
  ps_sum : fla_geo_pool_sgmt_nblocks sg = freelist_nlb sg + htbl_nlb sg + entries_nlb sg
}.

Lemma ceil_blocks x lb : 512 <= lb < 2 ^ 32 -> 0 <= x < 2 ^ 40 ->
  exists q, FLA_CEIL_DIV x lb = Some q /\ blocks_for q x lb /\ u32 q = q /\ 512 * (q - 1) <= x.
Proof.
  intros Hl Hx. destruct (ceil_div_some x lb) as (q & Hq & Hb); [lia..|].
  exists q. assert (0 <= q) by nia. assert (512 * (q - 1) <= x) by nia.
  split; [done|]. split; [done|]. split; [|done]. apply u32_small. unfold is_u32. lia.
Qed.

Lemma pool_sgmt_calc_spec np lb : 0 <= np < 2 ^ 31 -> 512 <= lb < 2 ^ 32 ->
  exists sg, fla_geo_pool_sgmt_calc np lb = Some sg /\ pool_sgmt_ok np lb sg /\
    512 * (fla_geo_pool_sgmt_nblocks sg - 3) <= 16 + 193 * np.
Proof.
  intros Hn Hl. unfold fla_geo_pool_sgmt_calc, sizeof_pool_htbl_header, sizeof_htbl_entry,
    sizeof_pool_entry.
  assert (0 <= (np + 31) / 32) by (apply Z.div_pos; lia).
  assert (32 * ((np + 31) / 32) <= np + 31) by (apply Z.mul_div_le; lia).
  rewrite (u32_small (np * 2)) by (unfold is_u32; lia).
  rewrite (u64_small (8 + _)), (u64_small (np * 160)) by (unfold is_u64; lia).
  destruct (ceil_blocks (fla_flist_size np) lb Hl) as (q1 & -> & B1 & U1 & M1);
    [rewrite flist_size_eq; lia|].
  destruct (ceil_blocks (8 + np * 2 * 16) lb Hl) as (q2 & -> & B2 & U2 & M2); [lia|].
  destruct (ceil_blocks (np * 160) lb Hl) as (q3 & -> & B3 & U3 & M3); [lia|].
  bind_step. rewrite U1, U2, U3. rewrite flist_size_eq in M1 by lia.
  pose proof (proj1 B1). pose proof (proj1 B2). pose proof (proj1 B3).
  assert (fla_geo_pool_sgmt_nblocks (mk_pool_sgmt q1 q2 (np * 2) q3) = q1 + q2 + q3) as Hs.
  { unfold fla_geo_pool_sgmt_nblocks. cbn. apply u32_small. unfold is_u32. lia. }
  eexists. split; [done|]. rewrite Hs. split; [|lia]. split; cbn; try done; [|lia].
  unfold sizeof_pool_htbl_header, sizeof_htbl_entry. by replace (2 * np) with (np * 2) by lia.
Qed.

Lemma slab_sgmt_calc_spec n lb : 0 <= n < 2 ^ 32 -> 512 <= lb < 2 ^ 32 ->
  exists q, fla_slab_sgmt_calc n lb = Some q /\ blocks_for q (n * sizeof_slab_header + 12) lb.
Proof.
  intros Hn Hl. unfold fla_slab_sgmt_calc, sizeof_slab_header.
  rewrite (u64_small (n * 24)), u64_small by (unfold is_u64; rewrite ?u64_small; unfold is_u64; lia).
  destruct (ceil_blocks (n * 24 + 12) lb Hl) as (q & -> & B & U & _); [lia|].
  bind_step. rewrite U. by exists q.
Qed.

(** A layout that fits its device. *)
Record geo_ok (geo : fla_geo) : Prop := {
  go_lb : 512 <= g_lb_nbytes geo < 2 ^ 32;
  go_nlb : 0 < g_nlb geo < 2 ^ 31;
  go_slab : 0 < g_slab_nlb geo;
  go_nslabs : 0 < g_nslabs geo;
  go_npools : 0 < g_npools geo <= g_nslabs geo;
  go_md : blocks_for (g_md_nlb geo) sizeof_super (g_lb_nbytes geo);
  go_pools : pool_sgmt_ok (g_npools geo) (g_lb_nbytes geo) (g_pool_sgmt geo);
  go_slabs : blocks_for (slab_sgmt_nlb (g_slab_sgmt geo))
    (g_nslabs geo * sizeof_slab_header + 12) (g_lb_nbytes geo);
  go_fits : g_md_nlb geo + fla_geo_pool_sgmt_nblocks (g_pool_sgmt geo) +
    slab_sgmt_nlb (g_slab_sgmt geo) + g_nslabs geo * g_slab_nlb geo <= g_nlb geo
}.

(** The number of slabs found for [total] blocks. *)
Lemma nslabs_spec total slab_nlb lb : 0 < slab_nlb -> 512 <= lb < 2 ^ 32 -> 0 <= total < 2 ^ 31 ->
  exists r, fla_nelems_max total slab_nlb (fla_slab_sgmt_calc_v lb) = Some r /\ 0 <= r /\
    (r <> 0 -> exists q, fla_slab_sgmt_calc r lb = Some q /\
       blocks_for q (r * sizeof_slab_header + 12) lb /\ r * slab_nlb + q <= total).
Proof.
  intros Hs Hl Ht. unfold fla_nelems_max. rewrite (proj2 (Z.eqb_neq _ _)) by lia.
  assert (0 <= total / slab_nlb <= total) as Hq.
  { split; [apply Z.div_pos; lia|]. apply Z.div_le_upper_bound; nia. }
  rewrite u32_small by (unfold is_u32; lia).
  pose proof (Z.mul_div_le total slab_nlb).
  set (calc k := if decide (k < 2 ^ 32) then fla_slab_sgmt_calc_v lb k else Some 0).
  assert (forall k, k < 2 ^ 32 -> calc k = fla_slab_sgmt_calc_v lb k) as Hcalc.
  { intros. unfold calc. by rewrite decide_True. }
  assert (forall n, Z.of_nat n < 2 ^ 32 -> nelems_loop total slab_nlb (fla_slab_sgmt_calc_v lb) n =
    nelems_loop total slab_nlb calc n) as ->.
  { induction n as [|n IH]; intros Hn; [done|]. cbn [nelems_loop].
    rewrite (Hcalc _ Hn). by rewrite IH by lia. }
  2: lia.
  destruct (nelems_loop_spec total slab_nlb calc (Z.to_nat (total / slab_nlb)))
    as (r & Hr & Hle & Hfit & _); [lia..|nia| |].
  { intros k Hk. unfold calc. case_decide; [|done].
    destruct (slab_sgmt_calc_spec k lb) as (q & Hq' & _); [lia..|]. unfold fla_slab_sgmt_calc_v.
    by rewrite Hq'. }
  exists r. split; [done|]. split; [lia|]. intros Hr0. destruct (Hfit Hr0) as (md & Hmd & Hf).
  rewrite Hcalc in Hmd by lia.
  destruct (slab_sgmt_calc_spec r lb) as (q & Hq' & B); [lia..|].
  unfold fla_slab_sgmt_calc_v in Hmd. rewrite Hq' in Hmd. injection Hmd as <-.
  by exists q.
Qed.

(** Fewer pools need no more blocks. *)
Lemma pool_sgmt_mono np np' lb sg sg' : 0 < lb -> 0 <= np' <= np -> np < 2 ^ 32 ->
  pool_sgmt_ok np lb sg -> pool_sgmt_ok np' lb sg' ->
  fla_geo_pool_sgmt_nblocks sg' <= fla_geo_pool_sgmt_nblocks sg.
Proof.
  intros Hlb Hle Hb Hsg Hsg'. rewrite (ps_sum _ _ _ Hsg), (ps_sum _ _ _ Hsg').
  assert (fla_flist_size np' <= fla_flist_size np) as Hfl.
  { rewrite !flist_size_eq by lia. pose proof (Z.div_le_mono (np' + 31) (np + 31) 32). lia. }
  pose proof (blocks_for_mono _ _ _ _ lb Hlb (ps_fl _ _ _ Hsg) (ps_fl _ _ _ Hsg') Hfl).
  pose proof (blocks_for_mono _ _ _ _ lb Hlb (ps_ht _ _ _ Hsg) (ps_ht _ _ _ Hsg')).
  pose proof (blocks_for_mono _ _ _ _ lb Hlb (ps_en _ _ _ Hsg) (ps_en _ _ _ Hsg')).
  unfold sizeof_pool_htbl_header, sizeof_htbl_entry, sizeof_pool_entry in *. lia.
Qed.

(** What the estimate of the number of slabs guarantees: every pool count up to
    it leaves room for the pool segment. *)
Lemma approx_room nlb md slab_nlb lb ap q np T :
  16 <= nlb -> 0 < lb -> 0 < slab_nlb -> blocks_for md sizeof_super lb -> 512 * (md - 1) <= sizeof_super ->
  0 < ap -> blocks_for q (ap * sizeof_slab_header + 12) lb -> ap * slab_nlb + q <= nlb - md ->
  0 < np <= ap -> 512 * (T - 3) <= 16 + 193 * np ->
  md = 1 /\ np <= nlb - 2 /\ md + T <= nlb.
Proof.
  unfold blocks_for, sizeof_super, sizeof_slab_header. intros ???[??]??[??]???.
  assert (1 <= md) by nia. assert (1 <= q) by nia. assert (ap <= ap * slab_nlb) by nia. lia.
Qed.

Lemma cs_geo_check_some dev geo :
  (fla_xne_dev_type dev = XNVME_GEO_ZONED -> fla_xne_dev_znd_sect dev <> 0) ->
  exists e, fla_cs_geo_check dev geo = Some e.
Proof.
  intros Hz. unfold fla_cs_geo_check. case_bool_decide; [|by eexists].
  rewrite (proj2 (Z.eqb_neq _ _)) by auto. by eexists.
Qed.

Lemma mkfs_geo_calc_spec dev npools slab_nlb geo0 md_geo0 :
  let lb := fla_xne_dev_lba_nbytes dev in
  512 <= lb < 2 ^ 32 -> 16 <= fla_xne_dev_tbytes dev / lb < 2 ^ 31 ->
  (fla_xne_dev_type dev = XNVME_GEO_ZONED -> fla_xne_dev_znd_sect dev <> 0) ->
  0 < slab_nlb < 2 ^ 32 -> 0 <= npools < 2 ^ 32 ->
  exists geo err, fla_mkfs_geo_calc dev None npools slab_nlb geo0 md_geo0 = Some (geo, err) /\
    (err = 0 -> geo_ok geo /\ g_nlb geo = fla_xne_dev_tbytes dev / lb /\ g_lb_nbytes geo = lb /\
      g_slab_nlb geo = slab_nlb /\ (npools <> 0 -> g_npools geo = npools)).
Proof.
  intros lb Hlb Hnlb Hz Hs Hnp. unfold fla_mkfs_geo_calc. fold lb.
  destruct (ceil_blocks sizeof_super lb Hlb) as (md & Emd & Bmd & Umd & Mmd);
    [unfold sizeof_super; lia|].
  unfold fla_geo_init. rewrite (proj2 (Z.eqb_neq lb 0)) by lia. rewrite Emd.
  bind_step. rewrite Umd. set (nlb := fla_xne_dev_tbytes dev / lb) in *.
  set (g0 := mk_geo nlb lb slab_nlb npools _ md _ _).
  destruct (cs_geo_check_some dev g0 Hz) as [e ->].
  bind_step. destruct (Z.eqb_spec e 0) as [->|He]; cbn [negb].
  2: { eexists _, e. split; [reflexivity|]. intros; done. }
  change (g_nlb g0) with nlb. change (g_md_nlb g0) with md.
  assert (forall g : fla_geo, exists geo err, Some (g, -1) = Some (geo, err) /\
    (err = 0 -> geo_ok geo /\ g_nlb geo = nlb /\ g_lb_nbytes geo = lb /\ g_slab_nlb geo = slab_nlb /\
      (npools <> 0 -> g_npools geo = npools))) as Hfail by (intros g; eexists g, (-1); done).
  assert (0 <= md <= 1) as Hmd by (unfold sizeof_super in Mmd; destruct Bmd; lia).
  rewrite (u64_small (nlb - md)) by (unfold is_u64; lia).
  destruct (nslabs_spec (nlb - md) slab_nlb lb) as (ap & -> & Hap & Hapfit); [lia..|].
  bind_step. destruct (Z.eqb_spec ap 0) as [|Hap0]; [apply Hfail|].
  destruct (Hapfit Hap0) as (q & _ & Bq & Hq).
  destruct (Z.ltb_spec ap npools) as [|Hle]; [apply Hfail|].
  set (np := if npools =? 0 then ap else npools).
  assert (0 < np <= ap /\ (npools <> 0 -> np = npools)) as [Hnp' Hnpe].
  { unfold np. destruct (Z.eqb_spec npools 0); lia. }
  set (g1 := if npools =? 0 then set_npools ap g0 else g0).
  assert (g1 = mk_geo nlb lb slab_nlb np (g_nslabs geo0) md (g_pool_sgmt geo0) (g_slab_sgmt geo0)) as ->.
  { unfold g1, np. by destruct (npools =? 0). }
  cbn [g_npools]. clearbody np nlb. clear Hz Hnp Hapfit.
  assert (ap <= ap * slab_nlb) as Hap1 by (clear -Hap Hs; nia).
  assert (np < 2 ^ 31) as Hnpb by (destruct Bq as [? _]; lia).
  destruct (pool_sgmt_calc_spec np lb) as (sg & -> & Hsg & Hbound); [lia..|].
  bind_step. unfold set_npools, set_pool_sgmt, set_nslabs, set_slab_sgmt.
  cbn [g_nlb g_lb_nbytes g_slab_nlb g_npools g_nslabs g_md_nlb g_pool_sgmt g_slab_sgmt].
  set (T := fla_geo_pool_sgmt_nblocks sg) in *.
  assert (0 <= T) as HT by apply (u32_range (_ + _ + _)).
  destruct (approx_room nlb md slab_nlb lb ap q np T) as (Hmd1 & Hnp2 & Hroom); [lia|lia|lia|done|done|lia|done|lia|lia|lia|].
  clear Bq Hq Hap Hap0 Hbound Mmd.
  rewrite (u64_small (nlb - md - T)) by (unfold is_u64; lia).
  destruct (nslabs_spec (nlb - md - T) slab_nlb lb) as (ns & -> & Hns & Hnsfit); [lia..|].
  bind_step. destruct (Z.eqb_spec ns 0) as [|Hns0]; [apply Hfail|].
  destruct (Hnsfit Hns0) as (q' & Eq' & Bq' & Hq'). clear Hnsfit.
  unfold fla_geo_slab_sgmt_calc. rewrite Eq'. bind_step.
  destruct (Z.ltb_spec ns npools) as [|Hle2]; [apply Hfail|].
  destruct (Z.ltb_spec ns np) as [Hshrink|Hkeep].
  - destruct (pool_sgmt_calc_spec ns lb) as (sg' & E' & Hsg' & _); [lia..|]. rewrite E'.
    pose proof (pool_sgmt_mono np ns lb sg sg' ltac:(lia) ltac:(lia) ltac:(lia) Hsg Hsg').
    eexists _, 0. split; [reflexivity|]. intros _.
    split; [|cbn; repeat split; lia]. split; cbn; done || lia.
  - eexists _, 0. split; [reflexivity|]. intros _.
    split; [|cbn; repeat split; lia]. split; cbn; done || lia.
Qed.

(** The first block after the metadata. *)
Definition slabs_base (geo : fla_geo) : Z :=
  g_md_nlb geo + fla_geo_pool_sgmt_nblocks (g_pool_sgmt geo) + slab_sgmt_nlb (g_slab_sgmt geo).

Lemma geo_parts_nonneg geo : geo_ok geo ->
  0 <= g_md_nlb geo /\ 0 <= fla_geo_pool_sgmt_nblocks (g_pool_sgmt geo) /\
  0 <= slab_sgmt_nlb (g_slab_sgmt geo) /\ 0 <= g_nslabs geo * g_slab_nlb geo.
Proof.
  intros [? ? ? ? ? [? _] _ [? _] _].
  split; [done|]. split; [apply (u32_range (_ + _ + _))|]. split; [done|nia].
Qed.

Lemma slabs_lb_off_eq geo : geo_ok geo -> fla_geo_slabs_lb_off geo = slabs_base geo.
Proof.
  intros G. destruct (geo_parts_nonneg geo G) as (? & ? & ? & ?).
  pose proof (go_fits geo G). pose proof (go_nlb geo G).
  unfold fla_geo_slabs_lb_off, fla_geo_slab_sgmt_lb_off, fla_geo_pool_sgmt_lb_off,
    fla_geo_slab_sgmt_nblocks, slabs_base.
  rewrite (u64_small (_ + fla_geo_pool_sgmt_nblocks _)) by (unfold is_u64; lia).
  apply u64_small. unfold is_u64. lia.
Qed.

Lemma geo_nblocks_eq geo : geo_ok geo -> fla_geo_nblocks geo = slabs_base geo.
Proof.
  intros G. destruct (geo_parts_nonneg geo G) as (? & ? & ? & ?).
  pose proof (go_fits geo G). pose proof (go_nlb geo G).
  unfold fla_geo_nblocks, slabs_base, fla_geo_slab_sgmt_nblocks.
  apply u32_small. unfold is_u32. lia.
Qed.

(** The systems the theorems on object placement are about: a conventional
    device that also holds the metadata. *)
Record cns_fs (fs : flexalloc) : Prop := {
  cf_geo : geo_ok (fs_geo fs);
  cf_md : d_md_dev (fs_dev fs) = None;
  cf_cs : cs_fncs (fs_cs fs) = Some FLA_CS_CNS
}.

Lemma slab_lb_off_eq fs id : cns_fs fs -> 0 <= id < g_nslabs (fs_geo fs) ->
  fla_geo_slab_lb_off fs id = Some (slabs_base (fs_geo fs) + id * g_slab_nlb (fs_geo fs)).
Proof.
  intros [G Hmd Hcs] Hid. destruct (geo_parts_nonneg _ G) as (? & ? & ? & ?).
  pose proof (go_fits _ G). pose proof (go_nlb _ G). pose proof (go_slab _ G).
  assert (0 <= id * g_slab_nlb (fs_geo fs) <= g_nslabs (fs_geo fs) * g_slab_nlb (fs_geo fs)) by nia.
  unfold fla_geo_slab_lb_off, cs_slab_offset. rewrite Hmd, Hcs, slabs_lb_off_eq by done.
  bind_step. unfold fla_cs_cns_slab_offset, slabs_base in *.
  rewrite (u32_small (id * _)), u64_small; [done|unfold is_u64; rewrite ?u32_small; unfold is_u32; lia|].
  unfold is_u32. lia.
Qed.

Lemma slab_extent_inside geo id : geo_ok geo -> 0 <= id < g_nslabs geo ->
  0 <= slabs_base geo + id * g_slab_nlb geo /\
  slabs_base geo + id * g_slab_nlb geo + g_slab_nlb geo <= g_nlb geo.
Proof.
  intros G Hid. destruct (geo_parts_nonneg _ G) as (? & ? & ? & ?).
  pose proof (go_fits _ G). pose proof (go_slab _ G). unfold slabs_base. nia.
Qed.

(** ** Objects in a slab *)

Lemma flist_nlb_spec fs n : geo_ok (fs_geo fs) -> 0 <= n < 2 ^ 32 ->
  exists q, fla_slab_cache_flist_nlb fs n = Some q /\
    blocks_for q (fla_flist_size n) (g_lb_nbytes (fs_geo fs)).
Proof.
  intros G Hn. pose proof (go_lb _ G) as Hl.
  assert (0 <= (n + 31) / 32 < 2 ^ 32) by (split; [apply Z.div_pos|apply Z.div_lt_upper_bound]; lia).
  destruct (ceil_blocks (fla_flist_size n) (g_lb_nbytes (fs_geo fs)) Hl) as (q & Hq & B & _ & _).
  { rewrite flist_size_eq; lia. }
  by exists q.
Qed.

Lemma calc_objs_loop_spec fs obj_nlb n :
  geo_ok (fs_geo fs) -> 0 < obj_nlb -> Z.of_nat n * obj_nlb <= g_slab_nlb (fs_geo fs) ->
  g_slab_nlb (fs_geo fs) < 2 ^ 31 ->
  exists r, calc_objs_loop fs obj_nlb n = Some r /\ 0 <= r <= Z.of_nat n /\
    (r <> 0 -> exists q, fla_slab_cache_flist_nlb fs r = Some q /\
       r * obj_nlb + q <= g_slab_nlb (fs_geo fs)) /\
    (forall k q, r < k <= Z.of_nat n -> fla_slab_cache_flist_nlb fs k = Some q ->
       g_slab_nlb (fs_geo fs) < k * obj_nlb + q).
Proof.
  intros G Ho Hn Hb. induction n as [|n IH].
  { exists 0. repeat split; lia. }
  cbn [calc_objs_loop].
  destruct (flist_nlb_spec fs (Z.of_nat (S n)) G) as (q & Hq & _); [nia|]. rewrite Hq.
  bind_step.
  rewrite (u32_small (Z.of_nat (S n) * obj_nlb)) by (unfold is_u32; nia).
  rewrite u32_small by (unfold is_u32; nia).
  destruct (Z.leb_spec q (g_slab_nlb (fs_geo fs) - Z.of_nat (S n) * obj_nlb)).
  - exists (Z.of_nat (S n)). split; [done|]. split; [lia|]. split; [|lia].
    intros _. exists q. split; [done|lia].
  - destruct IH as (r & Hr & Hle & Hfit & Hmax); [nia|].
    exists r. split; [done|]. split; [lia|]. split; [done|].
    intros k q' Hk Hq'. destruct (decide (k = Z.of_nat (S n))) as [->|].
    + rewrite Hq in Hq'. injection Hq' as <-. lia.
    + apply (Hmax k q'); [lia|done].
Qed.

Lemma slab_nlb_bound geo : geo_ok geo -> g_slab_nlb geo < 2 ^ 31.
Proof.
  intros G. destruct (geo_parts_nonneg _ G) as (? & ? & ? & ?).
  pose proof (go_fits _ G). pose proof (go_nlb _ G). pose proof (go_nslabs _ G).
  pose proof (go_slab _ G). nia.
Qed.

Lemma calc_objs_spec fs obj_nlb :
  cns_fs fs -> 0 < obj_nlb ->
  exists r, fla_calc_objs_in_slab fs obj_nlb = Some r /\ 0 <= r < 2 ^ 31 /\
    (r <> 0 -> exists q, fla_slab_cache_flist_nlb fs r = Some q /\
       r * obj_nlb + q <= g_slab_nlb (fs_geo fs)) /\
    (forall k q, r < k < 2 ^ 32 -> fla_slab_cache_flist_nlb fs k = Some q ->
       g_slab_nlb (fs_geo fs) < k * obj_nlb + q).
Proof.
  intros [G Hmd _] Ho. pose proof (slab_nlb_bound _ G) as Hb. pose proof (go_slab _ G).
  unfold fla_calc_objs_in_slab. rewrite (proj2 (Z.eqb_neq _ _)), Hmd by lia.
  set (S := g_slab_nlb (fs_geo fs)) in *.
  assert (0 <= S / obj_nlb <= S).
  { split; [apply Z.div_pos; lia|]. apply Z.div_le_upper_bound; nia. }
  pose proof (Z.mul_div_le S obj_nlb Ho). pose proof (Z.mul_succ_div_gt S obj_nlb Ho).
  destruct (calc_objs_loop_spec fs obj_nlb (Z.to_nat (S / obj_nlb))) as (r & Hr & Hle & Hfit & Hmax);
    [done..|fold S; nia|done|].
  exists r. split; [done|]. split; [lia|]. split; [done|].
  intros k q Hk Hq. destruct (decide (k <= S / obj_nlb)).
  - apply (Hmax k q); [lia|done].
  - destruct (flist_nlb_spec fs k G) as (q' & Hq' & [? _]); [lia|].
    rewrite Hq in Hq'. injection Hq' as <-. nia.
Qed.

(** ** Claims *)

(** C29: When [fla_mkfs_geo_calc] succeeds for a device of 16 to 2^31 blocks that
    holds its own metadata, the layout fits: the super block, the pool segment for
    the number of pools, the slab headers and all slabs lie one after the other
    inside the device, every segment is large enough for what is stored in it, and
    there are no more pools than slabs (the requested number of pools if one was
    requested). *)
Theorem geometry_fits dev npools slab_nlb geo0 md_geo0 :
  let lb := fla_xne_dev_lba_nbytes dev in
  512 <= lb < 2 ^ 32 -> 16 <= fla_xne_dev_tbytes dev / lb < 2 ^ 31 ->
  (fla_xne_dev_type dev = XNVME_GEO_ZONED -> fla_xne_dev_znd_sect dev <> 0) ->
  0 < slab_nlb < 2 ^ 32 -> 0 <= npools < 2 ^ 32 ->
  exists geo err, fla_mkfs_geo_calc dev None npools slab_nlb geo0 md_geo0 = Some (geo, err) /\
    (err = 0 -> geo_ok geo /\ g_nlb geo = fla_xne_dev_tbytes dev / lb /\ g_lb_nbytes geo = lb /\
      g_slab_nlb geo = slab_nlb /\ (npools <> 0 -> g_npools geo = npools)).
Proof. apply mkfs_geo_calc_spec. Qed.

Definition ex_geo0 : fla_geo := mk_geo 9 9 9 9 9 9 (mk_pool_sgmt 9 9 9 9) (mk_slab_sgmt 9).
Definition ex_dev1k : xnvme_dev :=
  mk_xnvme_dev 1 (mk_xnvme_geo XNVME_GEO_CONVENTIONAL 512 524288 131072 0 0).
Definition ex_geo : fla_geo :=
  mk_geo 1024 512 64 2 15 1 (mk_pool_sgmt 1 1 4 1) (mk_slab_sgmt 1).

Lemma geometry_fits_witness :
  fla_mkfs_geo_calc ex_dev1k None 2 64 ex_geo0 ex_geo0 = Some (ex_geo, 0) /\ geo_ok ex_geo.
Proof.
  destruct (geometry_fits ex_dev1k 2 64 ex_geo0 ex_geo0) as (geo & err & E & H);
    [vm_compute; split; congruence|vm_compute; split; congruence|discriminate|lia|lia|].
  assert (fla_mkfs_geo_calc ex_dev1k None 2 64 ex_geo0 ex_geo0 = Some (ex_geo, 0)) as E'
    by (vm_compute; reflexivity).
  rewrite E' in E. injection E as <- <-. split; [reflexivity|]. apply H. reflexivity.
Defined.

(** On a conventional device the slabs are consecutive, disjoint ranges of
    [slab_nlb] blocks that start behind all metadata and end inside the device; no
    32-bit product in the offset computation wraps. *)
Theorem slab_extents_disjoint fs i j oi oj :
  cns_fs fs -> 0 <= i < g_nslabs (fs_geo fs) -> 0 <= j < g_nslabs (fs_geo fs) -> i <> j ->
  fla_geo_slab_lb_off fs i = Some oi -> fla_geo_slab_lb_off fs j = Some oj ->
  fla_geo_nblocks (fs_geo fs) <= oi /\ oi + g_slab_nlb (fs_geo fs) <= g_nlb (fs_geo fs) /\
  (oi + g_slab_nlb (fs_geo fs) <= oj \/ oj + g_slab_nlb (fs_geo fs) <= oi).
Proof.
  intros F Hi Hj Hne Ei Ej. rewrite slab_lb_off_eq in Ei, Ej by done.
  injection Ei as <-. injection Ej as <-. pose proof (cf_geo fs F) as G.
  rewrite geo_nblocks_eq by done. pose proof (slab_extent_inside _ i G Hi).
  pose proof (go_slab _ G). nia.
Qed.

(** [fla_calc_objs_in_slab] is the largest number of objects for which the
    objects and the blocks of a freelist with one bit per object fit in one slab. *)
Theorem objs_in_slab_correct fs obj_nlb :
  cns_fs fs -> 0 < obj_nlb ->
  exists r, fla_calc_objs_in_slab fs obj_nlb = Some r /\ 0 <= r < 2 ^ 31 /\
    (r <> 0 -> exists q, fla_slab_cache_flist_nlb fs r = Some q /\
       r * obj_nlb + q <= g_slab_nlb (fs_geo fs)) /\
    (forall k q, r < k < 2 ^ 32 -> fla_slab_cache_flist_nlb fs k = Some q ->
       g_slab_nlb (fs_geo fs) < k * obj_nlb + q).
Proof. apply calc_objs_spec. Qed.

Lemma ex_geo_ok : geo_ok ex_geo.
Proof.
  split; try (vm_compute; split; congruence); try (vm_compute; congruence); try (vm_compute; reflexivity).
  - unfold blocks_for. vm_compute. repeat split; congruence.
  - split; unfold blocks_for; vm_compute; repeat split; congruence.
  - unfold blocks_for. vm_compute. repeat split; congruence.
Qed.

Definition ex_fs (geo : fla_geo) (dev : xnvme_dev) (cs : fla_cs) : flexalloc :=
  mk_fs (mk_fla_dev dev None (g_lb_nbytes geo)) FLA_STATE_OPEN None geo
    (mk_super FLA_MAGIC (g_nslabs geo) (g_slab_nlb geo) (g_npools geo) (g_md_nlb geo) FLA_FMT_VER)
    (mk_pools [] (mk_htbl None 0 0 0 0 0) (mk_htbl_hdr 0 0) [] [])
    (mk_slabs [] 0 0 0) cs.
Definition ex_cns : flexalloc := ex_fs ex_geo ex_dev1k (mk_cs (Some FLA_CS_CNS) None).

(** A slab of a zoned device that does not start on a zone boundary is moved by
    the remainder instead of up to the next zone: 3 blocks of metadata, zones of 8
    blocks, the first slab starts at block 6. *)
Example zns_slab_not_zone_aligned :
  fla_geo_slab_lb_off
    (ex_fs (mk_geo 1024 512 64 1 1 1 (mk_pool_sgmt 1 0 0 0) (mk_slab_sgmt 1))
       (mk_xnvme_dev 1 (mk_xnvme_geo XNVME_GEO_ZONED 512 524288 131072 128 8))
       (mk_cs (Some FLA_CS_ZNS) (Some (mk_cs_zns 128 8)))) 0 = Some 6.
Proof. vm_compute. reflexivity. Qed.

Lemma nelems_loop_first total sz calc n md :
  0 < n -> calc n = Some md -> md <= u64 (total - u32 (n * sz)) ->
  nelems_loop total sz calc (Z.to_nat n) = Some n.
Proof.
  intros Hn Hc Hle. destruct (Z.to_nat n) as [|k] eqn:E; [lia|]. cbn [nelems_loop].
  replace (Z.of_nat (S k)) with n by lia. rewrite Hc. bind_step.
  by rewrite (proj2 (Z.leb_le _ _)).
Qed.

(** On a device too small for the pool segment the 64-bit difference wraps: for
    three blocks of 512 bytes, one of them the super block, and a pool segment of
    three, [fla_mkfs_geo_calc] asks for the slabs that fit in 2^64 - 1 blocks and
    gets 2^32 - 1 of them. *)
Example tiny_device_wraps :
  fla_geo_pool_sgmt_calc 1 512 = Some (mk_pool_sgmt 1 1 2 1) /\
  fla_nelems_max (u64 (3 - 1 - fla_geo_pool_sgmt_nblocks (mk_pool_sgmt 1 1 2 1))) 1
    (fla_slab_sgmt_calc_v 512) = Some (2 ^ 32 - 1).
Proof.
  split; [reflexivity|]. unfold fla_nelems_max.
  change (u64 (3 - 1 - _)) with (2 ^ 64 - 1).
  change (u32 ((2 ^ 64 - 1) / 1)) with (2 ^ 32 - 1). change (1 =? 0) with false. cbv iota.
  apply (nelems_loop_first _ _ _ _ 201326592); [lia|reflexivity|vm_compute; congruence].
Qed.
