(* ===== verification/CommandSet.v ===== *)
(** * CommandSet: [src/src/flexalloc_cs.c], [flexalloc_cs_cns.c],
    [flexalloc_cs_zns.c] and the object addresses of [flexalloc_mm.c]

    The two command sets install a table of six functions; [fs_cs] names the
    installed one and the [cs_*] functions below dispatch on it.  The conventional
    set does nothing on destroy and seal, the zoned one sends a zone-management
    command per underlying object. *)
From S2P Require Import Prelude Util Freelist Hash XnvmeEnv Flexalloc PoolEntry Geometry.

(** ** Object addresses *)

Definition pool_entry_at (fs : flexalloc) (ndx : Z) : option fla_pool_entry :=
  lookupZ (ps_entries (fs_pools fs)) ndx.
Definition entry_fnc_at (fs : flexalloc) (ndx : Z) : option fla_pool_entry_fnc :=
  lookupZ (ps_entrie_funcs (fs_pools fs)) ndx.

Definition fla_object_slba (fs : flexalloc) (obj : fla_object) (pool : fla_pool) : option Z :=
  e ← pool_entry_at fs (p_ndx pool);
  off ← fla_geo_slab_lb_off fs (o_slab_id obj);
  Some (u64 (off + u32 (pe_obj_nlb e * o_entry_ndx obj))).

Definition fla_object_soffset (fs : flexalloc) (obj : fla_object) (pool : fla_pool) : option Z :=
  slba ← fla_object_slba fs obj pool; Some (u64 (slba * d_lb_nbytes (fs_dev fs))).

Definition fla_object_elba (fs : flexalloc) (obj : fla_object) (pool : fla_pool) : option Z :=
  e ← pool_entry_at fs (p_ndx pool);
  f ← entry_fnc_at fs (p_ndx pool);
  off ← fla_geo_slab_lb_off fs (o_slab_id obj);
  elba ← get_slab_elba f e (o_entry_ndx obj);
  Some (u64 (off + elba)).

Definition fla_object_eoffset (fs : flexalloc) (obj : fla_object) (pool : fla_pool) : option Z :=
  elba ← fla_object_elba fs obj pool; Some (u64 (elba * d_lb_nbytes (fs_dev fs))).

(** ** Selection of the command set *)

Definition fla_cs_type (dev : xnvme_dev) : option fla_cs_t * Z :=
  match fla_xne_dev_type dev with
  | XNVME_GEO_ZONED => (Some FLA_CS_ZNS, 0)
  | XNVME_GEO_CONVENTIONAL => (Some FLA_CS_CNS, 0)
  | XNVME_GEO_OTHER _ => (None, 1)
  end.

Definition set_cs (cs : fla_cs) (fs : flexalloc) : flexalloc :=
  mk_fs (fs_dev fs) (fs_state fs) (fs_cache fs) (fs_geo fs) (fs_super fs) (fs_pools fs) (fs_slabs fs) cs.

Definition fla_cs_cns_init (fs : flexalloc) : flexalloc * Z :=
  (set_cs (mk_cs (Some FLA_CS_CNS) (cs_zns (fs_cs fs))) fs, 0).

Definition fla_cs_cns_fini (fs : flexalloc) : flexalloc * Z := (fs, 0).

Definition fla_cs_cns_pool_check (fs : flexalloc) (obj_nlb : Z) : Z := 0.

Definition fla_cs_zns_pool_check (fs : flexalloc) (obj_nlb : Z) : option Z :=
  zns ← cs_zns (fs_cs fs);
  Some (if obj_nlb =? zns_nzsect zns then 0 else 1).

(** Freed: the private data is gone. *)
Definition fla_cs_zns_fini (fs : flexalloc) : flexalloc * Z :=
  (set_cs (mk_cs (cs_fncs (fs_cs fs)) None) fs, 0).

Definition cs_check_pool (fs : flexalloc) (obj_nlb : Z) : option Z :=
  cs ← cs_fncs (fs_cs fs);
  match cs with
  | FLA_CS_CNS => Some (fla_cs_cns_pool_check fs obj_nlb)
  | FLA_CS_ZNS => fla_cs_zns_pool_check fs obj_nlb
  end.

Section world.
Context {W : Type} `{XnvmeEnv W}.

Definition fla_cs_zns_init (w : W) (fs : flexalloc) : W * flexalloc * Z :=
  let '(w, ok) := malloc w 16 in
  if ok then
    let dev := d_dev (fs_dev fs) in
    (w, set_cs (mk_cs (Some FLA_CS_ZNS)
                  (Some (mk_cs_zns (fla_xne_dev_znd_zones dev) (fla_xne_dev_znd_sect dev)))) fs, 0)
  else (w, fs, - ENOMEM).

Definition fla_init_cs (w : W) (fs : flexalloc) : W * flexalloc * Z :=
  match fla_cs_type (d_dev (fs_dev fs)) with
  | (Some FLA_CS_CNS, 0) => let '(fs, err) := fla_cs_cns_init fs in (w, fs, err)
  | (Some FLA_CS_ZNS, 0) => fla_cs_zns_init w fs
  | (_, err) => (w, fs, err)
  end.

Definition fla_cs_cns_object_seal (w : W) (fs : flexalloc) : option (W * Z) := Some (w, 0).
Definition fla_cs_cns_object_destroy (w : W) (fs : flexalloc) : option (W * Z) := Some (w, 0).

(** The loop of the two zone-management routines: [n] zones from zone [fla_obj] of
    the object; the errors are or-ed. *)
Fixpoint manage_zones_loop (n : nat) (w : W) (dev : xnvme_dev) (obj_slba nzsect fla_obj err : Z)
    (act : znd_action) : W * Z :=
  match n with
  | O => (w, err)
  | S n =>
      let '(w, e) := fla_xne_dev_znd_send_mgmt w dev (u64 (obj_slba + nzsect * fla_obj)) act false in
      manage_zones_loop n w dev obj_slba nzsect (fla_obj + 1) (Z.lor err e) act
  end.

Definition fla_znd_manage_zones_object (act : znd_action) (w : W) (fs : flexalloc) (pool : fla_pool)
    (obj : fla_object) : option (W * Z) :=
  obj_slba ← fla_object_slba fs obj pool;
  e ← pool_entry_at fs (p_ndx pool);
  f ← entry_fnc_at fs (p_ndx pool);
  num_fla_objs ← fla_pool_num_fla_objs f e;
  zns ← cs_zns (fs_cs fs);
  Some (manage_zones_loop (Z.to_nat num_fla_objs) w (d_dev (fs_dev fs)) obj_slba (zns_nzsect zns) 0 0 act).

Definition fla_znd_manage_zones_object_finish := fla_znd_manage_zones_object MGMT_SEND_FINISH.
Definition fla_znd_manage_zones_object_reset := fla_znd_manage_zones_object MGMT_SEND_RESET.

Definition fla_cs_zns_object_seal (w : W) (fs : flexalloc) (pool : fla_pool) (obj : fla_object) :
    option (W * Z) := fla_znd_manage_zones_object_finish w fs pool obj.
Definition fla_cs_zns_object_destroy (w : W) (fs : flexalloc) (pool : fla_pool) (obj : fla_object) :
    option (W * Z) := fla_znd_manage_zones_object_reset w fs pool obj.

Definition cs_object_destroy (w : W) (fs : flexalloc) (pool : fla_pool) (obj : fla_object) :
    option (W * Z) :=
  cs ← cs_fncs (fs_cs fs);
  match cs with
  | FLA_CS_CNS => fla_cs_cns_object_destroy w fs
  | FLA_CS_ZNS => fla_cs_zns_object_destroy w fs pool obj
  end.

Definition fla_object_seal (w : W) (fs : flexalloc) (pool : fla_pool) (obj : fla_object) :
    option (W * Z) :=
  cs ← cs_fncs (fs_cs fs);
  match cs with
  | FLA_CS_CNS => fla_cs_cns_object_seal w fs
  | FLA_CS_ZNS => fla_cs_zns_object_seal w fs pool obj
  end.
End world.
