(* ===== verification/SlabList.v ===== *)
(** * SlabList: the slab lists, [src/src/flexalloc_ll.c], and the slab lookups of
    [src/src/flexalloc_mm.c]

    Slab headers are linked by slab ids: the free slabs through a head and a tail
    id, the slabs of a pool through three head ids.  A head is passed by address in
    C; here an operation takes the head's value and returns the new one, and the
    caller stores it.  [None] is an access outside the header array. *)
From S2P Require Import Prelude Hash XnvmeEnv Flexalloc.

(** ** Lookups *)

Definition fla_slab_range_check_id (fs : flexalloc) (s_id : Z) : bool :=
  u32 (g_nslabs (fs_geo fs) - 1) <? s_id.

(** The header's index, [None] for [NULL]. *)
Definition fla_slab_header_ptr (s_id : Z) (fs : flexalloc) : option Z :=
  if fla_slab_range_check_id fs s_id then None else Some s_id.

(** The id is the pointer difference; the second component is the error. *)
Definition fla_slab_id (slab : Z) (fs : flexalloc) : Z * Z :=
  let slab_id := u32 slab in
  (slab_id, if fla_slab_range_check_id fs slab_id then 1 else 0).

Definition headers (fs : flexalloc) : list fla_slab_header := ss_headers (fs_slabs fs).
Definition with_headers (fs : flexalloc) (hs : list fla_slab_header) : flexalloc :=
  set_slabs (set_headers hs (fs_slabs fs)) fs.

(** Assign to a field of the header at [slab]. *)
Definition header_upd (fs : flexalloc) (slab : Z) (f : fla_slab_header -> fla_slab_header) :
    option flexalloc :=
  h ← lookupZ (headers fs) slab;
  Some (with_headers fs (insertZ slab (f h) (headers fs))).

(** ** Lists with a head *)

(** The assignments at the end of [fla_hdll_prepend]. *)
Definition prepend_link (fs : flexalloc) (slab slab_id head : Z) : option (flexalloc * Z * Z) :=
  fs ← header_upd fs slab (sl_set_next head);
  fs ← header_upd fs slab (sl_set_prev FLA_LINKED_LIST_NULL);
  Some (fs, slab_id, 0).

Definition fla_hdll_prepend (fs : flexalloc) (slab head : Z) : option (flexalloc * Z * Z) :=
  let '(slab_id, err) := fla_slab_id slab fs in
  if negb (err =? 0) then Some (fs, head, err) else
  if head =? FLA_LINKED_LIST_NULL then prepend_link fs slab slab_id head
  else
    match fla_slab_header_ptr head fs with
    | None => Some (fs, head, 1)
    | Some head_slab =>
        fs ← header_upd fs head_slab (sl_set_prev slab_id); prepend_link fs slab slab_id head
    end.

(** The second half of [fla_hdll_remove]: the back link of the successor. *)
Definition unlink_next (fs : flexalloc) (slab head : Z) : option (flexalloc * Z * Z) :=
  s ← lookupZ (headers fs) slab;
  if sl_next s =? FLA_LINKED_LIST_NULL then Some (fs, head, 0)
  else
    match fla_slab_header_ptr (sl_next s) fs with
    | None => Some (fs, head, 1)
    | Some temp_slab => fs ← header_upd fs temp_slab (sl_set_prev (sl_prev s)); Some (fs, head, 0)
    end.

Definition fla_hdll_remove (fs : flexalloc) (slab head : Z) : option (flexalloc * Z * Z) :=
  s ← lookupZ (headers fs) slab;
  if sl_prev s =? FLA_LINKED_LIST_NULL then unlink_next fs slab (sl_next s)
  else
    match fla_slab_header_ptr (sl_prev s) fs with
    | None => Some (fs, head, 1)
    | Some temp_slab => fs ← header_upd fs temp_slab (sl_set_next (sl_next s)); unlink_next fs slab head
    end.

(** The loop of [fla_hdll_remove_all]; [fuel] is the number of slabs, the bound of
    the source's loop. *)
Fixpoint remove_all_loop (fuel : nat) (fs : flexalloc) (head : Z)
    (execute_on_release : flexalloc -> Z -> option (flexalloc * Z)) : option (flexalloc * Z * Z) :=
  match fuel with
  | S fuel =>
      if head =? FLA_LINKED_LIST_NULL then Some (fs, head, 0)
      else
        match fla_slab_header_ptr head fs with
        | None => Some (fs, head, 1)
        | Some curr_slab =>
            s ← lookupZ (headers fs) curr_slab;
            let head := sl_next s in
            '(fs, err) ← execute_on_release fs curr_slab;
            if negb (err =? 0) then Some (fs, head, err)
            else remove_all_loop fuel fs head execute_on_release
        end
  | O => Some (fs, head, if head =? FLA_LINKED_LIST_NULL then 0 else 1)
  end.

Definition fla_hdll_remove_all (fs : flexalloc) (head : Z)
    (execute_on_release : flexalloc -> Z -> option (flexalloc * Z)) : option (flexalloc * Z * Z) :=
  remove_all_loop (Z.to_nat (g_nslabs (fs_geo fs))) fs head execute_on_release.

(** ** Lists with a head and a tail *)

(** Results: the handle, head and tail, the removed slab and the error.  Neither
    address is [NULL] at the only call. *)
Definition fla_edll_remove_head (fs : flexalloc) (head tail : Z) :
    option (flexalloc * Z * Z * option Z * Z) :=
  match fla_slab_header_ptr head fs with
  | None => Some (fs, head, tail, None, -1)
  | Some a_slab =>
      if head =? tail then
        Some (fs, FLA_LINKED_LIST_NULL, FLA_LINKED_LIST_NULL, Some a_slab, 0)
      else
        s ← lookupZ (headers fs) a_slab;
        match fla_slab_header_ptr (sl_next s) fs with
        | None => Some (fs, head, tail, Some a_slab, -1)
        | Some new_head =>
            let head := sl_next s in
            fs ← header_upd fs new_head (sl_set_prev FLA_LINKED_LIST_NULL);
            Some (fs, head, tail, Some a_slab, 0)
        end
  end.

Definition fla_edll_add_tail (fs : flexalloc) (head tail r_slab : Z) :
    option (flexalloc * Z * Z * Z) :=
  let '(r_slab_id, err) := fla_slab_id r_slab fs in
  if negb (err =? 0) then Some (fs, head, tail, err) else
  fs ← header_upd fs r_slab (sl_set_next FLA_LINKED_LIST_NULL);
  if (head =? tail) && (head =? FLA_LINKED_LIST_NULL) then
    fs ← header_upd fs r_slab (sl_set_prev FLA_LINKED_LIST_NULL);
    Some (fs, r_slab_id, r_slab_id, 0)
  else
    match fla_slab_header_ptr tail fs with
    | None => Some (fs, head, tail, 1)
    | Some tail_slab =>
        fs ← header_upd fs tail_slab (sl_set_next r_slab_id);
        fs ← header_upd fs r_slab (sl_set_prev tail);
        Some (fs, head, r_slab_id, 0)
    end.

(** ** What the links represent *)

(** First and last id of a list, with a default. *)
Definition first_id (d : Z) (l : list Z) : Z := match l with [] => d | x :: _ => x end.
Fixpoint last_id (d : Z) (l : list Z) : Z := match l with [] => d | x :: l => last_id x l end.

(** [lseg hs p l q]: the headers of [l] are linked in order, the first one back to
    [p] and the last one on to [q]. *)
Fixpoint lseg (hs : list fla_slab_header) (p : Z) (l : list Z) (q : Z) : Prop :=
  match l with
  | [] => True
  | x :: l =>
      exists h, lookupZ hs x = Some h /\ sl_prev h = p /\ sl_next h = first_id q l /\ lseg hs x l q
  end.

(** A list reached through its head. *)
Record hdll (hs : list fla_slab_header) (head : Z) (l : list Z) : Prop := {
  hd_head : head = first_id FLA_LINKED_LIST_NULL l;
  hd_links : lseg hs FLA_LINKED_LIST_NULL l FLA_LINKED_LIST_NULL;
  hd_nodup : NoDup l
}.

(** A list with a tail; the back link of its first element is not used. *)
Record edll (hs : list fla_slab_header) (head tail : Z) (l : list Z) : Prop := {
  ed_head : head = first_id FLA_LINKED_LIST_NULL l;
  ed_tail : tail = last_id FLA_LINKED_LIST_NULL l;
  ed_links : exists p, lseg hs p l FLA_LINKED_LIST_NULL;
  ed_nodup : NoDup l
}.

(** What the operations leave alone: owner and reference count. *)
Definition meta (hs : list fla_slab_header) : list (Z * Z) :=
  (fun h => (sl_pool h, sl_refcount h)) <$> hs.

(** Headers small enough that no id is the list terminator. *)
Record hdrs_ok (fs : flexalloc) : Prop := {
  ho_len : Z.of_nat (length (headers fs)) = g_nslabs (fs_geo fs);
  ho_range : 0 < g_nslabs (fs_geo fs) < FLA_LINKED_LIST_NULL
}.

(** ** Lemmas on segments *)

Lemma first_id_app d l1 l2 : first_id d (l1 ++ l2) = first_id (first_id d l2) l1.
Proof. by destruct l1. Qed.
Lemma last_id_app d l1 l2 : last_id d (l1 ++ l2) = last_id (last_id d l1) l2.
Proof. revert d. induction l1 as [|x l1 IH]; intros d; [done|]. apply IH. Qed.

Lemma last_id_in d l : l <> [] -> last_id d l ∈ l.
Proof.
  revert d. induction l as [|x l IH]; intros d Hl; [done|]. cbn.
  destruct l as [|y l]; [cbn; set_solver|]. right. by apply IH.
Qed.

Lemma lseg_app hs p l1 l2 q :
  lseg hs p (l1 ++ l2) q <-> lseg hs p l1 (first_id q l2) /\ lseg hs (last_id p l1) l2 q.
Proof.
  revert p. induction l1 as [|x l1 IH]; intros p; cbn; [tauto|].
  setoid_rewrite IH. setoid_rewrite first_id_app. split.
  - intros (h & ? & ? & ? & ? & ?). split; [|done]. by exists h.
  - intros [(h & ? & ? & ? & ?) ?]. by exists h.
Qed.

(** A segment depends on the links of its own headers only. *)
Lemma lseg_frame hs hs' p l q :
  (forall x h, x ∈ l -> lookupZ hs x = Some h ->
     exists h', lookupZ hs' x = Some h' /\ sl_prev h' = sl_prev h /\ sl_next h' = sl_next h) ->
  lseg hs p l q -> lseg hs' p l q.
Proof.
  revert p. induction l as [|x l IH]; intros p Hf; cbn; [done|].
  intros (h & Hx & Hp & Hn & Hl). destruct (Hf x h) as (h' & ? & Ep & En); [set_solver|done|].
  exists h'. split; [done|]. split; [congruence|]. split; [congruence|].
  apply IH; [|done]. intros y hy Hy. apply Hf. set_solver.
Qed.

Lemma lseg_frame_eq hs hs' p l q :
  (forall x, x ∈ l -> lookupZ hs' x = lookupZ hs x) -> lseg hs p l q -> lseg hs' p l q.
Proof. intros Hf. apply lseg_frame. intros x h Hx Hh. exists h. by rewrite Hf. Qed.

Lemma lseg_lookup hs p l q x : lseg hs p l q -> x ∈ l -> exists h, lookupZ hs x = Some h.
Proof.
  revert p. induction l as [|y l IH]; intros p; cbn; [set_solver|].
  intros (h & ? & ? & ? & Hl). rewrite elem_of_cons. intros [->|Hx]; [by exists h|]. by eapply IH.
Qed.

(** Relinking the two ends of a segment. *)
Lemma lseg_set_prev hs p p' x l q h :
  lseg hs p (x :: l) q -> (x ∉ l) -> lookupZ hs x = Some h ->
  lseg (insertZ x (sl_set_prev p' h) hs) p' (x :: l) q.
Proof.
  cbn. intros (h0 & Hx & Hp & Hn & Hl) Hnin Hh. rewrite Hx in Hh. injection Hh as ->.
  exists (sl_set_prev p' h). rewrite lookupZ_insertZ_eq by (by eapply lookupZ_Some).
  repeat split; [done|]. eapply lseg_frame_eq, Hl. intros y Hy.
  apply lookupZ_insertZ_ne. intros ->. done.
Qed.

Lemma lseg_set_next hs p l y q q' h :
  lseg hs p (l ++ [y]) q -> NoDup (l ++ [y]) -> lookupZ hs y = Some h ->
  lseg (insertZ y (sl_set_next q' h) hs) p (l ++ [y]) q'.
Proof.
  rewrite !lseg_app. cbn [lseg]. intros [Hl (h0 & Hy & Hp & Hn & _)] Hnd Hh.
  rewrite Hy in Hh. injection Hh as ->. apply NoDup_app in Hnd as (_ & Hd & _). split.
  - eapply lseg_frame_eq, Hl. intros z Hz. apply lookupZ_insertZ_ne. intros <-. eapply Hd; set_solver.
  - exists (sl_set_next q' h). rewrite lookupZ_insertZ_eq by (by eapply lookupZ_Some). done.
Qed.

(** ** Lemmas on the handle *)

Lemma headers_with fs hs : headers (with_headers fs hs) = hs.
Proof. done. Qed.
Lemma with_headers_twice fs hs hs' : with_headers (with_headers fs hs) hs' = with_headers fs hs'.
Proof. done. Qed.

Lemma header_upd_eq fs slab f h : lookupZ (headers fs) slab = Some h ->
  header_upd fs slab f = Some (with_headers fs (insertZ slab (f h) (headers fs))).
Proof. intros E. unfold header_upd. by rewrite E. Qed.

Lemma range_check fs id : 0 <= id -> 0 < g_nslabs (fs_geo fs) < 2 ^ 32 ->
  fla_slab_range_check_id fs id = bool_decide (g_nslabs (fs_geo fs) <= id).
Proof.
  intros. unfold fla_slab_range_check_id. rewrite u32_small by (unfold is_u32; lia).
  destruct (Z.ltb_spec (g_nslabs (fs_geo fs) - 1) id); symmetry;
    [apply bool_decide_eq_true|apply bool_decide_eq_false]; lia.
Qed.

Section lookups.
Context (fs : flexalloc) (H : hdrs_ok fs).

Lemma in_range id h : lookupZ (headers fs) id = Some h -> 0 <= id < g_nslabs (fs_geo fs).
Proof. intros E%lookupZ_Some. by rewrite (ho_len fs H) in E. Qed.

Lemma nslabs_u32 : 0 < g_nslabs (fs_geo fs) < 2 ^ 32.
Proof. pose proof (ho_range fs H). unfold FLA_LINKED_LIST_NULL in *. lia. Qed.

Lemma header_ptr_some id : 0 <= id < g_nslabs (fs_geo fs) -> fla_slab_header_ptr id fs = Some id.
Proof.
  intros. unfold fla_slab_header_ptr. rewrite range_check by (lia || apply nslabs_u32).
  rewrite bool_decide_eq_false_2 by lia. done.
Qed.

Lemma header_ptr_none id : g_nslabs (fs_geo fs) <= id -> fla_slab_header_ptr id fs = None.
Proof.
  intros. pose proof nslabs_u32. unfold fla_slab_header_ptr. rewrite range_check by lia.
  by rewrite bool_decide_eq_true_2.
Qed.

Lemma slab_id_ok id : 0 <= id < g_nslabs (fs_geo fs) -> fla_slab_id id fs = (id, 0).
Proof.
  intros. pose proof nslabs_u32. unfold fla_slab_id.
  rewrite u32_small by (unfold is_u32; lia). rewrite range_check by lia.
  by rewrite bool_decide_eq_false_2 by lia.
Qed.

Lemma id_not_null id h : lookupZ (headers fs) id = Some h -> id <> FLA_LINKED_LIST_NULL.
Proof. intros E%in_range. pose proof (ho_range fs H). lia. Qed.

Lemma hdrs_ok_with hs : length hs = length (headers fs) -> hdrs_ok (with_headers fs hs).
Proof. intros E. split; [|by apply H]. rewrite headers_with, E. apply H. Qed.
End lookups.

Lemma meta_insert hs x h h' : lookupZ hs x = Some h -> sl_pool h' = sl_pool h ->
  sl_refcount h' = sl_refcount h -> meta (insertZ x h' hs) = meta hs.
Proof.
  intros Hx Hp Hr. unfold meta. apply lookupZ_ext. intros i. rewrite !lookupZ_fmap.
  destruct (decide (x = i)) as [->|].
  - rewrite lookupZ_insertZ_eq, Hx by (by eapply lookupZ_Some). cbn. congruence.
  - by rewrite lookupZ_insertZ_ne.
Qed.

(** [changed D hs hs']: only the links of the headers in [D] differ. *)
Record changed (D : list Z) (hs hs' : list fla_slab_header) : Prop := {
  ch_meta : meta hs' = meta hs;
  ch_len : length hs' = length hs;
  ch_out : forall x, (x ∉ D) -> lookupZ hs' x = lookupZ hs x
}.

Lemma changed_step D hs hs' x h h' : x ∈ D -> lookupZ hs' x = Some h ->
  sl_pool h' = sl_pool h -> sl_refcount h' = sl_refcount h ->
  changed D hs hs' -> changed D hs (insertZ x h' hs').
Proof.
  intros Hin Hx Hp Hr [Hm Hl Ho]. split.
  - by rewrite <- Hm; eapply meta_insert.
  - by rewrite length_insertZ.
  - intros y Hy. rewrite lookupZ_insertZ_ne by (intros ->; done). by apply Ho.
Qed.

(** ** Specifications of the operations *)

Lemma hdll_lookup hs head l x : hdll hs head l -> x ∈ l -> exists h, lookupZ hs x = Some h.
Proof. intros [_ Hl _]. by eapply lseg_lookup. Qed.

Lemma changed_mono D D' hs hs' : (forall x, x ∈ D -> x ∈ D') -> changed D hs hs' -> changed D' hs hs'.
Proof. intros Hs [? ? Ho]. split; [done..|]. intros x Hx. apply Ho. set_solver. Qed.

Lemma changed_trans D hs hs1 hs2 : changed D hs hs1 -> changed D hs1 hs2 -> changed D hs hs2.
Proof.
  intros [M1 L1 O1] [M2 L2 O2]. split; [congruence..|]. intros x Hx. by rewrite O2, O1.
Qed.

Lemma changed_lseg D hs hs' p l q : changed D hs hs' -> (forall x, x ∈ l -> x ∉ D) ->
  lseg hs p l q -> lseg hs' p l q.
Proof. intros [_ _ Ho] Hd. apply lseg_frame_eq. intros x Hx. apply Ho. by apply Hd. Qed.

Lemma prepend_link_spec fs hs slab h l :
  lookupZ hs slab = Some h -> lseg hs slab l FLA_LINKED_LIST_NULL -> NoDup l -> (slab ∉ l) ->
  exists hs', prepend_link (with_headers fs hs) slab slab (first_id FLA_LINKED_LIST_NULL l) =
      Some (with_headers fs hs', slab, 0) /\
    hdll hs' slab (slab :: l) /\ changed [slab] hs hs'.
Proof.
  intros Hx Hseg Hnd Hnin. pose proof (lookupZ_Some _ _ _ Hx) as Hr. unfold prepend_link.
  erewrite header_upd_eq by (rewrite headers_with; exact Hx). bind_step.
  erewrite header_upd_eq by (rewrite !headers_with; by apply lookupZ_insertZ_eq).
  bind_step. rewrite !headers_with, !with_headers_twice.
  eexists. split; [done|]. split.
  - split; [done| |by constructor]. cbn [lseg]. eexists.
    split; [apply lookupZ_insertZ_eq; by rewrite length_insertZ|].
    split; [done|]. split; [done|].
    eapply lseg_frame_eq, Hseg. intros y Hy. assert (slab <> y) by (intros ->; done).
    by rewrite !lookupZ_insertZ_ne.
  - eapply changed_step; [set_solver|by apply lookupZ_insertZ_eq|done..|].
    by eapply changed_step; [set_solver|exact Hx|..].
Qed.

Lemma with_headers_id fs : with_headers fs (headers fs) = fs.
Proof. by destruct fs as [? ? ? ? ? ? []]. Qed.

Lemma prepend_spec fs slab head l :
  hdrs_ok fs -> hdll (headers fs) head l -> 0 <= slab < g_nslabs (fs_geo fs) -> (slab ∉ l) ->
  exists hs', fla_hdll_prepend fs slab head = Some (with_headers fs hs', slab, 0) /\
    hdll hs' slab (slab :: l) /\ changed (slab :: l) (headers fs) hs'.
Proof.
  intros Hok [Eh Hl Hnd] Hs Hnin. unfold fla_hdll_prepend. rewrite slab_id_ok by done.
  no_err.
  destruct (lookupZ_is_Some (headers fs) slab) as [h Hh]; [by rewrite (ho_len fs Hok)|].
  destruct l as [|x l]; cbn [first_id] in Eh; subst head.
  - rewrite Z.eqb_refl.
    destruct (prepend_link_spec fs (headers fs) slab h []) as (hs' & E & Hd & Hc);
      [done..|constructor|done|].
    rewrite with_headers_id in E. by exists hs'.
  - pose proof Hl as (hx & Hx & _).
    rewrite (proj2 (Z.eqb_neq _ _)) by (by eapply id_not_null).
    rewrite header_ptr_some by (done || by eapply in_range).
    erewrite header_upd_eq by exact Hx. bind_step.
    set (hs1 := insertZ x _ _).
    assert (changed (slab :: x :: l) (headers fs) hs1) as Hc1.
    { eapply changed_step; [set_solver|done..]. }
    destruct (prepend_link_spec fs hs1 slab h (x :: l)) as (hs' & E & Hd & Hc2); try done.
    + unfold hs1. rewrite lookupZ_insertZ_ne; [done|]. intros ->. set_solver.
    + eapply lseg_set_prev; [done| |done]. by inversion Hnd.
    + exists hs'. cbn [first_id] in E. rewrite E. split; [done|]. split; [done|].
      eapply changed_trans; [done|]. eapply changed_mono, Hc2. set_solver.
Qed.

Lemma unlink_next_spec fs hs1 slab s l2 head :
  hdrs_ok fs -> length hs1 = length (headers fs) ->
  lookupZ hs1 slab = Some s -> sl_next s = first_id FLA_LINKED_LIST_NULL l2 ->
  lseg hs1 slab l2 FLA_LINKED_LIST_NULL -> NoDup (slab :: l2) ->
  exists hs', unlink_next (with_headers fs hs1) slab head = Some (with_headers fs hs', head, 0) /\
    lseg hs' (sl_prev s) l2 FLA_LINKED_LIST_NULL /\ changed (take 1 l2) hs1 hs'.
Proof.
  intros Hok Hlen Hs Hn Hl2 Hnd. unfold unlink_next.
  rewrite headers_with, Hs. bind_step. rewrite Hn.
  pose proof (hdrs_ok_with fs Hok hs1 Hlen) as Hok1.
  destruct l2 as [|z l2].
  - rewrite Z.eqb_refl. by exists hs1.
  - cbn [first_id]. pose proof Hl2 as (hz & Hz & _).
    rewrite (proj2 (Z.eqb_neq _ _)) by (by eapply (id_not_null _ Hok1)).
    rewrite header_ptr_some by (done || by eapply (in_range _ Hok1)).
    erewrite header_upd_eq by exact Hz. bind_step.
    rewrite headers_with, with_headers_twice. eexists. split; [done|]. split.
    + eapply lseg_set_prev; [done| |done]. apply NoDup_cons in Hnd as [_ Hnd]. by inversion Hnd.
    + eapply changed_step; [cbn; set_solver|done..].
Qed.

Lemma NoDup_middle {A} (l1 l2 : list A) x : NoDup (l1 ++ x :: l2) ->
  (x ∉ l1) /\ NoDup (x :: l2) /\ NoDup (l1 ++ l2) /\ (forall y, y ∈ l1 -> y ∉ l2).
Proof.
  intros (N1 & Hd & N2)%NoDup_app. pose proof N2 as [? N3]%NoDup_cons.
  split; [intros Hx; by eapply Hd; [exact Hx|left]|]. split; [done|].
  assert (forall y, y ∈ l1 -> y ∉ l2) as Hd' by (intros y ??; eapply Hd; [done|by right]).
  split; [|done]. by apply NoDup_app.
Qed.

Lemma remove_spec fs slab head l1 l2 :
  hdrs_ok fs -> hdll (headers fs) head (l1 ++ slab :: l2) ->
  exists hs', fla_hdll_remove fs slab head =
      Some (with_headers fs hs', first_id FLA_LINKED_LIST_NULL (l1 ++ l2), 0) /\
    hdll hs' (first_id FLA_LINKED_LIST_NULL (l1 ++ l2)) (l1 ++ l2) /\
    changed (l1 ++ l2) (headers fs) hs'.
Proof.
  intros Hok [Eh Hl Hnd]. apply lseg_app in Hl as [Hl1 (s & Hs & Hp & Hn & Hl2)].
  cbn [first_id] in Hl1. apply NoDup_middle in Hnd as (Hn1 & Hnd2 & Hnd' & Hdis).
  (* what the forward link of the predecessor leaves *)
  assert (exists hs1 head1, (forall r, fla_hdll_remove fs slab head = r ->
      unlink_next (with_headers fs hs1) slab head1 = r) /\
    head1 = first_id FLA_LINKED_LIST_NULL (l1 ++ l2) /\ changed l1 (headers fs) hs1 /\
    lseg hs1 FLA_LINKED_LIST_NULL l1 (first_id FLA_LINKED_LIST_NULL l2)) as
    (hs1 & head1 & Er & -> & Hc1 & Hl1').
  { unfold fla_hdll_remove. rewrite Hs. bind_step. rewrite Hp.
    destruct l1 as [|y l1 _] using rev_ind.
    - rewrite Z.eqb_refl. exists (headers fs), (sl_next s). rewrite with_headers_id. by rewrite Hn.
    - rewrite last_id_app. cbn [last_id].
      destruct (lseg_lookup _ _ _ _ y Hl1) as [hy Hy]; [set_solver|].
      rewrite (proj2 (Z.eqb_neq _ _)) by (by eapply id_not_null).
      rewrite header_ptr_some by (done || by eapply in_range).
      erewrite header_upd_eq by exact Hy. bind_step. rewrite Hn.
      eexists _, head. split; [done|]. split; [by rewrite Eh; destruct l1|]. split.
      + eapply changed_step; [set_solver|done..].
      + eapply lseg_set_next; [done| |done]. by apply NoDup_app in Hnd' as (? & _). }
  assert (lookupZ hs1 slab = Some s) as Hs1 by (by rewrite (ch_out _ _ _ Hc1)).
  assert (lseg hs1 slab l2 FLA_LINKED_LIST_NULL) as Hl2'.
  { eapply changed_lseg; [done| |done]. intros x Hx Hx1. by eapply Hdis. }
  destruct (unlink_next_spec fs hs1 slab s l2 (first_id FLA_LINKED_LIST_NULL (l1 ++ l2)))
    as (hs' & E & Hl2'' & Hc2); try done; [apply Hc1|].
  exists hs'. rewrite (Er _ eq_refl) in E. split; [done|].
  assert (forall x, x ∈ take 1 l2 -> x ∈ l2) as Htk by (intros x; destruct l2; cbn; set_solver).
  split.
  - split; [done| |done]. apply lseg_app. rewrite Hp in Hl2''. split; [|done].
    eapply changed_lseg; [exact Hc2| |done]. intros x Hx Hx2. eapply Hdis; [exact Hx|by apply Htk].
  - apply (changed_trans _ _ hs1).
    + eapply changed_mono, Hc1. set_solver.
    + eapply changed_mono, Hc2. intros x Hx%Htk. set_solver.
Qed.

Lemma edll_remove_head_spec fs head tail x l :
  hdrs_ok fs -> edll (headers fs) head tail (x :: l) ->
  exists hs', fla_edll_remove_head fs head tail =
      Some (with_headers fs hs', first_id FLA_LINKED_LIST_NULL l, last_id FLA_LINKED_LIST_NULL l,
            Some x, 0) /\
    edll hs' (first_id FLA_LINKED_LIST_NULL l) (last_id FLA_LINKED_LIST_NULL l) l /\
    changed l (headers fs) hs'.
Proof.
  intros Hok [Eh Et [p Hl] Hnd]. cbn [first_id last_id] in Eh, Et. subst head tail.
  pose proof Hl as (h & Hx & _ & Hn & Hl'). apply NoDup_cons in Hnd as [Hnin Hnd].
  unfold fla_edll_remove_head. rewrite header_ptr_some by (done || by eapply in_range).
  destruct l as [|y l].
  - cbn [last_id]. rewrite Z.eqb_refl. exists (headers fs). rewrite with_headers_id.
    split; [done|]. split; [|done]. split; [done..|by exists p|constructor].
  - assert (last_id x (y :: l) ∈ y :: l) as Hin by (by apply last_id_in).
    rewrite (proj2 (Z.eqb_neq _ _)) by (intros E; rewrite <- E in Hin; done).
    rewrite Hx. bind_step. rewrite Hn. cbn [first_id].
    pose proof Hl' as (hy & Hy & _).
    rewrite header_ptr_some by (done || by eapply in_range).
    erewrite header_upd_eq by exact Hy. bind_step.
    eexists. split; [done|]. split.
    + split; [done..| |done]. exists FLA_LINKED_LIST_NULL.
      eapply lseg_set_prev; [done| |done]. by inversion Hnd.
    + eapply changed_step; [set_solver|done..].
Qed.

(** An empty list has no head to remove. *)
Lemma edll_remove_head_empty fs :
  hdrs_ok fs -> fla_edll_remove_head fs FLA_LINKED_LIST_NULL FLA_LINKED_LIST_NULL =
    Some (fs, FLA_LINKED_LIST_NULL, FLA_LINKED_LIST_NULL, None, -1).
Proof.
  intros Hok. unfold fla_edll_remove_head. rewrite header_ptr_none; [done..|].
  pose proof (ho_range fs Hok). lia.
Qed.

(** Linking a slab behind the last element [y] of a list. *)
Lemma link_tail hs p l y slab h hy : lseg hs p (l ++ [y]) FLA_LINKED_LIST_NULL -> lookupZ hs slab = Some h -> lookupZ hs y = Some hy ->
  NoDup ((l ++ [y]) ++ [slab]) ->
  let hs1 := insertZ slab (sl_set_next FLA_LINKED_LIST_NULL h) hs in
  let hs2 := insertZ y (sl_set_next slab hy) hs1 in
  let hs3 := insertZ slab (sl_set_prev y (sl_set_next FLA_LINKED_LIST_NULL h)) hs2 in
  lookupZ hs1 y = Some hy /\ lookupZ hs2 slab = Some (sl_set_next FLA_LINKED_LIST_NULL h) /\
  lseg hs3 p ((l ++ [y]) ++ [slab]) FLA_LINKED_LIST_NULL /\ changed ((l ++ [y]) ++ [slab]) hs hs3.
Proof.
  intros Hl Hh Hy Hnd hs1 hs2 hs3. pose proof (lookupZ_Some _ _ _ Hh) as Hlt. apply NoDup_app in Hnd as (Hnd & Hd & _).
  assert (slab <> y) as Hne by (intros ->; set_solver).
  assert (lookupZ hs1 y = Some hy) as Hy1 by (unfold hs1; by rewrite lookupZ_insertZ_ne).
  assert (lookupZ hs2 slab = Some (sl_set_next FLA_LINKED_LIST_NULL h)) as Hh2.
  { unfold hs2. rewrite lookupZ_insertZ_ne by done. by apply lookupZ_insertZ_eq. }
  do 2 (split; [done|]). split.
  - apply lseg_app. split.
    + apply (lseg_frame_eq hs2); [intros x Hx; unfold hs3; apply lookupZ_insertZ_ne; intros ->; set_solver|].
      cbn [first_id]. eapply lseg_set_next; [|done|done].
      eapply lseg_frame_eq, Hl. intros x Hx. apply lookupZ_insertZ_ne. intros ->. set_solver.
    + rewrite last_id_app. cbn. eexists. unfold hs3. rewrite lookupZ_insertZ_eq; [done|]. unfold hs2, hs1. by rewrite !length_insertZ.
  - eapply changed_step; [set_solver|exact Hh2|done..|]. eapply changed_step; [set_solver|exact Hy1|done..|].
    by eapply changed_step; [set_solver|exact Hh|..].
Qed.

Lemma edll_add_tail_spec fs head tail slab l :
  hdrs_ok fs -> edll (headers fs) head tail l -> 0 <= slab < g_nslabs (fs_geo fs) -> (slab ∉ l) ->
  exists hs', fla_edll_add_tail fs head tail slab =
      Some (with_headers fs hs', first_id FLA_LINKED_LIST_NULL (l ++ [slab]), slab, 0) /\
    edll hs' (first_id FLA_LINKED_LIST_NULL (l ++ [slab])) slab (l ++ [slab]) /\
    changed (l ++ [slab]) (headers fs) hs'.
Proof.
  intros Hok [Eh Et [p Hl] Hnd] Hs Hnin. unfold fla_edll_add_tail. rewrite slab_id_ok by done.
  no_err.
  destruct (lookupZ_is_Some (headers fs) slab) as [h Hh]; [by rewrite (ho_len fs Hok)|].
  pose proof (lookupZ_Some _ _ _ Hh) as Hlt.
  assert (NoDup (l ++ [slab])) as Hnd'.
  { apply NoDup_app. split; [done|]. split; [set_solver|]. apply NoDup_singleton. }
  erewrite header_upd_eq by exact Hh. bind_step.
  set (hs1 := insertZ slab (sl_set_next FLA_LINKED_LIST_NULL h) (headers fs)).
  assert (lookupZ hs1 slab = Some (sl_set_next FLA_LINKED_LIST_NULL h)) as Hh1 by (by apply lookupZ_insertZ_eq).
  destruct l as [|y l _] using rev_ind; cbn [first_id last_id] in Eh, Et.
  - subst head tail. rewrite Z.eqb_refl. cbn [andb].
    erewrite header_upd_eq by exact Hh1. bind_step.
    rewrite headers_with, with_headers_twice. eexists. split; [done|]. split.
    + split; [done..| |by apply NoDup_singleton]. exists FLA_LINKED_LIST_NULL. cbn.
      eexists. rewrite lookupZ_insertZ_eq by (unfold hs1; by rewrite length_insertZ). done.
    + eapply changed_step; [set_solver|exact Hh1|done..|]. by eapply changed_step; [set_solver|exact Hh|..].
  - rewrite last_id_app in Et. cbn [last_id] in Et. subst tail.
    destruct (lseg_lookup _ _ _ _ y Hl) as [hy Hy]; [set_solver|].
    destruct (link_tail (headers fs) p l y slab h hy Hl Hh Hy Hnd') as (Hy1 & Hh2 & Hl3 & Hc3).
    assert (head <> FLA_LINKED_LIST_NULL) as Hhd.
    { rewrite Eh. destruct l as [|z l]; cbn [first_id app]; [by eapply id_not_null|].
      destruct (lseg_lookup _ _ _ _ z Hl) as [hz Hz]; [set_solver|]. by eapply id_not_null. }
    rewrite (proj2 (Z.eqb_neq head FLA_LINKED_LIST_NULL)) by done. rewrite andb_false_r.
    unfold fla_slab_header_ptr. change (fla_slab_range_check_id (with_headers fs hs1) y)
      with (fla_slab_range_check_id fs y).
    fold (fla_slab_header_ptr y fs). rewrite header_ptr_some by (done || by eapply in_range).
    erewrite header_upd_eq by exact Hy1. bind_step. rewrite headers_with, with_headers_twice.
    erewrite header_upd_eq by exact Hh2. bind_step. rewrite headers_with, with_headers_twice. eexists. split.
    { by rewrite Eh, <- app_assoc, (first_id_app _ l), (first_id_app _ l). }
    split; [|exact Hc3]. split; [done|by rewrite last_id_app|by exists p|done].
Qed.

(** [fla_hdll_remove_all] visits the list in order: a release function that
    succeeds on the first slab and keeps an invariant of the rest. *)
Lemma remove_all_spec (I : flexalloc -> list Z -> Prop) rel fuel fs l :
  (forall fs x l, I fs (x :: l) -> exists h, lookupZ (headers fs) x = Some h /\ hdrs_ok fs /\
     sl_next h = first_id FLA_LINKED_LIST_NULL l /\
     exists fs', rel fs x = Some (fs', 0) /\ I fs' l) ->
  (length l <= fuel)%nat -> I fs l ->
  exists fs', remove_all_loop fuel fs (first_id FLA_LINKED_LIST_NULL l) rel =
    Some (fs', FLA_LINKED_LIST_NULL, 0) /\ I fs' [].
Proof.
  intros Hrel. revert fuel fs. induction l as [|x l IH]; intros fuel fs Hf HI.
  - exists fs. by destruct fuel.
  - destruct fuel as [|fuel]; [cbn in Hf; lia|]. cbn [remove_all_loop first_id].
    destruct (Hrel fs x l HI) as (h & Hx & Hok & Hn & fs' & Er & HI').
    rewrite (proj2 (Z.eqb_neq _ _)) by (by eapply id_not_null).
    rewrite header_ptr_some by (done || by eapply in_range).
    rewrite Hx. bind_step. rewrite Er. bind_step.
    no_err. rewrite Hn. apply IH; [cbn in Hf; lia|done].
Qed.

Lemma changed_hdll D hs hs' head l : changed D hs hs' -> (forall x, x ∈ l -> x ∉ D) ->
  hdll hs head l -> hdll hs' head l.
Proof. intros Hc Hd [? Hl ?]. split; [done| |done]. by eapply changed_lseg. Qed.

Lemma changed_edll D hs hs' head tail l : changed D hs hs' -> (forall x, x ∈ l -> x ∉ D) ->
  edll hs head tail l -> edll hs' head tail l.
Proof. intros Hc Hd [? ? [p Hl] ?]. split; [done..| |done]. exists p. by eapply changed_lseg. Qed.

(** ** Claims *)

(** C30: Moving a slab from one list of a pool to another, as object creation and
    destruction do, takes it out of the first list (from any position), puts it in
    front of the second, keeps both doubly linked and in order, does not touch a
    list that shares no slab with them, and changes no reference count or owner. *)
Theorem hdll_move_correct fs slab from to l1 l2 l3 other lo :
  hdrs_ok fs -> hdll (headers fs) from (l1 ++ slab :: l2) -> hdll (headers fs) to l3 ->
  hdll (headers fs) other lo ->
  (forall x, x ∈ l3 -> x ∉ l1 ++ slab :: l2) -> (forall x, x ∈ lo -> x ∉ l1 ++ slab :: l2 ++ l3) ->
  exists fs1 fs2 from' to', fla_hdll_remove fs slab from = Some (fs1, from', 0) /\
    fla_hdll_prepend fs1 slab to = Some (fs2, to', 0) /\
    hdll (headers fs2) from' (l1 ++ l2) /\ hdll (headers fs2) to' (slab :: l3) /\
    hdll (headers fs2) other lo /\ meta (headers fs2) = meta (headers fs).
Proof.
  intros Hok Hf Ht Ho Hd3 Hdo.
  destruct (hdll_lookup _ _ _ slab Hf) as [h Hh]; [set_solver|].
  destruct (remove_spec fs slab from l1 l2 Hok Hf) as (hs1 & E1 & Hf1 & Hc1).
  assert ((slab ∉ l1 ++ l2)) as Hnin.
  { destruct Hf as [_ _ (? & [? _]%NoDup_cons & _)%NoDup_middle]. set_solver. }
  pose proof (hdrs_ok_with fs Hok hs1 (ch_len _ _ _ Hc1)) as Hok1.
  destruct (prepend_spec (with_headers fs hs1) slab to l3 Hok1) as (hs2 & E2 & Ht2 & Hc2).
  { eapply changed_hdll; [exact Hc1| |done]. intros x Hx. specialize (Hd3 x Hx). set_solver. }
  { exact (in_range fs Hok slab h Hh). }
  { intros Hx. specialize (Hd3 slab Hx). set_solver. }
  rewrite headers_with in Hc2. rewrite with_headers_twice in E2.
  do 4 eexists. split; [exact E1|]. split; [exact E2|]. rewrite headers_with.
  split; [|split; [done|split]].
  - eapply changed_hdll; [exact Hc2| |done]. intros x Hx Hx3.
    apply elem_of_cons in Hx3 as [->|Hx3]; [done|]. specialize (Hd3 x Hx3). set_solver.
  - eapply changed_hdll; [exact Hc2|intros x Hx; specialize (Hdo x Hx); set_solver|].
    eapply changed_hdll; [exact Hc1|intros x Hx; specialize (Hdo x Hx); set_solver|done].
  - by rewrite (ch_meta _ _ _ Hc2), (ch_meta _ _ _ Hc1).
Qed.

(** The free slabs form a queue: removing the head returns the slab that was
    released first, and after releasing a slab to the tail the list holds the others
    in order followed by it; the headers outside the list are not touched. *)
Theorem free_list_fifo fs head tail x l slab :
  hdrs_ok fs -> edll (headers fs) head tail (x :: l) ->
  0 <= slab < g_nslabs (fs_geo fs) -> (slab ∉ l) ->
  exists fs1 head1 tail1 fs2 head2 tail2,
    fla_edll_remove_head fs head tail = Some (fs1, head1, tail1, Some x, 0) /\
    edll (headers fs1) head1 tail1 l /\
    fla_edll_add_tail fs1 head1 tail1 slab = Some (fs2, head2, tail2, 0) /\
    edll (headers fs2) head2 tail2 (l ++ [slab]) /\
    meta (headers fs2) = meta (headers fs) /\
    (forall y, (y ∉ l ++ [slab]) -> lookupZ (headers fs2) y = lookupZ (headers fs) y).
Proof.
  intros Hok He Hs Hnin.
  destruct (edll_remove_head_spec fs head tail x l Hok He) as (hs1 & E1 & He1 & Hc1).
  pose proof (hdrs_ok_with fs Hok hs1 (ch_len _ _ _ Hc1)) as Hok1.
  destruct (edll_add_tail_spec (with_headers fs hs1) _ _ slab l Hok1 He1 Hs Hnin)
    as (hs2 & E2 & He2 & Hc2).
  rewrite with_headers_twice in E2. rewrite headers_with in Hc2.
  do 6 eexists. split; [exact E1|]. split; [exact He1|]. split; [exact E2|]. split; [exact He2|].
  rewrite headers_with. split; [by rewrite (ch_meta _ _ _ Hc2), (ch_meta _ _ _ Hc1)|].
  intros y Hy. rewrite (ch_out _ _ _ Hc2), (ch_out _ _ _ Hc1); set_solver.
Qed.

(** Six slabs: a pool list 2, 0, 4, another list 1, and 3, 5 free. *)
Definition ex_hdrs : list fla_slab_header :=
  let N := FLA_LINKED_LIST_NULL in
  [mk_hdr 0 2 4 1; mk_hdr 0 N N 7; mk_hdr 0 N 0 1; mk_hdr 0 N 5 0; mk_hdr 0 0 N 1; mk_hdr 0 3 N 0].
Definition ex_list_fs : flexalloc :=
  mk_fs (mk_fla_dev (mk_xnvme_dev 1 (mk_xnvme_geo XNVME_GEO_CONVENTIONAL 512 524288 131072 0 0)) None 512)
    FLA_STATE_OPEN None
    (mk_geo 1024 512 64 1 6 1 (mk_pool_sgmt 1 1 2 1) (mk_slab_sgmt 1))
    (mk_super FLA_MAGIC 6 64 1 1 FLA_FMT_VER)
    (mk_pools [] (mk_htbl None 0 0 0 0 0) (mk_htbl_hdr 0 0) [] [])
    (mk_slabs ex_hdrs 2 3 5) (mk_cs (Some FLA_CS_CNS) None).

Lemma ex_hdrs_ok : hdrs_ok ex_list_fs.
Proof. split; [reflexivity|]. vm_compute. split; congruence. Qed.

Lemma hdll_move_correct_witness :
  exists fs1 fs2 from' to', fla_hdll_remove ex_list_fs 0 2 = Some (fs1, from', 0) /\
    fla_hdll_prepend fs1 0 1 = Some (fs2, to', 0) /\
    hdll (headers fs2) from' [2; 4] /\ hdll (headers fs2) to' [0; 1].
Proof.
  destruct (hdll_move_correct ex_list_fs 0 2 1 [2] [4] [1] FLA_LINKED_LIST_NULL [])
    as (fs1 & fs2 & from' & to' & E1 & E2 & Hf & Ht & _).
  - exact ex_hdrs_ok.
  - split; [reflexivity|cbn; repeat (eexists; split; [reflexivity|]; repeat (split; [reflexivity|])); done
           |apply (bool_decide_unpack _); vm_compute; exact I].
  - split; [reflexivity|cbn; repeat (eexists; split; [reflexivity|]; repeat (split; [reflexivity|])); done
           |apply (bool_decide_unpack _); vm_compute; exact I].
  - split; [reflexivity|done|constructor].
  - intros x Hx. apply list_elem_of_singleton in Hx as ->. apply (bool_decide_unpack _). vm_compute. exact I.
  - intros x Hx. inversion Hx.
  - exists fs1, fs2, from', to'. done.
Defined.

