(* ===== verification/SlabCache.v ===== *)
(** * SlabCache: the cache of slab freelists, [src/src/flexalloc_slabcache.c]

    One element per slab: the freelist's I/O buffer, if any, and whether it is
    stale, dirty or clean.  A freelist in the cache is the array of 32-bit words of
    its buffer; the device sees its bytes.  Operations thread the world [W] of
    [XnvmeEnv]; [None] is undefined behaviour (a [NULL] cache or freelist, an id
    outside the cache). *)
From S2P Require Import Prelude Util Freelist Hash XnvmeEnv Flexalloc Geometry SlabList.

(** ** Words and bytes *)

Definition word_bytes (w : Z) : list Z :=
  [w mod 256; Z.shiftr w 8 mod 256; Z.shiftr w 16 mod 256; Z.shiftr w 24 mod 256].
Definition bytes_of_words (ws : list Z) : list Z := ws ≫= word_bytes.

Fixpoint words_of_bytes (bs : list Z) : list Z :=
  match bs with
  | b0 :: b1 :: b2 :: b3 :: bs => (b0 + 2 ^ 8 * b1 + 2 ^ 16 * b2 + 2 ^ 24 * b3) :: words_of_bytes bs
  | _ => []
  end.

(** ** Placement of a freelist *)

(** Size of the I/O buffer, a whole number of blocks. *)
Definition cache_flist_size (fs : flexalloc) (flist_len : Z) : option Z :=
  n ← fla_slab_cache_flist_nlb fs flist_len; Some (u64 (n * g_lb_nbytes (fs_geo fs))).

(** At the end of the slab, or one block per slab behind the other metadata of the
    metadata device. *)
Definition cache_entry_lb_slba (fs : flexalloc) (slab_id flist_nlb : Z) : option Z :=
  match d_md_dev (fs_dev fs) with
  | Some _ => Some (u64 (fla_geo_slabs_lb_off (fs_geo fs) + slab_id))
  | None =>
      off ← fla_geo_slab_lb_off fs slab_id;
      Some (u64 (off + s_slab_nlb (fs_super fs) - flist_nlb))
  end.

Definition cache_elem (fs : flexalloc) (slab_id : Z) : option fla_slab_flist_cache_elem :=
  head ← fs_cache fs; lookupZ head slab_id.

Definition set_cache_elem (fs : flexalloc) (slab_id : Z) (e : fla_slab_flist_cache_elem) : flexalloc :=
  set_cache (insertZ slab_id e <$> fs_cache fs) fs.

(** The device that holds the freelists. *)
Definition flist_dev (fs : flexalloc) : xnvme_dev := default (d_dev (fs_dev fs)) (d_md_dev (fs_dev fs)).

Section cache.
Context {W : Type} `{XnvmeEnv W}.

Definition fla_slab_cache_init (w : W) (fs : flexalloc) : W * flexalloc * Z :=
  match fs_cache fs with
  | Some _ => (w, fs, - EINVAL)
  | None =>
      let '(w, ok) := malloc w (s_nslabs (fs_super fs) * 16) in
      if ok then
        (w, set_cache (Some (replicate (Z.to_nat (s_nslabs (fs_super fs)))
                               (mk_elem None FLA_SLAB_CACHE_ELEM_STALE))) fs, 0)
      else (w, fs, - ENOMEM)
  end.

(** Every buffer is released and the cache with it. *)
Definition fla_slab_cache_free (fs : flexalloc) : flexalloc := set_cache None fs.

Definition fla_slab_cache_elem_init (w : W) (fs : flexalloc) (slab_id flist_len : Z) :
    option (W * flexalloc * Z) :=
  e ← cache_elem fs slab_id;
  if negb (bool_decide (ce_state e = FLA_SLAB_CACHE_ELEM_STALE))
  then Some (w, fs, FLA_SLAB_CACHE_INVALID_STATE)
  else
    size ← cache_flist_size fs flist_len;
    let '(w, buf) := fla_xne_alloc_buf w (d_dev (fs_dev fs)) size in
    match buf with
    | None => Some (w, fs, - ENOMEM)
    | Some buf =>
        flist ← fla_flist_init (words_of_bytes buf) flist_len;
        Some (w, set_cache_elem fs slab_id (mk_elem (Some flist) FLA_SLAB_CACHE_ELEM_DIRTY), 0)
    end.

(** [fla_slab_cache_elem_load].  With a metadata device and a freelist of more
    than one block it gives up with [err] still 0. *)
Definition fla_slab_cache_elem_load (w : W) (fs : flexalloc) (slab_id flist_len : Z) :
    option (W * flexalloc * Z) :=
  e ← cache_elem fs slab_id;
  let md_dev := flist_dev fs in
  if negb (bool_decide (ce_state e = FLA_SLAB_CACHE_ELEM_STALE))
  then Some (w, fs, FLA_SLAB_CACHE_INVALID_STATE)
  else
    size ← cache_flist_size fs flist_len;
    let '(w, buf) := fla_xne_alloc_buf w (d_dev (fs_dev fs)) size in
    match buf with
    | None => Some (w, fs, - ENOMEM)
    | Some buf =>
        flist_nlb ← fla_slab_cache_flist_nlb fs flist_len;
        if bool_decide (is_Some (d_md_dev (fs_dev fs))) && (1 <? flist_nlb) then Some (w, fs, 0)
        else
          slba ← cache_entry_lb_slba fs slab_id (u32 flist_nlb);
          let range := xnvme_lba_range_from_slba_naddrs md_dev slba flist_nlb in
          if negb (r_is_valid range) then Some (w, fs, 1)
          else
            '(w, err, data) ← fla_xne_sync_seq_r_xneio w range md_dev buf;
            if negb (err =? 0) then Some (w, fs, err)
            else
              len ← fla_flist_len (words_of_bytes data);
              if negb (len =? flist_len) then Some (w, fs, 1)
              else Some (w, set_cache_elem fs slab_id
                              (mk_elem (Some (words_of_bytes data)) FLA_SLAB_CACHE_ELEM_CLEAN), 0)
    end.

Definition fla_slab_cache_elem_flush (w : W) (fs : flexalloc) (slab_id : Z) :
    option (W * flexalloc * Z) :=
  let md_dev := flist_dev fs in
  e ← cache_elem fs slab_id;
  if negb (bool_decide (ce_state e = FLA_SLAB_CACHE_ELEM_DIRTY)) then Some (w, fs, 0)
  else
    flist ← ce_freelist e;
    len ← fla_flist_len flist;
    flist_nlb ← fla_slab_cache_flist_nlb fs len;
    slba ← cache_entry_lb_slba fs slab_id (u32 flist_nlb);
    let range := fla_xne_lba_range_from_slba_naddrs md_dev slba flist_nlb in
    if negb (r_is_valid range) then Some (w, fs, 1)
    else
      '(w, err) ← fla_xne_sync_seq_w_xneio None w range md_dev (bytes_of_words flist);
      if negb (err =? 0) then Some (w, fs, err)
      else Some (w, set_cache_elem fs slab_id (mk_elem (Some flist) FLA_SLAB_CACHE_ELEM_CLEAN), 0).

(** The loop of [fla_slab_cache_flush] over [n] slabs from [slab_id]; [err] counts
    the elements that could not be written. *)
Fixpoint cache_flush_loop (n : nat) (w : W) (fs : flexalloc) (slab_id err : Z) :
    option (W * flexalloc * Z) :=
  match n with
  | O => Some (w, fs, err)
  | S n =>
      '(w, fs, e) ← fla_slab_cache_elem_flush w fs slab_id;
      cache_flush_loop n w fs (slab_id + 1) (if e =? 0 then err else err + 1)
  end.

Definition fla_slab_cache_flush (w : W) (fs : flexalloc) : option (W * flexalloc * Z) :=
  match fs_cache fs with
  | None => Some (w, fs, 0)
  | Some _ => cache_flush_loop (Z.to_nat (g_nslabs (fs_geo fs))) w fs 0 0
  end.
End cache.

Definition fla_slab_cache_elem_drop (fs : flexalloc) (slab_id : Z) : option flexalloc :=
  e ← cache_elem fs slab_id;
  Some (set_cache_elem fs slab_id (mk_elem None FLA_SLAB_CACHE_ELEM_STALE)).

(** The freelist is changed in place, also when the allocation fails. *)
Definition fla_slab_cache_obj_alloc (fs : flexalloc) (slab_id num_objs : Z) :
    option (flexalloc * option fla_object * Z) :=
  e ← cache_elem fs slab_id;
  if bool_decide (ce_state e = FLA_SLAB_CACHE_ELEM_STALE)
  then Some (fs, None, FLA_SLAB_CACHE_INVALID_STATE)
  else
    flist ← ce_freelist e;
    '(entry_ndx, flist) ← fla_flist_entries_alloc flist num_objs;
    if entry_ndx <? 0
    then Some (set_cache_elem fs slab_id (mk_elem (Some flist) (ce_state e)), None, 1)
    else Some (set_cache_elem fs slab_id (mk_elem (Some flist) FLA_SLAB_CACHE_ELEM_DIRTY),
               Some (mk_obj slab_id (u32 entry_ndx)), 0).

Definition fla_slab_cache_obj_free (fs : flexalloc) (obj : fla_object) (num_objs : Z) :
    option (flexalloc * Z) :=
  e ← cache_elem fs (o_slab_id obj);
  if bool_decide (ce_state e = FLA_SLAB_CACHE_ELEM_STALE) then Some (fs, FLA_SLAB_CACHE_INVALID_STATE)
  else
    flist ← ce_freelist e;
    '(err, flist) ← fla_flist_entries_free flist (o_entry_ndx obj) num_objs;
    if negb (err =? 0)
    then Some (set_cache_elem fs (o_slab_id obj) (mk_elem (Some flist) (ce_state e)), err)
    else Some (set_cache_elem fs (o_slab_id obj) (mk_elem (Some flist) FLA_SLAB_CACHE_ELEM_DIRTY), 0).

(** ** Words and bytes are inverse *)

Lemma word_of_bytes w : is_u32 w -> words_of_bytes (word_bytes w) = [w].
Proof.
  intros [H0 H1]. unfold word_bytes. cbn [words_of_bytes]. rewrite !Z.shiftr_div_pow2 by lia.
  change (2 ^ 16) with (2 ^ 8 * 2 ^ 8). change (2 ^ 24) with (2 ^ 8 * 2 ^ 8 * 2 ^ 8).
  rewrite <- !Z.div_div by lia. change (2 ^ 8) with 256.
  set (a := w / 256). set (b := a / 256). set (c := b / 256).
  pose proof (Z.div_mod w 256 ltac:(lia)). pose proof (Z.div_mod a 256 ltac:(lia)).
  pose proof (Z.div_mod b 256 ltac:(lia)). fold a in H. fold b in H2. fold c in H3.
  assert (0 <= c < 256) as Hc.
  { unfold c, b, a. rewrite !Z.div_div by lia. split; [apply Z.div_pos; lia|].
    apply Z.div_lt_upper_bound; lia. }
  rewrite (Z.mod_small c) by done. f_equal. lia.
Qed.

Lemma words_of_bytes_of_words ws : Forall is_u32 ws -> words_of_bytes (bytes_of_words ws) = ws.
Proof.
  induction 1 as [|w ws Hw _ IH]; [done|]. unfold bytes_of_words in *. cbn [mbind list_bind].
  pose proof (word_of_bytes w Hw) as E. unfold word_bytes in *. cbn [app words_of_bytes] in *.
  injection E as ->. by rewrite IH.
Qed.

Lemma word_bytes_u32 w : word_bytes (u32 w) = word_bytes w.
Proof.
  assert (forall k, 0 <= k <= 24 -> Z.shiftr (u32 w) k mod 256 = Z.shiftr w k mod 256) as Hk.
  { intros k Hk. unfold u32. change 256 with (2 ^ 8). rewrite <- !Z.land_ones by lia. apply Z.bits_inj'. intros i Hi.
    rewrite !Z.land_spec, !Z.shiftr_spec, !Z.land_spec, !Z.testbit_ones_nonneg by lia.
    destruct (Z.ltb_spec i 8); [|by rewrite !andb_false_r].
    rewrite (proj2 (Z.ltb_lt (i + k) 32)) by lia. by rewrite !andb_true_r. }
  unfold word_bytes. pose proof (Hk 0 ltac:(lia)) as H0. rewrite !Z.shiftr_0_r in H0. by rewrite H0, !Hk by lia.
Qed.

(** Words survive up to their width. *)
Lemma words_of_bytes_u32 ws : words_of_bytes (bytes_of_words ws) = u32 <$> ws.
Proof.
  assert (bytes_of_words ws = bytes_of_words (u32 <$> ws)) as ->.
  { unfold bytes_of_words. induction ws as [|w ws IH]; [done|]. cbn [mbind list_bind fmap list_fmap] in *. by rewrite IH, word_bytes_u32. }
  apply words_of_bytes_of_words. apply Forall_fmap, Forall_true. intros w. apply u32_range.
Qed.

Lemma u32_words ws : Forall is_u32 ws -> u32 <$> ws = ws.
Proof. induction 1 as [|w ws Hw _ IH]; [done|]. cbn. by rewrite IH, u32_small. Qed.

Lemma bytes_of_words_length ws : length (bytes_of_words ws) = (4 * length ws)%nat.
Proof. unfold bytes_of_words. induction ws as [|w ws IH]; [done|]. cbn in *. rewrite IH. lia. Qed.

Lemma words_of_bytes_length n : forall bs, (length bs <= n)%nat ->
  (4 * length (words_of_bytes bs) <= length bs < 4 * length (words_of_bytes bs) + 4)%nat.
Proof.
  induction n as [|n IH]; intros bs Hn.
  - destruct bs; cbn in *; lia.
  - destruct bs as [|b0 [|b1 [|b2 [|b3 bs]]]]; cbn [length words_of_bytes] in *; try lia.
    specialize (IH bs ltac:(lia)). lia.
Qed.

(** ** Elements *)

Lemma cache_elem_set fs id e e' : cache_elem fs id = Some e ->
  cache_elem (set_cache_elem fs id e') id = Some e'.
Proof.
  unfold cache_elem, set_cache_elem. cbn. destruct (fs_cache fs) as [c|]; [|done]. cbn.
  intros Hl%lookupZ_Some. by apply lookupZ_insertZ_eq.
Qed.

Lemma cache_elem_set_ne fs id id' e' : id <> id' ->
  cache_elem (set_cache_elem fs id e') id' = cache_elem fs id'.
Proof.
  unfold cache_elem, set_cache_elem. cbn. destruct (fs_cache fs) as [c|]; [|done]. cbn.
  apply lookupZ_insertZ_ne.
Qed.

Section specs.
Context {W : Type} `{E : XnvmeEnv W} (block : W -> xnvme_dev -> Z -> list Z) `{!XnvmeLaws W block}.

Lemma cache_flist_size_spec fs n : geo_ok (fs_geo fs) -> 0 <= n < 2 ^ 32 ->
  exists q, fla_slab_cache_flist_nlb fs n = Some q /\ 0 <= q /\
    cache_flist_size fs n = Some (q * g_lb_nbytes (fs_geo fs)) /\
    fla_flist_size n <= q * g_lb_nbytes (fs_geo fs) < 2 ^ 40.
Proof.
  intros G Hn. destruct (flist_nlb_spec fs n G Hn) as (q & Hq & B0 & B1).
  pose proof (go_lb _ G) as Hl. rewrite flist_size_eq in B1 by lia.
  assert ((n + 31) / 32 < 2 ^ 32) by (apply Z.div_lt_upper_bound; lia).
  exists q. split; [done|]. split; [done|]. unfold cache_flist_size. rewrite Hq. bind_step.
  rewrite u64_small by (unfold is_u64; nia). rewrite flist_size_eq by lia. split; [done|]. lia.
Qed.

(** The words of a freelist buffer for [len] entries: whole blocks. *)
Definition sized (geo : fla_geo) (len : Z) (flist : list Z) : Prop :=
  exists q, FLA_CEIL_DIV (fla_flist_size len) (g_lb_nbytes geo) = Some q /\
    Z.of_nat (length flist) = q * g_lb_nbytes geo / 4.

(** Initialising a stale element gives a dirty freelist with every entry free. *)
Lemma elem_init_spec w fs id e len :
  geo_ok (fs_geo fs) -> cache_elem fs id = Some e -> ce_state e = FLA_SLAB_CACHE_ELEM_STALE ->
  0 < len < 2 ^ 31 ->
  exists w' fs' err, fla_slab_cache_elem_init w fs id len = Some (w', fs', err) /\
    (forall dev lba, block w' dev lba = block w dev lba) /\
    ((err = - ENOMEM /\ fs' = fs) \/
     (err = 0 /\ exists flist, fs' = set_cache_elem fs id (mk_elem (Some flist) FLA_SLAB_CACHE_ELEM_DIRTY) /\
        flist_wf flist len /\ sized (fs_geo fs) len flist /\ forall i, 0 <= i < len -> free_bit flist i = true)).
Proof.
  intros G He Hst Hlen. unfold fla_slab_cache_elem_init. rewrite He. bind_step.
  rewrite bool_decide_eq_true_2 by done. cbn [negb].
  destruct (cache_flist_size_spec fs len G) as (q & Hqn & Hq & -> & Hsz); [lia|].
  bind_step. unfold fla_xne_alloc_buf.
  destruct (xnvme_buf_alloc w (d_dev (fs_dev fs)) (q * g_lb_nbytes (fs_geo fs))) as [w' [buf|]] eqn:Ea.
  - pose proof (go_lb _ G). assert (0 <= q * g_lb_nbytes (fs_geo fs)) as Hnn by nia.
    pose proof (alloc_length _ _ _ _ _ Hnn Ea) as Hbl.
    pose proof (words_of_bytes_length (length buf) buf ltac:(lia)) as Hwl.
    rewrite flist_size_eq in Hsz by lia.
    destruct (flist_init_spec (words_of_bytes buf) len) as (fl & -> & Hwf & Hfl & Hfree); [lia| |].
    { unfold FLA_FREELIST_U32_ELEMS. rewrite u64_small by (unfold is_u64; lia).
      replace (len + 32 - 1) with (len + 31) by lia. lia. }
    bind_step. do 3 eexists. split; [done|]. split; [by eapply alloc_frame|].
    right. split; [done|]. exists fl. do 2 (split; [done|]). split; [|done]. exists q. split; [done|].
    rewrite Hfl. apply Z.div_unique with (r := Z.of_nat (length buf) - 4 * Z.of_nat (length (words_of_bytes buf))); lia.
  - do 3 eexists. split; [done|]. split; [by eapply alloc_frame|]. by left.
Qed.

(** An element that is not stale is left as it is. *)
Lemma elem_load_cached w fs id e len : cache_elem fs id = Some e ->
  ce_state e <> FLA_SLAB_CACHE_ELEM_STALE ->
  fla_slab_cache_elem_load w fs id len = Some (w, fs, FLA_SLAB_CACHE_INVALID_STATE).
Proof.
  intros He Hst. unfold fla_slab_cache_elem_load. rewrite He. bind_step.
  by rewrite bool_decide_eq_false_2.
Qed.
End specs.

(** ** Objects of a cached slab *)

Section objects.
Context (fs : flexalloc) (id len : Z) (flist : list Z) (st : fla_slab_flist_elem_state).
Context (He : cache_elem fs id = Some (mk_elem (Some flist) st)).
Context (Hst : st <> FLA_SLAB_CACHE_ELEM_STALE) (Hwf : flist_wf flist len).

Lemma obj_alloc_spec :
  (exists r, 0 <= r < len /\ free_bit flist r = true /\ (forall i, 0 <= i < r -> free_bit flist i = false) /\
     fla_slab_cache_obj_alloc fs id 1 =
       Some (set_cache_elem fs id (mk_elem (Some (flist_clear flist r)) FLA_SLAB_CACHE_ELEM_DIRTY),
             Some (mk_obj id r), 0)) \/
  (none_free flist len /\
     fla_slab_cache_obj_alloc fs id 1 =
       Some (set_cache_elem fs id (mk_elem (Some flist) st), None, 1)).
Proof using All.
  unfold fla_slab_cache_obj_alloc. rewrite He. cbn [mbind option_bind ce_state ce_freelist].
  rewrite bool_decide_eq_false_2 by done.
  destruct (entries_alloc_1 flist len Hwf) as [(r & Hr & Hff & ->)|[Hn ->]]; bind_step.
  - left. destruct Hff as (H0 & Hfree & Hlow). pose proof (wf_range _ _ Hwf).
    exists r. repeat split; try done; try lia.
    rewrite (proj2 (Z.ltb_ge _ _)) by lia. by rewrite u32_small by (unfold is_u32; lia).
  - by right.
Qed.

Lemma obj_free_spec r : 0 <= r < len ->
  fla_slab_cache_obj_free fs (mk_obj id r) 1 =
    Some (set_cache_elem fs id (mk_elem (Some (flist_set flist r)) FLA_SLAB_CACHE_ELEM_DIRTY), 0).
Proof using All.
  intros Hr. unfold fla_slab_cache_obj_free. cbn [o_slab_id o_entry_ndx]. rewrite He.
  cbn [mbind option_bind ce_state ce_freelist]. rewrite bool_decide_eq_false_2 by done.
  pose proof (wf_range _ _ Hwf). unfold fla_flist_entries_free. change (Z.to_nat 1) with 1%nat.
  cbn [entries_free_loop]. rewrite u32_small by (unfold is_u32; lia).
  replace (r + 0) with r by lia. rewrite (entry_free_spec flist len r Hwf Hr). done.
Qed.
End objects.

(** The number of entries in use. *)
Definition used_count (flist : list Z) (len : Z) : Z :=
  len - Z.of_nat (Bitmap.count (flist_bits flist len)).

Section counts.
Context (flist : list Z) (len : Z) (Hwf : flist_wf flist len).

Lemma bits_at r : 0 <= r < len -> flist_bits flist len !! Z.to_nat r = Some (free_bit flist r).
Proof using All. intros. rewrite flist_bits_lookup by lia. by rewrite Z2Nat.id by lia. Qed.

Lemma used_count_clear r : 0 <= r < len -> free_bit flist r = true ->
  used_count (flist_clear flist r) len = used_count flist len + 1.
Proof using All.
  intros Hr Hf. unfold used_count. rewrite flist_bits_clear by done.
  rewrite (Bitmap.count_insert_false (flist_bits flist len) (Z.to_nat r)); [lia|].
  by rewrite bits_at, Hf.
Qed.

Lemma used_count_set r : 0 <= r < len -> free_bit flist r = false ->
  used_count (flist_set flist r) len = used_count flist len - 1.
Proof using All.
  intros Hr Hf. unfold used_count. rewrite flist_bits_set by done. unfold Bitmap.release.
  rewrite (Bitmap.count_insert_true (flist_bits flist len) (Z.to_nat r)); [lia|].
  by rewrite bits_at, Hf.
Qed.

Lemma used_count_range : 0 <= used_count flist len <= len.
Proof using All.
  pose proof (wf_range _ _ Hwf). pose proof (Bitmap.count_le (flist_bits flist len)) as Hc.
  rewrite flist_bits_length in Hc. unfold used_count. lia.
Qed.

Lemma used_count_full : none_free flist len <-> used_count flist len = len.
Proof using All.
  pose proof (wf_range _ _ Hwf) as Hr. unfold used_count. split.
  - intros Hn. rewrite bitmap_count_false; [lia|]. intros j x Hj.
    pose proof (lookup_lt_Some _ _ _ Hj) as Hl. rewrite flist_bits_length in Hl.
    rewrite flist_bits_lookup in Hj by done. injection Hj as <-. apply Hn. lia.
  - intros Hc j Hj.
    assert (Bitmap.first (flist_bits flist len) = None) as Hf by (apply Bitmap.count_0; lia).
    rewrite Bitmap.first_None in Hf. by eapply Hf, bits_at.
Qed.

Lemma bits_all_free : (forall i, 0 <= i < len -> free_bit flist i = true) -> used_count flist len = 0.
Proof using All.
  intros Hf. pose proof (wf_range _ _ Hwf) as Hr. unfold used_count.
  assert (forall b, (forall j x, b !! j = Some x -> x = true) -> Bitmap.count b = length b) as Hcnt.
  { induction b as [|x b IH]; intros Hb; [done|]. pose proof (Hb 0%nat x eq_refl) as ->. cbn.
    rewrite IH; [done|]. intros j y Hj. by apply (Hb (S j)). }
  rewrite Hcnt, flist_bits_length; [lia|]. intros j x Hj.
  pose proof (lookup_lt_Some _ _ _ Hj) as Hl. rewrite flist_bits_length in Hl.
  rewrite flist_bits_lookup in Hj by done. injection Hj as <-. apply Hf. lia.
Qed.

Lemma used_pos r : 0 <= r < len -> free_bit flist r = false -> 0 < used_count flist len.
Proof using All.
  intros Hr Hf. pose proof (used_count_set r Hr Hf). pose proof (wf_range _ _ Hwf).
  pose proof (Bitmap.count_le (flist_bits (flist_set flist r) len)) as Hc.
  rewrite flist_bits_length in Hc. unfold used_count in *. lia.
Qed.
End counts.

(** ** Writing a freelist and reading it back *)

Section roundtrip.
Context {W : Type} `{E : XnvmeEnv W} (block : W -> xnvme_dev -> Z -> list Z) `{!XnvmeLaws W block}.

(** The device of a handle agrees with its geometry. *)
Record dev_matches (fs : flexalloc) : Prop := {
  dm_dev : dev_ok (d_dev (fs_dev fs));
  dm_lba : dev_lba (d_dev (fs_dev fs)) = g_lb_nbytes (fs_geo fs);
  dm_nlb : dev_nlb (d_dev (fs_dev fs)) = g_nlb (fs_geo fs);
  dm_slab : s_slab_nlb (fs_super fs) = g_slab_nlb (fs_geo fs)
}.

(** A cached freelist whose buffer is a whole number of blocks that fit in a slab. *)
Record elem_buffer (fs : flexalloc) (flist : list Z) (len q : Z) : Prop := {
  eb_wf : flist_wf flist len;
  eb_nlb : fla_slab_cache_flist_nlb fs len = Some q;
  eb_size : 4 * Z.of_nat (length flist) = q * g_lb_nbytes (fs_geo fs);
  eb_fits : 0 < q <= g_slab_nlb (fs_geo fs)
}.

(** Where the freelist of slab [id] is kept: the last [q] blocks of the slab. *)
Lemma entry_slba fs id q : cns_fs fs -> dev_matches fs -> 0 <= id < g_nslabs (fs_geo fs) ->
  0 < q <= g_slab_nlb (fs_geo fs) ->
  let slba := slabs_base (fs_geo fs) + id * g_slab_nlb (fs_geo fs) + g_slab_nlb (fs_geo fs) - q in
  u32 q = q /\ cache_entry_lb_slba fs id q = Some slba /\ 0 <= slba /\
  slba + q <= g_nlb (fs_geo fs) < 2 ^ 31 /\
  xnvme_lba_range_from_slba_naddrs (d_dev (fs_dev fs)) slba q = range_of slba q (d_dev (fs_dev fs)).
Proof using All.
  intros F D Hid Hq slba. pose proof (cf_geo _ F) as G.
  pose proof (slab_extent_inside _ id G Hid). pose proof (go_nlb _ G). pose proof (slab_nlb_bound _ G).
  split; [apply u32_small; unfold is_u32; lia|]. split.
  - unfold cache_entry_lb_slba. rewrite (cf_md _ F), slab_lb_off_eq by done. bind_step.
    rewrite (dm_slab _ D). f_equal. apply u64_small. unfold is_u64. lia.
  - split; [lia|]. split; [lia|]. apply range_slba; [lia..|]. rewrite (dm_nlb _ D). lia.
Qed.

Lemma elem_flush_spec w fs id flist len q :
  cns_fs fs -> dev_matches fs -> 0 <= id < g_nslabs (fs_geo fs) -> elem_buffer fs flist len q ->
  cache_elem fs id = Some (mk_elem (Some flist) FLA_SLAB_CACHE_ELEM_DIRTY) ->
  let dev := d_dev (fs_dev fs) in
  let slba := slabs_base (fs_geo fs) + id * g_slab_nlb (fs_geo fs) + g_slab_nlb (fs_geo fs) - q in
  exists w' fs' err, fla_slab_cache_elem_flush w fs id = Some (w', fs', err) /\
    (err = 0 -> fs' = set_cache_elem fs id (mk_elem (Some flist) FLA_SLAB_CACHE_ELEM_CLEAN) /\
       concat_blocks (block w' dev) slba (Z.to_nat q) = bytes_of_words flist) /\
    (err <> 0 -> fs' = fs) /\
    (forall dev' lba, dev_id dev' <> dev_id dev \/ lba < slba \/ slba + q <= lba ->
       block w' dev' lba = block w dev' lba).
Proof using All.
  intros F D Hid [Hwf Hn Hsz Hq] He dev slba.
  destruct (entry_slba fs id q F D Hid Hq) as (Eq & Es & H0 & H1 & Er). fold slba dev in Es, H0, H1, Er.
  unfold fla_slab_cache_elem_flush. rewrite He. cbn [mbind option_bind ce_state ce_freelist].
  rewrite bool_decide_eq_true_2 by done. cbn [negb]. unfold fla_flist_len.
  rewrite (wf_len _ _ Hwf). bind_step. rewrite Hn. bind_step.
  rewrite Eq, Es. bind_step. unfold flist_dev, fla_xne_lba_range_from_slba_naddrs.
  rewrite (cf_md _ F). cbn [default from_option]. fold dev. rewrite Er. cbn [range_of r_is_valid negb].
  unfold fla_xne_sync_seq_w_xneio.
  pose proof (dm_lba _ D) as Hl. fold dev in Hl.
  assert (Z.of_nat (length (bytes_of_words flist)) = q * dev_lba dev) as Hbl.
  { rewrite bytes_of_words_length, Hl. lia. }
  destruct (sync_seq_w_spec block w dev slba q (bytes_of_words flist) (dm_dev _ D) H0)
    as (w' & err & Ew & Hok & Hfr); [lia..|].
  rewrite Ew. bind_step.
  destruct (Z.eqb_spec err 0) as [->|Hne]; cbn [negb]; do 3 eexists; (split; [done|]).
  - split; [|done]. intros _. split; [done|]. rewrite (Hok eq_refl). apply take_ge. lia.
  - done.
Qed.

Lemma elem_load_spec w fs id flist len q e :
  cns_fs fs -> dev_matches fs -> 0 <= id < g_nslabs (fs_geo fs) -> elem_buffer fs flist len q ->
  cache_elem fs id = Some e -> ce_state e = FLA_SLAB_CACHE_ELEM_STALE ->
  let dev := d_dev (fs_dev fs) in
  let slba := slabs_base (fs_geo fs) + id * g_slab_nlb (fs_geo fs) + g_slab_nlb (fs_geo fs) - q in
  concat_blocks (block w dev) slba (Z.to_nat q) = bytes_of_words flist ->
  exists w' fs' err, fla_slab_cache_elem_load w fs id len = Some (w', fs', err) /\
    (err = 0 -> fs' = set_cache_elem fs id (mk_elem (Some (u32 <$> flist)) FLA_SLAB_CACHE_ELEM_CLEAN)) /\
    (err <> 0 -> fs' = fs) /\ (forall dev' lba, block w' dev' lba = block w dev' lba).
Proof using All.
  intros F D Hid [Hwf Hn Hsz Hq] He Hst dev slba Hdisk.
  destruct (entry_slba fs id q F D Hid Hq) as (Eq & Es & H0 & H1 & Er). fold slba dev in Es, H0, H1, Er.
  unfold fla_slab_cache_elem_load. rewrite He. bind_step.
  rewrite bool_decide_eq_true_2 by done. cbn [negb]. unfold cache_flist_size.
  rewrite Hn. bind_step. pose proof (go_lb _ (cf_geo _ F)).
  pose proof (slab_nlb_bound _ (cf_geo _ F)).
  rewrite (u64_small (q * _)) by (unfold is_u64; nia). unfold fla_xne_alloc_buf. fold dev.
  destruct (xnvme_buf_alloc w dev (q * g_lb_nbytes (fs_geo fs))) as [w1 [buf|]] eqn:Ea.
  2: { do 3 eexists. split; [done|]. split; [done|]. split; [done|]. by eapply alloc_frame. }
  assert (0 <= q * g_lb_nbytes (fs_geo fs)) as Hnn by nia.
  pose proof (alloc_length _ _ _ _ _ Hnn Ea) as Hbl. pose proof (alloc_frame _ _ _ _ _ Ea) as Hfa.
  rewrite bool_decide_eq_false_2 by (rewrite (cf_md _ F); by intros [? ?]). cbn [andb].
  rewrite Eq, Es. bind_step. unfold flist_dev. rewrite (cf_md _ F).
  cbn [default from_option]. fold dev. rewrite Er. cbn [range_of r_is_valid negb].
  pose proof (dm_lba _ D) as Hl. fold dev in Hl.
  destruct (sync_seq_r_spec block w1 dev slba q buf (dm_dev _ D) H0)
    as (w2 & err & data & Erd & Hok & Hfr); [lia..|].
  unfold fla_xne_sync_seq_r_xneio. rewrite Erd. bind_step.
  destruct (Z.eqb_spec err 0) as [->|Hne]; cbn [negb].
  2: { do 3 eexists. split; [done|]. split; [done|]. split; [done|]. intros. by rewrite Hfr, Hfa. }
  rewrite (Hok eq_refl), (concat_blocks_ext _ (block w dev)) by (intros; apply Hfa).
  rewrite Hdisk, drop_ge by lia. rewrite app_nil_r, words_of_bytes_u32.
  unfold fla_flist_len. rewrite list_lookup_fmap, (wf_len _ _ Hwf). cbn [fmap option_fmap option_map]. bind_step.
  pose proof (wf_range _ _ Hwf). rewrite (u32_small len), Z.eqb_refl by (unfold is_u32; lia).
  cbn [negb]. do 3 eexists. split; [done|]. split; [done|]. split; [done|].
  intros. by rewrite Hfr, Hfa.
Qed.
End roundtrip.

Lemma cns_fs_set_cache fs c : cns_fs fs -> cns_fs (set_cache c fs).
Proof. by intros [? ? ?]. Qed.
Lemma dev_matches_set_cache fs c : dev_matches fs -> dev_matches (set_cache c fs).
Proof. by intros [? ? ? ?]. Qed.
Lemma elem_buffer_set_cache fs c flist len q :
  elem_buffer fs flist len q -> elem_buffer (set_cache c fs) flist len q.
Proof. by intros [? ? ? ?]. Qed.

(** ** Claims *)

(** C28: A freelist goes to the last blocks of its slab and comes back.  On a
    conventional device that holds its own metadata, [fla_slab_cache_elem_flush] of a
    dirty freelist returns; when it returns 0 the last [q] blocks of the slab, as many as
    the freelist takes, hold its words, and whatever it returns no other block has
    changed.  From then on, as long as those [q] blocks are as the flush left them and
    whatever happens to the other ones, [fla_slab_cache_elem_load] after the element was
    dropped returns, gives the freelist back word for word, marked clean, when it
    returns 0, and leaves the element stale otherwise. *)
Theorem flist_flush_load_roundtrip {W} `{E : XnvmeEnv W} block `{!XnvmeLaws W block}
    w fs id flist len q :
  cns_fs fs -> dev_matches fs -> 0 <= id < g_nslabs (fs_geo fs) -> elem_buffer fs flist len q -> Forall is_u32 flist ->
  cache_elem fs id = Some (mk_elem (Some flist) FLA_SLAB_CACHE_ELEM_DIRTY) ->
  let dev := d_dev (fs_dev fs) in
  let slab_end := slabs_base (fs_geo fs) + (id + 1) * g_slab_nlb (fs_geo fs) in
  exists w1 fs1 err1, fla_slab_cache_elem_flush w fs id = Some (w1, fs1, err1) /\
    (forall dev' lba, dev_id dev' <> dev_id dev \/ lba < slab_end - q \/ slab_end <= lba -> block w1 dev' lba = block w dev' lba) /\
    (err1 = 0 -> concat_blocks (block w1 dev) (slab_end - q) (Z.to_nat q) = bytes_of_words flist /\
       exists fs2, fla_slab_cache_elem_drop fs1 id = Some fs2 /\
       forall w', (forall lba, slab_end - q <= lba < slab_end -> block w' dev lba = block w1 dev lba) ->
       exists w2 fs3 err2, fla_slab_cache_elem_load w' fs2 id len = Some (w2, fs3, err2) /\
         (err2 = 0 -> cache_elem fs3 id = Some (mk_elem (Some flist) FLA_SLAB_CACHE_ELEM_CLEAN)) /\
         (err2 <> 0 -> fs3 = fs2)).
Proof.
  intros F D Hid Hb Hu He dev slab_end.
  destruct (elem_flush_spec block w fs id flist len q F D Hid Hb He) as (w1 & fs1 & err1 & E1 & Hok & _ & Hfr). fold dev in Hok, Hfr.
  replace (slabs_base (fs_geo fs) + id * g_slab_nlb (fs_geo fs) + g_slab_nlb (fs_geo fs)) with slab_end in Hok, Hfr by (unfold slab_end; lia).
  exists w1, fs1, err1. split; [done|].
  split; [intros dev' lba Hout; apply Hfr; destruct Hout as [?|[?|?]]; [by left|right; lia..]|].
  intros E0. destruct (Hok E0) as [-> Hdisk]. split; [done|].
  set (fs1 := set_cache_elem fs id _).
  assert (cache_elem fs1 id = Some (mk_elem (Some flist) FLA_SLAB_CACHE_ELEM_CLEAN)) as He1.
  { by eapply cache_elem_set. }
  unfold fla_slab_cache_elem_drop. rewrite He1. bind_step.
  set (fs2 := set_cache_elem fs1 id _). exists fs2. split; [done|]. intros w' Hw'.
  assert (cache_elem fs2 id = Some (mk_elem None FLA_SLAB_CACHE_ELEM_STALE)) as He2.
  { by eapply cache_elem_set. }
  destruct (elem_load_spec block w' fs2 id flist len q _
    (cns_fs_set_cache _ _ (cns_fs_set_cache _ _ F))
    (dev_matches_set_cache _ _ (dev_matches_set_cache _ _ D)) Hid
    (elem_buffer_set_cache _ _ _ _ _ (elem_buffer_set_cache _ _ _ _ _ Hb)) He2 eq_refl)
    as (w2 & fs3 & err2 & E2 & Hok2 & Hbad & _).
  { rewrite <- Hdisk. change (fs_geo fs2) with (fs_geo fs). change (fs_dev fs2) with (fs_dev fs). fold dev.
    replace (slabs_base (fs_geo fs) + id * g_slab_nlb (fs_geo fs) + g_slab_nlb (fs_geo fs)) with slab_end by (unfold slab_end; lia).
    apply concat_blocks_ext. intros lba Hlba. apply Hw'. lia. }
  exists w2, fs3, err2. split; [done|]. split; [|done].
  intros E3. rewrite (Hok2 E3), u32_words by done. by eapply cache_elem_set.
Qed.

Definition ex_flist : list Z := 7 :: 90 :: replicate 126 0.
Definition ex_cache_fs : flexalloc :=
  set_cache (Some (insertZ 2 (mk_elem (Some ex_flist) FLA_SLAB_CACHE_ELEM_DIRTY)
                     (replicate 15 (mk_elem None FLA_SLAB_CACHE_ELEM_STALE)))) ex_cns.

Lemma ex_dev_matches : dev_matches ex_cache_fs.
Proof. split; [split; vm_compute; split; congruence|reflexivity..]. Qed.

(** The freelist of slab 2 is in the last block of that slab, and is read back. *)
Lemma flist_flush_load_roundtrip_witness :
  exists w1 fs1 fs2 w2 fs3, fla_slab_cache_elem_flush ex_world ex_cache_fs 2 = Some (w1, fs1, 0) /\
    (let slab_end := slabs_base (fs_geo ex_cache_fs) + 3 * g_slab_nlb (fs_geo ex_cache_fs) in
     concat_blocks (RamDisk.block w1 (d_dev (fs_dev ex_cache_fs))) (slab_end - 1) 1 = bytes_of_words ex_flist) /\
    fla_slab_cache_elem_drop fs1 2 = Some fs2 /\
    fla_slab_cache_elem_load w1 fs2 2 7 = Some (w2, fs3, 0) /\
    cache_elem fs3 2 = Some (mk_elem (Some ex_flist) FLA_SLAB_CACHE_ELEM_CLEAN).
Proof.
  destruct (flist_flush_load_roundtrip RamDisk.block ex_world ex_cache_fs 2 ex_flist 7 1)
    as (w1 & fs1 & err1 & E1 & _ & H1).
  - split; [exact ex_geo_ok|reflexivity|reflexivity].
  - exact ex_dev_matches.
  - vm_compute. split; congruence.
  - split.
    + split; [reflexivity|lia|vm_compute; congruence| |].
      * intros k x _ Hk Hx. change (FLA_FREELIST_U32_ELEMS 7) with 1 in Hk.
        assert (k = 1%nat \/ k = 0%nat) as [-> | ->] by lia; injection Hx as <-; split; lia.
      * intros i Hi. change (FLA_FREELIST_U32_ELEMS 7) with 1 in Hi.
        assert (forall j, (j < 25)%nat -> free_bit ex_flist (7 + Z.of_nat j) = false) as Hall.
        { intros j Hj. do 25 (destruct j as [|j]; [reflexivity|]). lia. }
        replace i with (7 + Z.of_nat (Z.to_nat (i - 7))) by lia. apply Hall. lia.
    + reflexivity.
    + reflexivity.
    + vm_compute. split; congruence.
  - unfold ex_flist. do 2 (constructor; [split; lia|]). apply Forall_replicate. split; lia.
  - reflexivity.
  - assert (err1 = 0) as E0 by (vm_compute in E1; congruence).
    destruct (H1 E0) as (Hd & fs2 & E2 & Hl). destruct (Hl w1 ltac:(intros; reflexivity)) as (w2 & fs3 & err2 & E3 & Hok & _). subst err1.
    assert (err2 = 0) as ->.
    { vm_compute in E1. injection E1 as <- <-. vm_compute in E2. injection E2 as <-.
      vm_compute in E3. congruence. }
    exists w1, fs1, fs2, w2, fs3. split; [exact E1|]. split; [exact Hd|]. split; [exact E2|]. split; [exact E3|].
    apply Hok. reflexivity.
Defined.
