(* ===== verification/Slab.v ===== *)
(** * Slab: acquiring, formatting and releasing slabs, [src/src/flexalloc_mm.c]

    A slab is either free, in the queue of free slabs with a stale cache element,
    or owned by a pool, with a freelist in the cache. *)
From S2P Require Import Prelude Util Freelist Hash XnvmeEnv Flexalloc PoolEntry Geometry CommandSet.
From S2P Require Import SlabList SlabCache.

(** ** Definitions *)

Definition set_free_list (num head tail : Z) (fs : flexalloc) : flexalloc :=
  set_slabs (mk_slabs (ss_headers (fs_slabs fs)) num head tail) fs.

(** The loop of [fla_mkfs_slab_sgmt_init] over the inner slabs: [n] of them from
    [curr_slab_id]. *)
Fixpoint mkfs_slab_loop (n : nat) (hs : list fla_slab_header) (curr_slab_id : Z) :
    option (list fla_slab_header) :=
  match n with
  | O => Some hs
  | S n =>
      h ← lookupZ hs curr_slab_id;
      mkfs_slab_loop n
        (insertZ curr_slab_id (sl_set_prev (u32 (curr_slab_id - 1)) (sl_set_next (u32 (curr_slab_id + 1)) h))
           hs) (curr_slab_id + 1)
  end.

Definition fla_mkfs_slab_sgmt_init (fs : flexalloc) (geo : fla_geo) : option flexalloc :=
  let last_slab_id := u32 (g_nslabs geo - 1) in
  let hs := replicate (length (headers fs)) (mk_hdr 0 0 0 0) in
  h ← lookupZ hs 0;
  let hs := insertZ 0 (sl_set_prev FLA_LINKED_LIST_NULL (sl_set_next 1 h)) hs in
  h ← lookupZ hs last_slab_id;
  let hs := insertZ last_slab_id
              (sl_set_prev (u32 (last_slab_id - 1)) (sl_set_next FLA_LINKED_LIST_NULL h)) hs in
  hs ← mkfs_slab_loop (Z.to_nat (last_slab_id - 1)) hs 1;
  Some (set_free_list (g_nslabs geo) 0 last_slab_id (with_headers fs hs)).

Section world.
Context {W : Type} `{XnvmeEnv W}.

Definition fla_format_slab (w : W) (fs : flexalloc) (slab obj_nlb : Z) : option (W * flexalloc * Z) :=
  obj_num ← fla_calc_objs_in_slab fs obj_nlb;
  if obj_num <? 1 then Some (w, fs, 1)
  else
    fs ← header_upd fs slab (fun h => mk_hdr 0 FLA_LINKED_LIST_NULL FLA_LINKED_LIST_NULL 0);
    let '(slab_id, err) := fla_slab_id slab fs in
    if negb (err =? 0) then Some (w, fs, err)
    else fla_slab_cache_elem_init w fs slab_id obj_num.

(** The slab in the result is [*a_slab]; [None] when it was not assigned. *)
Definition fla_acquire_slab (w : W) (fs : flexalloc) (obj_nlb : Z) :
    option (W * flexalloc * option Z * Z) :=
  let s := fs_slabs fs in
  if ss_fslab_num s =? 0 then Some (w, fs, None, FLA_ERR_ALL_SLABS_USED)
  else
    '(fs, head, tail, a_slab, err) ← fla_edll_remove_head fs (ss_fslab_head s) (ss_fslab_tail s);
    let fs := set_free_list (ss_fslab_num s) head tail fs in
    if negb (err =? 0) then Some (w, fs, a_slab, err)
    else
      slab ← a_slab;
      '(w, fs, err) ← fla_format_slab w fs slab obj_nlb;
      if negb (err =? 0) then Some (w, fs, a_slab, err)
      else Some (w, set_free_list (u32 (ss_fslab_num s - 1)) head tail fs, a_slab, 0).
End world.

Definition fla_release_slab (fs : flexalloc) (r_slab : Z) : option (flexalloc * Z) :=
  h ← lookupZ (headers fs) r_slab;
  if negb (sl_refcount h =? 0) then Some (fs, 1)
  else
    let '(slab_id, err) := fla_slab_id r_slab fs in
    if negb (err =? 0) then Some (fs, err)
    else
      fs ← fla_slab_cache_elem_drop fs slab_id;
      let s := fs_slabs fs in
      '(fs, head, tail, err) ← fla_edll_add_tail fs (ss_fslab_head s) (ss_fslab_tail s) r_slab;
      if negb (err =? 0) then Some (set_free_list (ss_fslab_num s) head tail fs, err)
      else Some (set_free_list (u32 (ss_fslab_num s + 1)) head tail fs, 0).

(** ** Formatting *)

(** Formatting a free slab resets its header and gives it a freelist with every
    object free; without memory for the freelist only the header is reset. *)
Lemma format_spec {W} `{E : XnvmeEnv W} block `{!XnvmeLaws W block} w fs x h el obj_nlb n :
  geo_ok (fs_geo fs) -> hdrs_ok fs -> lookupZ (headers fs) x = Some h ->
  fla_calc_objs_in_slab fs obj_nlb = Some n -> 0 < n < 2 ^ 31 ->
  cache_elem fs x = Some el -> ce_state el = FLA_SLAB_CACHE_ELEM_STALE ->
  exists w' fs' err, fla_format_slab w fs x obj_nlb = Some (w', fs', err) /\
    (forall dev lba, block w' dev lba = block w dev lba) /\
    let fs1 := with_headers fs (insertZ x (mk_hdr 0 FLA_LINKED_LIST_NULL FLA_LINKED_LIST_NULL 0) (headers fs)) in
    (err = - ENOMEM /\ fs' = fs1 \/
     err = 0 /\ exists flist, fs' = set_cache_elem fs1 x (mk_elem (Some flist) FLA_SLAB_CACHE_ELEM_DIRTY) /\
       flist_wf flist n /\ sized (fs_geo fs) n flist /\ forall i, 0 <= i < n -> free_bit flist i = true).
Proof.
  intros G Hok Hh Hcalc Hn Hc Hst. unfold fla_format_slab. rewrite Hcalc. bind_step.
  destruct (Z.ltb_spec n 1); [lia|]. erewrite header_upd_eq by exact Hh. bind_step.
  set (fs1 := with_headers fs _).
  assert (hdrs_ok fs1) as Hok1 by (apply hdrs_ok_with; [done|apply length_insertZ]).
  rewrite slab_id_ok by (done || by eapply (in_range fs)). no_err.
  exact (elem_init_spec block w fs1 x el n G Hc Hst Hn).
Qed.

(** ** The queue of free slabs at first *)

Lemma mkfs_slab_loop_spec n : forall hs cur, 1 <= cur -> cur + Z.of_nat n <= Z.of_nat (length hs) < 2 ^ 32 ->
  exists hs', mkfs_slab_loop n hs cur = Some hs' /\ length hs' = length hs /\
    (forall i h, cur <= i < cur + Z.of_nat n -> lookupZ hs i = Some h ->
       lookupZ hs' i = Some (mk_hdr (sl_pool h) (i - 1) (i + 1) (sl_refcount h))) /\
    (forall i, ~ cur <= i < cur + Z.of_nat n -> lookupZ hs' i = lookupZ hs i).
Proof.
  induction n as [|n IH]; intros hs cur Hc Hl.
  - exists hs. split; [done|]. split; [done|]. split; [lia|done].
  - cbn [mkfs_slab_loop]. destruct (lookupZ_is_Some hs cur) as [h Hh]; [lia|]. rewrite Hh. bind_step.
    edestruct (IH (insertZ cur (sl_set_prev (u32 (cur - 1)) (sl_set_next (u32 (cur + 1)) h)) hs) (cur + 1))
      as (hs' & -> & Hlen & Hin & Hout); [lia|rewrite length_insertZ; lia|].
    exists hs'. split; [done|]. rewrite length_insertZ in Hlen. split; [done|]. split.
    + intros i h' Hi Hh'. destruct (decide (i = cur)) as [->|Hne].
      * rewrite Hout, lookupZ_insertZ_eq by lia. rewrite Hh in Hh'. injection Hh' as <-.
        unfold sl_set_prev, sl_set_next. cbn. rewrite !u32_small by (unfold is_u32; lia). done.
      * apply Hin; [lia|]. by rewrite lookupZ_insertZ_ne.
    + intros i Hi. rewrite Hout, lookupZ_insertZ_ne by lia. done.
Qed.

(** Headers linked in the order of their ids. *)
Lemma lseg_seqZ hs q k : forall a p, 
  (forall i, a <= i < a + Z.of_nat k -> exists h, lookupZ hs i = Some h /\
     sl_prev h = (if i =? a then p else i - 1) /\ sl_next h = (if i =? a + Z.of_nat k - 1 then q else i + 1)) ->
  lseg hs p (seqZ a (Z.of_nat k)) q.
Proof.
  induction k as [|k IH]; intros a p Hi; [done|]. rewrite seqZ_cons by lia. cbn [lseg].
  destruct (Hi a) as (h & Hh & Hp & Hn); [lia|]. rewrite Z.eqb_refl in Hp.
  replace (Z.pred (Z.of_nat (S k))) with (Z.of_nat k) by lia. exists h. split; [done|]. split; [done|]. split.
  - rewrite Hn. destruct k; [by rewrite (proj2 (Z.eqb_eq _ _)) by lia|].
    rewrite (proj2 (Z.eqb_neq _ _)) by lia. rewrite seqZ_cons by lia. cbn. lia.
  - apply IH. intros i Hi'. destruct (Hi i) as (h' & ? & Hp' & Hn'); [lia|]. exists h'.
    rewrite (proj2 (Z.eqb_neq i a)) in Hp' by lia. split; [done|]. split.
    + rewrite Hp'. destruct (Z.eqb_spec i (Z.succ a)); lia.
    + rewrite Hn'. repeat match goal with |- context [?x =? ?y] => destruct (Z.eqb_spec x y) end; lia.
Qed.

Lemma last_id_seqZ k : forall a d, last_id d (seqZ a (Z.of_nat (S k))) = a + Z.of_nat k.
Proof.
  induction k as [|k IH]; intros a d; rewrite seqZ_cons by lia; cbn [last_id].
  - rewrite seqZ_nil by lia. cbn [last_id]. lia.
  - replace (Z.pred (Z.of_nat (S (S k)))) with (Z.of_nat (S k)) by lia. rewrite IH. lia.
Qed.

(** [fla_mkfs_slab_sgmt_init] puts every slab in the free queue, in the order of the
    ids, with no owner to speak of and no reference. *)
Lemma mkfs_slabs_spec fs : hdrs_ok fs ->
  exists hs, fla_mkfs_slab_sgmt_init fs (fs_geo fs) =
      Some (set_free_list (g_nslabs (fs_geo fs)) 0 (g_nslabs (fs_geo fs) - 1) (with_headers fs hs)) /\
    length hs = length (headers fs) /\
    edll hs 0 (g_nslabs (fs_geo fs) - 1) (seqZ 0 (g_nslabs (fs_geo fs))) /\
    (forall i h, lookupZ hs i = Some h ->
       sl_refcount h = 0 /\ sl_pool h = 0 /\ is_u32 (sl_prev h) /\ is_u32 (sl_next h)).
Proof.
  intros [Hlen Hr]. set (n := g_nslabs (fs_geo fs)) in *. unfold FLA_LINKED_LIST_NULL in Hr.
  unfold fla_mkfs_slab_sgmt_init. fold n. rewrite (u32_small (n - 1)) by (unfold is_u32; lia).
  set (hs0 := replicate (length (headers fs)) (mk_hdr 0 0 0 0)).
  assert (Z.of_nat (length hs0) = n) as L0 by (unfold hs0; by rewrite length_replicate).
  assert (forall i, 0 <= i < n -> lookupZ hs0 i = Some (mk_hdr 0 0 0 0)) as Hz.
  { intros i Hi. unfold lookupZ. destruct (Z.ltb_spec i 0); [lia|]. apply lookup_replicate_2. lia. }
  rewrite (Hz 0) by lia. bind_step.
  set (hs1 := insertZ 0 _ hs0).
  assert (exists hl, lookupZ hs1 (n - 1) = Some hl /\ sl_pool hl = 0 /\ sl_refcount hl = 0) as (hl & Hhl & Hpl & Hrl).
  { unfold hs1. destruct (decide (0 = n - 1)) as [<-|].
    - rewrite lookupZ_insertZ_eq by lia. by eexists.
    - rewrite lookupZ_insertZ_ne, Hz by lia. by eexists. }
  rewrite Hhl. bind_step.
  set (hs2 := insertZ (n - 1) _ hs1).
  assert (Z.of_nat (length hs2) = n) as L2 by (unfold hs2, hs1; by rewrite !length_insertZ).
  destruct (mkfs_slab_loop_spec (Z.to_nat (n - 1 - 1)) hs2 1) as (hs & -> & L3 & Hin & Hout); [lia..|].
  bind_step. exists hs. split; [done|].
  assert (forall i, 0 <= i < n -> exists h, lookupZ hs i = Some h /\
    (sl_refcount h = 0 /\ sl_pool h = 0 /\ is_u32 (sl_prev h)) /\
    (0 < i -> sl_prev h = i - 1) /\ sl_next h = if i =? n - 1 then FLA_LINKED_LIST_NULL else i + 1) as Hall.
  { intros i Hi. destruct (Z.eqb_spec i (n - 1)) as [->|Hne].
    - rewrite Hout by lia. unfold hs2. rewrite lookupZ_insertZ_eq by (unfold hs1; rewrite length_insertZ; lia).
      eexists. split; [done|]. cbn. rewrite Hrl, Hpl. split; [split; [done|]; split; [done|]; apply u32_range|].
      split; [|done]. intros. by rewrite u32_small by (unfold is_u32; lia).
    - destruct (decide (i = 0)) as [->|Hn0].
      + rewrite Hout by lia. unfold hs2, hs1. rewrite lookupZ_insertZ_ne, lookupZ_insertZ_eq by lia.
        eexists. split; [done|]. split; [split; [done|]; split; [done|]; by compute|]. split; [lia|done].
      + erewrite Hin; [|lia|unfold hs2, hs1; rewrite !lookupZ_insertZ_ne by lia; by apply Hz].
        eexists. split; [done|]. split; [|by split]. split; [done|]. split; [done|]. unfold is_u32. cbn. lia. }
  split; [lia|]. split.
  - destruct (Hall 0) as (h0 & H0 & _); [lia|]. split.
    + rewrite seqZ_cons by lia. done.
    + replace n with (Z.of_nat (S (Z.to_nat (n - 1)))) at 2 by lia. rewrite last_id_seqZ. lia.
    + exists (sl_prev h0). replace n with (Z.of_nat (Z.to_nat n)) at 1 by lia. apply lseg_seqZ.
      intros i Hi. destruct (Hall i) as (h & Hh & _ & Hp & Hn); [lia|]. exists h. split; [done|].
      replace (0 + Z.of_nat (Z.to_nat n) - 1) with (n - 1) by lia. split; [|done].
      destruct (Z.eqb_spec i 0) as [->|]; [congruence|]. apply Hp. lia.
    + apply NoDup_seqZ.
  - intros i h Hh. pose proof (lookupZ_Some _ _ _ Hh). destruct (Hall i) as (h' & Hh' & (? & ? & ?) & _ & Hn'); [lia|].
    assert (h' = h) as -> by congruence. split; [done|]. split; [done|]. split; [done|]. rewrite Hn'.
    destruct (i =? n - 1); [by compute|]. unfold is_u32. lia.
Qed.
