(* ===== verification/Pool.v ===== *)
(** * Pool: creating, opening and destroying pools, [src/src/flexalloc_pool.c]

    A pool entry is reserved in the pool freelist, found by name through the hash
    table, and owns slabs through three lists.  A handle is the entry's index with
    the secondary hash of its name. *)
From S2P Require Import Prelude Util Freelist Hash XnvmeEnv Flexalloc PoolEntry Geometry CommandSet.
From S2P Require Import SlabList SlabCache Slab.

(** ** Definitions *)

(** The contents of the pool segment of the metadata buffer. *)
Record pool_segment := mk_segment {
  sg_freelist : list Z;
  sg_htbl_hdr : fla_pool_htbl_header;
  sg_table : list fla_htbl_entry;
  sg_entries : list fla_pool_entry
}.

Definition fla_mkfs_pool_sgmt_init (fs : flexalloc) (geo : fla_geo) : option flexalloc :=
  let p := fs_pools fs in
  freelist ← fla_flist_init (ps_freelist p) (g_npools geo);
  let size := htbl_tbl_size (g_pool_sgmt geo) in
  table ← tbl (ps_htbl p);
  table ← fla_htbl_entries_init table (Z.to_nat size);
  let h := ps_htbl p in
  let htbl := mk_htbl (Some table) (tbl_size h) (len h) (stat_insert_calls h) (stat_insert_failed h)
                (stat_insert_tries h) in
  Some (set_pools (mk_pools freelist htbl (mk_htbl_hdr size 0)
          (replicate (length (ps_entries p)) (mk_pool_entry 0 0 0 0 0 0 0 0 (replicate 112 0)))
          (ps_entrie_funcs p)) fs).

Section world.
Context {W : Type} `{XnvmeEnv W}.

(** [fla_pool_init] lays the typed pointers over the segment [sg] and installs the
    functions of every pool in use. *)
Definition fla_pool_init (w : W) (fs : flexalloc) (geo : fla_geo) (sg : pool_segment) :
    option (W * flexalloc * Z) :=
  let h := ps_htbl (fs_pools fs) in
  let htbl := mk_htbl (Some (sg_table sg)) (hh_size (sg_htbl_hdr sg)) (hh_len (sg_htbl_hdr sg))
                (stat_insert_calls h) (stat_insert_failed h) (stat_insert_tries h) in
  let '(w, ok) := malloc w (24 * g_npools geo) in
  let pools funcs := mk_pools (sg_freelist sg) htbl (sg_htbl_hdr sg) (sg_entries sg) funcs in
  if ok then
    '(ret, _, pools) ← fla_flist_search_wfunc fla_pool_initialize_entrie_func (sg_freelist sg)
                         FLA_FLIST_SEARCH_EXEC_FIRST 0
                         (pools (replicate (Z.to_nat (g_npools geo)) fnc_unset));
    Some (w, set_pools pools fs, ret)
  else Some (w, set_pools (pools []) fs, - ENOMEM).

Definition fla_base_pool_open (w : W) (fs : flexalloc) (name : list Z) :
    option (W * option fla_pool * Z) :=
  r ← htbl_lookup (ps_htbl (fs_pools fs)) name;
  match r with
  | None => Some (w, None, -1)
  | Some slot =>
      let '(w, ok) := malloc w 16 in
      if ok then
        slots ← tbl (ps_htbl (fs_pools fs));
        e ← slots !! slot;
        Some (w, Some (mk_pool (h2 e) (val e)), 0)
      else Some (w, None, - ENOMEM)
  end.

(** The creation proper from the reserved index on. *)
Definition pool_create_at (w : W) (fs : flexalloc) (arg : fla_pool_create_arg) (slab_nobj entry_ndx : Z) :
    option (W * flexalloc * option fla_pool * Z) :=
  '(pools, _) ← fla_pool_initialize_entrie_func_ (fs_pools fs) entry_ndx;
  let fs := set_pools pools fs in
  '(htbl, err) ← htbl_insert (ps_htbl (fs_pools fs)) (a_name arg) entry_ndx;
  let fs := set_pools (set_htbl htbl (fs_pools fs)) fs in
  if negb (err =? 0) then
    '(_, freelist) ← fla_flist_entries_free (ps_freelist (fs_pools fs)) entry_ndx 1;
    Some (w, set_pools (set_freelist freelist (fs_pools fs)) fs, None, err)
  else
    e ← pool_entry_at fs entry_ndx;
    f ← entry_fnc_at fs entry_ndx;
    '(e, _) ← fla_pool_entry_reset f e arg slab_nobj;
    fs ← upd_entry fs entry_ndx (fun _ => e);
    hash2 ← FLA_HTBL_H2 (a_name arg);
    Some (w, fs, Some (mk_pool hash2 entry_ndx), 0).

(** The creation proper, once no pool of that name was found. *)
Definition pool_create_new (w : W) (fs : flexalloc) (arg : fla_pool_create_arg) :
    option (W * flexalloc * option fla_pool * Z) :=
  if FLA_NAME_SIZE_POOL <=? a_name_len arg then Some (w, fs, None, 1) else
  slab_nobj ← fla_calc_objs_in_slab fs (a_obj_nlb arg);
  if slab_nobj <? 1 then Some (w, fs, None, 1) else
  err ← cs_check_pool fs (a_obj_nlb arg);
  if negb (err =? 0) then Some (w, fs, None, err) else
  let '(w, ok) := malloc w 16 in
  if negb ok then Some (w, fs, None, - ENOMEM) else
  '(entry_ndx, freelist) ← fla_flist_entries_alloc (ps_freelist (fs_pools fs)) 1;
  let fs := set_pools (set_freelist freelist (fs_pools fs)) fs in
  if entry_ndx <? 0 then Some (w, fs, None, 1) else
  pool_create_at w fs arg slab_nobj entry_ndx.

Definition fla_base_pool_create (w : W) (fs : flexalloc) (arg : fla_pool_create_arg) :
    option (W * flexalloc * option fla_pool * Z) :=
  '(w, handle, err) ← fla_base_pool_open w fs (a_name arg);
  if err =? 0 then
    h ← handle;
    e ← pool_entry_at fs (p_ndx h);
    if pe_obj_nlb e =? a_obj_nlb arg then Some (w, fs, Some h, 0)
    else Some (w, fs, None, - EINVAL)
  else pool_create_new w fs arg.
End world.

(** Release the slabs of one list of the entry at [ndx]. *)
Definition release_list (fs : flexalloc) (ndx : Z) (l : slab_list) : option (flexalloc * Z) :=
  e ← pool_entry_at fs ndx;
  '(fs, head, err) ← fla_hdll_remove_all fs (pe_head l e) fla_release_slab;
  fs ← upd_entry fs ndx (pe_set_head l head);
  Some (fs, err).

Definition fla_pool_release_all_slabs (fs : flexalloc) (ndx : Z) : option (flexalloc * Z) :=
  '(fs, err) ← release_list fs ndx EmptySlabs;
  if negb (err =? 0) then Some (fs, err) else
  '(fs, err) ← release_list fs ndx FullSlabs;
  if negb (err =? 0) then Some (fs, err) else
  release_list fs ndx PartialSlabs.

Definition fla_base_pool_destroy (fs : flexalloc) (handle : fla_pool) : option (flexalloc * Z) :=
  if s_npools (fs_super fs) <? p_ndx handle then Some (fs, 1) else
  e ← pool_entry_at fs (p_ndx handle);
  r ← htbl_lookup (ps_htbl (fs_pools fs)) (pe_name e);
  match r with
  | None => Some (fs, 1)
  | Some slot =>
      slots ← tbl (ps_htbl (fs_pools fs));
      he ← slots !! slot;
      if negb (h2 he =? p_h2 handle) then Some (fs, 1) else
      if negb (val he =? p_ndx handle) then Some (fs, 1) else
      '(fs, err) ← fla_pool_release_all_slabs fs (p_ndx handle);
      if negb (err =? 0) then Some (fs, err) else
      '(err, freelist) ← fla_flist_entries_free (ps_freelist (fs_pools fs)) (p_ndx handle) 1;
      let fs := set_pools (set_freelist freelist (fs_pools fs)) fs in
      if negb (err =? 0) then Some (fs, err) else
      e ← pool_entry_at fs (p_ndx handle);
      htbl ← htbl_remove (ps_htbl (fs_pools fs)) (pe_name e);
      Some (set_pools (set_htbl htbl (fs_pools fs)) fs, 0)
  end.

(** ** The directory of pools *)

(** The hash table, the freelist and the arrays of the pools agree: [U] holds the
    names in use. *)
Record dir_inv (U : list (list Z)) (fs : flexalloc) : Prop := {
  di_keys : keys_ok U;
  di_htbl : htbl_inv U (ps_htbl (fs_pools fs));
  di_flist : flist_wf (ps_freelist (fs_pools fs)) (g_npools (fs_geo fs));
  di_entries : Z.of_nat (length (ps_entries (fs_pools fs))) = g_npools (fs_geo fs);
  di_funcs : Z.of_nat (length (ps_entrie_funcs (fs_pools fs))) = g_npools (fs_geo fs);
  di_names : forall ndx e, pool_entry_at fs ndx = Some e -> Z.of_nat (length (pe_name e)) = FLA_NAME_SIZE_POOL;
  di_used : forall h ndx, htbl_map (ps_htbl (fs_pools fs)) !! h = Some ndx ->
    0 <= ndx < g_npools (fs_geo fs) /\ free_bit (ps_freelist (fs_pools fs)) ndx = false;
  di_inj : forall h h' ndx, htbl_map (ps_htbl (fs_pools fs)) !! h = Some ndx ->
    htbl_map (ps_htbl (fs_pools fs)) !! h' = Some ndx -> h = h'
}.

(** The index of the pool whose name hashes to [h]. *)
Definition dir (fs : flexalloc) : gmap Z Z := htbl_map (ps_htbl (fs_pools fs)).

(** Everything but the pools. *)
Record same_but_pools (fs fs' : flexalloc) : Prop := {
  sp_geo : fs_geo fs' = fs_geo fs;
  sp_dev : fs_dev fs' = fs_dev fs;
  sp_cs : fs_cs fs' = fs_cs fs;
  sp_super : fs_super fs' = fs_super fs;
  sp_slabs : fs_slabs fs' = fs_slabs fs;
  sp_cache : fs_cache fs' = fs_cache fs
}.

(** The same indices are free. *)
Definition same_free (fs fs' : flexalloc) : Prop := forall i, 0 <= i < g_npools (fs_geo fs) ->
  free_bit (ps_freelist (fs_pools fs')) i = free_bit (ps_freelist (fs_pools fs)) i.

(** A pool handle's entry after creation: no slabs, no root object, the name in
    front of what the name field held. *)
Definition created (e0 : fla_pool_entry) (arg : fla_pool_create_arg) (n : Z) (name : list Z) :
    fla_pool_entry :=
  mk_pool_entry FLA_LINKED_LIST_NULL FLA_LINKED_LIST_NULL FLA_LINKED_LIST_NULL (a_obj_nlb arg) n
    FLA_ROOT_OBJ_NONE (pe_flags e0) (pe_usable e0) name.

Lemma name_copy_spec old name n : Z.of_nat (length old) = FLA_NAME_SIZE_POOL ->
  0 <= n < FLA_NAME_SIZE_POOL -> n <= Z.of_nat (length name) ->
  exists name', name_copy old name n = Some name' /\ Z.of_nat (length name') = FLA_NAME_SIZE_POOL /\
    name' = take (Z.to_nat n) name ++ drop (Z.to_nat n) old.
Proof.
  intros Ho Hn Hl. unfold name_copy. rewrite (proj2 (Z.ltb_ge n 0)), (proj2 (Z.ltb_ge _ n)) by lia.
  rewrite (proj2 (Z.ltb_ge (Z.of_nat (length name)) n)) by lia. cbn [orb]. eexists. split; [done|]. split; [|done].
  rewrite length_app, length_take, length_drop. lia.
Qed.

Section directory.
Context {W : Type} `{E : XnvmeEnv W} (block : W -> xnvme_dev -> Z -> list Z) `{!XnvmeLaws W block}.
Context (U : list (list Z)).

Lemma open_spec w fs k h : dir_inv U fs -> k ∈ U -> FLA_HTBL_H2 k = Some h ->
  exists w' hdl err, fla_base_pool_open w fs k = Some (w', hdl, err) /\
    (forall dev lba, block w' dev lba = block w dev lba) /\
    match dir fs !! h with
    | None => hdl = None /\ err = -1
    | Some ndx => hdl = Some (mk_pool h ndx) /\ err = 0 \/ hdl = None /\ err = - ENOMEM
    end.
Proof using All.
  intros D Hk Hh.
  destruct (htbl_lookup_spec U _ k h (di_keys _ _ D) (di_htbl _ _ D) Hk Hh) as (r & slots & Hl & Ht & Hr).
  unfold fla_base_pool_open, dir. rewrite Hl. bind_step. destruct r as [p|].
  - destruct Hr as (e & He & <- & ->). destruct (malloc w 16) as [w' ok] eqn:Em.
    pose proof (malloc_frame _ _ _ _ Em) as Hf. destruct ok.
    + rewrite Ht. bind_step. rewrite He. bind_step. eauto 8.
    + eauto 8.
  - rewrite Hr. eauto 8.
Qed.

(** Reserving the first free index. *)
Lemma reserve_spec fs : dir_inv U fs ->
  (exists ndx e0, first_free (ps_freelist (fs_pools fs)) ndx /\ ndx < g_npools (fs_geo fs) /\
     pool_entry_at fs ndx = Some e0 /\ (exists f, entry_fnc_at fs ndx = Some f) /\
     fla_flist_entries_alloc (ps_freelist (fs_pools fs)) 1 =
       Some (ndx, flist_clear (ps_freelist (fs_pools fs)) ndx)) \/
  fla_flist_entries_alloc (ps_freelist (fs_pools fs)) 1 = Some (-1, ps_freelist (fs_pools fs)).
Proof using.
  intros D. destruct (entries_alloc_1 _ _ (di_flist _ _ D)) as [(r & Hr & Hf & Ea)|[_ Ea]]; [left|by right].
  destruct (lookupZ_is_Some (ps_entries (fs_pools fs)) r) as [e0 He].
  { rewrite (di_entries _ _ D). split; [apply Hf|done]. }
  destruct (lookupZ_is_Some (ps_entrie_funcs (fs_pools fs)) r) as [f Hfn].
  { rewrite (di_funcs _ _ D). split; [apply Hf|done]. }
  exists r, e0. eauto 8.
Qed.

(** An index that is free is in no table entry. *)
Lemma free_not_used fs ndx : dir_inv U fs -> free_bit (ps_freelist (fs_pools fs)) ndx = true ->
  forall h, dir fs !! h <> Some ndx.
Proof using. intros D Hf h Hh. destruct (di_used _ _ D h ndx Hh). congruence. Qed.

Lemma flist_bits_clear_other fs ndx i : dir_inv U fs -> 0 <= ndx < g_npools (fs_geo fs) ->
  0 <= i < g_npools (fs_geo fs) -> free_bit (flist_clear (ps_freelist (fs_pools fs)) ndx) i =
    if decide (i = ndx) then false else free_bit (ps_freelist (fs_pools fs)) i.
Proof using.
  intros D Hn Hi. pose proof (wf_range _ _ (di_flist _ _ D)). pose proof (elems_bounds (g_npools (fs_geo fs)) ltac:(lia)).
  apply (free_bit_clear _ (g_npools (fs_geo fs))); [apply D|lia|lia].
Qed.

(** The state after a successful creation. *)
Lemma create_dir_inv fs fs' ndx h e fncs t : dir_inv U fs -> 0 <= ndx < g_npools (fs_geo fs) ->
  free_bit (ps_freelist (fs_pools fs)) ndx = true -> htbl_repr U t (<[h := ndx]> (dir fs)) ->
  dir fs !! h = None -> Z.of_nat (length (pe_name e)) = FLA_NAME_SIZE_POOL ->
  length fncs = length (ps_entrie_funcs (fs_pools fs)) -> fs_geo fs' = fs_geo fs ->
  fs_pools fs' = mk_pools (flist_clear (ps_freelist (fs_pools fs)) ndx) t (ps_htbl_hdr (fs_pools fs))
                   (insertZ ndx e (ps_entries (fs_pools fs))) fncs ->
  dir_inv U fs'.
Proof using.
  intros D Hn Hfree [Ht Hm] Hnone Hname Hlen G P. pose proof (free_not_used fs ndx D Hfree) as Hnu.
  assert (forall h' i, htbl_map t !! h' = Some i -> h' = h /\ i = ndx \/ h' <> h /\ dir fs !! h' = Some i) as Hcase.
  { intros h' i. rewrite Hm, lookup_insert_Some. intuition congruence. }
  pose proof D as [K _ F En Fu Na Us In]. split; rewrite ?G, ?P; cbn [ps_htbl ps_freelist ps_entries ps_entrie_funcs].
  - done.
  - done.
  - by apply flist_clear_wf.
  - by rewrite length_insertZ.
  - by rewrite Hlen.
  - unfold pool_entry_at. rewrite P. cbn [ps_entries]. intros i e'. destruct (decide (ndx = i)) as [<-|Hne].
    + rewrite lookupZ_insertZ_eq by lia. by intros [= <-].
    + rewrite lookupZ_insertZ_ne by done. apply Na.
  - intros h' i [[-> ->]|[Hne Hi]]%Hcase.
    + split; [done|]. rewrite flist_bits_clear_other by (done || lia). by rewrite decide_True.
    + destruct (Us h' i Hi) as [? ?]. split; [done|].
      rewrite flist_bits_clear_other by (done || lia). by case_decide.
  - intros h1 h2 i [[-> ->]|[? H1]]%Hcase [[-> Ei]|[? H2]]%Hcase; [done| | |by eapply In].
    + by destruct (Hnu h2).
    + rewrite Ei in H1. by destruct (Hnu h1).
Qed.

(** Giving the index back when the table is full. *)
Lemma rollback_same_free fs ndx i : dir_inv U fs -> 0 <= ndx < g_npools (fs_geo fs) ->
  free_bit (ps_freelist (fs_pools fs)) ndx = true -> 0 <= i < g_npools (fs_geo fs) ->
  free_bit (flist_set (flist_clear (ps_freelist (fs_pools fs)) ndx) ndx) i = free_bit (ps_freelist (fs_pools fs)) i.
Proof using.
  intros D Hn Hfree Hi. pose proof (di_flist _ _ D) as F. pose proof (wf_range _ _ F).
  pose proof (elems_bounds (g_npools (fs_geo fs)) ltac:(lia)).
  rewrite (free_bit_set _ (g_npools (fs_geo fs))) by ((by apply flist_clear_wf) || lia).
  case_decide; [congruence|]. rewrite flist_bits_clear_other by done. by case_decide.
Qed.

Lemma rollback_dir_inv fs fs' ndx fncs t : dir_inv U fs -> 0 <= ndx < g_npools (fs_geo fs) ->
  free_bit (ps_freelist (fs_pools fs)) ndx = true -> htbl_inv U t -> htbl_map t = dir fs ->
  length fncs = length (ps_entrie_funcs (fs_pools fs)) -> fs_geo fs' = fs_geo fs ->
  fs_pools fs' = mk_pools (flist_set (flist_clear (ps_freelist (fs_pools fs)) ndx) ndx) t
                   (ps_htbl_hdr (fs_pools fs)) (ps_entries (fs_pools fs)) fncs ->
  dir_inv U fs'.
Proof using.
  intros D Hn Hfree Ht Hm Hlen G P. pose proof D as [K _ F En Fu Na Us In].
  assert (flist_wf (flist_clear (ps_freelist (fs_pools fs)) ndx) (g_npools (fs_geo fs))) as Hw by (by apply flist_clear_wf).
  split; unfold pool_entry_at; rewrite ?G, ?P; cbn [ps_htbl ps_freelist ps_entries ps_entrie_funcs]; rewrite ?Hm; try done.
  - by apply flist_set_wf.
  - by rewrite Hlen.
  - intros h i Hi. destruct (Us h i Hi) as [Hr Hb]. split; [done|]. by rewrite rollback_same_free.
Qed.

Section create.
Context (fs : flexalloc) (D : dir_inv U fs) (F : cns_fs fs).
Context (arg : fla_pool_create_arg) (h n : Z).
Context (Hk : a_name arg ∈ U) (Hh : FLA_HTBL_H2 (a_name arg) = Some h) (Hnew : dir fs !! h = None).
Context (Hn : fla_calc_objs_in_slab fs (a_obj_nlb arg) = Some n).
Context (Hlen : 0 <= a_name_len arg <= Z.of_nat (length (a_name arg))).

(** What creation of a pool of a new name does: on success [ndx] is the lowest free
    index. *)
Record create_ok (fs' : flexalloc) (ndx : Z) : Prop := {
  co_first : first_free (ps_freelist (fs_pools fs)) ndx;
  co_range : 0 <= ndx < g_npools (fs_geo fs);
  co_nobj : 1 <= n;
  co_dir : dir fs' = <[h := ndx]> (dir fs);
  co_flist : ps_freelist (fs_pools fs') = flist_clear (ps_freelist (fs_pools fs)) ndx;
  co_name : a_name_len arg < FLA_NAME_SIZE_POOL;
  co_entry : exists e0 name, pool_entry_at fs ndx = Some e0 /\
    ps_entries (fs_pools fs') = insertZ ndx (created e0 arg n name) (ps_entries (fs_pools fs)) /\
    name = take (Z.to_nat (a_name_len arg)) (a_name arg) ++ drop (Z.to_nat (a_name_len arg)) (pe_name e0);
  co_fnc : ps_entrie_funcs (fs_pools fs') = insertZ ndx fnc_default (ps_entrie_funcs (fs_pools fs))
}.

(** The outcome of creation. *)
Definition create_out (w w' : W) (fs' : flexalloc) (hdl : option fla_pool) (err : Z) : Prop :=
  (forall dev lba, block w' dev lba = block w dev lba) /\ same_but_pools fs fs' /\ dir_inv U fs' /\
  (err <> 0 /\ hdl = None /\ dir fs' = dir fs /\ ps_entries (fs_pools fs') = ps_entries (fs_pools fs) /\
     same_free fs fs' \/
   err = 0 /\ exists ndx, hdl = Some (mk_pool h ndx) /\ create_ok fs' ndx).

Lemma create_out_err w w' err : (forall dev lba, block w' dev lba = block w dev lba) -> err <> 0 ->
  create_out w w' fs None err.
Proof using D. intros. split; [done|]. split; [done|]. split; [done|]. left. by repeat split. Qed.

Lemma create_at_spec w ndx e0 f : first_free (ps_freelist (fs_pools fs)) ndx -> ndx < g_npools (fs_geo fs) ->
  pool_entry_at fs ndx = Some e0 -> entry_fnc_at fs ndx = Some f -> 1 <= n ->
  a_name_len arg < FLA_NAME_SIZE_POOL ->
  let fs1 := set_pools (set_freelist (flist_clear (ps_freelist (fs_pools fs)) ndx) (fs_pools fs)) fs in
  exists fs' hdl err, pool_create_at w fs1 arg n ndx = Some (w, fs', hdl, err) /\ create_out w w fs' hdl err.
Proof using All.
  intros (Hr0 & Hfree & Hbelow) Hr He Hf Hn1 Hsz fs1. unfold pool_create_at.
  destruct (fla_pool_initialize_entrie_func_ (fs_pools fs1) ndx) as [[p1 r1]|] eqn:Ei.
  2: { unfold fla_pool_initialize_entrie_func_ in Ei. unfold pool_entry_at, entry_fnc_at in *.
       cbn [fs_pools set_pools set_freelist fs1 ps_entries ps_entrie_funcs] in Ei.
       rewrite He in Ei. cbn [mbind option_bind] in Ei. by rewrite Hf in Ei. }
  apply entrie_func_default in Ei as [_ ->]. bind_step.
  pose proof (htbl_insert_spec U (ps_htbl (fs_pools fs)) (a_name arg) h ndx (di_keys _ _ D) (di_htbl _ _ D) Hk Hh)
    as Hins.
  set (fncs := insertZ ndx fnc_default _).
  assert (length fncs = length (ps_entrie_funcs (fs_pools fs))) as Hfl by apply length_insertZ.
  assert (lookupZ fncs ndx = Some fnc_default) as Hfd by (apply lookupZ_insertZ_eq; by eapply lookupZ_Some).
  change (ps_htbl _) with (ps_htbl (fs_pools fs)). case_decide as Hfull.
  - destruct Hins as (t & -> & Ht & Htb & _). bind_step.
    change (negb (2 =? 0)) with true. cbv iota. cbn [ps_freelist fs_pools set_pools set_htbl set_entrie_funcs].
    change (ps_freelist (fs_pools fs1)) with (flist_clear (ps_freelist (fs_pools fs)) ndx).
    rewrite (entries_free_1 _ (g_npools (fs_geo fs))) by (done || (apply flist_clear_wf; [apply D|done])).
    bind_step. do 3 eexists. split; [done|]. split; [done|]. split; [done|].
    assert (htbl_map t = dir fs) as Hm by (unfold dir, htbl_map; by rewrite Htb).
    split; [by eapply (rollback_dir_inv fs _ ndx fncs t)|]. left. do 4 (split; [done|]).
    intros i Hi. by apply (rollback_same_free fs ndx).
  - destruct Hins as (t & -> & [Ht Hm] & _). bind_step. no_err.
    change (pool_entry_at _ ndx) with (pool_entry_at fs ndx). rewrite He. bind_step.
    change (entry_fnc_at _ ndx) with (lookupZ fncs ndx). rewrite Hfd. cbn [mbind option_bind fla_pool_entry_reset].
    destruct (name_copy_spec (pe_name e0) (a_name arg) (a_name_len arg)) as (name & Hc & Hl & Ht');
      [by eapply (di_names _ _ D)|lia|lia|].
    unfold fla_pool_entry_reset_default. rewrite Hc. bind_step. unfold upd_entry.
    change (lookupZ (ps_entries _) ndx) with (pool_entry_at fs ndx). rewrite He. bind_step.
    rewrite Hh. bind_step. do 3 eexists. split; [done|]. split; [done|]. split; [done|].
    split; [by eapply (create_dir_inv fs _ ndx h (created e0 arg n name) fncs t)|].
    right. split; [done|]. exists ndx. split; [done|]. split; try done. by exists e0, name.
Qed.

Lemma create_new_spec w :
  exists w' fs' hdl err, pool_create_new w fs arg = Some (w', fs', hdl, err) /\ create_out w w' fs' hdl err.
Proof using All.
  unfold pool_create_new. destruct (Z.leb_spec FLA_NAME_SIZE_POOL (a_name_len arg)) as [|Hsz].
  { do 4 eexists. split; [done|]. by apply create_out_err. }
  rewrite Hn. bind_step. destruct (Z.ltb_spec n 1) as [|Hn1].
  { do 4 eexists. split; [done|]. by apply create_out_err. }
  unfold cs_check_pool. rewrite (cf_cs _ F). bind_step.
  unfold fla_cs_cns_pool_check. no_err.
  destruct (malloc w 16) as [w' ok] eqn:Em. pose proof (malloc_frame _ _ _ _ Em) as Hf.
  destruct ok; cbn [negb].
  2: { do 4 eexists. split; [done|]. by apply create_out_err. }
  destruct (reserve_spec fs D) as [(ndx & e0 & Hff & Hr & He & [f Hfn] & ->)|Ea].
  2: { rewrite Ea. bind_step. change (-1 <? 0) with true. cbv iota. do 4 eexists.
       split; [done|].
       assert (set_pools (set_freelist (ps_freelist (fs_pools fs)) (fs_pools fs)) fs = fs) as ->.
       { destruct fs as [? ? ? ? ? [] ? ?]. done. }
       by apply create_out_err. }
  bind_step. pose proof Hff as (Hr0 & _). destruct (Z.ltb_spec ndx 0); [lia|].
  destruct (create_at_spec w' ndx e0 f Hff Hr He Hfn Hn1 Hsz) as (fs' & hdl & err & -> & Hb & Hout).
  do 4 eexists. split; [done|]. by split.
Qed.

Lemma pool_create_spec w :
  exists w' fs' hdl err, fla_base_pool_create w fs arg = Some (w', fs', hdl, err) /\ create_out w w' fs' hdl err.
Proof using All.
  unfold fla_base_pool_create. destruct (open_spec w fs (a_name arg) h D Hk Hh) as (w1 & hdl & err & -> & Hb & Ho).
  rewrite Hnew in Ho. destruct Ho as [-> ->]. bind_step. change (-1 =? 0) with false. cbv iota.
  destruct (create_new_spec w1) as (w2 & fs' & hdl & err & -> & Hb2 & Hout).
  do 4 eexists. split; [done|]. split; [|done]. intros dev lba. by rewrite Hb2.
Qed.
End create.
End directory.

