(* ===== verification/Object.v ===== *)
(** * Object: creating, opening and destroying objects, [src/src/flexalloc_mm.c]

    A slab header names its owner in [sl_pool]; the lists a slab moves between on
    creation and destruction are those of that pool entry. *)
From S2P Require Import Prelude Util Freelist Hash XnvmeEnv Flexalloc PoolEntry Geometry CommandSet.
From S2P Require Import SlabList SlabCache Slab Pool.

(** ** Definitions *)

(** The address of a slab list: the pool entry and which of its heads. *)
Definition list_addr : Type := Z * slab_list.

(** A list operation on the list at an address: the head is read there and the new
    head stored there. *)
Definition list_op (op : flexalloc -> Z -> Z -> option (flexalloc * Z * Z)) (fs : flexalloc)
    (slab : Z) (a : list_addr) : option (flexalloc * Z) :=
  e ← pool_entry_at fs a.1;
  '(fs, head, err) ← op fs slab (pe_head a.2 e);
  fs ← upd_entry fs a.1 (pe_set_head a.2 head);
  Some (fs, err).

Definition fla_pool_best_slab_list (fs : flexalloc) (slab : Z) : option list_addr :=
  h ← lookupZ (headers fs) slab;
  e ← pool_entry_at fs (sl_pool h);
  f ← entry_fnc_at fs (sl_pool h);
  num_fla_objs ← fla_pool_num_fla_objs f e;
  Some (sl_pool h,
        if sl_refcount h =? 0 then EmptySlabs
        else if pe_slab_nobj e <? u32 (sl_refcount h + num_fla_objs) then FullSlabs
        else PartialSlabs).

Definition fla_slab_next_available_obj (fs : flexalloc) (slab num_objs : Z) :
    option (flexalloc * option fla_object * Z) :=
  let '(slab_id, err) := fla_slab_id slab fs in
  if negb (err =? 0) then Some (fs, None, err) else
  '(fs, obj, err) ← fla_slab_cache_obj_alloc fs slab_id num_objs;
  if negb (err =? 0) then Some (fs, obj, err) else
  h ← lookupZ (headers fs) slab;
  e ← pool_entry_at fs (sl_pool h);
  f ← entry_fnc_at fs (sl_pool h);
  n ← fla_pool_num_fla_objs f e;
  fs ← header_upd fs slab (fun h => sl_set_refcount (u32 (sl_refcount h + n)) h);
  Some (fs, obj, 0).

Section world.
Context {W : Type} `{XnvmeEnv W}.

(** The slab to allocate from: a partial one, else an empty one, else a newly
    acquired one that joins the empty list.  [None] for the slab is [NULL] or not
    assigned. *)
Definition fla_pool_next_available_slab (w : W) (fs : flexalloc) (ndx : Z) :
    option (W * flexalloc * option Z * Z) :=
  e ← pool_entry_at fs ndx;
  if pe_partial_slabs e =? FLA_LINKED_LIST_NULL then
    if pe_empty_slabs e =? FLA_LINKED_LIST_NULL then
      '(w, fs, slab, err) ← fla_acquire_slab w fs (pe_obj_nlb e);
      if negb (err =? 0) then Some (w, fs, slab, err) else
      s ← slab;
      '(fs, err) ← list_op fla_hdll_prepend fs s (ndx, EmptySlabs);
      if negb (err =? 0) then
        '(fs, _) ← fla_release_slab fs s; Some (w, fs, slab, err)
      else Some (w, fs, slab, 0)
    else Some (w, fs, fla_slab_header_ptr (pe_empty_slabs e) fs, 0)
  else Some (w, fs, fla_slab_header_ptr (pe_partial_slabs e) fs, 0).

(** [fla_slab_cache_elem_load] where an element that is already there is fine. *)
Definition load_if_stale (w : W) (fs : flexalloc) (slab_id slab_nobj : Z) :
    option (W * flexalloc * Z) :=
  '(w, fs, err) ← fla_slab_cache_elem_load w fs slab_id slab_nobj;
  Some (w, fs, if err =? FLA_SLAB_CACHE_INVALID_STATE then 0 else err).

Definition fla_base_object_open (w : W) (fs : flexalloc) (pool : fla_pool) (obj : fla_object) :
    option (W * flexalloc * Z) :=
  match fla_slab_header_ptr (o_slab_id obj) fs with
  | None => Some (w, fs, 1)
  | Some _ =>
      e ← pool_entry_at fs (p_ndx pool);
      load_if_stale w fs (o_slab_id obj) (pe_slab_nobj e)
  end.

(** [fla_base_object_create] once the slab is chosen. *)
Definition object_create_in (w : W) (fs : flexalloc) (pool : fla_pool) (slab : Z) :
    option (W * flexalloc * option fla_object * Z) :=
  let '(slab_id, err) := fla_slab_id slab fs in
  if negb (err =? 0) then Some (w, fs, None, err) else
  e ← pool_entry_at fs (p_ndx pool);
  '(w, fs, err) ← load_if_stale w fs slab_id (pe_slab_nobj e);
  if negb (err =? 0) then Some (w, fs, None, err) else
  from_head ← fla_pool_best_slab_list fs slab;
  h ← lookupZ (headers fs) slab;
  f ← entry_fnc_at fs (sl_pool h);
  e ← pool_entry_at fs (p_ndx pool);
  num_fla_objs ← fla_pool_num_fla_objs f e;
  '(fs, obj, err) ← fla_slab_next_available_obj fs slab num_fla_objs;
  if negb (err =? 0) then Some (w, fs, obj, err) else
  to_head ← fla_pool_best_slab_list fs slab;
  if bool_decide (from_head = to_head) then Some (w, fs, obj, 0) else
  '(fs, err) ← list_op fla_hdll_remove fs slab from_head;
  if negb (err =? 0) then Some (w, fs, obj, err) else
  '(fs, err) ← list_op fla_hdll_prepend fs slab to_head;
  Some (w, fs, obj, err).

Definition fla_base_object_create (w : W) (fs : flexalloc) (pool : fla_pool) :
    option (W * flexalloc * option fla_object * Z) :=
  '(w, fs, slab, err) ← fla_pool_next_available_slab w fs (p_ndx pool);
  if negb (err =? 0) then Some (w, fs, None, err) else
  slab ← slab;
  object_create_in w fs pool slab.

Definition fla_base_object_destroy (w : W) (fs : flexalloc) (pool : fla_pool) (obj : fla_object) :
    option (W * flexalloc * Z) :=
  '(w, err) ← cs_object_destroy w fs pool obj;
  if negb (err =? 0) then Some (w, fs, err) else
  match fla_slab_header_ptr (o_slab_id obj) fs with
  | None => Some (w, fs, 1)
  | Some slab =>
      from_head ← fla_pool_best_slab_list fs slab;
      h ← lookupZ (headers fs) slab;
      f ← entry_fnc_at fs (sl_pool h);
      e ← pool_entry_at fs (p_ndx pool);
      num_fla_objs ← fla_pool_num_fla_objs f e;
      '(fs, err) ← fla_slab_cache_obj_free fs obj num_fla_objs;
      if negb (err =? 0) then Some (w, fs, err) else
      fs ← header_upd fs slab (fun h => sl_set_refcount (u32 (sl_refcount h - num_fla_objs)) h);
      to_head ← fla_pool_best_slab_list fs slab;
      '(fs, err) ← list_op fla_hdll_remove fs slab from_head;
      if negb (err =? 0) then Some (w, fs, err) else
      '(fs, err) ← list_op fla_hdll_prepend fs slab to_head;
      Some (w, fs, err)
  end.
End world.
