(* ===== verification/Alloc.v ===== *)
(** * Alloc: the invariant of the slab allocator and what creation and destruction do

    The state of the allocator is spread over the links in the slab headers, the
    heads in the pool entry, the reference counts and the cached freelists.
    [alloc_inv] says how they agree while one pool, at entry 0, owns slabs: slab
    headers name entry 0 as their owner whatever the pool is, so the lists are the
    right ones for that entry only.  The operations of [Object] and [Slab] keep the
    invariant on every path, failed allocations included. *)
From S2P Require Import Prelude Util Freelist Hash XnvmeEnv Flexalloc PoolEntry Geometry CommandSet.
From S2P Require Import SlabList SlabCache Slab Pool Object.

(** ** The state of the slab lists *)

(** The list a slab with [rc] objects of [n] belongs to. *)
Definition class (n rc : Z) : slab_list :=
  if rc =? 0 then EmptySlabs else if n <? rc + 1 then FullSlabs else PartialSlabs.

(** [upd l v ls] replaces the list at [l]. *)
Definition upd (l : slab_list) (v : list Z) (ls : slab_list -> list Z) : slab_list -> list Z :=
  fun l' => if decide (l' = l) then v else ls l'.

Lemma upd_eq l v ls : upd l v ls l = v.
Proof. unfold upd. by rewrite decide_True. Qed.
Lemma upd_ne l l' v ls : l' <> l -> upd l v ls l' = ls l'.
Proof. intros. unfold upd. by rewrite decide_False. Qed.

(** Free slabs in the queue [free], the slabs of pool entry 0 (whose contents are
    [e]) in the three lists [ls]; no slab is in two of them. *)
Record lists_ok (fs : flexalloc) (e : fla_pool_entry) (free : list Z) (ls : slab_list -> list Z) : Prop := {
  lo_free : edll (headers fs) (ss_fslab_head (fs_slabs fs)) (ss_fslab_tail (fs_slabs fs)) free;
  lo_entry : pool_entry_at fs 0 = Some e;
  lo_lists : forall l, hdll (headers fs) (pe_head l e) (ls l);
  lo_apart : forall l l' x, x ∈ ls l -> x ∈ ls l' -> l = l';
  lo_free_apart : forall l x, x ∈ ls l -> x ∉ free
}.

(** Replace the headers and pool entry 0. *)
Definition put (fs : flexalloc) (hs : list fla_slab_header) (e : fla_pool_entry) : flexalloc :=
  set_pools (set_entries (insertZ 0 e (ps_entries (fs_pools fs))) (fs_pools fs)) (with_headers fs hs).

Lemma put_headers fs hs e : headers (put fs hs e) = hs.
Proof. done. Qed.
Lemma put_entry fs hs e e0 : pool_entry_at fs 0 = Some e0 -> pool_entry_at (put fs hs e) 0 = Some e.
Proof. intros H%lookupZ_Some. exact (lookupZ_insertZ_eq (ps_entries (fs_pools fs)) 0 e H). Qed.

Lemma insertZ_twice {A} i (x y : A) l : insertZ i x (insertZ i y l) = insertZ i x l.
Proof. unfold insertZ. destruct (i <? 0); [done|]. apply list_insert_insert_eq. Qed.

Lemma put_put fs hs e hs' e' : put (put fs hs e) hs' e' = put fs hs' e'.
Proof.
  unfold put, set_pools, with_headers, set_slabs, set_entries.
  cbn [fs_pools fs_slabs ps_entries ps_freelist ps_htbl ps_htbl_hdr ps_entrie_funcs].
  by rewrite insertZ_twice.
Qed.

Lemma pe_head_set l l' h e :
  pe_head l' (pe_set_head l h e) = if decide (l' = l) then h else pe_head l' e.
Proof. by destruct l, l', e. Qed.

Lemma lists_remove fs e free ls l x :
  hdrs_ok fs -> lists_ok fs e free ls -> x ∈ ls l ->
  exists hs' h', list_op fla_hdll_remove fs x (0, l) = Some (put fs hs' (pe_set_head l h' e), 0) /\
    lists_ok (put fs hs' (pe_set_head l h' e)) (pe_set_head l h' e) free
      (upd l (filter (fun y => y <> x) (ls l)) ls) /\
    meta hs' = meta (headers fs) /\ length hs' = length (headers fs).
Proof.
  intros Hok [Hf He Hl Ha Hfa] Hx. apply list_elem_of_split in Hx as (l1 & l2 & El).
  pose proof (Hl l) as Hll. rewrite El in Hll.
  destruct (remove_spec fs x (pe_head l e) l1 l2 Hok Hll) as (hs' & Er & Hd & Hc).
  set (h' := first_id FLA_LINKED_LIST_NULL (l1 ++ l2)) in *.
  exists hs', h'. unfold list_op. cbn [fst snd]. rewrite He. bind_step. rewrite Er.
  bind_step. unfold upd_entry. 
  change (lookupZ (ps_entries (fs_pools (with_headers fs hs'))) 0) with (pool_entry_at fs 0).
  rewrite He. bind_step. split; [done|]. split; [|split; [apply Hc|apply Hc]].
  destruct Hll as [_ _ (Hn1 & Hn2 & _ & _)%NoDup_middle].
  assert (filter (fun y => y <> x) (ls l) = l1 ++ l2) as ->.
  { rewrite El, filter_app, filter_cons_False by (intros Hn; by apply Hn).
    apply NoDup_cons in Hn2 as [Hn2 _].
    rewrite !filter_all; [done|..]; intros y Hy ->; done. }
  assert (forall y, y ∈ l1 ++ l2 -> y ∈ ls l) as Hsub by (intros y; rewrite El; set_solver).
  split.
  - rewrite put_headers. eapply changed_edll; [exact Hc| |exact Hf].
    intros y Hy Hy'. eapply Hfa; [by apply Hsub|exact Hy].
  - by eapply put_entry.
  - intros l'. rewrite put_headers, pe_head_set. unfold upd. case_decide; [done|].
    eapply changed_hdll; [exact Hc| |apply Hl]. intros y Hy Hy'.
    specialize (Ha l' l y Hy (Hsub y Hy')). done.
  - intros l' l'' y. unfold upd. repeat case_decide; subst; eauto.
  - intros l' y. unfold upd. case_decide; subst; eauto.
Qed.

Lemma lists_prepend fs e free ls l x :
  hdrs_ok fs -> lists_ok fs e free ls -> 0 <= x < g_nslabs (fs_geo fs) ->
  (forall l', x ∉ ls l') -> (x ∉ free) ->
  exists hs', list_op fla_hdll_prepend fs x (0, l) = Some (put fs hs' (pe_set_head l x e), 0) /\
    lists_ok (put fs hs' (pe_set_head l x e)) (pe_set_head l x e) free (upd l (x :: ls l) ls) /\
    meta hs' = meta (headers fs) /\ length hs' = length (headers fs).
Proof.
  intros Hok [Hf He Hl Ha Hfa] Hr Hx Hxf.
  destruct (prepend_spec fs x (pe_head l e) (ls l) Hok (Hl l) Hr (Hx l)) as (hs' & Er & Hd & Hc).
  exists hs'. unfold list_op. cbn [fst snd]. rewrite He. bind_step. rewrite Er.
  bind_step. unfold upd_entry.
  change (lookupZ (ps_entries (fs_pools (with_headers fs hs'))) 0) with (pool_entry_at fs 0).
  rewrite He. bind_step. split; [done|]. split; [|split; [apply Hc|apply Hc]].
  split.
  - rewrite put_headers. eapply changed_edll; [exact Hc| |exact Hf].
    intros y Hy [->|Hy']%elem_of_cons; [done|]. by eapply Hfa.
  - by eapply put_entry.
  - intros l'. rewrite put_headers, pe_head_set. unfold upd. case_decide; [done|].
    eapply changed_hdll; [exact Hc| |apply Hl]. intros y Hy [->|Hy']%elem_of_cons.
    + by eapply Hx.
    + specialize (Ha l' l y Hy Hy'). done.
  - intros l' l'' y. unfold upd. repeat case_decide; subst; rewrite ?elem_of_cons; [done|..].
    + intros [->|?] ?; [by edestruct Hx|]. eauto.
    + intros ? [->|?]; [by edestruct Hx|]. eauto.
    + eauto.
  - intros l' y. unfold upd. case_decide; subst; rewrite ?elem_of_cons; [|eauto].
    intros [->|?]; eauto.
Qed.

(** ** The allocator's invariant *)

(** Slab [x], owned by pool entry 0, has [rc] of its [n] objects in use. *)
Definition slab_data (fs : flexalloc) (n x rc : Z) : Prop :=
  lookupZ (meta (headers fs)) x = Some (0, rc) /\
  exists flist st, cache_elem fs x = Some (mk_elem (Some flist) st) /\
    st <> FLA_SLAB_CACHE_ELEM_STALE /\ flist_wf flist n /\ used_count flist n = rc /\ sized (fs_geo fs) n flist.

(** An object exists if its slab is cached and its entry is reserved. *)
Definition live (fs : flexalloc) (n : Z) (o : fla_object) : Prop :=
  exists flist st, cache_elem fs (o_slab_id o) = Some (mk_elem (Some flist) st) /\
    st <> FLA_SLAB_CACHE_ELEM_STALE /\ 0 <= o_entry_ndx o < n /\ free_bit flist (o_entry_ndx o) = false.

Definition owned (ls : slab_list -> list Z) : nat :=
  length (ls EmptySlabs) + length (ls FullSlabs) + length (ls PartialSlabs).

(** The slabs that are in the queue or in a list of the pool, and those that a
    creation with result [err] loses. *)
Definition accounted (free : list Z) (ls : slab_list -> list Z) : nat := length free + owned ls.
Definition slabs_lost (err : Z) : nat := if err =? - ENOMEM then 1 else 0.

(** A system whose slabs are free, owned by pool entry 0, or lost (a slab whose
    formatting failed for lack of memory is in no list): [e] is the entry, [n] the
    number of objects per slab, [free] the queue of free slabs and [ls] the slabs of
    the pool by how full they are. *)
Record alloc_inv (fs : flexalloc) (e : fla_pool_entry) (n : Z) (free : list Z)
    (ls : slab_list -> list Z) : Prop := {
  ai_cns : cns_fs fs;
  ai_hdrs : hdrs_ok fs;
  ai_lists : lists_ok fs e free ls;
  ai_fnc : entry_fnc_at fs 0 = Some fnc_default;
  ai_nobj : pe_slab_nobj e = n;
  ai_calc : fla_calc_objs_in_slab fs (pe_obj_nlb e) = Some n;
  ai_range : 0 < pe_obj_nlb e /\ 0 < n < 2 ^ 31;
  ai_cache : forall x, 0 <= x < g_nslabs (fs_geo fs) -> exists el, cache_elem fs x = Some el;
  ai_cached : forall x el, cache_elem fs x = Some el -> ce_state el <> FLA_SLAB_CACHE_ELEM_STALE ->
    exists l, x ∈ ls l;
  ai_num : Z.of_nat (length free) <= ss_fslab_num (fs_slabs fs) /\
    ss_fslab_num (fs_slabs fs) + Z.of_nat (owned ls) <= g_nslabs (fs_geo fs);
  ai_owned : forall l x, x ∈ ls l -> exists rc, slab_data fs n x rc /\ l = class n rc
}.

Lemma calc_objs_frame fs fs' o :
  fs_geo fs' = fs_geo fs -> d_md_dev (fs_dev fs') = d_md_dev (fs_dev fs) ->
  fla_calc_objs_in_slab fs' o = fla_calc_objs_in_slab fs o.
Proof.
  intros G D. unfold fla_calc_objs_in_slab. rewrite G, D.
  assert (forall k, calc_objs_loop fs' o k = calc_objs_loop fs o k) as ->; [|done].
  induction k as [|k IH]; [done|]. cbn [calc_objs_loop].
  unfold fla_slab_cache_flist_nlb. by rewrite G, IH.
Qed.

(** The parts of the handle that the allocator does not change; a freelist that is
    clean was so before. *)
Record same_static (fs fs' : flexalloc) : Prop := {
  st_geo : fs_geo fs' = fs_geo fs;
  st_dev : fs_dev fs' = fs_dev fs;
  st_cs : fs_cs fs' = fs_cs fs;
  st_super : fs_super fs' = fs_super fs;
  st_fnc : entry_fnc_at fs' 0 = entry_fnc_at fs 0;
  st_clean : forall y el, cache_elem fs' y = Some el -> ce_state el = FLA_SLAB_CACHE_ELEM_CLEAN -> cache_elem fs y = Some el
}.

Lemma same_static_refl fs : same_static fs fs.
Proof. done. Qed.
Lemma same_static_trans fs1 fs2 fs3 : same_static fs1 fs2 -> same_static fs2 fs3 -> same_static fs1 fs3.
Proof. intros [? ? ? ? ? ?] [? ? ? ? ? ?]. split; [congruence..|eauto]. Qed.
#[export] Hint Resolve same_static_refl : flex.

Lemma cns_static fs fs' : same_static fs fs' -> cns_fs fs -> cns_fs fs'.
Proof. intros [G D C _ _ _] [? ? ?]. split; [by rewrite G|by rewrite D|by rewrite C]. Qed.

Lemma slab_data_frame fs fs' n x rc :
  fs_geo fs' = fs_geo fs -> cache_elem fs' x = cache_elem fs x ->
  lookupZ (meta (headers fs')) x = lookupZ (meta (headers fs)) x ->
  slab_data fs n x rc -> slab_data fs' n x rc.
Proof. unfold slab_data. by intros -> -> ->. Qed.

Lemma sized_clear geo n fl r : sized geo n fl -> sized geo n (flist_clear fl r).
Proof. unfold sized, flist_clear. by rewrite length_alter. Qed.
Lemma sized_set geo n fl r : sized geo n fl -> sized geo n (flist_set fl r).
Proof. unfold sized, flist_set. by rewrite length_alter. Qed.

Lemma live_frame fs fs' n o :
  cache_elem fs' (o_slab_id o) = cache_elem fs (o_slab_id o) -> live fs' n o <-> live fs n o.
Proof. unfold live. by intros ->. Qed.

(** Changing one slab [x] and moving it between the lists. *)
Lemma alloc_inv_build fs e n free ls fs' e' free' ls' x :
  alloc_inv fs e n free ls -> same_static fs fs' ->
  lists_ok fs' e' free' ls' -> pe_slab_nobj e' = n -> pe_obj_nlb e' = pe_obj_nlb e ->
  length (headers fs') = length (headers fs) ->
  Z.of_nat (length free') <= ss_fslab_num (fs_slabs fs') ->
  ss_fslab_num (fs_slabs fs') + Z.of_nat (owned ls') <= g_nslabs (fs_geo fs) ->
  (forall y, y <> x -> cache_elem fs' y = cache_elem fs y /\
     lookupZ (meta (headers fs')) y = lookupZ (meta (headers fs)) y) ->
  (forall l y, y <> x -> y ∈ ls' l <-> y ∈ ls l) ->
  (forall l, x ∈ ls' l -> exists rc, slab_data fs' n x rc /\ l = class n rc) ->
  (exists el, cache_elem fs' x = Some el /\
     (ce_state el = FLA_SLAB_CACHE_ELEM_STALE \/ exists l, x ∈ ls' l)) ->
  alloc_inv fs' e' n free' ls'.
Proof.
  intros [C H L F N K R Ca St Nu Ow] S L' N' O' Hlen Hnum Hown Hfr Hsub Hx (elx & Hxc & Hxl).
  pose proof S as [G D _ _ Fn _]. split; try done.
  - by eapply cns_static.
  - destruct H as [? ?]. split; rewrite ?G, ?Hlen; done.
  - congruence.
  - rewrite O', <- K. apply calc_objs_frame; [done|by rewrite D].
  - by rewrite O'.
  - rewrite G. intros y Hy. destruct (decide (y = x)) as [->|]; [by exists elx|].
    destruct (Hfr y) as [-> _]; [done|]. by apply Ca.
  - intros y el Hy Hst. destruct (decide (y = x)) as [->|Hne].
    { rewrite Hxc in Hy. injection Hy as <-. by destruct Hxl. }
    destruct (Hfr y Hne) as [Ec _]. rewrite Ec in Hy. destruct (St y el Hy Hst) as [l Hl].
    exists l. by apply Hsub.
  - split; [done|]. by rewrite G.
  - intros l y Hy. destruct (decide (y = x)) as [->|Hne]; [by apply Hx|].
    destruct (Hfr y Hne) as [Ec Em].
    destruct (Ow l y) as (rc & Hd & ->); [by apply Hsub|]. exists rc. split; [|done].
    by eapply slab_data_frame.
Qed.

Lemma best_list_spec fs x h e n :
  lookupZ (headers fs) x = Some h -> sl_pool h = 0 -> pool_entry_at fs 0 = Some e ->
  entry_fnc_at fs 0 = Some fnc_default -> pe_slab_nobj e = n ->
  0 <= sl_refcount h <= n -> n < 2 ^ 31 ->
  fla_pool_best_slab_list fs x = Some (0, class n (sl_refcount h)).
Proof.
  intros Hh Hp He Hf Hn Hr Hb. unfold fla_pool_best_slab_list. rewrite Hh.
  bind_step. rewrite Hp, He. bind_step. rewrite Hf.
  cbn [mbind option_bind fla_pool_num_fla_objs]. unfold fla_pool_num_fla_objs_default.
  rewrite u32_small by (unfold is_u32; lia). by rewrite Hn.
Qed.

Lemma meta_lookup hs x p rc : lookupZ (meta hs) x = Some (p, rc) ->
  exists h, lookupZ hs x = Some h /\ sl_pool h = p /\ sl_refcount h = rc.
Proof.
  unfold meta. rewrite lookupZ_fmap. destruct (lookupZ hs x) as [h|]; [|done].
  cbn. intros [= <- <-]. by exists h.
Qed.

Lemma lookup_meta hs x h : lookupZ hs x = Some h ->
  lookupZ (meta hs) x = Some (sl_pool h, sl_refcount h).
Proof. intros E. unfold meta. by rewrite lookupZ_fmap, E. Qed.

(** The lists do not depend on reference counts, the cache and other pool entries. *)
Lemma lists_ok_frame fs fs' e free ls :
  lists_ok fs e free ls -> pool_entry_at fs' 0 = pool_entry_at fs 0 ->
  ss_fslab_head (fs_slabs fs') = ss_fslab_head (fs_slabs fs) ->
  ss_fslab_tail (fs_slabs fs') = ss_fslab_tail (fs_slabs fs) ->
  (forall y h, y ∈ free \/ (exists l, y ∈ ls l) -> lookupZ (headers fs) y = Some h ->
     exists h', lookupZ (headers fs') y = Some h' /\ sl_prev h' = sl_prev h /\ sl_next h' = sl_next h) ->
  lists_ok fs' e free ls.
Proof.
  intros [[Eh Et [p Hl] Hnd] He Hls Ha Hfa] Ee E1 E2 Hfr. split; [|congruence| |done|done].
  - rewrite E1, E2. split; [done..| |done]. exists p. eapply lseg_frame, Hl. eauto.
  - intros l. destruct (Hls l) as [? Hll ?]. split; [done| |done].
    eapply lseg_frame, Hll. eauto 6.
Qed.

(** An assignment to a reference count keeps every link. *)
Lemma refcount_links hs x h rc : lookupZ hs x = Some h ->
  forall y h0, lookupZ hs y = Some h0 -> exists h', lookupZ (insertZ x (sl_set_refcount rc h) hs) y = Some h' /\
    sl_prev h' = sl_prev h0 /\ sl_next h' = sl_next h0.
Proof.
  intros Hx y h0 Hy. destruct (decide (x = y)) as [<-|].
  - rewrite lookupZ_insertZ_eq by (by eapply lookupZ_Some). eexists. split; [done|].
    rewrite Hx in Hy. by injection Hy as <-.
  - rewrite lookupZ_insertZ_ne by done. by exists h0.
Qed.

Lemma NoDup_filter_length (l : list Z) x : NoDup l -> x ∈ l ->
  S (length (filter (fun y => y <> x) l)) = length l.
Proof.
  intros Hnd Hx. apply list_elem_of_split in Hx as (l1 & l2 & ->).
  apply NoDup_middle in Hnd as (H1 & [H2 _]%NoDup_cons & _).
  rewrite filter_app, filter_cons_False by (intros H; by apply H).
  rewrite !filter_all; [rewrite !length_app; cbn; lia|..]; intros y Hy ->; done.
Qed.

Lemma pe_set_head_fields l h e :
  pe_slab_nobj (pe_set_head l h e) = pe_slab_nobj e /\ pe_obj_nlb (pe_set_head l h e) = pe_obj_nlb e.
Proof. by destruct l. Qed.

Lemma owned_move ls l l2 (v : list Z) x :
  S (length v) = length (ls l) -> owned (upd l2 (x :: upd l v ls l2) (upd l v ls)) = owned ls.
Proof. intros Hv. unfold owned, upd. destruct l, l2; repeat case_decide; cbn; congruence || lia. Qed.

(** Taking [x] out of one list and putting it in front of another (or the same). *)
Lemma lists_move fs e free ls l l2 x :
  hdrs_ok fs -> lists_ok fs e free ls -> x ∈ ls l ->
  exists fs1 hs' e' ls', list_op fla_hdll_remove fs x (0, l) = Some (fs1, 0) /\
    list_op fla_hdll_prepend fs1 x (0, l2) = Some (put fs hs' e', 0) /\
    lists_ok (put fs hs' e') e' free ls' /\ meta hs' = meta (headers fs) /\
    length hs' = length (headers fs) /\ pe_slab_nobj e' = pe_slab_nobj e /\
    pe_obj_nlb e' = pe_obj_nlb e /\ owned ls' = owned ls /\
    (forall l' y, y <> x -> y ∈ ls' l' <-> y ∈ ls l') /\ (forall l', x ∈ ls' l' <-> l' = l2).
Proof.
  intros Hok L Hx. destruct (lists_remove fs e free ls l x Hok L Hx) as (hs1 & h1 & E1 & L1 & M1 & N1).
  set (e1 := pe_set_head l h1 e) in *. set (fs1 := put fs hs1 e1) in *.
  assert (hdrs_ok fs1) as Hok1 by (destruct Hok as [H1 H2]; split; [by rewrite <- N1 in H1|done]).
  destruct (hdll_lookup _ _ _ x (lo_lists _ _ _ _ L l) Hx) as [hx Hhx].
  set (ls1 := upd l (filter (fun y => y <> x) (ls l)) ls) in *.
  assert (forall l', x ∉ ls1 l') as Hnot.
  { intros l' Hin. unfold ls1, upd in Hin. case_decide as Ed.
    - apply list_elem_of_filter in Hin as [Hin _]. by apply Hin.
    - apply Ed. by eapply (lo_apart _ _ _ _ L). }
  destruct (lists_prepend fs1 e1 free ls1 l2 x Hok1 L1) as (hs2 & E2 & L2 & M2 & N2);
    [by eapply (in_range fs)|done|by eapply (lo_free_apart _ _ _ _ L)|].
  destruct (pe_set_head_fields l h1 e) as [F1 F2]. fold e1 in F1, F2.
  destruct (pe_set_head_fields l2 x e1) as [F3 F4].
  eexists fs1, hs2, _, _. split; [exact E1|]. unfold fs1 in E2, L2. rewrite put_put in E2, L2.
  split; [exact E2|]. split; [exact L2|].
  split; [by rewrite M2|]. split; [by rewrite N2|]. split; [congruence|]. split; [congruence|].
  split; [|split].
  - apply owned_move. apply NoDup_filter_length; [|done]. apply (lo_lists _ _ _ _ L l).
  - intros l' y Hne. unfold ls1, upd. repeat case_decide; subst; rewrite ?elem_of_cons, ?list_elem_of_filter;
      naive_solver.
  - intros l'. split; [|intros ->; rewrite upd_eq; by left].
    intros Hy. unfold upd in Hy at 1. case_decide; [done|]. by destruct (Hnot l').
Qed.

(** The handle after the cache element and the reference count of [x] changed. *)
Definition touch (fs : flexalloc) (x : Z) (el : fla_slab_flist_cache_elem) (h : fla_slab_header)
    (rc : Z) : flexalloc :=
  with_headers (set_cache_elem fs x el) (insertZ x (sl_set_refcount rc h) (headers fs)).

Section touched.
Context (fs : flexalloc) (e : fla_pool_entry) (n : Z) (free : list Z) (ls : slab_list -> list Z).
Context (l : slab_list) (x : Z) (h : fla_slab_header) (flist : list Z) (st : fla_slab_flist_elem_state).
Context (I : alloc_inv fs e n free ls) (Hx : x ∈ ls l).
Context (Hh : lookupZ (headers fs) x = Some h) (Hp : sl_pool h = 0).
Context (Hst : st = FLA_SLAB_CACHE_ELEM_DIRTY) (Hwf : flist_wf flist n) (Hsz : sized (fs_geo fs) n flist).

Let rc := used_count flist n.
Let fs1 := touch fs x (mk_elem (Some flist) st) h rc.

Lemma touch_hdrs : hdrs_ok fs1.
Proof using I.
  destruct (ai_hdrs _ _ _ _ _ I) as [H1 H2]. split; [|done].
  unfold fs1, touch. rewrite headers_with, length_insertZ. exact H1.
Qed.

Lemma touch_lists : lists_ok fs1 e free ls.
Proof using I Hh.
  eapply lists_ok_frame; [apply I|done..|]. unfold fs1, touch. rewrite headers_with.
  intros y h0 _. by apply refcount_links.
Qed.

Lemma touch_cache_eq : cache_elem fs1 x = Some (mk_elem (Some flist) st).
Proof using I Hh.
  destruct (ai_cache _ _ _ _ _ I x) as [el Hel].
  { eapply in_range; [apply I|exact Hh]. }
  exact (cache_elem_set fs x el _ Hel).
Qed.

Lemma touch_header : exists h1, lookupZ (headers fs1) x = Some h1 /\ sl_pool h1 = 0 /\ sl_refcount h1 = rc.
Proof using Hh Hp.
  eexists. unfold fs1, touch. rewrite headers_with, lookupZ_insertZ_eq by (by eapply lookupZ_Some). done.
Qed.

Lemma touch_other y : y <> x -> cache_elem fs1 y = cache_elem fs y /\
  lookupZ (meta (headers fs1)) y = lookupZ (meta (headers fs)) y.
Proof using.
  intros Hne. split.
  - exact (cache_elem_set_ne fs x y _ (not_eq_sym Hne)).
  - unfold fs1, touch, meta. rewrite headers_with, !lookupZ_fmap. by rewrite lookupZ_insertZ_ne.
Qed.

Lemma touch_static : same_static fs fs1.
Proof using I Hh Hst.
  split; [done..|]. intros y el Hy Hc. destruct (decide (y = x)) as [->|Hne].
  - rewrite touch_cache_eq in Hy. injection Hy as <-. cbn in Hc. congruence.
  - by rewrite (proj1 (touch_other y Hne)) in Hy.
Qed.

Lemma touch_best : fla_pool_best_slab_list fs1 x = Some (0, class n rc).
Proof using I Hh Hp Hwf.
  destruct touch_header as (h1 & Hh1 & Hp1 & Hr1). rewrite <- Hr1.
  eapply best_list_spec; try done.
  - apply (lo_entry _ _ _ _ (ai_lists _ _ _ _ _ I)).
  - apply (ai_fnc _ _ _ _ _ I).
  - apply (ai_nobj _ _ _ _ _ I).
  - rewrite Hr1. by apply used_count_range.
  - apply (ai_range _ _ _ _ _ I).
Qed.

Lemma touch_data fs2 : fs_geo fs2 = fs_geo fs -> cache_elem fs2 x = cache_elem fs1 x -> meta (headers fs2) = meta (headers fs1) ->
  slab_data fs2 n x rc.
Proof using I Hh Hp Hst Hwf Hsz.
  intros Eg Ec Em. split.
  - rewrite Em. destruct touch_header as (h1 & Hh1 & <- & <-). by apply lookup_meta.
  - exists flist, st. rewrite Eg, Ec, touch_cache_eq. by subst st.
Qed.

(** It stays in its list. *)
Lemma touch_stay : class n rc = l -> alloc_inv fs1 e n free ls.
Proof using I Hx Hh Hp Hst Hwf Hsz.
  intros Ec. eapply (alloc_inv_build fs e n free ls fs1 e free ls x I); try done.
  - apply touch_static.
  - apply touch_lists.
  - apply (ai_nobj _ _ _ _ _ I).
  - unfold fs1, touch. by rewrite headers_with, length_insertZ.
  - apply (ai_num _ _ _ _ _ I).
  - apply (ai_num _ _ _ _ _ I).
  - intros y Hy. by apply touch_other.
  - intros l' Hl'. exists rc. split; [by apply touch_data|].
    rewrite Ec. by eapply (lo_apart _ _ _ _ (ai_lists _ _ _ _ _ I)).
  - eexists. split; [apply touch_cache_eq|]. right. by exists l.
Qed.

(** It moves to the list of its new reference count. *)
Lemma touch_move : exists fs2 fs3 e' ls', list_op fla_hdll_remove fs1 x (0, l) = Some (fs2, 0) /\
  list_op fla_hdll_prepend fs2 x (0, class n rc) = Some (fs3, 0) /\ alloc_inv fs3 e' n free ls' /\
  (forall y, cache_elem fs3 y = cache_elem fs1 y) /\ same_static fs fs3 /\ pe_obj_nlb e' = pe_obj_nlb e /\ owned ls' = owned ls.
Proof using I Hx Hh Hp Hst Hwf Hsz.
  destruct (lists_move fs1 e free ls l (class n rc) x touch_hdrs touch_lists Hx)
    as (fs2 & hs' & e' & ls' & E1 & E2 & L' & M' & N' & Fn & Fo & Ow & Hsub & Hin).
  assert (same_static fs (put fs1 hs' e')) as St by (eapply same_static_trans; [apply touch_static|by split]).
  exists fs2, (put fs1 hs' e'), e', ls'. split; [done|]. split; [done|].
  split; [|split; [done|split; done]].
  eapply (alloc_inv_build fs e n free ls _ e' free ls' x I); try done.
  - rewrite Fn. apply (ai_nobj _ _ _ _ _ I).
  - rewrite put_headers, N'. unfold fs1, touch. by rewrite headers_with, length_insertZ.
  - apply (ai_num _ _ _ _ _ I).
  - rewrite Ow. apply (ai_num _ _ _ _ _ I).
  - intros y Hy. rewrite put_headers, M'. by apply touch_other.
  - intros l' Hl'. exists rc. split; [|by apply Hin]. by apply touch_data.
  - eexists. split; [apply touch_cache_eq|]. right. exists (class n rc). by apply Hin.
Qed.
End touched.

(** ** Creating and destroying objects *)

Lemma class_not_full n rc : 0 < n -> 0 <= rc <= n -> class n rc <> FullSlabs -> rc < n.
Proof.
  intros ? ? Hc. unfold class in Hc. destruct (Z.eqb_spec rc 0); [lia|].
  destruct (Z.ltb_spec n (rc + 1)); [done|lia].
Qed.

(** Clearing the bit of a free entry adds one live object. *)
Lemma live_clear fs fs' n x r fl st st' :
  flist_wf fl n -> 0 <= r < n ->
  cache_elem fs x = Some (mk_elem (Some fl) st) -> st <> FLA_SLAB_CACHE_ELEM_STALE ->
  cache_elem fs' x = Some (mk_elem (Some (flist_clear fl r)) st') -> st' <> FLA_SLAB_CACHE_ELEM_STALE ->
  (forall y, y <> x -> cache_elem fs' y = cache_elem fs y) ->
  forall o, live fs' n o <-> o = mk_obj x r \/ live fs n o.
Proof.
  intros Hw Hr Hc Hs Hc' Hs' Hother [y k]. unfold live. cbn [o_slab_id o_entry_ndx].
  pose proof (wf_range _ _ Hw). pose proof (elems_bounds n ltac:(lia)) as Heb.
  destruct (decide (y = x)) as [->|Hne].
  - rewrite Hc', Hc.
    assert (forall k, 0 <= k -> free_bit (flist_clear fl r) k = if decide (k = r) then false else free_bit fl k) as Hbit.
    { intros k0 Hk0. apply (free_bit_clear fl n); [done|lia|done]. }
    split.
    + intros (fl0 & st0 & [= <- <-] & _ & Hk & Hb). rewrite Hbit in Hb by lia. case_decide as Ek.
      * left. by rewrite Ek.
      * right. by exists fl, st.
    + intros [[= ->]|(fl0 & st0 & [= <- <-] & _ & Hk & Hb)];
        exists (flist_clear fl r), st'; (split; [done|]; split; [done|]; split; [done|]);
        rewrite Hbit by lia; case_decide; done.
  - rewrite (Hother y Hne). split; [by right|]. intros [[= -> _]|?]; done.
Qed.

(** Setting the bit of a live object takes it away. *)
Lemma live_set fs fs' n x r fl st st' :
  flist_wf fl n -> 0 <= r < n ->
  cache_elem fs x = Some (mk_elem (Some fl) st) -> st <> FLA_SLAB_CACHE_ELEM_STALE ->
  cache_elem fs' x = Some (mk_elem (Some (flist_set fl r)) st') -> st' <> FLA_SLAB_CACHE_ELEM_STALE ->
  (forall y, y <> x -> cache_elem fs' y = cache_elem fs y) ->
  forall o, live fs' n o <-> o <> mk_obj x r /\ live fs n o.
Proof.
  intros Hw Hr Hc Hs Hc' Hs' Hother [y k]. unfold live. cbn [o_slab_id o_entry_ndx].
  pose proof (wf_range _ _ Hw). pose proof (elems_bounds n ltac:(lia)) as Heb.
  destruct (decide (y = x)) as [->|Hne].
  - rewrite Hc', Hc.
    assert (forall k, 0 <= k -> free_bit (flist_set fl r) k = if decide (k = r) then true else free_bit fl k) as Hbit.
    { intros k0 Hk0. apply (free_bit_set fl n); [done|lia|done]. }
    split.
    + intros (fl0 & st0 & [= <- <-] & _ & Hk & Hb). rewrite Hbit in Hb by lia. case_decide as Ek; [done|].
      split; [congruence|]. by exists fl, st.
    + intros (Hne & fl0 & st0 & [= <- <-] & _ & Hk & Hb).
      exists (flist_set fl r), st'. do 3 (split; [done|]). rewrite Hbit by lia. case_decide; congruence.
  - rewrite (Hother y Hne). split; [|by intros [_ ?]]. split; [congruence|done].
Qed.

Section ops.
Context {W : Type} `{E : XnvmeEnv W}.
Context (fs : flexalloc) (e : fla_pool_entry) (n : Z) (free : list Z) (ls : slab_list -> list Z).
Context (I : alloc_inv fs e n free ls) (pool : fla_pool) (Hpool : p_ndx pool = 0).

Let He : pool_entry_at fs 0 = Some e := lo_entry _ _ _ _ (ai_lists _ _ _ _ _ I).
Let Hf : entry_fnc_at fs 0 = Some fnc_default := ai_fnc _ _ _ _ _ I.

(** What is known of an owned slab. *)
Lemma owned_facts l x : x ∈ ls l -> exists h flist st, lookupZ (headers fs) x = Some h /\ sl_pool h = 0 /\
  sl_refcount h = used_count flist n /\ cache_elem fs x = Some (mk_elem (Some flist) st) /\
  st <> FLA_SLAB_CACHE_ELEM_STALE /\ flist_wf flist n /\ l = class n (used_count flist n) /\
  0 <= x < g_nslabs (fs_geo fs).
Proof using I.
  intros Hx. destruct (ai_owned _ _ _ _ _ I l x Hx) as (rc & [Hm (fl & st & Hc & Hs & Hw & Hu & _)] & Hl).
  destruct (meta_lookup _ _ _ _ Hm) as (h & Hh & Hp & Hr). subst rc.
  exists h, fl, st. do 7 (split; [done|]). eapply (in_range fs); [apply I|exact Hh].
Qed.

Lemma owned_sized l x flist st : x ∈ ls l -> cache_elem fs x = Some (mk_elem (Some flist) st) -> sized (fs_geo fs) n flist.
Proof using I.
  intros Hx Hc. destruct (ai_owned _ _ _ _ _ I l x Hx) as (rc & [_ (fl & st' & Hc' & _ & _ & _ & Hz)] & _).
  rewrite Hc in Hc'. by injection Hc' as <- <-.
Qed.

Lemma best_owned x h flist st : lookupZ (headers fs) x = Some h -> sl_pool h = 0 ->
  sl_refcount h = used_count flist n -> cache_elem fs x = Some (mk_elem (Some flist) st) -> flist_wf flist n ->
  fla_pool_best_slab_list fs x = Some (0, class n (used_count flist n)).
Proof using I He Hf.
  intros Hh Hp Hr _ Hw. rewrite <- Hr. eapply best_list_spec; try done.
  - apply (ai_nobj _ _ _ _ _ I).
  - rewrite Hr. by apply used_count_range.
  - apply (ai_range _ _ _ _ _ I).
Qed.

(** The reference count and the entry's bit change together. *)
Lemma next_obj_spec x h fl st : lookupZ (headers fs) x = Some h -> sl_pool h = 0 ->
  sl_refcount h = used_count fl n -> cache_elem fs x = Some (mk_elem (Some fl) st) ->
  st <> FLA_SLAB_CACHE_ELEM_STALE -> flist_wf fl n -> used_count fl n < n ->
  exists r, 0 <= r < n /\ free_bit fl r = true /\ flist_wf (flist_clear fl r) n /\
    used_count (flist_clear fl r) n = used_count fl n + 1 /\
    fla_slab_next_available_obj fs x 1 =
      Some (touch fs x (mk_elem (Some (flist_clear fl r)) FLA_SLAB_CACHE_ELEM_DIRTY) h
              (used_count (flist_clear fl r) n), Some (mk_obj x r), 0).
Proof using I He Hf.
  intros Hh Hp Hr Hc Hs Hw Hlt. pose proof (used_count_range fl n Hw) as Hu.
  pose proof (ai_range _ _ _ _ _ I) as [_ Hn].
  destruct (obj_alloc_spec fs x n fl st Hc Hs Hw) as [(r & Hr0 & Hfree & _ & Ea)|[Hnone _]].
  2: { exfalso. apply (used_count_full fl n Hw) in Hnone. lia. }
  assert (used_count (flist_clear fl r) n = used_count fl n + 1) as Hu' by (by apply used_count_clear).
  exists r. do 2 (split; [done|]). split; [by apply flist_clear_wf|]. split; [done|].
  unfold fla_slab_next_available_obj. rewrite slab_id_ok by (apply I || (eapply (in_range fs); [apply I|exact Hh])).
  no_err. rewrite Ea. bind_step.
  no_err.
  change (headers (set_cache_elem fs x _)) with (headers fs). rewrite Hh. bind_step.
  rewrite Hp. change (pool_entry_at (set_cache_elem fs x _) 0) with (pool_entry_at fs 0).
  rewrite He. bind_step.
  change (entry_fnc_at (set_cache_elem fs x _) 0) with (entry_fnc_at fs 0).
  rewrite Hf. cbn [mbind option_bind fla_pool_num_fla_objs].
  erewrite header_upd_eq by exact Hh. bind_step.
  unfold touch, fla_pool_num_fla_objs_default. rewrite Hr, Hu', u32_small by (unfold is_u32; lia). done.
Qed.

(** Allocation in a slab that is not full. *)
Lemma create_in_spec w l x : x ∈ ls l -> l <> FullSlabs ->
  exists fs' r e' ls', object_create_in w fs pool x = Some (w, fs', Some (mk_obj x r), 0) /\
    ~ live fs n (mk_obj x r) /\ (forall o, live fs' n o <-> o = mk_obj x r \/ live fs n o) /\
    alloc_inv fs' e' n free ls' /\ same_static fs fs' /\ pe_obj_nlb e' = pe_obj_nlb e /\ owned ls' = owned ls.
Proof using I Hpool He Hf.
  intros Hx Hl. destruct (owned_facts l x Hx) as (h & fl & st & Hh & Hp & Hr & Hc & Hs & Hw & El & Hxr).
  pose proof (ai_range _ _ _ _ _ I) as [_ Hn]. pose proof (used_count_range fl n Hw) as Hu.
  destruct (next_obj_spec x h fl st) as (r & Hr0 & Hfree & Hw' & Hu' & Enext); try done.
  { subst l. by apply class_not_full; [lia|..]. }
  pose proof (sized_clear _ _ _ r (owned_sized l x fl st Hx Hc)) as Hz.
  set (fl' := flist_clear fl r) in *. set (D := FLA_SLAB_CACHE_ELEM_DIRTY) in *.
  set (fs1 := touch fs x (mk_elem (Some fl') D) h (used_count fl' n)) in *.
  assert (D <> FLA_SLAB_CACHE_ELEM_STALE) as Hds by done.
  assert (forall fs', (forall y, cache_elem fs' y = cache_elem fs1 y) ->
    forall o, live fs' n o <-> o = mk_obj x r \/ live fs n o) as Hlive.
  { intros fs' Hcc. eapply (live_clear fs fs' n x r fl st); try done.
    - rewrite Hcc. by eapply touch_cache_eq.
    - intros y Hne. rewrite Hcc. by apply touch_other. }
  unfold object_create_in, load_if_stale. rewrite slab_id_ok by (done || apply I).
  no_err. rewrite Hpool, He. bind_step.
  rewrite (elem_load_cached w fs x _ (pe_slab_nobj e) Hc Hs). bind_step.
  rewrite Z.eqb_refl. no_err.
  rewrite (best_owned x h fl st Hh Hp Hr Hc Hw). bind_step. rewrite Hh.
  bind_step. rewrite Hp, Hf. bind_step. rewrite He.
  cbn [mbind option_bind fla_pool_num_fla_objs]. unfold fla_pool_num_fla_objs_default.
  rewrite Enext. bind_step. no_err.
  rewrite (touch_best fs e n free ls x h fl' D I Hh Hp Hw' : fla_pool_best_slab_list fs1 x = _). bind_step.
  assert (~ live fs n (mk_obj x r)) as Hnl.
  { intros (fl0 & st0 & Hc0 & _ & _ & Hb). cbn in *. rewrite Hc in Hc0. injection Hc0 as <- <-. congruence. }
  case_bool_decide as Eq.
  - injection Eq as Eq. exists fs1, r, e, ls. split; [done|]. split; [done|].
    split; [by apply Hlive|]. split; [|split; [by eapply touch_static|done]].
    eapply touch_stay; try done. congruence.
  - rewrite <- El.
    destruct (touch_move fs e n free ls l x h fl' D I Hx Hh Hp eq_refl Hw' Hz)
      as (fs2 & fs3 & e' & ls' & E1 & E2 & I3 & Hcc & Hst & Ho).
    fold fs1 in E1, Hcc. rewrite E1. bind_step. no_err. rewrite E2. bind_step.
    exists fs3, r, e', ls'. split; [done|]. split; [done|]. split; [by apply Hlive|]. done.
Qed.

Lemma header_ptr_owned l x : x ∈ ls l -> fla_slab_header_ptr x fs = Some x.
Proof using I.
  intros Hx. destruct (owned_facts l x Hx) as (h & fl & st & Hh & Hp & Hr & Hc & Hs & Hw & El & Hxr).
  apply header_ptr_some; [apply I|done].
Qed.

(** Destroying a live object. *)
Lemma destroy_spec w o : live fs n o ->
  exists fs' e' ls', fla_base_object_destroy w fs pool o = Some (w, fs', 0) /\
    (forall o', live fs' n o' <-> o' <> o /\ live fs n o') /\
    alloc_inv fs' e' n free ls' /\ same_static fs fs' /\ pe_obj_nlb e' = pe_obj_nlb e /\ owned ls' = owned ls.
Proof using I Hpool He Hf.
  destruct o as [x r]. intros (fl0 & st0 & Hc0 & Hs0 & Hr0 & Hb). cbn [o_slab_id o_entry_ndx] in *.
  destruct (ai_cached _ _ _ _ _ I x _ Hc0 Hs0) as [l Hx].
  destruct (owned_facts l x Hx) as (h & fl & st & Hh & Hp & Hr & Hc & Hs & Hw & El & Hxr).
  rewrite Hc in Hc0. injection Hc0 as <- <-.
  pose proof (ai_range _ _ _ _ _ I) as [_ Hn]. pose proof (used_count_range fl n Hw) as Hu.
  pose proof (used_pos fl n Hw r Hr0 Hb) as Hpos.
  pose proof (used_count_set fl n Hw r Hr0 Hb) as Hu'.
  pose proof (flist_set_wf fl n r Hw Hr0) as Hw'.
  pose proof (sized_set _ _ _ r (owned_sized l x fl st Hx Hc)) as Hz.
  set (fl' := flist_set fl r) in *. set (D := FLA_SLAB_CACHE_ELEM_DIRTY) in *.
  assert (D <> FLA_SLAB_CACHE_ELEM_STALE) as Hds by done.
  destruct (touch_move fs e n free ls l x h fl' D I Hx Hh Hp eq_refl Hw' Hz)
    as (fs2 & fs3 & e' & ls' & E1 & E2 & I3 & Hcc & Hst & Ho).
  exists fs3, e', ls'. split; [|split; [|done]].
  - unfold fla_base_object_destroy, cs_object_destroy.
    rewrite (cf_cs _ (ai_cns _ _ _ _ _ I)). cbn [mbind option_bind fla_cs_cns_object_destroy].
    no_err. cbn [o_slab_id]. rewrite (header_ptr_owned l x Hx).
    rewrite (best_owned x h fl st Hh Hp Hr Hc Hw). bind_step. rewrite Hh.
    bind_step. rewrite Hp, Hf. bind_step. rewrite Hpool, He.
    cbn [mbind option_bind fla_pool_num_fla_objs]. unfold fla_pool_num_fla_objs_default.
    rewrite (obj_free_spec fs x n fl st Hc Hs Hw r Hr0). bind_step.
    no_err.
    erewrite header_upd_eq by exact Hh. bind_step.
    rewrite Hr, u32_small, <- Hu' by (unfold is_u32; lia).
    change (headers (set_cache_elem fs x _)) with (headers fs). fold D fl'.
    fold (touch fs x (mk_elem (Some fl') D) h (used_count fl' n)).
    rewrite (touch_best fs e n free ls x h fl' D I Hh Hp Hw').
    bind_step. rewrite <- El, E1. bind_step.
    no_err. rewrite E2. done.
  - eapply (live_set fs fs3 n x r fl st); try done.
    + rewrite Hcc. by eapply touch_cache_eq.
    + intros y Hne. rewrite Hcc. by apply touch_other.
Qed.
End ops.

(** ** Acquiring a slab *)

Section acquire.
Context {W : Type} `{E : XnvmeEnv W} (block : W -> xnvme_dev -> Z -> list Z) `{!XnvmeLaws W block}.
Context (fs : flexalloc) (e : fla_pool_entry) (n : Z) (free : list Z) (ls : slab_list -> list Z).
Context (I : alloc_inv fs e n free ls).

(** Free slabs are not cached. *)
Lemma free_stale x : x ∈ free -> exists h el, lookupZ (headers fs) x = Some h /\
  cache_elem fs x = Some el /\ ce_state el = FLA_SLAB_CACHE_ELEM_STALE.
Proof using I.
  intros Hx. destruct (lo_free _ _ _ _ (ai_lists _ _ _ _ _ I)) as [_ _ [p Hs] _].
  destruct (lseg_lookup _ _ _ _ x Hs Hx) as [h Hh].
  destruct (ai_cache _ _ _ _ _ I x) as [el Hel]; [by eapply in_range; [apply I|]|].
  exists h, el. split; [done|]. split; [done|].
  destruct (decide (ce_state el = FLA_SLAB_CACHE_ELEM_STALE)) as [|Hns]; [done|].
  destruct (ai_cached _ _ _ _ _ I x el Hel Hns) as [l Hl].
  by destruct (lo_free_apart _ _ _ _ (ai_lists _ _ _ _ _ I) l x Hl).
Qed.

(** What the caller of [fla_acquire_slab] sees after the head [x] of the free slabs
    was taken off: [err] is 0 or [-ENOMEM]. *)
Record acquired (x : Z) (l : list Z) (fs' : flexalloc) (err : Z) : Prop := {
  aq_static : same_static fs fs';
  aq_lists : lists_ok fs' e l ls;
  aq_len : length (headers fs') = length (headers fs);
  aq_other : forall y, y <> x -> cache_elem fs' y = cache_elem fs y /\
    lookupZ (meta (headers fs')) y = lookupZ (meta (headers fs)) y;
  aq_err : err = - ENOMEM /\ cache_elem fs' x = cache_elem fs x /\
       ss_fslab_num (fs_slabs fs') = ss_fslab_num (fs_slabs fs) \/
     err = 0 /\ slab_data fs' n x 0 /\ ss_fslab_num (fs_slabs fs') = ss_fslab_num (fs_slabs fs) - 1
}.

(** The headers once the free queue was shortened and the header of [x] reset. *)
Lemma acquired_lists x l hs1 h fs' head tail :
  free = x :: l -> edll hs1 head tail l -> changed l (headers fs) hs1 ->
  headers fs' = insertZ x h hs1 -> pool_entry_at fs' 0 = pool_entry_at fs 0 ->
  ss_fslab_head (fs_slabs fs') = head -> ss_fslab_tail (fs_slabs fs') = tail ->
  lists_ok fs' e l ls /\ length (headers fs') = length (headers fs) /\
  forall y, y <> x -> lookupZ (meta (headers fs')) y = lookupZ (meta (headers fs)) y.
Proof using I.
  intros Hfree Hf1 Hc1 Eh Ee <- <-. destruct (ai_lists _ _ _ _ _ I) as [Hf He Hl Ha Hfa].
  rewrite Hfree in Hf, Hfa. destruct Hf as [_ _ _ [Hxl _]%NoDup_cons].
  assert (forall y, y <> x -> lookupZ (headers fs') y = lookupZ hs1 y) as Hout.
  { intros y Hy. rewrite Eh. by apply lookupZ_insertZ_ne. }
  split; [|split].
  - split.
    + destruct Hf1 as [? ? [p Hs] ?]. split; [done..| |done]. exists p. eapply lseg_frame_eq, Hs.
      intros y Hy. apply Hout. by intros ->.
    + congruence.
    + intros l0. destruct (changed_hdll l _ hs1 (pe_head l0 e) (ls l0) Hc1) as [? Hs ?]; [|apply Hl|].
      { intros y Hy Hy'. eapply (Hfa l0 y Hy). by right. }
      split; [done| |done]. eapply lseg_frame_eq, Hs. intros y Hy. apply Hout. intros ->.
      eapply (Hfa l0 x Hy). by left.
    + done.
    + intros l0 y Hy Hy'. eapply (Hfa l0 y Hy). by right.
  - rewrite Eh, length_insertZ. apply Hc1.
  - intros y Hy. rewrite <- (ch_meta _ _ _ Hc1). unfold meta. rewrite !lookupZ_fmap. by rewrite Hout.
Qed.

Lemma acquire_cons w x l : free = x :: l ->
  exists w' fs' err, fla_acquire_slab w fs (pe_obj_nlb e) = Some (w', fs', Some x, err) /\
    (forall dev lba, block w' dev lba = block w dev lba) /\ acquired x l fs' err.
Proof using All.
  intros Hfree. pose proof (lo_free _ _ _ _ (ai_lists _ _ _ _ _ I)) as Hf.
  pose proof (ai_hdrs _ _ _ _ _ I) as Hok. destruct (free_stale x) as (h & el & Hh & Hel & Hst); [rewrite Hfree; by left|].
  pose proof (ai_num _ _ _ _ _ I) as [Hn1 Hn2]. pose proof (ho_range _ Hok) as Hns.
  rewrite Hfree in Hf, Hn1. cbn [length] in Hn1.
  destruct (edll_remove_head_spec fs _ _ x l Hok Hf) as (hs1 & E1 & Hf1 & Hc1).
  set (fs1 := set_free_list (ss_fslab_num (fs_slabs fs)) (first_id FLA_LINKED_LIST_NULL l)
                (last_id FLA_LINKED_LIST_NULL l) (with_headers fs hs1)).
  assert (hdrs_ok fs1) as Hok1.
  { split; [|apply Hok]. rewrite <- (ho_len _ Hok : _ = g_nslabs (fs_geo fs1)). f_equal. apply Hc1. }
  assert (exists h1, lookupZ (headers fs1) x = Some h1) as [h1 Hh1].
  { apply lookupZ_is_Some. rewrite (ho_len _ Hok1). exact (in_range fs Hok x h Hh). }
  assert (fla_calc_objs_in_slab fs1 (pe_obj_nlb e) = Some n) as Hcalc.
  { rewrite <- (ai_calc _ _ _ _ _ I). by apply calc_objs_frame. }
  destruct (format_spec block w fs1 x h1 el (pe_obj_nlb e) n) as (w' & fs2 & err & E2 & Hblk & Hres);
    try done; [apply I|apply I|].
  unfold fla_acquire_slab. destruct (Z.eqb_spec (ss_fslab_num (fs_slabs fs)) 0) as [|_]; [lia|].
  rewrite E1. bind_step. no_err.
  fold fs1. rewrite E2. bind_step.
  destruct Hres as [[-> ->]|[-> (fl & -> & Hw & Hz & Hfr)]].
  - change (negb (- ENOMEM =? 0)) with true. cbv iota. do 3 eexists. split; [done|]. split; [done|].
    match goal with |- acquired _ _ ?fs' _ =>
      destruct (acquired_lists x l hs1 _ fs' _ _ Hfree Hf1 Hc1 eq_refl eq_refl eq_refl eq_refl)
        as (L1 & N1 & M1) end.
    split; [by split|exact L1|exact N1|split; [done|by apply M1]|by left].
  - no_err. do 3 eexists. split; [done|]. split; [done|].
    match goal with |- acquired _ _ ?fs' _ =>
      destruct (acquired_lists x l hs1 _ fs' _ _ Hfree Hf1 Hc1 eq_refl eq_refl eq_refl eq_refl)
        as (L1 & N1 & M1) end.
    split; [split; [done..|]|exact L1|exact N1| |right].
    { intros y el' Hy Hcl. destruct (decide (y = x)) as [->|Hne].
      - unfold cache_elem in Hy. cbn in Hy. change (cache_elem (set_cache_elem fs x (mk_elem (Some fl) FLA_SLAB_CACHE_ELEM_DIRTY)) x = Some el') in Hy.
        rewrite (cache_elem_set fs x el _ Hel) in Hy. by injection Hy as <-.
      - by rewrite <- (cache_elem_set_ne fs x y (mk_elem (Some fl) FLA_SLAB_CACHE_ELEM_DIRTY)). }
    { intros y Hy. split; [exact (cache_elem_set_ne fs x y _ (not_eq_sym Hy))|by apply M1]. }
    split; [done|]. split; [|cbn; rewrite u32_small by (unfold is_u32, FLA_LINKED_LIST_NULL in *; lia); done].
    split.
    + apply (lookup_meta _ x (mk_hdr 0 FLA_LINKED_LIST_NULL FLA_LINKED_LIST_NULL 0)).
      apply (lookupZ_insertZ_eq (headers fs1)). by eapply lookupZ_Some.
    + exists fl, FLA_SLAB_CACHE_ELEM_DIRTY. split; [exact (cache_elem_set fs x el _ Hel)|].
      split; [done|]. split; [done|]. split; [by apply bits_all_free|done].
Qed.

(** No free slab. *)
Lemma acquire_nil w : free = [] ->
  exists err, fla_acquire_slab w fs (pe_obj_nlb e) = Some (w, fs, None, err) /\ (err = FLA_ERR_ALL_SLABS_USED \/ err = -1).
Proof using I.
  intros Hfree. pose proof (lo_free _ _ _ _ (ai_lists _ _ _ _ _ I)) as [Eh Et _ _]. rewrite Hfree in Eh, Et.
  cbn [first_id last_id] in Eh, Et. unfold fla_acquire_slab. case_match; [by eexists; split; [|left]|].
  rewrite Eh, Et, edll_remove_head_empty by apply I. bind_step.
  change (negb (-1 =? 0)) with true. cbv iota. exists (-1). split; [|by right]. do 3 f_equal.
  destruct fs as [? ? ? ? ? ? [] ?]. cbn in *. by subst.
Qed.

(** A slab that could not be formatted is lost: in no list, still counted as free. *)
Lemma acquire_lost x l fs' : free = x :: l -> acquired x l fs' (- ENOMEM) -> alloc_inv fs' e n l ls.
Proof using I.
  intros Hfree [St L N O [(_ & Hc & Hnum)|[? _]]]; [|done]. pose proof (ai_num _ _ _ _ _ I) as [Hn1 Hn2].
  destruct (free_stale x) as (h & el & _ & Hel & Hst); [rewrite Hfree; by left|].
  assert (forall l0, x ∉ ls l0) as Hx.
  { intros l0 Hx. eapply (lo_free_apart _ _ _ _ (ai_lists _ _ _ _ _ I)); [exact Hx|]. rewrite Hfree. by left. }
  rewrite Hfree in Hn1. cbn [length] in Hn1.
  eapply (alloc_inv_build fs e n free ls fs' e l ls x I); try done.
  - apply (ai_nobj _ _ _ _ _ I).
  - lia.
  - lia.
  - intros l0 Hl0. by destruct (Hx l0).
  - exists el. rewrite Hc. auto.
Qed.

(** A formatted slab joins the empty slabs of the pool. *)
Lemma acquire_prepend x l fs' : free = x :: l -> acquired x l fs' 0 ->
  exists hs', list_op fla_hdll_prepend fs' x (0, EmptySlabs) =
      Some (put fs' hs' (pe_set_head EmptySlabs x e), 0) /\
    alloc_inv (put fs' hs' (pe_set_head EmptySlabs x e)) (pe_set_head EmptySlabs x e) n l
      (upd EmptySlabs (x :: ls EmptySlabs) ls).
Proof using I.
  intros Hfree [St L N O [[? _]|(_ & Hd & Hnum)]]; [done|]. pose proof (ai_num _ _ _ _ _ I) as [Hn1 Hn2].
  destruct (free_stale x) as (h & el & Hh & _); [rewrite Hfree; by left|].
  pose proof (ai_hdrs _ _ _ _ _ I) as Hok.
  assert (hdrs_ok fs') as Hok' by (destruct Hok as [H1 H2]; split; rewrite ?N, (st_geo _ _ St); done).
  assert (forall l0, x ∉ ls l0) as Hx.
  { intros l0 Hx. eapply (lo_free_apart _ _ _ _ (ai_lists _ _ _ _ _ I)); [exact Hx|]. rewrite Hfree. by left. }
  pose proof (ed_nodup _ _ _ _ (lo_free _ _ _ _ (ai_lists _ _ _ _ _ I))) as Hnd.
  rewrite Hfree in Hnd, Hn1. apply NoDup_cons in Hnd as [Hxl _]. cbn [length] in Hn1.
  destruct (lists_prepend fs' e l ls EmptySlabs x Hok' L) as (hs' & E1 & L1 & M1 & N1);
    [rewrite (st_geo _ _ St); by eapply (in_range fs)|done|done|].
  exists hs'. split; [done|]. set (fs2 := put fs' hs' _) in *.
  destruct Hd as [Hm (fl & st & Hc & Hs & Hw & Hu & Hz)].
  eapply (alloc_inv_build fs e n free ls fs2 _ l _ x I); try done.
  - eapply same_static_trans; [exact St|done].
  - apply (ai_nobj _ _ _ _ _ I).
  - exact (eq_trans N1 N).
  - change (ss_fslab_num (fs_slabs fs2)) with (ss_fslab_num (fs_slabs fs')). lia.
  - change (ss_fslab_num (fs_slabs fs2)) with (ss_fslab_num (fs_slabs fs')). rewrite Hnum.
    unfold owned in *. rewrite upd_eq, !upd_ne by done. cbn [length]. lia.
  - intros y Hy. destruct (O y Hy) as [O1 O2]. split; [exact O1|]. unfold fs2. by rewrite put_headers, M1.
  - intros l0 y Hy. unfold upd. case_decide; [subst|done]. rewrite elem_of_cons. naive_solver.
  - intros l0 Hl0. exists 0. split.
    + split; [unfold fs2; by rewrite put_headers, M1|]. by exists fl, st.
    + unfold upd in Hl0. case_decide; [done|]. by destruct (Hx l0).
  - exists (mk_elem (Some fl) st). split; [exact Hc|]. right. exists EmptySlabs. rewrite upd_eq. by left.
Qed.

(** Nothing is live in a slab whose reference count is 0. *)
Lemma acquired_live x l fs' err : free = x :: l -> acquired x l fs' err ->
  forall o, live fs' n o <-> live fs n o.
Proof using I.
  intros Hfree [St L N O Herr] [y k]. destruct (decide (y = x)) as [->|Hne]; [|by apply live_frame, O].
  destruct Herr as [(_ & Hc & _)|(_ & [_ (fl & st & Hc & Hs & Hw & Hu & _)] & _)]; [by apply live_frame|].
  destruct (free_stale x) as (h & el & _ & Hel & Hst); [rewrite Hfree; by left|].
  unfold live. cbn [o_slab_id o_entry_ndx]. rewrite Hc, Hel. split.
  - intros (fl0 & st0 & [= <- <-] & _ & Hk & Hb). pose proof (used_pos fl n Hw k Hk Hb). lia.
  - intros (fl0 & st0 & [= ->] & Hns & _). done.
Qed.

(** The head of a list of the pool. *)
Lemma list_head_cons l x r : ls l = x :: r ->
  pe_head l e = x /\ (x =? FLA_LINKED_LIST_NULL) = false /\ fla_slab_header_ptr x fs = Some x.
Proof using I.
  intros El. pose proof (lo_lists _ _ _ _ (ai_lists _ _ _ _ _ I) l) as Hl. rewrite El in Hl.
  pose proof (ai_hdrs _ _ _ _ _ I) as Hok. destruct (hdll_lookup _ _ _ x Hl) as [h Hh]; [by left|].
  pose proof (in_range fs Hok x h Hh) as Hr.
  split; [apply Hl|]. pose proof (ho_range _ Hok). split; [lia|]. by apply header_ptr_some.
Qed.
Lemma list_head_nil l : ls l = [] -> pe_head l e = FLA_LINKED_LIST_NULL.
Proof using I.
  intros El. pose proof (lo_lists _ _ _ _ (ai_lists _ _ _ _ _ I) l) as Hl. rewrite El in Hl. apply Hl.
Qed.

(** The outcome of [fla_pool_next_available_slab]: a slab of the pool that is not
    full, or an error that leaves the pool as it was. *)
Lemma next_slab_spec w :
  exists w' fs' slab err, fla_pool_next_available_slab w fs 0 = Some (w', fs', slab, err) /\
    (forall dev lba, block w' dev lba = block w dev lba) /\
    same_static fs fs' /\ (forall o, live fs' n o <-> live fs n o) /\
    ((err = 0 /\ exists x l e' free' ls', slab = Some x /\ x ∈ ls' l /\ l <> FullSlabs /\
        alloc_inv fs' e' n free' ls' /\ pe_obj_nlb e' = pe_obj_nlb e /\ accounted free' ls' = accounted free ls) \/
     (err <> 0 /\ exists free', alloc_inv fs' e n free' ls /\ (accounted free' ls + slabs_lost err)%nat = accounted free ls /\
        ls EmptySlabs = [] /\ ls PartialSlabs = [] /\
        ((free = [] /\ (err = FLA_ERR_ALL_SLABS_USED \/ err = -1)) \/ err = - ENOMEM))).
Proof using All.
  pose proof (ai_lists _ _ _ _ _ I) as L.
  unfold fla_pool_next_available_slab. rewrite (lo_entry _ _ _ _ L). bind_step.
  change (pe_partial_slabs e) with (pe_head PartialSlabs e). change (pe_empty_slabs e) with (pe_head EmptySlabs e).
  destruct (ls PartialSlabs) as [|x r] eqn:Ep.
  2: { destruct (list_head_cons PartialSlabs x r Ep) as (-> & -> & ->). exists w, fs, (Some x), 0.
       do 4 (split; [done|]). left. split; [done|]. exists x, PartialSlabs, e, free, ls.
       rewrite Ep. split; [done|]. split; [by left|]. done. }
  rewrite (list_head_nil _ Ep), Z.eqb_refl.
  destruct (ls EmptySlabs) as [|x r] eqn:Ee.
  2: { destruct (list_head_cons EmptySlabs x r Ee) as (-> & -> & ->). exists w, fs, (Some x), 0.
       do 4 (split; [done|]). left. split; [done|]. exists x, EmptySlabs, e, free, ls.
       rewrite Ee. split; [done|]. split; [by left|]. done. }
  rewrite (list_head_nil _ Ee), Z.eqb_refl.
  assert (free = [] \/ exists x l, free = x :: l) as [Ef|(x & l & Ef)].
  { destruct free; eauto. }
  - destruct (acquire_nil w Ef) as (err & -> & Hcode). bind_step.
    assert (err <> 0) as Herr by (by destruct Hcode as [-> | ->]). rewrite (proj2 (Z.eqb_neq _ _) Herr). cbn [negb]. exists w, fs, None, err. do 4 (split; [done|]).
    right. split; [done|]. exists free. split; [done|]. split; [destruct Hcode as [-> | ->]; change (slabs_lost _) with 0%nat; lia|].
    do 2 (split; [done|]). by left.
  - destruct (acquire_cons w x l Ef) as (w' & fs' & err & -> & Hblk & Haq). bind_step.
    pose proof (acquired_live x l fs' err Ef Haq) as Hlive.
    pose proof (aq_static _ _ _ _ Haq) as Hst.
    destruct (aq_err _ _ _ _ Haq) as [(-> & _)|(-> & _)].
    + change (negb (- ENOMEM =? 0)) with true. cbv iota. do 4 eexists. split; [done|].
      do 3 (split; [done|]). right. split; [done|]. exists l. split; [by eapply acquire_lost|].
      split; [|auto]. change (slabs_lost _) with 1%nat. unfold accounted. rewrite Ef. cbn [length]. lia.
    + no_err.
      destruct (acquire_prepend x l fs' Ef Haq) as (hs' & E1 & I1). rewrite E1. bind_step.
      no_err. do 4 eexists. split; [done|]. split; [done|].
      split; [by eapply same_static_trans; [exact Hst|]|]. split; [exact Hlive|]. left. split; [done|].
      exists x, EmptySlabs. do 3 eexists. split; [done|]. split; [|split; [done|split; [exact I1|split; [done|]]]].
      * rewrite upd_eq. by left.
      * unfold accounted, owned. rewrite Ef, upd_eq, !upd_ne by done. cbn [length]. lia.
Qed.

(** Creation gives an object that did not exist, or fails for lack of slabs or of
    memory and changes no object. *)
Lemma create_spec w pool : p_ndx pool = 0 ->
  exists w' fs' obj err, fla_base_object_create w fs pool = Some (w', fs', obj, err) /\
    (forall dev lba, block w' dev lba = block w dev lba) /\ same_static fs fs' /\
    ((err = 0 /\ exists o e' free' ls', obj = Some o /\ ~ live fs n o /\
        (forall o', live fs' n o' <-> o' = o \/ live fs n o') /\
        alloc_inv fs' e' n free' ls' /\ pe_obj_nlb e' = pe_obj_nlb e /\ accounted free' ls' = accounted free ls) \/
     (err <> 0 /\ obj = None /\ (forall o', live fs' n o' <-> live fs n o') /\
        ls EmptySlabs = [] /\ ls PartialSlabs = [] /\
        ((free = [] /\ (err = FLA_ERR_ALL_SLABS_USED \/ err = -1)) \/ err = - ENOMEM) /\
        exists free', alloc_inv fs' e n free' ls /\ (accounted free' ls + slabs_lost err)%nat = accounted free ls)).
Proof using All.
  intros Hp. unfold fla_base_object_create. rewrite Hp.
  destruct (next_slab_spec w) as (w1 & fs1 & slab & err & -> & Hblk & Hst & Hlive & Hres).
  bind_step. destruct Hres as [(-> & x & l & e1 & free1 & ls1 & -> & Hx & Hl & I1 & Ho & Ac)|Hres].
  - no_err. bind_step.
    destruct (create_in_spec fs1 e1 n free1 ls1 I1 pool Hp w1 l x Hx Hl)
      as (fs2 & r & e2 & ls2 & -> & Hnl & Hl2 & I2 & Hst2 & Ho2 & Ow2).
    do 4 eexists. split; [done|]. split; [done|]. split; [by eapply same_static_trans|]. left.
    split; [done|]. exists (mk_obj x r), e2, free1, ls2. split; [done|]. rewrite <- Hlive. split; [done|].
    split; [|split; [done|split; [congruence|unfold accounted in *; lia]]]. intros o'. by rewrite Hl2, Hlive.
  - destruct Hres as (Herr & free' & I' & Ac & Ee & Ep & Hwhy). rewrite (proj2 (Z.eqb_neq _ _) Herr). cbn [negb].
    do 4 eexists. split; [done|]. split; [done|]. split; [done|]. right. do 6 (split; [done|]). by exists free'.
Qed.
End acquire.

(** ** Where the objects are *)

(** An object of the pool at entry 0, whether it exists or not: a slab and an index
    of an object in it. *)
Record obj_placed (fs : flexalloc) (e : fla_pool_entry) (n : Z) (o : fla_object) : Prop := {
  op_cns : cns_fs fs;
  op_entry : pool_entry_at fs 0 = Some e;
  op_fnc : entry_fnc_at fs 0 = Some fnc_default;
  op_calc : fla_calc_objs_in_slab fs (pe_obj_nlb e) = Some n;
  op_range : 0 < pe_obj_nlb e /\ 0 < n < 2 ^ 31;
  op_slab : 0 <= o_slab_id o < g_nslabs (fs_geo fs);
  op_ndx : 0 <= o_entry_ndx o < n
}.

Lemma live_placed fs e n free ls o : alloc_inv fs e n free ls -> live fs n o -> obj_placed fs e n o.
Proof.
  intros I (fl & st & Hc & Hs & Hk & _). destruct (ai_cached _ _ _ _ _ I _ _ Hc Hs) as [l Hl].
  destruct (owned_facts fs e n free ls I l _ Hl) as (_ & _ & _ & _ & _ & _ & _ & _ & _ & _ & Hid).
  by split; try apply I.
Qed.

Lemma placed_extent fs e n pool o : obj_placed fs e n o -> p_ndx pool = 0 ->
  let base := slabs_base (fs_geo fs) + o_slab_id o * g_slab_nlb (fs_geo fs) in
  fla_object_slba fs o pool = Some (base + pe_obj_nlb e * o_entry_ndx o) /\
  fla_object_elba fs o pool = Some (base + pe_obj_nlb e * (o_entry_ndx o + 1)) /\
  0 <= o_slab_id o < g_nslabs (fs_geo fs) /\ 0 <= o_entry_ndx o < n /\
  exists q, fla_slab_cache_flist_nlb fs n = Some q /\ n * pe_obj_nlb e + q <= g_slab_nlb (fs_geo fs).
Proof.
  intros [C He Hf Hcalc [Ho Hn] Hid Hk] Hp base.
  destruct (calc_objs_spec fs (pe_obj_nlb e) C Ho) as (r & Er & _ & Hfit & _).
  rewrite Hcalc in Er. injection Er as <-.
  destruct Hfit as (q & Hq & Hle); [lia|].
  pose proof (slab_extent_inside _ _ (cf_geo _ C) Hid) as [Hb0 Hb1]. fold base in Hb0, Hb1.
  pose proof (go_nlb _ (cf_geo _ C)) as Hnlb.
  destruct (flist_nlb_spec fs n (cf_geo _ C)) as (q' & Eq & Hqb); [lia|]. rewrite Hq in Eq. injection Eq as <-.
  assert (0 <= q) as Hq0 by apply Hqb.
  assert (pe_obj_nlb e * (o_entry_ndx o + 1) <= n * pe_obj_nlb e) as Hin by nia.
  assert (0 <= pe_obj_nlb e * o_entry_ndx o) as Hp0 by nia.
  unfold fla_object_slba, fla_object_elba. rewrite Hp, He, Hf. bind_step.
  rewrite slab_lb_off_eq by done. fold base. cbn [mbind option_bind get_slab_elba]. unfold get_slab_elba_default.
  rewrite (u32_small (o_entry_ndx o + 1)), !u32_small, !u64_small by (unfold is_u32, is_u64; lia).
  do 4 (split; [done|]). by exists q.
Qed.

(** The freelist of a slab is in its last blocks. *)
Lemma entry_slba_eq fs id n q : cns_fs fs -> s_slab_nlb (fs_super fs) = g_slab_nlb (fs_geo fs) ->
  0 <= id < g_nslabs (fs_geo fs) -> fla_slab_cache_flist_nlb fs n = Some q -> 0 < n < 2 ^ 31 ->
  q <= g_slab_nlb (fs_geo fs) ->
  cache_entry_lb_slba fs id q =
    Some (slabs_base (fs_geo fs) + id * g_slab_nlb (fs_geo fs) + g_slab_nlb (fs_geo fs) - q) /\ 0 <= q.
Proof.
  intros F Hs Hid Hq Hn Hle. pose proof (cf_geo _ F) as G.
  destruct (flist_nlb_spec fs n G) as (q' & Eq & Hqb); [lia|]. rewrite Hq in Eq. injection Eq as <-.
  assert (0 <= q) as Hq0 by apply Hqb. split; [|done].
  pose proof (slab_extent_inside _ id G Hid). pose proof (go_nlb _ G).
  unfold cache_entry_lb_slba. rewrite (cf_md _ F), slab_lb_off_eq by done. bind_step.
  rewrite Hs. f_equal. apply u64_small. unfold is_u64. lia.
Qed.

(** Objects at different places of the slabs do not overlap. *)
Lemma extents_apart b S nlb n i j ki kj : 0 < nlb -> n * nlb <= S -> 0 <= ki < n -> 0 <= kj < n ->
  i <> j \/ ki <> kj ->
  b + i * S + nlb * (ki + 1) <= b + j * S + nlb * kj \/ b + j * S + nlb * (kj + 1) <= b + i * S + nlb * ki.
Proof.
  intros Hn HS Hi Hj Hne. assert (0 <= S) by nia.
  assert (nlb * (ki + 1) <= S /\ nlb * (kj + 1) <= S /\ 0 <= nlb * ki /\ 0 <= nlb * kj) by nia.
  destruct (Z.lt_trichotomy i j) as [Hc|[->|Hc]].
  - left. assert ((i + 1) * S <= j * S) by (apply Z.mul_le_mono_nonneg_r; lia). lia.
  - destruct (Z.lt_trichotomy ki kj) as [Hc|[->|Hc]]; [left; nia|lia|right; nia].
  - right. assert ((j + 1) * S <= i * S) by (apply Z.mul_le_mono_nonneg_r; lia). lia.
Qed.

(** Two live objects do not share a block. *)
Lemma live_extents fs e n free ls pool oi oj : alloc_inv fs e n free ls -> p_ndx pool = 0 -> live fs n oi -> live fs n oj -> oi <> oj ->
  exists si ei sj ej, fla_object_slba fs oi pool = Some si /\ fla_object_elba fs oi pool = Some ei /\
    fla_object_slba fs oj pool = Some sj /\ fla_object_elba fs oj pool = Some ej /\ (ei <= sj \/ ej <= si).
Proof.
  intros I Hp Hi Hj Hne. pose proof (ai_range _ _ _ _ _ I) as [Ho Hn].
  destruct (placed_extent fs e n pool oi (live_placed _ _ _ _ _ _ I Hi) Hp) as (Si & Ei & Ri & Ki & q & Hq & Hfit).
  destruct (placed_extent fs e n pool oj (live_placed _ _ _ _ _ _ I Hj) Hp) as (Sj & Ej & Rj & Kj & _).
  destruct (ai_cns _ _ _ _ _ I) as [G _ _]. destruct (flist_nlb_spec fs n G) as (q' & Eq & Hqb); [lia|]. rewrite Hq in Eq. injection Eq as <-.
  do 4 eexists. do 4 (split; [eassumption|]). assert (0 <= q) by apply Hqb. apply extents_apart with (n := n); try done; [lia|].
  destruct (decide (o_slab_id oi = o_slab_id oj)); [right|by left]. intros Hk. apply Hne. destruct oi, oj. cbn in *. congruence.
Qed.
