(* ===== verification/Printing.v ===== *)
(** * Printing: the listings of a system, [src/src/flexalloc_mm.c] and [flexalloc_pool.c]

    The values the debug printers show, in their order; the text around them and the
    addresses of structures are left out. *)
From S2P Require Import Prelude Util Freelist Hash XnvmeEnv Flexalloc PoolEntry Geometry CommandSet SlabList SlabCache Slab Pool Object Alloc.

(** A line of the listing of the pools. *)
Inductive pool_line :=
  | LineEntry (npool obj_nlb root_obj_hndl : Z) (name : list Z) (slab_nobj : Z)
  | LineHead (head offset : Z)
  | LineSlab (next prev refcount : Z).

Definition slab_line (h : fla_slab_header) : pool_line := LineSlab (sl_next h) (sl_prev h) (sl_refcount h).

(** The loop over a list of slabs, at most [k] of them; the flag says that a header was
    not found, which ends the listing. *)
Fixpoint print_slabs (k : nat) (fs : flexalloc) (tmp : Z) : option (list pool_line * bool) :=
  match k with
  | O => Some ([], false)
  | S k =>
      if tmp =? FLA_LINKED_LIST_NULL then Some ([], false) else
      match fla_slab_header_ptr tmp fs with
      | None => Some ([], true)
      | Some slab =>
          h ← lookupZ (headers fs) slab;
          '(ls, stop) ← print_slabs k fs (sl_next h);
          Some (slab_line h :: ls, stop)
      end
  end.

(** The three lists of an entry; the head is printed as an [int]. *)
Fixpoint print_heads (fs : flexalloc) (heads : list Z) (i : Z) : option (list pool_line * bool) :=
  match heads with
  | [] => Some ([], false)
  | head :: heads =>
      '(ls, stop) ← print_slabs (Z.to_nat (g_nslabs (fs_geo fs))) fs head;
      if (stop : bool) then Some (LineHead (i32 head) i :: ls, true) else
      '(ls', stop) ← print_heads fs heads (i + 1);
      Some (LineHead (i32 head) i :: ls ++ ls', stop)
  end.

(** One entry; one that was not initialised is passed over. *)
Definition print_entry (fs : flexalloc) (npool : Z) : option (list pool_line * bool) :=
  e ← pool_entry_at fs npool;
  if (pe_obj_nlb e =? 0) && (pe_slab_nobj e =? 0) then Some ([], false) else
  k ← strlen (pe_name e);
  '(ls, stop) ← print_heads fs [pe_empty_slabs e; pe_full_slabs e; pe_partial_slabs e] 0;
  Some (LineEntry npool (pe_obj_nlb e) (pe_root_obj_hndl e) (take k (pe_name e)) (pe_slab_nobj e) :: ls, stop).

Fixpoint print_entries (k : nat) (fs : flexalloc) (npool : Z) : option (list pool_line) :=
  match k with
  | O => Some []
  | S k =>
      '(ls, stop) ← print_entry fs npool;
      if (stop : bool) then Some ls else
      ls' ← print_entries k fs (npool + 1);
      Some (ls ++ ls')
  end.

Definition fla_print_pool_entries (fs : flexalloc) : option (list pool_line) :=
  print_entries (Z.to_nat (g_npools (fs_geo fs))) fs 0.

(** The values of the geometry. *)
Definition fla_print_geo (fs : flexalloc) : list Z :=
  let geo := fs_geo fs in
  [g_nlb geo; g_lb_nbytes geo; g_md_nlb geo; g_npools geo; freelist_nlb (g_pool_sgmt geo); htbl_nlb (g_pool_sgmt geo);
   entries_nlb (g_pool_sgmt geo); fla_geo_pool_sgmt_nblocks (g_pool_sgmt geo); g_nslabs geo; slab_sgmt_nlb (g_slab_sgmt geo)].

Definition fla_print_fs (fs : flexalloc) : option (list Z * list pool_line) :=
  ls ← fla_print_pool_entries fs; Some (fla_print_geo fs, ls).

(** The queue of free slabs and the links of the headers [from .. to). *)
Definition print_slab_sgmt (fs : flexalloc) (from to : Z) : option (list Z * list (Z * Z * Z)) :=
  let s := fs_slabs fs in
  let to := if to =? 0 then g_nslabs (fs_geo fs) else to in
  ls ← mapM (fun i => h ← lookupZ (headers fs) i; Some (i, sl_next h, sl_prev h)) (seqZ from (to - from));
  Some ([ss_fslab_num s; ss_fslab_head s; ss_fslab_tail s], ls).

(** ** Listings are complete *)

(** What is printed of the slabs [l]. *)
Definition slab_lines (fs : flexalloc) (l : list Z) : list pool_line := omap (fun x => slab_line <$> lookupZ (headers fs) x) l.

Lemma print_slabs_list fs k l : hdrs_ok fs -> forall p, lseg (headers fs) p l FLA_LINKED_LIST_NULL -> (length l <= k)%nat ->
  print_slabs k fs (first_id FLA_LINKED_LIST_NULL l) = Some (slab_lines fs l, false).
Proof.
  intros Hh. revert k. induction l as [|x l IH]; intros k p Hl Hk; [by destruct k|]. destruct k as [|k]; [cbn in Hk; lia|].
  cbn [lseg] in Hl. destruct Hl as (h & Hx & _ & Hn & Hl). cbn [print_slabs first_id].
  pose proof (lookupZ_Some _ _ _ Hx) as Hr. rewrite (ho_len _ Hh) in Hr. pose proof (ho_range _ Hh) as [_ Hmax].
  rewrite (proj2 (Z.eqb_neq x _)), header_ptr_some, Hx by (done || lia). bind_step.
  rewrite Hn, (IH k x Hl) by (cbn in Hk; lia). bind_step. unfold slab_lines. cbn [omap list_omap]. by rewrite Hx.
Qed.

Lemma ids_bounded fs l : hdrs_ok fs -> NoDup l -> (forall x, x ∈ l -> is_Some (lookupZ (headers fs) x)) ->
  (length l <= Z.to_nat (g_nslabs (fs_geo fs)))%nat.
Proof.
  intros Hh Hnd Hin. rewrite <- (length_seqZ 0 (g_nslabs (fs_geo fs))). apply submseteq_length, NoDup_submseteq; [done|].
  intros x Hx. apply elem_of_seqZ. destruct (Hin x Hx) as [h Hl]. apply lookupZ_Some in Hl. rewrite (ho_len _ Hh) in Hl. lia.
Qed.

Lemma print_slabs_hdll fs head l : hdrs_ok fs -> hdll (headers fs) head l ->
  print_slabs (Z.to_nat (g_nslabs (fs_geo fs))) fs head = Some (slab_lines fs l, false).
Proof.
  intros Hh [-> Hl Hnd]. eapply print_slabs_list; [done|exact Hl|]. apply ids_bounded; [done|done|].
  intros x Hx. destruct (lseg_lookup _ _ _ _ _ Hl Hx) as [h ->]. done.
Qed.

(** The printer is in no danger from damaged lists: it shows at most one line per slab
    of the system and list, and ends. *)
Lemma print_slabs_total fs k tmp : hdrs_ok fs -> is_u32 tmp -> Forall (fun h => is_u32 (sl_next h)) (headers fs) ->
  exists ls stop, print_slabs k fs tmp = Some (ls, stop) /\ (length ls <= k)%nat.
Proof.
  intros Hh Ht Hnext. revert tmp Ht. induction k as [|k IH]; intros tmp Ht; [by exists [], false|]. cbn [print_slabs].
  destruct (tmp =? FLA_LINKED_LIST_NULL); [exists [], false; split; [done|cbn; lia]|].
  destruct (Z.lt_ge_cases tmp (g_nslabs (fs_geo fs))) as [Hlt|Hge].
  2: { rewrite header_ptr_none by done. exists [], true. split; [done|cbn; lia]. }
  unfold is_u32 in Ht. rewrite header_ptr_some by (done || lia).
  destruct (lookupZ_is_Some (headers fs) tmp) as [h Hl]; [rewrite (ho_len _ Hh); lia|]. rewrite Hl. bind_step.
  assert (is_u32 (sl_next h)) as Hn.
  { unfold lookupZ in Hl. destruct (tmp <? 0); [done|]. by apply (Forall_lookup_1 _ _ _ _ Hnext Hl). }
  destruct (IH _ Hn) as (ls & stop & -> & Hlen). bind_step. do 2 eexists. split; [done|]. cbn. lia.
Qed.

(** The listing of the pool at entry 0 of a system in order: its values, then its empty,
    full and partial slabs, each list with every slab in order. *)
Theorem print_entry_lists fs e n free ls k : alloc_inv fs e n free ls -> strlen (pe_name e) = Some k ->
  print_entry fs 0 = Some (LineEntry 0 (pe_obj_nlb e) (pe_root_obj_hndl e) (take k (pe_name e)) (pe_slab_nobj e) ::
    LineHead (i32 (pe_empty_slabs e)) 0 :: slab_lines fs (ls EmptySlabs) ++
    LineHead (i32 (pe_full_slabs e)) 1 :: slab_lines fs (ls FullSlabs) ++
    LineHead (i32 (pe_partial_slabs e)) 2 :: slab_lines fs (ls PartialSlabs), false).
Proof.
  intros I Hk. pose proof (ai_lists _ _ _ _ _ I) as L. pose proof (ai_hdrs _ _ _ _ _ I) as Hh. pose proof (ai_range _ _ _ _ _ I) as [Ho _].
  unfold print_entry. rewrite (lo_entry _ _ _ _ L). bind_step. rewrite (proj2 (Z.eqb_neq (pe_obj_nlb e) 0)) by lia. cbn [andb].
  rewrite Hk. bind_step. cbn [print_heads]. change (pe_empty_slabs e) with (pe_head EmptySlabs e).
  change (pe_full_slabs e) with (pe_head FullSlabs e). change (pe_partial_slabs e) with (pe_head PartialSlabs e).
  rewrite (print_slabs_hdll fs _ _ Hh (lo_lists _ _ _ _ L EmptySlabs)). bind_step.
  rewrite (print_slabs_hdll fs _ _ Hh (lo_lists _ _ _ _ L FullSlabs)). bind_step.
  rewrite (print_slabs_hdll fs _ _ Hh (lo_lists _ _ _ _ L PartialSlabs)). bind_step. by rewrite app_nil_r.
Qed.
