(* ===== verification/ObjectIO.v ===== *)
(** * ObjectIO: reading and writing objects, [src/src/flexalloc_mm.c]

    A transfer is checked against the end of the object and then done on the
    device; an unaligned write goes through a bounce buffer that is first filled
    with the blocks at its two ends.

    Before a command is sent the installed data placement prepares its context
    ([fs->fla_dp.fncs.prep_dp_ctx]): [FlaDp] is that function pointer and
    [FlaDpLaws] what the transfers rely on, that preparing writes no block. *)
From S2P Require Import Prelude Util Freelist Hash XnvmeEnv Flexalloc PoolEntry Geometry CommandSet.
From S2P Require Import SlabList SlabCache Slab Pool Object Alloc.

(** ** Data placement *)

Class FlaDp (W : Type) := prep_dp_ctx : fla_pool -> fla_object -> W -> W * Z.

Class FlaDpLaws (W : Type) `{FlaDp W} (block : W -> xnvme_dev -> Z -> list Z) :=
  prep_frame : forall pool obj w w' err, prep_dp_ctx pool obj w = (w', err) ->
    forall dev lba, block w' dev lba = block w dev lba.

(** The placement of a device without the feature. *)
Definition fla_dp_noop_prep_ctx {W} (pool : fla_pool) (obj : fla_object) (w : W) : W * Z := (w, 0).

(** ** Definitions *)

(** [pool_entry->flags && FLA_POOL_ENTRY_STRP]: a logical conjunction with the
    enumerator 0. *)
Definition io_striped (e : fla_pool_entry) : bool :=
  negb (pe_flags e =? 0) && negb (FLA_POOL_ENTRY_STRP =? 0).

Section io.
Context {W : Type} `{XnvmeEnv W} `{FlaDp W}.

(** The two range checks that [fla_object_read] and [fla_object_write] share: the
    byte the transfer starts at, or the error. *)
Definition object_io_check (fs : flexalloc) (pool : fla_pool) (obj : fla_object) (offset nbytes : Z) :
    option (Z + Z) :=
  obj_eoffset ← fla_object_eoffset fs obj pool;
  obj_soffset ← fla_object_soffset fs obj pool;
  let soffset := u64 (obj_soffset + offset) in
  let eoffset := u64 (soffset + nbytes) in
  off ← fla_geo_slab_lb_off fs (o_slab_id obj);
  let slab_eoffset := u64 (u64 (off + g_slab_nlb (fs_geo fs)) * g_lb_nbytes (fs_geo fs)) in
  Some (if slab_eoffset <? obj_eoffset then inr 1
        else if obj_eoffset <? eoffset then inr 1 else inl soffset).

(** The striped transfer is not reached ([io_striped_never]). *)
Definition fla_object_read (w : W) (fs : flexalloc) (pool : fla_pool) (obj : fla_object) (buf : list Z)
    (r_offset r_len : Z) : option (W * Z * list Z) :=
  e ← pool_entry_at fs (p_ndx pool);
  c ← object_io_check fs pool obj r_offset r_len;
  match c with
  | inr err => Some (w, err, buf)
  | inl r_soffset =>
      if io_striped e then None else
      let range := fla_xne_lba_range_from_offset_nbytes (d_dev (fs_dev fs)) r_soffset r_len in
      if negb (r_is_valid range) then Some (w, 1, buf)
      else fla_xne_sync_seq_r_xneio w range (d_dev (fs_dev fs)) buf
  end.

Definition fla_object_write (w : W) (fs : flexalloc) (pool : fla_pool) (obj : fla_object) (buf : list Z)
    (w_offset w_len : Z) : option (W * Z) :=
  e ← pool_entry_at fs (p_ndx pool);
  c ← object_io_check fs pool obj w_offset w_len;
  match c with
  | inr err => Some (w, err)
  | inl w_soffset =>
      if io_striped e then None else
      let range := fla_xne_lba_range_from_offset_nbytes (d_dev (fs_dev fs)) w_soffset w_len in
      if negb (r_is_valid range) then Some (w, 1)
      else fla_xne_sync_seq_w_xneio (Some (prep_dp_ctx pool obj)) w range (d_dev (fs_dev fs)) buf
  end.

(** One block at byte [offset] of the device into the buffer at [at_]. *)
Definition bounce_read (w : W) (fs : flexalloc) (offset at_ : Z) (bounce : list Z) :
    option (W * Z * list Z) :=
  let range := fla_xne_lba_range_from_offset_nbytes (d_dev (fs_dev fs)) offset (d_lb_nbytes (fs_dev fs)) in
  if negb (r_is_valid range) then Some (w, 1, bounce)
  else
    '(w, err, data) ← fla_xne_sync_seq_r_xneio w range (d_dev (fs_dev fs)) (drop (Z.to_nat at_) bounce);
    Some (w, err, take (Z.to_nat at_) bounce ++ data).

(** [memcpy] of [len] bytes to offset [at_] of the buffer. *)
Definition buf_copy (bounce : list Z) (at_ : Z) (src : list Z) (len : Z) : option (list Z) :=
  if (len <? 0) || (Z.of_nat (length src) <? len) || (Z.of_nat (length bounce) <? at_ + len) then None
  else Some (take (Z.to_nat at_) bounce ++ take (Z.to_nat len) src ++ drop (Z.to_nat (at_ + len)) bounce).

Definition fla_object_unaligned_write (w : W) (fs : flexalloc) (pool : fla_pool) (obj : fla_object)
    (w_buf : list Z) (obj_offset len : Z) : option (W * Z) :=
  slba ← fla_object_slba fs obj pool;
  let lb := d_lb_nbytes (fs_dev fs) in
  let orig_sb := u64 (u64 (slba * lb) + obj_offset) in
  let orig_eb := u64 (orig_sb + len) in
  ceil ← FLA_CEIL_DIV orig_eb lb;
  let aligned_sb := u64 (orig_sb / lb * lb) in
  let aligned_eb := u64 (ceil * lb) in
  let bounce_buf_size := u64 (aligned_eb - aligned_sb) in
  let '(w, bounce_buf) := fla_xne_alloc_buf w (d_dev (fs_dev fs)) bounce_buf_size in
  match bounce_buf with
  | None => Some (w, - ENOENT)
  | Some bounce_buf =>
      '(w, err, bounce_buf) ←
        (if aligned_sb <? orig_sb then bounce_read w fs aligned_sb 0 bounce_buf else Some (w, 0, bounce_buf));
      if negb (err =? 0) then Some (w, err) else
      '(w, err, bounce_buf) ←
        (if orig_eb <? aligned_eb then bounce_read w fs (u64 (aligned_eb - lb)) (bounce_buf_size - lb) bounce_buf
         else Some (w, 0, bounce_buf));
      if negb (err =? 0) then Some (w, err) else
      bounce_buf ← buf_copy bounce_buf (orig_sb - aligned_sb) w_buf len;
      let range := fla_xne_lba_range_from_offset_nbytes (d_dev (fs_dev fs)) aligned_sb bounce_buf_size in
      if negb (r_is_valid range) then Some (w, 1)
      else fla_xne_sync_seq_w_xneio (Some (prep_dp_ctx pool obj)) w range (d_dev (fs_dev fs)) bounce_buf
  end.
End io.

Lemma io_striped_never e : io_striped e = false.
Proof. unfold io_striped. by rewrite andb_false_r. Qed.

#[global] Instance noop_dp_laws {W} (block : W -> xnvme_dev -> Z -> list Z) :
  @FlaDpLaws W fla_dp_noop_prep_ctx block.
Proof. intros pool obj w w' err [= <- _]. done. Qed.

(** ** Byte ranges *)

(** [l] with [x] from position [i] on. *)
Definition splice {A} (l : list A) (i : nat) (x : list A) : list A := take i l ++ x ++ drop (i + length x) l.

(** Splicing into a part of the list. *)
Lemma splice_part {A} (l : list A) i m d x : (i + m <= length l)%nat -> (d + length x <= m)%nat ->
  splice l i (splice (take m (drop i l)) d x) = splice l (i + d) x.
Proof.
  intros Hi Hd. unfold splice. rewrite take_take, (Nat.min_l d m) by lia.
  rewrite !length_app, !length_take, !length_drop, length_take, length_drop.
  rewrite !Nat.min_l by lia. rewrite <- (take_take_drop l i d), <- !app_assoc. f_equal. f_equal. f_equal.
  replace (drop (i + (d + (length x + (m - (d + length x))))) l) with (drop m (drop i l))
    by (rewrite drop_drop; f_equal; lia).
  rewrite drop_take_drop by lia. rewrite drop_drop. f_equal. lia.
Qed.

(** The two ends of a bounce buffer [b] for the bytes [D]: the first [d] bytes and
    those from [p] on are right once the blocks there were read. *)
Lemma splice_head_take {A} (b D : list A) d h : length b = length D -> (d <= h <= length D)%nat ->
  length (splice b 0 (take h D)) = length D /\ take d (splice b 0 (take h D)) = take d D.
Proof.
  intros Hl Hd. unfold splice. rewrite take_0. cbn [app].
  split; [rewrite length_app, length_drop, length_take; lia|].
  rewrite take_app_le by (rewrite length_take; lia). rewrite take_take. f_equal. lia.
Qed.

Lemma splice_tail_drop {A} (b D : list A) d p t : length b = length D -> take d b = take d D -> (t <= p)%nat -> (t <= length D)%nat ->
  length (splice b t (drop t D)) = length D /\ take d (splice b t (drop t D)) = take d D /\
  drop p (splice b t (drop t D)) = drop p D.
Proof.
  intros Hl Hd Ht HtD. unfold splice. rewrite length_drop, (drop_ge b) by lia. rewrite app_nil_r.
  rewrite length_app, length_take, length_drop. split; [lia|]. split.
  - destruct (decide (d <= t)%nat) as [Hdt|Hdt].
    + rewrite take_app_le by (rewrite length_take; lia). rewrite take_take. by rewrite Nat.min_l by lia.
    + assert (take t b = take t D) as ->; [|by rewrite take_drop].
      rewrite <- (Nat.min_l t d), <- !take_take, Hd by lia. done.
  - rewrite drop_app_ge by (rewrite length_take; lia). rewrite length_take, drop_drop. f_equal. lia.
Qed.

Lemma buf_copy_spec b D d src len : length b = length D -> 0 <= d -> 0 <= len -> len <= Z.of_nat (length src) ->
  d + len <= Z.of_nat (length D) -> take (Z.to_nat d) b = take (Z.to_nat d) D ->
  drop (Z.to_nat (d + len)) b = drop (Z.to_nat (d + len)) D ->
  buf_copy b d src len = Some (splice D (Z.to_nat d) (take (Z.to_nat len) src)).
Proof.
  intros Hl Hd Hn Hs Hfit Ht Hr. unfold buf_copy.
  rewrite (proj2 (Z.ltb_ge len 0)), (proj2 (Z.ltb_ge (Z.of_nat (length src)) len)),
    (proj2 (Z.ltb_ge (Z.of_nat (length b)) (d + len))) by lia. cbn [orb].
  unfold splice. rewrite Ht, Hr, length_take. do 4 f_equal. lia.
Qed.

(** Blocks [a .. a + k) of [b] of them. *)
Lemma blocks_part blk s lb (a k b : nat) : (forall lba, length (blk lba) = lb) -> (a + k <= b)%nat ->
  concat_blocks blk (s + Z.of_nat a) k = take (k * lb) (drop (a * lb) (concat_blocks blk s b)).
Proof.
  intros Hb Hle. assert (forall t m, length (concat_blocks blk t m) = (m * lb)%nat) as Hlen.
  { intros t m. apply Nat2Z.inj. rewrite Nat2Z.inj_mul. apply concat_blocks_length; [lia|]. intros. by rewrite Hb. }
  replace b with (a + (k + (b - a - k)))%nat by lia. rewrite !concat_blocks_app.
  rewrite drop_app_length' by (symmetry; apply Hlen). by rewrite take_app_length' by (symmetry; apply Hlen).
Qed.

(** Changing blocks [a .. a + k). *)
Lemma blocks_splice blk blk' s lb (a k b : nat) x : (forall lba, length (blk lba) = lb) -> (a + k <= b)%nat ->
  length x = (k * lb)%nat -> concat_blocks blk' (s + Z.of_nat a) k = x ->
  (forall lba, lba < s + Z.of_nat a \/ s + Z.of_nat (a + k) <= lba -> blk' lba = blk lba) ->
  concat_blocks blk' s b = splice (concat_blocks blk s b) (a * lb) x.
Proof.
  intros Hb Hle Hx Hk Hout. assert (forall t m, length (concat_blocks blk t m) = (m * lb)%nat) as Hlen.
  { intros t m. apply Nat2Z.inj. rewrite Nat2Z.inj_mul. apply concat_blocks_length; [lia|]. intros. by rewrite Hb. }
  unfold splice. rewrite Hx, <- Nat.mul_add_distr_r.
  replace b with (a + (k + (b - a - k)))%nat by lia. rewrite !concat_blocks_app.
  rewrite take_app_length' by (symmetry; apply Hlen). rewrite (app_assoc (concat_blocks blk s a) (concat_blocks blk _ k)).
  rewrite (drop_app_length' (concat_blocks blk s a ++ _)) by (rewrite length_app, !Hlen; lia).
  rewrite Hk. f_equal; [apply concat_blocks_ext; intros; apply Hout; lia|]. f_equal.
  apply concat_blocks_ext. intros. apply Hout. lia.
Qed.

(** ** Transfers of a range of blocks *)

(** [ext] blocks from block [s] on that are inside the device, and their bytes. *)
Record in_device (fs : flexalloc) (s ext : Z) : Prop := {
  sp_dev : dev_ok (d_dev (fs_dev fs));
  sp_lb : 512 <= g_lb_nbytes (fs_geo fs) < 2 ^ 32;
  sp_lba : dev_lba (d_dev (fs_dev fs)) = g_lb_nbytes (fs_geo fs);
  sp_some : 0 < ext;
  sp_range : 0 <= s /\ s + ext < 2 ^ 31;
  sp_end : (s + ext) * g_lb_nbytes (fs_geo fs) <= geo_tbytes (xnvme_dev_get_geo (d_dev (fs_dev fs)))
}.
Definition span_bytes {W} (block : W -> xnvme_dev -> Z -> list Z) (fs : flexalloc) (s ext : Z) (w : W) : list Z :=
  concat_blocks (block w (d_dev (fs_dev fs))) s (Z.to_nat ext).

Section span_io.
Context {W : Type} `{E : XnvmeEnv W} (block : W -> xnvme_dev -> Z -> list Z) `{!XnvmeLaws W block}.
Context `{Dp : FlaDp W} `{!FlaDpLaws W block}.
Context (fs : flexalloc) (s ext : Z) (SP : in_device fs s ext) (pool : fla_pool) (o : fla_object).
Context (Hlb : d_lb_nbytes (fs_dev fs) = g_lb_nbytes (fs_geo fs)).

Let dev := d_dev (fs_dev fs).
Let lb := g_lb_nbytes (fs_geo fs).
Local Notation bytes_of := (span_bytes block fs s ext).

Lemma span_facts : 512 <= lb < 2 ^ 32 /\ dev_lba dev = lb /\ 0 < ext /\ 0 <= s /\ s + ext < 2 ^ 31 /\
  (s + ext) * lb <= geo_tbytes (xnvme_dev_get_geo dev).
Proof using SP. destruct SP as [? ? ? ? [? ?] ?]. done. Qed.

(** The block range of a transfer, when xnvme accepts it: [a] blocks into the
    span, [k] blocks long. *)
Lemma span_range off len : 0 <= off -> 0 < len -> off + len <= ext * lb ->
  let r := xnvme_lba_range_from_offset_nbytes dev (s * lb + off) len in
  (r_is_valid r = false /\ (off mod lb <> 0 \/ len mod lb <> 0)) \/
  exists a k, r = range_of (s + a) k dev /\ off = a * lb /\ len = k * lb /\ 0 <= a /\ 0 < k /\ a + k <= ext.
Proof using All.
  intros Ho Hn Hin r. destruct span_facts as (Hl1 & El & Hn1 & Hs0 & Hs1 & Ht).
  assert ((s * lb + off) mod lb = off mod lb) as Em by (rewrite Z.add_comm; apply Z.mod_add; lia).
  destruct (r_is_valid r) eqn:Ev; [right|left].
  - destruct (range_offset dev (s * lb + off) len Ev) as (M1 & M2 & _ & Er); [lia|nia|lia|].
    rewrite El in M1, M2, Er. rewrite Em in M1.
    pose proof (Z.div_mod off lb ltac:(lia)) as D1. pose proof (Z.div_mod len lb ltac:(lia)) as D2.
    rewrite M1, Z.add_0_r in D1. rewrite M2, Z.add_0_r in D2.
    assert (0 <= off / lb) by (apply Z.div_pos; lia). exists (off / lb), (len / lb). split; [|nia].
    unfold r. rewrite Er. rewrite Z.add_comm, Z.div_add by lia. unfold range_of. rewrite El.
    f_equal; [lia..|]. lia.
  - split; [done|]. destruct (decide (off mod lb = 0)) as [M1|]; [|by left]. right. intros M2.
    unfold r in Ev. rewrite (range_offset_valid dev) in Ev; [done|..]; rewrite ?El, ?Em; try done; nia.
Qed.

Lemma span_block_len w d lba : dev_lba d = lb -> length (block w d lba) = Z.to_nat lb.
Proof using All.
  intros Hd. destruct span_facts as (Hb & _). pose proof (block_length w d lba ltac:(lia)). lia.
Qed.

(** Writing blocks [a .. a + k) of the span. *)
Lemma span_write w buf a k : 0 <= a -> 0 < k -> a + k <= ext -> k * lb <= Z.of_nat (length buf) ->
  exists w' err, fla_xne_sync_seq_w_xneio (Some (prep_dp_ctx pool o)) w (range_of (s + a) k dev) dev buf =
      Some (w', err) /\
    (forall dev' lba, dev_id dev' <> dev_id dev \/ lba < s \/ s + ext <= lba ->
      block w' dev' lba = block w dev' lba) /\
    (err = 0 -> bytes_of w' = splice (bytes_of w) (Z.to_nat (a * lb)) (take (Z.to_nat (k * lb)) buf)).
Proof using All.
  intros Ha Hk Hle Hbuf. destruct span_facts as (Hl1 & El & Hn1 & Hs0 & Hs1 & _).
  unfold fla_xne_sync_seq_w_xneio. destruct (prep_dp_ctx pool o w) as [w1 err1] eqn:Ep.
  pose proof (prep_frame _ _ _ _ _ Ep) as Hfr. destruct (Z.eqb_spec err1 0) as [->|Hne].
  2: { exists w1, err1. split; [done|]. split; [done|]. done. }
  destruct (sync_seq_w_spec block w1 dev (s + a) k buf) as (w' & err & -> & Hok & Hout); [apply (sp_dev _ _ _ SP)|lia..|rewrite El; lia|].
  exists w', err. split; [done|]. split; [intros dev' lba Hx; rewrite Hout by lia; apply Hfr|]. intros E0.
  unfold span_bytes. replace (Z.to_nat (a * lb)) with (Z.to_nat a * Z.to_nat lb)%nat by lia.
  rewrite El in Hok. apply (blocks_splice _ _ s (Z.to_nat lb) (Z.to_nat a) (Z.to_nat k)).
  - intros. by apply span_block_len.
  - lia.
  - rewrite length_take. lia.
  - rewrite Z2Nat.id by lia. by apply Hok.
  - intros lba Hx. rewrite Hout by lia. apply Hfr.
Qed.

(** Reading them. *)
Lemma span_read w buf a k : 0 <= a -> 0 < k -> a + k <= ext -> k * lb <= Z.of_nat (length buf) ->
  exists w' err data, fla_xne_sync_seq_r_xneio w (range_of (s + a) k dev) dev buf = Some (w', err, data) /\
    (forall dev' lba, block w' dev' lba = block w dev' lba) /\
    (err = 0 -> data = take (Z.to_nat (k * lb)) (drop (Z.to_nat (a * lb)) (bytes_of w)) ++
                       drop (Z.to_nat (k * lb)) buf).
Proof using All.
  intros Ha Hk Hle Hbuf. destruct span_facts as (Hl1 & El & Hn1 & Hs0 & Hs1 & _).
  destruct (sync_seq_r_spec block w dev (s + a) k buf) as (w' & err & data & Er & Hok & Hout);
    [apply (sp_dev _ _ _ SP)|lia..|rewrite El; lia|].
  exists w', err, data. split; [exact Er|]. split; [done|]. intros E0. rewrite (Hok E0), El. f_equal.
  unfold span_bytes. replace (s + a) with (s + Z.of_nat (Z.to_nat a)) by lia.
  rewrite (blocks_part _ _ (Z.to_nat lb) _ _ (Z.to_nat ext)); [|by intros; apply span_block_len|lia].
  f_equal; [lia|]. f_equal. lia.
Qed.

(** Filling one block of the bounce buffer, [at_] blocks into it, with block [a] of
    the span. *)
Lemma bounce_read_spec w a at_ bounce : 0 <= a < ext -> 0 <= at_ -> (at_ + 1) * lb <= Z.of_nat (length bounce) ->
  exists w' err b', bounce_read w fs ((s + a) * lb) (at_ * lb) bounce = Some (w', err, b') /\
    (forall dev' lba, block w' dev' lba = block w dev' lba) /\
    (err = 0 -> b' = splice bounce (Z.to_nat (at_ * lb)) (take (Z.to_nat lb) (drop (Z.to_nat (a * lb)) (bytes_of w)))).
Proof using All.
  intros Ha Hat Hlen. destruct span_facts as (Hl1 & El & Hn1 & Hs0 & Hs1 & _).
  unfold bounce_read, fla_xne_lba_range_from_offset_nbytes. fold dev. rewrite Hlb. fold lb.
  replace ((s + a) * lb) with (s * lb + a * lb) by lia.
  destruct (span_range (a * lb) lb) as [[_ Hal]|(a' & k & -> & Ea & Ek & _)]; [nia|lia|nia|..].
  { exfalso. rewrite Z.mod_mul, Z.mod_same in Hal by lia. lia. }
  assert (a' = a /\ k = 1) as [-> ->] by nia. cbn [r_is_valid range_of negb].
  destruct (span_read w (drop (Z.to_nat (at_ * lb)) bounce) a 1) as (w' & err & data & Er & Hfr & Hok);
    [lia..|rewrite length_drop; lia|].
  rewrite Er. bind_step. do 3 eexists. split; [done|]. split; [done|]. intros E0.
  rewrite (Hok E0), Z.mul_1_l. unfold splice. do 2 f_equal. rewrite drop_drop. f_equal.
  rewrite length_take, length_drop. enough (Z.to_nat lb + Z.to_nat (a * lb) <= length (bytes_of w))%nat by lia.
  assert (length (bytes_of w) = (Z.to_nat ext * Z.to_nat lb)%nat) as ->; [|nia].
  apply Nat2Z.inj. rewrite Nat2Z.inj_mul. apply concat_blocks_length; [lia|]. intros. by rewrite span_block_len.
Qed.

Lemma span_length w : length (bytes_of w) = (Z.to_nat ext * Z.to_nat lb)%nat.
Proof using All.
  destruct span_facts as (Hl1 & El & _).
  apply Nat2Z.inj. rewrite Nat2Z.inj_mul. apply concat_blocks_length; [lia|]. intros. by rewrite span_block_len.
Qed.

Lemma span_frame w w' : (forall dev' lba, block w' dev' lba = block w dev' lba) -> bytes_of w' = bytes_of w.
Proof using. intros Hf. apply concat_blocks_ext. intros. apply Hf. Qed.

(** Both ends of a bounce buffer for blocks [a .. a + k), of which bytes [d] to
    [p] will be overwritten. *)
Lemma bounce_fill w a k d p bounce : 0 <= a -> 0 < k -> a + k <= ext -> 0 <= d < lb -> (k - 1) * lb < p <= k * lb ->
  Z.of_nat (length bounce) = k * lb ->
  let D := take (Z.to_nat (k * lb)) (drop (Z.to_nat (a * lb)) (bytes_of w)) in
  exists w1 err1 b1,
    (if 0 <? d then bounce_read w fs ((s + a) * lb) (0 * lb) bounce else Some (w, 0, bounce)) = Some (w1, err1, b1) /\
    (forall dev' lba, block w1 dev' lba = block w dev' lba) /\
    (err1 = 0 -> exists w2 err2 b2,
       (if p <? k * lb then bounce_read w1 fs ((s + (a + k - 1)) * lb) ((k - 1) * lb) b1
        else Some (w1, 0, b1)) = Some (w2, err2, b2) /\
       (forall dev' lba, block w2 dev' lba = block w dev' lba) /\
       (err2 = 0 -> length b2 = length D /\ take (Z.to_nat d) b2 = take (Z.to_nat d) D /\
          drop (Z.to_nat p) b2 = drop (Z.to_nat p) D)).
Proof using All.
  intros Ha Hk Hak Hd Hp' Hb D. destruct span_facts as (Hl1 & _).
  assert (length D = Z.to_nat (k * lb)) as HD.
  { unfold D. rewrite length_take, length_drop, span_length. nia. }
  assert (exists w1 err1 b1,
    (if 0 <? d then bounce_read w fs ((s + a) * lb) (0 * lb) bounce else Some (w, 0, bounce)) = Some (w1, err1, b1) /\
    (forall dev' lba, block w1 dev' lba = block w dev' lba) /\
    (err1 = 0 -> length b1 = length D /\ take (Z.to_nat d) b1 = take (Z.to_nat d) D)) as (w1 & err1 & b1 & E1 & F1 & H1).
  { destruct (Z.ltb_spec 0 d).
    - destruct (bounce_read_spec w a 0 bounce) as (w1 & err1 & b1 & E1 & F1 & H1); [lia|lia|nia|].
      exists w1, err1, b1. split; [done|]. split; [done|]. intros E0. rewrite (H1 E0).
      replace (take (Z.to_nat lb) (drop (Z.to_nat (a * lb)) (bytes_of w))) with (take (Z.to_nat lb) D)
        by (unfold D; rewrite take_take; f_equal; nia).
      change (Z.to_nat (0 * lb)) with 0%nat. apply splice_head_take; nia.
    - exists w, 0, bounce. split; [done|]. split; [done|]. intros _. split; [lia|].
      replace (Z.to_nat d) with 0%nat by lia. done. }
  exists w1, err1, b1. split; [done|]. split; [done|]. intros E0. destruct (H1 E0) as [Hl1' Ht1].
  destruct (Z.ltb_spec p (k * lb)) as [Hlt|Hge].
  - destruct (bounce_read_spec w1 (a + k - 1) (k - 1) b1) as (w2 & err2 & b2 & E2 & F2 & H2); [lia|lia|nia|].
    exists w2, err2, b2. split; [done|]. split; [intros; by rewrite F2|]. intros E0'. rewrite (H2 E0').
    rewrite (span_frame w w1 F1).
    replace (take (Z.to_nat lb) (drop (Z.to_nat ((a + k - 1) * lb)) (bytes_of w)))
      with (drop (Z.to_nat ((k - 1) * lb)) D); [apply splice_tail_drop; nia || done|].
    unfold D. rewrite skipn_firstn_comm, drop_drop. f_equal; [nia|]. f_equal. nia.
  - exists w1, 0, b1. split; [done|]. split; [done|]. intros _. split; [done|]. split; [done|].
    rewrite !drop_ge by nia. done.
Qed.

(** The blocks an unaligned transfer touches. *)
Lemma unaligned_blocks off len : 0 <= off -> 0 < len -> off + len <= ext * lb ->
  exists a k d, 0 <= a /\ 0 < k /\ a + k <= ext /\ 0 <= d < lb /\ off = a * lb + d /\
    (k - 1) * lb < d + len <= k * lb /\ (s * lb + off) / lb = s + a /\
    FLA_CEIL_DIV (s * lb + off + len) lb = Some (s + a + k).
Proof using All.
  intros Ho Hn Hin. destruct span_facts as (Hl1 & El & Hn1 & Hs0 & Hs1 & _).
  pose proof (Z.div_mod off lb ltac:(lia)) as Dm. pose proof (Z.mod_pos_bound off lb ltac:(lia)) as Db.
  assert (0 <= s * lb /\ (s + ext) * lb < 2 ^ 63) as [Hs2 Hs3] by nia.
  destruct (ceil_div_some (s * lb + off + len) lb) as (q & Eq & Hq); [lia|lia|lia|].
  assert (0 <= off / lb) by (apply Z.div_pos; lia).
  exists (off / lb), (q - s - off / lb), (off mod lb).
  split; [done|]. split; [nia|]. split; [nia|]. split; [done|]. split; [lia|]. split; [nia|].
  split; [rewrite Z.add_comm, Z.div_add by lia; lia|]. rewrite Eq. f_equal. lia.
Qed.

(** Copying into the bounce buffer and writing it back. *)
Lemma write_back w w0 a k d len b2 buf : 0 <= a -> 0 < k -> a + k <= ext -> 0 <= d -> 0 < len -> d + len <= k * lb ->
  len <= Z.of_nat (length buf) -> (forall dev' lba, block w dev' lba = block w0 dev' lba) ->
  let D := take (Z.to_nat (k * lb)) (drop (Z.to_nat (a * lb)) (bytes_of w0)) in
  length b2 = length D -> take (Z.to_nat d) b2 = take (Z.to_nat d) D ->
  drop (Z.to_nat (d + len)) b2 = drop (Z.to_nat (d + len)) D ->
  exists b3 w' err, buf_copy b2 d buf len = Some b3 /\
    (let range := fla_xne_lba_range_from_offset_nbytes dev ((s + a) * lb) (k * lb) in
     if negb (r_is_valid range) then Some (w, 1)
     else fla_xne_sync_seq_w_xneio (Some (prep_dp_ctx pool o)) w range dev b3) = Some (w', err) /\
    (forall dev' lba, dev_id dev' <> dev_id dev \/ lba < s \/ s + ext <= lba ->
      block w' dev' lba = block w0 dev' lba) /\
    (err = 0 -> bytes_of w' = splice (bytes_of w0) (Z.to_nat (a * lb + d)) (take (Z.to_nat len) buf)).
Proof using All.
  intros Ha Hk Hak Hd Hn Hdl Hbuf Hf D L2 T2 D2. destruct span_facts as (Hl1 & _).
  assert (0 <= a * lb /\ 0 < k * lb /\ a * lb + k * lb <= ext * lb) as (Ha' & Hk' & Hak') by nia.
  pose proof (span_length w0) as Hol. rewrite <- Z2Nat.inj_mul in Hol by lia.
  assert (length D = Z.to_nat (k * lb)) as HD by (unfold D; rewrite length_take, length_drop, Hol; lia).
  rewrite (buf_copy_spec b2 D d buf len) by (done || lia). eexists.
  unfold fla_xne_lba_range_from_offset_nbytes. replace ((s + a) * lb) with (s * lb + a * lb) by lia.
  destruct (span_range (a * lb) (k * lb)) as [[_ Hal]|(a' & k' & -> & Ea' & Ek' & _)]; [lia..| |].
  { exfalso. rewrite !Z.mod_mul in Hal by lia. lia. }
  apply Z.mul_cancel_r in Ea', Ek'; [|lia..]. subst a' k'. cbn [r_is_valid range_of negb].
  set (x := take (Z.to_nat len) buf). assert (length x = Z.to_nat len) as Hx by (unfold x; rewrite length_take; lia).
  assert (length (splice D (Z.to_nat d) x) = Z.to_nat (k * lb)) as Hsl.
  { unfold splice. rewrite !length_app, length_take, length_drop. lia. }
  destruct (span_write w (splice D (Z.to_nat d) x) a k Ha Hk Hak) as (w' & err & Ew & Hfr & Hok); [lia|].
  exists w', err. split; [done|]. split; [exact Ew|]. split; [intros; rewrite Hfr by done; apply Hf|]. intros E0.
  rewrite (Hok E0), take_ge by lia. rewrite (span_frame w0 w Hf).
  unfold D. rewrite splice_part; [f_equal; lia|lia|lia].
Qed.

Lemma span_unaligned w buf off len : fla_object_slba fs o pool = Some s -> 0 <= off -> 0 < len -> off + len <= ext * lb ->
  len <= Z.of_nat (length buf) ->
  exists w' err, fla_object_unaligned_write w fs pool o buf off len = Some (w', err) /\
    (forall dev' lba, dev_id dev' <> dev_id dev \/ lba < s \/ s + ext <= lba ->
      block w' dev' lba = block w dev' lba) /\
    (err = 0 -> bytes_of w' = splice (bytes_of w) (Z.to_nat off) (take (Z.to_nat len) buf)).
Proof using All.
  intros Es Ho Hn Hin Hbuf. destruct span_facts as (Hl1 & El & Hn1 & Hs0 & Hs1 & Ht).
  destruct (unaligned_blocks off len Ho Hn Hin) as (a & k & d & Ha & Hk & Hak & Hd & Eoff & Hdl & Ediv & Eceil).
  assert (0 <= s * lb /\ (s + ext) * lb < 2 ^ 63) as [Hs2 Hs3] by nia.
  assert (0 <= k * lb) as Hkl by (apply Z.mul_nonneg_nonneg; lia).
  assert (lb <= (s + a + k) * lb <= (s + ext) * lb) as Hend
    by (split; [|apply Z.mul_le_mono_nonneg_r]; [nia|lia|lia]).
  unfold fla_object_unaligned_write. rewrite Es. bind_step. rewrite Hlb. fold lb dev.
  rewrite (u64_small (s * lb)), (u64_small (s * lb + off)), (u64_small (s * lb + off + len)) by (unfold is_u64; lia).
  rewrite Eceil, Ediv. bind_step.
  rewrite (u64_small ((s + a) * lb)), (u64_small ((s + a + k) * lb)) by (unfold is_u64; nia).
  replace ((s + a + k) * lb - (s + a) * lb) with (k * lb) by lia.
  rewrite (u64_small (k * lb)) by (unfold is_u64; nia). unfold fla_xne_alloc_buf.
  destruct (xnvme_buf_alloc w dev (k * lb)) as [w0 [bounce|]] eqn:Ea; pose proof (alloc_frame _ _ _ _ _ Ea) as Hf0.
  2: { exists w0, (- ENOENT). split; [done|]. split; [done|]. done. }
  pose proof (alloc_length _ _ _ _ _ Hkl Ea) as Hbl.
  destruct (bounce_fill w0 a k d (d + len) bounce Ha Hk Hak Hd Hdl Hbl) as (w1 & err1 & b1 & E1 & F1 & H1).
  replace ((s + a) * lb <? s * lb + off) with (0 <? d)
    by (destruct (Z.ltb_spec 0 d), (Z.ltb_spec ((s + a) * lb) (s * lb + off)); nia || done).
  change (0 * lb) with 0 in E1. rewrite E1. bind_step.
  destruct (Z.eqb_spec err1 0) as [->|Hne]; cbn [negb].
  2: { exists w1, err1. split; [done|]. split; [intros; rewrite F1; apply Hf0|]. done. }
  destruct (H1 eq_refl) as (w2 & err2 & b2 & E2 & F2 & H2).
  replace (s * lb + off + len <? (s + a + k) * lb) with (d + len <? k * lb)
    by (destruct (Z.ltb_spec (d + len) (k * lb)), (Z.ltb_spec (s * lb + off + len) ((s + a + k) * lb)); nia || done).
  rewrite (u64_small ((s + a + k) * lb - lb)) by (unfold is_u64; lia).
  replace ((s + a + k) * lb - lb) with ((s + (a + k - 1)) * lb) by lia.
  replace (k * lb - lb) with ((k - 1) * lb) by lia. rewrite E2. bind_step.
  destruct (Z.eqb_spec err2 0) as [->|Hne]; cbn [negb].
  2: { exists w2, err2. split; [done|]. split; [intros; rewrite F2; apply Hf0|]. done. }
  destruct (H2 eq_refl) as (L2 & T2 & D2). replace (s * lb + off - (s + a) * lb) with d by lia.
  rewrite (span_frame w w0 Hf0) in L2, T2, D2.
  destruct (write_back w2 w a k d len b2 buf Ha Hk Hak) as (b3 & w' & err & -> & Ew & Hfr & Hok); try done; [lia|lia|..].
  { intros; rewrite F2. apply Hf0. }
  bind_step. exists w', err. split; [exact Ew|]. split; [done|].
  intros E0. rewrite (Hok E0). f_equal. lia.
Qed.
End span_io.

(** ** Transfers of an object *)

(** The first block of an object of [nlb] blocks, and its bytes. *)
Definition obj_start (fs : flexalloc) (nlb : Z) (o : fla_object) : Z :=
  slabs_base (fs_geo fs) + o_slab_id o * g_slab_nlb (fs_geo fs) + nlb * o_entry_ndx o.
Definition obj_bytes {W} (block : W -> xnvme_dev -> Z -> list Z) (fs : flexalloc) (nlb : Z) (o : fla_object)
    (w : W) : list Z :=
  concat_blocks (block w (d_dev (fs_dev fs))) (obj_start fs nlb o) (Z.to_nat nlb).

Section live_io.
Context {W : Type} `{E : XnvmeEnv W} (block : W -> xnvme_dev -> Z -> list Z) `{!XnvmeLaws W block}.
Context `{Dp : FlaDp W} `{!FlaDpLaws W block}.
Context (fs : flexalloc) (e : fla_pool_entry) (n : Z) (o : fla_object) (P : obj_placed fs e n o).
Context (pool : fla_pool) (Hp : p_ndx pool = 0) (DM : dev_matches fs).
Context (Hlb : d_lb_nbytes (fs_dev fs) = g_lb_nbytes (fs_geo fs)).

Let dev := d_dev (fs_dev fs).
Let lb := g_lb_nbytes (fs_geo fs).
Let nlb := pe_obj_nlb e.

Let s := obj_start fs nlb o.
Local Notation bytes_of := (obj_bytes block fs nlb o).

Lemma io_facts : 512 <= lb < 2 ^ 32 /\ dev_lba dev = lb /\ 0 < nlb /\ 0 <= s /\ s + nlb < 2 ^ 31 /\
  (s + nlb) * lb <= geo_tbytes (xnvme_dev_get_geo dev) /\
  fla_object_slba fs o pool = Some s /\ fla_object_elba fs o pool = Some (s + nlb) /\
  exists off, fla_geo_slab_lb_off fs (o_slab_id o) = Some off /\ 0 <= off /\
    s + nlb <= off + g_slab_nlb (fs_geo fs) <= g_nlb (fs_geo fs).
Proof using P Hp DM.
  pose proof (op_cns _ _ _ _ P) as C. pose proof (cf_geo _ C) as G.
  destruct (placed_extent fs e n pool o P Hp) as (Hs & He & Hid & Hk & q & Hq & Hfit).
  pose proof (op_range _ _ _ _ P) as [Ho Hn]. pose proof (go_nlb _ G). pose proof (go_lb _ G).
  destruct (flist_nlb_spec fs n G) as (q' & Eq & [Hq0 _]); [lia|]. rewrite Hq in Eq. injection Eq as <-.
  pose proof (slab_extent_inside _ _ G Hid) as [Hb0 Hb1].
  assert (pe_obj_nlb e * (o_entry_ndx o + 1) <= n * pe_obj_nlb e) by nia.
  assert (0 <= pe_obj_nlb e * o_entry_ndx o) by nia.
  unfold s, obj_start, nlb, lb, dev. rewrite (dm_lba _ DM). split; [done|]. split; [done|].
  split; [done|]. split; [lia|]. split; [lia|]. split.
  - pose proof (dm_nlb _ DM) as Hd. unfold dev_nlb in Hd. rewrite (dm_lba _ DM) in Hd.
    pose proof (Z.mul_div_le (geo_tbytes (xnvme_dev_get_geo (d_dev (fs_dev fs)))) (g_lb_nbytes (fs_geo fs)) ltac:(lia)).
    nia.
  - split; [done|]. split; [rewrite He; f_equal; lia|]. eexists. split; [by apply slab_lb_off_eq|]. lia.
Qed.

Lemma obj_span : in_device fs s nlb.
Proof using P Hp DM. destruct io_facts as (? & ? & ? & ? & ? & ? & _). split; [apply DM|done..]. Qed.

(** The checks compare the transfer with the object's size. *)
Lemma io_check_spec off len : 0 <= off -> 0 <= len -> off + len < 2 ^ 63 ->
  object_io_check fs pool o off len = Some (if nlb * lb <? off + len then inr 1 else inl (s * lb + off)).
Proof using P Hp DM Hlb.
  intros Ho Hn Hov. destruct io_facts as (Hl1 & _ & Hn1 & Hs0 & Hs1 & _ & Es & Ee & so & Eo & Ho0 & Ho1).
  pose proof (go_nlb _ (cf_geo _ (op_cns _ _ _ _ P))) as Hg. fold lb in Hlb.
  assert ((s + nlb) * lb < 2 ^ 63) by nia. assert (0 <= s * lb) by nia.
  unfold object_io_check, fla_object_eoffset, fla_object_soffset. rewrite Es, Ee, Eo. bind_step.
  rewrite Hlb. fold lb. rewrite (u64_small ((s + nlb) * lb)), (u64_small (s * lb)) by (unfold is_u64; nia).
  rewrite (u64_small (s * lb + off)), (u64_small (s * lb + off + len)) by (unfold is_u64; nia).
  set (S := g_slab_nlb (fs_geo fs)) in *. assert (0 <= (so + S) * lb < 2 ^ 63) by nia.
  rewrite (u64_small (so + S)), (u64_small ((so + S) * lb)) by (unfold is_u64; lia).
  destruct (Z.ltb_spec ((so + S) * lb) ((s + nlb) * lb)); [nia|]. do 2 f_equal.
  destruct (Z.ltb_spec ((s + nlb) * lb) (s * lb + off + len)), (Z.ltb_spec (nlb * lb) (off + len)); (done || nia).
Qed.

Lemma obj_write_spec w buf off len : 0 <= off -> 0 < len -> off + len < 2 ^ 63 -> len <= Z.of_nat (length buf) ->
  exists w' err, fla_object_write w fs pool o buf off len = Some (w', err) /\
    (forall dev' lba, dev_id dev' <> dev_id dev \/ lba < s \/ s + nlb <= lba ->
      block w' dev' lba = block w dev' lba) /\
    (nlb * lb < off + len \/ off mod lb <> 0 \/ len mod lb <> 0 -> w' = w /\ err = 1) /\
    (err = 0 -> bytes_of w' = splice (bytes_of w) (Z.to_nat off) (take (Z.to_nat len) buf)).
Proof using All.
  intros Ho Hn Hov Hbuf. unfold fla_object_write. rewrite Hp, (op_entry _ _ _ _ P).
  bind_step. rewrite io_check_spec by lia. bind_step.
  destruct (Z.ltb_spec (nlb * lb) (off + len)) as [Hout|Hin].
  { exists w, 1. split; [done|]. split; [done|]. split; [done|]. done. }
  rewrite io_striped_never. unfold fla_xne_lba_range_from_offset_nbytes. fold dev.
  pose proof (span_range block fs s nlb obj_span pool o Hlb off len Ho Hn Hin) as Hr. fold dev lb in Hr. cbv zeta in Hr.
  destruct Hr as [[Hv Hal]|(a & k & -> & Ea & Ek & Ha & Hk & Hak)].
  { rewrite Hv. cbn [negb]. exists w, 1. split; [done|]. split; [done|]. split; [done|]. done. }
  cbn [r_is_valid range_of negb].
  destruct (span_write block fs s nlb obj_span pool o Hlb w buf a k Ha Hk Hak) as (w' & err & Ew & Hfr & Hok); [lia|].
  exists w', err. split; [exact Ew|]. split; [done|]. split; [|rewrite Ea, Ek; exact Hok].
  assert (512 <= lb < 2 ^ 32) as Hb by apply (go_lb _ (cf_geo _ (op_cns _ _ _ _ P))).
  intros [?|[Hm|Hm]]; [lia|..]; [rewrite Ea in Hm|rewrite Ek in Hm]; rewrite Z.mod_mul in Hm by lia; done.
Qed.

Lemma obj_read_spec w buf off len : 0 <= off -> 0 < len -> off + len < 2 ^ 63 -> len <= Z.of_nat (length buf) ->
  exists w' err data, fla_object_read w fs pool o buf off len = Some (w', err, data) /\
    (forall dev' lba, block w' dev' lba = block w dev' lba) /\
    (nlb * lb < off + len \/ off mod lb <> 0 \/ len mod lb <> 0 -> w' = w /\ err = 1 /\ data = buf) /\
    (err = 0 -> data = take (Z.to_nat len) (drop (Z.to_nat off) (bytes_of w)) ++ drop (Z.to_nat len) buf).
Proof using All.
  intros Ho Hn Hov Hbuf. unfold fla_object_read. rewrite Hp, (op_entry _ _ _ _ P).
  bind_step. rewrite io_check_spec by lia. bind_step.
  destruct (Z.ltb_spec (nlb * lb) (off + len)) as [Hout|Hin].
  { exists w, 1, buf. split; [done|]. split; [done|]. split; [done|]. done. }
  rewrite io_striped_never. unfold fla_xne_lba_range_from_offset_nbytes. fold dev.
  pose proof (span_range block fs s nlb obj_span pool o Hlb off len Ho Hn Hin) as Hr. fold dev lb in Hr. cbv zeta in Hr.
  destruct Hr as [[Hv Hal]|(a & k & -> & Ea & Ek & Ha & Hk & Hak)].
  { rewrite Hv. cbn [negb]. exists w, 1, buf. split; [done|]. split; [done|]. split; [done|]. done. }
  cbn [r_is_valid range_of negb].
  destruct (span_read block fs s nlb obj_span pool o Hlb w buf a k Ha Hk Hak) as (w' & err & data & Er & Hfr & Hok); [lia|].
  exists w', err, data. split; [exact Er|]. split; [done|]. split; [|rewrite Ea, Ek; exact Hok].
  assert (512 <= lb < 2 ^ 32) as Hb by apply (go_lb _ (cf_geo _ (op_cns _ _ _ _ P))).
  intros [?|[Hm|Hm]]; [lia|..]; [rewrite Ea in Hm|rewrite Ek in Hm]; rewrite Z.mod_mul in Hm by lia; done.
Qed.

Lemma obj_bytes_length w : length (bytes_of w) = (Z.to_nat nlb * Z.to_nat lb)%nat.
Proof using All. exact (span_length block fs s nlb obj_span pool o Hlb w). Qed.

Lemma obj_unaligned_spec w buf off len : 0 <= off -> 0 < len -> off + len <= nlb * lb ->
  len <= Z.of_nat (length buf) ->
  exists w' err, fla_object_unaligned_write w fs pool o buf off len = Some (w', err) /\
    (forall dev' lba, dev_id dev' <> dev_id dev \/ lba < s \/ s + nlb <= lba ->
      block w' dev' lba = block w dev' lba) /\
    (err = 0 -> bytes_of w' = splice (bytes_of w) (Z.to_nat off) (take (Z.to_nat len) buf)).
Proof using All.
  apply (span_unaligned block fs s nlb obj_span pool o Hlb). by destruct io_facts as (_ & _ & _ & _ & _ & _ & ? & _).
Qed.
End live_io.

