(* ===== verification/DataPlacement.v ===== *)
(** * DataPlacement: [src/src/flexalloc_dp.c], [flexalloc_dp_fdp.c],
    [flexalloc_dp_noop.h] and the administrative commands of [flexalloc_xnvme_env.c]

    On opening, the controller is asked whether flexible data placement (FDP) is
    supported and enabled, and a set of functions is installed accordingly.  The
    preparation function of the set is called before every write and sets the
    placement identifier and directive type of the command.  With caching by slab,
    pool or object, identifiers are kept in a table whose slots are reserved in a
    freelist; without, the device is asked on every write.

    The class [XnvmeAdm] holds the further calls into libxnvme; [XnvmeAdmLaws] states
    that they write no block, that a URI names one device, and that a failed
    allocation sets [errno].  [None] is undefined behaviour. *)
From S2P Require Import Prelude Util Freelist Hash XnvmeEnv Flexalloc.

(** ** Administrative commands *)

(** [xnvme_dev_get_ns] returns the endurance group of the namespace, [None] for
    [NULL]; [xnvme_adm_idfy_ctrlr] the controller attributes; [adm_gfeat_fdp] the
    first completion word of the feature query; [mgmt_recv_ruhs] the placement
    identifiers in the descriptors it filled. *)
Class XnvmeAdm (W : Type) := {
  xnvme_opts : Type;
  xnvme_opts_direct : xnvme_opts;
  xnvme_dev_open : W -> list Z -> xnvme_opts -> W * option xnvme_dev;
  get_errno : W -> Z;
  xnvme_dev_get_ns : xnvme_dev -> option Z;
  xnvme_adm_idfy_ctrlr : W -> xnvme_dev -> W * (Z * Z) * Z;
  adm_gfeat_fdp : W -> xnvme_dev -> Z -> W * (Z * Z) * Z;
  mgmt_recv_ruhs : W -> xnvme_dev -> Z -> W * Z * list Z
}.

Class XnvmeAdmLaws (W : Type) `{XnvmeEnv W} `{XnvmeAdm W} (block : W -> xnvme_dev -> Z -> list Z) := {
  open_frame : forall w uri o w' d, xnvme_dev_open w uri o = (w', d) ->
    forall dev lba, block w' dev lba = block w dev lba;
  open_same : forall w w' uri o o' w1 w1' d d', xnvme_dev_open w uri o = (w1, Some d) ->
    xnvme_dev_open w' uri o' = (w1', Some d') -> d = d';
  idfy_frame : forall w d w' e v, xnvme_adm_idfy_ctrlr w d = (w', e, v) ->
    forall dev lba, block w' dev lba = block w dev lba;
  gfeat_frame : forall w d g w' e v, adm_gfeat_fdp w d g = (w', e, v) ->
    forall dev lba, block w' dev lba = block w dev lba;
  alloc_errno : forall w d n w', xnvme_buf_alloc w d n = (w', None) -> get_errno w' <> 0;
  ruhs_frame : forall w d n w' e v, mgmt_recv_ruhs w d n = (w', e, v) ->
    forall dev lba, block w' dev lba = block w dev lba
}.

Section adm.
Context {W : Type} `{XnvmeEnv W} `{XnvmeAdm W}.

(** [opts] is [None] for [NULL]. *)
Definition fla_xne_dev_open (w : W) (dev_uri : list Z) (opts : option xnvme_opts) : W * option xnvme_dev * Z :=
  let '(w, dev) := xnvme_dev_open w dev_uri (default xnvme_opts_direct opts) in
  match dev with
  | None => (w, None, 1001)
  | Some dev => (w, Some dev, 0)
  end.

(** [*md_dev] in the result is [None] for [NULL]. *)
Definition fla_xne_dev_mkfs_prepare (w : W) (dev : xnvme_dev) (md_dev_uri : option (list Z)) :
    W * option xnvme_dev * Z :=
  match md_dev_uri with
  | None => (w, None, 0)
  | Some uri =>
      let '(w, err) :=
        if bool_decide (fla_xne_dev_type dev = XNVME_GEO_ZONED)
        then fla_xne_dev_znd_send_mgmt w dev 0 MGMT_SEND_RESET true else (w, 0) in
      if negb (err =? 0) then (w, None, err) else
      let '(w, md_dev, err) := fla_xne_dev_open w uri None in
      (w, md_dev, if err =? 0 then 0 else -1)
  end.

Definition fla_xne_ctrl_idfy (w : W) (dev : xnvme_dev) : W * Z * Z :=
  let '(w, e, ctratt) := xnvme_adm_idfy_ctrlr w dev in
  (w, if cmd_failed e then cmd_err e else 0, ctratt).

(** [*dw0], not assigned on failure. *)
Definition fla_xne_feat_idfy (w : W) (dev : xnvme_dev) (endgid : Z) : W * Z * option Z :=
  let '(w, e, cdw0) := adm_gfeat_fdp w dev (Z.land endgid 0xFFFF) in
  if cmd_failed e then (w, cmd_err e, None) else (w, 0, Some cdw0).

(** The identifiers in the first [npids] descriptors; the report has a 16-byte
    header and 16 bytes per descriptor and is zero where the device wrote nothing. *)
Definition fla_xne_get_usable_pids (w : W) (dev : xnvme_dev) (npids : Z) : W * Z * list Z :=
  let '(w, ruhs) := fla_xne_alloc_buf w dev (u32 (16 + npids * 16)) in
  match ruhs with
  | None => (w, - get_errno w, [])
  | Some _ =>
      let '(w, err, pis) := mgmt_recv_ruhs w dev (u32 (16 + npids * 16)) in
      if negb (err =? 0) then (w, err, [])
      else (w, 0, (fun i => nth i pis 0) <$> seq 0 (Z.to_nat npids))
  end.
End adm.

(** ** Data *)

Inductive fla_dp_t := FLA_DP_FDP | FLA_DP_ZNS | FLA_DP_DEFAULT.
Inductive fla_dp_fdp_t := FLA_DP_FDP_ON_SLAB | FLA_DP_FDP_ON_POOL | FLA_DP_FDP_ON_OBJECT | FLA_DP_FDP_ON_WRITE.
Inductive fla_xne_io_type := FLA_IO_DATA_WRITE | FLA_IO_MD_WRITE | FLA_IO_MD_READ | FLA_IO_DATA_READ.

Record fla_dp_fdp_pid_to_id := mk_pid_to_id { pi_pid : Z; pi_fla_id : Z }.

Record fla_dp_fdp := mk_fdp {
  fdp_ctx_set : fla_dp_fdp_t; fdp_pids : list fla_dp_fdp_pid_to_id; fdp_free_pids : list Z; fdp_md_pid : Z
}.

(** The preparation functions a set can hold. *)
Inductive prep_fnc := prep_dp_noop | prep_noop | prep_fdp_cached | prep_fdp_onwrite.

(** [struct fla_dp]; the function pointer is [None] before one is installed. *)
Record fla_dp := mk_dp { dp_type : fla_dp_t; dp_fdp : option fla_dp_fdp; dp_prep : option prep_fnc }.

(** The fields of the command the preparation assigns. *)
Record cmd_ctx := mk_ctx { c_dspec : Z; c_dtype : Z }.

(** [struct fla_xne_io] as far as the preparation reads it. *)
Record fla_xne_io := mk_io { io_type : fla_xne_io_type; io_dev : xnvme_dev; io_pool : fla_pool; io_obj : fla_object }.

#[global] Instance pid_to_id_eq_dec : EqDecision fla_dp_fdp_pid_to_id.
Proof. solve_decision. Defined.

Definition set_free_pids (fl : list Z) (f : fla_dp_fdp) : fla_dp_fdp :=
  mk_fdp (fdp_ctx_set f) (fdp_pids f) fl (fdp_md_pid f).
Definition set_pids (p : list fla_dp_fdp_pid_to_id) (f : fla_dp_fdp) : fla_dp_fdp :=
  mk_fdp (fdp_ctx_set f) p (fdp_free_pids f) (fdp_md_pid f).

(** ** Preparing a command *)

Section prep.
Context {W : Type} `{XnvmeEnv W} `{XnvmeAdm W}.

(** The [npid] identifiers in the result are those stored through [pid]. *)
Definition fla_fdp_get_pid_n (w : W) (dev : xnvme_dev) (npid : Z) : W * Z * list Z :=
  let '(w, pids) := fla_xne_alloc_buf w dev (u64 (4 * npid)) in
  match pids with
  | None => (w, - get_errno w, [])
  | Some _ =>
      let '(w, err, pids) := fla_xne_get_usable_pids w dev npid in
      if negb (err =? 0) then (w, err, []) else (w, 0, pids)
  end.

(** The identifier is not assigned: only a slot is reserved. *)
Definition fla_fdp_get_placement_identifier (fdp : fla_dp_fdp) : option (fla_dp_fdp * Z) :=
  '(err, fl) ← fla_flist_entries_alloc (fdp_free_pids fdp) 1;
  Some (set_free_pids fl fdp, err).

Definition fla_fdp_onwrite_md_prep_ctx (fdp : fla_dp_fdp) (ctx : cmd_ctx) : cmd_ctx * Z :=
  (mk_ctx (u16 (fdp_md_pid fdp)) (c_dtype ctx), 0).

Definition fla_fdp_onwrite_prep_ctx (w : W) (io : fla_xne_io) (ctx : cmd_ctx) : option (W * cmd_ctx * Z) :=
  let '(w, err, pids) := fla_fdp_get_pid_n w (io_dev io) 1 in
  if negb (err =? 0) then Some (w, ctx, err)
  else pid ← pids !! 0%nat; Some (w, mk_ctx (u16 pid) 2, 0).

(** The search callback; its state is [*pid]. *)
Definition fla_fdp_get_id (fdp : fla_dp_fdp) (fla_id ndx pid : Z) : option (Z * Z) :=
  e ← lookupZ (fdp_pids fdp) ndx;
  Some (if fla_id =? pi_fla_id e then (1, pi_pid e) else (0, pid)).

(** The key under which an identifier is cached. *)
Definition fdp_key (fdp : fla_dp_fdp) (io : fla_xne_io) : option Z :=
  match fdp_ctx_set fdp with
  | FLA_DP_FDP_ON_SLAB => Some (o_slab_id (io_obj io))
  | FLA_DP_FDP_ON_POOL => Some (p_ndx (io_pool io))
  | FLA_DP_FDP_ON_OBJECT => Some (o_entry_ndx (io_obj io))
  | FLA_DP_FDP_ON_WRITE => None
  end.

(** The table is changed in place; [pid0] is what the uninitialised [pid] held. *)
Definition fla_fdp_cached_prep_ctx (w : W) (fdp : fla_dp_fdp) (io : fla_xne_io) (ctx : cmd_ctx) (pid0 : Z) :
    option (W * fla_dp_fdp * cmd_ctx * Z) :=
  match io_type io with
  | FLA_IO_DATA_READ | FLA_IO_MD_READ => Some (w, fdp, ctx, 0)
  | FLA_IO_MD_WRITE => let '(ctx, err) := fla_fdp_onwrite_md_prep_ctx fdp ctx in Some (w, fdp, ctx, err)
  | FLA_IO_DATA_WRITE =>
      match fdp_key fdp io with
      | None => Some (w, fdp, ctx, - EINVAL)
      | Some fla_id =>
          '(ret, found, pid) ← fla_flist_search_wfunc (fla_fdp_get_id fdp fla_id) (fdp_free_pids fdp)
                                 FLA_FLIST_SEARCH_EXEC_FIRST 0 pid0;
          if negb (ret =? 0) then Some (w, fdp, ctx, ret) else
          if found =? 1 then Some (w, fdp, mk_ctx (u16 pid) 2, 0) else
          if negb (found =? 0) then Some (w, fdp, mk_ctx (c_dspec ctx) 2, 0) else
          '(ndx, free_pids) ← fla_flist_entries_alloc (fdp_free_pids fdp) 1;
          let fdp := set_free_pids free_pids fdp in
          if ndx <? 0 then Some (w, fdp, ctx, - ENOSPC) else
          e ← lookupZ (fdp_pids fdp) ndx;
          let '(w, err, pids) := fla_fdp_get_pid_n w (io_dev io) 1 in
          if negb (err =? 0)
          then Some (w, set_pids (insertZ ndx (mk_pid_to_id (pi_pid e) fla_id) (fdp_pids fdp)) fdp, ctx, err)
          else
            pid ← pids !! 0%nat;
            Some (w, set_pids (insertZ ndx (mk_pid_to_id pid fla_id) (fdp_pids fdp)) fdp,
                  mk_ctx (c_dspec ctx) 2, 0)
      end
  end.

Definition fla_noop_prep_ctx (ctx : cmd_ctx) : cmd_ctx * Z := (ctx, 0).

(** Calling the installed function. *)
Definition dp_prep_ctx (w : W) (dp : fla_dp) (io : fla_xne_io) (ctx : cmd_ctx) (pid0 : Z) :
    option (W * fla_dp * cmd_ctx * Z) :=
  f ← dp_prep dp;
  match f with
  | prep_dp_noop => Some (w, dp, ctx, 0)
  | prep_noop => let '(ctx, err) := fla_noop_prep_ctx ctx in Some (w, dp, ctx, err)
  | prep_fdp_onwrite => '(w, ctx, err) ← fla_fdp_onwrite_prep_ctx w io ctx; Some (w, dp, ctx, err)
  | prep_fdp_cached =>
      fdp ← dp_fdp dp;
      '(w, fdp, ctx, err) ← fla_fdp_cached_prep_ctx w fdp io ctx pid0;
      Some (w, mk_dp (dp_type dp) (Some fdp) (dp_prep dp), ctx, err)
  end.

(** ** Installing a data placement *)

Definition fla_fdp_set_prep_ctx (fdp : fla_dp_fdp) : prep_fnc :=
  match fdp_ctx_set fdp with
  | FLA_DP_FDP_ON_SLAB | FLA_DP_FDP_ON_POOL | FLA_DP_FDP_ON_OBJECT => prep_fdp_cached
  | FLA_DP_FDP_ON_WRITE => prep_fdp_onwrite
  end.

Definition fla_fdp_get_max_pids : Z := 60.

(** The size of the table of cached identifiers, [None] when there is none. *)
Definition pid_to_id_cache_size (fdp : fla_dp_fdp) (geo : fla_geo) : option Z :=
  match fdp_ctx_set fdp with
  | FLA_DP_FDP_ON_SLAB => Some (u16 (fla_min (g_nslabs geo) fla_fdp_get_max_pids))
  | FLA_DP_FDP_ON_POOL => Some (u16 (fla_min (g_npools geo) fla_fdp_get_max_pids))
  | FLA_DP_FDP_ON_OBJECT => Some fla_fdp_get_max_pids
  | FLA_DP_FDP_ON_WRITE => None
  end.

(** The memory [malloc] returns has no defined contents; every word of the freelist
    is assigned by its initialisation and a slot of the table before it is read, so
    zeros stand for them. *)
Definition fla_fdp_init_pid_to_id (w : W) (fdp : fla_dp_fdp) (geo : fla_geo) : option (W * fla_dp_fdp * Z) :=
  match pid_to_id_cache_size fdp geo with
  | None => Some (w, fdp, 0)
  | Some size =>
      let '(w, ok) := malloc w (u64 (8 * size)) in
      if negb ok then Some (w, fdp, - ENOMEM) else
      let fdp := set_pids (replicate (Z.to_nat size) (mk_pid_to_id 0 0)) fdp in
      let '(w, ok) := malloc w (fla_flist_size size) in
      '(err, fl) ← fla_flist_new (if ok then Some (replicate (Z.to_nat (fla_flist_size size / 4)) 0) else None) size;
      Some (w, match fl with Some fl => set_free_pids fl fdp | None => fdp end, err)
  end.

Definition fla_fdp_init_md_pid (fdp : fla_dp_fdp) : fla_dp_fdp * Z :=
  (mk_fdp (fdp_ctx_set fdp) (fdp_pids fdp) (fdp_free_pids fdp) 0, 0).

Definition fla_dp_fdp_init (w : W) (geo : fla_geo) (dp : fla_dp) : option (W * fla_dp * Z) :=
  let '(w, ok) := malloc w 32 in
  if negb ok then Some (w, mk_dp FLA_DP_FDP None (dp_prep dp), - ENOMEM) else
  let fdp := mk_fdp FLA_DP_FDP_ON_WRITE [] [] 0 in
  let prep := Some (fla_fdp_set_prep_ctx fdp) in
  let '(fdp, err) := fla_fdp_init_md_pid fdp in
  if negb (err =? 0) then Some (w, mk_dp FLA_DP_FDP (Some fdp) prep, err) else
  '(w, fdp, err) ← fla_fdp_init_pid_to_id w fdp geo;
  Some (w, mk_dp FLA_DP_FDP (Some fdp) prep, err).

Definition fla_dp_noop_init (dp : fla_dp) : fla_dp * Z := (mk_dp (dp_type dp) (dp_fdp dp) (Some prep_dp_noop), 0).

Definition fla_dp_fdp_supported (ctratt : Z) : bool := negb (Z.land ctratt (Z.shiftl 1 16) =? 0).
Definition fla_dp_fdp_enabled (dw0 : Z) : bool := negb (Z.land dw0 (Z.shiftl 1 0) =? 0).

(** [*dp_t] in the result, [None] when it was not assigned. *)
Definition fla_dp_type (w : W) (dev : xnvme_dev) : option (W * option fla_dp_t * Z) :=
  let '(w, err, ctratt) := fla_xne_ctrl_idfy w dev in
  if negb (err =? 0) then Some (w, None, err) else
  if fla_dp_fdp_supported ctratt then
    match xnvme_dev_get_ns dev with
    | None => Some (w, None, 1)
    | Some endgid =>
        let '(w, err, dw0) := fla_xne_feat_idfy w dev endgid in
        if negb (err =? 0) then Some (w, None, err) else
        dw0 ← dw0;
        Some (w, Some (if fla_dp_fdp_enabled dw0 then FLA_DP_FDP else FLA_DP_DEFAULT), 0)
    end
  else Some (w, Some FLA_DP_DEFAULT, 0).

Definition fla_init_dp (w : W) (dev : xnvme_dev) (geo : fla_geo) (dp : fla_dp) : option (W * fla_dp * Z) :=
  '(w, t, err) ← fla_dp_type w dev;
  let dp := match t with Some t => mk_dp t (dp_fdp dp) (dp_prep dp) | None => dp end in
  if negb (err =? 0) then Some (w, dp, err) else
  match dp_type dp with
  | FLA_DP_FDP => fla_dp_fdp_init w geo dp
  | FLA_DP_DEFAULT => let '(dp, err) := fla_dp_noop_init dp in Some (w, dp, err)
  | FLA_DP_ZNS => Some (w, dp, 1)
  end.

Definition fla_dp_fdp_fini (dp : fla_dp) : fla_dp * Z := (mk_dp (dp_type dp) None (dp_prep dp), 0).
End prep.

(** ** No command of the data placement writes a block *)

Section frame.
Context {W : Type} `{E : XnvmeEnv W} `{A : XnvmeAdm W} (block : W -> xnvme_dev -> Z -> list Z).
Context `{!XnvmeLaws W block} `{!XnvmeAdmLaws W block}.

(** The worlds hold the same blocks. *)
Definition same_blocks (w w' : W) : Prop := forall dev lba, block w' dev lba = block w dev lba.

#[local] Instance same_blocks_preorder : PreOrder same_blocks.
Proof using. split; [done|]. intros w1 w2 w3 H1 H2 dev lba. by rewrite H2. Qed.

Lemma alloc_same w dev n w' r : xnvme_buf_alloc w dev n = (w', r) -> same_blocks w w'.
Proof using All. intros Ha dev' lba. by eapply alloc_frame. Qed.
Lemma malloc_same w n w' r : malloc w n = (w', r) -> same_blocks w w'.
Proof using All. intros Ha dev' lba. by eapply malloc_frame. Qed.

(** One identifier is asked for, and on success it is the first of the device's report. *)
Lemma get_pid_spec w dev : exists w' err pids, fla_fdp_get_pid_n w dev 1 = (w', err, pids) /\
  same_blocks w w' /\ (err <> 0 -> pids = []) /\
  (err = 0 -> exists w1 pis, same_blocks w w1 /\ mgmt_recv_ruhs w1 dev 32 = (w', 0, pis) /\ pids = [nth 0 pis 0]).
Proof using All.
  unfold fla_fdp_get_pid_n, fla_xne_get_usable_pids, fla_xne_alloc_buf.
  destruct (xnvme_buf_alloc w dev _) as [w1 [b1|]] eqn:E1; pose proof (alloc_same _ _ _ _ _ E1) as H1.
  2: { apply alloc_errno in E1. do 3 eexists. split; [done|]. split; [done|]. split; [done|lia]. }
  destruct (xnvme_buf_alloc w1 dev _) as [w2 [b2|]] eqn:E2; pose proof (alloc_same _ _ _ _ _ E2) as H2.
  2: { apply alloc_errno in E2. rewrite (proj2 (Z.eqb_neq (- get_errno w2) 0)) by lia. cbn [negb].
       do 3 eexists. split; [done|]. split; [by etrans|]. split; [done|lia]. }
  destruct (mgmt_recv_ruhs w2 dev _) as [[w3 err] pis] eqn:E3.
  assert (same_blocks w w3) as H3 by (etrans; [exact H1|]; etrans; [exact H2|]; intros ? ?; by eapply ruhs_frame).
  destruct (Z.eqb_spec err 0) as [->|Hne]; cbn [negb].
  - do 3 eexists. split; [done|]. split; [done|]. split; [done|]. intros _. exists w2, pis. split; [etrans; [exact H1|exact H2]|]. split; [exact E3|done].
  - rewrite (proj2 (Z.eqb_neq err 0)) by done. cbn [negb]. do 3 eexists. split; [done|]. by split.
Qed.

Lemma dp_type_spec w dev : exists w' t err, fla_dp_type w dev = Some (w', t, err) /\ same_blocks w w' /\
  (err = 0 -> t = Some FLA_DP_FDP \/ t = Some FLA_DP_DEFAULT).
Proof using All.
  unfold fla_dp_type, fla_xne_ctrl_idfy. destruct (xnvme_adm_idfy_ctrlr w dev) as [[w1 e1] v] eqn:E1.
  assert (same_blocks w w1) as H1 by (intros ? ?; by eapply idfy_frame).
  destruct (Z.eqb_spec (if cmd_failed e1 then cmd_err e1 else 0) 0) as [->|]; cbn [negb].
  2: { do 3 eexists. split; [done|]. by split. }
  destruct (fla_dp_fdp_supported v).
  2: { do 3 eexists. split; [done|]. split; [done|]. by right. }
  destruct (xnvme_dev_get_ns dev) as [g|]; [|do 3 eexists; split; [done|]; by split].
  unfold fla_xne_feat_idfy. destruct (adm_gfeat_fdp w1 dev _) as [[w2 e2] cdw0] eqn:E2.
  assert (same_blocks w w2) as H2 by (etrans; [exact H1|]; intros ? ?; by eapply gfeat_frame).
  destruct (cmd_failed e2) eqn:F2.
  - assert (cmd_err e2 <> 0) as Hne.
    { unfold cmd_err, EIO. destruct (Z.eqb_spec e2.1 0); lia. }
    rewrite (proj2 (Z.eqb_neq _ _) Hne). cbn [negb]. do 3 eexists. split; [done|]. by split.
  - no_err. bind_step. do 3 eexists. split; [done|]. split; [done|]. destruct (fla_dp_fdp_enabled cdw0); auto.
Qed.

(** What [fla_init_dp] installs: the preparation that does nothing, or the one that
    asks the device on every write. *)
Lemma init_dp_spec w dev geo dp : exists w' dp' err, fla_init_dp w dev geo dp = Some (w', dp', err) /\
  same_blocks w w' /\
  (err = 0 -> dp_type dp' = FLA_DP_DEFAULT /\ dp_prep dp' = Some prep_dp_noop \/
              dp_type dp' = FLA_DP_FDP /\ dp_prep dp' = Some prep_fdp_onwrite).
Proof using All.
  unfold fla_init_dp. destruct (dp_type_spec w dev) as (w1 & t & err & -> & H1 & Ht). bind_step.
  destruct (Z.eqb_spec err 0) as [->|Hne]; cbn [negb].
  2: { do 3 eexists. split; [done|]. by split. }
  destruct (Ht eq_refl) as [-> | ->]; cbn [dp_type].
  2: { unfold fla_dp_noop_init. do 3 eexists. split; [done|]. split; [done|]. by left. }
  unfold fla_dp_fdp_init. destruct (malloc w1 32) as [w2 ok] eqn:E2.
  assert (same_blocks w w2) as H2 by (etrans; [exact H1|by eapply malloc_same]).
  destruct ok; cbn [negb].
  - cbn. do 3 eexists. split; [done|]. split; [done|]. by right.
  - do 3 eexists. split; [done|]. by split.
Qed.

(** Calling what was installed. *)
Lemma prep_installed w dp io ctx pid0 :
  dp_prep dp = Some prep_dp_noop \/ dp_prep dp = Some prep_fdp_onwrite ->
  exists w' ctx' err, dp_prep_ctx w dp io ctx pid0 = Some (w', dp, ctx', err) /\ same_blocks w w'.
Proof using All.
  unfold dp_prep_ctx. intros [-> | ->]; bind_step; [by do 3 eexists|]. unfold fla_fdp_onwrite_prep_ctx.
  destruct (get_pid_spec w (io_dev io)) as (w' & err & pids & -> & Hs & _ & Hp).
  destruct (Z.eqb_spec err 0) as [->|]; cbn [negb]; [|bind_step; by do 3 eexists].
  destruct (Hp eq_refl) as (? & ? & _ & _ & ->). cbn. by do 3 eexists.
Qed.
End frame.

(** ** The cache of identifiers is a finite map *)

(** The table holds the map [m] from keys to identifiers: the reserved slots are its
    entries, each key in one slot. *)
Record fdp_repr (fdp : fla_dp_fdp) (n : Z) (m : gmap Z Z) : Prop := {
  fr_wf : flist_wf (fdp_free_pids fdp) n;
  fr_words : n mod 32 <> 0;
  fr_size : Z.of_nat (length (fdp_pids fdp)) = n;
  fr_map : forall k pid, m !! k = Some pid <-> exists j, 0 <= j < n /\ free_bit (fdp_free_pids fdp) j = false /\
    lookupZ (fdp_pids fdp) j = Some (mk_pid_to_id pid k);
  fr_inj : forall j j' e e', free_bit (fdp_free_pids fdp) j = false -> free_bit (fdp_free_pids fdp) j' = false ->
    0 <= j < n -> 0 <= j' < n -> lookupZ (fdp_pids fdp) j = Some e -> lookupZ (fdp_pids fdp) j' = Some e' ->
    pi_fla_id e = pi_fla_id e' -> j = j'
}.

Lemma get_id_eq fdp k j e pid0 : lookupZ (fdp_pids fdp) j = Some e ->
  fla_fdp_get_id fdp k j pid0 = Some (if k =? pi_fla_id e then (1, pi_pid e) else (0, pid0)).
Proof. intros He. unfold fla_fdp_get_id. by rewrite He. Qed.

(** The search over a list of slots without, or with one, slot of the key. *)
Lemma fdp_search_none fdp k l : forall found pid0,
  (forall j, j ∈ l -> exists e, lookupZ (fdp_pids fdp) j = Some e /\ pi_fla_id e <> k) ->
  search_list (fla_fdp_get_id fdp k) l found pid0 = Some (SearchGo found pid0).
Proof.
  induction l as [|j l IH]; intros found pid0 Hl; [done|]. cbn [search_list].
  destruct (Hl j) as (e & He & Hne); [by left|]. rewrite (get_id_eq _ _ _ _ _ He), (proj2 (Z.eqb_neq k _)) by congruence. bind_step.
  change (u32 0 =? 1) with false. change (u32 0 =? 0) with true. cbv iota. apply IH. intros j' Hj'. apply Hl. by right.
Qed.

Lemma fdp_search_one fdp k l : forall j e found pid0, NoDup l -> j ∈ l -> lookupZ (fdp_pids fdp) j = Some e -> pi_fla_id e = k ->
  (forall j', j' ∈ l -> j' <> j -> exists e', lookupZ (fdp_pids fdp) j' = Some e' /\ pi_fla_id e' <> k) ->
  search_list (fla_fdp_get_id fdp k) l found pid0 = Some (SearchGo (u32 (found + 1)) (pi_pid e)).
Proof.
  induction l as [|i l IH]; intros j e found pid0 Hnd Hj He Hk Hl; [by apply not_elem_of_nil in Hj|].
  apply NoDup_cons in Hnd as [Hni Hnd]. cbn [search_list].
  destruct (decide (i = j)) as [->|Hne].
  - rewrite (get_id_eq _ _ _ _ _ He), (proj2 (Z.eqb_eq k _)) by done. bind_step.
    change (u32 1 =? 1) with true. cbv iota. apply fdp_search_none. intros j' Hj'. apply Hl; [by right|].
    intros ->. done.
  - destruct (Hl i) as (e' & He' & Hne'); [by left|done|]. rewrite (get_id_eq _ _ _ _ _ He'), (proj2 (Z.eqb_neq k _)) by congruence. bind_step.
    change (u32 0 =? 1) with false. change (u32 0 =? 0) with true. cbv iota.
    apply elem_of_cons in Hj as [->|Hj]; [done|]. apply (IH j); try done. intros j' Hj'. apply Hl. by right.
Qed.

Lemma zeros_NoDup g n : forall k, NoDup (zeros g k n).
Proof.
  induction n as [|n IH]; intros k; cbn [zeros]; [constructor|]. destruct (g k); [apply IH|].
  constructor; [|apply IH]. rewrite zeros_elem. lia.
Qed.

Lemma fdp_search fdp n m k pid0 : fdp_repr fdp n m ->
  fla_flist_search_wfunc (fla_fdp_get_id fdp k) (fdp_free_pids fdp) FLA_FLIST_SEARCH_EXEC_FIRST 0 pid0 =
    Some (match m !! k with Some pid => (0, 1, pid) | None => (0, 0, pid0) end).
Proof.
  intros [Hwf Hm32 Hsz Hmap Hinj]. rewrite (search_wfunc_spec _ _ n) by done.
  assert (search_limit n = n) as ->.
  { unfold search_limit. flist_facts. pose proof (Z.div_mod n 32). pose proof (Z.mod_pos_bound n 32). lia. }
  set (l := zeros _ _ _).
  assert (forall j, j ∈ l -> 0 <= j < n /\ free_bit (fdp_free_pids fdp) j = false /\ exists e, lookupZ (fdp_pids fdp) j = Some e) as Hl.
  { intros j [? ?]%zeros_elem. flist_facts. split; [lia|]. split; [done|]. apply lookupZ_is_Some. lia. }
  destruct (m !! k) as [pid|] eqn:Hk.
  - apply Hmap in Hk as (j & Hj & Hf & He). rewrite (fdp_search_one fdp k l j (mk_pid_to_id pid k) 0 pid0 (zeros_NoDup _ _ _)); try done.
    + apply zeros_elem. split; [lia|done].
    + intros j' Hj' Hne. destruct (Hl j' Hj') as (? & ? & e' & He'). exists e'. split; [done|]. intros Hk.
      apply Hne. eapply Hinj; try done.
  - rewrite fdp_search_none; [done|]. intros j Hj. destruct (Hl j Hj) as (? & ? & [pid k'] & He). eexists. split; [done|].
    cbn. intros ->. assert (m !! k = Some pid) by (apply Hmap; eauto). congruence.
Qed.

(** Entering a key that is not in the map. *)
Lemma fdp_repr_insert fdp n m j k pid e : fdp_repr fdp n m -> m !! k = None -> 0 <= j < n ->
  free_bit (fdp_free_pids fdp) j = true -> lookupZ (fdp_pids fdp) j = Some e ->
  fdp_repr (set_pids (insertZ j (mk_pid_to_id pid k) (fdp_pids fdp))
              (set_free_pids (flist_clear (fdp_free_pids fdp) j) fdp)) n (<[k := pid]> m).
Proof.
  intros [Hwf Hm32 Hsz Hmap Hinj] Hk Hj Hfree He. cbn [set_pids set_free_pids fdp_pids fdp_free_pids].
  flist_facts.
  assert (forall i, 0 <= i < n -> free_bit (flist_clear (fdp_free_pids fdp) j) i =
    if decide (i = j) then false else free_bit (fdp_free_pids fdp) i) as Hbit.
  { intros i Hi. apply (free_bit_clear _ n); [done|lia|lia]. }
  split; cbn [set_pids set_free_pids fdp_pids fdp_free_pids].
  - by apply flist_clear_wf.
  - done.
  - by rewrite length_insertZ.
  - intros k' pid'. rewrite lookup_insert_Some, Hmap. split.
    + intros [[<- <-]|[Hne (i & Hi & Hf & Hl)]].
      * exists j. rewrite Hbit, decide_True, lookupZ_insertZ_eq by lia. done.
      * exists i. assert (i <> j) by congruence. rewrite Hbit, decide_False, lookupZ_insertZ_ne by (done || lia). done.
    + intros (i & Hi & Hf & [[-> [= <- <-]]|[Hne Hl]]%lookupZ_insertZ_Some); [by left|].
      rewrite Hbit, decide_False in Hf by lia. right. split; [|eauto].
      intros ->. assert (m !! k' = Some pid') by (apply Hmap; eauto). congruence.
  - intros i i' x x' Hf Hf' Hi Hi'. rewrite Hbit in Hf, Hf' by done.
    intros [[<- <-]|[Hne Hl]]%lookupZ_insertZ_Some [[<- <-]|[Hne' Hl']]%lookupZ_insertZ_Some; cbn [pi_fla_id].
    + done.
    + intros Hid. rewrite decide_False in Hf' by lia. destruct x' as [p k']. cbn in Hid. subst k'.
      assert (m !! k = Some p) by (apply Hmap; eauto). congruence.
    + intros Hid. rewrite decide_False in Hf by lia. destruct x as [p k']. cbn in Hid. subst k'.
      assert (m !! k = Some p) by (apply Hmap; eauto). congruence.
    + rewrite decide_False in Hf by lia. rewrite decide_False in Hf' by lia. by eapply Hinj.
Qed.

(** ** A controller for examples *)

(** The disks of [RamDisk] under their names; [fdp] whether placement is enabled. *)
Module RamAdm.
Definition find_disk (disks : list (list Z * xnvme_dev)) (uri : list Z) : option xnvme_dev :=
  snd <$> head (filter (fun p => p.1 = uri) disks).

Definition adm (disks : list (list Z * xnvme_dev)) (fdp : bool) : XnvmeAdm RamDisk.world := {|
  xnvme_opts := unit;
  xnvme_opts_direct := ();
  xnvme_dev_open := fun w uri _ => (w, find_disk disks uri);
  get_errno := fun _ => ENOMEM;
  xnvme_dev_get_ns := fun _ => Some 1;
  xnvme_adm_idfy_ctrlr := fun w _ => (w, (0, 0), if fdp then 2 ^ 16 else 0);
  adm_gfeat_fdp := fun w _ _ => (w, (0, 0), if fdp then 1 else 0);
  mgmt_recv_ruhs := fun w _ _ => (w, 0, [7; 8; 9])
|}.

#[global] Instance adm_laws disks fdp : @XnvmeAdmLaws RamDisk.world RamDisk.env (adm disks fdp) RamDisk.block.
Proof.
  split; cbn.
  - by intros w uri o w' d [= <- _].
  - intros w w' uri o o' w1 w1' d d' [= _ ->] [= _ Hd]. congruence.
  - by intros w d w' e v [= <- _ _].
  - by intros w d g w' e v [= <- _ _].
  - unfold ENOMEM. lia.
  - by intros w d n w' e v [= <- _ _].
Qed.
End RamAdm.

#[local] Instance ex_adm : XnvmeAdm RamDisk.world := RamAdm.adm [([1], ex_dev)] true.

(** ** Claims *)

(** C27: Preparing a data write with cached placement identifiers implements a lookup
    in a finite map from keys (slab, pool or object index) to identifiers, for tables
    whose size is no multiple of 32.  A key in the map gives its identifier to the
    command, without asking the device and with nothing changed.  A key not in the map
    is entered in a free slot with the identifier in the first descriptor of the report
    that the device returns to this call, and from then on has that identifier; the
    command that entered it is sent with the identifier it had before.  Without a free
    slot nothing changes and -ENOSPC is returned.  When no report could be had its error
    is returned, the command is as before and the key stays in the table with whatever
    identifier the slot held.  No block is written in any case. *)
Theorem fdp_cached_refines {W} `{E : XnvmeEnv W} `{A : XnvmeAdm W} block `{!XnvmeLaws W block}
    `{!XnvmeAdmLaws W block} w fdp n m io ctx pid0 key :
  fdp_repr fdp n m -> io_type io = FLA_IO_DATA_WRITE -> fdp_key fdp io = Some key ->
  exists w' fdp' ctx' err, fla_fdp_cached_prep_ctx w fdp io ctx pid0 = Some (w', fdp', ctx', err) /\
    same_blocks block w w' /\
    match m !! key with
    | Some pid => err = 0 /\ w' = w /\ fdp' = fdp /\ ctx' = mk_ctx (u16 pid) 2
    | None =>
        ((forall j, 0 <= j < n -> free_bit (fdp_free_pids fdp) j = false) /\ err = - ENOSPC /\ w' = w /\ fdp' = fdp /\ ctx' = ctx) \/
        ((exists j, 0 <= j < n /\ free_bit (fdp_free_pids fdp) j = true) /\
         ((err = 0 /\ ctx' = mk_ctx (c_dspec ctx) 2 /\ exists w1 pis, same_blocks block w w1 /\
             mgmt_recv_ruhs w1 (io_dev io) 32 = (w', 0, pis) /\ fdp_repr fdp' n (<[key := nth 0 pis 0]> m)) \/
          (err <> 0 /\ ctx' = ctx /\ fla_fdp_get_pid_n w (io_dev io) 1 = (w', err, []) /\
             exists old, fdp_repr fdp' n (<[key := old]> m))))
    end.
Proof.
  intros R Ht Hk. unfold fla_fdp_cached_prep_ctx. rewrite Ht, Hk, (fdp_search fdp n m) by done. bind_step.
  destruct (m !! key) as [pid|] eqn:Hm; no_err.
  { change (1 =? 1) with true. cbv iota. by do 4 eexists. }
  change (0 =? 1) with false. cbv iota.
  destruct (entries_alloc_1 _ _ (fr_wf _ _ _ R)) as [(j & Hj & (Hj0 & Hfree & _) & Ea)|[Hn Ea]]; rewrite Ea; bind_step.
  2: { change (-1 <? 0) with true. cbv iota. do 4 eexists. split; [done|]. split; [done|]. left. split; [done|].
       by destruct fdp. }
  rewrite (proj2 (Z.ltb_ge j 0)) by lia. cbn [set_free_pids fdp_pids].
  destruct (lookupZ_is_Some (fdp_pids fdp) j) as [e He]; [rewrite (fr_size _ _ _ R); lia|]. rewrite He. bind_step.
  destruct (get_pid_spec block w (io_dev io)) as (w' & err & pids & Eg & Hs & Hn & Hp). rewrite Eg.
  destruct (Z.eqb_spec err 0) as [->|Hne]; cbn [negb].
  - destruct (Hp eq_refl) as (w1 & pis & Hs1 & Er & ->). cbn [lookup list_lookup]. bind_step. do 4 eexists. split; [done|]. split; [done|]. right.
    split; [by exists j|]. left. split; [done|]. split; [done|]. exists w1, pis. split; [done|]. split; [done|].
    eapply (fdp_repr_insert fdp n m j key _ e); try done.
  - do 4 eexists. split; [done|]. split; [done|]. right. split; [by exists j|]. right. split; [done|]. split; [done|].
    split; [by rewrite (Hn Hne)|]. exists (pi_pid e). eapply (fdp_repr_insert fdp n m j key (pi_pid e) e); try done.
Qed.

(** A table of 5 slots by pool, pool 4 in slot 0 with identifier 9. *)
Definition ex_fdp : fla_dp_fdp :=
  mk_fdp FLA_DP_FDP_ON_POOL (mk_pid_to_id 9 4 :: replicate 4 (mk_pid_to_id 0 0)) [5; 30] 0.
Definition ex_fdp_io (ndx : Z) : fla_xne_io :=
  mk_io FLA_IO_DATA_WRITE ex_dev (mk_pool 0 ndx) (mk_obj 0 0).

Lemma ex_fdp_repr : fdp_repr ex_fdp 5 {[ 4 := 9 ]}.
Proof.
  assert (forall j, 0 <= j < 5 -> free_bit (fdp_free_pids ex_fdp) j = negb (j =? 0)) as Hb.
  { intros j Hj. assert (j = 0 \/ j = 1 \/ j = 2 \/ j = 3 \/ j = 4) as [->|[->|[->|[->| ->]]]] by lia; reflexivity. }
  assert (forall j, 0 <= j < 5 -> free_bit (fdp_free_pids ex_fdp) j = false -> j = 0) as Hz.
  { intros j Hj. rewrite Hb by done. by destruct (Z.eqb_spec j 0). }
  split.
  - split; [reflexivity|lia|vm_compute; congruence| |].
    + intros k x _ Hk Hx. change (FLA_FREELIST_U32_ELEMS 5) with 1 in Hk.
      assert (k = 1%nat \/ k = 0%nat) as [-> | ->] by lia; injection Hx as <-; split; lia.
    + intros i Hi. change (FLA_FREELIST_U32_ELEMS 5) with 1 in Hi.
      assert (forall j, (j < 27)%nat -> free_bit [5; 30] (5 + Z.of_nat j) = false) as Hall.
      { intros j Hj. do 27 (destruct j as [|j]; [reflexivity|]). lia. }
      replace i with (5 + Z.of_nat (Z.to_nat (i - 5))) by lia. apply Hall. lia.
  - done.
  - done.
  - intros k pid. rewrite lookup_singleton_Some. split.
    + intros [<- <-]. exists 0. by split.
    + intros (j & Hj & Hf & He). apply Hz in Hf as ->; [|done]. by injection He as <- <-.
  - intros j j' e e' Hf Hf' Hj Hj' _ _ _. by rewrite (Hz j), (Hz j').
Qed.

(** A known key, and a new one: the device reports 7, 8 and 9. *)
Lemma fdp_cached_refines_witness :
  (exists w' fdp' ctx', fla_fdp_cached_prep_ctx ex_world ex_fdp (ex_fdp_io 4) (mk_ctx 0 0) 0 =
    Some (w', fdp', ctx', 0) /\ ctx' = mk_ctx 9 2) /\
  exists w' fdp' ctx', fla_fdp_cached_prep_ctx ex_world ex_fdp (ex_fdp_io 2) (mk_ctx 0 0) 0 =
    Some (w', fdp', ctx', 0) /\ fdp_repr fdp' 5 {[ 2 := 7; 4 := 9 ]}.
Proof.
  split.
  2: { destruct (fdp_cached_refines RamDisk.block ex_world ex_fdp 5 {[ 4 := 9 ]} (ex_fdp_io 2) (mk_ctx 0 0) 0 2
         ex_fdp_repr eq_refl eq_refl) as (w' & fdp' & ctx' & err & E & _ & H).
       assert (snd <$> fla_fdp_cached_prep_ctx ex_world ex_fdp (ex_fdp_io 2) (mk_ctx 0 0) 0 = Some 0) as Hz by (vm_compute; reflexivity).
       rewrite E in Hz. injection Hz as ->. rewrite lookup_singleton_ne in H by lia. exists w', fdp', ctx'. split; [exact E|].
       destruct H as [(_ & [=] & _)|[_ [(_ & _ & w1 & pis & _ & [= _ <-] & Hr)|[Hne _]]]]; [exact Hr|by destruct Hne]. }
  destruct (fdp_cached_refines RamDisk.block ex_world ex_fdp 5 {[ 4 := 9 ]} (ex_fdp_io 4) (mk_ctx 0 0) 0 4
    ex_fdp_repr eq_refl eq_refl) as (w' & fdp' & ctx' & err & E & _ & H).
  rewrite lookup_singleton_eq in H. destruct H as (-> & _ & _ & ->). eauto.
Defined.
