(* ===== verification/Layout.v ===== *)
(** * Layout: the metadata buffer, [src/src/flexalloc_mm.c], [flexalloc_mm.h],
    [flexalloc_pool.c], [flexalloc_pool.h] and [flexalloc_hash.h]

    The program keeps the metadata in one buffer of whole blocks, the image of the
    first blocks of the device, and lays typed pointers over it.  The other files
    work on the typed parts; here are the bytes.  [md_load] is what the pointers
    that [fla_init] and [fla_pool_init] compute see in a buffer, [md_store] the
    buffer after the typed parts were assigned to.  Integers are little-endian,
    structures have the padding of their alignment; padding and the unused ends of
    the segments keep the bytes they had.  An access outside the buffer is
    undefined ([None]). *)
From S2P Require Import Prelude Util Freelist Hash XnvmeEnv Flexalloc PoolEntry Geometry CommandSet.
From S2P Require Import SlabList SlabCache Slab Pool.

(** ** Bytes *)

(** [n] bytes of an integer, lowest first. *)
Fixpoint le (n : nat) (v : Z) : list Z :=
  match n with O => [] | S n => v mod 256 :: le n (v / 256) end.

Fixpoint un_le (bs : list Z) : Z :=
  match bs with [] => 0 | b :: bs => b + 256 * un_le bs end.

(** Bytes [off .. off + n) of a structure of known size. *)
Definition field (bs : list Z) (off n : nat) : Z := un_le (take n (drop off bs)).

(** The [n] bytes at [off] of the buffer, and assigning [bs] there. *)
Definition buf_get (buf : list Z) (off n : Z) : option (list Z) :=
  if (0 <=? off) && (0 <=? n) && (off + n <=? Z.of_nat (length buf))
  then Some (take (Z.to_nat n) (drop (Z.to_nat off) buf)) else None.

Definition buf_put (buf : list Z) (off : Z) (bs : list Z) : option (list Z) :=
  if (0 <=? off) && (off + Z.of_nat (length bs) <=? Z.of_nat (length buf))
  then Some (take (Z.to_nat off) buf ++ bs ++ drop (Z.to_nat off + length bs) buf) else None.

(** An array of structures of [sz] bytes: [ld] reads one, [st] assigns one over the
    bytes it had. *)
Definition arr_load {A} (sz : nat) (ld : list Z -> A) (bs : list Z) (n : nat) : list A :=
  (fun i => ld (take sz (drop (i * sz) bs))) <$> seq 0 n.

Fixpoint arr_store {A} (sz : nat) (st : list Z -> A -> list Z) (old : list Z) (xs : list A) : list Z :=
  match xs with
  | [] => []
  | x :: xs => st (take sz old) x ++ arr_store sz st (drop sz old) xs
  end.

(** ** The structures *)

Definition super_load (bs : list Z) : fla_super :=
  mk_super (field bs 0 8) (field bs 8 4) (field bs 12 4) (field bs 16 4) (field bs 20 4) (field bs 24 1).
Definition super_store (old : list Z) (s : fla_super) : list Z :=
  le 8 (s_magic s) ++ le 4 (s_nslabs s) ++ le 4 (s_slab_nlb s) ++ le 4 (s_npools s) ++ le 4 (s_md_nlb s) ++
  le 1 (s_fmt_version s) ++ take 7 (drop 25 old).

Definition slab_header_load (bs : list Z) : fla_slab_header :=
  mk_hdr (field bs 0 8) (field bs 8 4) (field bs 12 4) (field bs 16 4).
Definition slab_header_store (old : list Z) (h : fla_slab_header) : list Z :=
  le 8 (sl_pool h) ++ le 4 (sl_prev h) ++ le 4 (sl_next h) ++ le 4 (sl_refcount h) ++ take 4 (drop 20 old).

Definition htbl_entry_load (bs : list Z) : fla_htbl_entry :=
  mk_entry (field bs 0 8) (field bs 8 4) (field bs 12 2).
Definition htbl_entry_store (old : list Z) (e : fla_htbl_entry) : list Z :=
  le 8 (h2 e) ++ le 4 (val e) ++ le 2 (psl e) ++ take 2 (drop 14 old).

Definition htbl_header_load (bs : list Z) : fla_pool_htbl_header :=
  mk_htbl_hdr (field bs 0 4) (field bs 4 4).
Definition htbl_header_store (h : fla_pool_htbl_header) : list Z := le 4 (hh_size h) ++ le 4 (hh_len h).

Definition pool_entry_load (bs : list Z) : fla_pool_entry :=
  mk_pool_entry (field bs 0 4) (field bs 4 4) (field bs 8 4) (field bs 12 4) (field bs 16 4)
    (field bs 24 8) (field bs 32 8) (field bs 40 8) (take 112 (drop 48 bs)).
Definition pool_entry_store (old : list Z) (e : fla_pool_entry) : list Z :=
  le 4 (pe_empty_slabs e) ++ le 4 (pe_full_slabs e) ++ le 4 (pe_partial_slabs e) ++ le 4 (pe_obj_nlb e) ++
  le 4 (pe_slab_nobj e) ++ take 4 (drop 20 old) ++ le 8 (pe_root_obj_hndl e) ++ le 8 (pe_flags e) ++
  le 8 (pe_usable e) ++ pe_name e.

(** ** Where the parts are *)

(** [fla_pool_init]: the products are 32 bits wide. *)
Definition freelist_off (geo : fla_geo) : Z := fla_geo_pool_sgmt_off geo.
Definition htbl_hdr_off (geo : fla_geo) : Z :=
  fla_geo_pool_sgmt_off geo + u32 (g_lb_nbytes geo * freelist_nlb (g_pool_sgmt geo)).
Definition htbl_off (geo : fla_geo) : Z := htbl_hdr_off geo + sizeof_pool_htbl_header.
Definition entries_off (geo : fla_geo) : Z :=
  fla_geo_pool_sgmt_off geo +
  u32 (g_lb_nbytes geo * u32 (freelist_nlb (g_pool_sgmt geo) + htbl_nlb (g_pool_sgmt geo))).

(** The free-list words are the last three of the slab segment.  [fla_init] computes
    the end of the segment with a 32-bit product, [fla_mkfs_slab_sgmt_init] with a
    64-bit one. *)
Definition headers_off (geo : fla_geo) : Z := fla_geo_slab_sgmt_off geo.
Definition fslab_end (geo : fla_geo) : Z :=
  headers_off geo + u32 (slab_sgmt_nlb (g_slab_sgmt geo) * g_lb_nbytes geo).
Definition fslab_end_mkfs (geo : fla_geo) : Z :=
  headers_off geo + u64 (g_lb_nbytes geo * slab_sgmt_nlb (g_slab_sgmt geo)).

(** The freelist's words fill its blocks. *)
Definition freelist_words (geo : fla_geo) : Z := freelist_nlb (g_pool_sgmt geo) * g_lb_nbytes geo / 4.

(** ** The typed parts in a buffer *)

Definition pool_sgmt_load (geo : fla_geo) (buf : list Z) : option pool_segment :=
  fl ← buf_get buf (freelist_off geo) (4 * freelist_words geo);
  hdr ← buf_get buf (htbl_hdr_off geo) sizeof_pool_htbl_header;
  table ← buf_get buf (htbl_off geo) (sizeof_htbl_entry * htbl_tbl_size (g_pool_sgmt geo));
  entries ← buf_get buf (entries_off geo) (sizeof_pool_entry * g_npools geo);
  Some (mk_segment (words_of_bytes fl) (htbl_header_load hdr)
          (arr_load 16 htbl_entry_load table (Z.to_nat (htbl_tbl_size (g_pool_sgmt geo))))
          (arr_load 160 pool_entry_load entries (Z.to_nat (g_npools geo)))).

Definition slabs_load (geo : fla_geo) (buf : list Z) : option fla_slabs :=
  hs ← buf_get buf (headers_off geo) (sizeof_slab_header * g_nslabs geo);
  num ← buf_get buf (fslab_end geo - 12) 4;
  head ← buf_get buf (fslab_end geo - 8) 4;
  tail ← buf_get buf (fslab_end geo - 4) 4;
  Some (mk_slabs (arr_load 24 slab_header_load hs (Z.to_nat (g_nslabs geo))) (un_le num) (un_le head)
          (un_le tail)).

Record md_parts := mk_md { md_super : fla_super; md_pools : pool_segment; md_slabs : fla_slabs }.

Definition md_load (geo : fla_geo) (buf : list Z) : option md_parts :=
  s ← buf_get buf 0 sizeof_super;
  p ← pool_sgmt_load geo buf;
  l ← slabs_load geo buf;
  Some (mk_md (super_load s) p l).

(** Assigning an array over what the buffer holds at [off]. *)
Definition arr_put {A} (sz : nat) (st : list Z -> A -> list Z) (buf : list Z) (off : Z) (xs : list A) :
    option (list Z) :=
  old ← buf_get buf off (Z.of_nat sz * Z.of_nat (length xs));
  buf_put buf off (arr_store sz st old xs).

(** [fin] is the end of the slab segment from which the pointers to the free-list
    words were computed. *)
Definition md_store (geo : fla_geo) (fin : Z) (p : md_parts) (buf : list Z) : option (list Z) :=
  buf ← arr_put 32 super_store buf 0 [md_super p];
  buf ← buf_put buf (freelist_off geo) (bytes_of_words (sg_freelist (md_pools p)));
  buf ← buf_put buf (htbl_hdr_off geo) (htbl_header_store (sg_htbl_hdr (md_pools p)));
  buf ← arr_put 16 htbl_entry_store buf (htbl_off geo) (sg_table (md_pools p));
  buf ← arr_put 160 pool_entry_store buf (entries_off geo) (sg_entries (md_pools p));
  buf ← arr_put 24 slab_header_store buf (headers_off geo) (ss_headers (md_slabs p));
  buf ← buf_put buf (fin - 12) (le 4 (ss_fslab_num (md_slabs p)));
  buf ← buf_put buf (fin - 8) (le 4 (ss_fslab_head (md_slabs p)));
  buf_put buf (fin - 4) (le 4 (ss_fslab_tail (md_slabs p))).

(** ** Integers and structures are read back *)

Lemma length_le n : forall v, length (le n v) = n.
Proof. induction n as [|n IH]; intros v; [done|]. cbn. by rewrite IH. Qed.

Lemma un_le_le n : forall v, 0 <= v < 256 ^ Z.of_nat n -> un_le (le n v) = v.
Proof.
  induction n as [|n IH]; intros v Hv; [cbn in *; lia|]. cbn [le un_le].
  rewrite Nat2Z.inj_succ, Z.pow_succ_r in Hv by lia. rewrite IH.
  - pose proof (Z.div_mod v 256). lia.
  - split; [apply Z.div_pos; lia|]. apply Z.div_lt_upper_bound; lia.
Qed.

Lemma field_here n v rest : 0 <= v < 256 ^ Z.of_nat n -> field (le n v ++ rest) 0 n = v.
Proof.
  intros Hv. unfold field. rewrite drop_0, take_app_le, take_ge by (rewrite length_le; lia). by apply un_le_le.
Qed.

Lemma field_skip l rest off n : (length l <= off)%nat -> field (l ++ rest) off n = field rest (off - length l) n.
Proof. intros Hl. unfold field. by rewrite drop_app_ge. Qed.

(** Reading one field of a stored structure: past the fields before it. *)
Ltac read_field :=
  repeat (rewrite field_skip by (rewrite ?length_le, ?length_take, ?length_drop; lia);
          rewrite ?length_le, ?length_take, ?length_drop);
  match goal with |- field (le ?n ?v ++ ?r) ?o ?n = _ => replace o with 0%nat by lia end;
  apply field_here; cbn [Z.of_nat Pos.of_succ_nat Pos.succ]; unfold is_u16, is_u32, is_u64 in *; lia.

(** The values fit their fields. *)
Record super_fits (s : fla_super) : Prop := {
  sf_magic : is_u64 (s_magic s); sf_nslabs : is_u32 (s_nslabs s); sf_slab_nlb : is_u32 (s_slab_nlb s);
  sf_npools : is_u32 (s_npools s); sf_md_nlb : is_u32 (s_md_nlb s); sf_ver : 0 <= s_fmt_version s < 256
}.
Record header_fits (h : fla_slab_header) : Prop := {
  hf_pool : is_u64 (sl_pool h); hf_prev : is_u32 (sl_prev h); hf_next : is_u32 (sl_next h);
  hf_ref : is_u32 (sl_refcount h)
}.
Record hentry_fits (e : fla_htbl_entry) : Prop := {
  ef_h2 : is_u64 (h2 e); ef_val : is_u32 (val e); ef_psl : is_u16 (psl e)
}.
Record htbl_header_fits (h : fla_pool_htbl_header) : Prop := {
  tf_size : is_u32 (hh_size h); tf_len : is_u32 (hh_len h)
}.
Record pentry_fits (e : fla_pool_entry) : Prop := {
  pf_empty : is_u32 (pe_empty_slabs e); pf_full : is_u32 (pe_full_slabs e);
  pf_partial : is_u32 (pe_partial_slabs e); pf_nlb : is_u32 (pe_obj_nlb e); pf_nobj : is_u32 (pe_slab_nobj e);
  pf_root : is_u64 (pe_root_obj_hndl e); pf_flags : is_u64 (pe_flags e); pf_usable : is_u64 (pe_usable e);
  pf_name : length (pe_name e) = 112%nat
}.

Lemma super_load_store old s : length old = 32%nat -> super_fits s ->
  super_load (super_store old s) = s /\ length (super_store old s) = 32%nat.
Proof.
  intros Hl [? ? ? ? ? ?]. split.
  - unfold super_load, super_store. destruct s as [a b c d e f]. cbn [s_magic s_nslabs s_slab_nlb s_npools s_md_nlb s_fmt_version] in *.
    f_equal; read_field.
  - unfold super_store. rewrite !length_app, !length_le, length_take, length_drop. lia.
Qed.

Lemma header_load_store old h : length old = 24%nat -> header_fits h ->
  slab_header_load (slab_header_store old h) = h /\ length (slab_header_store old h) = 24%nat.
Proof.
  intros Hl [? ? ? ?]. split.
  - unfold slab_header_load, slab_header_store. destruct h as [a b c d]. cbn [sl_pool sl_prev sl_next sl_refcount] in *.
    f_equal; read_field.
  - unfold slab_header_store. rewrite !length_app, !length_le, length_take, length_drop. lia.
Qed.

Lemma hentry_load_store old e : length old = 16%nat -> hentry_fits e ->
  htbl_entry_load (htbl_entry_store old e) = e /\ length (htbl_entry_store old e) = 16%nat.
Proof.
  intros Hl [? ? ?]. split.
  - unfold htbl_entry_load, htbl_entry_store. destruct e as [a b c]. cbn [h2 val psl] in *. f_equal; read_field.
  - unfold htbl_entry_store. rewrite !length_app, !length_le, length_take, length_drop. lia.
Qed.

Lemma htbl_header_load_store h : htbl_header_fits h -> htbl_header_load (htbl_header_store h) = h.
Proof.
  intros [? ?]. unfold htbl_header_load, htbl_header_store. destruct h as [a b]. cbn [hh_size hh_len] in *.
  rewrite <- (app_nil_r (le 4 b)). f_equal; read_field.
Qed.

Lemma pentry_load_store old e : length old = 160%nat -> pentry_fits e ->
  pool_entry_load (pool_entry_store old e) = e /\ length (pool_entry_store old e) = 160%nat.
Proof.
  intros Hl [? ? ? ? ? ? ? ? Hn]. split.
  - unfold pool_entry_load, pool_entry_store. destruct e as [a b c d f r g u name].
    cbn [pe_empty_slabs pe_full_slabs pe_partial_slabs pe_obj_nlb pe_slab_nobj pe_root_obj_hndl pe_flags
      pe_usable pe_name] in *.
    f_equal; [read_field..|]. rewrite !app_assoc, drop_app_ge by
      (rewrite !length_app, !length_le, length_take, length_drop; lia).
    rewrite !length_app, !length_le, length_take, length_drop, Hl. cbn [Nat.add Nat.sub Nat.min].
    rewrite drop_0. apply take_ge. lia.
  - unfold pool_entry_store. rewrite !length_app, !length_le, length_take, length_drop. lia.
Qed.

(** ** Arrays and buffers *)

Section arrays.
Context {A : Type} (sz : nat) (ld : list Z -> A) (st : list Z -> A -> list Z) (P : A -> Prop).
Context (Hst : forall old x, length old = sz -> P x -> ld (st old x) = x /\ length (st old x) = sz).

Lemma arr_load_S bs n : arr_load sz ld bs (S n) = ld (take sz bs) :: arr_load sz ld (drop sz bs) n.
Proof using.
  unfold arr_load. cbn [seq fmap list_fmap]. rewrite drop_0. f_equal. rewrite <- fmap_S_seq, <- list_fmap_compose.
  apply list_fmap_ext. intros i x _. cbn. rewrite drop_drop. done.
Qed.

Lemma arr_load_store xs : forall old, Forall P xs -> length old = (sz * length xs)%nat ->
  length (arr_store sz st old xs) = (sz * length xs)%nat /\
  arr_load sz ld (arr_store sz st old xs) (length xs) = xs.
Proof using Hst.
  induction xs as [|x xs IH]; intros old HP Hl; [cbn; split; [lia|done]|].
  apply Forall_cons in HP as [Hx HP]. cbn [arr_store length] in *.
  destruct (Hst (take sz old) x) as [Hld Hlen]; [rewrite length_take; lia|done|].
  destruct (IH (drop sz old) HP) as [IH1 IH2]; [rewrite length_drop; lia|].
  rewrite length_app, Hlen, IH1. split; [lia|]. rewrite arr_load_S, take_app_le, take_ge by lia.
  rewrite drop_app_ge, Hlen, Nat.sub_diag, drop_0 by lia. by rewrite Hld, IH2.
Qed.
End arrays.

(** Bytes [off .. off + n) and [off' .. off' + n') do not meet. *)
Definition apart (off n off' n' : Z) : Prop := off + n <= off' \/ off' + n' <= off.

(** [buf'] is [buf] with [bs] at [off]. *)
Record put_at (buf buf' : list Z) (off : Z) (bs : list Z) : Prop := {
  pa_length : length buf' = length buf;
  pa_here : buf_get buf' off (Z.of_nat (length bs)) = Some bs;
  pa_other : forall o n, apart o n off (Z.of_nat (length bs)) -> buf_get buf' o n = buf_get buf o n
}.

Lemma buf_get_some buf off n : 0 <= off -> 0 <= n -> off + n <= Z.of_nat (length buf) ->
  buf_get buf off n = Some (take (Z.to_nat n) (drop (Z.to_nat off) buf)).
Proof. intros. unfold buf_get. by rewrite !(proj2 (Z.leb_le _ _)) by lia. Qed.

Lemma buf_put_spec buf off bs : 0 <= off -> off + Z.of_nat (length bs) <= Z.of_nat (length buf) ->
  exists buf', buf_put buf off bs = Some buf' /\ put_at buf buf' off bs.
Proof.
  intros H0 H1. unfold buf_put. rewrite !(proj2 (Z.leb_le _ _)) by lia. eexists. split; [done|].
  assert (length (take (Z.to_nat off) buf ++ bs ++ drop (Z.to_nat off + length bs) buf) = length buf) as Hl.
  { rewrite !length_app, length_take, length_drop. lia. }
  split; [done| |].
  - rewrite buf_get_some by lia. f_equal.
    rewrite drop_app_ge by (rewrite length_take; lia). rewrite length_take, Nat.min_l, Nat.sub_diag, drop_0 by lia.
    rewrite Nat2Z.id, take_app_le by lia. by apply take_ge.
  - intros o n Ha. unfold buf_get. rewrite Hl.
    destruct (Z.leb_spec 0 o), (Z.leb_spec 0 n), (Z.leb_spec (o + n) (Z.of_nat (length buf))); try done.
    cbn [andb]. f_equal. destruct Ha as [Ha|Ha].
    + destruct (decide (n = 0)) as [->|]; [done|].
      rewrite drop_app_le by (rewrite length_take; lia). rewrite take_app_le by (rewrite length_drop, length_take; lia).
      rewrite !take_drop_commute, take_take. do 2 f_equal. lia.
    + rewrite app_assoc, drop_app_ge by (rewrite length_app, length_take; lia).
      rewrite length_app, length_take, drop_drop. do 2 f_equal. lia.
Qed.

Lemma arr_put_spec {A} sz (ld : list Z -> A) st (P : A -> Prop) buf off xs :
  (forall old x, length old = sz -> P x -> ld (st old x) = x /\ length (st old x) = sz) ->
  Forall P xs -> 0 <= off -> off + Z.of_nat sz * Z.of_nat (length xs) <= Z.of_nat (length buf) ->
  exists buf' bs, arr_put sz st buf off xs = Some buf' /\ put_at buf buf' off bs /\
    Z.of_nat (length bs) = Z.of_nat sz * Z.of_nat (length xs) /\ arr_load sz ld bs (length xs) = xs.
Proof.
  intros Hst HP H0 H1. unfold arr_put. rewrite buf_get_some by lia. bind_step.
  set (old := take _ _). assert (length old = (sz * length xs)%nat) as Ho.
  { unfold old. rewrite length_take, length_drop. lia. }
  destruct (arr_load_store sz ld st P Hst xs old HP Ho) as [Hl Hld].
  destruct (buf_put_spec buf off (arr_store sz st old xs)) as (buf' & -> & Hp); [lia..|].
  exists buf', (arr_store sz st old xs). repeat split; try done; try apply Hp. lia.
Qed.

(** ** The parts lie one behind the other *)

(** The metadata is smaller than 4 GiB, so that no 32-bit product wraps around. *)
Definition md_small (geo : fla_geo) : Prop := fla_geo_nblocks geo * g_lb_nbytes geo < 2 ^ 32.

Record md_bounds (geo : fla_geo) (a b c d e : Z) : Prop := {
  mb_freelist : freelist_off geo = a;
  mb_hdr : htbl_hdr_off geo = b;
  mb_htbl : htbl_off geo = b + 8;
  mb_entries : entries_off geo = c;
  mb_headers : headers_off geo = d;
  mb_words : fslab_end geo = e /\ fslab_end_mkfs geo = e;
  mb_end : fla_geo_nbytes geo = e;
  mb_order : 32 <= a /\ a + 4 * freelist_words geo <= b /\
    b + 8 + 16 * htbl_tbl_size (g_pool_sgmt geo) <= c /\ c + 160 * g_npools geo <= d /\
    d + 24 * g_nslabs geo <= e - 12 /\ e < 2 ^ 32
}.

Lemma nblocks_eq geo : geo_ok geo -> fla_geo_nblocks geo =
  g_md_nlb geo + (freelist_nlb (g_pool_sgmt geo) + htbl_nlb (g_pool_sgmt geo) + entries_nlb (g_pool_sgmt geo)) +
  slab_sgmt_nlb (g_slab_sgmt geo).
Proof.
  intros G. pose proof (go_fits _ G) as Hf. pose proof (go_nlb _ G). pose proof (go_md _ G) as [? _].
  pose proof (go_slabs _ G) as [? _]. pose proof (go_pools _ G) as [[? _] [? _] [? _] _ Hs].
  pose proof (go_slab _ G). pose proof (go_nslabs _ G).
  assert (0 <= g_nslabs geo * g_slab_nlb geo) by nia.
  unfold fla_geo_nblocks, fla_geo_slab_sgmt_nblocks. rewrite Hs in *. apply u32_small. unfold is_u32. lia.
Qed.

(** Each part follows the one before it. *)
Lemma layout_exact geo : geo_ok geo -> md_small geo ->
  let lb := g_lb_nbytes geo in let sg := g_pool_sgmt geo in
  let a := g_md_nlb geo * lb in let b := a + freelist_nlb sg * lb in let c := b + htbl_nlb sg * lb in
  let d := c + entries_nlb sg * lb in
  md_bounds geo a b c d (d + slab_sgmt_nlb (g_slab_sgmt geo) * lb) /\
  0 <= a /\ 0 <= freelist_nlb sg * lb /\ 0 <= htbl_nlb sg * lb /\ 0 <= entries_nlb sg * lb.
Proof.
  intros G Hs. unfold md_small in Hs. rewrite nblocks_eq in Hs by done.
  pose proof (go_lb _ G) as Hlb. pose proof (go_md _ G) as [Hm0 Hm]. pose proof (go_slabs _ G) as [Hs0 Hsl].
  pose proof (go_pools _ G) as [[Hf0 Hf] [Hh0 Hh] [He0 He] Ht Hn]. pose proof (go_npools _ G).
  pose proof (go_fits _ G) as Hfits. pose proof (go_nlb _ G).
  assert (0 <= g_nslabs geo * g_slab_nlb geo) as Hprod by (pose proof (go_slab _ G); nia).
  pose proof (nblocks_eq geo G) as Hnb. intros lb sg a b c d.
  fold lb sg in Hs, Hlb, Hm, Hsl, Hf0, Hf, Hh0, Hh, He0, He, Ht, Hn, Hfits, Hnb.
  rewrite !Z.mul_add_distr_r in Hs. rewrite Hn in Hfits. unfold d, c, b, a. clear d c b a.
  set (A := g_md_nlb geo * lb) in *. set (B := freelist_nlb sg * lb) in *. set (C := htbl_nlb sg * lb) in *.
  set (D := entries_nlb sg * lb) in *. set (F := slab_sgmt_nlb (g_slab_sgmt geo) * lb) in *.
  assert (0 <= A /\ 0 <= B /\ 0 <= C /\ 0 <= D /\ 0 <= F) as (? & ? & ? & ? & ?).
  { unfold A, B, C, D, F. repeat split; apply Z.mul_nonneg_nonneg; lia. }
  unfold sizeof_super, sizeof_pool_htbl_header, sizeof_htbl_entry, sizeof_pool_entry, sizeof_slab_header in *.
  assert (fla_geo_pool_sgmt_off geo = A) as EA.
  { unfold fla_geo_pool_sgmt_off, fla_geo_pool_sgmt_lb_off. fold lb. rewrite Z.mul_comm. apply u64_small. unfold is_u64. fold A. lia. }
  assert (fla_geo_slab_sgmt_off geo = A + B + C + D) as ED.
  { unfold fla_geo_slab_sgmt_off, fla_geo_slab_sgmt_lb_off, fla_geo_pool_sgmt_lb_off. fold lb sg. rewrite Hn.
    rewrite (u64_small (g_md_nlb geo + _)) by (unfold is_u64; lia).
    rewrite Z.mul_comm, !Z.mul_add_distr_r. fold A B C D. rewrite u64_small; [lia|]. unfold is_u64. lia. }
  split; [|lia].
  assert (htbl_hdr_off geo = A + B) as EB.
  { unfold htbl_hdr_off. fold lb sg. rewrite EA, Z.mul_comm. fold B. by rewrite u32_small by (unfold is_u32; lia). }
  pose proof (Z.mul_div_le B 4).
  split; unfold freelist_off, htbl_off, entries_off, fslab_end, fslab_end_mkfs, headers_off, freelist_words,
    fla_geo_nbytes; fold lb sg; try done.
  - unfold sizeof_pool_htbl_header. rewrite EB. lia.
  - rewrite (u32_small (freelist_nlb sg + _)) by (unfold is_u32; lia).
    rewrite EA, Z.mul_comm, Z.mul_add_distr_r. fold B C. rewrite u32_small by (unfold is_u32; lia). lia.
  - rewrite ED, (Z.mul_comm lb). fold F. by rewrite u32_small, u64_small by (unfold is_u32, is_u64; lia).
  - rewrite Hnb, !Z.mul_add_distr_r. fold A B C D F. rewrite u64_small by (unfold is_u64; lia). lia.
  - fold B. lia.
Qed.

Lemma layout_bounds geo : geo_ok geo -> md_small geo -> exists a b c d e, md_bounds geo a b c d e.
Proof. intros G Hs. destruct (layout_exact geo G Hs) as [B _]. by do 5 eexists. Qed.

(** Parts of the sizes the geometry gives them, with values that fit. *)
Record md_fits (geo : fla_geo) (p : md_parts) : Prop := {
  mf_super : super_fits (md_super p);
  mf_flist : Z.of_nat (length (sg_freelist (md_pools p))) = freelist_words geo;
  mf_flist_u32 : Forall is_u32 (sg_freelist (md_pools p));
  mf_hdr : htbl_header_fits (sg_htbl_hdr (md_pools p));
  mf_table : Z.of_nat (length (sg_table (md_pools p))) = htbl_tbl_size (g_pool_sgmt geo);
  mf_table_fits : Forall hentry_fits (sg_table (md_pools p));
  mf_entries : Z.of_nat (length (sg_entries (md_pools p))) = g_npools geo;
  mf_entries_fits : Forall pentry_fits (sg_entries (md_pools p));
  mf_headers : Z.of_nat (length (ss_headers (md_slabs p))) = g_nslabs geo;
  mf_headers_fits : Forall header_fits (ss_headers (md_slabs p));
  mf_words : is_u32 (ss_fslab_num (md_slabs p)) /\ is_u32 (ss_fslab_head (md_slabs p)) /\
    is_u32 (ss_fslab_tail (md_slabs p))
}.

(** The pieces [l] (offset and bytes) are in the buffer of [n] bytes, all of them
    before [lim]. *)
Definition filled (buf : list Z) (n lim : Z) (l : list (Z * list Z)) : Prop :=
  Z.of_nat (length buf) = n /\ 0 <= lim /\
  Forall (fun '(o, bs) => buf_get buf o (Z.of_nat (length bs)) = Some bs /\ o + Z.of_nat (length bs) <= lim) l.

Lemma filled_put buf buf' n lim l off bs : filled buf n lim l -> lim <= off -> put_at buf buf' off bs ->
  filled buf' n (off + Z.of_nat (length bs)) ((off, bs) :: l).
Proof.
  intros (Hn & Hl & Hf) Hoff [Hlen Hhere Hother]. split; [lia|]. split; [lia|]. constructor; [by split|].
  eapply Forall_impl; [exact Hf|]. intros [o x] [Hx Hb]. rewrite Hother by (left; lia). split; [done|lia].
Qed.

Lemma fill_put buf n lim l off bs : filled buf n lim l -> lim <= off -> off + Z.of_nat (length bs) <= n ->
  exists buf', buf_put buf off bs = Some buf' /\ filled buf' n (off + Z.of_nat (length bs)) ((off, bs) :: l).
Proof.
  intros F Hl Hn. destruct (buf_put_spec buf off bs) as (buf' & -> & P); [destruct F; lia..|].
  exists buf'. split; [done|]. by eapply filled_put.
Qed.

Lemma fill_arr {A} sz (ld : list Z -> A) st (P : A -> Prop) buf n lim l off xs : filled buf n lim l ->
  (forall old x, length old = sz -> P x -> ld (st old x) = x /\ length (st old x) = sz) -> Forall P xs ->
  lim <= off -> off + Z.of_nat sz * Z.of_nat (length xs) <= n ->
  exists buf' bs, arr_put sz st buf off xs = Some buf' /\
    Z.of_nat (length bs) = Z.of_nat sz * Z.of_nat (length xs) /\ arr_load sz ld bs (length xs) = xs /\
    filled buf' n (off + Z.of_nat (length bs)) ((off, bs) :: l).
Proof.
  intros F Hst HP Hl Hn. destruct (arr_put_spec sz ld st P buf off xs Hst HP) as (buf' & bs & -> & Hp & Hb & Hld);
    [destruct F; lia..|].
  exists buf', bs. split; [done|]. split; [done|]. split; [done|]. by eapply filled_put.
Qed.

(** Storing the parts and loading them again. *)
Lemma md_load_store geo fin p buf : geo_ok geo -> md_small geo -> md_fits geo p ->
  fin = fslab_end geo \/ fin = fslab_end_mkfs geo -> Z.of_nat (length buf) = fla_geo_nbytes geo ->
  exists buf', md_store geo fin p buf = Some buf' /\ length buf' = length buf /\ md_load geo buf' = Some p.
Proof.
  intros G S [Fs Fl Flu Fh Ft Ftf Fe Fef Fhd Fhf (Fw1 & Fw2 & Fw3)] Hfin Hlen.
  destruct (layout_bounds geo G S) as (a & b & c & d & e & [Ea Eb Eb8 Ec Ed [En Em] Ee Ord]).
  assert (fin = e) as -> by (destruct Hfin; congruence).
  rewrite Ee in Hlen. unfold md_store. rewrite Ea, Eb, Eb8, Ec, Ed.
  assert (filled buf e 0 []) as F0 by (split; [lia|]; split; [lia|constructor]).
  destruct (fill_arr 32 super_load super_store super_fits buf e 0 [] 0 [md_super p] F0) as (b1 & s1 & -> & L1 & D1 & F1);
    [apply super_load_store|by constructor|lia|cbn; lia|]. cbn [length] in L1. bind_step.
  pose proof (bytes_of_words_length (sg_freelist (md_pools p))) as L2.
  edestruct (fill_put b1 e) as (b2 & -> & F2); [exact F1|lia..|]. bind_step.
  assert (length (htbl_header_store (sg_htbl_hdr (md_pools p))) = 8%nat) as L3.
  { unfold htbl_header_store. by rewrite length_app, !length_le. }
  edestruct (fill_put b2 e) as (b3 & -> & F3); [exact F2|lia..|]. bind_step.
  edestruct (fill_arr 16 htbl_entry_load htbl_entry_store hentry_fits b3 e) as (b4 & s4 & -> & L4 & D4 & F4);
    [exact F3|apply hentry_load_store|exact Ftf|lia..|]. bind_step.
  edestruct (fill_arr 160 pool_entry_load pool_entry_store pentry_fits b4 e) as (b5 & s5 & -> & L5 & D5 & F5);
    [exact F4|apply pentry_load_store|exact Fef|lia..|]. bind_step.
  edestruct (fill_arr 24 slab_header_load slab_header_store header_fits b5 e) as (b6 & s6 & -> & L6 & D6 & F6);
    [exact F5|apply header_load_store|exact Fhf|lia..|]. bind_step.
  edestruct (fill_put b6 e) as (b7 & -> & F7); [exact F6|rewrite ?length_le; lia..|]. bind_step.
  edestruct (fill_put b7 e) as (b8 & -> & F8); [exact F7|rewrite ?length_le; lia..|]. bind_step.
  edestruct (fill_put b8 e) as (b9 & -> & (Hl & _ & F9)); [exact F8|rewrite ?length_le; lia..|].
  exists b9. split; [done|]. split; [lia|]. rewrite !Forall_cons in F9.
  destruct F9 as ([G9 _] & [G8 _] & [G7 _] & [G6 _] & [G5 _] & [G4 _] & [G3 _] & [G2 _] & [G1 _] & _).
  rewrite L1 in G1. rewrite L2, Nat2Z.inj_mul, Fl in G2. rewrite L3 in G3. rewrite L4, Ft in G4.
  rewrite L5, Fe in G5. rewrite L6, Fhd in G6. rewrite !length_le in G7, G8, G9.
  unfold md_load, pool_sgmt_load, slabs_load, sizeof_super, sizeof_pool_htbl_header, sizeof_htbl_entry,
    sizeof_pool_entry, sizeof_slab_header.
  rewrite Ea, Eb, Eb8, Ec, Ed, En.
  change (Z.of_nat 32 * Z.of_nat 1) with 32 in G1. change (Z.of_nat 4) with 4 in *. change (Z.of_nat 8) with 8 in *.
  change (Z.of_nat 16) with 16 in *. change (Z.of_nat 160) with 160 in *. change (Z.of_nat 24) with 24 in *.
  rewrite G1, G2, G3, G4, G5, G6, G7, G8, G9. bind_step.
  rewrite <- Ft, <- Fe, <- Fhd, !Nat2Z.id, D4, D5, D6, words_of_bytes_of_words, htbl_header_load_store, !un_le_le
    by (done || unfold is_u32 in *; cbn [Z.of_nat Pos.of_succ_nat Pos.succ]; lia).
  destruct p as [sup [] []]; cbn in *. do 2 f_equal. 
  injection D1 as D1. rewrite drop_0, take_ge in D1 by lia. done.
Qed.
