(* ===== verification/Format.v ===== *)
(** * Format: what a formatted system looks like

    The segments that [fla_mkfs] fills, once laid under the typed pointers, and the
    state [ready] of a system in which no pool was created yet: every pool index is
    free, every slab is in the queue of free slabs and no freelist is cached. *)
From S2P Require Import Prelude Util Freelist Hash XnvmeEnv Flexalloc PoolEntry Geometry CommandSet.
From S2P Require Import SlabList SlabCache Slab Pool.

Record ready (U : list (list Z)) (fs : flexalloc) : Prop := {
  rd_dir : dir_inv U fs;
  rd_empty : dir fs = ∅;
  rd_pools : forall i, 0 <= i < g_npools (fs_geo fs) -> free_bit (ps_freelist (fs_pools fs)) i = true;
  rd_cns : cns_fs fs;
  rd_hdrs : hdrs_ok fs;
  rd_queue : edll (headers fs) (ss_fslab_head (fs_slabs fs)) (ss_fslab_tail (fs_slabs fs))
    (seqZ 0 (g_nslabs (fs_geo fs)));
  rd_num : ss_fslab_num (fs_slabs fs) = g_nslabs (fs_geo fs);
  rd_cache : forall x, 0 <= x < g_nslabs (fs_geo fs) ->
    cache_elem fs x = Some (mk_elem None FLA_SLAB_CACHE_ELEM_STALE);
  rd_stale : forall x el, cache_elem fs x = Some el -> ce_state el = FLA_SLAB_CACHE_ELEM_STALE
}.

(** A system without a pool at index 0 and with nothing cached: [free] are the free
    slabs. *)
Record vacant (U : list (list Z)) (fs : flexalloc) (free : list Z) : Prop := {
  va_dir : dir_inv U fs;
  va_first : free_bit (ps_freelist (fs_pools fs)) 0 = true;
  va_cns : cns_fs fs;
  va_hdrs : hdrs_ok fs;
  va_queue : edll (headers fs) (ss_fslab_head (fs_slabs fs)) (ss_fslab_tail (fs_slabs fs)) free;
  va_num : Z.of_nat (length free) <= ss_fslab_num (fs_slabs fs) <= g_nslabs (fs_geo fs);
  va_cache : forall x, 0 <= x < g_nslabs (fs_geo fs) -> exists el, cache_elem fs x = Some el;
  va_stale : forall x el, cache_elem fs x = Some el -> ce_state el = FLA_SLAB_CACHE_ELEM_STALE
}.

Lemma ready_vacant U fs : ready U fs -> vacant U fs (seqZ 0 (g_nslabs (fs_geo fs))).
Proof.
  intros [D _ Hp C Hh Hq Hn Hc Hs]. pose proof (wf_range _ _ (di_flist _ _ D)). pose proof (ho_range _ Hh).
  split; try done; [apply Hp; lia|rewrite length_seqZ, Hn; lia|intros x Hx; eexists; by apply Hc].
Qed.

Section fresh.
Context {W : Type} `{E : XnvmeEnv W}.
Context (U : list (list Z)) (HU : keys_ok U).

(** Initialising a freelist leaves 32-bit words. *)
Lemma reset_loop_u32 fuel : forall fl i last fl', reset_loop fuel fl i last = Some fl' -> Forall is_u32 fl -> Forall is_u32 fl'.
Proof using.
  induction fuel as [|fuel IH]; intros fl i last fl' Hr Hu; [done|]. cbn [reset_loop] in Hr.
  destruct (i =? last); [by injection Hr as <-|]. case_decide; [|done]. eapply IH; [exact Hr|].
  apply Forall_insert; [done|]. unfold is_u32. lia.
Qed.

Lemma flist_init_u32 fl len fl' : fla_flist_init fl len = Some fl' -> is_u32 len -> Forall is_u32 fl -> Forall is_u32 fl'.
Proof using.
  unfold fla_flist_init, fla_flist_reset. destruct fl as [|x fl]; [done|]. intros Hi Hl Hu. cbn [insert list_insert lookup list_lookup mbind option_bind] in Hi.
  assert (Forall is_u32 (len :: fl)) as Hu' by (apply Forall_cons in Hu as [_ Hu]; by constructor).
  destruct (reset_loop _ _ _ _) as [fl1|] eqn:Er; [|done]. pose proof (reset_loop_u32 _ _ _ _ _ Er Hu') as H1.
  cbn [mbind option_bind] in Hi. destruct (fl1 !! 0%nat) as [l|]; [|done]. cbn [mbind option_bind] in Hi.
  case_decide; [|done]. injection Hi as <-. apply Forall_insert; [done|]. unfold is_u32.
  rewrite Z.shiftr_div_pow2 by (apply u32_range). split; [apply Z.div_pos; [lia|]|].
  - apply Z.pow_pos_nonneg; [lia|apply u32_range].
  - apply Z.div_lt_upper_bound; [apply Z.pow_pos_nonneg; [lia|apply u32_range]|].
    pose proof (Z.pow_pos_nonneg 2 (u32 (u64 (u32 (FLA_FREELIST_U32_ELEMS len) * 4 * 8 - l))) ltac:(lia) (proj1 (u32_range _))).
    nia.
Qed.

Lemma mkfs_pools_spec fs t0 : 0 < g_npools (fs_geo fs) < 2 ^ 15 ->
  1 + FLA_FREELIST_U32_ELEMS (g_npools (fs_geo fs)) <= Z.of_nat (length (ps_freelist (fs_pools fs))) ->
  tbl (ps_htbl (fs_pools fs)) = Some t0 -> Z.of_nat (length t0) = htbl_tbl_size (g_pool_sgmt (fs_geo fs)) ->
  exists fl t, fla_mkfs_pool_sgmt_init fs (fs_geo fs) =
      Some (set_pools (mk_pools fl t (mk_htbl_hdr (htbl_tbl_size (g_pool_sgmt (fs_geo fs))) 0)
              (replicate (length (ps_entries (fs_pools fs))) (mk_pool_entry 0 0 0 0 0 0 0 0 (replicate 112 0)))
              (ps_entrie_funcs (fs_pools fs))) fs) /\
    flist_wf fl (g_npools (fs_geo fs)) /\ length fl = length (ps_freelist (fs_pools fs)) /\
    (Forall is_u32 (ps_freelist (fs_pools fs)) -> Forall is_u32 fl) /\
    (forall i, 0 <= i < g_npools (fs_geo fs) -> free_bit fl i = true) /\
    tbl t = Some (replicate (Z.to_nat (htbl_tbl_size (g_pool_sgmt (fs_geo fs)))) (mk_entry FLA_HTBL_ENTRY_UNSET 0 0)).
Proof using.
  intros Hnp Hfit Ht Hlen.
  destruct (flist_init_spec _ (g_npools (fs_geo fs)) ltac:(lia) Hfit) as (fl & Hfl & Hwf & ? & Hfree).
  assert (Forall is_u32 (ps_freelist (fs_pools fs)) -> Forall is_u32 fl).
  { apply (flist_init_u32 _ _ _ Hfl). unfold is_u32. lia. }
  unfold fla_mkfs_pool_sgmt_init. rewrite Hfl. bind_step.
  rewrite Ht. bind_step. unfold fla_htbl_entries_init. rewrite decide_True by lia.
  bind_step. rewrite drop_ge, app_nil_r by lia. by do 2 eexists.
Qed.

(** A table of unset slots is empty. *)
Lemma empty_table size t : 0 < size < 2 ^ 16 ->
  tbl t = Some (replicate (Z.to_nat size) (mk_entry FLA_HTBL_ENTRY_UNSET 0 0)) ->
  tbl_size t = size -> len t = 0 -> htbl_repr U t ∅.
Proof using.
  intros Hs Ht Hsz Hl. split.
  - split; [lia|]. eexists. split; [exact Ht|].
    rewrite length_replicate, filter_occ_unset, Hsz. split; [lia|]. split; [|done]. apply tbl_inv_empty. lia.
  - unfold htbl_map, slots_map. rewrite Ht. cbn. by rewrite filter_occ_unset.
Qed.

(** [fla_pool_init] installs the default functions for the entries it is shown. *)
Lemma install_list l : forall found pools,
  (forall i, i ∈ l -> 0 <= i < Z.of_nat (length (ps_entries pools)) /\ 0 <= i < Z.of_nat (length (ps_entrie_funcs pools))) ->
  exists funcs, search_list fla_pool_initialize_entrie_func l found pools =
      Some (SearchGo found (set_entrie_funcs funcs pools)) /\
    length funcs = length (ps_entrie_funcs pools) /\
    forall i, lookupZ funcs i = if decide (i ∈ l) then Some fnc_default else lookupZ (ps_entrie_funcs pools) i.
Proof using.
  induction l as [|j l IH]; intros found pools Hl.
  - exists (ps_entrie_funcs pools). split; [by destruct pools|]. split; [done|]. intros i.
    by rewrite decide_False by apply not_elem_of_nil.
  - cbn [search_list]. destruct (Hl j) as [He Hf]; [by left|].
    set (pools1 := set_entrie_funcs (insertZ j fnc_default (ps_entrie_funcs pools)) pools).
    assert (fla_pool_initialize_entrie_func j pools = Some (0, pools1)) as ->.
    { unfold fla_pool_initialize_entrie_func, fla_pool_initialize_entrie_func_, FLA_POOL_ENTRY_STRP.
      destruct (lookupZ_is_Some _ _ He) as [e ->], (lookupZ_is_Some _ _ Hf) as [f ->]. bind_step. by rewrite Z.land_0_r. }
    bind_step. change (u32 0 =? 1) with false. change (u32 0 =? 0) with true. cbv iota.
    destruct (IH found pools1) as (funcs & -> & Hlen & Hlk).
    { intros i Hi. cbn. rewrite length_insertZ. apply Hl. by right. }
    exists funcs. split; [done|]. split; [by rewrite Hlen; cbn; rewrite length_insertZ|]. intros i. rewrite Hlk. cbn.
    destruct (decide (i ∈ l)) as [Hin|Hni]; [by rewrite decide_True by (by right)|].
    destruct (decide (j = i)) as [<-|Hne].
    + rewrite decide_True by (by left). by apply lookupZ_insertZ_eq.
    + rewrite lookupZ_insertZ_ne, decide_False; [done| |done]. intros [->|?]%elem_of_cons; done.
Qed.

(** The functions of the entries in use, as far as the search goes. *)
Definition funcs_ok (fl : list Z) (np : Z) (funcs : list fla_pool_entry_fnc) : Prop :=
  Z.of_nat (length funcs) = np /\
  forall i, 0 <= i < search_limit np -> free_bit fl i = false -> lookupZ funcs i = Some fnc_default.

(** A freelist that was formatted, or the zeros before that. *)
Definition flist_readable (fl : list Z) (np : Z) : Prop := flist_wf fl np \/ fl !! 0%nat = Some 0.

Lemma pool_init_spec w fs geo sg : 0 <= g_npools geo -> flist_readable (sg_freelist sg) (g_npools geo) ->
  Z.of_nat (length (sg_entries sg)) = g_npools geo ->
  let h := ps_htbl (fs_pools fs) in
  let htbl := mk_htbl (Some (sg_table sg)) (hh_size (sg_htbl_hdr sg)) (hh_len (sg_htbl_hdr sg))
                (stat_insert_calls h) (stat_insert_failed h) (stat_insert_tries h) in
  exists w' ok funcs err, malloc w (24 * g_npools geo) = (w', ok) /\
    fla_pool_init w fs geo sg = Some (w', set_pools (mk_pools (sg_freelist sg) htbl (sg_htbl_hdr sg) (sg_entries sg) funcs) fs, err) /\
    (if ok then err = 0 /\ Z.of_nat (length funcs) = g_npools geo /\
       (flist_wf (sg_freelist sg) (g_npools geo) -> funcs_ok (sg_freelist sg) (g_npools geo) funcs)
     else err = - ENOMEM).
Proof using.
  intros Hnp Hfl Hes h htbl. unfold fla_pool_init. destruct (malloc w (24 * g_npools geo)) as [w' ok] eqn:Em.
  fold h htbl. exists w', ok. destruct ok; [|by do 2 eexists].
  set (pools0 := mk_pools _ _ _ _ (replicate _ fnc_unset)).
  destruct Hfl as [Hwf|H0].
  - rewrite (search_wfunc_spec _ _ (g_npools geo)) by done.
    destruct (install_list (zeros (free_bit (sg_freelist sg)) 0 (Z.to_nat (search_limit (g_npools geo)))) 0 pools0)
      as (funcs & -> & Hlen & Hlk).
    { intros i [Hi _]%zeros_elem. cbn. rewrite length_replicate, Hes. unfold search_limit in Hi. flist_facts.
      pose proof (Z.div_mod (g_npools geo) 32). pose proof (Z.mod_pos_bound (g_npools geo) 32). lia. }
    cbn in Hlen. rewrite length_replicate in Hlen. exists funcs, 0. split; [done|]. split; [done|]. split; [done|].
    split; [lia|]. intros _. split; [lia|]. intros i Hi Hf. rewrite Hlk, decide_True; [done|].
    apply zeros_elem. split; [lia|done].
  - unfold fla_flist_search_wfunc. rewrite H0. bind_step.
    change (Z.land FLA_FLIST_SEARCH_EXEC_FIRST FLA_FLIST_SEARCH_EXEC_FIRST =? 0) with false. cbv iota.
    change (Z.to_nat (u32 (FLA_FREELIST_U32_ELEMS 0))) with O. cbn [search_words mbind option_bind].
    do 2 eexists. split; [done|]. split; [done|]. split; [done|]. split; [rewrite length_replicate; lia|].
    intros Hwf. pose proof (wf_len _ _ Hwf). pose proof (wf_range _ _ Hwf). assert (g_npools geo = 0) by congruence. lia.
Qed.

Lemma cache_init_spec w fs : fs_cache fs = None -> exists w' ok, malloc w (s_nslabs (fs_super fs) * 16) = (w', ok) /\
  fla_slab_cache_init w fs =
    if ok then (w', set_cache (Some (replicate (Z.to_nat (s_nslabs (fs_super fs)))
                      (mk_elem None FLA_SLAB_CACHE_ELEM_STALE))) fs, 0)
    else (w', fs, - ENOMEM).
Proof using.
  intros Hc. unfold fla_slab_cache_init. rewrite Hc.
  destruct (malloc w (s_nslabs (fs_super fs) * 16)) as [w' ok]. by exists w', ok.
Qed.

(** The parts put together. *)
Lemma ready_build fs geo fl t es fncs hs num head tail dev st super cs :
  let n := g_nslabs geo in
  fs = mk_fs dev st (Some (replicate (Z.to_nat n) (mk_elem None FLA_SLAB_CACHE_ELEM_STALE))) geo super
         (mk_pools fl t (mk_htbl_hdr (htbl_tbl_size (g_pool_sgmt geo)) 0) es fncs) (mk_slabs hs num head tail) cs ->
  cns_fs fs -> hdrs_ok fs -> edll hs head tail (seqZ 0 n) -> num = n ->
  htbl_repr U t ∅ -> flist_wf fl (g_npools geo) -> (forall i, 0 <= i < g_npools geo -> free_bit fl i = true) ->
  Z.of_nat (length es) = g_npools geo -> Z.of_nat (length fncs) = g_npools geo ->
  (forall e, e ∈ es -> Z.of_nat (length (pe_name e)) = FLA_NAME_SIZE_POOL) -> ready U fs.
Proof using HU.
  intros n -> C Hh Hq Hnum [Ht Hm] Hfl Hfree Hes Hfn Hnames. split; try done.
  - split; try done; unfold pool_entry_at; cbn.
    + intros ndx e He. apply Hnames. unfold lookupZ in He. case_match; [done|]. by eapply list_elem_of_lookup_2.
    + intros h ndx. rewrite Hm. done.
    + intros h h' ndx. rewrite Hm. done.
  - intros x Hx. unfold cache_elem. cbn in *. unfold lookupZ. destruct (Z.ltb_spec x 0); [lia|].
    apply lookup_replicate_2. unfold n. lia.
  - intros x el. unfold cache_elem. cbn. unfold lookupZ. destruct (x <? 0); [done|].
    intros [-> _]%lookup_replicate. done.
Qed.

End fresh.
