(* ===== verification/System.v ===== *)
(** * System: creating, opening, flushing and closing, [src/src/flexalloc_mm.c]

    [fla_mkfs] computes the geometry of a device, fills a metadata buffer and writes
    it to the first blocks; [fla_open] reads the super block, recomputes the
    geometry, reads the metadata and lays the typed pointers over it; [fla_flush]
    writes the dirty freelists and the metadata buffer back.

    An open system is a [handle]: the typed parts, the installed data placement and
    the metadata buffer, whose bytes outside the typed parts are kept.  Memory that
    is released is not modelled, nor is the closing of devices. *)
From S2P Require Import Prelude Util Freelist Hash XnvmeEnv Flexalloc PoolEntry Geometry CommandSet.
From S2P Require Import SlabList SlabCache Slab Pool DataPlacement Layout Format.

(** ** The typed parts of the buffer *)

(** What the typed pointers of a handle lead to. *)
Definition md_of (fs : flexalloc) : option md_parts :=
  table ← tbl (ps_htbl (fs_pools fs));
  Some (mk_md (fs_super fs)
          (mk_segment (ps_freelist (fs_pools fs)) (ps_htbl_hdr (fs_pools fs)) table (ps_entries (fs_pools fs)))
          (fs_slabs fs)).

Definition set_super (s : fla_super) (fs : flexalloc) : flexalloc :=
  mk_fs (fs_dev fs) (fs_state fs) (fs_cache fs) (fs_geo fs) s (fs_pools fs) (fs_slabs fs) (fs_cs fs).
Definition set_state (st : Z) (fs : flexalloc) : flexalloc :=
  mk_fs (fs_dev fs) st (fs_cache fs) (fs_geo fs) (fs_super fs) (fs_pools fs) (fs_slabs fs) (fs_cs fs).
Definition set_htbl_hdr (h : fla_pool_htbl_header) (p : fla_pools) : fla_pools :=
  mk_pools (ps_freelist p) (ps_htbl p) h (ps_entries p) (ps_entrie_funcs p).

(** A handle of zeros on a device: what [fla_fs_alloc] returns, with the device that
    [fla_init] assigns first. *)
Definition fs_zero (dev : xnvme_dev) (md_dev : option xnvme_dev) : flexalloc :=
  mk_fs (mk_fla_dev dev md_dev (fla_xne_dev_lba_nbytes dev)) 0 None
    (mk_geo 0 0 0 0 0 0 (mk_pool_sgmt 0 0 0 0) (mk_slab_sgmt 0)) (mk_super 0 0 0 0 0 0)
    (mk_pools [] (mk_htbl None 0 0 0 0 0) (mk_htbl_hdr 0 0) [] []) (mk_slabs [] 0 0 0) (mk_cs None None).
Definition dp_zero : fla_dp := mk_dp FLA_DP_FDP None None.

Definition set_geo (g : fla_geo) (fs : flexalloc) : flexalloc :=
  mk_fs (fs_dev fs) (fs_state fs) (fs_cache fs) g (fs_super fs) (fs_pools fs) (fs_slabs fs) (fs_cs fs).

Definition sizeof_flexalloc : Z := 432.

Record handle := mk_handle { h_fs : flexalloc; h_dp : fla_dp; h_buf : list Z }.

(** ** Operations *)

Definition fla_dev_sanity_check (dev : xnvme_dev) (md_dev : option xnvme_dev) : Z :=
  let err := if fla_xne_dev_mdts_nbytes dev <=? FLA_MDTS_MIN_NBYTES then 1 else 0 in
  match md_dev with
  | None => err
  | Some md =>
      let err := Z.lor err (if fla_xne_dev_mdts_nbytes md <=? FLA_MDTS_MIN_NBYTES then 1 else 0) in
      Z.lor err (if fla_xne_dev_lba_nbytes md =? fla_xne_dev_lba_nbytes dev then 0 else 1)
  end.

Definition fla_mkfs_super_init (fs : flexalloc) (geo : fla_geo) : flexalloc :=
  set_super (mk_super FLA_MAGIC (g_nslabs geo) (g_slab_nlb geo) (g_npools geo) (g_md_nlb geo) FLA_FMT_VER) fs.

Section system.
Context {W : Type} `{XnvmeEnv W} `{XnvmeAdm W}.

(** [struct fla_open_opts] and [struct fla_mkfs_p]; [None] is [NULL]. *)
Record fla_open_opts := mk_open_opts { oo_dev_uri : list Z; oo_md_dev_uri : option (list Z); oo_opts : option xnvme_opts }.
Record fla_mkfs_p := mk_mkfs_p { mp_open_opts : fla_open_opts; mp_slab_nlb : Z; mp_npools : Z }.

Definition fla_fs_alloc (w : W) : W * bool := malloc w sizeof_flexalloc.

(** [fla_init]: [fs] and [dp] are the handle as it was allocated. *)
Definition fla_init (w : W) (geo : fla_geo) (dev : xnvme_dev) (md_dev : option xnvme_dev) (buf : list Z)
    (dp : fla_dp) : option (W * flexalloc * fla_dp * Z) :=
  super ← buf_get buf 0 sizeof_super;
  let fs := set_super (super_load super) (set_geo geo (fs_zero dev md_dev)) in
  sg ← pool_sgmt_load geo buf;
  '(w, fs, err) ← fla_pool_init w fs geo sg;
  if negb (err =? 0) then Some (w, fs, dp, err) else
  slabs ← slabs_load geo buf;
  let fs := set_slabs slabs fs in
  '(w, dp, err) ← fla_init_dp w dev geo dp;
  if negb (err =? 0) then Some (w, fs, dp, err) else
  let '(w, fs, err) := fla_init_cs w fs in
  Some (w, fs, dp, err).

(** The part of [fla_mkfs] after the geometry: [md] is the device that gets the
    metadata.  [junk] is what the handles and the identifier that the preparation
    might read hold, none of them initialised. *)
Definition mkfs_write (w : W) (geo : fla_geo) (dev md : xnvme_dev) (junk : fla_pool * fla_object * Z) :
    option (W * Z) :=
  let '(w, ok) := fla_fs_alloc w in
  if negb ok then Some (w, - ENOMEM) else
  let len := fla_geo_nbytes geo in
  let '(w, buf) := fla_xne_alloc_buf w md len in
  match buf with
  | None => Some (w, - ENOMEM)
  | Some _ =>
      let buf := replicate (Z.to_nat len) 0 in
      '(w, fs, dp, err) ← fla_init w geo dev None buf dp_zero;
      if negb (err =? 0) then Some (w, err) else
      fs ← fla_mkfs_pool_sgmt_init fs geo;
      fs ← fla_mkfs_slab_sgmt_init fs geo;
      let fs := fla_mkfs_super_init fs geo in
      p ← md_of fs;
      buf ← md_store geo (fslab_end_mkfs geo) p buf;
      let range := fla_xne_lba_range_from_offset_nbytes md FLA_SUPER_SLBA len in
      if negb (r_is_valid range) then Some (w, 1) else
      '(w, _, _, err) ← dp_prep_ctx w dp (mk_io FLA_IO_MD_WRITE md junk.1.1 junk.1.2) (mk_ctx 0 0) junk.2;
      fla_xne_sync_seq_w_xneio (Some (fun w => (w, err))) w range md buf
  end.

(** [geo0] and [md_geo0] are the uninitialised structures. *)
Definition fla_mkfs (w : W) (p : fla_mkfs_p) (geo0 md_geo0 : fla_geo) (junk : fla_pool * fla_object * Z) :
    option (W * Z) :=
  let '(w, dev, err) := fla_xne_dev_open w (oo_dev_uri (mp_open_opts p)) None in
  if negb (err =? 0) then Some (w, -1) else
  dev ← dev;
  let '(w, md_dev, err) := fla_xne_dev_mkfs_prepare w dev (oo_md_dev_uri (mp_open_opts p)) in
  if negb (err =? 0) then Some (w, err) else
  let err := fla_dev_sanity_check dev md_dev in
  if negb (err =? 0) then Some (w, err) else
  let err := match md_dev with
             | Some md => if fla_xne_dev_lba_nbytes md =? fla_xne_dev_lba_nbytes dev then 0 else 1
             | None => 0
             end in
  if negb (err =? 0) then Some (w, err) else
  '(geo, err) ← fla_mkfs_geo_calc dev md_dev (mp_npools p) (mp_slab_nlb p) geo0 md_geo0;
  if negb (err =? 0) then Some (w, err) else
  mkfs_write w geo dev (default dev md_dev) junk.

(** [*super] in the result, [None] when the call failed. *)
Definition fla_super_read (w : W) (dev : xnvme_dev) (lb_nbytes : Z) : option (W * option fla_super * Z) :=
  let '(w, super) := fla_xne_alloc_buf w dev lb_nbytes in
  match super with
  | None => Some (w, None, - ENOMEM)
  | Some _ =>
      let range := fla_xne_lba_range_from_offset_nbytes dev 0 lb_nbytes in
      if negb (r_is_valid range) then Some (w, None, 1) else
      '(w, err, data) ← fla_xne_sync_seq_r_xneio w range dev (replicate (Z.to_nat lb_nbytes) 0);
      if negb (err =? 0) then Some (w, None, err) else
      bytes ← buf_get data 0 sizeof_super;
      let super := super_load bytes in
      if negb (s_magic super =? FLA_MAGIC) then Some (w, None, 22) else Some (w, Some super, 0)
  end.

(** The part of [fla_open] from the super block on: [md_dev] is [None] when the
    metadata is on the device itself. *)
Definition open_metadata (w : W) (opts : fla_open_opts) (dev : xnvme_dev) (md_dev : option xnvme_dev) :
    option (W * option handle * Z) :=
  let md := default dev md_dev in
  '(w, super, err) ← fla_super_read w md (fla_xne_dev_lba_nbytes dev);
  if negb (err =? 0) then Some (w, None, err) else
  super ← super;
  geo ← fla_geo_from_super dev super;
  let len := fla_geo_nbytes geo in
  let '(w, buf) := fla_xne_alloc_buf w md len in
  match buf with
  | None => Some (w, None, - ENOMEM)
  | Some _ =>
      let range := fla_xne_lba_range_from_offset_nbytes md 0 len in
      if negb (r_is_valid range) then Some (w, None, 1) else
      '(w, err, buf) ← fla_xne_sync_seq_r_xneio w range md (replicate (Z.to_nat len) 0);
      if negb (err =? 0) then Some (w, None, err) else
      '(w, fs, dp, err) ← fla_init w geo dev md_dev buf dp_zero;
      if negb (err =? 0) then Some (w, None, err) else
      let '(w, fs, err) := fla_slab_cache_init w fs in
      if negb (err =? 0) then Some (w, None, err) else
      uri_len ← strlen (oo_dev_uri opts);
      let '(w, ok) := malloc w (Z.of_nat uri_len + 1) in
      if negb ok then Some (w, None, - ENOMEM) else
      '(w, ok) ← match md_dev, oo_md_dev_uri opts with
                 | Some _, Some uri => n ← strlen uri; Some (malloc w (Z.of_nat n + 1))
                 | _, _ => Some (w, true)
                 end;
      if negb ok then Some (w, None, - ENOMEM) else
      Some (w, Some (mk_handle (set_state (Z.lor (fs_state fs) FLA_STATE_OPEN) fs) dp buf), 0)
  end.

Definition fla_open (w : W) (opts : fla_open_opts) : option (W * option handle * Z) :=
  let '(w, ok) := fla_fs_alloc w in
  if negb ok then Some (w, None, - ENOMEM) else
  let '(w, dev, err) := fla_xne_dev_open w (oo_dev_uri opts) (oo_opts opts) in
  if negb (err =? 0) then Some (w, None, err) else
  dev ← dev;
  let '(w, md_dev, err) := match oo_md_dev_uri opts with
                           | Some uri => fla_xne_dev_open w uri None
                           | None => (w, None, 0)
                           end in
  if negb (err =? 0) then Some (w, None, err) else
  let err := fla_dev_sanity_check dev (Some (default dev md_dev)) in
  if negb (err =? 0) then Some (w, None, err) else
  open_metadata w opts dev md_dev.

(** [fla_flush]: the write has no preparation function. *)
Definition fla_flush (w : W) (h : handle) : option (W * handle * Z) :=
  let fs := h_fs h in
  if Z.land (fs_state fs) FLA_STATE_OPEN =? 0 then Some (w, h, 0) else
  let md_dev := flist_dev fs in
  '(w, fs, err) ← fla_slab_cache_flush w fs;
  if negb (err =? 0) then Some (w, mk_handle fs (h_dp h) (h_buf h), err) else
  let hdr := mk_htbl_hdr (hh_size (ps_htbl_hdr (fs_pools fs))) (len (ps_htbl (fs_pools fs))) in
  let fs := set_pools (set_htbl_hdr hdr (fs_pools fs)) fs in
  p ← md_of fs;
  buf ← md_store (fs_geo fs) (fslab_end (fs_geo fs)) p (h_buf h);
  let h := mk_handle fs (h_dp h) buf in
  let range := fla_xne_lba_range_from_slba_naddrs md_dev FLA_SUPER_SLBA (fla_geo_nblocks (fs_geo fs)) in
  if negb (r_is_valid range) then Some (w, h, 1) else
  '(w, err) ← fla_xne_sync_seq_w_xneio None w range md_dev buf;
  Some (w, h, err).

(** The command set's and the data placement's state and the cache are gone. *)
Definition fla_close_noflush (h : handle) : option handle :=
  if Z.land (fs_state (h_fs h)) FLA_STATE_OPEN =? 0 then Some h else
  let fs := set_state (Z.land (fs_state (h_fs h)) (not32 FLA_STATE_OPEN)) (h_fs h) in
  cs ← cs_fncs (fs_cs fs);
  let fs := match cs with
            | FLA_CS_ZNS => fst (fla_cs_zns_fini fs)
            | FLA_CS_CNS => fst (fla_cs_cns_fini fs)
            end in
  let dp := match dp_type (h_dp h) with FLA_DP_FDP => fst (fla_dp_fdp_fini (h_dp h)) | _ => h_dp h end in
  Some (mk_handle (fla_slab_cache_free fs) dp (h_buf h)).

Definition fla_base_close (w : W) (h : handle) : option (W * handle * Z) :=
  '(w, h, err) ← fla_flush w h;
  if negb (err =? 0) then Some (w, h, err) else h ← fla_close_noflush h; Some (w, h, 0).

Definition fla_base_sync (w : W) (h : handle) : option (W * handle * Z) := fla_flush w h.
End system.

(** ** Initialisation of a handle *)

(** The handle on [dev] whose metadata is [p], before the cache is set up. *)
Definition opened_fs (dev : xnvme_dev) (geo : fla_geo) (p : md_parts) (funcs : list fla_pool_entry_fnc) : flexalloc :=
  mk_fs (mk_fla_dev dev None (fla_xne_dev_lba_nbytes dev)) 0 None geo (md_super p)
    (mk_pools (sg_freelist (md_pools p))
       (mk_htbl (Some (sg_table (md_pools p))) (hh_size (sg_htbl_hdr (md_pools p))) (hh_len (sg_htbl_hdr (md_pools p))) 0 0 0)
       (sg_htbl_hdr (md_pools p)) (sg_entries (md_pools p)) funcs)
    (md_slabs p) (mk_cs (Some FLA_CS_CNS) None).

(** The preparations that can be installed. *)
Definition dp_installed (dp : fla_dp) : Prop :=
  dp_prep dp = Some prep_dp_noop \/ dp_prep dp = Some prep_fdp_onwrite.

Section specs.
Context {W : Type} `{E : XnvmeEnv W} `{A : XnvmeAdm W} (block : W -> xnvme_dev -> Z -> list Z).
Context `{!XnvmeLaws W block} `{!XnvmeAdmLaws W block}.

Lemma same_blocks_trans w1 w2 w3 : same_blocks block w1 w2 -> same_blocks block w2 w3 -> same_blocks block w1 w3.
Proof using. intros H1 H2 dev lba. by rewrite H2. Qed.

Lemma init_spec w geo dev buf dp p : fla_xne_dev_type dev = XNVME_GEO_CONVENTIONAL -> 0 <= g_npools geo ->
  md_load geo buf = Some p -> flist_readable (sg_freelist (md_pools p)) (g_npools geo) ->
  Z.of_nat (length (sg_entries (md_pools p))) = g_npools geo ->
  exists w' fs dp' err, fla_init w geo dev None buf dp = Some (w', fs, dp', err) /\ same_blocks block w w' /\
    (err = 0 -> dp_installed dp' /\ exists funcs, fs = opened_fs dev geo p funcs /\
       Z.of_nat (length funcs) = g_npools geo /\
       (flist_wf (sg_freelist (md_pools p)) (g_npools geo) -> funcs_ok (sg_freelist (md_pools p)) (g_npools geo) funcs)).
Proof using All.
  intros Hc Hnp Hmd Hfl Hes. unfold md_load in Hmd.
  destruct (buf_get buf 0 sizeof_super) as [sb|] eqn:Es; [|done].
  destruct (pool_sgmt_load geo buf) as [sg|] eqn:Ep; [|done]. destruct (slabs_load geo buf) as [sl|] eqn:El; [|done].
  injection Hmd as <-. cbn [md_pools md_slabs md_super] in *. unfold fla_init. rewrite Es, Ep. bind_step.
  set (fs0 := set_super _ _).
  destruct (pool_init_spec w fs0 geo sg Hnp Hfl Hes) as (w1 & ok & funcs & err & Em & -> & Hok). bind_step.
  pose proof (malloc_same block _ _ _ _ Em) as H1.
  destruct ok; [destruct Hok as (-> & Hlen & Hfn)|subst err; cbn; do 4 eexists; split; [done|]; split; [done|]; by intros].
  no_err. rewrite El. bind_step.
  destruct (init_dp_spec block w1 dev geo dp) as (w2 & dp2 & err2 & -> & H2 & Hdp). bind_step.
  pose proof (same_blocks_trans _ _ _ H1 H2) as H12.
  destruct (Z.eqb_spec err2 0) as [->|]; cbn [negb]; [|do 4 eexists; split; [done|]; by split].
  unfold fla_init_cs, fla_cs_type. cbn [fs_dev set_slabs set_pools d_dev fs0 set_super set_geo fs_zero]. rewrite Hc.
  cbn. do 4 eexists. split; [done|]. split; [done|]. intros _.
  split; [destruct (Hdp eq_refl) as [[_ ?]|[_ ?]]; [by left|by right]|]. by exists funcs.
Qed.

(** ** Formatting *)

(** A buffer of zeros. *)
Lemma words_zero n : words_of_bytes (replicate (4 * n) 0) = replicate n 0.
Proof using.
  induction n as [|n IH]; [done|]. replace (4 * S n)%nat with (S (S (S (S (4 * n))))) by lia. cbn [replicate words_of_bytes].
  by rewrite IH.
Qed.

Lemma buf_get_zero n off k : 0 <= off -> 0 <= k -> off + k <= n ->
  buf_get (replicate (Z.to_nat n) 0) off k = Some (replicate (Z.to_nat k) 0).
Proof using.
  intros. rewrite buf_get_some by (rewrite ?length_replicate; lia). f_equal. rewrite drop_replicate, take_replicate.
  f_equal. lia.
Qed.

Lemma length_arr_load {X} sz (ld : list Z -> X) bs n : length (arr_load sz ld bs n) = n.
Proof using. unfold arr_load. by rewrite length_fmap, length_seq. Qed.

(** Slab ids stay below the list terminator. *)
Lemma nslabs_bound geo : geo_ok geo -> 0 < g_nslabs geo < FLA_LINKED_LIST_NULL.
Proof using.
  intros G. destruct (geo_parts_nonneg geo G) as (? & ? & ? & ?). pose proof (go_fits _ G) as Hf.
  pose proof (go_nlb _ G). pose proof (go_nslabs _ G). pose proof (go_slab _ G). pose proof (go_md _ G) as [_ Hm].
  pose proof (go_lb _ G). unfold sizeof_super in Hm. pose proof (Z.mul_le_mono_nonneg_l 1 (g_slab_nlb geo) (g_nslabs geo)).
  assert (0 < g_md_nlb geo) by nia. unfold FLA_LINKED_LIST_NULL. lia.
Qed.

Lemma flist_elems_nonneg n : 0 <= FLA_FREELIST_U32_ELEMS n.
Proof using. unfold FLA_FREELIST_U32_ELEMS. apply Z.div_pos; [apply u64_range|lia]. Qed.

Lemma zero_md geo : geo_ok geo -> md_small geo ->
  exists p, md_load geo (replicate (Z.to_nat (fla_geo_nbytes geo)) 0) = Some p /\
    sg_freelist (md_pools p) = replicate (Z.to_nat (freelist_words geo)) 0 /\
    1 + FLA_FREELIST_U32_ELEMS (g_npools geo) <= freelist_words geo /\
    Z.of_nat (length (sg_table (md_pools p))) = htbl_tbl_size (g_pool_sgmt geo) /\
    Z.of_nat (length (sg_entries (md_pools p))) = g_npools geo /\
    Z.of_nat (length (ss_headers (md_slabs p))) = g_nslabs geo.
Proof using.
  intros G S. destruct (layout_bounds geo G S) as (a & b & c & d & e & [Ea Eb Eb8 Ec Ed [En _] Ee Ord]).
  pose proof (go_npools _ G). pose proof (go_pools _ G) as [[Hf0 Hf] _ _ Ht _]. pose proof (go_lb _ G).
  assert (1 + FLA_FREELIST_U32_ELEMS (g_npools geo) <= freelist_words geo) as Hw.
  { pose proof (nslabs_bound geo G) as Hb. unfold FLA_LINKED_LIST_NULL in Hb.
    unfold freelist_words. rewrite <- flist_size_words by lia. apply Z.div_le_mono; lia. }
  pose proof (flist_elems_nonneg (g_npools geo)).
  unfold md_load, pool_sgmt_load, slabs_load, sizeof_super, sizeof_pool_htbl_header, sizeof_htbl_entry,
    sizeof_pool_entry, sizeof_slab_header. rewrite Ea, Eb, Eb8, Ec, Ed, En, Ee.
  rewrite !buf_get_zero by lia. bind_step. eexists. split; [done|]. cbn [md_pools md_slabs sg_freelist sg_table sg_entries ss_headers].
  rewrite !length_arr_load, !Z2Nat.id by lia. split; [|done].
  replace (Z.to_nat (4 * freelist_words geo)) with (4 * Z.to_nat (freelist_words geo))%nat by lia. apply words_zero.
Qed.

(** The geometry is one of the device. *)
Record dev_for (dev : xnvme_dev) (geo : fla_geo) : Prop := {
  df_dev : dev_ok dev;
  df_type : fla_xne_dev_type dev = XNVME_GEO_CONVENTIONAL;
  df_lba : dev_lba dev = g_lb_nbytes geo;
  df_nlb : dev_nlb dev = g_nlb geo
}.

Lemma nbytes_eq geo : geo_ok geo -> md_small geo -> fla_geo_nbytes geo = fla_geo_nblocks geo * g_lb_nbytes geo /\
  0 < fla_geo_nblocks geo <= g_nlb geo.
Proof using.
  intros G S. pose proof (geo_nblocks_eq geo G) as Hb. destruct (geo_parts_nonneg geo G) as (? & ? & ? & ?).
  pose proof (go_fits _ G) as Hf. pose proof (go_lb _ G). unfold md_small in S. unfold slabs_base in Hb.
  pose proof (go_md _ G) as [_ Hm]. unfold sizeof_super in Hm. assert (0 < g_md_nlb geo) by nia. split; [|lia].
  unfold fla_geo_nbytes. apply u64_small. unfold is_u64. nia.
Qed.

(** The blocks of the metadata as a range of the device. *)
Lemma md_range dev geo n : dev_for dev geo -> geo_ok geo -> 0 < n <= g_nlb geo ->
  let r := xnvme_lba_range_from_offset_nbytes dev 0 (n * g_lb_nbytes geo) in
  r_is_valid r = true /\ r = range_of 0 n dev.
Proof using All.
  intros [Hd _ Hl Hn] G Hr r. pose proof (do_lba _ Hd). unfold dev_nlb in Hn. rewrite Hl in *.
  pose proof (go_lb _ G). pose proof (Z.mul_div_le (geo_tbytes (xnvme_dev_get_geo dev)) (g_lb_nbytes geo)).
  assert (n * g_lb_nbytes geo <= g_nlb geo * g_lb_nbytes geo) by (apply Z.mul_le_mono_nonneg_r; lia).
  assert (0 < n * g_lb_nbytes geo) by (apply Z.mul_pos_pos; lia).
  assert (r_is_valid r = true) as Hv.
  { apply range_offset_valid; rewrite ?Hl; try lia; [by apply Z.mod_0_l; lia|by apply Z_mod_mult]. }
  split; [done|]. destruct (range_offset dev 0 (n * g_lb_nbytes geo)) as (_ & _ & _ & Eq); rewrite ?Hl; try done; try lia.
  unfold r. rewrite Eq, Hl, Z.div_0_l, Z.div_mul by lia. unfold range_of. rewrite Hl. f_equal; lia.
Qed.

(** What formatting puts in the metadata. *)
Record fresh_md (geo : fla_geo) (p : md_parts) : Prop := {
  fm_super : md_super p = mk_super FLA_MAGIC (g_nslabs geo) (g_slab_nlb geo) (g_npools geo) (g_md_nlb geo) FLA_FMT_VER;
  fm_flist : flist_wf (sg_freelist (md_pools p)) (g_npools geo);
  fm_free : forall i, 0 <= i < g_npools geo -> free_bit (sg_freelist (md_pools p)) i = true;
  fm_hdr : sg_htbl_hdr (md_pools p) = mk_htbl_hdr (htbl_tbl_size (g_pool_sgmt geo)) 0;
  fm_table : sg_table (md_pools p) =
    replicate (Z.to_nat (htbl_tbl_size (g_pool_sgmt geo))) (mk_entry FLA_HTBL_ENTRY_UNSET 0 0);
  fm_entries : sg_entries (md_pools p) =
    replicate (Z.to_nat (g_npools geo)) (mk_pool_entry 0 0 0 0 0 0 0 0 (replicate 112 0));
  fm_headers : Z.of_nat (length (ss_headers (md_slabs p))) = g_nslabs geo;
  fm_queue : edll (ss_headers (md_slabs p)) (ss_fslab_head (md_slabs p)) (ss_fslab_tail (md_slabs p))
    (seqZ 0 (g_nslabs geo));
  fm_num : ss_fslab_num (md_slabs p) = g_nslabs geo
}.

(** The initialisation of the two segments and the super block on a handle over a
    buffer of zeros. *)
Lemma mkfs_parts dev geo p0 funcs : geo_ok geo -> g_npools geo < 2 ^ 15 -> g_slab_nlb geo < 2 ^ 32 ->
  sg_freelist (md_pools p0) = replicate (Z.to_nat (freelist_words geo)) 0 ->
  1 + FLA_FREELIST_U32_ELEMS (g_npools geo) <= freelist_words geo ->
  Z.of_nat (length (sg_table (md_pools p0))) = htbl_tbl_size (g_pool_sgmt geo) ->
  Z.of_nat (length (sg_entries (md_pools p0))) = g_npools geo ->
  Z.of_nat (length (ss_headers (md_slabs p0))) = g_nslabs geo ->
  exists fs1 fs2 p, fla_mkfs_pool_sgmt_init (opened_fs dev geo p0 funcs) geo = Some fs1 /\
    fla_mkfs_slab_sgmt_init fs1 geo = Some fs2 /\ md_of (fla_mkfs_super_init fs2 geo) = Some p /\
    fresh_md geo p /\ md_fits geo p.
Proof using.
  intros G Hnp Hsl Hfl Hw Ht He Hh. pose proof (go_npools _ G). pose proof (nslabs_bound geo G) as Hb.
  pose proof (flist_elems_nonneg (g_npools geo)). set (fs := opened_fs dev geo p0 funcs).
  assert (0 < g_npools (fs_geo fs) < 2 ^ 15) as Hnp' by (cbn; lia).
  destruct (mkfs_pools_spec fs (sg_table (md_pools p0)) Hnp') as (fl & t & Ep & Hwf & Hlen & Hu & Hfree & Htbl);
    [cbn; rewrite Hfl, length_replicate; lia|done|done|].
  change (fs_geo fs) with geo in *. set (fs1 := set_pools _ fs) in Ep.
  assert (hdrs_ok fs1) as Hok by (split; done).
  destruct (mkfs_slabs_spec fs1 Hok) as (hs & Es & Hlh & Hq & Hhdr). change (fs_geo fs1) with geo in *.
  change (headers fs1) with (ss_headers (md_slabs p0)) in *.
  exists fs1, (set_free_list (g_nslabs geo) 0 (g_nslabs geo - 1) (with_headers fs1 hs)). eexists.
  split; [done|]. split; [done|].
  unfold md_of, fla_mkfs_super_init. cbn [set_super set_free_list set_slabs fs_pools ps_htbl with_headers]. cbn. rewrite Htbl.
  split; [bind_step; reflexivity|]. cbn in Hlen. rewrite Hfl, length_replicate in Hlen.
  unfold FLA_LINKED_LIST_NULL in Hb. pose proof (go_pools _ G) as Hps. pose proof (ps_size _ _ _ Hps) as Hts.
  split; (split; cbn [md_super md_pools md_slabs sg_freelist sg_htbl_hdr sg_table sg_entries ss_headers ss_fslab_num
    ss_fslab_head ss_fslab_tail]; try done).
  - f_equal. lia.
  - lia.
  - destruct (geo_parts_nonneg geo G) as (? & ? & ? & ?). pose proof (go_fits _ G). pose proof (go_nlb _ G).
    pose proof (go_slab _ G).
    split; unfold is_u64, is_u32; cbn; unfold FLA_MAGIC, FLA_FMT_VER; lia.
  - lia.
  - apply Hu. cbn. rewrite Hfl. apply Forall_replicate. unfold is_u32. lia.
  - split; unfold is_u32; cbn; lia.
  - rewrite length_replicate. lia.
  - apply Forall_replicate. by split; compute.
  - rewrite length_replicate. lia.
  - apply Forall_replicate. by split; compute.
  - lia.
  - apply Forall_forall. intros h [i Hi]%list_elem_of_lookup_1.
    destruct (Hhdr (Z.of_nat i) h) as (Hr & Hp & ? & ?).
    { unfold lookupZ. rewrite (proj2 (Z.ltb_ge _ _)), Nat2Z.id by lia. done. }
    split; [rewrite Hp; unfold is_u64; lia|done|done|rewrite Hr; unfold is_u32; lia].
  - unfold is_u32. lia.
Qed.

(** The first blocks of the device hold the metadata [p]. *)
Definition md_on_disk (w : W) (dev : xnvme_dev) (geo : fla_geo) (p : md_parts) : Prop :=
  md_load geo (concat_blocks (block w dev) 0 (Z.to_nat (fla_geo_nblocks geo))) = Some p.

(** Writing a metadata buffer: on success its parts are on the device, and whatever
    is returned no other block has changed. *)
Lemma write_md w dev geo buf : dev_for dev geo -> geo_ok geo -> md_small geo ->
  Z.of_nat (length buf) = fla_geo_nbytes geo ->
  exists w' err, fla_xne_sync_seq_w w (range_of 0 (fla_geo_nblocks geo) dev) dev buf = Some (w', err) /\
    (err = 0 -> concat_blocks (block w' dev) 0 (Z.to_nat (fla_geo_nblocks geo)) = buf) /\
    (forall dev' lba, dev_id dev' <> dev_id dev \/ lba < 0 \/ fla_geo_nblocks geo <= lba ->
       block w' dev' lba = block w dev' lba).
Proof using All.
  intros D G S Hl. destruct (nbytes_eq geo G S) as [Hb Hn]. pose proof (go_nlb _ G).
  destruct (sync_seq_w_spec block w dev 0 (fla_geo_nblocks geo) buf (df_dev _ _ D)) as (w' & err & Ew & Hok & Hfr);
    [lia..|rewrite (df_lba _ _ D); lia|].
  exists w', err. split; [done|]. split; [|exact Hfr].
  intros E0. rewrite (Hok E0). apply take_ge. rewrite (df_lba _ _ D). lia.
Qed.

Lemma mkfs_write_spec w geo dev junk : dev_for dev geo -> geo_ok geo -> md_small geo -> g_npools geo < 2 ^ 15 ->
  g_slab_nlb geo < 2 ^ 32 ->
  exists w' err, mkfs_write w geo dev dev junk = Some (w', err) /\
    (err = 0 -> exists p, md_on_disk w' dev geo p /\ fresh_md geo p /\ md_fits geo p).
Proof using All.
  intros D G S Hnp Hsl. unfold mkfs_write, fla_fs_alloc. destruct (malloc w sizeof_flexalloc) as [w1 ok].
  destruct ok; cbn [negb]; [|by do 2 eexists]. unfold fla_xne_alloc_buf.
  destruct (xnvme_buf_alloc w1 dev _) as [w2 [b|]]; [|by do 2 eexists].
  destruct (zero_md geo G S) as (p0 & Hp0 & Hfl & Hw & Ht & He & Hh). pose proof (go_npools _ G).
  set (buf := replicate _ 0) in *. pose proof (flist_elems_nonneg (g_npools geo)).
  destruct (init_spec w2 geo dev buf dp_zero p0 (df_type _ _ D) ltac:(lia) Hp0) as (w3 & fs & dp & err & -> & _ & Hok);
    [right; rewrite Hfl; apply lookup_replicate_2; lia|done|].
  bind_step. destruct (Z.eqb_spec err 0) as [->|]; cbn [negb]; [|by do 2 eexists].
  destruct (Hok eq_refl) as (Hdp & funcs & -> & _).
  destruct (mkfs_parts dev geo p0 funcs G Hnp Hsl Hfl Hw Ht He Hh) as (fs1 & fs2 & p & -> & Es & Ep & Hfresh & Hfits).
  bind_step. rewrite Es. bind_step. rewrite Ep. bind_step.
  destruct (md_load_store geo (fslab_end_mkfs geo) p buf G S Hfits) as (buf' & -> & Hlen & Hld); [by right| |].
  { unfold buf. rewrite length_replicate. destruct (nbytes_eq geo G S) as [-> ?]. pose proof (go_lb _ G). nia. }
  bind_step. unfold fla_xne_lba_range_from_offset_nbytes, FLA_SUPER_SLBA.
  destruct (nbytes_eq geo G S) as [Hnb Hn]. rewrite Hnb.
  destruct (md_range dev geo (fla_geo_nblocks geo) D G Hn) as [Hv Hr]. rewrite Hv. cbn [negb]. rewrite Hr.
  destruct (prep_installed block w3 dp (mk_io FLA_IO_MD_WRITE dev junk.1.1 junk.1.2) (mk_ctx 0 0) junk.2 Hdp)
    as (w4 & ctx & err & -> & _). bind_step. unfold fla_xne_sync_seq_w_xneio.
  destruct (Z.eqb_spec err 0) as [->|]; [|by do 2 eexists].
  destruct (write_md w4 dev geo buf' D G S) as (w5 & err & -> & Hok5 & _).
  { rewrite Hlen. unfold buf. rewrite length_replicate, Hnb. pose proof (go_lb _ G). nia. }
  do 2 eexists. split; [done|]. intros E0. exists p. split; [|done]. unfold md_on_disk. by rewrite (Hok5 E0).
Qed.

(** ** Opening *)

(** The super block describes the geometry. *)
Record super_for (s : fla_super) (geo : fla_geo) : Prop := {
  su_magic : s_magic s = FLA_MAGIC;
  su_nslabs : s_nslabs s = g_nslabs geo;
  su_slab_nlb : s_slab_nlb s = g_slab_nlb geo;
  su_npools : s_npools s = g_npools geo;
  su_md_nlb : s_md_nlb s = g_md_nlb geo
}.

Lemma blocks_for_unique q q' x lb : 0 < lb -> blocks_for q x lb -> blocks_for q' x lb -> q = q'.
Proof using. unfold blocks_for. intros ? [? ?] [? ?]. nia. Qed.

(** The geometry is recomputed from the super block. *)
Lemma geo_from_super dev geo s : dev_for dev geo -> geo_ok geo -> super_for s geo ->
  fla_geo_from_super dev s = Some geo.
Proof using.
  intros [_ _ Hl Hn] G [_ Hns Hsl Hnp Hmd]. unfold fla_geo_from_super, fla_xne_dev_lba_nbytes, fla_xne_dev_tbytes.
  unfold dev_nlb, dev_lba in *. rewrite Hl in *. pose proof (go_lb _ G) as Hlb. rewrite (proj2 (Z.eqb_neq _ _)) by lia.
  pose proof (nslabs_bound geo G) as Hb. pose proof (go_npools _ G). unfold FLA_LINKED_LIST_NULL in Hb.
  rewrite Hnp, Hns, Hsl, Hmd, Hn.
  destruct (pool_sgmt_calc_spec (g_npools geo) (g_lb_nbytes geo)) as (sg & -> & Hsg & _); [lia..|].
  unfold fla_geo_slab_sgmt_calc.
  destruct (slab_sgmt_calc_spec (g_nslabs geo) (g_lb_nbytes geo)) as (q & -> & Hq); [lia..|]. bind_step.
  pose proof (go_pools _ G) as Hsg'. pose proof (go_slabs _ G) as Hq'. destruct Hsg as [F1 H1 E1 S1 _], Hsg' as [F2 H2 E2 S2 _].
  assert (g_pool_sgmt geo = sg) as Esg.
  { destruct (g_pool_sgmt geo) as [a b c d], sg as [a' b' c' d']. cbn in *.
    f_equal; [eapply blocks_for_unique; [|exact F2|exact F1]|eapply blocks_for_unique; [|exact H2|exact H1]|congruence
      |eapply blocks_for_unique; [|exact E2|exact E1]]; lia. }
  assert (slab_sgmt_nlb (g_slab_sgmt geo) = q) as Eq by (eapply blocks_for_unique; [|exact Hq'|exact Hq]; lia).
  destruct geo as [? ? ? ? ? ? ? [?]]. cbn in *. by subst.
Qed.

(** The first block of the metadata is read as the super block. *)
Lemma super_read_spec w dev geo p : dev_for dev geo -> geo_ok geo -> md_small geo -> md_on_disk w dev geo p ->
  super_for (md_super p) geo ->
  exists w' s err, fla_super_read w dev (g_lb_nbytes geo) = Some (w', s, err) /\ same_blocks block w w' /\
    (err = 0 -> s = Some (md_super p)).
Proof using All.
  intros D G S Hmd Hsu. unfold fla_super_read, fla_xne_alloc_buf. pose proof (go_lb _ G) as Hlb.
  destruct (xnvme_buf_alloc w dev (g_lb_nbytes geo)) as [w1 b] eqn:Ea. pose proof (alloc_same block _ _ _ _ _ Ea) as H1.
  destruct b as [b|]; [|do 3 eexists; split; [done|]; by split].
  destruct (nbytes_eq geo G S) as [Hnb Hn]. unfold fla_xne_lba_range_from_offset_nbytes.
  destruct (md_range dev geo 1 D G ltac:(lia)) as [Hv Hr]. rewrite Z.mul_1_l in Hv, Hr. rewrite Hv. cbn [negb]. rewrite Hr.
  destruct (sync_seq_r_spec block w1 dev 0 1 (replicate (Z.to_nat (g_lb_nbytes geo)) 0) (df_dev _ _ D))
    as (w2 & err & data & Er & Hok & Hfr); [lia..|rewrite length_replicate, (df_lba _ _ D); lia|].
  unfold fla_xne_sync_seq_r_xneio. rewrite Er. bind_step.
  assert (same_blocks block w w2) as H2 by (eapply same_blocks_trans; [exact H1|]; intros ? ?; apply Hfr).
  destruct (Z.eqb_spec err 0) as [->|]; cbn [negb]; [|do 3 eexists; split; [done|]; by split].
  set (nb := Z.to_nat (fla_geo_nblocks geo)) in *.
  assert (buf_get data 0 sizeof_super = buf_get (concat_blocks (block w dev) 0 nb) 0 sizeof_super) as Hsb.
  { rewrite (Hok eq_refl), drop_ge, app_nil_r by (rewrite length_replicate, (df_lba _ _ D); lia).
    rewrite (concat_blocks_ext _ (block w dev)) by (intros; apply H1). change (Z.to_nat 1) with 1%nat.
    assert (nb = 1 + (nb - 1))%nat as -> by lia. rewrite concat_blocks_app.
    assert (forall n s, Z.of_nat (length (concat_blocks (block w dev) s n)) = Z.of_nat n * g_lb_nbytes geo) as Hcl.
    { intros n s. apply concat_blocks_length; [lia|]. intros. rewrite <- (df_lba _ _ D). apply block_length.
      rewrite (df_lba _ _ D). lia. }
    pose proof (Hcl 1%nat 0) as Hc1.
    rewrite !buf_get_some by (rewrite ?length_app; unfold sizeof_super; lia).
    change (Z.to_nat 0) with 0%nat. rewrite !drop_0, take_app_le; [done|]. unfold sizeof_super. lia. }
  unfold md_on_disk, md_load in Hmd. fold nb in Hmd. rewrite Hsb.
  destruct (buf_get (concat_blocks _ _ _) 0 sizeof_super) as [sb|]; [|done]. bind_step.
  destruct (pool_sgmt_load geo _) as [sg|]; [|done]. destruct (slabs_load geo _) as [sl|]; [|done]. injection Hmd as <-.
  cbn [md_super] in *. rewrite (su_magic _ _ Hsu), Z.eqb_refl. cbn [negb]. by do 3 eexists.
Qed.

(** An open handle on [dev] with the metadata [p]: nothing cached, the functions of
    the pools in use installed. *)
Record opened (dev : xnvme_dev) (geo : fla_geo) (p : md_parts) (h : handle) : Prop := {
  op_fs : exists funcs, h_fs h = set_state FLA_STATE_OPEN
      (set_cache (Some (replicate (Z.to_nat (g_nslabs geo)) (mk_elem None FLA_SLAB_CACHE_ELEM_STALE)))
         (opened_fs dev geo p funcs)) /\ funcs_ok (sg_freelist (md_pools p)) (g_npools geo) funcs;
  op_dp : dp_installed (h_dp h);
  op_buf : md_load geo (h_buf h) = Some p;
  op_len : Z.of_nat (length (h_buf h)) = fla_geo_nbytes geo
}.

Section open.
Context (dev : xnvme_dev) (geo : fla_geo) (p : md_parts).
Context (D : dev_for dev geo) (G : geo_ok geo) (S : md_small geo) (Hsu : super_for (md_super p) geo).
Context (Hfl : flist_wf (sg_freelist (md_pools p)) (g_npools geo)).
Context (Hes : Z.of_nat (length (sg_entries (md_pools p))) = g_npools geo).

Lemma open_metadata_spec w opts : md_on_disk w dev geo p -> is_Some (strlen (oo_dev_uri opts)) ->
  exists w' h err, open_metadata w opts dev None = Some (w', h, err) /\ same_blocks block w w' /\
    (err = 0 -> exists hd, h = Some hd /\ opened dev geo p hd).
Proof using All.
  intros Hmd [n Hn]. unfold open_metadata. cbn [default from_option].
  assert (fla_xne_dev_lba_nbytes dev = g_lb_nbytes geo) as -> by apply (df_lba _ _ D).
  destruct (super_read_spec w dev geo p D G S Hmd Hsu) as (w1 & s1 & err & -> & H1 & Hs). bind_step.
  destruct (Z.eqb_spec err 0) as [->|]; cbn [negb]; [|do 3 eexists; split; [done|]; by split].
  rewrite (Hs eq_refl). bind_step. rewrite (geo_from_super dev geo) by done. bind_step. unfold fla_xne_alloc_buf.
  destruct (xnvme_buf_alloc w1 dev _) as [w2 b] eqn:Ea. pose proof (alloc_same block _ _ _ _ _ Ea) as Hb2.
  pose proof (same_blocks_trans _ _ _ H1 Hb2) as H2. destruct b as [b|]; [|do 3 eexists; split; [done|]; by split].
  destruct (nbytes_eq geo G S) as [Hnb Hr0]. unfold fla_xne_lba_range_from_offset_nbytes. rewrite Hnb.
  destruct (md_range dev geo (fla_geo_nblocks geo) D G Hr0) as [Hv Hr]. rewrite Hv. cbn [negb]. rewrite Hr.
  pose proof (go_lb _ G) as Hlb. pose proof (go_nlb _ G) as Hnl. pose proof (df_lba _ _ D) as Hl.
  destruct (sync_seq_r_spec block w2 dev 0 (fla_geo_nblocks geo)
    (replicate (Z.to_nat (fla_geo_nblocks geo * g_lb_nbytes geo)) 0) (df_dev _ _ D)) as (w3 & err & data & Er & Hok & Hfr);
    [lia..|rewrite length_replicate, Hl; lia|].
  unfold fla_xne_sync_seq_r_xneio. rewrite Er. bind_step.
  assert (same_blocks block w w3) as H3 by (eapply same_blocks_trans; [exact H2|]; intros ? ?; apply Hfr).
  destruct (Z.eqb_spec err 0) as [->|]; cbn [negb]; [|do 3 eexists; split; [done|]; by split].
  assert (data = concat_blocks (block w dev) 0 (Z.to_nat (fla_geo_nblocks geo))) as ->.
  { rewrite (Hok eq_refl), drop_ge, app_nil_r by (rewrite length_replicate, Hl; lia).
    apply concat_blocks_ext. intros. apply H2. }
  pose proof (go_npools _ G) as Hnp.
  destruct (init_spec w3 geo dev _ dp_zero p (df_type _ _ D) ltac:(lia) Hmd) as (w4 & fs & dp & err & -> & H4 & Hi);
    [by left|done|]. bind_step. pose proof (same_blocks_trans _ _ _ H3 H4) as H34.
  destruct (Z.eqb_spec err 0) as [->|]; cbn [negb]; [|do 3 eexists; split; [done|]; by split].
  destruct (Hi eq_refl) as (Hdp & funcs & -> & _ & Hfn).
  destruct (cache_init_spec w4 (opened_fs dev geo p funcs) eq_refl) as (w5 & ok & Em & ->).
  pose proof (same_blocks_trans _ _ _ H34 (malloc_same block _ _ _ _ Em)) as H5.
  destruct ok; [|do 3 eexists; split; [done|]; by split]. no_err. rewrite Hn. bind_step.
  destruct (malloc w5 (Z.of_nat n + 1)) as [w6 ok] eqn:Em6.
  pose proof (same_blocks_trans _ _ _ H5 (malloc_same block _ _ _ _ Em6)) as H6.
  destruct ok; cbn [negb]; [|do 3 eexists; split; [done|]; by split]. bind_step. cbn [negb].
  do 3 eexists. split; [done|]. split; [done|]. intros _. eexists. split; [done|]. split; [|done|done|].
  - cbn [h_fs]. exists funcs. split; [|by apply Hfn]. cbn. by rewrite (su_nslabs _ _ Hsu).
  - cbn [h_buf]. rewrite Hnb. rewrite (concat_blocks_length _ _ _ (g_lb_nbytes geo)); [lia|lia|].
    intros. rewrite <- Hl. apply block_length. lia.
Qed.

(** The device a URI names. *)
Definition uri_names (uri : list Z) (dev : xnvme_dev) : Prop :=
  forall w o w' d, xnvme_dev_open w uri o = (w', Some d) -> d = dev.

Lemma fla_open_spec w opts : uri_names (oo_dev_uri opts) dev -> oo_md_dev_uri opts = None ->
  is_Some (strlen (oo_dev_uri opts)) -> md_on_disk w dev geo p ->
  exists w' h err, fla_open w opts = Some (w', h, err) /\ same_blocks block w w' /\
    (err = 0 -> exists hd, h = Some hd /\ opened dev geo p hd).
Proof using All.
  intros Hu Hm Hl Hmd. unfold fla_open, fla_fs_alloc. destruct (malloc w sizeof_flexalloc) as [w1 ok] eqn:Em.
  pose proof (malloc_same block _ _ _ _ Em) as H1. destruct ok; cbn [negb]; [|do 3 eexists; split; [done|]; by split].
  unfold fla_xne_dev_open. destruct (xnvme_dev_open w1 _ _) as [w2 d] eqn:Eo.
  assert (same_blocks block w w2) as H2 by (eapply same_blocks_trans; [exact H1|]; intros ? ?; by eapply open_frame).
  destruct d as [d|]; [|do 3 eexists; split; [done|]; by split]. pose proof (Hu _ _ _ _ Eo) as ->. no_err. bind_step.
  rewrite Hm. no_err.
  destruct (negb (fla_dev_sanity_check dev (Some (default dev None)) =? 0)) eqn:Hs.
  { do 3 eexists. split; [done|]. split; [done|]. intros E0. rewrite E0 in Hs. done. }
  assert (md_on_disk w2 dev geo p) as Hmd2.
  { unfold md_on_disk. rewrite (concat_blocks_ext _ (block w dev)) by (intros; apply H2). exact Hmd. }
  destruct (open_metadata_spec w2 opts Hmd2 Hl) as (w3 & h & err & Eq & H3 & Hok).
  exists w3, h, err. split; [done|]. split; [by eapply same_blocks_trans|done].
Qed.
End open.

(** A request to format a device that holds its own metadata. *)
Record mkfs_request (dev : xnvme_dev) (pr : fla_mkfs_p) : Prop := {
  mr_uri : uri_names (oo_dev_uri (mp_open_opts pr)) dev;
  mr_string : is_Some (strlen (oo_dev_uri (mp_open_opts pr)));
  mr_own : oo_md_dev_uri (mp_open_opts pr) = None;
  mr_dev : dev_ok dev;
  mr_type : fla_xne_dev_type dev = XNVME_GEO_CONVENTIONAL;
  mr_lba : 512 <= dev_lba dev < 2 ^ 32;
  mr_nlb : 16 <= dev_nlb dev < 2 ^ 31;
  mr_slab : 0 < mp_slab_nlb pr < 2 ^ 32;
  mr_npools : 0 < mp_npools pr < 2 ^ 15;
  mr_small : forall geo, geo_ok geo -> g_nlb geo = dev_nlb dev -> g_lb_nbytes geo = dev_lba dev ->
    g_slab_nlb geo = mp_slab_nlb pr -> md_small geo
}.

(** What a formatted device holds. *)
Definition formatted (w : W) (dev : xnvme_dev) (pr : fla_mkfs_p) : Prop :=
  exists geo p, dev_for dev geo /\ geo_ok geo /\ md_small geo /\ g_slab_nlb geo = mp_slab_nlb pr /\
    g_npools geo = mp_npools pr /\ md_on_disk w dev geo p /\ fresh_md geo p /\ md_fits geo p.

Lemma mkfs_spec w pr geo0 md_geo0 junk dev : mkfs_request dev pr ->
  exists w' err, fla_mkfs w pr geo0 md_geo0 junk = Some (w', err) /\ (err = 0 -> formatted w' dev pr).
Proof using All.
  intros [Hu _ Hm Hd Hc Hlb Hnlb Hsl Hnp Hsmall]. unfold fla_mkfs, fla_xne_dev_open.
  destruct (xnvme_dev_open w _ _) as [w1 d] eqn:Eo. destruct d as [d|]; [|by do 2 eexists].
  pose proof (Hu _ _ _ _ Eo) as ->. no_err. bind_step. rewrite Hm. unfold fla_xne_dev_mkfs_prepare. no_err.
  destruct (negb (fla_dev_sanity_check dev None =? 0)) eqn:Hs.
  { do 2 eexists. split; [done|]. intros E0. by rewrite E0 in Hs. }
  no_err.
  destruct (mkfs_geo_calc_spec dev (mp_npools pr) (mp_slab_nlb pr) geo0 md_geo0) as (geo & err & -> & Hg);
    [done|done|by rewrite Hc|done|lia|]. bind_step.
  destruct (Z.eqb_spec err 0) as [->|]; cbn [negb]; [|by do 2 eexists].
  destruct (Hg eq_refl) as (G & Hgn & Hgl & Hgs & Hgp). cbn [default from_option].
  assert (dev_for dev geo) as D by done. assert (md_small geo) as S by (by apply Hsmall).
  destruct (mkfs_write_spec w1 geo dev junk D G S) as (w2 & err & -> & Hok); [rewrite Hgp; lia|lia|].
  do 2 eexists. split; [done|]. intros E0. destruct (Hok E0) as (p & Hmd & Hf & Hfit). exists geo, p.
  repeat (split; [done|]). split; [apply Hgp; lia|]. done.
Qed.

(** An open handle on its own device. *)
Record on_device (dev : xnvme_dev) (fs : flexalloc) : Prop := {
  od_dev : d_dev (fs_dev fs) = dev;
  od_matches : dev_matches fs;
  od_lb : d_lb_nbytes (fs_dev fs) = g_lb_nbytes (fs_geo fs)
}.

(** Opening what formatting wrote gives a system with every slab and every pool
    index free. *)
Lemma fresh_opened U dev geo p h : keys_ok U -> dev_for dev geo -> geo_ok geo -> g_npools geo < 2 ^ 15 ->
  fresh_md geo p -> opened dev geo p h -> ready U (h_fs h) /\ on_device dev (h_fs h) /\ fs_geo (h_fs h) = geo.
Proof using.
  intros HU D G Hnp F [(funcs & -> & Hfl & _) _ _ _]. pose proof (go_npools _ G). pose proof (ps_size _ _ _ (go_pools _ G)).
  pose proof (nslabs_bound geo G). split; [|split; [|done]].
  - eapply (ready_build U HU _ geo (sg_freelist (md_pools p)) _ (sg_entries (md_pools p)) funcs (ss_headers (md_slabs p))
      (ss_fslab_num (md_slabs p)) (ss_fslab_head (md_slabs p)) (ss_fslab_tail (md_slabs p))); try apply F; try done.
    + unfold set_state, set_cache, opened_fs. cbn. rewrite (fm_hdr _ _ F). by destruct (md_slabs p).
    + split; [exact (fm_headers _ _ F)|done].
    + apply empty_table with (size := htbl_tbl_size (g_pool_sgmt geo)); cbn; rewrite ?(fm_table _ _ F), ?(fm_hdr _ _ F); try done. lia.
    + rewrite (fm_entries _ _ F), length_replicate. lia.
    + rewrite (fm_entries _ _ F). by intros e [-> _]%elem_of_replicate.
  - destruct D as [? ? Hl Hn]. split; [done| |done]. split; try done. cbn. by rewrite (fm_super _ _ F).
Qed.

Lemma formatted_opened w pr dev geo p : mkfs_request dev pr -> dev_for dev geo -> geo_ok geo -> md_small geo ->
  md_on_disk w dev geo p -> fresh_md geo p ->
  exists w' h err, fla_open w (mp_open_opts pr) = Some (w', h, err) /\ same_blocks block w w' /\
    (err = 0 -> exists hd, h = Some hd /\ opened dev geo p hd).
Proof using All.
  intros R D G S Hmd F.
  apply (fla_open_spec dev geo p D G S); try apply R; try done.
  - by split; rewrite (fm_super _ _ F).
  - apply F.
  - rewrite (fm_entries _ _ F), length_replicate. pose proof (go_npools _ G). lia.
Qed.

Lemma formatted_open U w pr dev : keys_ok U -> mkfs_request dev pr -> formatted w dev pr ->
  exists w' h err, fla_open w (mp_open_opts pr) = Some (w', h, err) /\ same_blocks block w w' /\
    (err = 0 -> exists hd, h = Some hd /\ ready U (h_fs hd) /\ on_device dev (h_fs hd) /\ dp_installed (h_dp hd)).
Proof using All.
  intros HU R (geo & p & D & G & S & _ & Hp & Hmd & F & _). pose proof (mr_npools _ _ R).
  destruct (formatted_opened w pr dev geo p R D G S Hmd F) as (w' & h & err & -> & Hb & Hok).
  do 3 eexists. split; [done|]. split; [done|]. intros E0. destruct (Hok E0) as (hd & -> & Ho). exists hd. split; [done|].
  destruct (fresh_opened U dev geo p hd HU D G ltac:(lia) F Ho) as (? & ? & _). split; [done|]. split; [done|]. apply Ho.
Qed.
End specs.
