(* ===== verification/Typed.v ===== *)
(** * Typed: the metadata in memory always fits the structures on disk

    The metadata of an open system is a buffer seen through typed pointers.  The
    model keeps the typed parts as lists of records over [Z]; [typed] says that the
    arrays have the sizes the geometry gives them and that every field holds a value
    of its C type, so that the parts can be stored and loaded without loss.  Every
    operation that changes the metadata preserves it, whatever it returns. *)
From S2P Require Import Prelude Util Freelist Hash XnvmeEnv Flexalloc PoolEntry Geometry CommandSet.
From S2P Require Import SlabList SlabCache Slab Pool Object DataPlacement Layout Format System.

(** A hash table of [n] slots. *)
Definition htbl_typed (n : Z) (t : fla_htbl) : Prop :=
  is_u32 (len t) /\ exists slots, tbl t = Some slots /\ Z.of_nat (length slots) = n /\ Forall hentry_fits slots.

Record pools_typed (geo : fla_geo) (p : fla_pools) : Prop := {
  pt_flist : Z.of_nat (length (ps_freelist p)) = freelist_words geo;
  pt_flist_u32 : Forall is_u32 (ps_freelist p);
  pt_hdr : htbl_header_fits (ps_htbl_hdr p);
  pt_htbl : htbl_typed (htbl_tbl_size (g_pool_sgmt geo)) (ps_htbl p);
  pt_entries : Z.of_nat (length (ps_entries p)) = g_npools geo;
  pt_entries_fits : Forall pentry_fits (ps_entries p)
}.

Record slabs_typed (geo : fla_geo) (s : fla_slabs) : Prop := {
  st_headers : Z.of_nat (length (ss_headers s)) = g_nslabs geo;
  st_headers_fits : Forall header_fits (ss_headers s);
  st_words : is_u32 (ss_fslab_num s) /\ is_u32 (ss_fslab_head s) /\ is_u32 (ss_fslab_tail s)
}.

Record typed (fs : flexalloc) : Prop := {
  ty_geo : geo_ok (fs_geo fs) /\ md_small (fs_geo fs) /\ is_u32 (g_slab_nlb (fs_geo fs));
  ty_super : super_fits (fs_super fs);
  ty_pools : pools_typed (fs_geo fs) (fs_pools fs);
  ty_slabs : slabs_typed (fs_geo fs) (fs_slabs fs)
}.

Lemma Forall_insertZ {A} (P : A -> Prop) l i x : Forall P l -> P x -> Forall P (insertZ i x l).
Proof. intros. unfold insertZ. case_match; [done|]. by apply Forall_insert. Qed.

Lemma Forall_lookupZ {A} (P : A -> Prop) l i x : Forall P l -> lookupZ l i = Some x -> P x.
Proof. unfold lookupZ. case_match; [done|]. intros Hl Hx. by eapply Forall_lookup_1. Qed.

Lemma null_u32 : is_u32 FLA_LINKED_LIST_NULL.
Proof. unfold is_u32, FLA_LINKED_LIST_NULL. lia. Qed.
#[local] Hint Resolve null_u32 : flex.

(** ** Slabs *)

Lemma header_upd_typed fs slab f fs' : header_upd fs slab f = Some fs' -> typed fs ->
  (forall h, header_fits h -> header_fits (f h)) -> typed fs'.
Proof.
  unfold header_upd. intros H [Hg Hs Hp [Hl Hf Hw]] Hok. run_inv. split; [done|done|done|]. split; cbn; [by rewrite length_insertZ| |done].
  apply Forall_insertZ; [done|]. apply Hok. by eapply Forall_lookupZ.
Qed.

Lemma header_typed fs slab h : typed fs -> lookupZ (headers fs) slab = Some h -> header_fits h.
Proof. intros [_ _ _ [_ Hf _]]. by apply Forall_lookupZ. Qed.

Lemma free_list_typed fs num head tail : typed fs -> is_u32 num -> is_u32 head -> is_u32 tail ->
  typed (set_free_list num head tail fs).
Proof. intros [? ? ? [? ? _]]. by split. Qed.

Lemma set_prev_fits v h : is_u32 v -> header_fits h -> header_fits (sl_set_prev v h).
Proof. intros ? [? ? ? ?]. by split. Qed.
Lemma set_next_fits v h : is_u32 v -> header_fits h -> header_fits (sl_set_next v h).
Proof. intros ? [? ? ? ?]. by split. Qed.
Lemma set_refcount_fits v h : is_u32 v -> header_fits h -> header_fits (sl_set_refcount v h).
Proof. intros ? [? ? ? ?]. by split. Qed.
#[local] Hint Resolve set_prev_fits set_next_fits set_refcount_fits hf_prev hf_next : flex.

(** Chains of header assignments. *)
Ltac typed_upd := repeat match goal with
  | H : header_upd _ _ _ = Some ?fs |- _ => first [assert (typed fs) by (eapply header_upd_typed;
      [exact H|done|intros; auto with flex]); clear H]
  end.

Lemma prepend_typed fs slab head fs' head' err : fla_hdll_prepend fs slab head = Some (fs', head', err) -> typed fs ->
  is_u32 head -> typed fs' /\ is_u32 head'.
Proof.
  unfold fla_hdll_prepend, prepend_link, fla_slab_id. intros H T Hh. pose proof (u32_range slab).
  run_inv; typed_upd; done.
Qed.

Lemma unlink_typed fs slab head fs' head' err : unlink_next fs slab head = Some (fs', head', err) -> typed fs ->
  is_u32 head -> typed fs' /\ is_u32 head'.
Proof.
  unfold unlink_next. intros H T Hh. run_inv; [done|..]; pose proof (header_typed _ _ _ T E); typed_upd; done.
Qed.

Lemma remove_typed fs slab head fs' head' err : fla_hdll_remove fs slab head = Some (fs', head', err) -> typed fs ->
  is_u32 head -> typed fs' /\ is_u32 head'.
Proof.
  unfold fla_hdll_remove. intros H T Hh. run_inv; pose proof (header_typed _ _ _ T E) as Hf; typed_upd; try done;
    eapply unlink_typed; eauto. apply Hf.
Qed.

Lemma remove_head_typed fs head tail fs' head' tail' slab err :
  fla_edll_remove_head fs head tail = Some (fs', head', tail', slab, err) -> typed fs -> is_u32 head -> is_u32 tail ->
  typed fs' /\ is_u32 head' /\ is_u32 tail'.
Proof.
  unfold fla_edll_remove_head. intros H T Hh Ht. run_inv; try (by auto with flex);
    pose proof (header_typed _ _ _ T E) as Hf; typed_upd; try done. split; [done|]. split; [apply Hf|done].
Qed.

Lemma add_tail_typed fs head tail slab fs' head' tail' err :
  fla_edll_add_tail fs head tail slab = Some (fs', head', tail', err) -> typed fs -> is_u32 head -> is_u32 tail ->
  typed fs' /\ is_u32 head' /\ is_u32 tail'.
Proof.
  unfold fla_edll_add_tail, fla_slab_id. intros H T Hh Ht. pose proof (u32_range slab). run_inv; typed_upd; done.
Qed.

(** The cache is no part of the metadata. *)
Lemma cache_typed fs c : typed fs -> typed (set_cache c fs).
Proof. by intros [? ? ? ?]. Qed.
#[local] Hint Resolve cache_typed : flex.

Lemma elem_drop_typed fs id fs' : fla_slab_cache_elem_drop fs id = Some fs' -> typed fs -> typed fs'.
Proof. unfold fla_slab_cache_elem_drop, set_cache_elem. intros H T. run_inv. auto with flex. Qed.

Lemma obj_alloc_typed fs id n fs' obj err : fla_slab_cache_obj_alloc fs id n = Some (fs', obj, err) -> typed fs -> typed fs'.
Proof. unfold fla_slab_cache_obj_alloc, set_cache_elem. intros H T. run_inv; auto with flex. Qed.

Lemma obj_free_typed fs o n fs' err : fla_slab_cache_obj_free fs o n = Some (fs', err) -> typed fs -> typed fs'.
Proof. unfold fla_slab_cache_obj_free, set_cache_elem. intros H T. run_inv; auto with flex. Qed.

Section world.
Context {W : Type} `{XnvmeEnv W}.

Lemma elem_init_typed w fs id n (w' : W) fs' err : fla_slab_cache_elem_init w fs id n = Some (w', fs', err) -> typed fs -> typed fs'.
Proof using. unfold fla_slab_cache_elem_init, set_cache_elem. intros Hr T. run_inv; auto with flex. Qed.

Lemma load_typed w fs id n (w' : W) fs' err : load_if_stale w fs id n = Some (w', fs', err) -> typed fs -> typed fs'.
Proof using. unfold load_if_stale, fla_slab_cache_elem_load, set_cache_elem. intros Hr T. run_inv; auto with flex. Qed.

Lemma format_typed w fs slab nlb (w' : W) fs' err : fla_format_slab w fs slab nlb = Some (w', fs', err) -> typed fs -> typed fs'.
Proof using.
  unfold fla_format_slab. intros Hr T.
  assert (forall fs1, header_upd fs slab (fun _ => mk_hdr 0 FLA_LINKED_LIST_NULL FLA_LINKED_LIST_NULL 0) = Some fs1 -> typed fs1) as Hu.
  { intros fs1 E1. eapply header_upd_typed; [exact E1|done|]. intros h _. split; cbn; auto with flex; unfold is_u64, is_u32; lia. }
  run_inv; eauto using elem_init_typed.
Qed.

Lemma acquire_typed w fs nlb (w' : W) fs' slab err : fla_acquire_slab w fs nlb = Some (w', fs', slab, err) -> typed fs -> typed fs'.
Proof using.
  unfold fla_acquire_slab. intros Hr T. pose proof (st_words _ _ (ty_slabs _ T)) as (? & ? & ?).
  run_inv; try done; match goal with E : fla_edll_remove_head _ _ _ = _ |- _ =>
      destruct (remove_head_typed _ _ _ _ _ _ _ _ E) as (? & ? & ?); [done..|] end;
    eauto 6 using free_list_typed, format_typed with flex.
Qed.
End world.

Lemma release_typed fs slab fs' err : fla_release_slab fs slab = Some (fs', err) -> typed fs -> typed fs'.
Proof.
  unfold fla_release_slab, fla_slab_id. intros Hr T. run_inv; try done;
    match goal with E : fla_slab_cache_elem_drop _ _ = _ |- _ => pose proof (elem_drop_typed _ _ _ E T) as T0 end;
    pose proof (st_words _ _ (ty_slabs _ T0)) as (? & ? & ?);
    match goal with E : fla_edll_add_tail _ _ _ _ = _ |- _ =>
      destruct (add_tail_typed _ _ _ _ _ _ _ _ E) as (? & ? & ?); [done..|] end; auto using free_list_typed with flex.
Qed.

Lemma remove_all_typed n : forall fs head fs' head' err,
  remove_all_loop n fs head fla_release_slab = Some (fs', head', err) -> typed fs -> is_u32 head -> typed fs' /\ is_u32 head'.
Proof.
  induction n as [|n IH]; intros fs head fs' head' err Hr T Hh; cbn [remove_all_loop] in Hr; run_inv; try done;
    match goal with E : lookupZ _ _ = _ |- _ => pose proof (hf_next _ (header_typed _ _ _ T E)) end;
    eauto using release_typed.
Qed.

(** ** Pool entries *)

Lemma upd_entry_typed fs ndx f fs' : upd_entry fs ndx f = Some fs' -> typed fs ->
  (forall e, lookupZ (ps_entries (fs_pools fs)) ndx = Some e -> pentry_fits e -> pentry_fits (f e)) -> typed fs'.
Proof.
  unfold upd_entry. intros Hr [? ? [? ? ? ? Hl Hf] ?] Hok. run_inv. split; [done|done| |done]. split; try done; cbn.
  - by rewrite length_insertZ.
  - apply Forall_insertZ; [done|]. apply Hok; [done|]. by eapply Forall_lookupZ.
Qed.

Lemma entry_typed fs ndx e : typed fs -> pool_entry_at fs ndx = Some e -> pentry_fits e.
Proof. intros [_ _ [_ _ _ _ _ Hf] _]. by apply Forall_lookupZ. Qed.

Lemma head_typed l e : pentry_fits e -> is_u32 (pe_head l e).
Proof. intros [? ? ? ? ? ? ? ? ?]. by destruct l. Qed.
Lemma set_head_fits l v e : is_u32 v -> pentry_fits e -> pentry_fits (pe_set_head l v e).
Proof. intros ? [? ? ? ? ? ? ? ? ?]. destruct l; by split. Qed.

(** List operations through a head in an entry. *)
Lemma list_op_typed op fs slab a fs' err :
  (forall fs1 head fs2 head' err, op fs1 slab head = Some (fs2, head', err) -> typed fs1 -> is_u32 head ->
     typed fs2 /\ is_u32 head') ->
  list_op op fs slab a = Some (fs', err) -> typed fs -> typed fs'.
Proof.
  unfold list_op. intros Hop Hr T. run_inv. pose proof (entry_typed _ _ _ T E) as He.
  match goal with Eo : op _ _ _ = _ |- _ => destruct (Hop _ _ _ _ _ Eo T (head_typed a.2 _ He)) end.
  eapply upd_entry_typed; [eassumption|done|]. intros. by apply set_head_fits.
Qed.

Lemma list_prepend_typed fs slab a fs' err : list_op fla_hdll_prepend fs slab a = Some (fs', err) -> typed fs -> typed fs'.
Proof. apply list_op_typed. intros. by eapply prepend_typed. Qed.
Lemma list_remove_typed fs slab a fs' err : list_op fla_hdll_remove fs slab a = Some (fs', err) -> typed fs -> typed fs'.
Proof. apply list_op_typed. intros. by eapply remove_typed. Qed.

Lemma next_obj_typed fs slab n fs' obj err : fla_slab_next_available_obj fs slab n = Some (fs', obj, err) -> typed fs -> typed fs'.
Proof.
  unfold fla_slab_next_available_obj, fla_slab_id. intros Hr T.
  run_inv; eauto using obj_alloc_typed. eapply header_upd_typed; [eassumption|by eapply obj_alloc_typed|intros; apply set_refcount_fits; auto with flex].
Qed.

Section objects.
Context {W : Type} `{XnvmeEnv W}.

Lemma next_slab_typed w fs ndx (w' : W) fs' slab err : fla_pool_next_available_slab w fs ndx = Some (w', fs', slab, err) ->
  typed fs -> typed fs'.
Proof using.
  unfold fla_pool_next_available_slab. intros Hr T. run_inv; eauto using acquire_typed, list_prepend_typed, release_typed.
Qed.

Lemma object_create_typed w fs pool (w' : W) fs' obj err : fla_base_object_create w fs pool = Some (w', fs', obj, err) ->
  typed fs -> typed fs'.
Proof using.
  unfold fla_base_object_create, object_create_in, fla_slab_id. intros Hr T.
  run_inv; eauto 10 using next_slab_typed, load_typed, next_obj_typed, list_prepend_typed, list_remove_typed.
Qed.

Lemma object_destroy_typed w fs pool o (w' : W) fs' err : fla_base_object_destroy w fs pool o = Some (w', fs', err) ->
  typed fs -> typed fs'.
Proof using.
  unfold fla_base_object_destroy. intros Hr T. run_inv; eauto using obj_free_typed;
    match goal with E : header_upd ?f _ _ = Some ?f1 |- _ =>
      assert (typed f1) by (eapply header_upd_typed; [exact E|by eapply obj_free_typed|intros; apply set_refcount_fits; auto with flex]) end;
    eauto using list_prepend_typed, list_remove_typed.
Qed.

Lemma object_open_typed w fs pool o (w' : W) fs' err : fla_base_object_open w fs pool o = Some (w', fs', err) ->
  typed fs -> typed fs'.
Proof using. unfold fla_base_object_open. intros Hr T. run_inv; eauto using load_typed. Qed.
End objects.

(** ** Pools *)

Lemma land_u32 a b : is_u32 a -> is_u32 (Z.land a b).
Proof.
  intros [Ha Hb]. split; [apply Z.land_nonneg; by left|].
  rewrite <- (Z.mod_small a (2 ^ 32)) by done. rewrite <- Z.land_ones by lia.
  rewrite <- Z.land_assoc, (Z.land_comm _ b), Z.land_assoc, Z.land_ones by lia. by apply Z.mod_pos_bound.
Qed.

Lemma lor_u32 a b : is_u32 a -> is_u32 b -> is_u32 (Z.lor a b).
Proof.
  intros Ha Hb. rewrite <- (u32_small a), <- (u32_small b) by done. unfold u32. rewrite <- !Z.land_ones by lia.
  rewrite <- Z.land_lor_distr_l, Z.land_ones by lia. apply u32_range.
Qed.

(** Freelist operations keep the words words and the length. *)
Definition words_like (fl fl' : list Z) : Prop := length fl' = length fl /\ (Forall is_u32 fl -> Forall is_u32 fl').

Lemma entry_alloc_like n : forall i fl r fl', entry_alloc_loop n i fl = Some (r, fl') -> words_like fl fl'.
Proof.
  induction n as [|n IH]; intros i fl r fl' Hr; cbn [entry_alloc_loop] in Hr; run_inv; [done|by eapply IH|].
  split; [by rewrite length_insert|]. intros Hf. apply Forall_insert; [done|]. apply land_u32. by eapply Forall_lookup_1.
Qed.

Lemma entries_alloc_like fl r fl' : fla_flist_entries_alloc fl 1 = Some (r, fl') -> words_like fl fl'.
Proof. unfold fla_flist_entries_alloc. intros Hr. run_inv. by eapply entry_alloc_like. Qed.

Lemma entry_free_like n : forall fl elem ndx fl', entry_free_loop n fl elem ndx = Some fl' -> words_like fl fl'.
Proof.
  induction n as [|n IH]; intros fl elem ndx fl' Hr; cbn [entry_free_loop] in Hr; run_inv; [by eapply IH|].
  split; [by rewrite length_insert|]. intros Hf. apply Forall_insert; [done|].
  apply lor_u32; [by eapply Forall_lookup_1|apply u32_range].
Qed.

Lemma entries_free_like fl ndx r fl' : fla_flist_entries_free fl ndx 1 = Some (r, fl') -> words_like fl fl'.
Proof.
  unfold fla_flist_entries_free. change (Z.to_nat 1) with 1%nat. cbn [entries_free_loop]. unfold fla_flist_entry_free.
  intros Hr. run_inv; try done; by eapply entry_free_like.
Qed.

(** Hash table operations keep the slots slots and the length. *)
Definition slots_like (t t' : list fla_htbl_entry) : Prop := length t' = length t /\ Forall hentry_fits t'.

Lemma sdbm_u64 key : forall h r, is_u64 h -> sdbm_loop h key = Some r -> is_u64 r.
Proof. induction key as [|c key IH]; intros h r Hh Hr; cbn [sdbm_loop] in Hr; run_inv; [done|]. eapply IH; [|eassumption]. auto with flex. Qed.

Lemma insert_slots fuel : forall n t ndx cur tries r, insert_loop fuel n t ndx cur tries = Some r ->
  Forall hentry_fits t -> hentry_fits cur -> match r with Placed t' _ | Updated t' => slots_like t t' end.
Proof.
  induction fuel as [|fuel IH]; intros n t ndx cur tries r Hr Ht Hc; cbn [insert_loop] in Hr; [done|].
  destruct (t !! ndx) as [e|] eqn:E; [|done]. pose proof (Forall_lookup_1 _ _ _ _ Ht E) as [? ? ?]. pose proof Hc as [? ? ?].
  cbn [mbind option_bind] in Hr. destruct (h2 e =? FLA_HTBL_ENTRY_UNSET).
  { simplify_eq. split; [apply length_insert|by apply Forall_insert]. }
  destruct (psl e <? psl cur).
  { apply IH in Hr; [|by apply Forall_insert|by split; cbn; auto with flex]. unfold slots_like in *.
    rewrite length_insert in Hr. done. }
  destruct (h2 e =? h2 cur).
  { simplify_eq. split; [apply length_insert|]. apply Forall_insert; [done|by split]. }
  apply IH in Hr; [done|done|]. by split; cbn; auto with flex.
Qed.

Lemma htbl_insert_typed n t key v t' err : htbl_insert t key v = Some (t', err) -> htbl_typed n t -> is_u32 v -> htbl_typed n t'.
Proof.
  unfold htbl_insert, FLA_HTBL_H2, fla_hash_sdbm. intros Hr [Hl (slots & Hs & Hn & Hf)] Hv.
  destruct (FLA_HTBL_H1 key); [|done]. destruct (sdbm_loop 0 key) as [h|] eqn:Eh; [|run_inv].
  assert (is_u64 h) by (eapply (sdbm_u64 key 0); [unfold is_u64; lia|done]).
  assert (hentry_fits (mk_entry h v 0)) by (split; unfold is_u16; cbn; done || lia).
  rewrite Hs in Hr. run_inv; try (split; [done|]; by exists slots);
    match goal with E : insert_loop _ _ _ _ _ _ = _ |- _ => apply insert_slots in E as [? ?]; [|done..] end;
    (split; [cbn; auto with flex|]); eexists; (split; [done|]); by split; [lia|].
Qed.

Lemma remove_slots fuel : forall n t entry t' last, remove_loop fuel n t entry = Some (t', last) ->
  Forall hentry_fits t -> slots_like t t'.
Proof.
  induction fuel as [|fuel IH]; intros n t entry t' last Hr Ht; cbn [remove_loop] in Hr; run_inv; [done|].
  match goal with E : t !! _ = Some _ |- _ => pose proof (Forall_lookup_1 _ _ _ _ Ht E) as [? ? ?] end.
  apply IH in Hr; [unfold slots_like in *; by rewrite length_insert in Hr|].
  apply Forall_insert; [done|]. by split; cbn; auto with flex.
Qed.

Lemma htbl_remove_typed n t key t' : htbl_remove t key = Some t' -> htbl_typed n t -> htbl_typed n t'.
Proof.
  unfold htbl_remove. intros Hr [Hl (slots & Hs & Hn & Hf)]. rewrite Hs in Hr.
  run_inv; [|by split; [done|exists slots]].
  match goal with E : remove_loop _ _ _ _ = _ |- _ => apply remove_slots in E as [? Hf']; [|done] end.
  match goal with E : _ !! _ = Some _ |- _ => pose proof (Forall_lookup_1 _ _ _ _ Hf' E) as [? ? ?] end.
  split; [cbn; auto with flex|]. eexists. split; [done|]. rewrite length_insert. split; [lia|]. apply Forall_insert; [done|].
  split; unfold is_u64, is_u16; cbn; [apply u64_range|done|lia].
Qed.

(** Assignments to the parts of the pools. *)
Lemma freelist_typed fs fl : typed fs -> words_like (ps_freelist (fs_pools fs)) fl ->
  typed (set_pools (set_freelist fl (fs_pools fs)) fs).
Proof. intros [? ? [Hl Hu ? ? ? ?] ?] [Hn Hf]. split; [done|done| |done]. split; cbn; [lia|by apply Hf|done..]. Qed.

Lemma htbl_typed_set fs t : typed fs -> htbl_typed (htbl_tbl_size (g_pool_sgmt (fs_geo fs))) t ->
  typed (set_pools (set_htbl t (fs_pools fs)) fs).
Proof. intros [? ? [? ? ? ? ? ?] ?] ?. by split. Qed.

Lemma funcs_typed fs l : typed fs -> typed (set_pools (set_entrie_funcs l (fs_pools fs)) fs).
Proof. intros [? ? [? ? ? ? ? ?] ?]. by split. Qed.

Lemma calc_objs_le fs nlb k : forall n, calc_objs_loop fs nlb k = Some n -> 0 <= n <= Z.of_nat k.
Proof. induction k as [|k IH]; intros n Hr; cbn [calc_objs_loop] in Hr; run_inv; try lia. specialize (IH _ Hr). lia. Qed.

Lemma calc_objs_u32 fs nlb n : typed fs -> 0 < nlb -> fla_calc_objs_in_slab fs nlb = Some n -> is_u32 n.
Proof.
  intros T Hn. unfold fla_calc_objs_in_slab. pose proof (ty_geo _ T) as (_ & _ & Hs & Hs'). unfold is_u32.
  pose proof (Z.div_le_upper_bound (g_slab_nlb (fs_geo fs)) nlb (g_slab_nlb (fs_geo fs)) Hn ltac:(nia)).
  pose proof (Z.div_pos (g_slab_nlb (fs_geo fs)) nlb Hs Hn). intros Hr. run_inv; [lia|].
  apply calc_objs_le in Hr. lia.
Qed.

(** The arguments of a creation hold values of their types. *)
Record arg_typed (arg : fla_pool_create_arg) : Prop := {
  at_nlb : 0 < a_obj_nlb arg < 2 ^ 32;
  at_nobjs : is_u32 (a_strp_nobjs arg);
  at_nbytes : is_u32 (a_strp_nbytes arg)
}.

Lemma entry_reset_fits f e arg n e' err : fla_pool_entry_reset f e arg n = Some (e', err) -> pentry_fits e ->
  arg_typed arg -> is_u32 n -> pentry_fits e'.
Proof.
  intros Hr [? ? ? ? ? ? ? ? Hn] [? [? ?] [? ?]] Hu.
  assert (is_u64 (strp_pack (a_strp_nobjs arg) (a_strp_nbytes arg))) by (unfold is_u64, strp_pack; lia).
  unfold fla_pool_entry_reset, fla_pool_entry_reset_strp, fla_pool_entry_reset_default, name_copy in Hr.
  run_inv; split; cbn; try (auto with flex; unfold is_u64, is_u32, FLA_ROOT_OBJ_NONE; done || lia);
    rewrite !orb_false_iff in *; rewrite length_app, length_take, length_drop; lia.
Qed.

Section pools.
Context {W : Type} `{XnvmeEnv W}.

Lemma pool_create_at_typed w fs arg n ndx (w' : W) fs' hdl err : pool_create_at w fs arg n ndx = Some (w', fs', hdl, err) ->
  typed fs -> arg_typed arg -> is_u32 n -> typed fs'.
Proof using.
  unfold pool_create_at. intros Hr T Ha Hn.
  destruct (fla_pool_initialize_entrie_func_ (fs_pools fs) ndx) as [[pools r]|] eqn:Ei; [|done].
  assert (is_u32 ndx) as Hndx.
  { unfold fla_pool_initialize_entrie_func_ in Ei. destruct (lookupZ (ps_entries (fs_pools fs)) ndx) eqn:El; [|done].
    apply lookupZ_Some in El. rewrite (pt_entries _ _ (ty_pools _ T)) in El.
    pose proof (ty_geo _ T) as [G _]. pose proof (go_npools _ G). pose proof (nslabs_bound _ G) as Hb.
    unfold is_u32, FLA_LINKED_LIST_NULL in *. lia. }
  apply entrie_func_default in Ei as [_ ->]. cbn [mbind option_bind] in Hr.
  set (fs1 := set_pools _ fs) in Hr. assert (typed fs1) as T1 by (by apply funcs_typed).
  destruct (htbl_insert _ _ _) as [[t e]|] eqn:Et; [|done]. cbn [mbind option_bind] in Hr.
  set (fs2 := set_pools (set_htbl t _) fs1) in Hr. assert (typed fs2) as T2.
  { apply htbl_typed_set; [done|]. eapply htbl_insert_typed; [exact Et|apply (ty_pools _ T1)|done]. }
  run_inv.
  - apply freelist_typed; [done|]. by eapply entries_free_like.
  - eapply upd_entry_typed; [eassumption|done|]. intros e1 He1 Hf1.
    eapply entry_reset_fits; [eassumption| |done|done]. by eapply entry_typed.
Qed.

Lemma pool_create_typed w fs arg (w' : W) fs' hdl err : fla_base_pool_create w fs arg = Some (w', fs', hdl, err) ->
  typed fs -> arg_typed arg -> typed fs'.
Proof using.
  unfold fla_base_pool_create, pool_create_new. intros Hr T Ha. run_inv; try done;
    match goal with E : fla_flist_entries_alloc _ _ = _ |- _ => apply entries_alloc_like in E as Hl end;
    [by apply freelist_typed|].
  eapply pool_create_at_typed; [eassumption|by apply freelist_typed|done|]. eapply calc_objs_u32; [done| |eassumption]. apply Ha.
Qed.
End pools.

Lemma release_list_typed fs ndx l fs' err : release_list fs ndx l = Some (fs', err) -> typed fs -> typed fs'.
Proof.
  unfold release_list, fla_hdll_remove_all. intros Hr T. run_inv. pose proof (head_typed l _ (entry_typed _ _ _ T E)).
  match goal with E : remove_all_loop _ _ _ _ = _ |- _ => destruct (remove_all_typed _ _ _ _ _ _ E) end; [done..|].
  eapply upd_entry_typed; [eassumption|done|]. intros. by apply set_head_fits.
Qed.

Lemma pool_destroy_typed fs pool fs' err : fla_base_pool_destroy fs pool = Some (fs', err) -> typed fs -> typed fs'.
Proof.
  unfold fla_base_pool_destroy, fla_pool_release_all_slabs. intros Hr T.
  run_inv; eauto 6 using release_list_typed;
    match goal with E : fla_flist_entries_free (ps_freelist (fs_pools ?f)) _ _ = _ |- _ =>
      assert (typed f) as T1 by eauto using release_list_typed; apply entries_free_like in E;
      pose proof (freelist_typed _ _ T1 E) as T2 end; try done;
    (apply htbl_typed_set; [done|]; eapply htbl_remove_typed; [eassumption|]; apply (ty_pools _ T2)).
Qed.

Lemma set_root_typed fs pool o act fs' err : fla_base_pool_set_root_object fs pool o act = Some (fs', err) -> typed fs ->
  is_u32 (o_slab_id o) -> is_u32 (o_entry_ndx o) -> typed fs'.
Proof.
  unfold fla_base_pool_set_root_object. intros Hr T [? ?] [? ?]. run_inv; [done|].
  eapply upd_entry_typed; [eassumption|done|]. intros e _ [? ? ? ? ? ? ? ? ?].
  split; try done. cbn. case_match; unfold is_u64, obj_pack, FLA_ROOT_OBJ_NONE; lia.
Qed.

(** ** From formatting on *)

(** What [typed] is for: the parts can be stored and loaded again. *)
Lemma typed_parts fs : typed fs -> exists p, md_of fs = Some p /\ md_fits (fs_geo fs) p.
Proof.
  intros [_ ? [? ? ? [_ (t & Ht & ? & ?)] ? ?] [? ? ?]]. unfold md_of. rewrite Ht. bind_step. eexists. split; [done|].
  by split.
Qed.

Lemma opened_typed dev geo p h : geo_ok geo -> md_small geo -> is_u32 (g_slab_nlb geo) -> md_fits geo p ->
  opened dev geo p h -> typed (h_fs h).
Proof.
  intros G S Hs [? ? ? Hh ? ? ? ? ? ? ?] [(funcs & -> & _) _ _ _]. split; [done|done| |by split].
  split; try done. cbn. split; [by destruct Hh|]. by exists (sg_table (md_pools p)).
Qed.

Section steps.
Context {W : Type} `{E : XnvmeEnv W} `{A : XnvmeAdm W}.

(** The operations that change the metadata of an open system, with whatever result. *)
Inductive md_step : W * flexalloc -> W * flexalloc -> Prop :=
  | step_pool_create w fs arg w' fs' hdl err : arg_typed arg ->
      fla_base_pool_create w fs arg = Some (w', fs', hdl, err) -> md_step (w, fs) (w', fs')
  | step_pool_destroy w fs pool fs' err :
      fla_base_pool_destroy fs pool = Some (fs', err) -> md_step (w, fs) (w, fs')
  | step_set_root w fs pool o act fs' err : is_u32 (o_slab_id o) -> is_u32 (o_entry_ndx o) ->
      fla_base_pool_set_root_object fs pool o act = Some (fs', err) -> md_step (w, fs) (w, fs')
  | step_object_create w fs pool w' fs' obj err :
      fla_base_object_create w fs pool = Some (w', fs', obj, err) -> md_step (w, fs) (w', fs')
  | step_object_open w fs pool o w' fs' err :
      fla_base_object_open w fs pool o = Some (w', fs', err) -> md_step (w, fs) (w', fs')
  | step_object_destroy w fs pool o w' fs' err :
      fla_base_object_destroy w fs pool o = Some (w', fs', err) -> md_step (w, fs) (w', fs').

Lemma step_typed s s' : md_step s s' -> typed s.2 -> typed s'.2.
Proof using.
  destruct 1; cbn [snd]; eauto using pool_create_typed, pool_destroy_typed, set_root_typed, object_create_typed,
    object_open_typed, object_destroy_typed.
Qed.

Lemma steps_typed s s' : rtc md_step s s' -> typed s.2 -> typed s'.2.
Proof using. induction 1; eauto using step_typed. Qed.

Context (block : W -> xnvme_dev -> Z -> list Z) `{!XnvmeLaws W block} `{!XnvmeAdmLaws W block}.

Lemma mkfs_open_typed dev pr w0 geo0 md_geo0 junk w1 w2 h : mkfs_request dev pr ->
  fla_mkfs w0 pr geo0 md_geo0 junk = Some (w1, 0) -> fla_open w1 (mp_open_opts pr) = Some (w2, Some h, 0) ->
  typed (h_fs h) /\ exists geo p, opened dev geo p h /\ fresh_md geo p /\ dev_for dev geo /\ g_npools geo = mp_npools pr.
Proof using All.
  intros R Em Eo. destruct (mkfs_spec block w0 pr geo0 md_geo0 junk dev R) as (w' & err & Em' & Hf).
  rewrite Em in Em'. apply Some2_inj in Em' as [<- <-].
  destruct (Hf eq_refl) as (geo & p & D & G & S & Hsl & Hp & Hmd & F & Hfit).
  destruct (formatted_opened block w1 pr dev geo p R D G S Hmd F) as (w3 & h' & err & Eo' & _ & Hok).
  rewrite Eo in Eo'. apply Some3_inj in Eo' as (<- & <- & <-). destruct (Hok eq_refl) as (hd & [= <-] & Ho).
  pose proof (mr_slab _ _ R). split; [|by exists geo, p]. eapply opened_typed; try done. rewrite Hsl. unfold is_u32. lia.
Qed.
End steps.
