(* ===== verification/History.v ===== *)
(** * History: the allocator from a formatted device on

    A formatted system has every slab in the free queue, no pool and an empty
    cache.  A client then creates a pool and creates and destroys objects in any
    order.  The theorems say what every such history yields: it runs to the end,
    the objects the client holds are exactly the ones the allocator accounts for,
    and their blocks on the device do not overlap. *)
From S2P Require Import Prelude Util Freelist Hash XnvmeEnv Flexalloc PoolEntry Geometry CommandSet.
From S2P Require Import SlabList SlabCache Slab Pool Object Alloc DataPlacement Layout Format System.

(** ** The first pool *)

Lemma htbl_other_static fs fs' ndx : same_but_pools fs fs' ->
  ps_entrie_funcs (fs_pools fs') = insertZ ndx fnc_default (ps_entrie_funcs (fs_pools fs)) ->
  cns_fs fs -> hdrs_ok fs -> cns_fs fs' /\ hdrs_ok fs'.
Proof.
  intros [G D C _ S _] _ [? ? ?] [Hl Hr]. unfold headers in Hl.
  split; split; unfold headers; rewrite ?G, ?D, ?C, ?S; done.
Qed.

(** The first pool gets index 0 and starts with no slab. *)
Lemma first_pool U fs free fs' arg h n ndx : vacant U fs free -> same_but_pools fs fs' ->
  create_ok fs arg h n fs' ndx -> fla_calc_objs_in_slab fs (a_obj_nlb arg) = Some n -> n < 2 ^ 31 ->
  0 < a_obj_nlb arg ->
  ndx = 0 /\ exists e, pe_obj_nlb e = a_obj_nlb arg /\
    alloc_inv fs' e n free (fun _ => []) /\ forall o, ~ live fs' n o.
Proof.
  intros R S [(Hn0 & _ & Hlow) Hnr Hn1 _ _ _ (e0 & name & He0 & He & _) Hfn] Hcalc Hn Ho.
  assert (ndx = 0) as ->.
  { destruct (decide (ndx = 0)) as [|Hne]; [done|]. specialize (Hlow 0 ltac:(lia)). rewrite (va_first _ _ _ R) in Hlow. done. }
  split; [done|]. exists (created e0 arg n name). split; [done|].
  destruct (htbl_other_static fs fs' 0 S Hfn (va_cns _ _ _ R) (va_hdrs _ _ _ R)) as [C' H'].
  pose proof S as [G D C _ Sl Ca].
  assert (forall x, cache_elem fs' x = cache_elem fs x) as Hce by (intros x; unfold cache_elem; by rewrite Ca).
  split; [split|]; try done.
  - split.
    + unfold headers. rewrite Sl. apply (va_queue _ _ _ R).
    + unfold pool_entry_at. rewrite He. apply lookupZ_insertZ_eq. rewrite (di_entries _ _ (va_dir _ _ _ R)). lia.
    + intros l. split; [by destruct l|done|constructor].
    + intros l l' x Hx. by apply not_elem_of_nil in Hx.
    + intros l x Hx. by apply not_elem_of_nil in Hx.
  - unfold entry_fnc_at. rewrite Hfn. apply lookupZ_insertZ_eq. rewrite (di_funcs _ _ (va_dir _ _ _ R)). lia.
  - rewrite <- Hcalc. by apply calc_objs_frame; [|rewrite D].
  - cbn. lia.
  - rewrite G. intros x Hx. rewrite Hce. by apply (va_cache _ _ _ R).
  - intros x el. rewrite Hce. intros Hel Hns. by destruct Hns; eapply (va_stale _ _ _ R).
  - rewrite G, Sl. cbn. pose proof (va_num _ _ _ R). lia.
  - intros l x Hx. by apply not_elem_of_nil in Hx.
  - intros o (fl & st & Hc & Hs & _). rewrite Hce in Hc. by apply (va_stale _ _ _ R) in Hc.
Qed.

(** ** Client histories *)

(** A client creates objects and destroys objects it holds, in any order; a failed
    creation leaves it with what it holds. *)
Inductive client_op := OpCreate | OpDestroy (i : nat).

(** The client's view agrees with the allocator's: [n] objects of [nlb] blocks per
    slab, and the client holds the live ones. *)
Definition holds (fs : flexalloc) (nlb n : Z) (held : list fla_object) : Prop :=
  (exists e free ls, alloc_inv fs e n free ls /\ pe_obj_nlb e = nlb) /\
  NoDup held /\ forall o, o ∈ held <-> live fs n o.

(** The same, with [k] slabs in the queue and the lists of the pool. *)
Definition holds_in (k : nat) (fs : flexalloc) (nlb n : Z) (held : list fla_object) : Prop :=
  (exists e free ls, alloc_inv fs e n free ls /\ pe_obj_nlb e = nlb /\ accounted free ls = k) /\
  NoDup held /\ forall o, o ∈ held <-> live fs n o.

Lemma holds_holds_in fs nlb n held : holds fs nlb n held <-> exists k, holds_in k fs nlb n held.
Proof.
  split; [intros [(e & free & ls & I & He) Hh]; exists (accounted free ls); by split; [exists e, free, ls|]|].
  intros (k & (e & free & ls & I & He & _) & Hh). by split; [exists e, free, ls|].
Qed.

Lemma NoDup_delete (held : list fla_object) i o : NoDup held -> held !! i = Some o ->
  NoDup (delete i held) /\ forall o', o' ∈ delete i held <-> o' <> o /\ o' ∈ held.
Proof.
  intros Hnd Hi. pose proof (delete_Permutation held i o Hi) as Hp. rewrite Hp in Hnd.
  apply NoDup_cons in Hnd as [Hn Hnd]. split; [done|]. intros o'. rewrite Hp at 2. rewrite elem_of_cons.
  split; [|naive_solver]. intros Ho'. split; [|by right]. intros ->. done.
Qed.

(** A new object joins the held ones. *)
Lemma holds_in_add fs nlb n held fs' o e free ls : holds fs nlb n held -> ~ live fs n o ->
  (forall o', live fs' n o' <-> o' = o \/ live fs n o') -> alloc_inv fs' e n free ls -> pe_obj_nlb e = nlb ->
  holds_in (accounted free ls) fs' nlb n (held ++ [o]).
Proof.
  intros [_ [Hnd Hh]] Hnl Hl I He. split; [by exists e, free, ls|].
  split; [|intros o'; rewrite elem_of_app, list_elem_of_singleton, Hl, Hh; tauto].
  apply NoDup_app. split; [done|]. split; [|apply NoDup_singleton].
  intros o' Ho'. rewrite list_elem_of_singleton. intros ->. by apply Hnl, Hh.
Qed.

Lemma holds_add fs nlb n held fs' o e free ls : holds fs nlb n held -> ~ live fs n o ->
  (forall o', live fs' n o' <-> o' = o \/ live fs n o') -> alloc_inv fs' e n free ls -> pe_obj_nlb e = nlb ->
  holds fs' nlb n (held ++ [o]).
Proof. intros. apply holds_holds_in. eexists. by eapply holds_in_add. Qed.

Section client.
Context {W : Type} `{E : XnvmeEnv W}.

Definition client_step (op : client_op) (w : W) (fs : flexalloc) (pool : fla_pool) (held : list fla_object) :
    option (W * flexalloc * list fla_object) :=
  match op with
  | OpCreate =>
      '(w, fs, obj, err) ← fla_base_object_create w fs pool;
      if err =? 0 then o ← obj; Some (w, fs, held ++ [o]) else Some (w, fs, held)
  | OpDestroy i =>
      match held !! i with
      | Some o =>
          '(w, fs, err) ← fla_base_object_destroy w fs pool o;
          Some (w, fs, if err =? 0 then delete i held else held)
      | None => Some (w, fs, held)
      end
  end.

Fixpoint client (ops : list client_op) (w : W) (fs : flexalloc) (pool : fla_pool) (held : list fla_object) :
    option (W * flexalloc * list fla_object) :=
  match ops with
  | [] => Some (w, fs, held)
  | op :: ops => '(w, fs, held) ← client_step op w fs pool held; client ops w fs pool held
  end.

(** The slabs that the client's creations lose: one whenever memory for a freelist is
    refused. *)
Definition client_step_lost (op : client_op) (w : W) (fs : flexalloc) (pool : fla_pool) : nat :=
  match op with
  | OpCreate => from_option (fun r => slabs_lost r.2) 0%nat (fla_base_object_create w fs pool)
  | OpDestroy _ => 0
  end.

Fixpoint client_lost (ops : list client_op) (w : W) (fs : flexalloc) (pool : fla_pool) (held : list fla_object) : nat :=
  match ops with
  | [] => 0
  | op :: ops => client_step_lost op w fs pool +
      from_option (fun r => client_lost ops r.1.1 r.1.2 pool r.2) 0%nat (client_step op w fs pool held)
  end.

Context (block : W -> xnvme_dev -> Z -> list Z) `{!XnvmeLaws W block}.

Lemma client_step_accounts k op pool nlb n w fs held : p_ndx pool = 0 -> holds_in k fs nlb n held ->
  exists k' w' fs' held', client_step op w fs pool held = Some (w', fs', held') /\
    holds_in k' fs' nlb n held' /\ (k' + client_step_lost op w fs pool)%nat = k /\
    same_static fs fs' /\ (forall dev lba, block w' dev lba = block w dev lba).
Proof using All.
  intros Hp [(e & free & ls & I & Ho & Ek) [Hnd Hh]]. destruct op as [|i]; cbn [client_step client_step_lost].
  - destruct (create_spec block fs e n free ls I w pool Hp) as (w1 & fs1 & obj & err & -> & Hb & Hst & Hres).
    bind_step.
    destruct Hres as [(-> & o & e1 & free1 & ls1 & -> & Hnl & Hl & I1 & Ho1 & Ac)|(Herr & -> & Hl & _ & _ & _ & free1 & I1 & Ac)].
    + change (0 =? 0) with true. cbv iota. bind_step. exists (accounted free1 ls1). do 3 eexists. split; [done|].
      split; [|split; [cbn [from_option snd]; change (slabs_lost 0) with 0%nat; lia|done]].
      eapply holds_in_add; [by split; [exists e, free, ls|]|exact Hnl|exact Hl|exact I1|congruence].
    + rewrite (proj2 (Z.eqb_neq _ _) Herr). exists (accounted free1 ls). do 3 eexists. split; [done|]. split; [|split; [cbn [from_option snd]; lia|done]].
      split; [by exists e, free1, ls|]. split; [done|]. intros o'. by rewrite Hl, Hh.
  - destruct (held !! i) as [o|] eqn:Ei.
    2: { exists k. do 3 eexists. split; [done|]. split; [|split; [lia|done]]. by split; [exists e, free, ls|]. }
    assert (live fs n o) as Hlo by (apply Hh; by eapply list_elem_of_lookup_2).
    destruct (destroy_spec fs e n free ls I pool Hp w o Hlo) as (fs1 & e1 & ls1 & -> & Hl & I1 & Hst & Ho1 & Ow).
    bind_step. change (0 =? 0) with true. cbv iota. exists k. do 3 eexists. split; [done|]. split; [|split; [lia|done]].
    split; [exists e1, free, ls1; split; [done|]; split; [congruence|unfold accounted in *; lia]|].
    destruct (NoDup_delete held i o Hnd Ei) as [Hnd' Hel]. split; [done|]. intros o'. by rewrite Hel, Hl, Hh.
Qed.

Lemma client_step_spec op pool nlb n w fs held : p_ndx pool = 0 -> holds fs nlb n held ->
  exists w' fs' held', client_step op w fs pool held = Some (w', fs', held') /\
    holds fs' nlb n held' /\ same_static fs fs' /\ (forall dev lba, block w' dev lba = block w dev lba).
Proof using All.
  intros Hp [k Hh]%holds_holds_in. destruct (client_step_accounts k op pool nlb n w fs held Hp Hh) as (k' & w' & fs' & held' & Es & Hh' & _ & Hst & Hb).
  exists w', fs', held'. split; [done|]. split; [apply holds_holds_in; by exists k'|done].
Qed.

(** A client's history: it runs to its end, and every slab is in the queue or in a
    list of the pool, but for those lost. *)
Lemma client_accounts ops pool nlb n : p_ndx pool = 0 -> forall k w fs held, holds_in k fs nlb n held ->
  exists k' w' fs' held', client ops w fs pool held = Some (w', fs', held') /\
    holds_in k' fs' nlb n held' /\ (k' + client_lost ops w fs pool held)%nat = k /\
    same_static fs fs' /\ (forall dev lba, block w' dev lba = block w dev lba).
Proof using All.
  intros Hp. induction ops as [|op ops IH]; intros k w fs held Hh.
  - exists k, w, fs, held. cbn [client_lost]. split; [done|]. split; [done|]. by split; [lia|].
  - destruct (client_step_accounts k op pool nlb n w fs held Hp Hh) as (k1 & w1 & fs1 & held1 & Es & Hh1 & Hk1 & Hst & Hb).
    destruct (IH k1 w1 fs1 held1 Hh1) as (k2 & w2 & fs2 & held2 & Ec & Hh2 & Hk2 & Hst2 & Hb2).
    exists k2, w2, fs2, held2. cbn [client client_lost]. rewrite Es. cbn [from_option fst snd]. bind_step. split; [done|]. split; [done|].
    split; [lia|]. split; [by eapply same_static_trans|]. intros. by rewrite Hb2.
Qed.

Lemma client_spec ops pool nlb n : p_ndx pool = 0 -> forall w fs held, holds fs nlb n held ->
  exists w' fs' held', client ops w fs pool held = Some (w', fs', held') /\
    holds fs' nlb n held' /\ same_static fs fs' /\ (forall dev lba, block w' dev lba = block w dev lba).
Proof using All.
  intros Hp w fs held [k Hh]%holds_holds_in. destruct (client_accounts ops pool nlb n Hp k w fs held Hh) as (k' & w' & fs' & held' & Ec & Hh' & _ & Hst & Hb).
  exists w', fs', held'. split; [done|]. split; [apply holds_holds_in; by exists k'|done].
Qed.
End client.

(** ** Sessions *)

Section session.
Context {W : Type} `{E : XnvmeEnv W} `{A : XnvmeAdm W}.

(** A client formats the device [dev], opens it as [h] and creates a first pool,
    which leaves the world [w] and the system [fs]. *)
Record session (dev : xnvme_dev) (pr : fla_mkfs_p) (U : list (list Z)) (arg : fla_pool_create_arg)
    (w : W) (h : handle) (fs : flexalloc) (pool : fla_pool) : Prop := {
  se_keys : keys_ok U;
  se_request : mkfs_request dev pr;
  se_name : a_name arg ∈ U;
  se_name_len : 0 <= a_name_len arg <= Z.of_nat (length (a_name arg));
  se_obj_nlb : 0 < a_obj_nlb arg;
  se_steps : exists w0 geo0 md_geo0 junk w1 w2, fla_mkfs w0 pr geo0 md_geo0 junk = Some (w1, 0) /\
    fla_open w1 (mp_open_opts pr) = Some (w2, Some h, 0) /\
    fla_base_pool_create w2 (h_fs h) arg = Some (w, fs, Some pool, 0)
}.

Context (block : W -> xnvme_dev -> Z -> list Z) `{!XnvmeLaws W block} `{!XnvmeAdmLaws W block}.

(** Formatting and opening give a system with nothing in it. *)
Lemma mkfs_open_ready U dev pr w0 geo0 md_geo0 junk w1 w2 h : keys_ok U -> mkfs_request dev pr ->
  fla_mkfs w0 pr geo0 md_geo0 junk = Some (w1, 0) -> fla_open w1 (mp_open_opts pr) = Some (w2, Some h, 0) ->
  ready U (h_fs h) /\ on_device dev (h_fs h) /\ dp_installed (h_dp h).
Proof using All.
  intros HU R Em Eo. destruct (mkfs_spec block w0 pr geo0 md_geo0 junk dev R) as (w' & err & Em' & Hf).
  rewrite Em in Em'. injection Em' as <- <-.
  destruct (formatted_open block U w1 pr dev HU R (Hf eq_refl)) as (w'' & h' & err & Eo' & _ & Hok).
  rewrite Eo in Eo'. apply Some3_inj in Eo' as (<- & <- & <-). destruct (Hok eq_refl) as (hd & [= <-] & ? & ? & ?). done.
Qed.

(** The pool a session creates. *)
Lemma session_created dev pr U arg w h fs pool : session dev pr U arg w h fs pool ->
  exists k n, ready U (h_fs h) /\ on_device dev (h_fs h) /\ dp_installed (h_dp h) /\
    fla_calc_objs_in_slab (h_fs h) (a_obj_nlb arg) = Some n /\ n < 2 ^ 31 /\ same_but_pools (h_fs h) fs /\
    dir_inv U fs /\ (p_h2 pool = k /\ FLA_HTBL_H2 (a_name arg) = Some k) /\ create_ok (h_fs h) arg k n fs (p_ndx pool).
Proof using All.
  intros [HU Rq Hk Hlen Ho (w0 & geo0 & md_geo0 & junk & w1 & w2 & Em & Eo & Hc)].
  destruct (mkfs_open_ready U dev pr w0 geo0 md_geo0 junk w1 w2 h HU Rq Em Eo) as (R & Od & Hdp).
  destruct (ko_string U HU _ Hk) as (a & k & _ & Hh).
  destruct (calc_objs_spec (h_fs h) (a_obj_nlb arg) (rd_cns _ _ R) Ho) as (n & Hn & Hr & _).
  assert (dir (h_fs h) !! k = None) as Hnew by (rewrite (rd_empty _ _ R); apply lookup_empty).
  destruct (pool_create_spec block U (h_fs h) (rd_dir _ _ R) (rd_cns _ _ R) arg k n Hk Hh Hnew Hn Hlen w2)
    as (w'' & fs'' & hdl & err & Hc' & _ & S & D & Hout).
  rewrite Hc in Hc'. injection Hc' as <- <- <- <-. destruct Hout as [[? _]|(_ & ndx & [= ->] & CO)]; [done|].
  exists k, n. do 4 (split; [done|]). split; [lia|]. done.
Qed.

(** The client starts with an empty pool. *)
Lemma session_start dev pr U arg w h fs pool : session dev pr U arg w h fs pool ->
  p_ndx pool = 0 /\ dp_installed (h_dp h) /\ on_device dev fs /\
  exists n, fla_calc_objs_in_slab fs (a_obj_nlb arg) = Some n /\ 0 < n /\ holds fs (a_obj_nlb arg) n [].
Proof using All.
  intros Se. destruct (session_created dev pr U arg w h fs pool Se) as (k & n & R & Od & Hdp & Hn & Hb & S & _ & _ & CO).
  destruct (first_pool U (h_fs h) _ fs arg k n (p_ndx pool) (ready_vacant _ _ R) S CO Hn Hb (se_obj_nlb _ _ _ _ _ _ _ _ Se)) as (Hp & e & He & I & Hl).
  split; [done|]. split; [done|]. split.
  { destruct Od as [Hd [? ? ? ?] Hl0]. pose proof S as [SG SD _ SS _ _].
    split; [by rewrite SD|split; by rewrite ?SD, ?SG, ?SS|by rewrite SD, SG]. }
  exists n. split; [rewrite <- He; apply (ai_calc _ _ _ _ _ I)|]. split; [apply (ai_range _ _ _ _ _ I)|].
  split; [by eauto|]. split; [constructor|]. intros o. split; [by intros ?%not_elem_of_nil|by intros ?%Hl].
Qed.
End session.

(** ** A concrete system: 15 slabs of 64 blocks, room for two pools *)

#[export] Instance ex_disks : XnvmeAdm RamDisk.world := RamAdm.adm [([100; 0], ex_dev1k)] false.
#[export] Instance ex_disks_laws : XnvmeAdmLaws RamDisk.world RamDisk.block.
Proof. apply RamAdm.adm_laws. Qed.

Definition ex_request : fla_mkfs_p := mk_mkfs_p (mk_open_opts [100; 0] None None) 64 2.
Definition ex_junk : fla_pool * fla_object * Z := (mk_pool 9 9, mk_obj 9 9, 9).
Definition ex_disk : RamDisk.world :=
  from_option fst ex_world (fla_mkfs ex_world ex_request ex_geo0 ex_geo0 ex_junk).
Definition ex_none : handle := mk_handle ex_cns dp_zero [].
Definition ex_handle : handle :=
  from_option (fun r => default ex_none r.1.2) ex_none (fla_open ex_disk (mp_open_opts ex_request)).
Notation ex_fs1 := (h_fs ex_handle).

Definition ex_arg (c nlb : Z) : fla_pool_create_arg := mk_create_arg 0 [c; 0] 1 nlb 0 0.
Definition ex_names : list (list Z) := [[97; 0]; [98; 0]].
Definition ex_pool : fla_pool := mk_pool 97 0.
Definition ex_fs2 : flexalloc :=
  from_option (fun r => r.1.1.2) ex_cns (fla_base_pool_create ex_disk ex_fs1 (ex_arg 97 10)).
Definition ex_ops : list client_op := [OpCreate; OpCreate; OpDestroy 0; OpCreate; OpCreate].
Definition ex_fs3 : flexalloc := from_option (fun r => r.1.2) ex_cns (client ex_ops ex_disk ex_fs2 ex_pool []).
Definition ex_held : list fla_object := [mk_obj 0 1; mk_obj 0 0; mk_obj 0 2].

Lemma ex_keys : keys_ok ex_names.
Proof. apply keys_okb_sound. vm_compute. reflexivity. Qed.
Lemma ex_name_in : a_name (ex_arg 97 10) ∈ ex_names.
Proof. by left. Qed.
Lemma ex_mkfs : fla_mkfs ex_world ex_request ex_geo0 ex_geo0 ex_junk = Some (ex_disk, 0).
Proof. vm_compute. reflexivity. Qed.
Lemma ex_open : fla_open ex_disk (mp_open_opts ex_request) = Some (ex_disk, Some ex_handle, 0).
Proof. vm_compute. reflexivity. Qed.
Lemma ex_create : fla_base_pool_create ex_disk ex_fs1 (ex_arg 97 10) = Some (ex_disk, ex_fs2, Some ex_pool, 0).
Proof. vm_compute. reflexivity. Qed.
Lemma ex_client : client ex_ops ex_disk ex_fs2 ex_pool [] = Some (ex_disk, ex_fs3, ex_held).
Proof. vm_compute. reflexivity. Qed.

Lemma ex_request_ok : mkfs_request ex_dev1k ex_request.
Proof.
  split; [|by eexists|reflexivity|split; vm_compute; split; congruence|reflexivity|vm_compute; split; congruence..|].
  - by intros w o w' d [= _ <-].
  - intros geo G Hn Hl _. unfold md_small. rewrite Hl. destruct (geo_parts_nonneg geo G) as (? & ? & ? & ?).
    pose proof (go_fits _ G) as Hf. pose proof (go_nslabs _ G). pose proof (go_slab _ G). rewrite geo_nblocks_eq by done.
    unfold slabs_base. change (dev_lba ex_dev1k) with 512. change (dev_nlb ex_dev1k) with 1024 in Hn.
    pose proof (Z.mul_nonneg_nonneg (g_nslabs geo) (g_slab_nlb geo)). lia.
Qed.

Lemma ex_session : session ex_dev1k ex_request ex_names (ex_arg 97 10) ex_disk ex_handle ex_fs2 ex_pool.
Proof.
  split; [exact ex_keys|exact ex_request_ok|exact ex_name_in|cbn; lia|cbn; lia|].
  exists ex_world, ex_geo0, ex_geo0, ex_junk, ex_disk, ex_disk. split; [exact ex_mkfs|]. split; [exact ex_open|exact ex_create].
Qed.

(** ** Claims *)

(** C4: On a freshly formatted device with one pool, every sequence of object
    creations and destructions runs to the end, the objects the client was given and
    has not destroyed are pairwise different, they are exactly the objects whose
    entry is reserved in a cached freelist, and no block of a device changes. *)
Theorem allocator_history {W} `{E : XnvmeEnv W} `{A : XnvmeAdm W} block `{!XnvmeLaws W block}
    `{!XnvmeAdmLaws W block} dev pr U arg w2 h fs2 pool ops :
  session dev pr U arg w2 h fs2 pool ->
  exists n w' fs' held, fla_calc_objs_in_slab fs2 (a_obj_nlb arg) = Some n /\
    client ops w2 fs2 pool [] = Some (w', fs', held) /\
    NoDup held /\ (forall o, o ∈ held <-> live fs' n o) /\
    (forall dev lba, block w' dev lba = block w2 dev lba).
Proof.
  intros Se. destruct (session_start block dev pr U arg w2 h fs2 pool Se) as (Hp & _ & _ & n & Hn & _ & Hh).
  destruct (client_spec block ops pool (a_obj_nlb arg) n Hp w2 fs2 [] Hh) as (w' & fs' & held & Ec & (_ & Hnd & Hl) & _ & Hb).
  exists n, w', fs', held. done.
Qed.

(** C3: The blocks of the objects a client holds after any such sequence: every
    object starts behind the metadata, has the object size of the pool, ends before
    the blocks that hold its slab's freelist and inside the device, and no two held
    objects share a block. *)
Theorem held_objects_disjoint {W} `{E : XnvmeEnv W} `{A : XnvmeAdm W} block `{!XnvmeLaws W block}
    `{!XnvmeAdmLaws W block} dev pr U arg w2 h fs2 pool ops w' fs' held i j oi oj :
  session dev pr U arg w2 h fs2 pool ->
  client ops w2 fs2 pool [] = Some (w', fs', held) -> held !! i = Some oi -> held !! j = Some oj ->
  exists si ei sj ej n q fl, fla_object_slba fs' oi pool = Some si /\ fla_object_elba fs' oi pool = Some ei /\
    fla_object_slba fs' oj pool = Some sj /\ fla_object_elba fs' oj pool = Some ej /\
    fla_calc_objs_in_slab fs' (a_obj_nlb arg) = Some n /\ fla_slab_cache_flist_nlb fs' n = Some q /\
    cache_entry_lb_slba fs' (o_slab_id oi) q = Some fl /\
    fla_geo_nblocks (fs_geo fs') <= si /\ ei = si + a_obj_nlb arg /\ ei <= fl /\ fl + q <= g_nlb (fs_geo fs') /\
    (i <> j -> ei <= sj \/ ej <= si).
Proof.
  intros Se Hrun Hi Hj. destruct (session_start block dev pr U arg w2 h fs2 pool Se) as (Hp & _ & Od & n & _ & _ & Hh).
  destruct (client_spec block ops pool (a_obj_nlb arg) n Hp w2 fs2 [] Hh)
    as (w3 & fs3 & held3 & Ec & ((e & free & ls & I & He) & Hnd & Hl) & Hst & _).
  rewrite Hrun in Ec. injection Ec as <- <- <-.
  assert (forall k o, held !! k = Some o -> obj_placed fs' e n o) as Hpl.
  { intros k o Ho. eapply live_placed; [exact I|]. apply Hl. by eapply list_elem_of_lookup_2. }
  destruct (placed_extent fs' e n pool oi (Hpl _ _ Hi) Hp) as (Si & Ei & Ri & Ki & q & Hq & Hfit).
  destruct (placed_extent fs' e n pool oj (Hpl _ _ Hj) Hp) as (Sj & Ej & Rj & Kj & _).
  pose proof (ai_cns _ _ _ _ _ I) as C. pose proof (cf_geo _ C) as G. pose proof (ai_range _ _ _ _ _ I) as [Ho Hn].
  destruct (entry_slba_eq fs' (o_slab_id oi) n q C) as [Hfl Hq0]; try done;
    [rewrite (st_super _ _ Hst), (st_geo _ _ Hst); apply Od|nia|].
  pose proof (slab_extent_inside _ _ G Ri). rewrite geo_nblocks_eq by done. rewrite He in *.
  do 7 eexists. do 4 (split; [eassumption|]). split; [rewrite <- He; apply (ai_calc _ _ _ _ _ I)|].
  split; [exact Hq|]. split; [exact Hfl|]. pose proof (go_slab _ G).
  assert (i <> j -> o_slab_id oi <> o_slab_id oj \/ o_entry_ndx oi <> o_entry_ndx oj) as Hne.
  { intros Hij. destruct (decide (o_slab_id oi = o_slab_id oj)); [right|by left]. intros Hk'. apply Hij.
    eapply NoDup_lookup; [exact Hnd|exact Hi|]. rewrite Hj. f_equal. destruct oi, oj. cbn in *. congruence. }
  repeat split; [nia..|]. intros Hij. apply Hne in Hij. apply extents_apart with (n := n); try done; lia.
Qed.

Lemma allocator_history_witness : exists n,
  fla_calc_objs_in_slab ex_fs2 10 = Some n /\ forall o, o ∈ ex_held <-> live ex_fs3 n o.
Proof.
  destruct (allocator_history RamDisk.block ex_dev1k ex_request ex_names (ex_arg 97 10) ex_disk ex_handle ex_fs2 ex_pool
              ex_ops ex_session) as (n & w' & fs' & held & Hn & Hc & _ & Hl & _).
  rewrite ex_client in Hc. apply Some3_inj in Hc as (<- & <- & <-). exists n. split; [exact Hn|exact Hl].
Defined.

Lemma held_objects_disjoint_witness : exists si ei sj ej,
  fla_object_slba ex_fs3 (mk_obj 0 1) ex_pool = Some si /\ fla_object_elba ex_fs3 (mk_obj 0 1) ex_pool = Some ei /\
  fla_object_slba ex_fs3 (mk_obj 0 2) ex_pool = Some sj /\ fla_object_elba ex_fs3 (mk_obj 0 2) ex_pool = Some ej /\
  (ei <= sj \/ ej <= si).
Proof.
  destruct (held_objects_disjoint RamDisk.block ex_dev1k ex_request ex_names (ex_arg 97 10) ex_disk ex_handle ex_fs2
              ex_pool ex_ops ex_disk ex_fs3 ex_held 0 2 (mk_obj 0 1) (mk_obj 0 2) ex_session ex_client)
    as (si & ei & sj & ej & n & q & fl & H1 & H2 & H3 & H4 & _ & _ & _ & _ & _ & _ & _ & Hd);
    [reflexivity|reflexivity|].
  exists si, ei, sj, ej. split; [exact H1|]. split; [exact H2|]. split; [exact H3|]. split; [exact H4|]. apply Hd. discriminate.
Defined.

(** C5: Object creation in a system that satisfies the allocator's invariant: it
    returns an object that did not exist, adds it and nothing else, and keeps the
    invariant; or it returns an error, which only happens when no slab of the pool
    has room and either no free slab is left (the code is [FLA_ERR_ALL_SLABS_USED], or -1
    when lost slabs are still counted as free) or memory for a freelist could not be
    allocated, and then every object stays. *)
Theorem object_create_correct {W} `{E : XnvmeEnv W} block `{!XnvmeLaws W block} fs e n free ls w pool :
  alloc_inv fs e n free ls -> p_ndx pool = 0 ->
  exists w' fs' obj err, fla_base_object_create w fs pool = Some (w', fs', obj, err) /\
    (forall dev lba, block w' dev lba = block w dev lba) /\ same_static fs fs' /\
    ((err = 0 /\ exists o e' free' ls', obj = Some o /\ ~ live fs n o /\
        (forall o', live fs' n o' <-> o' = o \/ live fs n o') /\ alloc_inv fs' e' n free' ls') \/
     (err <> 0 /\ obj = None /\ (forall o', live fs' n o' <-> live fs n o') /\
        ls EmptySlabs = [] /\ ls PartialSlabs = [] /\
        ((free = [] /\ (err = FLA_ERR_ALL_SLABS_USED \/ err = -1)) \/ err = - ENOMEM) /\
        exists free', alloc_inv fs' e n free' ls)).
Proof.
  intros I Hp. destruct (create_spec block fs e n free ls I w pool Hp)
    as (w' & fs' & obj & err & Ec & Hb & Hst & Hres).
  exists w', fs', obj, err. split; [done|]. split; [done|]. split; [done|].
  destruct Hres as [(-> & o & e' & free' & ls' & ? & ? & ? & ? & _)|(? & ? & ? & ? & ? & ? & free' & ? & _)]; [left|right].
  - split; [done|]. by exists o, e', free', ls'.
  - do 6 (split; [done|]). by exists free'.
Qed.

(** The invariant holds in the concrete system. *)
Lemma ex_inv : exists e n free ls, alloc_inv ex_fs3 e n free ls /\ live ex_fs3 n (mk_obj 0 2).
Proof.
  destruct (session_start RamDisk.block _ _ _ _ _ _ _ _ ex_session) as (Hp & _ & _ & n & _ & _ & Hh).
  destruct (client_spec RamDisk.block ex_ops ex_pool _ n Hp ex_disk ex_fs2 [] Hh)
    as (w' & fs' & held & Ec & ((e & free & ls & I & _) & _ & Hl) & _).
  rewrite ex_client in Ec. apply Some3_inj in Ec as (<- & <- & <-). exists e, n, free, ls. split; [done|]. apply Hl.
  by do 2 right; left.
Qed.

Lemma object_create_correct_witness : exists n w' fs' obj err,
  fla_base_object_create ex_disk ex_fs3 ex_pool = Some (w', fs', obj, err) /\
  (err = 0 -> exists o, obj = Some o /\ ~ live ex_fs3 n o).
Proof.
  destruct ex_inv as (e & n & free & ls & I & _).
  destruct (object_create_correct RamDisk.block ex_fs3 e n free ls ex_disk ex_pool I eq_refl)
    as (w' & fs' & obj & err & Ec & _ & _ & Hres).
  exists n, w', fs', obj, err. split; [exact Ec|]. intros ->.
  destruct Hres as [(_ & o & e' & free' & ls' & Ho & Hnl & _)|[Hne _]]; [|destruct Hne; reflexivity].
  exists o. split; [exact Ho|exact Hnl].
Defined.

(** C6: Destroying an object that exists succeeds, takes away that object and no
    other, keeps the allocator's invariant and does no I/O. *)
Theorem object_destroy_correct {W} `{E : XnvmeEnv W} fs e n free ls (w : W) pool o :
  alloc_inv fs e n free ls -> p_ndx pool = 0 -> live fs n o ->
  exists fs' e' ls', fla_base_object_destroy w fs pool o = Some (w, fs', 0) /\
    (forall o', live fs' n o' <-> o' <> o /\ live fs n o') /\
    alloc_inv fs' e' n free ls' /\ same_static fs fs'.
Proof.
  intros I Hp Hl. destruct (destroy_spec fs e n free ls I pool Hp w o Hl) as (fs' & e' & ls' & ? & ? & ? & ? & _).
  by exists fs', e', ls'.
Qed.

Lemma object_destroy_correct_witness : exists n fs',
  fla_base_object_destroy ex_disk ex_fs3 ex_pool (mk_obj 0 2) = Some (ex_disk, fs', 0) /\
  ~ live fs' n (mk_obj 0 2).
Proof.
  destruct ex_inv as (e & n & free & ls & I & Hl).
  destruct (object_destroy_correct ex_fs3 e n free ls ex_disk ex_pool (mk_obj 0 2) I eq_refl Hl)
    as (fs' & e' & ls' & Ed & Hl' & _).
  exists n, fs'. split; [exact Ed|]. intros Hx. apply Hl' in Hx as [Hne _]. apply Hne. reflexivity.
Defined.

(** C26: Formatting and opening.  [fla_mkfs] on a device that is large enough either
    reports an error or leaves metadata which [fla_open] accepts: opening reports an
    error, and then has changed no block, or gives a handle on that device in which
    there is no pool, every pool index is free, every slab is in the queue of free
    slabs in the order of the ids and no freelist is cached. *)
Theorem format_gives_ready {W} `{E : XnvmeEnv W} `{A : XnvmeAdm W} block `{!XnvmeLaws W block}
    `{!XnvmeAdmLaws W block} U dev pr w0 geo0 md_geo0 junk :
  keys_ok U -> mkfs_request dev pr ->
  exists w1 err, fla_mkfs w0 pr geo0 md_geo0 junk = Some (w1, err) /\
    (err = 0 -> exists w2 h err', fla_open w1 (mp_open_opts pr) = Some (w2, h, err') /\ same_blocks block w1 w2 /\
       (err' = 0 -> exists hd, h = Some hd /\ ready U (h_fs hd) /\ on_device dev (h_fs hd))).
Proof.
  intros HU R. destruct (mkfs_spec block w0 pr geo0 md_geo0 junk dev R) as (w1 & err & Em & Hf).
  exists w1, err. split; [done|]. intros E0.
  destruct (formatted_open block U w1 pr dev HU R (Hf E0)) as (w2 & h & err' & Eo & Hb & Hok).
  exists w2, h, err'. split; [done|]. split; [done|]. intros E1. destruct (Hok E1) as (hd & -> & ? & ? & _). by exists hd.
Qed.

Lemma format_gives_ready_witness : ready ex_names ex_fs1.
Proof.
  destruct (format_gives_ready RamDisk.block ex_names ex_dev1k ex_request ex_world ex_geo0 ex_geo0 ex_junk ex_keys
              ex_request_ok) as (w1 & err & Em & Hf).
  rewrite ex_mkfs in Em. apply Some2_inj in Em as [<- <-]. destruct (Hf eq_refl) as (w2 & h & err' & Eo & _ & Hok).
  rewrite ex_open in Eo. apply Some3_inj in Eo as (<- & <- & <-). destruct (Hok eq_refl) as (hd & E1 & R & _).
  apply (inj Some) in E1 as <-. exact R.
Defined.

(** A second pool, one object in it, then one in the first. *)
Definition ex_two : flexalloc :=
  from_option (fun r => r.1.1.2) ex_cns (fla_base_pool_create ex_disk ex_fs2 (ex_arg 98 20)).
Definition ex_two1 : flexalloc :=
  from_option (fun r => r.1.1.2) ex_cns (fla_base_object_create ex_disk ex_two (mk_pool 98 1)).
Definition ex_two2 : flexalloc :=
  from_option (fun r => r.1.1.2) ex_cns (fla_base_object_create ex_disk ex_two1 ex_pool).

(** With two pools the objects can overlap.  A new slab's header names pool
    entry 0 as its owner, so the first object of the second pool moves its slab into
    the lists of the first pool, and the next object of the first pool is placed in
    that slab by the first pool's object size: blocks 15 to 24 are in both. *)
Theorem two_pools_overlap :
  fla_base_pool_create ex_disk ex_fs1 (ex_arg 97 10) = Some (ex_disk, ex_fs2, Some ex_pool, 0) /\
  fla_base_pool_create ex_disk ex_fs2 (ex_arg 98 20) = Some (ex_disk, ex_two, Some (mk_pool 98 1), 0) /\
  fla_base_object_create ex_disk ex_two (mk_pool 98 1) = Some (ex_disk, ex_two1, Some (mk_obj 0 0), 0) /\
  fla_base_object_create ex_disk ex_two1 ex_pool = Some (ex_disk, ex_two2, Some (mk_obj 0 1), 0) /\
  fla_object_slba ex_two2 (mk_obj 0 0) (mk_pool 98 1) = Some 5 /\
  fla_object_elba ex_two2 (mk_obj 0 0) (mk_pool 98 1) = Some 25 /\
  fla_object_slba ex_two2 (mk_obj 0 1) ex_pool = Some 15 /\
  fla_object_elba ex_two2 (mk_obj 0 1) ex_pool = Some 25.
Proof. repeat (split; [vm_compute; reflexivity|]). vm_compute. reflexivity. Qed.
