(* ===== verification/Store.v ===== *)
(** * Store: what a client of one pool sees

    The abstract store of a pool is a list of objects with their contents, a byte
    being [None] while nothing is known of it.  A client creates and destroys
    objects and writes to those it holds; [Store] shows that the allocator together
    with the transfers of [ObjectIO] implements the abstract store: what is read
    back is what the client wrote, whatever happened to the other objects. *)
From S2P Require Import Prelude Util Freelist Hash XnvmeEnv Flexalloc PoolEntry Geometry CommandSet.
From S2P Require Import SlabList SlabCache Slab Pool Object Alloc ObjectIO DataPlacement Layout Format System History.

(** ** The abstract store *)

(** Known bytes agree with the device's. *)
Definition byte_ok (c : option Z) (b : Z) : Prop := c = None \/ c = Some b.
Definition contents_ok (c : list (option Z)) (bytes : list Z) : Prop := Forall2 byte_ok c bytes.

Lemma contents_fresh size bytes : length bytes = size -> contents_ok (replicate size None) bytes.
Proof. intros <-. induction bytes as [|b bytes IH]; constructor; [by left|done]. Qed.

Lemma contents_splice c bytes i x : contents_ok c bytes ->
  contents_ok (splice c i (Some <$> x)) (splice bytes i x).
Proof.
  intros H. unfold splice. rewrite length_fmap. apply Forall2_app; [by apply Forall2_take|].
  apply Forall2_app; [|by apply Forall2_drop].
  apply Forall2_fmap_l, Forall_Forall2_diag, Forall_forall. intros b _. by right.
Qed.

(** An object with what is known of its contents. *)
Notation cell := (fla_object * list (option Z))%type.

Inductive store_op :=
  | StCreate
  | StOpen (i : nat)
  | StDestroy (i : nat)
  | StWrite (i : nat) (off : Z) (buf : list Z)
  | StUnaligned (i : nat) (off : Z) (buf : list Z).

(** The requests a client may make of objects of [size] bytes: offsets that do not
    wrap around, and unaligned writes inside the object, which the code does not
    check. *)
Definition op_ok (size : Z) (op : store_op) : Prop :=
  match op with
  | StCreate | StOpen _ | StDestroy _ => True
  | StWrite _ off buf => 0 <= off /\ buf <> [] /\ off + Z.of_nat (length buf) < 2 ^ 63
  | StUnaligned _ off buf => 0 <= off /\ buf <> [] /\ off + Z.of_nat (length buf) <= size
  end.

Section store.
Context {W : Type} `{E : XnvmeEnv W} `{Dp : FlaDp W}.

(** After a write that failed nothing is known of the object any more. *)
Definition written (size : Z) (c : cell) (off : Z) (buf : list Z) (err : Z) : cell :=
  (c.1, if err =? 0 then splice c.2 (Z.to_nat off) (Some <$> buf) else replicate (Z.to_nat size) None).

Definition store_step (size : Z) (pool : fla_pool) (op : store_op) (w : W) (fs : flexalloc) (st : list cell) :
    option (W * flexalloc * list cell) :=
  match op with
  | StCreate =>
      '(w, fs, obj, err) ← fla_base_object_create w fs pool;
      if err =? 0 then o ← obj; Some (w, fs, st ++ [(o, replicate (Z.to_nat size) None)])
      else Some (w, fs, st)
  | StOpen i =>
      match st !! i with
      | Some c => '(w, fs, _) ← fla_base_object_open w fs pool c.1; Some (w, fs, st)
      | None => Some (w, fs, st)
      end
  | StDestroy i =>
      match st !! i with
      | Some c =>
          '(w, fs, err) ← fla_base_object_destroy w fs pool c.1;
          Some (w, fs, if err =? 0 then delete i st else st)
      | None => Some (w, fs, st)
      end
  | StWrite i off buf =>
      match st !! i with
      | Some c =>
          '(w, err) ← fla_object_write w fs pool c.1 buf off (Z.of_nat (length buf));
          Some (w, fs, <[i := written size c off buf err]> st)
      | None => Some (w, fs, st)
      end
  | StUnaligned i off buf =>
      match st !! i with
      | Some c =>
          '(w, err) ← fla_object_unaligned_write w fs pool c.1 buf off (Z.of_nat (length buf));
          Some (w, fs, <[i := written size c off buf err]> st)
      | None => Some (w, fs, st)
      end
  end.

Fixpoint store_run (size : Z) (pool : fla_pool) (ops : list store_op) (w : W) (fs : flexalloc) (st : list cell) :
    option (W * flexalloc * list cell) :=
  match ops with
  | [] => Some (w, fs, st)
  | op :: ops => '(w, fs, st) ← store_step size pool op w fs st; store_run size pool ops w fs st
  end.

(** ** The simulation *)

Context (block : W -> xnvme_dev -> Z -> list Z) `{!XnvmeLaws W block} `{!FlaDpLaws W block}.

(** The system represents the store. *)
Record store_inv (nlb n : Z) (w : W) (fs : flexalloc) (st : list cell) : Prop := {
  si_holds : holds fs nlb n st.*1;
  si_dev : dev_matches fs;
  si_lb : d_lb_nbytes (fs_dev fs) = g_lb_nbytes (fs_geo fs);
  si_bytes : forall c, c ∈ st -> contents_ok c.2 (obj_bytes block fs nlb c.1 w)
}.

Definition size_of (fs : flexalloc) (nlb : Z) : Z := nlb * g_lb_nbytes (fs_geo fs).

(** A block that belongs to no object. *)
Definition no_object_at (fs : flexalloc) (nlb n : Z) (lba : Z) : Prop :=
  forall o, live fs n o -> lba < obj_start fs nlb o \/ obj_start fs nlb o + nlb <= lba.
Definition keeps_rest (fs : flexalloc) (nlb n : Z) (w w' : W) : Prop :=
  forall dev lba, no_object_at fs nlb n lba -> block w' dev lba = block w dev lba.

Lemma static_bytes fs fs' nlb o w : same_static fs fs' -> obj_bytes block fs' nlb o w = obj_bytes block fs nlb o w.
Proof using. intros [G D _ _ _ _]. unfold obj_bytes, obj_start. by rewrite G, D. Qed.

Lemma static_dev fs fs' : same_static fs fs' -> dev_matches fs -> d_lb_nbytes (fs_dev fs) = g_lb_nbytes (fs_geo fs) ->
  dev_matches fs' /\ d_lb_nbytes (fs_dev fs') = g_lb_nbytes (fs_geo fs').
Proof using. intros [G D _ Su _ _] [? ? ? ?] ?. rewrite D, G. split; [split; by rewrite ?D, ?G, ?Su|done]. Qed.

(** All objects have the size of the pool's objects. *)
Lemma bytes_len nlb n fs st o w w' : store_inv nlb n w fs st ->
  length (obj_bytes block fs nlb o w') = Z.to_nat (size_of fs nlb).
Proof using XnvmeLaws0.
  intros [H D _ _]. destruct H as [(e & free & ls & I & He) _]. pose proof (go_lb _ (cf_geo _ (ai_cns _ _ _ _ _ I))).
  pose proof (ai_range _ _ _ _ _ I) as [Ho _]. apply Nat2Z.inj. unfold obj_bytes, size_of.
  rewrite (concat_blocks_length _ _ _ (g_lb_nbytes (fs_geo fs))); [lia|lia|].
  intros. rewrite <- (dm_lba _ D). apply block_length. rewrite (dm_lba _ D). lia.
Qed.

(** Creating and destroying change no byte of an object that stays. *)
Lemma client_keeps nlb n w fs st w' fs' st' : store_inv nlb n w fs st -> same_static fs fs' ->
  (forall dev lba, block w' dev lba = block w dev lba) -> holds fs' nlb n st'.*1 ->
  (forall c, c ∈ st' -> c ∈ st \/ c.2 = replicate (Z.to_nat (size_of fs nlb)) None) ->
  store_inv nlb n w' fs' st'.
Proof using XnvmeLaws0.
  intros SI S Hb H' Hsub. pose proof SI as [H D L B]. destruct (static_dev fs fs' S D L) as [D' L']. split; try done.
  intros c Hc. rewrite (static_bytes fs fs') by done. destruct (Hsub c Hc) as [Hin|Hnone].
  - assert (obj_bytes block fs nlb c.1 w' = obj_bytes block fs nlb c.1 w) as ->; [|by apply B].
    apply concat_blocks_ext. intros. apply Hb.
  - rewrite Hnone. apply contents_fresh. by eapply bytes_len.
Qed.

(** Two objects that exist share no block. *)
Lemma live_apart fs e n free ls pool o o' : alloc_inv fs e n free ls -> p_ndx pool = 0 -> live fs n o -> live fs n o' -> o <> o' ->
  obj_start fs (pe_obj_nlb e) o + pe_obj_nlb e <= obj_start fs (pe_obj_nlb e) o' \/
  obj_start fs (pe_obj_nlb e) o' + pe_obj_nlb e <= obj_start fs (pe_obj_nlb e) o.
Proof using.
  intros I Hp Hl Hl' Hne. destruct (live_extents fs e n free ls pool o o' I Hp Hl Hl' Hne) as (si & ei & sj & ej & S1 & E1 & S2 & E2 & Ha).
  destruct (placed_extent fs e n pool o (live_placed fs e n free ls o I Hl) Hp) as (S1' & E1' & _).
  destruct (placed_extent fs e n pool o' (live_placed fs e n free ls o' I Hl') Hp) as (S2' & E2' & _).
  rewrite S1 in S1'. rewrite E1 in E1'. rewrite S2 in S2'. rewrite E2 in E2'. simplify_eq. unfold obj_start. lia.
Qed.

(** A write to object [i] whose effect is inside it. *)
Lemma write_keeps nlb n w fs st w' i o c c' pool : p_ndx pool = 0 -> store_inv nlb n w fs st -> st !! i = Some (o, c) ->
  (forall dev lba, dev_id dev <> dev_id (d_dev (fs_dev fs)) \/ lba < obj_start fs nlb o \/ obj_start fs nlb o + nlb <= lba ->
     block w' dev lba = block w dev lba) ->
  contents_ok c' (obj_bytes block fs nlb o w') -> store_inv nlb n w' fs (<[i := (o, c')]> st).
Proof using.
  intros Hp [H D L B] Hi Hfr Hc. pose proof H as [(e & free & ls & I & He) [Hnd Hl]]. split; [|done|done|].
  - rewrite list_fmap_insert. cbn [fst]. rewrite list_insert_id; [done|]. by rewrite list_lookup_fmap, Hi.
  - intros d Hd. apply list_elem_of_lookup in Hd as [j Hj].
    destruct (decide (i = j)) as [<-|Hne].
    + rewrite list_lookup_insert_eq in Hj by (by eapply lookup_lt_Some). by injection Hj as <-.
    + rewrite list_lookup_insert_ne in Hj by done. 
      assert (d.1 <> o) as Hdo.
      { intros Ed. apply Hne. eapply NoDup_lookup; [exact Hnd|rewrite list_lookup_fmap, Hi; done|].
        rewrite list_lookup_fmap, Hj. cbn. by rewrite Ed. }
      assert (obj_bytes block fs nlb d.1 w' = obj_bytes block fs nlb d.1 w) as ->.
      2: { apply B. by eapply list_elem_of_lookup_2. }
      assert (forall k x, st !! k = Some x -> live fs n x.1) as Hlive.
      { intros k x Hx. apply Hl. eapply list_elem_of_lookup_2. by rewrite list_lookup_fmap, Hx. }
      pose proof (live_apart fs e n free ls pool o d.1 I Hp (Hlive i _ Hi) (Hlive j _ Hj) (not_eq_sym Hdo)) as Ha.
      rewrite He in Ha. pose proof (ai_range _ _ _ _ _ I) as [Ho _].
      apply concat_blocks_ext. intros lba Hlba. apply Hfr. lia.
Qed.

(** The cell after a write matches the bytes, whatever the outcome. *)
Lemma written_ok fs nlb w w' o c off buf err :
  contents_ok c (obj_bytes block fs nlb o w) ->
  length (obj_bytes block fs nlb o w') = Z.to_nat (size_of fs nlb) ->
  (err = 0 -> obj_bytes block fs nlb o w' = splice (obj_bytes block fs nlb o w) (Z.to_nat off)
                (take (Z.to_nat (Z.of_nat (length buf))) buf)) ->
  contents_ok (written (size_of fs nlb) (o, c) off buf err).2 (obj_bytes block fs nlb o w').
Proof using.
  intros Hc Hlen Hok. unfold written. cbn [snd]. destruct (Z.eqb_spec err 0) as [E0|_]; [|by apply contents_fresh].
  rewrite (Hok E0), Nat2Z.id, firstn_all. by apply contents_splice.
Qed.

Lemma create_step_ok nlb n w fs st pool : p_ndx pool = 0 -> store_inv nlb n w fs st ->
  exists w' fs' st', store_step (size_of fs nlb) pool StCreate w fs st = Some (w', fs', st') /\
    store_inv nlb n w' fs' st' /\ same_static fs fs' /\ keeps_rest fs nlb n w w'.
Proof using XnvmeLaws0.
  intros Hp SI. pose proof (si_holds _ _ _ _ _ SI) as H.
  destruct (client_step_spec block OpCreate pool nlb n w fs st.*1 Hp H) as (w1 & fs1 & held & Ec & H1 & Hst & Hb).
  cbn [client_step store_step] in *. destruct (fla_base_object_create w fs pool) as [[[[w' fs'] obj] err]|]; [|done].
  cbn [mbind option_bind] in *. destruct (err =? 0).
  - destruct obj as [o|]; [|done]. cbn [mbind option_bind] in *. apply Some3_inj in Ec as (<- & <- & <-).
    do 3 eexists. split; [done|]. split; [|split; [done|intros dev lba _; apply Hb]]. eapply client_keeps; [exact SI|done|done|by rewrite fmap_app|].
    intros c [Hc|Hc]%elem_of_app; [by left|]. apply list_elem_of_singleton in Hc as ->. by right.
  - apply Some3_inj in Ec as (<- & <- & <-). do 3 eexists. split; [done|]. split; [|split; [done|intros dev lba _; apply Hb]].
    eapply client_keeps; [exact SI|done|done|done|]. by left.
Qed.

Lemma destroy_step_ok nlb n w fs st pool i : p_ndx pool = 0 -> store_inv nlb n w fs st ->
  exists w' fs' st', store_step (size_of fs nlb) pool (StDestroy i) w fs st = Some (w', fs', st') /\
    store_inv nlb n w' fs' st' /\ same_static fs fs' /\ keeps_rest fs nlb n w w'.
Proof using XnvmeLaws0.
  intros Hp SI. pose proof (si_holds _ _ _ _ _ SI) as H.
  destruct (client_step_spec block (OpDestroy i) pool nlb n w fs st.*1 Hp H) as (w1 & fs1 & held & Ec & H1 & Hst & Hb).
  cbn [client_step store_step] in *. rewrite list_lookup_fmap in Ec.
  destruct (st !! i) as [c|]; cbn [fmap option_fmap option_map] in Ec.
  - destruct (fla_base_object_destroy w fs pool c.1) as [[[w' fs'] err]|]; [|done].
    cbn [mbind option_bind] in *. apply Some3_inj in Ec as (<- & <- & <-).
    do 3 eexists. split; [done|]. split; [|split; [done|intros dev lba _; apply Hb]]. destruct (err =? 0).
    + eapply client_keeps; [exact SI|done|done|by rewrite list_fmap_delete|].
      intros c' Hc'. left. by eapply list_elem_of_delete_inv.
    + eapply client_keeps; [exact SI|done|done|done|]. by left.
  - apply Some3_inj in Ec as (<- & <- & <-). do 3 eexists. split; [done|]. split; [|split; [done|intros dev lba _; apply Hb]].
    eapply client_keeps; [exact SI|done|done|done|]. by left.
Qed.

Lemma open_step_ok nlb n w fs st pool i : p_ndx pool = 0 -> store_inv nlb n w fs st ->
  store_step (size_of fs nlb) pool (StOpen i) w fs st = Some (w, fs, st).
Proof using.
  intros Hp SI. cbn [store_step]. destruct (st !! i) as [c|] eqn:Hi; [|done].
  destruct (si_holds _ _ _ _ _ SI) as [(e & free & ls & I & He) [_ Hl]].
  destruct (Hl c.1) as [Hin _]. destruct Hin as (fl & st0 & Hc & Hs & _).
  { eapply list_elem_of_lookup_2. by rewrite list_lookup_fmap, Hi. }
  destruct (ai_cached _ _ _ _ _ I _ _ Hc Hs) as [l Hx]. unfold fla_base_object_open, load_if_stale.
  rewrite (header_ptr_owned fs e n free ls I l (o_slab_id c.1) Hx), Hp, (lo_entry _ _ _ _ (ai_lists _ _ _ _ _ I)). bind_step.
  by rewrite (elem_load_cached w fs _ _ (pe_slab_nobj e) Hc Hs).
Qed.

(** Both kinds of write. *)
Lemma write_step_ok nlb n w fs st pool i o c off buf (op : option (W * Z)) :
  p_ndx pool = 0 -> store_inv nlb n w fs st -> st !! i = Some (o, c) ->
  (forall e free ls, alloc_inv fs e n free ls -> pe_obj_nlb e = nlb -> live fs n o ->
     exists w' err, op = Some (w', err) /\
       (forall dev' lba, dev_id dev' <> dev_id (d_dev (fs_dev fs)) \/ lba < obj_start fs nlb o \/
          obj_start fs nlb o + nlb <= lba -> block w' dev' lba = block w dev' lba) /\
       (err = 0 -> obj_bytes block fs nlb o w' = splice (obj_bytes block fs nlb o w) (Z.to_nat off)
                     (take (Z.to_nat (Z.of_nat (length buf))) buf))) ->
  exists w' st', ('(w, err) ← op; Some (w, fs, <[i := written (size_of fs nlb) (o, c) off buf err]> st)) =
      Some (w', fs, st') /\ store_inv nlb n w' fs st' /\ keeps_rest fs nlb n w w'.
Proof using XnvmeLaws0.
  intros Hp SI Hi Hop. pose proof (si_holds _ _ _ _ _ SI) as [(e & free & ls & I & He) [_ Hl]].
  assert (live fs n o) as Hlo by (apply Hl; eapply list_elem_of_lookup_2; by rewrite list_lookup_fmap, Hi).
  destruct (Hop e free ls I He Hlo) as (w' & err & -> & Hfr & Hok).
  bind_step. do 2 eexists. split; [done|]. split; [|intros dev lba Hno; apply Hfr; right; by apply Hno]. unfold written at 1. cbn [fst].
  eapply write_keeps; [exact Hp|exact SI|exact Hi|exact Hfr|]. eapply (written_ok fs nlb w); [|by eapply bytes_len|done].
  apply (si_bytes _ _ _ _ _ SI (o, c)). by eapply list_elem_of_lookup_2.
Qed.

Lemma store_step_ok nlb n w fs st pool op : p_ndx pool = 0 -> store_inv nlb n w fs st -> op_ok (size_of fs nlb) op ->
  exists w' fs' st', store_step (size_of fs nlb) pool op w fs st = Some (w', fs', st') /\
    store_inv nlb n w' fs' st' /\ same_static fs fs' /\ keeps_rest fs nlb n w w'.
Proof using All.
  intros Hp SI Hop. destruct op as [|i|i|i off buf|i off buf].
  - by apply create_step_ok.
  - exists w, fs, st. split; [by eapply open_step_ok|done].
  - by apply destroy_step_ok.
  - cbn [store_step]. destruct (st !! i) as [[o c]|] eqn:Hi; [|by do 3 eexists].
    destruct Hop as (Ho & Hbuf & Hov). assert (0 < length buf)%nat by (destruct buf; [done|cbn; lia]). cbn [fst].
    destruct (write_step_ok nlb n w fs st pool i o c off buf
                (fla_object_write w fs pool o buf off (Z.of_nat (length buf))) Hp SI Hi)
      as (w' & st' & -> & SI' & Hkr); [|by exists w', fs, st'].
    intros e free ls I He Hl. destruct (obj_write_spec block fs e n o (live_placed fs e n free ls o I Hl) pool Hp (si_dev _ _ _ _ _ SI)
      (si_lb _ _ _ _ _ SI) w buf off (Z.of_nat (length buf))) as (w' & err & Ew & Hfr & _ & Hok); [lia..|].
    rewrite He in *. by exists w', err.
  - cbn [store_step]. destruct (st !! i) as [[o c]|] eqn:Hi; [|by do 3 eexists].
    destruct Hop as (Ho & Hbuf & Hov). assert (0 < length buf)%nat by (destruct buf; [done|cbn; lia]). cbn [fst].
    destruct (write_step_ok nlb n w fs st pool i o c off buf
                (fla_object_unaligned_write w fs pool o buf off (Z.of_nat (length buf))) Hp SI Hi)
      as (w' & st' & -> & SI' & Hkr); [|by exists w', fs, st'].
    intros e free ls I He Hl. unfold size_of in Hov. rewrite <- He in Hov.
    destruct (obj_unaligned_spec block fs e n o (live_placed fs e n free ls o I Hl) pool Hp (si_dev _ _ _ _ _ SI)
      (si_lb _ _ _ _ _ SI) w buf off (Z.of_nat (length buf))) as (w' & err & Ew & Hfr & Hok); [lia..|].
    rewrite He in *. by exists w', err.
Qed.

Lemma store_run_ok nlb n pool ops : p_ndx pool = 0 -> forall w fs st, store_inv nlb n w fs st ->
  Forall (op_ok (size_of fs nlb)) ops ->
  exists w' fs' st', store_run (size_of fs nlb) pool ops w fs st = Some (w', fs', st') /\
    store_inv nlb n w' fs' st' /\ same_static fs fs'.
Proof using All.
  intros Hp. induction ops as [|op ops IH]; intros w fs st SI Hops; [by exists w, fs, st|].
  apply Forall_cons in Hops as [Hop Hops].
  destruct (store_step_ok nlb n w fs st pool op Hp SI Hop) as (w1 & fs1 & st1 & Es & SI1 & S1 & _).
  assert (size_of fs1 nlb = size_of fs nlb) as Esz by (unfold size_of; by rewrite (st_geo _ _ S1)).
  destruct (IH w1 fs1 st1 SI1) as (w2 & fs2 & st2 & Er & SI2 & S2); [by rewrite Esz|].
  exists w2, fs2, st2. cbn [store_run]. rewrite Es. bind_step. rewrite <- Esz at 1.
  split; [done|]. split; [done|]. by eapply same_static_trans.
Qed.
End store.

(** ** The data placement of an open handle *)

(** The function [fla_init_dp] installed, as the transfers call it: neither of the
    two it can be changes the placement's own state, and it is never missing. *)
Definition placed {W} `{XnvmeEnv W} `{XnvmeAdm W} (h : handle) : FlaDp W := fun pool obj w =>
  match dp_prep_ctx w (h_dp h) (mk_io FLA_IO_DATA_WRITE (d_dev (fs_dev (h_fs h))) pool obj) (mk_ctx 0 0) 0 with
  | Some (w, _, _, err) => (w, err)
  | None => (w, 0)
  end.

Section claims.
Context {W : Type} `{E : XnvmeEnv W} `{A : XnvmeAdm W}.
Context (block : W -> xnvme_dev -> Z -> list Z) `{!XnvmeLaws W block} `{!XnvmeAdmLaws W block}.

Lemma placed_laws h : dp_installed (h_dp h) -> @FlaDpLaws W (placed h) block.
Proof using All.
  intros Hi pool obj w w' err. unfold prep_dp_ctx, placed.
  destruct (prep_installed block w (h_dp h) (mk_io FLA_IO_DATA_WRITE (d_dev (fs_dev (h_fs h))) pool obj) (mk_ctx 0 0) 0 Hi)
    as (w1 & ctx & err1 & -> & Hs).
  intros [= <- _] dev lba. apply Hs.
Qed.

(** The empty store of a new pool. *)
Lemma store_start dev pr U arg w h fs pool : session dev pr U arg w h fs pool ->
  p_ndx pool = 0 /\ dp_installed (h_dp h) /\ exists n, store_inv block (a_obj_nlb arg) n w fs [].
Proof using All.
  intros Se. destruct (session_start block dev pr U arg w h fs pool Se) as (Hp & Hdp & [_ DM Hl] & n & _ & _ & Hh).
  split; [done|]. split; [done|]. exists n. split; [done|done|done|by intros c ?%not_elem_of_nil].
Qed.
(** Reading what a store holds. *)
Lemma store_reads nlb n w fs st pool : p_ndx pool = 0 -> store_inv block nlb n w fs st ->
  forall i o c off len rbuf, st !! i = Some (o, c) -> 0 <= off -> 0 < len -> off + len < 2 ^ 63 -> len <= Z.of_nat (length rbuf) ->
  exists w' err data, fla_object_read w fs pool o rbuf off len = Some (w', err, data) /\
    (forall dev lba, block w' dev lba = block w dev lba) /\
    (err = 0 -> contents_ok (take (Z.to_nat len) (drop (Z.to_nat off) c)) (take (Z.to_nat len) data)).
Proof using All.
  intros Hp SI i o c off len rbuf Hi Hoff Hl0 Hov Hbuf. pose proof SI as [[(e & free & ls & I & He) [Hnd Hl]] DM L Hb].
  assert (live fs n o) as Hlo by (apply Hl; eapply list_elem_of_lookup_2; by rewrite list_lookup_fmap, Hi).
  destruct (obj_read_spec (Dp := fla_dp_noop_prep_ctx) block fs e n o (live_placed fs e n free ls o I Hlo) pool Hp) with (w := w)
    (buf := rbuf) (off := off) (len := len) as (w' & err & data & Erd & Hfr & Hrej & Hok); try done.
  exists w', err, data. split; [done|]. split; [done|]. intros E0. rewrite (Hok E0), He.
  assert (contents_ok c (obj_bytes block fs nlb o w)) as Hco.
  { apply (Hb (o, c)). by eapply list_elem_of_lookup_2. }
  assert (off + len <= size_of fs nlb) as Hin.
  { destruct (Z.le_gt_cases (off + len) (size_of fs nlb)) as [|Hgt]; [done|].
    destruct Hrej as (_ & -> & _); [left; rewrite He; exact Hgt|done]. }
  rewrite take_app_length'; [by apply Forall2_take, Forall2_drop|].
  rewrite length_take, length_drop, (bytes_len block _ n _ st _ w w SI). lia.
Qed.
End claims.

(** ** Claims *)

(** C1: The objects of a pool behave as independent byte arrays.  On a device that
    was formatted and opened and has one pool, with the data placement that opening
    installed, every sequence of creations, destructions and
    aligned or unaligned writes (the unaligned ones inside their object) runs to the
    end; afterwards every object the client holds can be read at any offset, a read
    changes no block, and where it succeeds each byte is the one the client last
    wrote there, no matter which other objects were created, written or destroyed
    in between. *)
Theorem store_refines {W} `{E : XnvmeEnv W} `{A : XnvmeAdm W} block `{!XnvmeLaws W block} `{!XnvmeAdmLaws W block}
    dev pr U arg w2 h fs2 pool ops :
  session dev pr U arg w2 h fs2 pool -> Forall (op_ok (size_of fs2 (a_obj_nlb arg))) ops ->
  exists w' fs' st, store_run (Dp := placed h) (size_of fs2 (a_obj_nlb arg)) pool ops w2 fs2 [] = Some (w', fs', st) /\
    NoDup st.*1 /\
    forall i o c off len rbuf, st !! i = Some (o, c) -> 0 <= off -> 0 < len -> off + len < 2 ^ 63 ->
      len <= Z.of_nat (length rbuf) ->
      exists w'' err data, fla_object_read w' fs' pool o rbuf off len = Some (w'', err, data) /\
        (forall dev lba, block w'' dev lba = block w' dev lba) /\
        (err = 0 -> contents_ok (take (Z.to_nat len) (drop (Z.to_nat off) c)) (take (Z.to_nat len) data)).
Proof.
  intros Se Hops. destruct (store_start block dev pr U arg w2 h fs2 pool Se) as (Hp & Hdp & n & SI).
  pose proof (placed_laws block h Hdp) as Hpl.
  destruct (store_run_ok (Dp := placed h) block (a_obj_nlb arg) n pool ops Hp w2 fs2 [] SI Hops) as (w' & fs' & st & Er & SI' & _).
  exists w', fs', st. split; [done|]. split; [by destruct SI' as [(_ & Hnd & _) _ _ _]|]. by eapply store_reads.
Qed.

(** A device in memory without data placement. *)
#[local] Instance ram_dp : FlaDp RamDisk.world := fla_dp_noop_prep_ctx.

Definition ex_store_ops : list store_op :=
  [StCreate; StCreate; StWrite 0 512 (replicate 512 7); StUnaligned 1 3 [1; 2; 3]; StDestroy 0; StCreate].

Lemma ex_store_ops_ok : Forall (op_ok (size_of ex_fs2 10)) ex_store_ops.
Proof.
  assert (size_of ex_fs2 10 = 5120) as -> by (vm_compute; reflexivity).
  unfold ex_store_ops. repeat (apply Forall_cons; split; [|]); try apply Forall_nil_2; cbn [op_ok];
    rewrite ?length_replicate; try done; (split; [lia|split; [discriminate|cbn; lia]]).
Qed.

Lemma store_refines_witness : exists w' fs' st,
  store_run (Dp := placed ex_handle) (size_of ex_fs2 10) ex_pool ex_store_ops ex_disk ex_fs2 [] = Some (w', fs', st) /\ NoDup st.*1.
Proof.
  destruct (store_refines RamDisk.block ex_dev1k ex_request ex_names (ex_arg 97 10) ex_disk ex_handle ex_fs2 ex_pool
              ex_store_ops ex_session ex_store_ops_ok) as (w' & fs' & st & Er & Hnd & _).
  exists w', fs', st. split; [exact Er|exact Hnd].
Defined.

(** C22: [fla_object_write] on an object that exists, for offsets and lengths with
    [off + len < 2^63], so that no sum of the range check wraps around (larger ones can
    pass it, see [write_offset_wraps]): a request that leaves the object or is not
    block-aligned is rejected with 1 before any command is sent; otherwise, when it
    returns 0, the object's bytes are the old ones with the buffer at the offset; and
    whatever it returns, no block outside the object has changed on any device. *)
Theorem object_write_correct {W} `{E : XnvmeEnv W} `{Dp : FlaDp W} block `{!XnvmeLaws W block} `{!FlaDpLaws W block}
    fs e n free ls pool o w buf off len :
  alloc_inv fs e n free ls -> p_ndx pool = 0 -> live fs n o -> dev_matches fs ->
  d_lb_nbytes (fs_dev fs) = g_lb_nbytes (fs_geo fs) ->
  0 <= off -> 0 < len -> off + len < 2 ^ 63 -> len <= Z.of_nat (length buf) ->
  let nlb := pe_obj_nlb e in let lb := g_lb_nbytes (fs_geo fs) in
  exists w' err, fla_object_write w fs pool o buf off len = Some (w', err) /\
    (nlb * lb < off + len \/ off mod lb <> 0 \/ len mod lb <> 0 -> w' = w /\ err = 1) /\
    (err = 0 -> obj_bytes block fs nlb o w' =
                splice (obj_bytes block fs nlb o w) (Z.to_nat off) (take (Z.to_nat len) buf)) /\
    (forall dev' lba, dev_id dev' <> dev_id (d_dev (fs_dev fs)) \/ lba < obj_start fs nlb o \/
       obj_start fs nlb o + nlb <= lba -> block w' dev' lba = block w dev' lba).
Proof.
  intros I Hp Hl D L Ho Hn Hov Hb nlb lb.
  destruct (obj_write_spec block fs e n o (live_placed fs e n free ls o I Hl) pool Hp D L w buf off len Ho Hn Hov Hb)
    as (w' & err & Ew & Hfr & Hrej & Hok). by exists w', err.
Qed.

Lemma ex_dev3 : dev_matches ex_fs3 /\ d_lb_nbytes (fs_dev ex_fs3) = g_lb_nbytes (fs_geo ex_fs3).
Proof. split; [split; [split; vm_compute; split; congruence|vm_compute; reflexivity..]|vm_compute; reflexivity]. Qed.

(** C21: [fla_object_unaligned_write] inside an object that exists, at any byte
    offset and of any length, preserves every byte it was not asked to write: when
    it returns 0 the object's bytes are the old ones with the buffer at the offset,
    the rest of the first and the last block included, and whatever it returns no
    block outside the object has changed. *)
Theorem unaligned_write_correct {W} `{E : XnvmeEnv W} `{Dp : FlaDp W} block `{!XnvmeLaws W block} `{!FlaDpLaws W block}
    fs e n free ls pool o w buf off len :
  alloc_inv fs e n free ls -> p_ndx pool = 0 -> live fs n o -> dev_matches fs ->
  d_lb_nbytes (fs_dev fs) = g_lb_nbytes (fs_geo fs) ->
  0 <= off -> 0 < len -> off + len <= pe_obj_nlb e * g_lb_nbytes (fs_geo fs) -> len <= Z.of_nat (length buf) ->
  let nlb := pe_obj_nlb e in
  exists w' err, fla_object_unaligned_write w fs pool o buf off len = Some (w', err) /\
    (err = 0 -> obj_bytes block fs nlb o w' =
                splice (obj_bytes block fs nlb o w) (Z.to_nat off) (take (Z.to_nat len) buf)) /\
    (forall dev' lba, dev_id dev' <> dev_id (d_dev (fs_dev fs)) \/ lba < obj_start fs nlb o \/
       obj_start fs nlb o + nlb <= lba -> block w' dev' lba = block w dev' lba).
Proof.
  intros I Hp Hl D L Ho Hn Hin Hb nlb.
  destruct (obj_unaligned_spec block fs e n o (live_placed fs e n free ls o I Hl) pool Hp D L w buf off len Ho Hn Hin Hb)
    as (w' & err & Ew & Hfr & Hok). by exists w', err.
Qed.

Lemma ex_nlb3 : exists e n free ls, alloc_inv ex_fs3 e n free ls /\ live ex_fs3 n (mk_obj 0 2) /\ pe_obj_nlb e = 10.
Proof.
  destruct ex_inv as (e & n & free & ls & I & Hl). exists e, n, free, ls. split; [exact I|]. split; [exact Hl|].
  pose proof (lo_entry _ _ _ _ (ai_lists _ _ _ _ _ I)) as He.
  assert (pe_obj_nlb <$> pool_entry_at ex_fs3 0 = Some 10) as Hn by (vm_compute; reflexivity).
  rewrite He in Hn. by injection Hn.
Qed.

(** A write, and one of eleven blocks to an object of ten. *)
Lemma object_write_correct_witness : (exists w' err,
  fla_object_write ex_disk ex_fs3 ex_pool (mk_obj 0 2) (replicate 512 9) 512 512 = Some (w', err)) /\
  fla_object_write ex_disk ex_fs3 ex_pool (mk_obj 0 2) (replicate (11 * 512) 9) 0 5632 = Some (ex_disk, 1).
Proof.
  destruct ex_nlb3 as (e & n & free & ls & I & Hl & Hn). destruct ex_dev3 as [D L]. split.
  - destruct (object_write_correct RamDisk.block ex_fs3 e n free ls ex_pool (mk_obj 0 2) ex_disk (replicate 512 9) 512 512
                I eq_refl Hl D L) as (w' & err & Ew & _); [lia|lia|lia|rewrite length_replicate; lia|].
    exists w', err. exact Ew.
  - destruct (object_write_correct RamDisk.block ex_fs3 e n free ls ex_pool (mk_obj 0 2) ex_disk (replicate (11 * 512) 9) 0 5632
                I eq_refl Hl D L) as (w' & err & Ew & Hrej & _); [lia|lia|lia|rewrite length_replicate; lia|].
    destruct Hrej as [-> ->]; [|exact Ew]. left. rewrite Hn. vm_compute. reflexivity.
Defined.

Lemma unaligned_write_correct_witness : exists w' err,
  fla_object_unaligned_write ex_disk ex_fs3 ex_pool (mk_obj 0 2) [1; 2; 3] 510 3 = Some (w', err).
Proof.
  destruct ex_nlb3 as (e & n & free & ls & I & Hl & Hn). destruct ex_dev3 as [D L].
  assert (510 + 3 <= pe_obj_nlb e * g_lb_nbytes (fs_geo ex_fs3)) as Hin.
  { rewrite Hn. vm_compute. congruence. }
  destruct (unaligned_write_correct RamDisk.block ex_fs3 e n free ls ex_pool (mk_obj 0 2) ex_disk [1; 2; 3] 510 3
              I eq_refl Hl D L) as (w' & err & Ew & _); [lia|lia|exact Hin|cbn; lia|].
  exists w', err. exact Ew.
Defined.

(** What was written is read back: after a write that returned 0, a read of the
    same range that returns 0 fills the buffer with the bytes written. *)
Theorem object_write_read_roundtrip {W} `{E : XnvmeEnv W} `{Dp : FlaDp W} block `{!XnvmeLaws W block}
    `{!FlaDpLaws W block} fs e n free ls pool o w buf rbuf off len w1 w2 data :
  alloc_inv fs e n free ls -> p_ndx pool = 0 -> live fs n o -> dev_matches fs ->
  d_lb_nbytes (fs_dev fs) = g_lb_nbytes (fs_geo fs) ->
  0 <= off -> 0 < len -> off + len < 2 ^ 63 -> Z.of_nat (length buf) = len -> length rbuf = length buf ->
  fla_object_write w fs pool o buf off len = Some (w1, 0) ->
  fla_object_read w1 fs pool o rbuf off len = Some (w2, 0, data) -> data = buf.
Proof.
  intros I Hp Hl D L Ho Hn Hov Hb Hr Ew Er.
  destruct (obj_write_spec block fs e n o (live_placed fs e n free ls o I Hl) pool Hp D L w buf off len) as (w1' & err & Ew' & _ & Hrej & Hok);
    [lia..|].
  rewrite Ew in Ew'. injection Ew' as <- <-.
  destruct (obj_read_spec block fs e n o (live_placed fs e n free ls o I Hl) pool Hp D L w1 rbuf off len) as (w2' & err & data' & Er' & _ & _ & Hok');
    [lia..|].
  rewrite Er in Er'. apply Some3_inj in Er' as (<- & <- & <-). rewrite (Hok' eq_refl), (Hok eq_refl).
  set (bytes := obj_bytes block fs (pe_obj_nlb e) o w).
  assert (Z.to_nat off + length buf <= length bytes)%nat as Hfit.
  { unfold bytes. rewrite (obj_bytes_length block fs e n o (live_placed fs e n free ls o I Hl) pool Hp D L).
    destruct (Z.le_gt_cases (off + len) (pe_obj_nlb e * g_lb_nbytes (fs_geo fs))) as [|Hgt].
    - pose proof (ai_range _ _ _ _ _ I) as [Ho' _]. pose proof (go_lb _ (cf_geo _ (ai_cns _ _ _ _ _ I))).
      rewrite <- Z2Nat.inj_mul by lia. lia.
    - destruct Hrej as [_ ?]; [by left|done]. }
  rewrite (drop_ge rbuf) by lia. rewrite app_nil_r, (take_ge buf) by lia. unfold splice.
  rewrite drop_app_length' by (rewrite length_take; lia). by rewrite take_app_length' by lia.
Qed.

(** The second of two neighbouring parts of [m] elements, when a splice into the first
    one runs over its end. *)
Lemma splice_over {A} (l : list A) i m x : (i <= m <= i + length x)%nat -> (i + length x <= m + m)%nat -> (m + m <= length l)%nat ->
  take m (drop m (splice l i x)) = splice (take m (drop m l)) 0 (drop (m - i) x).
Proof.
  intros Hi Hx Hl. unfold splice. rewrite drop_app_ge by (rewrite length_take; lia). rewrite length_take, Nat.min_l by lia.
  rewrite drop_app_le by lia. rewrite take_0, take_app_ge by (rewrite length_drop; lia). cbn [app]. f_equal.
  rewrite length_drop, skipn_firstn_comm, drop_drop. f_equal. f_equal. lia.
Qed.

(** C34: [fla_object_unaligned_write] does not compare its range with the object.  For
    an object that exists, at any offset and of any length that stays inside the device,
    it behaves like a write to the device: when it returns 0 the bytes of the device
    from the object's start on are the old ones with the buffer at the offset.  So a
    write that begins in the object and runs past its end is not refused, and when it
    returns 0 the bytes that did not fit have replaced the first ones of the object
    behind it. *)
Theorem unaligned_write_unchecked {W} `{E : XnvmeEnv W} `{Dp : FlaDp W} block `{!XnvmeLaws W block} `{!FlaDpLaws W block}
    fs e n free ls pool o w buf off len :
  alloc_inv fs e n free ls -> p_ndx pool = 0 -> live fs n o -> dev_matches fs ->
  d_lb_nbytes (fs_dev fs) = g_lb_nbytes (fs_geo fs) ->
  let nlb := pe_obj_nlb e in let lb := g_lb_nbytes (fs_geo fs) in let s := obj_start fs nlb o in
  0 <= off -> 0 < len -> len <= Z.of_nat (length buf) -> s * lb + off + len <= g_nlb (fs_geo fs) * lb ->
  exists w' err, fla_object_unaligned_write w fs pool o buf off len = Some (w', err) /\
    (err = 0 -> span_bytes block fs s (g_nlb (fs_geo fs) - s) w' =
                splice (span_bytes block fs s (g_nlb (fs_geo fs) - s) w) (Z.to_nat off) (take (Z.to_nat len) buf)) /\
    (err = 0 -> forall o', live fs n o' -> obj_start fs nlb o' = s + nlb -> off <= nlb * lb < off + len -> off + len <= 2 * (nlb * lb) ->
       obj_bytes block fs nlb o' w' =
         splice (obj_bytes block fs nlb o' w) 0 (drop (Z.to_nat (nlb * lb - off)) (take (Z.to_nat len) buf))).
Proof.
  intros I Hp Hl D L nlb lb s Ho Hn Hb Hin. pose proof (go_nlb _ (cf_geo _ (ai_cns _ _ _ _ _ I))) as Hg.
  destruct (io_facts fs e n o (live_placed fs e n free ls o I Hl) pool Hp D) as (Hlb & Hlba & Hnlb & Hs0 & Hs1 & _ & Es & _ & so & _ & Hso & Hs2).
  fold lb nlb s in Hlb, Hlba, Hnlb, Hs0, Hs1, Es, Hs2.
  assert (in_device fs s (g_nlb (fs_geo fs) - s)) as SP.
  { split; [apply D|done|done|lia|lia|]. fold lb. replace (s + (g_nlb (fs_geo fs) - s)) with (g_nlb (fs_geo fs)) by lia.
    rewrite <- (dm_nlb _ D). unfold dev_nlb. rewrite Hlba, Z.mul_comm. apply Z.mul_div_le. lia. }
  destruct (span_unaligned block fs s _ SP pool o L w buf off len Es Ho Hn) as (w' & err & Ew & Hfr & Hok); [fold lb; lia|done|].
  exists w', err. split; [done|]. split; [done|]. intros E0 o' Hl' Hs' Hov Hend.
  destruct (io_facts fs e n o' (live_placed fs e n free ls o' I Hl') pool Hp D) as (_ & _ & _ & _ & _ & _ & _ & _ & so' & _ & Hso' & Hs2').
  fold nlb in Hs2'. rewrite Hs' in Hs2'. assert (0 <= nlb * lb) by nia.
  assert (forall w, obj_bytes block fs nlb o' w = take (Z.to_nat (nlb * lb)) (drop (Z.to_nat (nlb * lb))
            (span_bytes block fs s (g_nlb (fs_geo fs) - s) w))) as Ho'.
  { intros w0. unfold obj_bytes, span_bytes. rewrite Hs'. replace nlb with (Z.of_nat (Z.to_nat nlb)) at 1 by lia.
    rewrite (blocks_part _ s (Z.to_nat lb) _ _ (Z.to_nat (g_nlb (fs_geo fs) - s))); [|intros; by apply (span_block_len block fs s _ SP pool o L)|lia].
    by rewrite <- Z2Nat.inj_mul by lia. }
  rewrite !Ho', (Hok E0). rewrite splice_over.
  - do 2 f_equal. lia.
  - rewrite length_take. lia.
  - rewrite length_take. lia.
  - rewrite (span_length block fs s _ SP pool o L). fold lb. nia.
Qed.

(** Sixteen bytes at offset 5112 of an object of 5120 bytes: eight of them are the first
    of the next object. *)
Lemma unaligned_write_unchecked_witness : exists w',
  fla_object_unaligned_write ex_disk ex_fs3 ex_pool (mk_obj 0 1) (replicate 16 1) 5112 16 = Some (w', 0) /\
  obj_bytes RamDisk.block ex_fs3 10 (mk_obj 0 2) w' = splice (obj_bytes RamDisk.block ex_fs3 10 (mk_obj 0 2) ex_disk) 0 (replicate 8 1).
Proof.
  destruct ex_nlb3 as (e & n & free & ls & I & Hl & Hn). destruct ex_dev3 as [D L].
  assert (live ex_fs3 n (mk_obj 0 1)) as Hl1.
  { destruct Hl as (fl & st & Hc & Hs & Hr & _). exists fl, st. split; [exact Hc|]. split; [exact Hs|]. cbn [o_entry_ndx] in *. split; [lia|].
    apply (f_equal (fmap (fun el => free_bit (default [] (ce_freelist el)) 1))) in Hc. vm_compute in Hc. by injection Hc. }
  destruct (unaligned_write_unchecked RamDisk.block ex_fs3 e n free ls ex_pool (mk_obj 0 1) ex_disk (replicate 16 1) 5112 16
              I eq_refl Hl1 D L) as (w' & err & Ew & _ & Hok); [lia|lia|rewrite length_replicate; lia|rewrite Hn; vm_compute; congruence|].
  assert (snd <$> fla_object_unaligned_write ex_disk ex_fs3 ex_pool (mk_obj 0 1) (replicate 16 1) 5112 16 = Some 0) as Hz by (vm_compute; reflexivity).
  rewrite Ew in Hz. injection Hz as ->. exists w'. split; [exact Ew|]. rewrite <- Hn.
  rewrite (Hok eq_refl (mk_obj 0 2) Hl).
  - rewrite Hn. reflexivity.
  - rewrite Hn. vm_compute. reflexivity.
  - rewrite Hn. vm_compute. split; congruence.
  - rewrite Hn. vm_compute. congruence.
Defined.

(** The range check adds the offset to the object's position in 64 bits: an
    offset of 2^64 - 512 wraps around, the check passes and the block before the
    object, the last block of its neighbour, is overwritten. *)
Theorem write_offset_wraps :
  exists w', fla_object_write ex_disk ex_fs3 ex_pool (mk_obj 0 1) (replicate 512 1) (2 ^ 64 - 512) 512 = Some (w', 0) /\
    fla_object_slba ex_fs3 (mk_obj 0 1) ex_pool = Some 15 /\ fla_object_elba ex_fs3 (mk_obj 0 0) ex_pool = Some 15 /\
    RamDisk.block w' ex_dev1k 14 = replicate 512 1.
Proof. eexists. split; [vm_compute; reflexivity|]. repeat (split; [vm_compute; reflexivity|]). vm_compute. reflexivity. Qed.

