(* ===== verification/Directory.v ===== *)
(** * Directory: names and handles of pools

    What creation promises to later openings: the directory of pools is the finite
    map [dir] from name hashes to entry indices, and the operations of [Pool] read
    and extend it.  The last part holds the cases in which they do not. *)
From S2P Require Import Prelude Util Freelist Hash XnvmeEnv Flexalloc PoolEntry Geometry CommandSet.
From S2P Require Import SlabList SlabCache Slab Pool Object Alloc DataPlacement Layout Format System History.

(** ** Claims *)

(** C25: Creating a pool of a new name either fails, and then the directory and every
    entry are as before, or returns a handle whose index was the lowest free one and
    belonged to no pool; from then on opening that name gives that handle and opening
    any other name gives what it gave before (or fails for lack of memory). *)
Theorem pool_create_open_roundtrip {W} `{E : XnvmeEnv W} block `{!XnvmeLaws W block} U w fs arg h :
  dir_inv U fs -> cns_fs fs -> a_name arg ∈ U -> FLA_HTBL_H2 (a_name arg) = Some h -> dir fs !! h = None ->
  0 < a_obj_nlb arg -> 0 <= a_name_len arg <= Z.of_nat (length (a_name arg)) ->
  exists w1 fs1 hdl err, fla_base_pool_create w fs arg = Some (w1, fs1, hdl, err) /\ dir_inv U fs1 /\
    (err <> 0 -> hdl = None /\ dir fs1 = dir fs /\ ps_entries (fs_pools fs1) = ps_entries (fs_pools fs)) /\
    (err = 0 -> exists ndx, hdl = Some (mk_pool h ndx) /\ first_free (ps_freelist (fs_pools fs)) ndx /\
       (forall h', dir fs !! h' <> Some ndx) /\
       forall w2 k h', k ∈ U -> FLA_HTBL_H2 k = Some h' ->
         exists w3 hdl' err', fla_base_pool_open w2 fs1 k = Some (w3, hdl', err') /\
           (err' = - ENOMEM \/ hdl' = mk_pool h' <$> (if decide (h' = h) then Some ndx else dir fs !! h'))).
Proof.
  intros D F Hk Hh Hnew Ho Hlen. destruct (calc_objs_spec fs (a_obj_nlb arg) F Ho) as (n & Hn & _).
  destruct (pool_create_spec block U fs D F arg h n Hk Hh Hnew Hn Hlen w) as (w1 & fs1 & hdl & err & Ec & _ & _ & D1 & Hout).
  exists w1, fs1, hdl, err. split; [done|]. split; [done|].
  destruct Hout as [(Hne & -> & Hd & He & _)|(-> & ndx & -> & CO)]; (split; [done|]); [done|]. intros _.
  exists ndx. split; [done|]. split; [apply CO|]. split; [by apply (free_not_used U fs ndx D), CO|].
  intros w2 k h' Hk' Hh'. destruct (open_spec block U w2 fs1 k h' D1 Hk' Hh') as (w3 & hdl' & err' & -> & _ & Ho').
  exists w3, hdl', err'. split; [done|]. rewrite (co_dir _ _ _ _ _ _ CO) in Ho'.
  destruct (decide (h' = h)) as [->|Hne].
  - rewrite lookup_insert_eq in Ho'. destruct Ho' as [[-> _]|[_ ->]]; auto.
  - rewrite lookup_insert_ne in Ho' by done. destruct (dir fs !! h') as [i|]; [|destruct Ho' as [-> _]; by right].
    destruct Ho' as [[-> _]|[_ ->]]; auto.
Qed.

Lemma ex_ready_parts : dir_inv ex_names ex_fs1 /\ cns_fs ex_fs1 /\ dir ex_fs1 !! 97 = None.
Proof.
  destruct (mkfs_open_ready RamDisk.block _ _ _ _ _ _ _ _ _ _ ex_keys ex_request_ok ex_mkfs ex_open) as (R & _).
  split; [apply R|]. split; [apply R|].
  rewrite (rd_empty _ _ R). apply lookup_empty.
Qed.

Lemma pool_create_open_roundtrip_witness : exists w1 fs1 hdl err,
  fla_base_pool_create ex_disk ex_fs1 (ex_arg 97 10) = Some (w1, fs1, hdl, err) /\ dir_inv ex_names fs1.
Proof.
  destruct ex_ready_parts as (D & F & Hn).
  destruct (pool_create_open_roundtrip RamDisk.block ex_names ex_disk ex_fs1 (ex_arg 97 10) 97 D F ex_name_in
              eq_refl Hn) as (w1 & fs1 & hdl & err & Ec & D1 & _); [reflexivity|vm_compute; split; congruence|].
  exists w1, fs1, hdl, err. split; [exact Ec|exact D1].
Defined.

(** ** Where the code departs from that *)

(** An allocation that fails once. *)
Definition ex_low_memory : RamDisk.world := RamDisk.mk_world (RamDisk.blocks ex_disk) [false].
Definition ex_dup : flexalloc :=
  from_option (fun r => r.1.1.2) ex_cns (fla_base_pool_create ex_low_memory ex_fs2 (ex_arg 97 10)).

(** [fla_base_pool_create] takes every error of [fla_base_pool_open] for "no
    such pool": when the allocation of the handle of an existing pool fails, a
    second entry is created under the same name, and the name leads there from then
    on; the first pool can no longer be opened. *)
Theorem pool_create_duplicates :
  fla_base_pool_open ex_disk ex_fs2 [97; 0] = Some (ex_disk, Some (mk_pool 97 0), 0) /\
  fla_base_pool_create ex_low_memory ex_fs2 (ex_arg 97 10) = Some (ex_disk, ex_dup, Some (mk_pool 97 1), 0) /\
  fla_base_pool_open ex_disk ex_dup [97; 0] = Some (ex_disk, Some (mk_pool 97 1), 0) /\
  free_bit (ps_freelist (fs_pools ex_dup)) 0 = false.
Proof. repeat (split; [vm_compute; reflexivity|]). vm_compute. reflexivity. Qed.

(** Opening a system whose number of pools is a multiple of 32 installs no
    functions for the pools of the last 32 indices: with 32 pools, all in use, every
    entry is left without, and the creation of an object in any of them would call
    through an uninitialised pointer. *)
Theorem pool_init_skips_last_word : forall fs (w : RamDisk.world) geo sg w' fs' err ndx,
  g_npools geo = 32 -> sg_freelist sg = [32; 0] -> fla_pool_init w fs geo sg = Some (w', fs', err) -> err = 0 ->
  0 <= ndx < 32 -> entry_fnc_at fs' ndx = Some fnc_unset.
Proof.
  intros fs w geo sg w' fs' err ndx Hn Hf Hi E0 Hr. unfold fla_pool_init in Hi. rewrite Hn, Hf in Hi.
  destruct (malloc w (24 * 32)) as [w1 ok]. destruct ok; [|injection Hi as <- <- <-; done].
  set (f := fla_pool_initialize_entrie_func) in *. cbn in Hi. injection Hi as <- <- <-.
  unfold entry_fnc_at, lookupZ. destruct (Z.ltb_spec ndx 0); [lia|].
  apply (lookup_replicate_2 32). lia.
Qed.

Lemma pool_init_skips_last_word_witness :
  exists w' fs', fla_pool_init ex_world ex_cns (mk_geo 0 0 0 32 0 0 (mk_pool_sgmt 0 0 0 0) (mk_slab_sgmt 0))
      (mk_segment [32; 0] (mk_htbl_hdr 64 32) [] []) = Some (w', fs', 0) /\ entry_fnc_at fs' 31 = Some fnc_unset.
Proof.
  eexists _, _. split; [vm_compute; reflexivity|].
  eapply (pool_init_skips_last_word ex_cns ex_world (mk_geo 0 0 0 32 0 0 (mk_pool_sgmt 0 0 0 0) (mk_slab_sgmt 0))
            (mk_segment [32; 0] (mk_htbl_hdr 64 32) [] []));
    [reflexivity|reflexivity|vm_compute; reflexivity|reflexivity|lia].
Defined.
