(* ===== verification/Mkfs.v ===== *)
(** * Mkfs: the program [mkfs.flexalloc], [src/src/flexalloc_mkfs.c]

    The arguments of the program, from what [getopt_long] returns for them to the call
    of [fla_mkfs].  A run of [getopt_long] is the list of the options it returns, each
    with [optarg], and the list of the arguments that are no options. *)
From S2P Require Import Prelude Util Freelist Hash XnvmeEnv Flexalloc PoolEntry Geometry CommandSet.
From S2P Require Import SlabList SlabCache Slab Pool Object Alloc DataPlacement Layout Format System History.

(** ** [strtol] with base 0, of the standard library *)

Definition LONG_MAX : Z := 2 ^ 63 - 1.
Definition INT_MAX : Z := 2 ^ 31 - 1.

Definition is_space (c : Z) : bool := (c =? 32) || (9 <=? c) && (c <=? 13).
Definition digit_val (c : Z) : option Z :=
  if (48 <=? c) && (c <=? 57) then Some (c - 48)
  else if (97 <=? c) && (c <=? 122) then Some (c - 87)
  else if (65 <=? c) && (c <=? 90) then Some (c - 55) else None.

Fixpoint spaces (s : list Z) : nat :=
  match s with c :: s => if is_space c then S (spaces s) else O | [] => O end.

(** The value of the digits in front of [s] and their number. *)
Fixpoint digits (base : Z) (s : list Z) (acc : Z) (n : nat) : Z * nat :=
  match s with
  | c :: s' =>
      match digit_val c with
      | Some d => if d <? base then digits base s' (acc * base + d) (S n) else (acc, n)
      | None => (acc, n)
      end
  | [] => (acc, n)
  end.

(** The base a number is written in and the length of its prefix. *)
Definition is_hex (c : Z) : bool := from_option (fun v => v <? 16) false (digit_val c).
Definition number_base (s : list Z) : Z * nat :=
  match s with
  | z :: s =>
      if z =? 48 then
        match s with
        | x :: d :: _ => if ((x =? 120) || (x =? 88)) && is_hex d then (16, 2%nat) else (8, O)
        | _ => (8, O)
        end
      else (10, O)
  | [] => (10, O)
  end.

(** The sign in front of [s]. *)
Definition number_sign (s : list Z) : bool * nat :=
  match s with
  | c :: _ => if c =? 45 then (true, 1%nat) else if c =? 43 then (false, 1%nat) else (false, O)
  | [] => (false, O)
  end.

(** The value and how far the end pointer is; 0 when there is no number. *)
Definition strtol (s : list Z) : Z * nat :=
  let k := spaces s in
  let '(neg, sign) := number_sign (drop k s) in
  let k := (k + sign)%nat in
  let '(base, prefix) := number_base (drop k s) in
  let '(v, n) := digits base (drop (k + prefix) s) 0 O in
  if decide (n = O) then (0, O)
  else (Z.max (- LONG_MAX - 1) (Z.min LONG_MAX (if (neg : bool) then - v else v)), (k + prefix + n)%nat).

(** ** The arguments *)

Definition FLA_MKFS_SHOW_USAGE : Z := 100.

(** [struct fla_mkfs_p]. *)
Record mkfs_params := mk_params {
  mk_dev_uri : option (list Z); mk_md_dev_uri : option (list Z); mk_slab_nlb : Z; mk_npools : Z; mk_verbose : Z
}.
Definition params_zero : mkfs_params := mk_params None None 0 0 0.

(** The number in [optarg] and whether it is refused. *)
Definition number_arg (optarg : list Z) : Z * bool :=
  let '(arg_long, k) := strtol optarg in
  (arg_long, bool_decide (k = O) || (INT_MAX <? arg_long) || (arg_long <=? 0)).

(** The loop: the parameters and [err], or that the usage was shown.  A number is
    converted to [int] and stored as a [uint32_t].  Options that are not known are
    passed over. *)
Fixpoint parse_opts (opts : list (Z * option (list Z))) (p : mkfs_params) (err : Z) : option (mkfs_params * Z * bool) :=
  match opts with
  | [] => Some (p, err, false)
  | (c, optarg) :: opts =>
      if c =? 118 then parse_opts opts (mk_params (mk_dev_uri p) (mk_md_dev_uri p) (mk_slab_nlb p) (mk_npools p) 1) err
      else if c =? 104 then Some (p, err, true)
      else if c =? 115 then
        arg ← optarg;
        let '(v, bad) := number_arg arg in
        parse_opts opts (mk_params (mk_dev_uri p) (mk_md_dev_uri p) (u32 (i32 v)) (mk_npools p) (mk_verbose p))
          (if (bad : bool) then Z.lor err (-1) else err)
      else if c =? 112 then
        arg ← optarg;
        let '(v, bad) := number_arg arg in
        parse_opts opts (mk_params (mk_dev_uri p) (mk_md_dev_uri p) (mk_slab_nlb p) (u32 (i32 v)) (mk_verbose p))
          (if (bad : bool) then -1 else err)
      else if c =? 109 then parse_opts opts (mk_params (mk_dev_uri p) optarg (mk_slab_nlb p) (mk_npools p) (mk_verbose p)) err
      else parse_opts opts p err
  end.

Definition fla_mkfs_parse_args (opts : list (Z * option (list Z))) (rest : list (list Z)) (p : mkfs_params) : option (mkfs_params * Z) :=
  '(p, err, usage) ← parse_opts opts p 0;
  if (usage : bool) then Some (p, FLA_MKFS_SHOW_USAGE)
  else
    match rest with
    | [] => Some (p, -1)
    | dev :: rest =>
        let p := mk_params (Some dev) (mk_md_dev_uri p) (mk_slab_nlb p) (mk_npools p) (mk_verbose p) in
        match rest with
        | _ :: _ => Some (p, -1)
        | [] => if negb (err =? 0) then Some (p, err) else if mk_slab_nlb p =? 0 then Some (p, -1) else Some (p, 0)
        end
    end.

Section main.
Context {W : Type} `{XnvmeEnv W} `{XnvmeAdm W}.

(** The parameters as [fla_mkfs] takes them. *)
Definition mkfs_p (p : mkfs_params) : option fla_mkfs_p :=
  dev ← mk_dev_uri p;
  Some (mk_mkfs_p (mk_open_opts dev (mk_md_dev_uri p) None) (mk_slab_nlb p) (mk_npools p)).

(** [main]: the exit status does not depend on [fla_mkfs]. *)
Definition mkfs_main (w : W) (opts : list (Z * option (list Z))) (rest : list (list Z))
    (geo0 md_geo0 : fla_geo) (junk : fla_pool * fla_object * Z) : option (W * Z) :=
  '(params, err) ← fla_mkfs_parse_args opts rest params_zero;
  if negb (err =? 0) then Some (w, if err =? FLA_MKFS_SHOW_USAGE then 0 else err)
  else
    pr ← mkfs_p params;
    r ← fla_mkfs w pr geo0 md_geo0 junk;
    Some (r.1, err).
End main.

(** ** Decimal numbers *)

(** The number with the decimal digits [ds]. *)
Definition decimal (ds : list Z) : Z := foldl (fun acc d => acc * 10 + d) 0 ds.

Lemma digits_decimal ds r : Forall (fun d => 0 <= d <= 9) ds -> forall acc n,
  digits 10 (((fun d => d + 48) <$> ds) ++ 0 :: r) acc n = (foldl (fun acc d => acc * 10 + d) acc ds, (n + length ds)%nat).
Proof.
  induction 1 as [|d ds Hd _ IH]; intros acc n; cbn [fmap list_fmap app digits foldl length]; [cbn; f_equal; lia|].
  unfold digit_val. rewrite (proj2 (Z.leb_le 48 _)), (proj2 (Z.leb_le _ 57)) by lia. cbn [andb]. rewrite Z.add_simpl_r.
  rewrite (proj2 (Z.ltb_lt d 10)) by lia. rewrite IH. f_equal. lia.
Qed.

Lemma decimal_grows ds : Forall (fun d => 0 <= d <= 9) ds -> forall acc, 0 <= acc -> acc <= foldl (fun acc d => acc * 10 + d) acc ds.
Proof. induction 1 as [|d ds Hd _ IH]; intros acc Ha; cbn [foldl]; [done|]. etrans; [|apply IH]; lia. Qed.

(** A number in decimal notation is read as it is meant. *)
Lemma strtol_decimal d ds r : 1 <= d <= 9 -> Forall (fun d => 0 <= d <= 9) ds -> decimal (d :: ds) <= LONG_MAX ->
  strtol (((fun d => d + 48) <$> d :: ds) ++ 0 :: r) = (decimal (d :: ds), length (d :: ds)).
Proof.
  intros Hd Hds Hv. assert (Forall (fun d => 0 <= d <= 9) (d :: ds)) as Ha by (constructor; [lia|done]).
  pose proof (decimal_grows _ Ha 0 ltac:(lia)) as Hp. fold (decimal (d :: ds)) in Hp.
  unfold strtol. assert (spaces (((fun d => d + 48) <$> d :: ds) ++ 0 :: r) = 0%nat) as ->.
  { cbn [fmap list_fmap app spaces]. unfold is_space. rewrite (proj2 (Z.eqb_neq _ 32)), (proj2 (Z.leb_gt _ 13)), andb_false_r by lia. done. }
  rewrite drop_0. assert (number_sign (((fun d => d + 48) <$> d :: ds) ++ 0 :: r) = (false, 0%nat)) as ->.
  { cbn [fmap list_fmap app number_sign]. by rewrite !(proj2 (Z.eqb_neq _ _)) by lia. }
  cbn [plus]. rewrite drop_0. assert (number_base (((fun d => d + 48) <$> d :: ds) ++ 0 :: r) = (10, 0%nat)) as ->.
  { cbn [fmap list_fmap app number_base]. by rewrite (proj2 (Z.eqb_neq _ _)) by lia. }
  cbn [plus]. rewrite drop_0, digits_decimal by done. fold (decimal (d :: ds)). unfold LONG_MAX in *.
  rewrite decide_False by (cbn; lia). f_equal. lia.
Qed.

(** ** What the arguments ask for *)

(** The arguments of the options [c], in order, and the numbers in them. *)
Definition given (c : Z) (opts : list (Z * option (list Z))) : list (option (list Z)) :=
  omap (fun '(c', a) => if c' =? c then Some a else None) opts.
Definition number_of (a : option (list Z)) : Z * bool := number_arg (default [] a).
Definition numbers (c : Z) (opts : list (Z * option (list Z))) : list Z := (fun a => (number_of a).1) <$> given c opts.
Definition stored (c : Z) (opts : list (Z * option (list Z))) : list Z := (fun v => u32 (i32 v)) <$> numbers c opts.
(** A number is in front, and it is an [int] larger than 0. *)
Definition accepted (a : option (list Z)) : bool :=
  let '(v, k) := strtol (default [] a) in bool_decide (0 < k)%nat && (v <=? INT_MAX) && (1 <=? v).
Definition numbers_accepted (opts : list (Z * option (list Z))) : bool :=
  forallb accepted (given 115 opts) && forallb accepted (given 112 opts).

(** [getopt_long] returns the options that need an argument with one. *)
Definition getopt_run (opts : list (Z * option (list Z))) : Prop :=
  Forall (fun o => o.1 = 115 \/ o.1 = 112 -> is_Some o.2) opts.

Lemma given_cons c c' a opts : given c ((c', a) :: opts) = if c' =? c then a :: given c opts else given c opts.
Proof. unfold given. cbn. by destruct (c' =? c). Qed.

Lemma number_refused a : (number_of a).2 = negb (accepted a).
Proof.
  unfold accepted, number_of, number_arg. destruct (strtol _) as [v k]. cbn [snd]. rewrite !negb_andb. f_equal; [f_equal|].
  - destruct k; [done|]. by rewrite bool_decide_false, bool_decide_true by lia.
  - by rewrite Z.ltb_antisym.
  - destruct (Z.leb_spec v 0), (Z.leb_spec 1 v); done || lia.
Qed.

Lemma number_accepted a : accepted a = true -> 0 < (number_of a).1 < 2 ^ 31.
Proof.
  unfold accepted, number_of, number_arg. destruct (strtol _) as [v k]. cbn [fst]. intros [[_ Hh%Z.leb_le]%andb_true_iff Hl%Z.leb_le]%andb_true_iff.
  unfold INT_MAX in Hh. lia.
Qed.

Lemma stored_cons c c' a opts :
  stored c ((c', a) :: opts) = if c' =? c then u32 (i32 (number_of a).1) :: stored c opts else stored c opts.
Proof. unfold stored, numbers. rewrite given_cons. by destruct (c' =? c). Qed.

Lemma accepted_cons c a opts :
  numbers_accepted ((c, a) :: opts) = ((if (c =? 115) || (c =? 112) then accepted a else true) && numbers_accepted opts).
Proof.
  unfold numbers_accepted. rewrite !given_cons. destruct (Z.eqb_spec c 115) as [->|]; [by cbn; rewrite andb_assoc|].
  destruct (Z.eqb_spec c 112) as [->|]; cbn; [|done].
  by destruct (accepted a), (forallb accepted (given 115 opts)).
Qed.

Lemma default_last {A} (d x : A) l : default d (last (x :: l)) = default x (last l).
Proof. rewrite last_cons. by destruct (last l). Qed.

(** The loop of options, without help among them: it stores the last of each. *)
Lemma parse_opts_spec opts : getopt_run opts -> given 104 opts = [] -> forall p err, err = 0 \/ err = -1 ->
  exists vb, parse_opts opts p err = Some (mk_params (mk_dev_uri p) (default (mk_md_dev_uri p) (last (given 109 opts)))
    (default (mk_slab_nlb p) (last (stored 115 opts))) (default (mk_npools p) (last (stored 112 opts))) vb,
    if numbers_accepted opts then err else -1, false).
Proof.
  induction 1 as [|[c a] opts Ha _ IH]; intros Hh p err He; [by destruct p; eexists|].
  rewrite !given_cons in *. rewrite !stored_cons, accepted_cons. cbn [fst snd] in Ha.
  assert (c <> 104 /\ given 104 opts = []) as [Hc Ht] by (destruct (Z.eqb_spec c 104); done).
  specialize (IH Ht). cbn [parse_opts]. rewrite (proj2 (Z.eqb_neq c 104)) by done.
  destruct (Z.eqb_spec c 118) as [->|]; [by edestruct IH as [vb ->]; [|eexists]|].
  destruct (Z.eqb_spec c 115) as [->|].
  { destruct (Ha (or_introl eq_refl)) as [arg ->]. cbn [mbind option_bind]. pose proof (number_refused (Some arg)) as Hr. unfold number_of in *. change (default [] (Some arg)) with arg in *.
    destruct (number_arg arg) as [v bad]. cbn [Z.eqb Pos.eqb orb fst snd] in *. subst bad. rewrite default_last. edestruct IH as [vb ->]; [|exists vb].
    - destruct (accepted _), He as [-> | ->]; auto.
    - destruct (accepted _), He as [-> | ->], (numbers_accepted opts); done. }
  destruct (Z.eqb_spec c 112) as [->|].
  { destruct (Ha (or_intror eq_refl)) as [arg ->]. cbn [mbind option_bind]. pose proof (number_refused (Some arg)) as Hr. unfold number_of in *. change (default [] (Some arg)) with arg in *.
    destruct (number_arg arg) as [v bad]. cbn [Z.eqb Pos.eqb orb fst snd] in *. subst bad. rewrite default_last. edestruct IH as [vb ->]; [|exists vb].
    - destruct (accepted _); auto.
    - destruct (accepted _), (numbers_accepted opts); done. }
  destruct (Z.eqb_spec c 109) as [->|]; [|by edestruct IH as [vb ->]; [|eexists]].
  edestruct IH as [vb ->]; [done|]. exists vb. by rewrite default_last.
Qed.

(** When help is asked for, the loop ends with the usage. *)
Lemma parse_opts_help opts : getopt_run opts -> given 104 opts <> [] -> forall p err,
  exists q e, parse_opts opts p err = Some (q, e, true).
Proof.
  induction 1 as [|[c a] opts Ha _ IH]; intros Hh p err; [done|]. rewrite given_cons in Hh. cbn [fst snd] in Ha.
  cbn [parse_opts]. destruct (Z.eqb_spec c 104) as [->|]; [cbn; by do 2 eexists|].
  repeat match goal with |- context [if c =? ?k then _ else _] => destruct (Z.eqb_spec c k) end; try by apply IH.
  - destruct (Ha ltac:(by left)) as [arg ->]. cbn. destruct (number_arg arg). by apply IH.
  - destruct (Ha ltac:(by right)) as [arg ->]. cbn. destruct (number_arg arg). by apply IH.
Qed.

(** What a line of arguments must have to be accepted. *)
Definition args_ok (opts : list (Z * option (list Z))) (rest : list (list Z)) : bool :=
  bool_decide (given 104 opts = []) && bool_decide (length rest = 1%nat) &&
  numbers_accepted opts && negb (bool_decide (given 115 opts = [])).

Lemma stored_last c opts : forallb accepted (given c opts) = true ->
  forall d, default d (last (stored c opts)) = default d (last (numbers c opts)) /\
    (given c opts <> [] -> 0 < default d (last (numbers c opts)) < 2 ^ 31).
Proof.
  unfold stored, numbers. induction (given c opts) as [|a l IH]; intros Hf d; [done|]. cbn in Hf. apply andb_true_iff in Hf as [Ha Hl].
  rewrite !fmap_cons, !default_last. pose proof (number_accepted _ Ha) as Hn. rewrite i32_small by lia. rewrite u32_small by (split; lia).
  destruct (IH Hl (number_of a).1) as [-> Hr]. split; [done|]. intros _. destruct l; [cbn; lia|by apply Hr].
Qed.

(** The parameters and the result for a line of arguments. *)
Record args_parsed (opts : list (Z * option (list Z))) (rest : list (list Z)) (p : mkfs_params) (err : Z) : Prop := {
  ap_ok : err = 0 <-> args_ok opts rest = true;
  ap_usage : err = FLA_MKFS_SHOW_USAGE <-> given 104 opts <> [];
  ap_dev : err = 0 -> [mk_dev_uri p] = Some <$> rest;
  ap_md : err = 0 -> mk_md_dev_uri p = default None (last (given 109 opts));
  ap_slab : err = 0 -> Some (mk_slab_nlb p) = last (numbers 115 opts) /\ 0 < mk_slab_nlb p < 2 ^ 31;
  ap_npools : err = 0 -> mk_npools p = default 0 (last (numbers 112 opts)) /\ 0 <= mk_npools p < 2 ^ 31
}.

Lemma args_refused opts rest p : given 104 opts = [] -> args_ok opts rest = false -> args_parsed opts rest p (-1).
Proof. intros Hh Ha. split; try done; rewrite ?Hh, ?Ha; done. Qed.

Lemma args_help opts rest p : given 104 opts <> [] -> args_parsed opts rest p FLA_MKFS_SHOW_USAGE.
Proof. intros Hh. split; try done. unfold args_ok. by rewrite (bool_decide_false _ Hh). Qed.

Lemma last_default {A} (l : list A) d : l <> [] -> last l = Some (default d (last l)).
Proof. destruct (last l) eqn:E; [done|]. by apply last_None in E. Qed.

Lemma parse_args_spec opts rest : getopt_run opts ->
  exists p err, fla_mkfs_parse_args opts rest params_zero = Some (p, err) /\ args_parsed opts rest p err.
Proof.
  intros Hg. unfold fla_mkfs_parse_args. destruct (decide (given 104 opts = [])) as [Hh|Hh].
  2: { destruct (parse_opts_help opts Hg Hh params_zero 0) as (q & e & ->). do 2 eexists. split; [reflexivity|by apply args_help]. }
  destruct (parse_opts_spec opts Hg Hh params_zero 0 ltac:(by left)) as [vb ->]. cbn [mbind option_bind].
  destruct rest as [|dev [|]]; try (do 2 eexists; split; [reflexivity|apply args_refused; [done|]]).
  1, 3: unfold args_ok; by rewrite Hh.
  destruct (numbers_accepted opts) eqn:Ea; cbn [Z.eqb negb].
  2: { do 2 eexists; split; [reflexivity|apply args_refused; [done|]]. unfold args_ok. by rewrite Ea, Hh. }
  cbn [mk_slab_nlb mk_npools mk_md_dev_uri params_zero]. pose proof Ea as Ea'. unfold numbers_accepted in Ea'.
  apply andb_true_iff in Ea' as [Es Ep]. destruct (stored_last 115 opts Es 0) as [-> Hs], (stored_last 112 opts Ep 0) as [-> Hp].
  destruct (decide (given 115 opts = [])) as [Hn|Hn].
  - unfold numbers at 1. rewrite Hn. cbn. do 2 eexists; split; [reflexivity|apply args_refused; [done|]]. unfold args_ok. by rewrite Ea, Hh, Hn.
  - specialize (Hs Hn). rewrite (proj2 (Z.eqb_neq _ 0)) by lia. do 2 eexists. split; [reflexivity|]. split; cbn [mk_dev_uri mk_md_dev_uri mk_slab_nlb mk_npools]; try done.
    + unfold args_ok. by rewrite Ea, Hh, (bool_decide_false _ Hn).
    + intros _. split; [|done]. symmetry. apply last_default. unfold numbers. by destruct (given 115 opts).
    + intros _. split; [done|]. destruct (decide (given 112 opts = [])) as [He|He]; [|specialize (Hp He); lia].
      unfold numbers. rewrite He. cbn. lia.
Qed.

(** ** The program *)

(** A number in decimal notation is accepted when it fits an [int]. *)
Lemma decimal_accepted d ds r : 1 <= d <= 9 -> Forall (fun d => 0 <= d <= 9) ds -> decimal (d :: ds) <= LONG_MAX ->
  number_of (Some (((fun d => d + 48) <$> d :: ds) ++ 0 :: r)) = (decimal (d :: ds), INT_MAX <? decimal (d :: ds)).
Proof.
  intros Hd Hds Hv. assert (0 < decimal (d :: ds)) as Hp.
  { unfold decimal. cbn [foldl]. pose proof (decimal_grows _ Hds (0 * 10 + d) ltac:(lia)). lia. }
  unfold number_of, number_arg. change (default [] (Some ?l)) with l. rewrite strtol_decimal by done. f_equal.
  rewrite bool_decide_false by (cbn; lia). rewrite (proj2 (Z.leb_gt _ 0)) by lia. by rewrite orb_false_r.
Qed.

Section program.
Context {W : Type} `{E : XnvmeEnv W} `{A : XnvmeAdm W} (block : W -> xnvme_dev -> Z -> list Z).
Context `{!XnvmeLaws W block} `{!XnvmeAdmLaws W block}.

(** What an accepted line asks [fla_mkfs] for: the device, the last metadata device,
    the last size of a slab and the last number of pools. *)
Definition requested (opts : list (Z * option (list Z))) (rest : list (list Z)) (pr : fla_mkfs_p) : Prop :=
  exists uri s, rest = [uri] /\ last (numbers 115 opts) = Some s /\
    pr = mk_mkfs_p (mk_open_opts uri (default None (last (given 109 opts))) None) s (default 0 (last (numbers 112 opts))).

(** The program for a run of [getopt_long].  Without a device, with more than one
    argument, without [-s], or with a number of [-s] or [-p] that is missing, not
    positive or larger than [INT_MAX], nothing is touched and the exit status is not 0,
    unless help was asked for.  Otherwise the program is the call of [fla_mkfs] with
    the device, the last metadata device, the last slab size and the last number of
    pools that were given (0 without [-p]), and the exit status is 0 whatever that call
    returns.  When that is a request to format a conventional device that holds its own
    metadata, the call returns, and the device is formatted when it succeeds. *)
Lemma mkfs_program w opts rest geo0 md_geo0 junk : getopt_run opts ->
  (args_ok opts rest = false -> exists status, mkfs_main w opts rest geo0 md_geo0 junk = Some (w, status) /\ (status = 0 <-> given 104 opts <> [])) /\
  (args_ok opts rest = true -> exists pr, requested opts rest pr /\
     mkfs_main w opts rest geo0 md_geo0 junk = (fun r => (r.1, 0)) <$> fla_mkfs w pr geo0 md_geo0 junk /\
     forall dev, mkfs_request dev pr -> exists w' err, fla_mkfs w pr geo0 md_geo0 junk = Some (w', err) /\ (err = 0 -> formatted block w' dev pr)).
Proof using All.
  intros Hg. destruct (parse_args_spec opts rest Hg) as (p & err & Ep & [Hok Hu Hd Hm Hs Hn]).
  unfold mkfs_main. rewrite Ep. cbn [mbind option_bind].
  destruct (Z.eqb_spec err 0) as [->|He]; cbn [negb].
  - destruct (Hs eq_refl) as [Hs1 _], (Hn eq_refl) as [Hn1 _]. specialize (Hd eq_refl). specialize (Hm eq_refl).
    split; [by rewrite (proj1 Hok)|]. intros _.
    destruct rest as [|uri []]; try done. injection Hd as Hd. unfold mkfs_p. rewrite Hd. cbn [mbind option_bind].
    set (pr := mk_mkfs_p _ _ _). exists pr. split; [|split].
    + exists uri, (mk_slab_nlb p). split_and!; [done..|]. unfold pr. by rewrite Hm, Hn1.
    + by destruct (fla_mkfs w pr _ _ _) as [[w' e]|].
    + intros dev Hr. by apply mkfs_spec.
  - split; [|intros Ha; by apply Hok in Ha]. intros _. eexists. split; [reflexivity|].
    rewrite <- Hu. by destruct (Z.eqb_spec err FLA_MKFS_SHOW_USAGE).
Qed.
End program.
