(* ===== verification/FioEngine.v ===== *)
(** * FioEngine: the threads of the fio engine, [src/fio-ioengine/flexalloc.c]

    fio runs a job as threads that share one process.  The engine opens a device once:
    a thread that starts looks through the other threads for one that already has
    the device open and takes over its handle; a thread that ends closes the handle
    unless it finds another user.  Opening and pool creation, and the whole of
    cleaning up, run under one mutex.

    The state is the list of threads as [for_each_td] goes through it and the library
    with its open handles.  The library is an interface, [EngineLib]; the handles
    are the addresses [fla_open] returned. *)
From S2P Require Import Prelude Util Freelist Hash XnvmeEnv Flexalloc PoolEntry Geometry CommandSet.
From S2P Require Import SlabList SlabCache Slab Pool Object Alloc ObjectIO DataPlacement Layout Format System History.

(** ** Data *)

(** [struct flexalloc_options]; [None] is [NULL].  Strings end with their terminator,
    so that two of them are equal when [strcmp] gives 0. *)
Record flexalloc_options := mk_eo {
  eo_daemon_uri : option (list Z); eo_dev_uri : option (list Z); eo_md_dev_uri : option (list Z);
  eo_poolname : option (list Z); eo_strp_nobj : Z; eo_strp_nbyte : Z
}.

(** [struct flexalloc_data]: the handle, the pool and the objects of the files. *)
Record flexalloc_data := mk_fad { fd_fs : option Z; fd_pool : option fla_pool; fd_object : list fla_object }.

(** [td->io_ops_data]: the data a thread allocated may be freed while the pointer
    still leads there. *)
Inductive fad_ptr := fad_null | fad_live (d : flexalloc_data) | fad_freed.

(** What the engine reads of [struct thread_data]. *)
Record thread_data := mk_td {
  td_thread_number : Z; td_ioengine : list Z; td_eo : option flexalloc_options; td_io_ops_data : fad_ptr;
  td_file_size_low : Z; td_file_size_high : Z; td_odirect : bool; td_use_thread : bool; td_nr_files : Z;
  td_name : list Z; td_subjob_number : Z
}.
Definition set_io_ops_data (p : fad_ptr) (td : thread_data) : thread_data :=
  mk_td (td_thread_number td) (td_ioengine td) (td_eo td) p (td_file_size_low td) (td_file_size_high td) (td_odirect td)
    (td_use_thread td) (td_nr_files td) (td_name td) (td_subjob_number td).

(** [ioengine.name]: flexalloc. *)
Definition ioengine_name : list Z := [102; 108; 101; 120; 97; 108; 108; 111; 99; 0].

Definition daemon_mode (opts : flexalloc_options) : bool := bool_decide (is_Some (eo_daemon_uri opts)).

(** ** The library *)

(** The calls of the engine.  [lib_handles] are the open handles with the path each
    was opened by.  Creating a pool from a name and a size, and setting its
    striping, are calls the library of this repository does not have. *)
Class EngineLib (L : Type) := {
  lib_handles : L -> gmap Z (list Z);
  lib_open : L -> list Z -> option (list Z) -> option (L * option Z * Z);
  lib_daemon_open : L -> list Z -> option (L * option Z * Z);
  lib_close : L -> Z -> option (L * Z);
  lib_lb_nbytes : L -> Z -> option Z;
  lib_pool_create : L -> Z -> list Z -> Z -> Z -> option (L * option fla_pool * Z);
  lib_pool_set_strp : L -> Z -> fla_pool -> Z -> Z -> option (L * Z)
}.

(** What the engine relies on: a successful call of [fla_open] gives a handle that was
    not in use, closing takes it away, and nothing else changes them.  After a failed
    call of [fla_open] the pointer may lead to the memory it freed. *)
Class EngineLibLaws (L : Type) `{EngineLib L} := {
  open_handle : forall l uri md l' h err, lib_open l uri md = Some (l', h, err) ->
    (err = 0 /\ exists x, h = Some x /\ lib_handles l !! x = None /\ lib_handles l' = <[x := uri]> (lib_handles l)) \/
    (err <> 0 /\ lib_handles l' = lib_handles l);
  close_handle : forall l x l' err, lib_close l x = Some (l', err) ->
    lib_handles l' = if err =? 0 then delete x (lib_handles l) else lib_handles l;
  pool_create_handles : forall l x name len nlb l' pool err, lib_pool_create l x name len nlb = Some (l', pool, err) ->
    lib_handles l' = lib_handles l;
  set_strp_handles : forall l x pool n b l' err, lib_pool_set_strp l x pool n b = Some (l', err) ->
    lib_handles l' = lib_handles l
}.

Section engine.
Context {L : Type} `{EngineLib L}.

Record engine := mk_engine { en_lib : L; en_tds : list thread_data }.

(** ** Opening *)

(** The loop of [fio_flexalloc_open_direct]: the handle of the first thread of the engine
    that has one and whose device is [dev_uri] or not set. *)
Fixpoint open_scan (dev_uri : option (list Z)) (thread_number : Z) (tds : list thread_data) : option (option Z) :=
  match tds with
  | [] => Some None
  | td :: tds =>
      if td_thread_number td =? thread_number then open_scan dev_uri thread_number tds
      else if negb (bool_decide (td_ioengine td = ioengine_name)) then open_scan dev_uri thread_number tds
      else
        fao ← td_eo td;
        other ← match eo_dev_uri fao with
                | Some uri => dev ← dev_uri; Some (negb (bool_decide (uri = dev)))
                | None => Some false
                end;
        if (other : bool) then open_scan dev_uri thread_number tds
        else
          match td_io_ops_data td with
          | fad_null => open_scan dev_uri thread_number tds
          | fad_freed => None
          | fad_live d => match fd_fs d with Some x => Some (Some x) | None => open_scan dev_uri thread_number tds end
          end
  end.

Definition fio_flexalloc_open_direct (l : L) (tds : list thread_data) (dev_uri md_dev_uri : option (list Z)) (thread_number : Z) :
    option (L * option Z * Z) :=
  found ← open_scan dev_uri thread_number tds;
  match found with
  | Some x => Some (l, Some x, 0)
  | None => dev ← dev_uri; lib_open l dev md_dev_uri
  end.

Definition fio_flexalloc_open_daemon (l : L) (opts : flexalloc_options) : option (L * option Z * Z) :=
  uri ← eo_daemon_uri opts;
  '(l, fs, err) ← lib_daemon_open l uri;
  Some (l, if err =? 0 then fs else None, err).

(** ** Starting a thread *)

(** The checks of the options. *)
Definition init_check (td : thread_data) (o : flexalloc_options) : Z :=
  if negb (td_file_size_low td =? td_file_size_high td) || negb (td_odirect td) ||
     (negb (td_use_thread td) && bool_decide (eo_daemon_uri o = None)) ||
     (daemon_mode o && (bool_decide (is_Some (eo_dev_uri o)) || bool_decide (is_Some (eo_md_dev_uri o)))) ||
     (bool_decide (is_Some (eo_md_dev_uri o)) && bool_decide (eo_dev_uri o = None)) then 1 else 0.

(** Up to the mutex: the checks and the allocation of the thread's data. *)
Definition init_alloc (i : nat) (en : engine) : option (engine * Z) :=
  td ← en_tds en !! i;
  o ← td_eo td;
  let ret := init_check td o in
  if negb (ret =? 0) then Some (en, ret)
  else
    let fad := mk_fad None None (replicate (Z.to_nat (td_nr_files td)) (mk_obj 0 0)) in
    Some (mk_engine (en_lib en) (<[i := set_io_ops_data (fad_live fad) td]> (en_tds en)), 0).

(** The decimal digits of a number that is not negative. *)
Fixpoint print_digits (fuel : nat) (n : Z) (acc : list Z) : list Z :=
  match fuel with
  | O => acc
  | S fuel => let acc := (48 + n mod 10) :: acc in if n <? 10 then acc else print_digits fuel (n / 10) acc
  end.
Definition print_int (n : Z) : list Z :=
  if n <? 0 then 45 :: print_digits 10 (- n) [] else print_digits 10 n [].

(** The name of the pool, as [snprintf] prints it to [PATH_MAX] bytes. *)
Definition PATH_MAX : Z := 4096.
Definition pool_name (td : thread_data) (o : flexalloc_options) : option (list Z) :=
  let prefix := default (td_name td) (eo_poolname o) in
  n ← strlen prefix;
  Some (take (Z.to_nat (PATH_MAX - 1)) (take n prefix ++ 46 :: print_int (td_subjob_number td)) ++ [0]).

(** The pool and its striping, for a thread whose data is [fad] and whose handle is [x]. *)
Definition init_pool (l : L) (td : thread_data) (o : flexalloc_options) (fad : flexalloc_data) (x : Z) :
    option (L * flexalloc_data * Z) :=
  name ← pool_name td o;
  n ← strlen name;
  lb ← lib_lb_nbytes l x;
  if lb =? 0 then None else
  '(l, pool, ret) ← lib_pool_create l x name (Z.of_nat n) (td_file_size_low td / lb);
  if negb (ret =? 0) then Some (l, fad, ret)
  else
    let fad := mk_fad (fd_fs fad) pool (fd_object fad) in
    if negb (eo_strp_nobj o =? 0) && negb (eo_strp_nbyte o =? 0) then
      p ← pool;
      '(l, ret) ← lib_pool_set_strp l x p (eo_strp_nobj o) (eo_strp_nbyte o);
      Some (l, fad, ret)
    else Some (l, fad, ret).

(** From there on, under the mutex unless there is a daemon: the handle, *)
Definition init_handle (l : L) (tds : list thread_data) (td : thread_data) (o : flexalloc_options) : option (L * option Z * Z) :=
  if daemon_mode o then fio_flexalloc_open_daemon l o
  else fio_flexalloc_open_direct l tds (eo_dev_uri o) (eo_md_dev_uri o) (td_thread_number td).

(** and the pool.  [fla_open] stores in the thread's data also when it fails. *)
Definition init_open (i : nat) (en : engine) : option (engine * Z) :=
  td ← en_tds en !! i;
  o ← td_eo td;
  match td_io_ops_data td with
  | fad_live fad =>
      '(l, fs, ret) ← init_handle (en_lib en) (en_tds en) td o;
      let fad := mk_fad fs (fd_pool fad) (fd_object fad) in
      '(l, fad, ret) ← (if negb (ret =? 0) then Some (l, fad, ret) else x ← fs; init_pool l td o fad x);
      Some (mk_engine l (<[i := set_io_ops_data (fad_live fad) td]> (en_tds en)), ret)
  | _ => None
  end.

Definition fio_flexalloc_init (i : nat) (en : engine) : option (engine * Z) :=
  '(en, ret) ← init_alloc i en;
  if negb (ret =? 0) then Some (en, ret) else init_open i en.

(** ** Ending a thread *)

(** The loop of [fio_flexalloc_cleanup_direct]: whether there is another thread of the
    engine for the device that has data. *)
Fixpoint cleanup_scan (o : flexalloc_options) (thread_number : Z) (tds : list thread_data) : bool :=
  match tds with
  | [] => false
  | td2 :: tds =>
      let next := cleanup_scan o thread_number tds in
      if thread_number =? td_thread_number td2 then next
      else if negb (bool_decide (td_ioengine td2 = ioengine_name)) then next
      else
        match td_eo td2 with
        | None => next
        | Some fao2 =>
            match eo_dev_uri fao2, eo_dev_uri o with
            | Some uri2, Some uri =>
                if negb (bool_decide (uri2 = uri)) then next
                else match td_io_ops_data td2 with fad_null => next | _ => true end
            | _, _ => next
            end
        end
  end.

Definition fio_flexalloc_cleanup_direct (i : nat) (td : thread_data) (o : flexalloc_options) (en : engine) : option engine :=
  match td_io_ops_data td with
  | fad_freed => None
  | fad_live (mk_fad (Some x) _ _) =>
      l ← (if cleanup_scan o (td_thread_number td) (en_tds en) then Some (en_lib en)
           else r ← lib_close (en_lib en) x; Some r.1);
      Some (mk_engine l (<[i := set_io_ops_data fad_freed td]> (en_tds en)))
  | _ => Some en
  end.

Definition fio_flexalloc_cleanup_daemon (i : nat) (td : thread_data) (en : engine) : option engine :=
  match td_io_ops_data td with
  | fad_live d =>
      l ← (match fd_fs d with Some x => r ← lib_close (en_lib en) x; Some r.1 | None => Some (en_lib en) end);
      Some (mk_engine l (<[i := set_io_ops_data fad_freed td]> (en_tds en)))
  | _ => None
  end.

Definition fio_flexalloc_cleanup (i : nat) (en : engine) : option engine :=
  td ← en_tds en !! i;
  o ← td_eo td;
  if daemon_mode o then fio_flexalloc_cleanup_daemon i td en else fio_flexalloc_cleanup_direct i td o en.

(** fio clears the pointer after the engine cleaned up. *)
Definition forget (i : nat) (en : engine) : engine :=
  match en_tds en !! i with
  | Some td => mk_engine (en_lib en) (<[i := set_io_ops_data fad_null td]> (en_tds en))
  | None => en
  end.
End engine.
Arguments engine : clear implicits.

(** ** What the loops find *)

(** The device of a thread, and the handle it has. *)
Definition td_uri (td : thread_data) : option (list Z) := o ← td_eo td; eo_dev_uri o.
Definition td_handle (td : thread_data) : option Z :=
  match td_io_ops_data td with fad_live d => fd_fs d | _ => None end.

Definition fad_set (p : fad_ptr) : bool := match p with fad_null => false | _ => true end.

(** Jobs of the engine that name a device, and no daemon. *)
Definition direct_job (td : thread_data) : Prop := td_ioengine td = ioengine_name ->
  exists o uri, td_eo td = Some o /\ eo_daemon_uri o = None /\ eo_dev_uri o = Some uri.

(** The other threads of the engine for the device. *)
Definition candidate (dev : list Z) (n : Z) (td : thread_data) : bool :=
  negb (td_thread_number td =? n) && bool_decide (td_ioengine td = ioengine_name) && bool_decide (td_uri td = Some dev).

Lemma candidate_iff dev n td : candidate dev n td = true <->
  td_thread_number td <> n /\ td_ioengine td = ioengine_name /\ td_uri td = Some dev.
Proof. unfold candidate. rewrite !andb_true_iff, negb_true_iff, Z.eqb_neq, !bool_decide_eq_true. tauto. Qed.

Lemma open_scan_cons dev n td tds : direct_job td -> open_scan (Some dev) n (td :: tds) =
  if candidate dev n td then
    match td_io_ops_data td with fad_freed => None | _ => match td_handle td with Some x => Some (Some x) | None => open_scan (Some dev) n tds end end
  else open_scan (Some dev) n tds.
Proof.
  intros Hd. cbn [open_scan]. unfold candidate, td_handle. destruct (td_thread_number td =? n); [done|].
  destruct (decide (td_ioengine td = ioengine_name)) as [He|He]; [|by rewrite (bool_decide_false _ He)].
  rewrite (bool_decide_true _ He). destruct (Hd He) as (o & uri & Eo & _ & Eu). unfold td_uri. rewrite Eo. cbn. rewrite Eu. cbn.
  destruct (decide (uri = dev)) as [->|Hn].
  - rewrite !bool_decide_true by done. cbn. by destruct (td_io_ops_data td).
  - rewrite !bool_decide_false by congruence. done.
Qed.

Lemma open_scan_spec dev n tds : Forall direct_job tds ->
  match open_scan (Some dev) n tds with
  | Some (Some x) => exists td, td ∈ tds /\ candidate dev n td = true /\ td_handle td = Some x
  | Some None => forall td, td ∈ tds -> candidate dev n td = true -> td_handle td = None
  | None => exists td, td ∈ tds /\ candidate dev n td = true /\ td_io_ops_data td = fad_freed
  end.
Proof.
  induction 1 as [|td tds Hd _ IH]; [by intros td ?%elem_of_nil|]. rewrite open_scan_cons by done.
  destruct (candidate dev n td) eqn:Ec; [destruct (td_io_ops_data td) eqn:Ed|].
  3: { exists td. split; [left|done]. }
  1, 2: destruct (td_handle td) as [x|] eqn:Eh; [exists td; split; [left|done]|].
  all: destruct (open_scan (Some dev) n tds) as [[x|]|]; [destruct IH as (t & ? & ?); exists t; split; [by right|done]| |
    destruct IH as (t & ? & ?); exists t; split; [by right|done]].
  all: intros t [->|Ht]%elem_of_cons Hc; [congruence|by apply IH].
Qed.

Lemma cleanup_scan_spec o dev n tds : eo_dev_uri o = Some dev ->
  cleanup_scan o n tds = existsb (fun td => candidate dev n td && fad_set (td_io_ops_data td)) tds.
Proof.
  intros Hd. induction tds as [|td tds IH]; [done|]. cbn [cleanup_scan existsb]. unfold candidate. rewrite IH, (Z.eqb_sym n).
  destruct (td_thread_number td =? n); [done|]. cbn [negb andb].
  destruct (bool_decide (td_ioengine td = ioengine_name)); [|done]. cbn [negb andb]. unfold td_uri. rewrite Hd.
  destruct (td_eo td) as [o2|]; cbn; [|done]. destruct (eo_dev_uri o2) as [uri|]; [|done].
  destruct (decide (uri = dev)) as [->|Hn]; [|by rewrite !bool_decide_false by congruence].
  rewrite !bool_decide_true by done. by destruct (td_io_ops_data td).
Qed.

(** ** The threads *)

Section sharing.
Context {L : Type} `{EngineLib L} `{!EngineLibLaws L}.
Implicit Types (en : engine L) (tds : list thread_data).

(** The steps of the threads, in any order: a thread of the engine starts, up to the
    mutex and then under it, it ends, and fio clears its pointer.  Creating the pool may
    fail.  Left out are steps in which [fla_open] fails, which leaves the thread with a
    pointer to freed memory ([engine_handles_lost]), and steps whose behaviour is
    undefined: a thread that looks for a handle while the pointer of a thread of its
    device still leads to freed data. *)
Inductive en_step : engine L -> engine L -> Prop :=
| step_alloc i td en en' ret : en_tds en !! i = Some td -> td_ioengine td = ioengine_name -> td_io_ops_data td = fad_null ->
    init_alloc i en = Some (en', ret) -> en_step en en'
| step_open i td o l x en en' ret : en_tds en !! i = Some td -> td_ioengine td = ioengine_name -> td_eo td = Some o ->
    td_handle td = None -> init_handle (en_lib en) (en_tds en) td o = Some (l, Some x, 0) ->
    init_open i en = Some (en', ret) -> en_step en en'
| step_cleanup i td en en' : en_tds en !! i = Some td -> td_ioengine td = ioengine_name ->
    fio_flexalloc_cleanup i en = Some en' -> en_step en en'
| step_forget i td en : en_tds en !! i = Some td -> td_ioengine td = ioengine_name -> td_io_ops_data td = fad_freed -> en_step en (forget i en).

(** Threads of a device that have a handle have the same, and it is open. *)
Record shared (en : engine L) : Prop := {
  sh_numbers : NoDup (td_thread_number <$> en_tds en);
  sh_direct : Forall direct_job (en_tds en);
  sh_open : forall td x, td ∈ en_tds en -> td_ioengine td = ioengine_name -> td_handle td = Some x ->
    exists uri, td_uri td = Some uri /\ lib_handles (en_lib en) !! x = Some uri;
  sh_one : forall td td' x y, td ∈ en_tds en -> td' ∈ en_tds en -> td_ioengine td = ioengine_name -> td_ioengine td' = ioengine_name ->
    td_handle td = Some x -> td_handle td' = Some y -> td_uri td = td_uri td' -> x = y
}.

(** Replacing the data of one thread. *)
Lemma set_data_elem tds i td p t : NoDup (td_thread_number <$> tds) -> tds !! i = Some td ->
  t ∈ <[i := set_io_ops_data p td]> tds -> t = set_io_ops_data p td \/ t ∈ tds /\ td_thread_number t <> td_thread_number td.
Proof.
  intros N Hi (j & Hj)%list_elem_of_lookup. destruct (decide (i = j)) as [<-|Hn].
  - rewrite list_lookup_insert_eq in Hj by (by eapply lookup_lt_Some). left. by injection Hj.
  - rewrite list_lookup_insert_ne in Hj by done. right. split; [by eapply list_elem_of_lookup_2|]. intros E. apply Hn.
    apply (NoDup_lookup _ _ _ (td_thread_number td) N); rewrite list_lookup_fmap; [by rewrite Hi|rewrite Hj; cbn; by rewrite E].
Qed.

Lemma set_data_numbers tds i td p : tds !! i = Some td ->
  td_thread_number <$> <[i := set_io_ops_data p td]> tds = td_thread_number <$> tds.
Proof. intros Hi. rewrite list_fmap_insert. apply list_insert_id. by rewrite list_lookup_fmap, Hi. Qed.

Lemma shared_set en i td p l : shared en -> en_tds en !! i = Some td -> td_ioengine td = ioengine_name ->
  (forall t x, t ∈ en_tds en -> td_thread_number t <> td_thread_number td -> td_ioengine t = ioengine_name -> td_handle t = Some x ->
     lib_handles l !! x = lib_handles (en_lib en) !! x) ->
  (forall x, td_handle (set_io_ops_data p td) = Some x -> lib_handles l !! x = td_uri td /\
     forall t y, t ∈ en_tds en -> td_thread_number t <> td_thread_number td -> td_ioengine t = ioengine_name ->
       td_handle t = Some y -> td_uri t = td_uri td -> y = x) ->
  shared (mk_engine l (<[i := set_io_ops_data p td]> (en_tds en))).
Proof.
  intros [N D O U] Hi He Hl Hx. assert (td ∈ en_tds en) as Ht by (by eapply list_elem_of_lookup_2).
  assert (direct_job td) as Hd by (by eapply Forall_forall). destruct (Hd He) as (o & uri & Eo & _ & Eu).
  assert (td_uri td = Some uri) as Hu by (unfold td_uri; by rewrite Eo).
  split; cbn [en_tds en_lib].
  - by rewrite set_data_numbers.
  - apply Forall_insert; done.
  - intros t x Hin Ht' Hh. destruct (set_data_elem _ _ _ _ _ N Hi Hin) as [->|[Hin' Hn]].
    + destruct (Hx x Hh) as [Hxl _]. exists uri. by rewrite Hxl.
    + destruct (O t x Hin' Ht' Hh) as (u & ? & ?). exists u. by rewrite (Hl t x).
  - intros t t' x y Hin Hin' Hte Hte' Hh Hh' Heq.
    destruct (set_data_elem _ _ _ _ _ N Hi Hin) as [->|[Hi1 Hn1]], (set_data_elem _ _ _ _ _ N Hi Hin') as [->|[Hi2 Hn2]].
    + congruence.
    + symmetry. by apply (proj2 (Hx x Hh) t' y).
    + by apply (proj2 (Hx y Hh') t x).
    + by apply (U t t').
Qed.

Lemma init_pool_handles l td o fad x l' fad' ret : init_pool l td o fad x = Some (l', fad', ret) ->
  lib_handles l' = lib_handles l /\ fd_fs fad' = fd_fs fad.
Proof using All.
  unfold init_pool. intros E. repeat (apply bind_Some in E as (? & ? & E)). destruct (_ =? 0) in E; [done|].
  apply bind_Some in E as ([[l1 pool] r] & Ep & E). pose proof (pool_create_handles _ _ _ _ _ _ _ _ Ep) as Hp.
  destruct (negb (r =? 0)); [by injection E as <- <- _|].
  destruct (_ && _); [|by injection E as <- <- _]. apply bind_Some in E as (p & _ & E). apply bind_Some in E as ([l2 r2] & Es & E).
  injection E as <- <- _. by rewrite (set_strp_handles _ _ _ _ _ _ _ Es).
Qed.

(** The handle a thread gets: the one the others have, or a new one. *)
Lemma init_handle_shared en td o uri l x : shared en -> td_eo td = Some o -> eo_daemon_uri o = None -> eo_dev_uri o = Some uri ->
  init_handle (en_lib en) (en_tds en) td o = Some (l, Some x, 0) ->
  lib_handles l !! x = Some uri /\
  forall t y, t ∈ en_tds en -> td_thread_number t <> td_thread_number td -> td_ioengine t = ioengine_name -> td_handle t = Some y ->
    lib_handles l !! y = lib_handles (en_lib en) !! y /\ (td_uri t = Some uri -> y = x).
Proof using All.
  intros [N D O U] Eo Ed Eu. unfold init_handle, daemon_mode. rewrite Ed, Eu. rewrite bool_decide_false by (by intros []).
  unfold fio_flexalloc_open_direct. pose proof (open_scan_spec uri (td_thread_number td) (en_tds en) D) as Hs.
  destruct (open_scan _ _ _) as [[y|]|]; cbn [mbind option_bind]; [|intros Eop|done].
  - intros [= <- ->]. destruct Hs as (t & Ht & (Hn & He & Hu)%candidate_iff & Hh). destruct (O t x Ht He Hh) as (u & Hu' & Hl).
    split; [congruence|]. intros t' z Ht' _ He' Hz. split; [done|]. intros Hu2. apply (U t' t); congruence.
  - destruct (open_handle _ _ _ _ _ _ Eop) as [(_ & x' & [= <-] & Hf & Hl)|[]]; [|done]. rewrite Hl, lookup_insert_eq. split; [done|].
    intros t y Ht Hn He Hh. destruct (O t y Ht He Hh) as (u & _ & Hy). split; [by rewrite lookup_insert_ne by congruence|].
    intros Hu. assert (candidate uri (td_thread_number td) t = true) as Hc by (by apply candidate_iff). rewrite (Hs t Ht Hc) in Hh. done.
Qed.

Lemma init_open_shared en i td o l x en' ret : shared en -> en_tds en !! i = Some td -> td_ioengine td = ioengine_name ->
  td_eo td = Some o -> init_handle (en_lib en) (en_tds en) td o = Some (l, Some x, 0) -> init_open i en = Some (en', ret) -> shared en'.
Proof using All.
  intros S Hi He Eo Eh. unfold init_open. rewrite Hi. cbn. rewrite Eo. cbn. destruct (td_io_ops_data td) as [|fad|]; [done| |done].
  rewrite Eh. cbn. intros Ei. apply bind_Some in Ei as ([[l' fad'] r] & Ep & [= <- <-]).
  destruct (init_pool_handles _ _ _ _ _ _ _ _ Ep) as [Hl Hfs].
  assert (direct_job td) as Hd by (eapply Forall_forall; [apply S|by eapply list_elem_of_lookup_2]).
  destruct (Hd He) as (o' & uri & Eo' & Ed & Eu). assert (o' = o) as -> by congruence.
  destruct (init_handle_shared _ _ _ _ _ _ S Eo Ed Eu Eh) as [Hx Ho]. apply shared_set; try done; rewrite Hl.
  - intros t y Ht Hn Hte Hh. by apply (Ho t y).
  - intros y Hy. assert (y = x) as ->. { unfold td_handle in Hy. cbn in Hy. rewrite Hfs in Hy. by injection Hy. }
    assert (td_uri td = Some uri) as Hu by (unfold td_uri; by rewrite Eo). rewrite Hu. split; [done|]. intros t y Ht Hn Hte Hh. by apply (Ho t y).
Qed.

(** A thread that closes the handle is the only one to have it. *)
Lemma cleanup_alone en td o uri : Forall direct_job (en_tds en) -> td_eo td = Some o -> eo_dev_uri o = Some uri ->
  cleanup_scan o (td_thread_number td) (en_tds en) = false -> forall t, t ∈ en_tds en -> td_thread_number t <> td_thread_number td ->
  td_ioengine t = ioengine_name -> td_uri t = Some uri -> td_io_ops_data t = fad_null.
Proof using.
  intros D Eo Eu Hs t Ht Hn He Hu. rewrite (cleanup_scan_spec _ _ _ _ Eu) in Hs. destruct (td_io_ops_data t) eqn:Ed; [done|exfalso..].
  all: enough (existsb (fun td' => candidate uri (td_thread_number td) td' && fad_set (td_io_ops_data td')) (en_tds en) = true) by congruence.
  all: apply existsb_exists; exists t; split; [by apply list_elem_of_In|]; rewrite (proj2 (candidate_iff _ _ _)), Ed by done; done.
Qed.

Lemma cleanup_shared en i td en' : shared en -> en_tds en !! i = Some td -> td_ioengine td = ioengine_name ->
  fio_flexalloc_cleanup i en = Some en' -> shared en'.
Proof using All.
  intros S Hi He. assert (td ∈ en_tds en) as Ht by (by eapply list_elem_of_lookup_2).
  assert (direct_job td) as Hd by (eapply Forall_forall; [apply S|done]). destruct (Hd He) as (o & uri & Eo & Ed & Eu).
  assert (td_uri td = Some uri) as Hu by (unfold td_uri; by rewrite Eo).
  unfold fio_flexalloc_cleanup. rewrite Hi. cbn. rewrite Eo. cbn. unfold daemon_mode. rewrite Ed. rewrite bool_decide_false by (by intros []).
  unfold fio_flexalloc_cleanup_direct. destruct (td_io_ops_data td) as [|[[x|] pool objs]|] eqn:Edata; try (by intros [= <-]).
  assert (td_handle td = Some x) as Hh by (unfold td_handle; by rewrite Edata).
  destruct (cleanup_scan _ _ _) eqn:Es; cbn [mbind option_bind]; [intros [= <-]; by apply shared_set|].
  intros E. apply bind_Some in E as (l & El & [= <-]). apply bind_Some in El as ([l' err] & Ec & [= <-]). cbn [fst].
  apply shared_set; try done. intros t y Hin Hn Hte Hy. rewrite (close_handle _ _ _ _ Ec). destruct (err =? 0); [|done].
  apply lookup_delete_ne. intros <-. destruct (sh_open _ S t x Hin Hte Hy) as (u & Hut & Hl), (sh_open _ S td x Ht He Hh) as (u' & Hu' & Hl').
  assert (td_uri t = Some uri) as Hut' by congruence. unfold td_handle in Hy.
  by rewrite (cleanup_alone en td o uri (sh_direct _ S) Eo Eu Es t Hin Hn Hte Hut') in Hy.
Qed.

Lemma en_step_shared en en' : shared en -> en_step en en' -> shared en'.
Proof using All.
  intros S. destruct 1 as [i td en en' ret Hi He Hn Ea|i td o l x en en' ret Hi He Eo Hh Eh Ei|i td en en' Hi He Ec|i td en Hi He Hf].
  - unfold init_alloc in Ea. rewrite Hi in Ea. cbn in Ea. apply bind_Some in Ea as (o & _ & Ea).
    destruct (negb _); injection Ea as <- _; [done|]. by apply shared_set.
  - by eapply init_open_shared.
  - by eapply cleanup_shared.
  - unfold forget. rewrite Hi. by apply shared_set.
Qed.

(** Before any thread has started. *)
Record not_started (en : engine L) : Prop := {
  ns_numbers : NoDup (td_thread_number <$> en_tds en);
  ns_direct : Forall direct_job (en_tds en);
  ns_null : forall td, td ∈ en_tds en -> td_ioengine td = ioengine_name -> td_io_ops_data td = fad_null
}.

Lemma not_started_shared en : not_started en -> shared en.
Proof using.
  intros [N D Z]. split; try done.
  - intros td x Ht He Hh. unfold td_handle in Hh. by rewrite (Z td Ht He) in Hh.
  - intros td td' x y Ht _ He _ Hh. unfold td_handle in Hh. by rewrite (Z td Ht He) in Hh.
Qed.

(** Where a starting thread gets its handle from, when no thread of its device has ended
    without its pointer having been cleared. *)
Lemma init_handle_outcome en td o uri : shared en -> td_eo td = Some o -> eo_daemon_uri o = None -> eo_dev_uri o = Some uri ->
  (forall t, t ∈ en_tds en -> candidate uri (td_thread_number td) t = true -> td_io_ops_data t <> fad_freed) ->
  (exists t x, t ∈ en_tds en /\ candidate uri (td_thread_number td) t = true /\ td_handle t = Some x /\
     init_handle (en_lib en) (en_tds en) td o = Some (en_lib en, Some x, 0)) \/
  ((forall t, t ∈ en_tds en -> candidate uri (td_thread_number td) t = true -> td_handle t = None) /\
     init_handle (en_lib en) (en_tds en) td o = lib_open (en_lib en) uri (eo_md_dev_uri o)).
Proof using.
  intros [_ D _ _] Eo Ed Eu Hf. unfold init_handle, daemon_mode. rewrite Ed, Eu, bool_decide_false by (by intros []).
  unfold fio_flexalloc_open_direct. pose proof (open_scan_spec uri (td_thread_number td) (en_tds en) D) as Hs.
  destruct (open_scan _ _ _) as [[x|]|]; cbn [mbind option_bind].
  - left. destruct Hs as (t & Ht & Hc & Hh). by exists t, x.
  - by right.
  - destruct Hs as (t & Ht & Hc & Hd). by destruct (Hf t Ht Hc).
Qed.

(** C18: Handles are shared safely, under three conditions.  The jobs of the engine name
    a device and no daemon; [fla_open] has not failed so far; and no thread has looked
    for a handle between the clean-up of another thread of its device and the moment fio
    clears that one's pointer, when the code reads freed data.  Otherwise the threads
    start and end in any order, the parts of starting before and after the mutex is
    taken interleaved with the other threads.  Then a thread's handle is an open handle
    on its device, and all threads of a device that have a handle have the same one: no
    thread closes a handle another one has.  And a thread that starts, when no pointer
    of its device leads to freed data, takes over the handle of another thread of the
    device without calling the library, or calls [fla_open] for the device because no
    other thread has it open.  (What happens without the conditions is
    [engine_handles_lost].) *)
Theorem engine_handles en0 en : not_started en0 -> rtc en_step en0 en ->
  (forall td x, td ∈ en_tds en -> td_ioengine td = ioengine_name -> td_handle td = Some x ->
    (exists uri, td_uri td = Some uri /\ lib_handles (en_lib en) !! x = Some uri) /\
    forall td' y, td' ∈ en_tds en -> td_ioengine td' = ioengine_name -> td_handle td' = Some y -> td_uri td' = td_uri td -> y = x) /\
  (forall td o uri, td ∈ en_tds en -> td_ioengine td = ioengine_name -> td_eo td = Some o -> eo_dev_uri o = Some uri ->
    (forall t, t ∈ en_tds en -> candidate uri (td_thread_number td) t = true -> td_io_ops_data t <> fad_freed) ->
    (exists t x, t ∈ en_tds en /\ candidate uri (td_thread_number td) t = true /\ td_handle t = Some x /\
       init_handle (en_lib en) (en_tds en) td o = Some (en_lib en, Some x, 0)) \/
    ((forall t, t ∈ en_tds en -> candidate uri (td_thread_number td) t = true -> td_handle t = None) /\
       init_handle (en_lib en) (en_tds en) td o = lib_open (en_lib en) uri (eo_md_dev_uri o))).
Proof using All.
  intros N Hr. assert (shared en) as S.
  { apply not_started_shared in N. induction Hr as [|en1 en2 en3 Hs _ IH]; [done|]. apply IH. by eapply en_step_shared. }
  split.
  - intros td x Ht He Hh. split; [by apply (sh_open _ S)|]. intros td' y Ht' He' Hy Hu. by apply (sh_one _ S td' td).
  - intros td o uri Ht He Eo Eu Hf. assert (direct_job td) as Hd by (eapply Forall_forall; [apply S|done]).
    destruct (Hd He) as (o' & uri' & Eo' & Ed & _). assert (o' = o) as -> by congruence. by apply init_handle_outcome.
Qed.

(** *** The last thread *)

(** A thread ends and fio clears its pointer before another one ends. *)
Definition leave (i : nat) (en : engine L) : option (engine L) :=
  en ← fio_flexalloc_cleanup i en; Some (forget i en).
Fixpoint leave_all (order : list nat) (en : engine L) : option (engine L) :=
  match order with [] => Some en | i :: order => en ← leave i en; leave_all order en end.

(** The threads that have data for the device are [us], and all have the handle [x]. *)
Record users (uri : list Z) (x : Z) (us : list nat) (en : engine L) : Prop := {
  us_numbers : NoDup (td_thread_number <$> en_tds en);
  us_direct : Forall direct_job (en_tds en);
  us_nodup : NoDup us;
  us_user : forall i, i ∈ us -> exists td, en_tds en !! i = Some td /\ td_ioengine td = ioengine_name /\ td_uri td = Some uri /\ td_handle td = Some x;
  us_only : forall i td, en_tds en !! i = Some td -> td_ioengine td = ioengine_name -> td_uri td = Some uri ->
    fad_set (td_io_ops_data td) = true -> i ∈ us
}.

Lemma users_scan uri x i us en td o : users uri x (i :: us) en -> en_tds en !! i = Some td -> td_eo td = Some o -> eo_dev_uri o = Some uri ->
  cleanup_scan o (td_thread_number td) (en_tds en) = negb (bool_decide (us = [])).
Proof using.
  intros [N D Nd Hu Ho] Hi Eo Eu. rewrite (cleanup_scan_spec _ _ _ _ Eu). apply NoDup_cons in Nd as [Hni _].
  destruct us as [|j us].
  - apply not_true_iff_false. intros (t & Ht & [Hc Hs]%andb_true_iff)%existsb_exists. apply candidate_iff in Hc as (Hn & He & Hut).
    apply list_elem_of_In, list_elem_of_lookup in Ht as (k & Hk). pose proof (Ho k t Hk He Hut Hs) as Hin. apply list_elem_of_singleton in Hin as ->. congruence.
  - destruct (Hu j ltac:(right; left)) as (t & Hj & He & Hut & Hh). apply existsb_exists. exists t. split.
    { by apply list_elem_of_In, list_elem_of_lookup_2 with j. }
    apply andb_true_iff. split.
    + apply candidate_iff. split; [|done]. intros E. apply Hni. enough (i = j) as -> by left.
      apply (NoDup_lookup _ _ _ (td_thread_number td) N); rewrite list_lookup_fmap; [by rewrite Hi|rewrite Hj; cbn; by rewrite E].
    + unfold td_handle in Hh. by destruct (td_io_ops_data t).
Qed.

Lemma users_leave uri x i us en l td : users uri x (i :: us) en -> en_tds en !! i = Some td ->
  users uri x us (mk_engine l (<[i := set_io_ops_data fad_null td]> (en_tds en))).
Proof using.
  intros [N D Nd Hu Ho] Hi. apply NoDup_cons in Nd as [Hni Nd]. split; cbn [en_tds].
  - by rewrite set_data_numbers.
  - apply Forall_insert; [done|]. exact (proj1 (Forall_forall _ _) D td (list_elem_of_lookup_2 _ _ _ Hi)).
  - done.
  - intros j Hj. destruct (Hu j ltac:(by right)) as (t & Ht & Hr). exists t. rewrite list_lookup_insert_ne by (intros <-; done). done.
  - intros j t Hj He Hut Hs. destruct (decide (i = j)) as [<-|Hn].
    + rewrite list_lookup_insert_eq in Hj by (by eapply lookup_lt_Some). by injection Hj as <-.
    + rewrite list_lookup_insert_ne in Hj by done. pose proof (Ho j t Hj He Hut Hs) as Hin. apply elem_of_cons in Hin as [->|]; done.
Qed.

Lemma leave_user uri x i us en : users uri x (i :: us) en -> is_Some (lib_close (en_lib en) x) ->
  exists en' r, leave i en = Some en' /\ lib_close (en_lib en) x = Some r /\ en_lib en' = (if bool_decide (us = []) then r.1 else en_lib en) /\
    users uri x us en'.
Proof using.
  intros U [r Hr]. destruct (us_user _ _ _ _ U i ltac:(left)) as (td & Hi & He & Hu & Hh).
  assert (direct_job td) as Hd by (eapply Forall_forall; [apply U|by eapply list_elem_of_lookup_2]). destruct (Hd He) as (o & uri' & Eo & Ed & Eu).
  assert (uri' = uri) as -> by (unfold td_uri in Hu; rewrite Eo in Hu; cbn in Hu; congruence).
  pose proof (users_scan _ _ _ _ _ _ _ U Hi Eo Eu) as Hs.
  unfold leave, fio_flexalloc_cleanup. rewrite Hi. cbn. rewrite Eo. cbn. unfold daemon_mode. rewrite Ed. rewrite bool_decide_false by (by intros []).
  unfold fio_flexalloc_cleanup_direct. unfold td_handle in Hh. destruct (td_io_ops_data td) as [|[fs pool objs]|]; [done| |done]. cbn in Hh. subst fs.
  rewrite Hs, Hr. cbn [mbind option_bind].
  assert (forall l : L, forget i (mk_engine l (<[i:=set_io_ops_data fad_freed td]> (en_tds en))) = mk_engine l (<[i := set_io_ops_data fad_null td]> (en_tds en))) as Hf.
  { intros l. unfold forget. cbn [en_tds en_lib]. rewrite list_lookup_insert_eq by (by eapply lookup_lt_Some). by rewrite list_insert_insert_eq. }
  destruct (bool_decide (us = [])); cbn [negb mbind option_bind]; rewrite Hf; do 2 eexists; (split; [reflexivity|]); (split; [done|]);
    (split; [done|]); by eapply users_leave.
Qed.

(** C19: The last one closes.  When all threads that have data for a device have its handle, and
    they end one after the other in any order, each with its pointer cleared before the
    next one ends, then the handle stays as it is until the last of them, which closes it. *)
Theorem engine_last_closes uri x us i en l err : users uri x (us ++ [i]) en -> lib_close (en_lib en) x = Some (l, err) ->
  exists en1 en2, leave_all us en = Some en1 /\ en_lib en1 = en_lib en /\ leave i en1 = Some en2 /\ en_lib en2 = l.
Proof using.
  revert en. induction us as [|j us IH]; intros en U Hc.
  - destruct (leave_user uri x i [] en U ltac:(by eexists)) as (en' & r & El & Er & Hl & _). rewrite Er in Hc. injection Hc as ->.
    exists en, en'. done.
  - destruct (leave_user uri x j (us ++ [i]) en U ltac:(by eexists)) as (en' & r & El & Er & Hl & U').
    rewrite bool_decide_false in Hl by (by destruct us). cbn [leave_all]. rewrite El. cbn. rewrite <- Hl in Hc.
    destruct (IH en' U' Hc) as (en1 & en2 & E1 & Hl1 & E2). exists en1, en2. rewrite Hl1. done.
Qed.
(** *** Nobody closes *)

(** Threads that clean up before fio has cleared a pointer. *)
Fixpoint cleanup_all (order : list nat) (en : engine L) : option (engine L) :=
  match order with [] => Some en | i :: order => en ← fio_flexalloc_cleanup i en; cleanup_all order en end.

(** All of [us] are threads of the device whose pointers are set, and those of [rest]
    still have the handle. *)
Record ending (uri : list Z) (x : Z) (us rest : list nat) (en : engine L) : Prop := {
  ed_numbers : NoDup (td_thread_number <$> en_tds en);
  ed_direct : Forall direct_job (en_tds en);
  ed_set : forall i, i ∈ us -> exists td, en_tds en !! i = Some td /\ td_ioengine td = ioengine_name /\ td_uri td = Some uri /\
    fad_set (td_io_ops_data td) = true /\ td_handle td = if decide (i ∈ rest) then Some x else None
}.

Lemma ending_cleanup uri x us rest i j en : ending uri x us (i :: rest) en -> i ∈ us -> j ∈ us -> i <> j -> (i ∉ rest) ->
  exists en', fio_flexalloc_cleanup i en = Some en' /\ en_lib en' = en_lib en /\ ending uri x us rest en'.
Proof using.
  intros [N D S] Hi Hj Hij Hr. destruct (S i Hi) as (td & Htd & He & Hu & Hs & Hh). rewrite decide_True in Hh by left.
  assert (direct_job td) as Hd by (eapply Forall_forall; [apply D|by eapply list_elem_of_lookup_2]). destruct (Hd He) as (o & uri' & Eo & Ed & Eu).
  assert (uri' = uri) as -> by (unfold td_uri in Hu; rewrite Eo in Hu; cbn in Hu; congruence).
  assert (cleanup_scan o (td_thread_number td) (en_tds en) = true) as Hsc.
  { rewrite (cleanup_scan_spec _ _ _ _ Eu). destruct (S j Hj) as (t & Ht & Het & Hut & Hst & _). apply existsb_exists. exists t.
    split; [by apply list_elem_of_In, list_elem_of_lookup_2 with j|]. rewrite (proj2 (candidate_iff _ _ _)), Hst; [done|]. split; [|done].
    intros E. apply Hij. apply (NoDup_lookup _ _ _ (td_thread_number td) N); rewrite list_lookup_fmap; [by rewrite Htd|rewrite Ht; cbn; by rewrite E]. }
  unfold fio_flexalloc_cleanup. rewrite Htd. cbn. rewrite Eo. cbn. unfold daemon_mode. rewrite Ed, bool_decide_false by (by intros []).
  unfold fio_flexalloc_cleanup_direct. unfold td_handle in Hh. destruct (td_io_ops_data td) as [|[f pool objs]|]; [done| |done]. cbn in Hh. subst f.
  rewrite Hsc. cbn [mbind option_bind]. eexists. split; [reflexivity|]. split; [done|]. split; cbn [en_tds].
  - by rewrite set_data_numbers.
  - apply Forall_insert; done.
  - intros k Hk. destruct (decide (i = k)) as [<-|Hne].
    + rewrite list_lookup_insert_eq by (by eapply lookup_lt_Some). eexists. split; [done|]. do 3 (split; [done|]). by rewrite decide_False.
    + rewrite list_lookup_insert_ne by done. destruct (S k Hk) as (t & Ht & Het & Hut & Hst & Hht). exists t. do 4 (split; [done|]). rewrite Hht.
      destruct (decide (k ∈ rest)) as [Hin|Hin]; [by rewrite decide_True by (by right)|]. rewrite decide_False; [done|].
      intros [?|?]%elem_of_cons; congruence.
Qed.

Lemma ending_all uri x us rest : (2 <= length us)%nat -> NoDup us -> forall en, NoDup rest -> (forall i, i ∈ rest -> i ∈ us) -> ending uri x us rest en ->
  exists en', cleanup_all rest en = Some en' /\ en_lib en' = en_lib en /\ ending uri x us [] en'.
Proof using.
  intros H2 Hnd. induction rest as [|i rest IH]; intros en Hr Hin Hen; [by exists en|]. apply NoDup_cons in Hr as [Hni Hr].
  assert (i ∈ us) as Hi by (apply Hin; left).
  assert (exists j, j ∈ us /\ i <> j) as (j & Hj & Hij).
  { destruct us as [|a [|b us]]; cbn in H2; try lia. apply NoDup_cons in Hnd as [Hab _]. destruct (decide (i = a)) as [->|]; [|exists a; split; [left|done]].
    exists b. split; [right; left|]. intros ->. apply Hab. left. }
  destruct (ending_cleanup uri x us rest i j en Hen Hi Hj Hij Hni) as (en1 & E1 & L1 & Hen1).
  destruct (IH en1 Hr) as (en2 & E2 & L2 & Hen2); [intros k Hk; apply Hin; by right|done|].
  exists en2. cbn [cleanup_all]. rewrite E1. cbn [mbind option_bind]. rewrite L2. done.
Qed.

(** C37: Nobody closes.  When at least two threads have data for a device, all of them
    with its handle, and all of them clean up before fio has cleared any of their
    pointers, in whatever order, then each takes another one for a user: the handle is
    never closed and its metadata never written, although no thread has it any more. *)
Theorem engine_nobody_closes uri x us en : users uri x us en -> (2 <= length us)%nat ->
  exists en', cleanup_all us en = Some en' /\ en_lib en' = en_lib en /\
    forall i td, i ∈ us -> en_tds en' !! i = Some td -> td_handle td = None.
Proof using.
  intros [N D Nd Hu _] H2. destruct (ending_all uri x us us H2 Nd en Nd) as (en' & Ec & Hl & [_ _ S]); [done| |].
  - split; [done|done|]. intros i Hi. destruct (Hu i Hi) as (td & Ht & He & Hut & Hh). exists td. do 3 (split; [done|]).
    rewrite decide_True by done. split; [|done]. unfold td_handle in Hh. by destruct (td_io_ops_data td).
  - exists en'. split; [done|]. split; [done|]. intros i td Hi Ht. destruct (S i Hi) as (t & Ht' & _ & _ & _ & Hh). rewrite Ht in Ht'. injection Ht' as <-.
    rewrite Hh. apply decide_False. apply not_elem_of_nil.
Qed.
End sharing.

(** ** The library of this repository *)

(** The world and the open handles, each with the path it was opened by, at their
    addresses.  No daemon listens. *)
Section library.
Context {W : Type} `{E : XnvmeEnv W} `{A : XnvmeAdm W}.

Record library := mk_library { lb_world : W; lb_handles : gmap Z (list Z * handle) }.
Definition lb_fresh (l : library) : Z := fresh (dom (lb_handles l) : gset Z).

#[export] Instance library_ops : EngineLib library := {
  lib_handles l := fst <$> lb_handles l;
  lib_open l uri md :=
    '(w, h, err) ← fla_open (lb_world l) (mk_open_opts uri md None);
    let fs := if snd (fla_fs_alloc (lb_world l)) then Some (lb_fresh l) else None in
    if negb (err =? 0) then Some (mk_library w (lb_handles l), fs, err)
    else h ← h; Some (mk_library w (<[lb_fresh l := (uri, h)]> (lb_handles l)), Some (lb_fresh l), 0);
  lib_daemon_open l _ := Some (l, None, -1);
  lib_close l x :=
    '(uri, h) ← lb_handles l !! x;
    '(w, h, err) ← fla_base_close (lb_world l) h;
    Some (mk_library w (if err =? 0 then delete x (lb_handles l) else <[x := (uri, h)]> (lb_handles l)), err);
  lib_lb_nbytes l x := '(_, h) ← lb_handles l !! x; Some (d_lb_nbytes (fs_dev (h_fs h)));
  lib_pool_create l x name len nlb :=
    '(uri, h) ← lb_handles l !! x;
    '(w, fs, pool, err) ← fla_base_pool_create (lb_world l) (h_fs h) (mk_create_arg 0 name len nlb 0 0);
    Some (mk_library w (<[x := (uri, mk_handle fs (h_dp h) (h_buf h))]> (lb_handles l)), pool, err);
  lib_pool_set_strp l _ _ _ _ := Some (l, -1)
}.

Lemma lb_fresh_None l : lb_handles l !! lb_fresh l = None.
Proof using. apply (not_elem_of_dom (D := gset Z)). unfold lb_fresh. apply is_fresh. Qed.

#[export] Instance library_laws : EngineLibLaws library.
Proof using.
  split.
  - intros l uri md l' h err Eo. cbn [lib_open library_ops] in Eo. apply bind_Some in Eo as ([[w h'] e] & _ & Eo).
    destruct (Z.eqb_spec e 0) as [He|He]; cbn [negb] in Eo; [|right; by injection Eo as <- _ <-].
    apply bind_Some in Eo as (hd & _ & [= <- <- <-]). left. split; [done|]. exists (lb_fresh l). split; [done|]. cbn. rewrite lookup_fmap.
    split; [|by rewrite fmap_insert]. by rewrite lb_fresh_None.
  - intros l x l' err Ec. cbn [lib_close library_ops] in Ec. apply bind_Some in Ec as ([uri h] & Ex & Ec). apply bind_Some in Ec as ([[w h'] e] & _ & [= <- <-]).
    cbn. destruct (e =? 0); [by rewrite fmap_delete|]. rewrite fmap_insert. apply insert_id. by rewrite lookup_fmap, Ex.
  - intros l x name len nlb l' pool err Ec. cbn [lib_pool_create library_ops] in Ec. apply bind_Some in Ec as ([uri h] & Ex & Ec).
    apply bind_Some in Ec as ([[[w fs] pl] e] & _ & [= <- <- <-]). cbn. rewrite fmap_insert. apply insert_id. by rewrite lookup_fmap, Ex.
  - by intros l x pool n b l' err [= <- _].
Qed.
End library.
Arguments library : clear implicits.

(** ** Two threads on one device *)

Definition ex_eo : flexalloc_options := mk_eo None (Some [100; 0]) None (Some [112; 0]) 0 0.
Definition ex_td (n : Z) (eo : flexalloc_options) : thread_data :=
  mk_td n ioengine_name (Some eo) fad_null 10240 10240 true true 1 [106; 0] (n - 1).
Definition ex_engine (w : RamDisk.world) : engine (library RamDisk.world) := mk_engine (mk_library w ∅) [ex_td 1 ex_eo; ex_td 2 ex_eo].
Definition ex_run (f : engine (library RamDisk.world) -> option (engine (library RamDisk.world) * Z)) (en : engine (library RamDisk.world)) :
    engine (library RamDisk.world) := from_option fst en (f en).
Definition ex_alloc1 := ex_run (init_alloc 0) (ex_engine ex_disk).
Definition ex_open1 := ex_run (init_open 0) ex_alloc1.
Definition ex_alloc2 := ex_run (init_alloc 1) ex_open1.
Definition ex_started := ex_run (init_open 1) ex_alloc2.

Lemma ex_not_started : not_started (ex_engine ex_disk).
Proof.
  split; cbn.
  - by apply (bool_decide_unpack _); vm_compute.
  - repeat constructor; intros _; by exists ex_eo, [100; 0].
  - intros td Ht _. repeat (apply elem_of_cons in Ht as [->|Ht]; [done|]). by apply elem_of_nil in Ht.
Qed.

Lemma ex_run_started : rtc en_step (ex_engine ex_disk) ex_started.
Proof.
  eapply rtc_l with ex_alloc1. { by apply (step_alloc 0 (ex_td 1 ex_eo) _ _ 0). }
  eapply rtc_l with ex_open1. { by eapply (step_open 0 (set_io_ops_data (fad_live (mk_fad None None [mk_obj 0 0])) (ex_td 1 ex_eo)) ex_eo _ 0 _ _ 0); vm_compute. }
  eapply rtc_l with ex_alloc2. { by apply (step_alloc 1 (ex_td 2 ex_eo) _ _ 0). }
  eapply rtc_l with ex_started; [|done].
  by eapply (step_open 1 (set_io_ops_data (fad_live (mk_fad None None [mk_obj 0 0])) (ex_td 2 ex_eo)) ex_eo _ 0 _ _ 0); vm_compute.
Qed.

Definition ex_user (n p : Z) : thread_data :=
  set_io_ops_data (fad_live (mk_fad (Some 0) (Some (mk_pool (481964643313 + n) p)) [mk_obj 0 0])) (ex_td n ex_eo).

Lemma ex_started_tds : en_tds ex_started = [ex_user 1 0; ex_user 2 1].
Proof. vm_compute. reflexivity. Qed.

(** The two threads have the same open handle: the second one took over that of the
    first. *)
Lemma engine_handles_witness :
  lib_handles (en_lib ex_started) !! 0 = Some [100; 0] /\ (exists y, td_handle (ex_user 2 1) = Some y /\ y = 0) /\
  init_handle (en_lib ex_started) (en_tds ex_started) (ex_user 2 1) ex_eo = Some (en_lib ex_started, Some 0, 0).
Proof.
  destruct (engine_handles _ _ ex_not_started ex_run_started) as [Hsh Hst].
  destruct (Hsh (ex_user 1 0) 0) as [(uri & [= <-] & Hl) Ho]; [rewrite ex_started_tds; left|done..|].
  split; [exact Hl|]. split.
  - exists 0. split; [done|]. apply (Ho (ex_user 2 1) 0); [rewrite ex_started_tds; right; left|done..].
  - destruct (Hst (ex_user 2 1) ex_eo [100; 0]) as [(t & x & Ht & _ & Hh & Ei)|[Hn _]]; [rewrite ex_started_tds; right; left|done..| | |].
    + rewrite ex_started_tds. intros t Ht _ Hd. repeat (apply elem_of_cons in Ht as [->|Ht]; [discriminate Hd|]). by apply elem_of_nil in Ht.
    + rewrite ex_started_tds in Ht. repeat (apply elem_of_cons in Ht as [->|Ht]; [injection Hh as <-; exact Ei|]). by apply elem_of_nil in Ht.
    + rewrite ex_started_tds in Hn. specialize (Hn (ex_user 1 0) ltac:(left) eq_refl). discriminate Hn.
Defined.

Lemma ex_users : users [100; 0] 0 [1%nat; 0%nat] ex_started.
Proof.
  split; rewrite ?ex_started_tds.
  - by apply (bool_decide_unpack _); vm_compute.
  - repeat constructor; intros _; by exists ex_eo, [100; 0].
  - by apply (bool_decide_unpack _); vm_compute.
  - intros i Hi. apply elem_of_cons in Hi as [->|Hi%list_elem_of_singleton]; [|subst i]; by eexists.
  - intros [|[|i]] td Hi _ _ _; [right; left|left|done].
Qed.

Lemma engine_last_closes_witness : exists en1 en2 l, leave_all [1%nat] ex_started = Some en1 /\ leave 0 en1 = Some en2 /\
  lib_close (en_lib en1) 0 = Some (l, 0) /\ en_lib en2 = l /\ lib_handles l = ∅.
Proof.
  destruct (lib_close (en_lib ex_started) 0) as [[l err]|] eqn:Ec; [|vm_compute in Ec; discriminate Ec].
  destruct (engine_last_closes [100; 0] 0 [1%nat] 0 ex_started l err ex_users Ec) as (en1 & en2 & E1 & Hl1 & E2 & Hl2).
  assert (err = 0 /\ lib_handles l = ∅) as [-> Hh].
  { apply (f_equal (fmap (fun r => (map_to_list (lib_handles (fst r)), snd r)))) in Ec. vm_compute in Ec. injection Ec as Hm <-.
    split; [done|]. apply map_to_list_empty_iff. symmetry. exact Hm. }
  exists en1, en2, l. rewrite Hl1. split_and!; [exact E1|exact E2|exact Ec|exact Hl2|exact Hh].
Defined.

Lemma engine_nobody_closes_witness : exists en', cleanup_all [1%nat; 0%nat] ex_started = Some en' /\
  lib_handles (en_lib en') !! 0 = Some [100; 0] /\ forall i td, i ∈ [1%nat; 0%nat] -> en_tds en' !! i = Some td -> td_handle td = None.
Proof.
  destruct (engine_nobody_closes [100; 0] 0 [1%nat; 0%nat] ex_started ex_users ltac:(cbn; lia)) as (en' & Ec & Hl & Hh).
  exists en'. split; [exact Ec|]. rewrite Hl. split; [vm_compute; reflexivity|exact Hh].
Defined.

(** The two ways to lose a handle, step by step, and a device that is not formatted. *)
Definition ex_end1 := from_option id ex_started (fio_flexalloc_cleanup 0 ex_started).
Definition ex_end2 := from_option id ex_end1 (fio_flexalloc_cleanup 1 ex_end1).
Definition ex_left := from_option id ex_alloc2 (leave 0 ex_alloc2).
Definition ex_second := ex_run (init_open 1) ex_left.
Definition ex_failed := ex_run (fio_flexalloc_init 0) (ex_engine ex_world).

(** A thread that is connected to a daemon. *)
Definition ex_daemon_td (x : Z) : thread_data :=
  set_io_ops_data (fad_live (mk_fad (Some x) None [])) (ex_td 3 (mk_eo (Some [115; 0]) None None None 0 0)).

(** Where sharing goes wrong.  When two threads clean up before fio has cleared the first one's
    pointer, each takes the other for a user and nobody closes the handle, so that
    its metadata is not written.  When a thread ends while another one has its data
    but not yet a handle, the first handle is lost and the device is opened a second
    time.  When [fla_open] fails, the thread is left with a pointer to the freed
    handle, and cleaning up uses it.  A thread connected to a daemon names no device
    and gives its handle to a thread that opens any device. *)
Theorem engine_handles_lost :
  (exists en1 en2, fio_flexalloc_cleanup 0 ex_started = Some en1 /\ fio_flexalloc_cleanup 1 en1 = Some en2 /\
     lib_handles (en_lib en2) !! 0 = Some [100; 0] /\ Forall (fun td => td_handle td = None) (en_tds en2)) /\
  (exists en1 en2, leave 0 ex_alloc2 = Some en1 /\ init_open 1 en1 = Some (en2, 0) /\
     lib_handles (en_lib en2) !! 0 = Some [100; 0] /\ lib_handles (en_lib en2) !! 1 = Some [100; 0] /\
     td_handle <$> en_tds en2 = [None; Some 1]) /\
  (exists en ret, fio_flexalloc_init 0 (ex_engine ex_world) = Some (en, ret) /\ ret <> 0 /\ fio_flexalloc_cleanup 0 en = None) /\
  (forall x dev, open_scan (Some dev) 1 [ex_td 1 ex_eo; ex_daemon_td x] = Some (Some x)).
Proof.
  split_and!; [exists ex_end1, ex_end2|exists ex_left, ex_second|exists ex_failed, 22|by intros]; split_and!;
    try (vm_compute; reflexivity); [|done].
  apply (bool_decide_unpack _). vm_compute. exact I.
Qed.

(** ** Names of pools *)

Definition digits_value (a : Z) (l : list Z) : Z := foldl (fun a d => a * 10 + (d - 48)) a l.

Lemma print_digits_value fuel : forall n acc, 0 <= n < 10 ^ Z.of_nat fuel -> digits_value 0 (print_digits fuel n acc) = digits_value n acc.
Proof.
  induction fuel as [|fuel IH]; intros n acc Hn; [cbn in Hn; by replace n with 0 by lia|]. cbn [print_digits].
  destruct (Z.ltb_spec n 10).
  - unfold digits_value. cbn [foldl]. f_equal. rewrite Z.mod_small by lia. lia.
  - rewrite IH. { unfold digits_value. cbn [foldl]. f_equal. pose proof (Z.div_mod n 10). lia. }
    rewrite Nat2Z.inj_succ, Z.pow_succ_r in Hn by lia. split; [apply Z.div_pos; lia|apply Z.div_lt_upper_bound; lia].
Qed.

Lemma print_digits_length fuel : forall n acc, (length (print_digits fuel n acc) <= fuel + length acc)%nat.
Proof.
  induction fuel as [|fuel IH]; intros n acc; [done|]. cbn [print_digits]. case_match; [cbn; lia|].
  pose proof (IH (n / 10) ((48 + n mod 10) :: acc)) as Hl. cbn in Hl. lia.
Qed.

(** The subjobs of a job get pools of different names, as long as the names are not
    cut off. *)
Theorem pool_names_differ td td' o o' name : 0 <= td_subjob_number td < 2 ^ 31 -> 0 <= td_subjob_number td' < 2 ^ 31 ->
  default (td_name td) (eo_poolname o) = default (td_name td') (eo_poolname o') ->
  (exists n, strlen (default (td_name td) (eo_poolname o)) = Some n /\ Z.of_nat n + 12 < PATH_MAX) ->
  pool_name td o = Some name -> pool_name td' o' = Some name -> td_subjob_number td = td_subjob_number td'.
Proof.
  intros Hs Hs' Hp (n & Hn & Hlen). unfold pool_name. rewrite <- Hp, Hn. cbn [mbind option_bind]. intros [= <-] [= Heq].
  set (prefix := take n _) in Heq. assert (forall k, (length (prefix ++ 46%Z :: print_int k) <= Z.to_nat (PATH_MAX - 1))%nat) as Hshort.
  { intros k. rewrite length_app. cbn [length].
    assert (length prefix <= n)%nat by (unfold prefix; rewrite length_take; lia). unfold print_int, PATH_MAX in *.
    destruct (k <? 0); cbn [length]; [pose proof (print_digits_length 10 (- k) []) as Hl|pose proof (print_digits_length 10 k []) as Hl]; cbn [length] in Hl; lia. }
  rewrite !take_ge in Heq by apply Hshort. apply app_inj_2 in Heq as [Heq _]; [|done]. apply (inj (app prefix)) in Heq. injection Heq as Heq.
  unfold print_int in Heq. rewrite !(proj2 (Z.ltb_ge _ 0)) in Heq by lia.
  apply (f_equal (digits_value 0)) in Heq. rewrite !print_digits_value in Heq by (cbn; lia). by cbn in Heq.
Qed.
