(* ===== verification/Introspection.v ===== *)
(** * Introspection: the consistency checks, [src/src/flexalloc_introspection.c] and
    [src/src/flexalloc_inspect.c]

    The checks compare the freelist of the pools, the hash table and the pool entries
    of an open system; [fla_inspect] opens a system and runs them.  What they print is
    left out, what they read while printing is kept. *)
From S2P Require Import Prelude Util Freelist Hash XnvmeEnv Flexalloc PoolEntry Geometry CommandSet SlabList Pool Layout.

(** ** Error bits *)

Definition POOLS_SUPER_FLIST_DISCREPANCY : Z := 1.
Definition POOLS_FLIST_HTBL_RESERVED_DISCREPANCY : Z := 2.
Definition POOL_ENTRY_NO_FLIST_ENTRY : Z := 1.
Definition POOL_ENTRY_HTBL_VAL_OUT_OF_BOUNDS : Z := 2.
Definition POOL_ENTRY_NAME_UNSET : Z := 4.
Definition POOL_ENTRY_NAME_NO_NULLTERM : Z := 8.
Definition POOL_ENTRY_H2_DISCREPANCY : Z := 16.
Definition POOL_ENTRY_INVALID_OBJ_SIZE : Z := 32.

(** [if (c) err |= bit]. *)
Definition flag (c : bool) (bit err : Z) : Z := if c then Z.lor err bit else err.

(** ** The checks *)

(** The loop of [__flist_bit_reserved]: the index inside the word it ends at. *)
Fixpoint bit_seek (fuel : nat) (ndx : Z) (start : nat) : option (Z * nat) :=
  match fuel with
  | O => None
  | S fuel => if 32 <? ndx then bit_seek fuel (ndx - 32) (S start) else Some (ndx, start)
  end.

(** A shift of a 32-bit value by 32 is undefined. *)
Definition __flist_bit_reserved (flist : list Z) (ndx : Z) : option bool :=
  '(ndx, start) ← bit_seek (S (Z.to_nat ndx)) ndx 1;
  w ← flist !! start;
  if 32 <=? ndx then None else Some (Z.land (Z.shiftr w ndx) 1 =? 0).

(** The slots from [offset] to the end of the table; a start behind the end never
    meets it. *)
Definition slots_from (t : fla_htbl) (offset : Z) : option (list fla_htbl_entry) :=
  slots ← tbl t;
  if (offset <=? tbl_size t) && (tbl_size t <=? Z.of_nat (length slots))
  then Some (drop (Z.to_nat offset) (take (Z.to_nat (tbl_size t)) slots)) else None.

Definition pool_htbl_num_reserved (fs : flexalloc) : option Z :=
  slots ← slots_from (ps_htbl (fs_pools fs)) 0;
  Some (foldl (fun n e => if h2 e =? FLA_HTBL_ENTRY_UNSET then n else u32 (n + 1)) 0 slots).

(** The pointers of the handle as offsets in the metadata buffer.  [fla_init] sets the
    pointer to the super block to the start of the buffer, so its check never fails. *)
Definition super_off : Z := 0.
Definition mdr_ptr_check_super_offset (fs : flexalloc) : bool := negb (super_off =? 0).
Definition md_ptr_check_super_size (fs : flexalloc) : bool :=
  negb (freelist_off (fs_geo fs) - super_off =? u32 (g_md_nlb (fs_geo fs) * g_lb_nbytes (fs_geo fs))).
Definition md_ptr_check_pool_freelist_size (fs : flexalloc) : bool :=
  negb (htbl_hdr_off (fs_geo fs) - freelist_off (fs_geo fs) =?
        u32 (freelist_nlb (g_pool_sgmt (fs_geo fs)) * g_lb_nbytes (fs_geo fs))).
Definition md_ptr_check_pool_htbl_size (fs : flexalloc) : bool :=
  negb (entries_off (fs_geo fs) - htbl_hdr_off (fs_geo fs) =?
        u32 (htbl_nlb (g_pool_sgmt (fs_geo fs)) * g_lb_nbytes (fs_geo fs))).
Definition md_ptr_check_pool_entries_size (fs : flexalloc) : bool :=
  negb (headers_off (fs_geo fs) - entries_off (fs_geo fs) =?
        u32 (entries_nlb (g_pool_sgmt (fs_geo fs)) * g_lb_nbytes (fs_geo fs))).

(** The body of the loop of [check_pool_entries] for a slot in use: the error bits,
    and whether it leaves for [exit]. *)
Definition check_entry (fs : flexalloc) (npools : Z) (entry : fla_htbl_entry) : option (Z * bool) :=
  reserved ← __flist_bit_reserved (ps_freelist (fs_pools fs)) (val entry);
  let err := flag (negb reserved) POOL_ENTRY_NO_FLIST_ENTRY 0 in
  if npools <=? val entry then Some (Z.lor err POOL_ENTRY_HTBL_VAL_OUT_OF_BOUNDS, true)
  else
    pe ← pool_entry_at fs (val entry);
    c ← pe_name pe !! 0%nat;
    n ← fla_strnlen (pe_name pe) (Z.to_nat FLA_NAME_SIZE_POOL);
    let unset := c =? 0 in
    let unterminated := Z.of_nat n =? FLA_NAME_SIZE_POOL in
    differs ← (if unset || unterminated then Some true
               else hash2 ← FLA_HTBL_H2 (pe_name pe); Some (negb (hash2 =? h2 entry)));
    let err := flag differs POOL_ENTRY_H2_DISCREPANCY
                 (flag unterminated POOL_ENTRY_NAME_NO_NULLTERM (flag unset POOL_ENTRY_NAME_UNSET err)) in
    Some (flag (pe_obj_nlb pe =? 10) POOL_ENTRY_INVALID_OBJ_SIZE
            (flag (pe_obj_nlb pe =? 0) POOL_ENTRY_INVALID_OBJ_SIZE err), false).

(** The loop: the error bits and how many slots it went past. *)
Fixpoint check_slots (fs : flexalloc) (npools : Z) (slots : list fla_htbl_entry) (delta : Z) : option (Z * Z) :=
  match slots with
  | [] => Some (0, delta)
  | entry :: slots =>
      if h2 entry =? FLA_HTBL_ENTRY_UNSET then check_slots fs npools slots (u32 (delta + 1))
      else
        '(err, leave) ← check_entry fs npools entry;
        if (leave : bool) then Some (err, delta)
        else if err =? 0 then check_slots fs npools slots (u32 (delta + 1))
        else Some (err, u32 (delta + 1))
  end.

Definition check_pool_entries (fs : flexalloc) (offset : Z) : option (Z * Z) :=
  slots ← slots_from (ps_htbl (fs_pools fs)) offset;
  npools ← fla_flist_len (ps_freelist (fs_pools fs));
  '(err, delta) ← check_slots fs npools slots 0;
  Some (err, if err =? 0 then 0 else u32 (offset + u32 (delta - 1))).

Definition check_pools_num_entries (fs : flexalloc) : option Z :=
  flist_reserved ← fla_flist_num_reserved (ps_freelist (fs_pools fs));
  flist_len ← fla_flist_len (ps_freelist (fs_pools fs));
  htbl_reserved ← pool_htbl_num_reserved fs;
  let err := flag (negb (s_npools (fs_super fs) =? flist_len)) POOLS_SUPER_FLIST_DISCREPANCY 0 in
  Some (flag (negb (flist_reserved =? htbl_reserved)) POOLS_FLIST_HTBL_RESERVED_DISCREPANCY err).

(** ** [fla_inspect] *)

(** The magic is compared only for a message; the result does not depend on it, and
    [fla_open] refuses a wrong one. *)
Definition validate_super (fs : flexalloc) : Z :=
  let err := flag (s_nslabs (fs_super fs) =? 0) 1 0 in
  let err := flag (s_nslabs (fs_super fs) <? s_npools (fs_super fs)) 1 err in
  flag (s_fmt_version (fs_super fs) =? 0) 1 err.

Definition validate_md_ptr_offsets (fs : flexalloc) : Z :=
  if mdr_ptr_check_super_offset fs || md_ptr_check_super_size fs || md_ptr_check_pool_freelist_size fs ||
     md_ptr_check_pool_htbl_size fs || md_ptr_check_pool_entries_size fs
  then -1 else 0.

Definition validate_pool_num_entries (fs : flexalloc) : option Z :=
  err ← check_pools_num_entries fs;
  if err =? 0 then Some err
  else
    _ ← fla_flist_len (ps_freelist (fs_pools fs));
    _ ← fla_flist_num_reserved (ps_freelist (fs_pools fs));
    _ ← pool_htbl_num_reserved fs;
    Some err.

(** One round of the loop of [validate_pool_entries]: the result, or [offset] and
    [err] for the next round. *)
Definition validate_round (fs : flexalloc) (offset err : Z) : option (Z + Z * Z) :=
  '(fn_err, offset) ← check_pool_entries fs offset;
  if fn_err =? 0 then Some (inl err)
  else
    slots ← tbl (ps_htbl (fs_pools fs));
    entry ← lookupZ slots offset;
    _ ← (if Z.land fn_err POOL_ENTRY_HTBL_VAL_OUT_OF_BOUNDS =? 0
         then pe ← pool_entry_at fs (val entry); Some (pe_name pe) else Some []);
    Some (inr (u32 (offset + 1), Z.lor err fn_err)).

Fixpoint validate_rounds (fuel : nat) (fs : flexalloc) (offset err : Z) : option Z :=
  match fuel with
  | O => None
  | S fuel =>
      r ← validate_round fs offset err;
      match r with
      | inl err => Some err
      | inr (offset, err) => validate_rounds fuel fs offset err
      end
  end.

(** At most one round per slot and a last one, unless it does not end
    ([inspect_loops]). *)
Definition validate_pool_entries (fs : flexalloc) : option Z :=
  validate_rounds (S (Z.to_nat (tbl_size (ps_htbl (fs_pools fs))))) fs 0 0.

(** ** What the checks find out *)

(** Reading a bit is defined unless the index is a positive multiple of 32. *)
Definition bit_defined (i : Z) : Prop := i = 0 \/ i mod 32 <> 0.

Lemma bit_seek_spec fuel : forall ndx start q r, ndx = 32 * Z.of_nat q + r -> 0 <= r < 32 -> q = 0%nat \/ 0 < r ->
  (q < fuel)%nat -> bit_seek fuel ndx start = Some (r, (start + q)%nat).
Proof.
  induction fuel as [|fuel IH]; intros ndx start q r -> Hr Hd Hf; [lia|]. cbn [bit_seek].
  destruct q as [|q].
  - destruct (Z.ltb_spec 32 (32 * Z.of_nat 0 + r)); [lia|]. repeat f_equal; lia.
  - destruct (Z.ltb_spec 32 (32 * Z.of_nat (S q) + r)); [|lia].
    rewrite (IH _ _ q r); [do 2 f_equal; lia|lia|lia|lia|lia].
Qed.

Lemma bit_reserved_spec fl len i : flist_wf fl len -> 0 <= i < len -> bit_defined i ->
  __flist_bit_reserved fl i = Some (negb (free_bit fl i)).
Proof.
  intros Hwf Hi Hd. pose proof (wf_range _ _ Hwf). pose proof (elems_bounds len ltac:(lia)).
  destruct (flist_word fl len i Hwf ltac:(lia)) as (w & Hw & Hu).
  pose proof (Z.div_mod i 32 ltac:(lia)). pose proof (Z.mod_pos_bound i 32 ltac:(lia)).
  assert (0 <= i / 32 <= i) by (split; [apply Z.div_pos; lia|apply Z.div_le_upper_bound; lia]).
  unfold __flist_bit_reserved. rewrite (bit_seek_spec _ i 1 (Z.to_nat (i / 32)) (i mod 32)); [|lia|lia| |lia].
  2: { destruct Hd as [->|]; [by left|right; lia]. }
  cbn [mbind option_bind]. unfold free_bit. replace (1 + Z.to_nat (i / 32))%nat with (Z.to_nat (1 + i / 32)) by lia.
  rewrite Hw. cbn [mbind option_bind]. destruct (Z.leb_spec 32 (i mod 32)); [lia|]. f_equal.
  rewrite Z.testbit_odd. change 1 with (Z.ones 1). rewrite Z.land_ones by lia. rewrite Zmod_odd. by destruct (Z.odd _).
Qed.

Lemma sdbm_some key : forall hash, 0 ∈ key -> is_Some (sdbm_loop hash key).
Proof.
  induction key as [|c key IH]; intros hash Hin; [by apply not_elem_of_nil in Hin|]. cbn [sdbm_loop].
  destruct (Z.eqb_spec c 0); [by eexists|]. apply IH. by apply elem_of_cons in Hin as [?|?].
Qed.

(** [strnlen] stops at the first NUL. *)
Lemma strnlen_spec s : forall m, (m <= length s)%nat -> exists n, fla_strnlen s m = Some n /\ (n <= m)%nat /\
  ((n < m)%nat <-> 0 ∈ take m s).
Proof.
  induction s as [|c s IH]; intros [|m] Hl; cbn in Hl; try lia.
  - exists 0%nat. repeat split; try lia. cbn. by intros ?%not_elem_of_nil.
  - exists 0%nat. repeat split; try lia. cbn. by intros ?%not_elem_of_nil.
  - cbn [fla_strnlen take]. destruct (Z.eqb_spec c 0) as [->|Hc].
    + exists 0%nat. repeat split; try lia. intros _. by constructor.
    + destruct (IH m ltac:(lia)) as (n & -> & Hn & Hz). cbn. exists (S n). split; [done|]. split; [lia|].
      rewrite elem_of_cons. split; [intros; right; apply Hz; lia|]. intros [?|?]; [congruence|].
      apply Hz in H. lia.
Qed.

(** A slot whose index is reserved and leads to an entry with a name that has the
    hash of the slot, and with an object size other than 0 and 10. *)
Record slot_good (fs : flexalloc) (entry : fla_htbl_entry) : Prop := {
  sg_reserved : free_bit (ps_freelist (fs_pools fs)) (val entry) = false;
  sg_entry : exists pe, pool_entry_at fs (val entry) = Some pe /\ pe_name pe !! 0%nat <> Some 0 /\ 0 ∈ pe_name pe /\
    FLA_HTBL_H2 (pe_name pe) = Some (h2 entry) /\ pe_obj_nlb pe <> 0 /\ pe_obj_nlb pe <> 10
}.

(** A system the checks can read: the structures have their sizes, and the values of
    the slots in use are indices of entries whose bit can be read. *)
Record readable (fs : flexalloc) (npools : Z) (slots : list fla_htbl_entry) : Prop := {
  rb_flist : flist_wf (ps_freelist (fs_pools fs)) npools;
  rb_entries : Z.of_nat (length (ps_entries (fs_pools fs))) = npools;
  rb_names : forall i e, pool_entry_at fs i = Some e -> Z.of_nat (length (pe_name e)) = FLA_NAME_SIZE_POOL;
  rb_table : tbl (ps_htbl (fs_pools fs)) = Some slots;
  rb_size : Z.of_nat (length slots) = tbl_size (ps_htbl (fs_pools fs)) /\ tbl_size (ps_htbl (fs_pools fs)) < 2 ^ 31
}.
Definition slot_readable (npools : Z) (entry : fla_htbl_entry) : Prop :=
  occ entry -> 0 <= val entry < npools /\ bit_defined (val entry).

Lemma flag_zero c bit err : 0 < bit -> flag c bit err = 0 <-> c = false /\ err = 0.
Proof. intros. destruct c; cbn; [rewrite Z.lor_eq_0_iff|]; intuition (lia || congruence). Qed.

Section checks.
Context (fs : flexalloc) (npools : Z) (slots : list fla_htbl_entry) (R : readable fs npools slots).

Lemma check_entry_spec entry : 0 <= val entry < npools -> bit_defined (val entry) ->
  exists err, check_entry fs npools entry = Some (err, false) /\ (err = 0 <-> slot_good fs entry) /\
    Z.land err POOL_ENTRY_HTBL_VAL_OUT_OF_BOUNDS = 0.
Proof using R.
  intros Hv Hd. unfold check_entry. rewrite (bit_reserved_spec _ npools) by (done || apply R). cbn [mbind option_bind].
  destruct (Z.leb_spec npools (val entry)); [lia|].
  destruct (lookupZ_is_Some (ps_entries (fs_pools fs)) (val entry)) as [pe Hpe]; [rewrite (rb_entries _ _ _ R); lia|].
  change (lookupZ _ _) with (pool_entry_at fs (val entry)) in Hpe. rewrite Hpe. cbn [mbind option_bind].
  pose proof (rb_names _ _ _ R _ _ Hpe) as Hl. unfold FLA_NAME_SIZE_POOL in *.
  destruct (pe_name pe !! 0%nat) as [c|] eqn:Hc; [|apply lookup_ge_None in Hc; lia]. cbn [mbind option_bind].
  destruct (strnlen_spec (pe_name pe) (Z.to_nat 112)) as (n & -> & Hn & Hz); [lia|]. cbn [mbind option_bind].
  rewrite take_ge in Hz by lia.
  assert (slot_good fs entry <-> free_bit (ps_freelist (fs_pools fs)) (val entry) = false /\ c <> 0 /\ 0 ∈ pe_name pe /\
            FLA_HTBL_H2 (pe_name pe) = Some (h2 entry) /\ pe_obj_nlb pe <> 0 /\ pe_obj_nlb pe <> 10) as Hg.
  { split; [intros [Hr (pe' & He' & H0 & ?)]; rewrite Hpe in He'; injection He' as <-|intros (Hr & H0 & ?); split; [done|exists pe; split; [done|]]].
    - split; [done|]. split; [|done]. intros ->. by apply H0.
    - split; [|done]. rewrite Hc. congruence. }
  destruct (Z.eqb_spec c 0) as [->|Hc0]; cbn [orb mbind option_bind].
  - eexists. split; [done|]. rewrite Hg, !flag_zero by done. split; [intuition congruence|]. by repeat destruct (_ =? _); destruct (free_bit _ _).
  - destruct (Z.eqb_spec (Z.of_nat n) 112); cbn [mbind option_bind].
    + eexists. split; [done|]. rewrite Hg, !flag_zero by done. split; [intuition (congruence || lia)|].
      by repeat destruct (_ =? _); destruct (free_bit _ _).
    + destruct (sdbm_some (pe_name pe) 0) as [hash Hh]; [apply Hz; lia|]. unfold FLA_HTBL_H2, fla_hash_sdbm in *. rewrite Hh.
      cbn [mbind option_bind]. eexists. split; [done|]. rewrite Hg, !flag_zero by done. rewrite negb_false_iff, Z.eqb_eq, !Z.eqb_neq.
      split; [|by repeat destruct (_ =? _); destruct (free_bit _ _)]. rewrite negb_involutive. split.
      * intros (? & ? & -> & _ & _ & ? & _). repeat split; try done. apply Hz. lia.
      * intros (? & ? & ? & Hh' & ? & ?). repeat split; try done. congruence.
Qed.

(** The loop stops at the first slot that is not good. *)
Lemma check_slots_spec : forall es delta, 0 <= delta -> delta + Z.of_nat (length es) < 2 ^ 32 ->
  Forall (slot_readable npools) es -> exists err delta', check_slots fs npools es delta = Some (err, delta') /\
  (err = 0 /\ Forall (fun e => occ e -> slot_good fs e) es \/
   err <> 0 /\ Z.land err POOL_ENTRY_HTBL_VAL_OUT_OF_BOUNDS = 0 /\
     exists k e, es !! k = Some e /\ occ e /\ ~ slot_good fs e /\ delta' = delta + Z.of_nat k + 1).
Proof using R.
  induction es as [|e es IH]; intros delta Hd Hl Hr; [by eexists _, _; split; [|left]|]. cbn [length] in Hl.
  apply Forall_cons in Hr as [He Hr]. cbn [check_slots]. pose proof (u32_small (delta + 1)) as Hw.
  unfold is_u32 in Hw. rewrite Hw by lia.
  assert (slot_good fs e \/ ~ occ e -> exists err delta', check_slots fs npools es (delta + 1) = Some (err, delta') /\
    (err = 0 /\ Forall (fun e => occ e -> slot_good fs e) (e :: es) \/
     err <> 0 /\ Z.land err POOL_ENTRY_HTBL_VAL_OUT_OF_BOUNDS = 0 /\
       exists k x, (e :: es) !! k = Some x /\ occ x /\ ~ slot_good fs x /\ delta' = delta + Z.of_nat k + 1)) as Hnext.
  { intros Hg. destruct (IH (delta + 1)) as (err & delta' & Ec & Hc); [lia|lia|done|]. exists err, delta'. split; [done|].
    destruct Hc as [[-> Hf]|(Hne & Hb & k & x & Hk & Ho & Hbad & ->)].
    - left. split; [done|]. constructor; [|done]. by destruct Hg.
    - right. split; [done|]. split; [done|]. exists (S k), x. repeat split; try done. lia. }
  destruct (Z.eqb_spec (h2 e) FLA_HTBL_ENTRY_UNSET) as [Hu|Hu]; [apply Hnext; right; unfold occ; tauto|].
  destruct (He Hu) as [Hv Hb]. destruct (check_entry_spec e Hv Hb) as (err & -> & Hgood & Hland). cbn [mbind option_bind].
  destruct (Z.eqb_spec err 0) as [->|Hne]; [apply Hnext; left; by apply Hgood|].
  exists err, (delta + 1). split; [done|]. right. split; [done|]. split; [done|]. exists 0%nat, e. repeat split; try done; [|lia].
  intros Hg. apply Hne, Hgood, Hg.
Qed.

Lemma slots_from_spec offset : 0 <= offset <= tbl_size (ps_htbl (fs_pools fs)) ->
  slots_from (ps_htbl (fs_pools fs)) offset = Some (drop (Z.to_nat offset) slots).
Proof using R.
  intros Ho. unfold slots_from. rewrite (rb_table _ _ _ R). cbn [mbind option_bind]. pose proof (rb_size _ _ _ R).
  rewrite (proj2 (Z.leb_le offset _)), (proj2 (Z.leb_le _ (Z.of_nat _))) by lia. cbn [andb]. by rewrite take_ge by lia.
Qed.

Context (Hs : Forall (slot_readable npools) slots).

(** From [offset] on. *)
Lemma check_pool_entries_spec offset : 0 <= offset <= tbl_size (ps_htbl (fs_pools fs)) ->
  exists err offset', check_pool_entries fs offset = Some (err, offset') /\
  (err = 0 /\ Forall (fun e => occ e -> slot_good fs e) (drop (Z.to_nat offset) slots) \/
   err <> 0 /\ Z.land err POOL_ENTRY_HTBL_VAL_OUT_OF_BOUNDS = 0 /\ offset <= offset' < tbl_size (ps_htbl (fs_pools fs)) /\
     exists e, slots !! Z.to_nat offset' = Some e /\ occ e /\ ~ slot_good fs e).
Proof using R Hs.
  intros Ho. unfold check_pool_entries. rewrite (slots_from_spec offset Ho). cbn [mbind option_bind].
  unfold fla_flist_len. rewrite (wf_len _ _ (rb_flist _ _ _ R)). cbn [mbind option_bind]. pose proof (rb_size _ _ _ R).
  destruct (check_slots_spec (drop (Z.to_nat offset) slots) 0) as (err & delta & -> & Hc);
    [lia|rewrite length_drop; lia|by apply Forall_drop|]. cbn [mbind option_bind]. do 2 eexists. split; [done|].
  destruct Hc as [[-> Hf]|(Hne & Hb & k & e & Hk & Hocc & Hbad & ->)]; [by left|right].
  rewrite (proj2 (Z.eqb_neq err 0)) by done. split; [done|]. split; [done|]. rewrite lookup_drop in Hk.
  pose proof (lookup_lt_Some _ _ _ Hk). rewrite (u32_small (0 + Z.of_nat k + 1 - 1)) by (unfold is_u32; lia).
  rewrite u32_small by (unfold is_u32; lia). split; [lia|]. exists e.
  by replace (Z.to_nat (offset + (0 + Z.of_nat k + 1 - 1))) with (Z.to_nat offset + k)%nat by lia.
Qed.

Lemma validate_rounds_spec fuel : forall offset err, 0 <= offset <= tbl_size (ps_htbl (fs_pools fs)) ->
  tbl_size (ps_htbl (fs_pools fs)) - offset < Z.of_nat fuel ->
  exists err', validate_rounds fuel fs offset err = Some err' /\
    (err' = 0 <-> err = 0 /\ Forall (fun e => occ e -> slot_good fs e) (drop (Z.to_nat offset) slots)).
Proof using R Hs.
  induction fuel as [|fuel IH]; intros offset err Ho Hf; [lia|]. cbn [validate_rounds]. unfold validate_round.
  destruct (check_pool_entries_spec offset Ho) as (fe & offset' & -> & Hc). cbn [mbind option_bind].
  destruct Hc as [[-> Hall]|(Hne & Hb & Hr & e & He & Hocc & Hbad)]; [exists err; split; [done|tauto]|].
  rewrite (proj2 (Z.eqb_neq fe 0)) by done. rewrite (rb_table _ _ _ R). cbn [mbind option_bind].
  unfold lookupZ. rewrite (proj2 (Z.ltb_ge offset' 0)), He by lia. cbn [mbind option_bind]. rewrite Hb.
  destruct (proj1 (Forall_lookup _ _) Hs _ _ He Hocc) as [Hv _].
  destruct (lookupZ_is_Some (ps_entries (fs_pools fs)) (val e)) as [pe Hpe]; [rewrite (rb_entries _ _ _ R); lia|].
  change (lookupZ _ _) with (pool_entry_at fs (val e)) in Hpe. rewrite Hpe. cbn [mbind option_bind Z.eqb].
  pose proof (rb_size _ _ _ R). rewrite u32_small by (unfold is_u32; lia).
  destruct (IH (offset' + 1) (Z.lor err fe)) as (err' & -> & Hi); [lia|lia|]. exists err'. split; [done|].
  rewrite Hi, Z.lor_eq_0_iff. split; [tauto|]. intros [_ Hall]. destruct Hbad.
  apply (proj1 (Forall_lookup _ _) Hall (Z.to_nat offset' - Z.to_nat offset)%nat); [|done].
  by rewrite lookup_drop, Nat.add_comm, Nat.sub_add by lia.
Qed.
End checks.

(** ** Counting *)

Lemma count_slots es : forall n, 0 <= n -> n + Z.of_nat (length es) < 2 ^ 32 ->
  foldl (fun n e => if h2 e =? FLA_HTBL_ENTRY_UNSET then n else u32 (n + 1)) n es = n + Z.of_nat (length (filter occ es)).
Proof.
  induction es as [|e es IH]; intros n Hn Hl; cbn [foldl filter length] in *; [cbn; lia|]. rewrite filter_cons.
  destruct (Z.eqb_spec (h2 e) FLA_HTBL_ENTRY_UNSET) as [Hu|Hu].
  - rewrite decide_False by (unfold occ; tauto). apply IH; lia.
  - rewrite decide_True by done. rewrite u32_small by (unfold is_u32; lia). rewrite IH by lia. cbn [length]. lia.
Qed.

Section counts.
Context (U : list (list Z)) (fs : flexalloc) (D : dir_inv U fs).

Lemma dir_slots : exists slots, tbl (ps_htbl (fs_pools fs)) = Some slots /\ unique slots /\
  (Z.of_nat (length slots) = tbl_size (ps_htbl (fs_pools fs)) /\ tbl_size (ps_htbl (fs_pools fs)) < 2 ^ 31) /\
  forall h i, dir fs !! h = Some i <-> has slots h i.
Proof using D.
  destruct (di_htbl _ _ D) as [Hsz (slots & Ht & Hl & Hi & _)]. exists slots. split; [done|]. split; [apply Hi|]. split; [lia|].
  intros h i. unfold dir, htbl_map. rewrite Ht. cbn [from_option]. apply slots_map_lookup, Hi.
Qed.

Lemma dir_readable : exists slots, readable fs (g_npools (fs_geo fs)) slots /\
  (forall e, e ∈ slots -> occ e -> dir fs !! h2 e = Some (val e)) /\ forall h i, dir fs !! h = Some i -> has slots h i.
Proof using D.
  destruct dir_slots as (slots & Ht & Hu & Hl & Hd). exists slots. split; [split; try done; apply D|]. split; [|by intros; apply Hd].
  intros e [p Hp]%list_elem_of_lookup Ho. apply Hd. by exists p, e.
Qed.

(** The indices in use, from the freelist and from the table. *)
Definition reserved : list nat :=
  filter (fun i => free_bit (ps_freelist (fs_pools fs)) (Z.of_nat i) = false) (seq 0 (Z.to_nat (g_npools (fs_geo fs)))).

Lemma num_reserved_eq : fla_flist_num_reserved (ps_freelist (fs_pools fs)) = Some (Z.of_nat (length reserved)).
Proof using D.
  rewrite (flist_num_reserved_correct _ _ (di_flist _ _ D)). unfold flist_bits, reserved. do 2 f_equal. apply length_filter_fmap.
Qed.

Lemma elem_reserved i : i ∈ reserved <-> free_bit (ps_freelist (fs_pools fs)) (Z.of_nat i) = false /\ Z.of_nat i < g_npools (fs_geo fs).
Proof using. unfold reserved. rewrite list_elem_of_filter, elem_of_seq. split; (intros [? ?]; split; [done|lia]). Qed.

Lemma counts_agree slots : tbl (ps_htbl (fs_pools fs)) = Some slots ->
  length reserved = length (filter occ slots) <->
  forall i, 0 <= i < g_npools (fs_geo fs) -> free_bit (ps_freelist (fs_pools fs)) i = false -> exists h, dir fs !! h = Some i.
Proof using D.
  intros Ht. destruct dir_slots as (slots' & Ht' & Hu & _ & Hd). assert (slots' = slots) as -> by congruence.
  set (vals := (fun e => Z.to_nat (val e)) <$> filter occ slots).
  assert (forall x, x ∈ filter occ slots -> dir fs !! h2 x = Some (val x)) as Hx.
  { intros x [Ho [p Hp]%list_elem_of_lookup]%list_elem_of_filter. apply Hd. by exists p, x. }
  assert (forall x y, x ∈ filter occ slots -> y ∈ filter occ slots -> Z.to_nat (val x) = Z.to_nat (val y) -> x = y) as Hinj.
  { intros x y Hxi Hyi He. pose proof (Hx x Hxi) as Dx. pose proof (Hx y Hyi) as Dy.
    destruct (di_used _ _ D _ _ Dx), (di_used _ _ D _ _ Dy). assert (val x = val y) as Ev by lia. rewrite Ev in Dx.
    pose proof (di_inj _ _ D _ _ _ Dx Dy) as Eh. apply list_elem_of_filter in Hxi as [Ox [p Hp]%list_elem_of_lookup].
    apply list_elem_of_filter in Hyi as [_ [q Hq]%list_elem_of_lookup]. rewrite (Hu p q x y Hp Hq Ox Eh) in Hp. congruence. }
  assert (NoDup vals) as Hnd by (apply NoDup_fmap_2_strong; [done|eapply NoDup_fmap_1, unique_NoDup; done]).
  assert (vals ⊆+ reserved) as Hsub.
  { apply NoDup_submseteq; [done|]. intros i (x & -> & Hxi)%list_elem_of_fmap. pose proof (Hx x Hxi) as Dx.
    destruct (di_used _ _ D _ _ Dx). apply elem_reserved. rewrite Z2Nat.id by lia. split; [done|lia]. }
  replace (length (filter occ slots)) with (length vals) by apply length_fmap. split.
  - intros He i Hi Hf. assert (vals ≡ₚ reserved) as Hp by (apply submseteq_length_Permutation; [done|lia]).
    assert (Z.to_nat i ∈ vals) as (x & Ei & Hxi)%list_elem_of_fmap.
    { rewrite Hp. apply elem_reserved. rewrite Z2Nat.id by lia. split; [done|lia]. }
    exists (h2 x). rewrite Hx by done. destruct (di_used _ _ D _ _ (Hx x Hxi)). f_equal. lia.
  - intros Hn. symmetry. apply Permutation_length, NoDup_Permutation; [done|apply NoDup_filter, NoDup_seq|].
    intros i. split; [intros Hv; by eapply elem_of_submseteq|]. rewrite elem_reserved. intros [Hf Hi].
    destruct (Hn (Z.of_nat i)) as [h Hh]; [lia|done|]. apply Hd in Hh as (p & e & He & Ho & <- & Ev).
    apply list_elem_of_fmap. exists e. split; [lia|]. apply list_elem_of_filter. split; [done|]. by eapply list_elem_of_lookup_2.
Qed.

Lemma num_entries_spec : exists err, check_pools_num_entries fs = Some err /\
  (err = 0 <-> s_npools (fs_super fs) = g_npools (fs_geo fs) /\
     forall i, 0 <= i < g_npools (fs_geo fs) -> free_bit (ps_freelist (fs_pools fs)) i = false -> exists h, dir fs !! h = Some i).
Proof using D.
  destruct dir_readable as (slots & R & _). pose proof (rb_size _ _ _ R) as Hl. unfold check_pools_num_entries, pool_htbl_num_reserved.
  rewrite num_reserved_eq, (slots_from_spec fs _ slots R 0) by lia. cbn [mbind option_bind]. unfold fla_flist_len.
  rewrite (wf_len _ _ (di_flist _ _ D)). cbn [mbind option_bind]. change (drop (Z.to_nat 0) slots) with slots.
  rewrite count_slots, Z.add_0_l by lia. eexists. split; [done|].
  rewrite <- (counts_agree slots) by apply R. rewrite !flag_zero by done. rewrite !negb_false_iff, !Z.eqb_eq. lia.
Qed.
End counts.

(** ** A slot that leads behind the entries *)

Lemma check_slots_skip fs npools pre : forall es delta, Forall (fun e => ~ occ e) pre -> 0 <= delta ->
  delta + Z.of_nat (length pre) < 2 ^ 32 -> check_slots fs npools (pre ++ es) delta = check_slots fs npools es (delta + Z.of_nat (length pre)).
Proof.
  induction pre as [|e pre IH]; intros es delta Hp Hd Hl; cbn [app length] in *; [f_equal; lia|]. apply Forall_cons in Hp as [He Hp]. cbn [check_slots].
  destruct (Z.eqb_spec (h2 e) FLA_HTBL_ENTRY_UNSET); [|done]. rewrite u32_small by (unfold is_u32; lia). rewrite IH by (done || lia). f_equal. lia.
Qed.

(** A slot in use with a value outside the entries, and none in use between [o] and it. *)
Lemma check_outside fs npools slots k e o : tbl (ps_htbl (fs_pools fs)) = Some slots ->
  Z.of_nat (length slots) = tbl_size (ps_htbl (fs_pools fs)) -> tbl_size (ps_htbl (fs_pools fs)) < 2 ^ 31 ->
  fla_flist_len (ps_freelist (fs_pools fs)) = Some npools -> slots !! k = Some e -> occ e -> npools <= val e ->
  is_Some (__flist_bit_reserved (ps_freelist (fs_pools fs)) (val e)) -> (0 < k)%nat -> (o <= k)%nat ->
  (forall j x, (o <= j < k)%nat -> slots !! j = Some x -> ~ occ x) ->
  exists b, forall err, validate_round fs (Z.of_nat o) err = Some (inr (Z.of_nat k, Z.lor err b)).
Proof.
  intros Ht Hl Hs Hn Hk Ho Hv [r Hr] Hk0 Hok Hb. pose proof (lookup_lt_Some _ _ _ Hk).
  exists (Z.lor (flag (negb r) POOL_ENTRY_NO_FLIST_ENTRY 0) POOL_ENTRY_HTBL_VAL_OUT_OF_BOUNDS). intros err.
  unfold validate_round, check_pool_entries, slots_from. rewrite Ht. cbn [mbind option_bind].
  rewrite (proj2 (Z.leb_le (Z.of_nat o) _)), (proj2 (Z.leb_le _ (Z.of_nat (length _)))) by lia. cbn [andb mbind option_bind].
  rewrite Hn, take_ge, Nat2Z.id by lia. cbn [mbind option_bind].
  assert (drop o slots = take (k - o) (drop o slots) ++ e :: drop (S k) slots) as ->.
  { rewrite <- (take_drop (k - o) (drop o slots)) at 1. f_equal. rewrite drop_drop. replace (o + (k - o))%nat with k by lia.
    by apply drop_S. }
  rewrite check_slots_skip; [|apply Forall_lookup|lia|rewrite length_take, length_drop; lia].
  2: { intros j x [Hx Hj]%lookup_take_Some. rewrite lookup_drop in Hx. apply (Hb (o + j)%nat); [lia|done]. }
  cbn [check_slots]. rewrite (proj2 (Z.eqb_neq (h2 e) _)) by done. unfold check_entry. rewrite Hr. cbn [mbind option_bind].
  rewrite (proj2 (Z.leb_le npools (val e))) by done. cbn [mbind option_bind]. set (b := Z.lor _ _).
  assert (b <> 0 /\ Z.land b POOL_ENTRY_HTBL_VAL_OUT_OF_BOUNDS <> 0) as [Hb0 Hb2] by (by destruct r).
  rewrite !(proj2 (Z.eqb_neq _ 0)) by done. rewrite length_take, length_drop, Nat.min_l by lia.
  assert (u32 (Z.of_nat o + u32 (0 + Z.of_nat (k - o) - 1)) = Z.of_nat k - 1) as ->.
  { unfold u32. rewrite Zplus_mod_idemp_r. rewrite Z.mod_small by lia. lia. }
  cbn [mbind option_bind]. destruct (lookupZ_is_Some slots (Z.of_nat k - 1)) as [x ->]; [lia|]. cbn [mbind option_bind].
  rewrite u32_small by (unfold is_u32; lia). by rewrite Z.sub_add.
Qed.
