(* ===== verification/Durability.v ===== *)
(** * Durability: what closing and opening again preserves

    [fla_flush] writes the dirty freelists to the ends of their slabs and the
    metadata buffer to the first blocks.  The lemmas follow a system through
    [fla_base_close] and a second [fla_open]; [Restart] puts them together. *)
From S2P Require Import Prelude Util Freelist Hash XnvmeEnv Flexalloc PoolEntry Geometry CommandSet.
From S2P Require Import SlabList SlabCache Slab Pool Object Alloc ObjectIO DataPlacement Layout Format System Typed.
From S2P Require Import History Store.

(** ** Flushing the cache *)

(** The freelist of slab [x] is in its last [q] blocks. *)
Definition flist_lba (geo : fla_geo) (q x : Z) : Z := slabs_base geo + x * g_slab_nlb geo + g_slab_nlb geo - q.
Definition off_flist (geo : fla_geo) (q x lba : Z) : Prop := lba < flist_lba geo q x \/ flist_lba geo q x + q <= lba.
Definition no_flist (geo : fla_geo) (q lba : Z) : Prop := forall x, 0 <= x < g_nslabs geo -> off_flist geo q x lba.

Lemma flists_apart geo q x y lba : 0 < q <= g_slab_nlb geo -> x <> y -> flist_lba geo q x <= lba < flist_lba geo q x + q ->
  off_flist geo q y lba.
Proof. unfold off_flist, flist_lba. intros Hq Hne Hl. destruct (Z.lt_trichotomy x y) as [|[|]]; [left|done|right]; nia. Qed.

Definition dirty_at (fs : flexalloc) (x : Z) : Prop :=
  exists el, cache_elem fs x = Some el /\ ce_state el = FLA_SLAB_CACHE_ELEM_DIRTY.

(** Every element can be written: a dirty one has a freelist of [n] entries. *)
Definition flushable (fs : flexalloc) (n q id : Z) : Prop :=
  exists el, cache_elem fs id = Some el /\
    (ce_state el = FLA_SLAB_CACHE_ELEM_DIRTY -> exists fl, ce_freelist el = Some fl /\ elem_buffer fs fl n q).

Section flush.
Context {W : Type} `{E : XnvmeEnv W} (block : W -> xnvme_dev -> Z -> list Z) `{!XnvmeLaws W block}.

Definition flist_on_disk (w : W) (fs : flexalloc) (q x : Z) (fl : list Z) : Prop :=
  concat_blocks (block w (d_dev (fs_dev fs))) (flist_lba (fs_geo fs) q x) (Z.to_nat q) = bytes_of_words fl.

(** One element: written when it is dirty. *)
Lemma flush_one w fs n q id : cns_fs fs -> dev_matches fs -> 0 <= id < g_nslabs (fs_geo fs) -> flushable fs n q id ->
  exists w1 c1 e, fla_slab_cache_elem_flush w fs id = Some (w1, set_cache c1 fs, e) /\
    (forall x, x <> id -> cache_elem (set_cache c1 fs) x = cache_elem fs x) /\
    (forall dev lba, dev_id dev <> dev_id (d_dev (fs_dev fs)) \/ (dirty_at fs id -> off_flist (fs_geo fs) q id lba) ->
       block w1 dev lba = block w dev lba) /\
    (e = 0 -> forall fl, cache_elem fs id = Some (mk_elem (Some fl) FLA_SLAB_CACHE_ELEM_DIRTY) ->
       0 < q <= g_slab_nlb (fs_geo fs) /\ flist_on_disk w1 fs q id fl).
Proof using All.
  intros C D Hid ([ofl st] & Hel & Hd). destruct (decide (st = FLA_SLAB_CACHE_ELEM_DIRTY)) as [->|Hne].
  - assert (dirty_at fs id) as Hdirty by by eexists.
    destruct (Hd eq_refl) as (fl & [= ->] & Hbuf).
    destruct (elem_flush_spec block w fs id fl n q C D Hid Hbuf Hel) as (w1 & fs1 & e & Ef & Hok & Hbad & Hfr).
    assert (forall dev lba, dev_id dev <> dev_id (d_dev (fs_dev fs)) \/ (dirty_at fs id -> off_flist (fs_geo fs) q id lba) ->
      block w1 dev lba = block w dev lba) as Hfr'.
    { intros dev lba Hx. apply Hfr. destruct Hx as [|Hx]; [by left|]. right. exact (Hx Hdirty). }
    destruct (decide (e = 0)) as [->|Hne].
    + destruct (Hok eq_refl) as [-> Hdk]. exists w1, (insertZ id (mk_elem (Some fl) FLA_SLAB_CACHE_ELEM_CLEAN) <$> fs_cache fs), 0.
      split; [exact Ef|]. split; [intros x Hx; by apply (cache_elem_set_ne fs id x), not_eq_sym|]. split; [done|].
      intros _ fl' Hfl'. rewrite Hel in Hfl'. injection Hfl' as <-. split; [apply Hbuf|exact Hdk].
    + rewrite (Hbad Hne) in Ef. exists w1, (fs_cache fs), e. split; [by rewrite Ef; destruct fs|]. by split.
  - unfold fla_slab_cache_elem_flush. rewrite Hel. bind_step. cbn [ce_state]. rewrite bool_decide_eq_false_2 by done.
    cbn [negb]. exists w, (fs_cache fs), 0. split; [by destruct fs|]. split; [done|]. split; [done|].
    intros _ fl' [= _ ?]. by destruct Hne.
Qed.

Lemma flush_loop_spec n q k : forall w fs id err, cns_fs fs -> dev_matches fs -> 0 <= id ->
  id + Z.of_nat k <= g_nslabs (fs_geo fs) -> (forall x, id <= x < id + Z.of_nat k -> flushable fs n q x) ->
  exists w' c err', cache_flush_loop k w fs id err = Some (w', set_cache c fs, err') /\ err <= err' /\
    (forall dev lba, dev_id dev <> dev_id (d_dev (fs_dev fs)) \/
       (forall x, id <= x < id + Z.of_nat k -> dirty_at fs x -> off_flist (fs_geo fs) q x lba) ->
       block w' dev lba = block w dev lba) /\
    (err' = err -> forall x fl, id <= x < id + Z.of_nat k ->
       cache_elem fs x = Some (mk_elem (Some fl) FLA_SLAB_CACHE_ELEM_DIRTY) -> flist_on_disk w' fs q x fl).
Proof using All.
  induction k as [|k IH]; intros w fs id err C D Hid Hk Hf.
  - exists w, (fs_cache fs), err. split; [by destruct fs|]. do 2 (split; [done|]). intros _ x fl Hx. lia.
  - cbn [cache_flush_loop]. destruct (flush_one w fs n q id C D) as (w1 & c1 & e & -> & Hc1 & Hb1 & Hd1); [lia|apply Hf; lia|].
    bind_step.
    destruct (IH w1 (set_cache c1 fs) (id + 1) (if e =? 0 then err else err + 1)) as (w' & c & err' & -> & Hle & Hb & Hd);
      [by apply cns_fs_set_cache|by apply dev_matches_set_cache|lia|cbn; lia| |].
    { intros x Hx. destruct (Hf x ltac:(lia)) as (el' & Hel' & Hd'). exists el'. split; [rewrite Hc1; [done|lia]|].
      intros Hs. destruct (Hd' Hs) as (fl & ? & ?). exists fl. split; [done|]. by apply elem_buffer_set_cache. }
    exists w', c, err'. split; [done|]. split; [by destruct (e =? 0); lia|]. split.
    + intros dev lba Hx. rewrite Hb, Hb1; [done| |]; (destruct Hx as [|Hx]; [by left|right]).
      * intros Hdi. apply Hx; [lia|done].
      * intros x Hxr (el & Hel & Hs). apply Hx; [lia|]. exists el. by rewrite <- Hc1 by lia.
    + intros Herr x fl Hx Hel. destruct (Z.eqb_spec e 0) as [->|]; [|lia]. destruct (decide (x = id)) as [->|Hne].
      * destruct (Hd1 eq_refl fl Hel) as [Hq Hdk]. unfold flist_on_disk in *. rewrite <- Hdk. apply concat_blocks_ext. intros lba Hl.
        apply Hb. right. intros y Hy _. apply (flists_apart _ q id y); [done|lia|cbn; lia].
      * apply (Hd Herr); [lia|]. by rewrite Hc1.
Qed.

Lemma cache_flush_spec w fs n q : cns_fs fs -> dev_matches fs ->
  (forall x, 0 <= x < g_nslabs (fs_geo fs) -> flushable fs n q x) ->
  exists w' c err, fla_slab_cache_flush w fs = Some (w', set_cache c fs, err) /\
    (forall dev lba, dev_id dev <> dev_id (d_dev (fs_dev fs)) \/
       (forall x, 0 <= x < g_nslabs (fs_geo fs) -> dirty_at fs x -> off_flist (fs_geo fs) q x lba) ->
       block w' dev lba = block w dev lba) /\
    (err = 0 -> forall x fl, 0 <= x < g_nslabs (fs_geo fs) ->
       cache_elem fs x = Some (mk_elem (Some fl) FLA_SLAB_CACHE_ELEM_DIRTY) -> flist_on_disk w' fs q x fl).
Proof using All.
  intros C D Hf. unfold fla_slab_cache_flush. destruct (fs_cache fs) eqn:Ec.
  2: { exists w, None, 0. split; [destruct fs; cbn in *; by subst|]. split; [done|]. intros _ x fl _ Hel.
       unfold cache_elem in Hel. by rewrite Ec in Hel. }
  pose proof (go_nslabs _ (cf_geo _ C)).
  destruct (flush_loop_spec n q (Z.to_nat (g_nslabs (fs_geo fs))) w fs 0 0) as (w' & c & err & -> & _ & Hb & Hd);
    [done|done|lia|lia|intros x Hx; apply Hf; lia|].
  exists w', c, err. split; [done|]. rewrite Z2Nat.id, Z.add_0_l in * by lia. done.
Qed.

Context `{A : XnvmeAdm W} `{!XnvmeAdmLaws W block}.

(** The metadata with the number of names that the flush copies into it. *)
Definition flushed_md (fs : flexalloc) (p : md_parts) : md_parts :=
  mk_md (md_super p) (mk_segment (sg_freelist (md_pools p))
    (mk_htbl_hdr (hh_size (sg_htbl_hdr (md_pools p))) (len (ps_htbl (fs_pools fs)))) (sg_table (md_pools p))
    (sg_entries (md_pools p))) (md_slabs p).

Lemma flushed_fits fs p : typed fs -> md_of fs = Some p -> md_fits (fs_geo fs) (flushed_md fs p).
Proof using.
  intros T Hp. destruct (typed_parts fs T) as (p' & Hp' & Hfit). rewrite Hp in Hp'. injection Hp' as <-.
  destruct Hfit as [? ? ? [? ?] ? ? ? ? ? ? ?]. split; try done. split; [done|]. apply (ty_pools _ T).
Qed.

(** [fla_flush] of an open system. *)
Lemma flush_spec w h dev n q : let fs := h_fs h in
  typed fs -> cns_fs fs -> on_device dev fs -> dev_for dev (fs_geo fs) -> fs_state fs = FLA_STATE_OPEN ->
  Z.of_nat (length (h_buf h)) = fla_geo_nbytes (fs_geo fs) -> 0 <= q -> q <= g_slab_nlb (fs_geo fs) ->
  (forall x, 0 <= x < g_nslabs (fs_geo fs) -> flushable fs n q x) ->
  exists w' h' err p, fla_flush w h = Some (w', h', err) /\ md_of fs = Some p /\
    (err = 0 -> md_on_disk block w' dev (fs_geo fs) (flushed_md fs p) /\
       (forall x fl, 0 <= x < g_nslabs (fs_geo fs) -> cache_elem fs x = Some (mk_elem (Some fl) FLA_SLAB_CACHE_ELEM_DIRTY) ->
          flist_on_disk w' fs q x fl) /\
       exists c hdr, h_fs h' = set_pools (set_htbl_hdr hdr (fs_pools fs)) (set_cache c fs)) /\
    forall lba, fla_geo_nblocks (fs_geo fs) <= lba ->
      (forall x, 0 <= x < g_nslabs (fs_geo fs) -> dirty_at fs x -> off_flist (fs_geo fs) q x lba) -> block w' dev lba = block w dev lba.
Proof using All.
  intros fs T C [Od Om Ol] D Hst Hlen Hq Hqs Hf. destruct (typed_parts fs T) as (p & Hp & Hfit).
  pose proof (ty_geo _ T) as (G & S & _). unfold fla_flush. fold fs. rewrite Hst. change (Z.land FLA_STATE_OPEN FLA_STATE_OPEN =? 0) with false.
  cbv iota. destruct (cache_flush_spec w fs n q C Om Hf) as (w1 & c & err & -> & Hb & Hdk). bind_step.
  destruct (Z.eqb_spec err 0) as [->|Hne]; cbn [negb].
  2: { exists w1. do 2 eexists. exists p. split; [done|]. split; [done|]. split; [done|].
       intros lba _ Hl. apply Hb. by right. }
  set (fs2 := set_pools _ (set_cache c fs)).
  assert (md_of fs2 = Some (flushed_md fs p)) as Hp2.
  { unfold md_of in *. cbn in *. destruct (tbl (ps_htbl (fs_pools fs))); [|done]. bind_step. by injection Hp as <-. }
  pose proof (flushed_fits fs p T Hp) as Hfit2.
  rewrite Hp2. bind_step.
  destruct (md_load_store (fs_geo fs) (fslab_end (fs_geo fs)) (flushed_md fs p) (h_buf h) G S Hfit2) as (buf & Eb & Hbl & Hld);
    [by left|done|].
  change (fs_geo fs2) with (fs_geo fs). rewrite Eb. bind_step. unfold flist_dev. rewrite (cf_md _ C). cbn [default from_option].
  rewrite Od. unfold fla_xne_lba_range_from_slba_naddrs, FLA_SUPER_SLBA. destruct (nbytes_eq (fs_geo fs) G S) as [Hnb Hn].
  rewrite range_slba by (rewrite ?(df_nlb _ _ D); lia). cbn [r_is_valid negb].
  unfold fla_xne_sync_seq_w_xneio.
  change (mk_lba_range 0 (0 + fla_geo_nblocks (fs_geo fs) - 1) (fla_geo_nblocks (fs_geo fs))
    (fla_geo_nblocks (fs_geo fs) * dev_lba dev) true) with (range_of 0 (fla_geo_nblocks (fs_geo fs)) dev).
  destruct (write_md block w1 dev (fs_geo fs) buf D G S) as (w2 & err & -> & Hok & Hfr); [lia|]. bind_step.
  exists w2. do 2 eexists. exists p. split; [done|]. split; [done|]. split.
  - intros E0. split; [unfold md_on_disk; by rewrite (Hok E0)|]. split; [|by eexists _, _]. intros x fl Hx Hel.
    pose proof (Hdk eq_refl x fl Hx Hel) as Hd. unfold flist_on_disk in *. rewrite <- Hd, Od. apply concat_blocks_ext. intros lba Hl.
    apply Hfr. right. unfold flist_lba in Hl. rewrite geo_nblocks_eq by apply C. nia.
  - intros lba Hl Hnf. rewrite Hfr by lia. apply Hb. by right.
Qed.
End flush.

(** ** What object operations leave alone *)

(** An entry without its slab lists. *)
Definition pe_rest (e : fla_pool_entry) : Z * Z * Z * Z * Z * list Z :=
  (pe_obj_nlb e, pe_slab_nobj e, pe_root_obj_hndl e, pe_flags e, pe_usable e, pe_name e).

Record obj_frame (fs fs' : flexalloc) : Prop := {
  of_geo : fs_geo fs' = fs_geo fs;
  of_dev : fs_dev fs' = fs_dev fs;
  of_super : fs_super fs' = fs_super fs;
  of_cs : fs_cs fs' = fs_cs fs;
  of_state : fs_state fs' = fs_state fs;
  of_flist : ps_freelist (fs_pools fs') = ps_freelist (fs_pools fs);
  of_htbl : ps_htbl (fs_pools fs') = ps_htbl (fs_pools fs);
  of_hdr : ps_htbl_hdr (fs_pools fs') = ps_htbl_hdr (fs_pools fs);
  of_funcs : ps_entrie_funcs (fs_pools fs') = ps_entrie_funcs (fs_pools fs);
  of_entries : pe_rest <$> ps_entries (fs_pools fs') = pe_rest <$> ps_entries (fs_pools fs)
}.

Section frames.
Context {W : Type} `{XnvmeEnv W} (fs0 : flexalloc).
Local Notation F := (obj_frame fs0).

Lemma header_upd_frame fs slab f fs' : header_upd fs slab f = Some fs' -> F fs -> F fs'.
Proof using. unfold header_upd. intros Hr [? ? ? ? ? ? ? ? ? ?]. run_inv. by split. Qed.
Lemma free_list_frame fs a b c : F fs -> F (set_free_list a b c fs).
Proof using. intros [? ? ? ? ? ? ? ? ? ?]. by split. Qed.
Lemma cache_frame fs c : F fs -> F (set_cache c fs).
Proof using. intros [? ? ? ? ? ? ? ? ? ?]. by split. Qed.
Hint Resolve header_upd_frame free_list_frame cache_frame : core.

Lemma upd_head_frame fs ndx l v fs' : upd_entry fs ndx (pe_set_head l v) = Some fs' -> F fs -> F fs'.
Proof using.
  unfold upd_entry. intros Hr [? ? ? ? ? ? ? ? ? He]. run_inv. split; try done. cbn. rewrite <- He.
  match goal with E : lookupZ _ _ = Some ?e |- _ => unfold lookupZ in E; unfold insertZ; destruct (ndx <? 0); [done|];
    rewrite list_fmap_insert; apply list_insert_id; rewrite list_lookup_fmap, E; by destruct l, e end.
Qed.
Hint Resolve upd_head_frame : core.

Lemma prepend_frame fs slab head fs' r err : fla_hdll_prepend fs slab head = Some (fs', r, err) -> F fs -> F fs'.
Proof using. unfold fla_hdll_prepend, prepend_link, fla_slab_id. intros Hr Hf. run_inv; eauto. Qed.
Lemma remove_frame fs slab head fs' r err : fla_hdll_remove fs slab head = Some (fs', r, err) -> F fs -> F fs'.
Proof using. unfold fla_hdll_remove, unlink_next. intros Hr Hf. run_inv; eauto. Qed.
Lemma remove_head_frame fs a b fs' c d s err : fla_edll_remove_head fs a b = Some (fs', c, d, s, err) -> F fs -> F fs'.
Proof using. unfold fla_edll_remove_head. intros Hr Hf. run_inv; eauto. Qed.
Lemma add_tail_frame fs a b s fs' c d err : fla_edll_add_tail fs a b s = Some (fs', c, d, err) -> F fs -> F fs'.
Proof using. unfold fla_edll_add_tail, fla_slab_id. intros Hr Hf. run_inv; eauto. Qed.
Hint Resolve prepend_frame remove_frame remove_head_frame add_tail_frame : core.

Lemma list_prepend_frame fs s a fs' err : list_op fla_hdll_prepend fs s a = Some (fs', err) -> F fs -> F fs'.
Proof using. unfold list_op. intros Hr Hf. run_inv; eauto. Qed.
Lemma list_remove_frame fs s a fs' err : list_op fla_hdll_remove fs s a = Some (fs', err) -> F fs -> F fs'.
Proof using. unfold list_op. intros Hr Hf. run_inv; eauto. Qed.
Lemma release_frame fs s fs' err : fla_release_slab fs s = Some (fs', err) -> F fs -> F fs'.
Proof using.
  unfold fla_release_slab, fla_slab_id, fla_slab_cache_elem_drop, set_cache_elem. intros Hr Hf. run_inv; eauto.
Qed.
Lemma acquire_frame (w : W) fs nlb w' fs' s err : fla_acquire_slab w fs nlb = Some (w', fs', s, err) -> F fs -> F fs'.
Proof using.
  unfold fla_acquire_slab, fla_format_slab, fla_slab_id, fla_slab_cache_elem_init, set_cache_elem. intros Hr Hf.
  run_inv; eauto 8.
Qed.
Hint Resolve list_prepend_frame list_remove_frame release_frame acquire_frame : core.

Lemma next_obj_frame fs s n fs' o err : fla_slab_next_available_obj fs s n = Some (fs', o, err) -> F fs -> F fs'.
Proof using.
  unfold fla_slab_next_available_obj, fla_slab_id, fla_slab_cache_obj_alloc, set_cache_elem. intros Hr Hf. run_inv; eauto.
Qed.
Lemma load_frame (w : W) fs id n w' fs' err : load_if_stale w fs id n = Some (w', fs', err) -> F fs -> F fs'.
Proof using. unfold load_if_stale, fla_slab_cache_elem_load, set_cache_elem. intros Hr Hf. run_inv; eauto. Qed.
Lemma next_slab_frame (w : W) fs ndx w' fs' s err : fla_pool_next_available_slab w fs ndx = Some (w', fs', s, err) -> F fs -> F fs'.
Proof using. unfold fla_pool_next_available_slab. intros Hr Hf. run_inv; eauto. Qed.
Hint Resolve next_obj_frame load_frame next_slab_frame : core.

Lemma object_create_frame (w : W) fs pool w' fs' o err : fla_base_object_create w fs pool = Some (w', fs', o, err) -> F fs -> F fs'.
Proof using. unfold fla_base_object_create, object_create_in, fla_slab_id. intros Hr Hf. run_inv; eauto 8. Qed.
Lemma object_open_frame (w : W) fs pool o w' fs' err : fla_base_object_open w fs pool o = Some (w', fs', err) -> F fs -> F fs'.
Proof using. unfold fla_base_object_open. intros Hr Hf. run_inv; eauto. Qed.
Lemma object_destroy_frame (w : W) fs pool o w' fs' err : fla_base_object_destroy w fs pool o = Some (w', fs', err) -> F fs -> F fs'.
Proof using.
  unfold fla_base_object_destroy, fla_slab_cache_obj_free, set_cache_elem. intros Hr Hf. run_inv; eauto 8.
Qed.
End frames.

(** Creating a pool does not touch the sizes or the state. *)
Lemma pool_create_sizes {W} `{XnvmeEnv W} (w : W) fs arg w' fs' hdl err :
  fla_base_pool_create w fs arg = Some (w', fs', hdl, err) ->
  tbl_size (ps_htbl (fs_pools fs')) = tbl_size (ps_htbl (fs_pools fs)) /\
  ps_htbl_hdr (fs_pools fs') = ps_htbl_hdr (fs_pools fs) /\ fs_state fs' = fs_state fs.
Proof.
  unfold fla_base_pool_create, pool_create_new, pool_create_at, fla_pool_initialize_entrie_func_, htbl_insert, upd_entry.
  intros Hr. run_inv; done.
Qed.

(** Looking a name up needs the table and its size only. *)
Lemma pool_open_ext {W} `{XnvmeEnv W} (w : W) fs fs' k :
  tbl (ps_htbl (fs_pools fs')) = tbl (ps_htbl (fs_pools fs)) ->
  tbl_size (ps_htbl (fs_pools fs')) = tbl_size (ps_htbl (fs_pools fs)) ->
  fla_base_pool_open w fs' k = fla_base_pool_open w fs k.
Proof. intros Ht Hs. unfold fla_base_pool_open, htbl_lookup, __htbl_lookup. by rewrite Ht, Hs. Qed.

(** ** A session, closed and opened again *)

Section reopen.
Context {W : Type} `{E : XnvmeEnv W} `{A : XnvmeAdm W} (block : W -> xnvme_dev -> Z -> list Z).
Context `{!XnvmeLaws W block} `{!XnvmeAdmLaws W block}.

(** The operations of the store keep the metadata typed and the pools in place. *)
Lemma store_run_frame {Dp : FlaDp W} size pool ops : forall w fs st w' fs' st',
  store_run size pool ops w fs st = Some (w', fs', st') -> typed fs -> typed fs' /\ forall fs0, obj_frame fs0 fs -> obj_frame fs0 fs'.
Proof using.
  induction ops as [|op ops IH]; intros w fs st w' fs' st' Hr T; cbn [store_run] in Hr; [by simplify_eq|].
  destruct (store_step size pool op w fs st) as [[[w1 fs1] st1]|] eqn:Es; [|done]. cbn [mbind option_bind] in Hr.
  assert (typed fs1 /\ forall fs0, obj_frame fs0 fs -> obj_frame fs0 fs1) as [T1 F1].
  { unfold store_step in Es. destruct op; run_inv; try done; split;
      eauto using object_create_typed, object_destroy_typed, object_open_typed, object_create_frame, object_destroy_frame,
        object_open_frame. }
  destruct (IH _ _ _ _ _ _ Hr T1) as [T2 F2]. split; [done|]. intros fs0 F0. by apply F2, F1.
Qed.

(** What a session starts from. *)
Lemma session_typed dev pr U arg w h fs pool : session dev pr U arg w h fs pool -> arg_typed arg ->
  typed fs /\ fs_state fs = FLA_STATE_OPEN /\ hh_size (ps_htbl_hdr (fs_pools fs)) = tbl_size (ps_htbl (fs_pools fs)) /\
  dev_for dev (fs_geo fs) /\ super_for (fs_super fs) (fs_geo fs) /\ g_npools (fs_geo fs) = mp_npools pr /\
  Z.of_nat (length (h_buf h)) = fla_geo_nbytes (fs_geo fs).
Proof using All.
  intros Se Ha. destruct (session_created block dev pr U arg w h fs pool Se) as (k & n & _ & _ & _ & _ & _ & SP & _).
  destruct Se as [HU Rq Hk Hlen Ho (w0 & geo0 & md_geo0 & junk & w1 & w2 & Em & Eo & Hc)].
  destruct (mkfs_open_typed block dev pr w0 geo0 md_geo0 junk w1 w2 h Rq Em Eo) as (T & geo & p & Op & F & D & Hp).
  destruct (pool_create_sizes _ _ _ _ _ _ _ Hc) as (Hsz & Hhdr & Hst).
  destruct Op as [(funcs & Efs & _) _ _ Hl]. pose proof SP as [SG _ _ SS _ _].
  assert (fs_geo fs = geo) as Eg by (rewrite SG, Efs; done).
  split; [by eapply pool_create_typed|]. rewrite Hst, Hhdr, Hsz, SS, Eg, Efs. split; [done|]. split; [done|]. split; [done|].
  split; [|done]. by split; cbn; rewrite (fm_super _ _ F).
Qed.

(** The freelists in the cache of a system with one pool fit the end of their slabs. *)
Lemma alloc_buffers fs e n free ls : alloc_inv fs e n free ls -> g_lb_nbytes (fs_geo fs) mod 4 = 0 ->
  exists q, fla_slab_cache_flist_nlb fs n = Some q /\ 0 < q /\ n * pe_obj_nlb e + q <= g_slab_nlb (fs_geo fs) /\
    forall x el, cache_elem fs x = Some el -> ce_state el <> FLA_SLAB_CACHE_ELEM_STALE ->
      exists fl, ce_freelist el = Some fl /\ elem_buffer fs fl n q.
Proof using.
  intros I H4. pose proof (ai_cns _ _ _ _ _ I) as C. pose proof (cf_geo _ C) as G. pose proof (ai_range _ _ _ _ _ I) as [Ho Hn].
  destruct (calc_objs_spec fs (pe_obj_nlb e) C Ho) as (r & Er & _ & Hfit & _).
  rewrite (ai_calc _ _ _ _ _ I) in Er. injection Er as <-. destruct Hfit as (q & Hq & Hle); [lia|].
  destruct (flist_nlb_spec fs n G) as (q' & Eq & Hq0 & Hqs); [lia|]. rewrite Hq in Eq. injection Eq as <-.
  pose proof (go_lb _ G) as Hlb. rewrite flist_size_eq in Hqs by lia. pose proof (Z.div_pos (n + 31) 32 ltac:(lia) ltac:(lia)).
  assert (0 < q) by nia. exists q. split; [done|]. split; [done|]. split; [lia|]. intros x el Hel Hd.
  destruct (ai_cached _ _ _ _ _ I x el Hel Hd) as [l Hl].
  destruct (ai_owned _ _ _ _ _ I l x Hl) as (rc & [_ (fl & st & Hc & _ & Hw & _ & (q2 & Eq2 & Hz))] & _).
  rewrite Hel in Hc. injection Hc as ->. exists fl. split; [done|].
  assert (q2 = q) as -> by (unfold fla_slab_cache_flist_nlb in Hq; congruence).
  split; [done|done| |nia]. rewrite Hz. pose proof (Z.div_mod (g_lb_nbytes (fs_geo fs)) 4). 
  replace (g_lb_nbytes (fs_geo fs)) with (g_lb_nbytes (fs_geo fs) / 4 * 4) at 1 by lia.
  rewrite Z.mul_assoc, Z.div_mul by lia. lia.
Qed.

Lemma alloc_flushable fs e n free ls : alloc_inv fs e n free ls -> g_lb_nbytes (fs_geo fs) mod 4 = 0 ->
  exists q, 0 < q /\ n * pe_obj_nlb e + q <= g_slab_nlb (fs_geo fs) /\
    forall x, 0 <= x < g_nslabs (fs_geo fs) -> flushable fs n q x.
Proof using.
  intros I H4. destruct (alloc_buffers fs e n free ls I H4) as (q & _ & Hq & Hfit & Hb). exists q. do 2 (split; [done|]).
  intros x Hx. destruct (ai_cache _ _ _ _ _ I x Hx) as [el Hel]. exists el. split; [done|]. intros Hd.
  apply (Hb x el Hel). by rewrite Hd.
Qed.

(** The blocks of an object are no blocks of freelists and behind the metadata. *)
Lemma placed_no_flist fs e n o q lba : obj_placed fs e n o -> 0 < q -> n * pe_obj_nlb e + q <= g_slab_nlb (fs_geo fs) ->
  obj_start fs (pe_obj_nlb e) o <= lba < obj_start fs (pe_obj_nlb e) o + pe_obj_nlb e ->
  fla_geo_nblocks (fs_geo fs) <= lba /\ no_flist (fs_geo fs) q lba.
Proof using.
  intros [C _ _ _ [Ho Hn] Hs Hk] Hq Hfit Hl. unfold obj_start in Hl. rewrite geo_nblocks_eq by apply C.
  set (S := g_slab_nlb (fs_geo fs)) in *. set (B := slabs_base (fs_geo fs)) in *. set (L := pe_obj_nlb e) in *.
  assert (0 <= L * o_entry_ndx o) by nia. assert (L * o_entry_ndx o + L <= n * L) by nia.
  assert (0 <= o_slab_id o * S) by nia. split; [lia|]. intros x Hx.
  unfold off_flist, flist_lba. destruct (Z.lt_trichotomy x (o_slab_id o)) as [Hlt|[->|Hgt]]; [right|left|left]; fold S B; nia.
Qed.

(** The handle that opening gives on what a flush of [fs] wrote. *)
Lemma reopened_placed dev fs p hd e n o : md_of fs = Some p -> opened dev (fs_geo fs) (flushed_md fs p) hd ->
  d_md_dev (fs_dev fs) = None -> free_bit (ps_freelist (fs_pools fs)) 0 = false -> 0 < g_npools (fs_geo fs) -> g_npools (fs_geo fs) <> 32 ->
  obj_placed fs e n o -> obj_placed (h_fs hd) e n o.
Proof using.
  intros Hp [(funcs & -> & _ & Hfn) _ _ _] Hmd Hfree Hnp H32 [C He Hf Hc Hr Hs Hk].
  assert (sg_freelist (md_pools p) = ps_freelist (fs_pools fs) /\ sg_entries (md_pools p) = ps_entries (fs_pools fs)) as [Efl Ees].
  { unfold md_of in Hp. destruct (tbl (ps_htbl (fs_pools fs))); [|done]. cbn in Hp. by injection Hp as <-. }
  split; try done.
  - split; [apply C|done|done].
  - unfold pool_entry_at in *. cbn [h_fs set_state set_cache opened_fs fs_pools ps_entries flushed_md md_pools sg_entries]. by rewrite Ees.
  - change (lookupZ funcs 0 = Some fnc_default). apply Hfn; [|cbn; by rewrite Efl]. unfold search_limit.
    pose proof (Z.div_mod (g_npools (fs_geo fs)) 32). pose proof (Z.mod_pos_bound (g_npools (fs_geo fs)) 32).
    destruct (decide (g_npools (fs_geo fs) < 32)) as [Hlt|Hge].
    + assert (FLA_FREELIST_U32_ELEMS (g_npools (fs_geo fs)) = 1) as ->.
      { unfold FLA_FREELIST_U32_ELEMS. rewrite u64_small by (unfold is_u64; lia).
        symmetry. apply Z.div_unique with (r := g_npools (fs_geo fs) - 1); lia. }
      rewrite Z.mod_small by lia. lia.
    + pose proof (go_npools _ (cf_geo _ C)). pose proof (nslabs_bound _ (cf_geo _ C)) as Hb. unfold FLA_LINKED_LIST_NULL in Hb.
      pose proof (elems_bounds (g_npools (fs_geo fs)) ltac:(lia)). lia.
  - rewrite <- Hc. apply calc_objs_frame; [done|by rewrite Hmd].
Qed.

(** The system a session and its operations leave, as far as closing it goes, and
    that it has a first pool. *)
Record closing (dev : xnvme_dev) (fs : flexalloc) (buf : list Z) : Prop := {
  cl_typed : typed fs;
  cl_state : fs_state fs = FLA_STATE_OPEN;
  cl_size : hh_size (ps_htbl_hdr (fs_pools fs)) = tbl_size (ps_htbl (fs_pools fs));
  cl_dev : dev_for dev (fs_geo fs);
  cl_super : super_for (fs_super fs) (fs_geo fs);
  cl_flist : flist_wf (ps_freelist (fs_pools fs)) (g_npools (fs_geo fs));
  cl_buf : Z.of_nat (length buf) = fla_geo_nbytes (fs_geo fs)
}.
Record closable (dev : xnvme_dev) (fs : flexalloc) (buf : list Z) : Prop := {
  cl_closing : closing dev fs buf;
  cl_first : free_bit (ps_freelist (fs_pools fs)) 0 = false
}.

(** The operations of the store keep it. *)
Lemma closable_run {Dp : FlaDp W} dev fs buf size pool ops w st w' fs' st' : closable dev fs buf -> on_device dev fs ->
  store_run size pool ops w fs st = Some (w', fs', st') -> closable dev fs' buf /\ on_device dev fs' /\ obj_frame fs fs'.
Proof using.
  intros [[T St Sz D Su Fl Bl] Fb] [Od Om Ol] Hr. destruct (store_run_frame size pool ops w fs st w' fs' st' Hr T) as [T' F].
  assert (obj_frame fs fs') as F0 by (apply F; by split). destruct F0 as [? ? ? ? ? ? ? ? ? ?].
  split; [by split; [split|]; rewrite ?of_geo0, ?of_state0, ?of_htbl0, ?of_hdr0, ?of_super0, ?of_flist0|].
  split; [|by split]. split; rewrite ?of_dev0, ?of_geo0; try done. by destruct Om; split; rewrite ?of_dev0, ?of_geo0, ?of_super0.
Qed.

Lemma session_closable dev pr U arg w h fs pool : session dev pr U arg w h fs pool -> arg_typed arg ->
  closable dev fs (h_buf h) /\ on_device dev fs /\ g_npools (fs_geo fs) = mp_npools pr.
Proof using All.
  intros Se Ha. destruct (session_typed dev pr U arg w h fs pool Se Ha) as (T & St & Sz & D & Su & Np & Bl).
  destruct (session_created block dev pr U arg w h fs pool Se) as (k & n & R & _ & _ & Hn & Hb & SP & DI & _ & CO).
  destruct (first_pool U (h_fs h) _ fs arg k n (p_ndx pool) (ready_vacant _ _ R) SP CO Hn Hb (se_obj_nlb _ _ _ _ _ _ _ _ Se)) as (Hp & _).
  destruct (session_start block dev pr U arg w h fs pool Se) as (_ & _ & Od & _).
  split; [|done]. split; [split; try done; apply DI|].
  apply (di_used _ _ DI k 0). fold (dir fs). rewrite (co_dir _ _ _ _ _ _ CO), Hp. apply lookup_insert_eq.
Qed.

(** Closing and opening again. *)
Lemma close_open dev fs dp buf n q opts w : closing dev fs buf -> cns_fs fs -> on_device dev fs -> 0 < q <= g_slab_nlb (fs_geo fs) ->
  (forall x, 0 <= x < g_nslabs (fs_geo fs) -> flushable fs n q x) ->
  uri_names (oo_dev_uri opts) dev -> oo_md_dev_uri opts = None -> is_Some (strlen (oo_dev_uri opts)) ->
  exists w1 h1 err, fla_base_close w (mk_handle fs dp buf) = Some (w1, h1, err) /\
    (forall lba, fla_geo_nblocks (fs_geo fs) <= lba ->
       (forall x, 0 <= x < g_nslabs (fs_geo fs) -> dirty_at fs x -> off_flist (fs_geo fs) q x lba) -> block w1 dev lba = block w dev lba) /\
    (err = 0 -> (forall x fl, 0 <= x < g_nslabs (fs_geo fs) -> cache_elem fs x = Some (mk_elem (Some fl) FLA_SLAB_CACHE_ELEM_DIRTY) ->
         flist_on_disk block w1 fs q x fl) /\
       exists p w2 h2 err2, md_of fs = Some p /\ fla_open w1 opts = Some (w2, h2, err2) /\ same_blocks block w1 w2 /\
         (err2 = 0 -> exists hd, h2 = Some hd /\ opened dev (fs_geo fs) (flushed_md fs p) hd)).
Proof using All.
  intros [T St Sz D Su Fl Bl] C Od Hq Hfl Hu Hm Hs.
  destruct (flush_spec block w (mk_handle fs dp buf) dev n q T C Od D St Bl ltac:(lia) (proj2 Hq) Hfl) as (w1 & h1 & err & p & Ef & Hp & Hok & Hfr).
  cbn [h_fs h_buf] in *. unfold fla_base_close. rewrite Ef. bind_step.
  destruct (Z.eqb_spec err 0) as [->|Hne]; cbn [negb]; [|do 3 eexists; split; [done|]; by split].
  destruct (Hok eq_refl) as (Hmd & Hdk & c & hdr & Eh).
  assert (exists h2, fla_close_noflush h1 = Some h2) as [h2 ->].
  { unfold fla_close_noflush. rewrite Eh. cbn. rewrite St, (cf_cs _ C). by eexists. }
  bind_step. exists w1, h2, 0. split; [done|]. split; [done|]. intros _. split; [done|]. exists p.
  pose proof (ty_geo _ T) as (G & Sm & _). destruct (typed_parts fs T) as (p' & Hp' & Fi). rewrite Hp in Hp'. injection Hp' as <-.
  assert (sg_freelist (md_pools p) = ps_freelist (fs_pools fs) /\ md_super p = fs_super fs) as [Efl Esu].
  { unfold md_of in Hp. destruct (tbl (ps_htbl (fs_pools fs))); [|done]. cbn in Hp. by injection Hp as <-. }
  destruct (fla_open_spec block dev (fs_geo fs) (flushed_md fs p) D G Sm) with (w := w1) (opts := opts) as (w2 & h' & err2 & -> & Hb & Ho);
    try done; [cbn; by rewrite Esu|cbn; by rewrite Efl|apply Fi|].
  do 3 eexists. done.
Qed.
(** The second handle agrees with the first one. *)
Lemma reopened_handle dev fs buf p hd : closing dev fs buf -> md_of fs = Some p -> opened dev (fs_geo fs) (flushed_md fs p) hd ->
  fs_geo (h_fs hd) = fs_geo fs /\ d_dev (fs_dev (h_fs hd)) = dev /\ dev_matches (h_fs hd) /\
  d_lb_nbytes (fs_dev (h_fs hd)) = g_lb_nbytes (fs_geo (h_fs hd)) /\
  forall (w : W) k, fla_base_pool_open w (h_fs hd) k = fla_base_pool_open w fs k.
Proof using.
  intros [_ _ Sz [? ? ? ?] [_ _ Hsl _ _] _ _] Hmd [(funcs & -> & _) _ _ _]. unfold md_of in Hmd.
  destruct (tbl (ps_htbl (fs_pools fs))) as [t|] eqn:Et; [|done]. cbn in Hmd. injection Hmd as <-.
  do 2 (split; [done|]). split; [by split|]. split; [done|]. intros w k. apply pool_open_ext; cbn; [by rewrite Et|done].
Qed.
End reopen.

Lemma ex_arg_typed : arg_typed (ex_arg 97 10).
Proof. split; [cbn; lia|unfold is_u32; cbn; lia|unfold is_u32; cbn; lia]. Qed.

(** ** Types *)

(** The metadata is well typed in every reachable state.  After formatting and
    opening, whatever sequence of pool creations and destructions, root object
    assignments and object creations, openings and destructions is run, and whatever
    those calls return, every field of the super block, the freelist, the hash table,
    the pool entries and the slab headers holds a value of its C type and the arrays
    have their sizes; hence the metadata can be stored in the buffer and is loaded
    back unchanged. *)
Theorem metadata_typed {W} `{E : XnvmeEnv W} `{A : XnvmeAdm W} block `{!XnvmeLaws W block} `{!XnvmeAdmLaws W block}
    dev pr w0 geo0 md_geo0 junk w1 w2 h w' fs' :
  mkfs_request dev pr -> fla_mkfs w0 pr geo0 md_geo0 junk = Some (w1, 0) ->
  fla_open w1 (mp_open_opts pr) = Some (w2, Some h, 0) -> rtc md_step (w2, h_fs h) (w', fs') ->
  typed fs' /\ exists p, md_of fs' = Some p /\
    forall buf, Z.of_nat (length buf) = fla_geo_nbytes (fs_geo fs') ->
      exists buf', md_store (fs_geo fs') (fslab_end (fs_geo fs')) p buf = Some buf' /\ md_load (fs_geo fs') buf' = Some p.
Proof.
  intros R Em Eo Hs. destruct (mkfs_open_typed block dev pr w0 geo0 md_geo0 junk w1 w2 h R Em Eo) as [T _].
  pose proof (steps_typed _ _ Hs T) as T'. cbn [snd] in T'. split; [done|].
  destruct (typed_parts fs' T') as (p & Hp & Hf). pose proof (ty_geo _ T') as (G & S & _). exists p. split; [done|].
  intros buf Hl. destruct (md_load_store (fs_geo fs') (fslab_end (fs_geo fs')) p buf G S Hf) as (buf' & ? & _ & ?); [by left|done|].
  by exists buf'.
Qed.

