(* ===== verification/Sync.v ===== *)
(** * Sync: synchronising an open system

    [fla_base_sync] writes the dirty freelists and the metadata while the system stays
    open.  The lemmas show that it leaves the store of a pool as it is: the freelists
    keep their contents, and no block of an object is written. *)
From S2P Require Import Prelude Util Freelist Hash XnvmeEnv Flexalloc PoolEntry Geometry CommandSet.
From S2P Require Import SlabList SlabCache Slab Pool Object Alloc ObjectIO DataPlacement Layout Format System Typed.
From S2P Require Import History Store Durability.

(** ** What flushing changes *)

(** An element keeps its freelist; a dirty one may be clean then. *)
Definition flushed_elem (el el' : fla_slab_flist_cache_elem) : Prop :=
  ce_freelist el' = ce_freelist el /\ (ce_state el' = FLA_SLAB_CACHE_ELEM_STALE <-> ce_state el = FLA_SLAB_CACHE_ELEM_STALE).

Record flushed (fs fs' : flexalloc) : Prop := {
  fl_geo : fs_geo fs' = fs_geo fs;
  fl_dev : fs_dev fs' = fs_dev fs;
  fl_super : fs_super fs' = fs_super fs;
  fl_cs : fs_cs fs' = fs_cs fs;
  fl_state : fs_state fs' = fs_state fs;
  fl_slabs : fs_slabs fs' = fs_slabs fs;
  fl_flist : ps_freelist (fs_pools fs') = ps_freelist (fs_pools fs);
  fl_htbl : ps_htbl (fs_pools fs') = ps_htbl (fs_pools fs);
  fl_hdr : ps_htbl_hdr (fs_pools fs') = ps_htbl_hdr (fs_pools fs) \/
    ps_htbl_hdr (fs_pools fs') = mk_htbl_hdr (hh_size (ps_htbl_hdr (fs_pools fs))) (len (ps_htbl (fs_pools fs)));
  fl_funcs : ps_entrie_funcs (fs_pools fs') = ps_entrie_funcs (fs_pools fs);
  fl_entries : ps_entries (fs_pools fs') = ps_entries (fs_pools fs);
  fl_cache : forall x, option_Forall2 flushed_elem (cache_elem fs x) (cache_elem fs' x)
}.

#[export] Instance flushed_elem_preorder : PreOrder flushed_elem.
Proof. split; [done|]. intros a b c [? ?] [? ?]. split; [congruence|]. tauto. Qed.

#[export] Instance flushed_preorder : PreOrder flushed.
Proof.
  split.
  - intros fs. split; try done. by left.
  - intros a b c [? ? ? ? ? ? ? Ht1 Hd1 ? ? ?] [? ? ? ? ? ? ? ? Hd2 ? ? ?]. split; try congruence; [|intros x; etrans; eauto].
    rewrite Ht1 in Hd2. destruct Hd1 as [E1|E1], Hd2 as [E2|E2]; rewrite E1 in E2; auto.
Qed.

Lemma flushed_set_elem fs id el el' : cache_elem fs id = Some el -> flushed_elem el el' -> flushed fs (set_cache_elem fs id el').
Proof.
  intros Hel He. split; try done; [by left|]. intros x. destruct (decide (x = id)) as [->|Hn].
  - rewrite Hel, (cache_elem_set fs id el el' Hel). by constructor.
  - rewrite cache_elem_set_ne by done. destruct (cache_elem fs x); by constructor.
Qed.

Section flush.
Context {W : Type} `{E : XnvmeEnv W}.

Lemma elem_flush_flushed w fs id w' fs' err : fla_slab_cache_elem_flush w fs id = Some (w', fs', err) -> flushed fs fs'.
Proof using.
  unfold fla_slab_cache_elem_flush. intros Hr. run_inv; try done.
  match goal with Hd : negb (bool_decide _) = false |- _ => apply negb_false_iff, bool_decide_eq_true in Hd; rename Hd into Hs end.
  eapply flushed_set_elem; [done|]. split; [done|]. by rewrite Hs.
Qed.

Lemma flush_loop_flushed k : forall w fs id err w' fs' err', cache_flush_loop k w fs id err = Some (w', fs', err') -> flushed fs fs'.
Proof using.
  induction k as [|k IH]; intros w fs id err w' fs' err' Hr; [by injection Hr as <- <- <-|]. cbn [cache_flush_loop] in Hr.
  apply bind_Some in Hr as ([[w1 fs1] e] & H1 & Hr). etrans; [by eapply elem_flush_flushed|by eapply IH].
Qed.

Lemma buf_put_length buf off bs buf' : buf_put buf off bs = Some buf' -> length buf' = length buf.
Proof using.
  unfold buf_put. intros Hp. destruct ((0 <=? off) && _) eqn:Hb; [|done]. apply andb_true_iff in Hb as [H0%Z.leb_le H1%Z.leb_le].
  injection Hp as <-. rewrite !length_app, length_take, length_drop. lia.
Qed.

Lemma arr_put_length {X} sz (f : list Z -> X -> list Z) buf off xs buf' : arr_put sz f buf off xs = Some buf' -> length buf' = length buf.
Proof using. unfold arr_put. intros (old & _ & Hp)%bind_Some. by eapply buf_put_length. Qed.

Lemma md_store_length geo fin p buf buf' : md_store geo fin p buf = Some buf' -> length buf' = length buf.
Proof using.
  unfold md_store. intros Hm.
  repeat (let H := fresh in apply bind_Some in Hm as (? & H & Hm); first [apply arr_put_length in H|apply buf_put_length in H]).
  apply buf_put_length in Hm. congruence.
Qed.

Lemma flush_flushed w h w' h' err : fla_flush w h = Some (w', h', err) ->
  flushed (h_fs h) (h_fs h') /\ h_dp h' = h_dp h /\ length (h_buf h') = length (h_buf h).
Proof using.
  unfold fla_flush, fla_slab_cache_flush. intros Hr. destruct (Z.land _ _ =? 0); [by injection Hr as _ <- _|].
  apply bind_Some in Hr as ([[w1 fs1] e] & H1 & Hr).
  assert (flushed (h_fs h) fs1) as F1.
  { destruct (fs_cache (h_fs h)); [by eapply flush_loop_flushed|by injection H1 as _ <- _]. }
  run_inv; try done; (split; [etrans; [exact F1|]; cbn; split; try done; by right|split; [done|by eapply md_store_length]]).
Qed.
End flush.

(** ** The store *)

Section store.
Context {W : Type} `{E : XnvmeEnv W} `{A : XnvmeAdm W}.
Context (block : W -> xnvme_dev -> Z -> list Z) `{!XnvmeLaws W block} `{!XnvmeAdmLaws W block}.

Lemma flushed_live fs fs' n o : flushed fs fs' -> live fs' n o <-> live fs n o.
Proof using.
  intros F. pose proof (fl_cache _ _ F (o_slab_id o)) as Hc. unfold live. split; intros (fl & st & He & Hs & Hr).
  - rewrite He in Hc. inversion Hc as [el ? [Hf Hst] E1|]; subst. destruct el as [fl0 st0]; cbn in Hf, Hst; subst.
    exists fl, st0. split; [done|]. split; [tauto|done].
  - rewrite He in Hc. inversion Hc as [? el [Hf Hst] E1|]; subst. destruct el as [fl0 st0]; cbn in Hf, Hst; subst.
    exists fl, st0. split; [done|]. split; [tauto|done].
Qed.

Lemma flushed_inv fs fs' e n free ls : alloc_inv fs e n free ls -> flushed fs fs' -> alloc_inv fs' e n free ls.
Proof using.
  intros [C H0 L0 F0 N0 K0 R0 Ca Cd Nu Ow] F. pose proof (fl_cache _ _ F) as Hc. destruct F as [G D Su Cs _ Sl _ _ _ Fu En _].
  split; try done.
  - destruct C as [? ? ?]. split; by rewrite ?G, ?D, ?Cs.
  - destruct H0 as [Hl Hr]. split; unfold headers in *; by rewrite ?Sl, ?G.
  - eapply lists_ok_frame; [exact L0|unfold pool_entry_at; by rewrite En|by rewrite Sl..|]. intros y h _ Hh. exists h. unfold headers in *. by rewrite Sl.
  - unfold entry_fnc_at in *. by rewrite Fu.
  - rewrite <- K0. apply calc_objs_frame; [exact G|by rewrite D].
  - intros x Hx. rewrite G in Hx. destruct (Ca x Hx) as [el Hel]. specialize (Hc x). rewrite Hel in Hc. inversion Hc; by eexists.
  - intros x el' Hel' Hs. specialize (Hc x). rewrite Hel' in Hc. inversion Hc as [el ? [_ Hst] Hel|]; subst. eapply Cd; [by symmetry|tauto].
  - by rewrite Sl, G.
  - intros l x Hx. destruct (Ow l x Hx) as (rc & [Hm (fl & st & Hel & Hs & Hr)] & Hl). exists rc. split; [|done].
    split; [unfold headers in *; by rewrite Sl|]. specialize (Hc x). rewrite Hel in Hc. inversion Hc as [? [fl' st'] [Hf Hst]|]; subst. cbn in Hf, Hst.
    subst fl'. exists fl, st'. split; [done|]. split; [tauto|]. by rewrite G.
Qed.

Lemma flushed_typed fs fs' : typed fs -> flushed fs fs' -> typed fs'.
Proof using.
  intros [Tg Ts Tp Tl] [G D Su Cs _ Sl Fl Ht Hd Fu En _]. split; rewrite ?G, ?Su, ?Sl; try done. destruct Tp as [P1 P2 P3 P4 P5 P6].
  split; rewrite ?Fl, ?Ht, ?En; try done. destruct Hd as [->| ->]; [done|]. split; [apply P3|]. apply P4.
Qed.

Lemma flushed_dev fs fs' : dev_matches fs -> flushed fs fs' -> dev_matches fs'.
Proof using. intros [? ? ? ?] [G D Su _ _ _ _ _ _ _ _ _]. split; by rewrite ?D, ?G, ?Su. Qed.

(** The system with its buffer and what a client holds of it. *)
Record filing (dev : xnvme_dev) (nlb n : Z) (w : W) (h : handle) (st : list cell) : Prop := {
  fi_closing : closing dev (h_fs h) (h_buf h);
  fi_dev : on_device dev (h_fs h);
  fi_dp : dp_installed (h_dp h);
  fi_store : store_inv block nlb n w (h_fs h) st;
  fi_lb : g_lb_nbytes (fs_geo (h_fs h)) mod 4 = 0
}.

(** Blocks of objects are behind the metadata and no blocks of a freelist. *)
Lemma sync_store dev nlb n w h st : filing dev nlb n w h st ->
  exists w' h' err, fla_base_sync w h = Some (w', h', err) /\ filing dev nlb n w' h' st /\ fs_geo (h_fs h') = fs_geo (h_fs h).
Proof using All.
  intros [CL Od Dp SI H4]. pose proof SI as [[(e & free & ls & I & He) [Nd Hlive]] DM L B].
  destruct (alloc_flushable _ _ _ _ _ I H4) as (q & Hq & Hfit & Hfl). destruct (ai_range _ _ _ _ _ I) as [Ho Hn].
  destruct CL as [T St Sz D Su Fl Bl].
  destruct (flush_spec block w h dev n q T (ai_cns _ _ _ _ _ I) Od D St Bl ltac:(lia) ltac:(nia) Hfl) as (w' & h' & err & p & Ef & Hmd & _ & Hfr).
  exists w', h', err. split; [done|]. destruct (flush_flushed w h w' h' err Ef) as (F & Hdp & Hbl).
  split; [|apply F]. split.
  - split; try (rewrite ?(fl_geo _ _ F), ?(fl_super _ _ F), ?(fl_flist _ _ F), ?(fl_state _ _ F); done).
    + by apply (flushed_typed (h_fs h)).
    + rewrite (fl_htbl _ _ F). destruct (fl_hdr _ _ F) as [->| ->]; done.
    + by rewrite Hbl, (fl_geo _ _ F).
  - destruct Od as [Od Om Ol]. split; rewrite ?(fl_dev _ _ F), ?(fl_geo _ _ F); try done. by eapply flushed_dev.
  - by rewrite Hdp.
  - split; [|by eapply flushed_dev|by rewrite (fl_dev _ _ F), (fl_geo _ _ F)|].
    + split; [exists e, free, ls; split; [by eapply flushed_inv|done]|]. split; [done|]. intros o. rewrite (flushed_live (h_fs h)) by done. apply Hlive.
    + intros c Hc. replace (obj_bytes block (h_fs h') nlb c.1 w') with (obj_bytes block (h_fs h) nlb c.1 w); [by apply B|].
      unfold obj_bytes, obj_start. rewrite (fl_dev _ _ F), (fl_geo _ _ F). apply concat_blocks_ext. intros lba Hl. symmetry. rewrite (od_dev _ _ Od).
      assert (live (h_fs h) n c.1) as Hlo by (apply Hlive, list_elem_of_fmap; by exists c).
      destruct (placed_no_flist (h_fs h) e n c.1 q lba (live_placed _ _ _ _ _ _ I Hlo) Hq Hfit) as [Hm Hno];
        [rewrite He; unfold obj_start; lia|]. apply Hfr; [done|]. intros x Hx _. by apply Hno.
  - by rewrite (fl_geo _ _ F).
Qed.
End store.

(** ** Operations of a client between synchronisations *)

Section client.
Context {W : Type} `{E : XnvmeEnv W} `{A : XnvmeAdm W}.
Context (block : W -> xnvme_dev -> Z -> list Z) `{!XnvmeLaws W block} `{!XnvmeAdmLaws W block}.

Lemma closing_frame dev fs fs' buf : closing dev fs buf -> typed fs' -> obj_frame fs fs' -> closing dev fs' buf.
Proof using. intros [T St Sz D Su Fl Bl] T' [Fg _ Fs _ Ft Ff Fh Fd _ _]. by split; rewrite ?Fg, ?Ft, ?Fh, ?Fd, ?Fs, ?Ff. Qed.

Lemma obj_frame_refl fs : obj_frame fs fs.
Proof using. by split. Qed.

Lemma filing_step dev nlb n w h st pool op : p_ndx pool = 0 -> filing block dev nlb n w h st -> op_ok (size_of (h_fs h) nlb) op ->
  exists w' fs' st', store_step (Dp := placed h) (size_of (h_fs h) nlb) pool op w (h_fs h) st = Some (w', fs', st') /\
    filing block dev nlb n w' (mk_handle fs' (h_dp h) (h_buf h)) st' /\ fs_geo fs' = fs_geo (h_fs h).
Proof using All.
  intros Hp [CL Od Hdp SI H4] Hop. pose proof (placed_laws block h Hdp) as Hpl.
  destruct (store_step_ok (Dp := placed h) block nlb n w (h_fs h) st pool op Hp SI Hop) as (w' & fs' & st' & Es & SI' & Sst & _).
  exists w', fs', st'. split; [done|]. split; [|apply Sst].
  destruct (store_run_frame (Dp := placed h) (size_of (h_fs h) nlb) pool [op] w (h_fs h) st w' fs' st') as [T' F];
    [cbn [store_run]; by rewrite Es|apply CL|]. specialize (F _ (obj_frame_refl _)).
  split; cbn [h_fs h_dp h_buf]; try done.
  - by eapply closing_frame.
  - destruct Od as [? ? ?]. destruct (static_dev (h_fs h) fs' Sst) as [D' L']; [done..|]. split; [by rewrite (st_dev _ _ Sst)|done|done].
  - by rewrite (st_geo _ _ Sst).
Qed.

Lemma session_filing dev pr U arg w h fs pool : session dev pr U arg w h fs pool -> arg_typed arg -> dev_lba dev mod 4 = 0 ->
  exists n, filing block dev (a_obj_nlb arg) n w (mk_handle fs (h_dp h) (h_buf h)) [] /\ p_ndx pool = 0.
Proof using All.
  intros Se Ha H4. destruct (store_start block dev pr U arg w h fs pool Se) as (Hp & Hdp & n & SI).
  destruct (session_closable block dev pr U arg w h fs pool Se Ha) as ([CL _] & Od & _). exists n. split; [|done]. split; try done.
  cbn [h_fs]. by rewrite <- (df_lba _ _ (cl_dev _ _ _ CL)).
Qed.
End client.
