(* ===== verification/FioFiles.v ===== *)
(** * FioFiles: the files of a thread of the fio engine

    The part of [src/fio-ioengine/flexalloc.c] that runs while a thread is at work: fio
    opens and closes the files of the job and queues reads, writes and
    synchronisations of them.  A file is an object of the thread's pool: it is
    created when the file is opened for the first time. *)
From S2P Require Import Prelude Util Freelist Hash XnvmeEnv Flexalloc PoolEntry Geometry CommandSet.
From S2P Require Import SlabList SlabCache Slab Pool Object Alloc ObjectIO DataPlacement Layout Format System Typed.
From S2P Require Import History Store FioEngine Durability Sync.

(** ** Operations *)

(** What the engine reads and writes of [struct fio_file] and [struct io_u]. *)
Record fio_file := mk_file { f_fileno : Z; f_engine_pos : Z; f_real_file_size : Z; f_size_known : bool }.
Inductive fio_ddir := DDIR_READ | DDIR_WRITE | DDIR_SYNC | DDIR_DATASYNC | DDIR_SYNC_FILE_RANGE | DDIR_TRIM.
Record io_u := mk_io_u { io_ddir : fio_ddir; io_fileno : Z; io_offset : Z; io_xfer_buf : list Z; io_xfer_buflen : Z; io_error : Z }.

Section files.
Context {W : Type} `{E : XnvmeEnv W} `{A : XnvmeAdm W}.

(** [fad->fs] is the handle [h].  The result has [io_u->error] and the buffer. *)
Definition fio_flexalloc_queue (w : W) (h : handle) (fad : flexalloc_data) (io : io_u) : option (W * handle * io_u) :=
  '(w, h, buf, error, ret) ←
    match io_ddir io with
    | DDIR_READ =>
        pool ← fd_pool fad; obj ← lookupZ (fd_object fad) (io_fileno io);
        '(w, err, buf) ← fla_object_read w (h_fs h) pool obj (io_xfer_buf io) (io_offset io) (io_xfer_buflen io);
        Some (w, h, buf, 0, err)
    | DDIR_WRITE =>
        pool ← fd_pool fad; obj ← lookupZ (fd_object fad) (io_fileno io);
        '(w, err) ← fla_object_write (H0 := placed h) w (h_fs h) pool obj (io_xfer_buf io) (io_offset io) (io_xfer_buflen io);
        Some (w, h, io_xfer_buf io, 0, err)
    | DDIR_SYNC | DDIR_DATASYNC | DDIR_SYNC_FILE_RANGE =>
        '(w, h, err) ← fla_base_sync w h; Some (w, h, io_xfer_buf io, 0, err)
    | DDIR_TRIM => Some (w, h, io_xfer_buf io, EINVAL, 0)
    end;
  Some (w, h, mk_io_u (io_ddir io) (io_fileno io) (io_offset io) buf (io_xfer_buflen io)
                (if negb (ret =? 0) then EIO else error)).

(** The number of files is [nr_files]. *)
Definition fio_flexalloc_object_open (nr_files : Z) (w : W) (h : handle) (fad : flexalloc_data) (f : fio_file) :
    option (W * handle * flexalloc_data * fio_file * Z) :=
  if negb (f_fileno f <? nr_files) then None
  else
    pool ← fd_pool fad;
    if negb (f_engine_pos f =? 0) then
      obj ← lookupZ (fd_object fad) (f_fileno f);
      '(w, fs, ret) ← fla_base_object_open w (h_fs h) pool obj;
      Some (w, mk_handle fs (h_dp h) (h_buf h), fad, f, ret)
    else
      '(w, fs, obj, ret) ← fla_base_object_create w (h_fs h) pool;
      let h := mk_handle fs (h_dp h) (h_buf h) in
      let fad := match obj with
                 | Some o => mk_fad (fd_fs fad) (fd_pool fad) (insertZ (f_fileno f) o (fd_object fad))
                 | None => fad
                 end in
      let f := if ret =? 0 then mk_file (f_fileno f) 1 (f_real_file_size f) (f_size_known f) else f in
      Some (w, h, fad, f, ret).

Definition fio_flexalloc_object_close (f : fio_file) : Z := 0.

Definition fio_flexalloc_get_file_size (file_size_low : Z) (f : fio_file) : fio_file * Z :=
  if f_size_known f then (f, 0) else (mk_file (f_fileno f) (f_engine_pos f) file_size_low true, 0).

(** ** A thread at work *)

Record job := mk_job { jb_world : W; jb_handle : handle; jb_fad : flexalloc_data; jb_files : list fio_file }.

(** What fio does with the files, by their numbers.  It queues transfers only for
    files that were opened. *)
Inductive file_op :=
  | FOpen (i : nat)
  | FClose (i : nat)
  | FSize (i : nat)
  | FQueue (i : nat) (ddir : fio_ddir) (offset : Z) (buf : list Z).

(** The result is the error and the buffer of the transfer. *)
Definition job_step (nr_files file_size_low : Z) (op : file_op) (j : job) : option (job * (Z * list Z)) :=
  match op with
  | FOpen i =>
      f ← jb_files j !! i;
      '(w, h, fad, f, ret) ← fio_flexalloc_object_open nr_files (jb_world j) (jb_handle j) (jb_fad j) f;
      Some (mk_job w h fad (<[i := f]> (jb_files j)), (ret, []))
  | FClose i => f ← jb_files j !! i; Some (j, (fio_flexalloc_object_close f, []))
  | FSize i =>
      f ← jb_files j !! i;
      let '(f, ret) := fio_flexalloc_get_file_size file_size_low f in
      Some (mk_job (jb_world j) (jb_handle j) (jb_fad j) (<[i := f]> (jb_files j)), (ret, []))
  | FQueue i ddir offset buf =>
      f ← jb_files j !! i;
      if f_engine_pos f =? 0 then Some (j, (EINVAL, buf))
      else
        '(w, h, io) ← fio_flexalloc_queue (jb_world j) (jb_handle j) (jb_fad j)
                        (mk_io_u ddir (f_fileno f) offset buf (Z.of_nat (length buf)) 0);
        Some (mk_job w h (jb_fad j) (jb_files j), (io_error io, io_xfer_buf io))
  end.

Fixpoint job_run (nr_files file_size_low : Z) (ops : list file_op) (j : job) : option (job * list (Z * list Z)) :=
  match ops with
  | [] => Some (j, [])
  | op :: ops =>
      '(j, r) ← job_step nr_files file_size_low op j;
      '(j, rs) ← job_run nr_files file_size_low ops j;
      Some (j, r :: rs)
  end.
End files.
Arguments job : clear implicits.

(** ** The files as contents *)

(** What is known of the contents of each file, [None] for a file that was never opened. *)
Notation view := (list (option (list (option Z)))).

Definition view_step (size : Z) (op : file_op) (r : Z * list Z) (v : view) : view :=
  match op with
  | FOpen i => if r.1 =? 0 then alter (fun c => Some (default (replicate (Z.to_nat size) None) c)) i v else v
  | FQueue i DDIR_WRITE offset buf =>
      alter (fmap (fun c => if r.1 =? 0 then splice c (Z.to_nat offset) (Some <$> buf) else replicate (Z.to_nat size) None)) i v
  | _ => v
  end.

(** A read that succeeds gives what is known. *)
Definition read_ok (op : file_op) (r : Z * list Z) (v : view) : Prop :=
  match op with
  | FQueue i DDIR_READ offset buf => r.1 = 0 ->
      exists c, v !! i = Some (Some c) /\ contents_ok (take (length buf) (drop (Z.to_nat offset) c)) (take (length buf) r.2)
  | _ => True
  end.

Fixpoint conforms (size : Z) (ops : list file_op) (rs : list (Z * list Z)) (v : view) : Prop :=
  match ops, rs with
  | [], [] => True
  | op :: ops, r :: rs => read_ok op r v /\ conforms size ops rs (view_step size op r v)
  | _, _ => False
  end.

(** The requests fio makes of a job with [nr] files: transfers have a length, and their
    end does not wrap around. *)
Definition file_op_ok (nr : nat) (op : file_op) : Prop :=
  match op with
  | FOpen i | FClose i | FSize i => (i < nr)%nat
  | FQueue i _ offset buf => (i < nr)%nat /\ 0 <= offset /\ buf <> [] /\ offset + Z.of_nat (length buf) < 2 ^ 63
  end.

Section work.
Context {W : Type} `{E : XnvmeEnv W} `{A : XnvmeAdm W}.
Context (block : W -> xnvme_dev -> Z -> list Z) `{!XnvmeLaws W block} `{!XnvmeAdmLaws W block}.
Context (dev : xnvme_dev) (nlb n : Z) (pool : fla_pool) (Hp : p_ndx pool = 0).

Lemma alter_insert {X} (f : X -> X) (l : list X) i x : l !! i = Some x -> alter f i l = <[i := f x]> l.
Proof using.
  intros Hi. apply list_eq. intros k. destruct (decide (i = k)) as [<-|Hn].
  - rewrite list_lookup_alter_eq, Hi, list_lookup_insert_eq; [done|by eapply lookup_lt_Some].
  - by rewrite list_lookup_alter_ne, list_lookup_insert_ne by done.
Qed.

(** A file that was opened has an object of the store with these contents. *)
Definition file_at (st : list cell) (objs : list fla_object) (i : nat) (f : fio_file) (c : option (list (option Z))) : Prop :=
  f_fileno f = Z.of_nat i /\
  match c with
  | Some c => f_engine_pos f <> 0 /\ exists o k, objs !! i = Some o /\ st !! k = Some (o, c)
  | None => f_engine_pos f = 0
  end.

Record at_work (j : job W) (st : list cell) (v : view) : Prop := {
  aw_filing : filing block dev nlb n (jb_world j) (jb_handle j) st;
  aw_pool : fd_pool (jb_fad j) = Some pool;
  aw_objects : length (fd_object (jb_fad j)) = length (jb_files j);
  aw_view : length v = length (jb_files j);
  aw_files : forall i f c, jb_files j !! i = Some f -> v !! i = Some c -> file_at st (fd_object (jb_fad j)) i f c;
  aw_apart : forall i k o c c', v !! i = Some (Some c) -> v !! k = Some (Some c') ->
    fd_object (jb_fad j) !! i = Some o -> fd_object (jb_fad j) !! k = Some o -> i = k
}.

(** Only the handle and the world change. *)
Lemma at_work_handle j st v w h : at_work j st v -> filing block dev nlb n w h st ->
  at_work (mk_job w h (jb_fad j) (jb_files j)) st v.
Proof using. intros [F P O V Fi Ap] F'. by split. Qed.

(** A file's record changes only where it does not matter. *)
Lemma at_work_file j st v i f f' : at_work j st v -> jb_files j !! i = Some f -> f_fileno f' = f_fileno f -> f_engine_pos f' = f_engine_pos f ->
  at_work (mk_job (jb_world j) (jb_handle j) (jb_fad j) (<[i := f']> (jb_files j))) st v.
Proof using.
  intros [F P O V Fi Ap] Hi Hn He. split; cbn [jb_world jb_handle jb_fad jb_files]; rewrite ?length_insert; try done.
  intros k g c Hk Hc. destruct (decide (i = k)) as [<-|Hne].
  - rewrite list_lookup_insert_eq in Hk by (by eapply lookup_lt_Some). injection Hk as <-.
    pose proof (Fi i f c Hi Hc) as Hf. unfold file_at in *. by rewrite Hn, He.
  - rewrite list_lookup_insert_ne in Hk by done. by apply Fi.
Qed.

Lemma filing_blocks w w' h st : filing block dev nlb n w h st -> (forall d lba, block w' d lba = block w d lba) ->
  filing block dev nlb n w' h st.
Proof using XnvmeLaws0.
  intros [CL Od Dp SI H4] Hb. split; try done. eapply client_keeps; [done|exact SI|apply same_static_refl|done|apply SI|by left].
Qed.

(** Opening a file for the first time creates its object; later it is found again. *)
Lemma reopen_step j st v i f c k o : at_work j st v -> jb_files j !! i = Some f -> v !! i = Some (Some c) -> f_engine_pos f <> 0 ->
  fd_object (jb_fad j) !! i = Some o -> st !! k = Some (o, c) -> (i < length (jb_files j))%nat ->
  exists w h ret, fio_flexalloc_object_open (Z.of_nat (length (jb_files j))) (jb_world j) (jb_handle j) (jb_fad j) f =
      Some (w, h, jb_fad j, f, ret) /\ filing block dev nlb n w h st /\ fs_geo (h_fs h) = fs_geo (h_fs (jb_handle j)).
Proof using All.
  intros Aw Hi Hv He Ho Hk Hlt. destruct (aw_files _ _ _ Aw i f _ Hi Hv) as [Hn _]. unfold fio_flexalloc_object_open.
  rewrite Hn, (proj2 (Z.ltb_lt _ _)), (aw_pool _ _ _ Aw) by lia. cbn [negb mbind option_bind]. rewrite (proj2 (Z.eqb_neq _ 0)) by done. cbn [negb].
  rewrite lookupZ_nat, Ho. cbn [mbind option_bind].
  destruct (filing_step block dev nlb n (jb_world j) (jb_handle j) st pool (StOpen k) Hp (aw_filing _ _ _ Aw) I) as (w & fs & st' & Es & F & G).
  cbn [store_step] in Es. rewrite Hk in Es. cbn [fst] in Es.
  destruct (fla_base_object_open (jb_world j) (h_fs (jb_handle j)) pool o) as [[[w1 fs1] ret]|]; [|done]. cbn [mbind option_bind] in *.
  apply Some3_inj in Es as (-> & -> & ->). by exists w, (mk_handle fs (h_dp (jb_handle j)) (h_buf (jb_handle j))), ret.
Qed.

(** The slot of a file that was not opened does not matter. *)
Lemma at_work_slot j st v i o w h : at_work j st v -> v !! i = Some None -> filing block dev nlb n w h st ->
  at_work (mk_job w h (mk_fad (fd_fs (jb_fad j)) (Some pool) (<[i := o]> (fd_object (jb_fad j)))) (jb_files j)) st v.
Proof using.
  intros [F P O V Fi Ap] Hi F'. split; cbn [jb_world jb_handle jb_fad jb_files fd_pool fd_object]; rewrite ?length_insert; try done.
  - intros k f c Hk Hc. destruct (Fi k f c Hk Hc) as [Hn Hr]. split; [done|]. destruct c as [c|]; [|done].
    destruct Hr as (He & o' & k' & Ho & Hs). split; [done|]. exists o', k'. rewrite list_lookup_insert_ne; [done|]. intros ->. congruence.
  - intros k k' o' c c' Hk Hk'. rewrite !list_lookup_insert_ne by (intros ->; congruence). by apply Ap with c c'.
Qed.

(** The object of a file that is opened for the first time is new. *)
Lemma at_work_create j st v i f o c w h : at_work j st v -> jb_files j !! i = Some f -> v !! i = Some None ->
  fd_object (jb_fad j) !! i = Some o -> filing block dev nlb n w h (st ++ [(o, c)]) ->
  at_work (mk_job w h (jb_fad j) (<[i := mk_file (f_fileno f) 1 (f_real_file_size f) (f_size_known f)]> (jb_files j))) (st ++ [(o, c)])
    (<[i := Some c]> v).
Proof using.
  intros [F P O V Fi Ap] Hi Hv Ho F'. pose proof (fi_store _ _ _ _ _ _ _ F') as [(_ & Nd & _) _ _ _].
  rewrite fmap_app, NoDup_app in Nd. destruct Nd as (_ & Nd & _).
  assert (forall k c', v !! k = Some (Some c') -> fd_object (jb_fad j) !! k <> Some o) as Hnew.
  { intros k c' Hk Hko. assert (k < length (jb_files j))%nat as [g Hg]%lookup_lt_is_Some by (rewrite <- V; by eapply lookup_lt_Some).
    destruct (Fi k g _ Hg Hk) as (_ & _ & o' & k' & Ho' & Hs). rewrite Hko in Ho'. injection Ho' as <-.
    apply (Nd o); [|by left]. eapply list_elem_of_lookup_2. rewrite list_lookup_fmap, Hs. done. }
  assert (i < length v)%nat as Hlt by (by eapply lookup_lt_Some).
  split; cbn [jb_world jb_handle jb_fad jb_files]; rewrite ?length_insert; try done.
  - intros k g c' Hk Hc. destruct (decide (i = k)) as [<-|Hne].
    + rewrite list_lookup_insert_eq in Hk by (by eapply lookup_lt_Some). rewrite list_lookup_insert_eq in Hc by lia. injection Hk as <-. injection Hc as <-.
      destruct (Fi i f _ Hi Hv) as [Hn _]. split; [done|]. split; [done|]. exists o, (length st). split; [done|].
      by rewrite lookup_app_r, Nat.sub_diag by lia.
    + rewrite list_lookup_insert_ne in Hk by done. rewrite list_lookup_insert_ne in Hc by done. destruct (Fi k g c' Hk Hc) as [Hn Hr]. split; [done|].
      destruct c' as [c'|]; [|done]. destruct Hr as (He & o' & k' & Ho' & Hs). split; [done|]. exists o', k'. split; [done|].
      by apply lookup_app_l_Some.
  - intros k k' o' c1 c2 Hk Hk' Ho1 Ho2. destruct (decide (i = k)) as [<-|Hne], (decide (i = k')) as [<-|Hne']; try done.
    + rewrite list_lookup_insert_ne in Hk' by done. exfalso. apply (Hnew k' c2 Hk'). congruence.
    + rewrite list_lookup_insert_ne in Hk by done. exfalso. apply (Hnew k c1 Hk). congruence.
    + rewrite list_lookup_insert_ne in Hk by done. rewrite list_lookup_insert_ne in Hk' by done. by eapply Ap.
Qed.

Lemma create_step j st v i f : at_work j st v -> jb_files j !! i = Some f -> v !! i = Some None -> (i < length (jb_files j))%nat ->
  let size := size_of (h_fs (jb_handle j)) nlb in
  exists w h fad f' ret st', fio_flexalloc_object_open (Z.of_nat (length (jb_files j))) (jb_world j) (jb_handle j) (jb_fad j) f =
      Some (w, h, fad, f', ret) /\ fs_geo (h_fs h) = fs_geo (h_fs (jb_handle j)) /\
    at_work (mk_job w h fad (<[i := f']> (jb_files j))) st' (view_step size (FOpen i) (ret, []) v).
Proof using All.
  intros Aw Hi Hv Hlt size. destruct (aw_files _ _ _ Aw i f _ Hi Hv) as [Hn He]. unfold fio_flexalloc_object_open.
  rewrite Hn, (proj2 (Z.ltb_lt _ _)), (aw_pool _ _ _ Aw) by lia. cbn [negb mbind option_bind]. rewrite He. cbn [Z.eqb negb].
  destruct (filing_step block dev nlb n (jb_world j) (jb_handle j) st pool StCreate Hp (aw_filing _ _ _ Aw) I) as (w & fs & st' & Es & F & G).
  cbn [store_step] in Es. destruct (fla_base_object_create (jb_world j) (h_fs (jb_handle j)) pool) as [[[[w1 fs1] obj] ret]|]; [|done].
  cbn [mbind option_bind] in *. do 5 eexists. exists st'. split; [reflexivity|]. cbn [h_fs]. unfold view_step. cbn [fst].
  destruct (Z.eqb_spec ret 0) as [Hz|Hr].
  - destruct obj as [o|]; [|done]. cbn [mbind option_bind] in Es. apply Some3_inj in Es as (-> & -> & <-). split; [done|].
    rewrite insertZ_nat, (alter_insert _ _ _ _ Hv). cbn [default from_option]. fold size in F. rewrite <- Hn.
    pose proof (at_work_slot j st v i o _ _ Aw Hv (aw_filing _ _ _ Aw)) as Aw1.
    apply (at_work_create _ st v i f o _ w _ Aw1); try done. cbn. apply list_lookup_insert_eq. by rewrite (aw_objects _ _ _ Aw).
  - apply Some3_inj in Es as (-> & -> & <-). split; [done|]. rewrite list_insert_id by done.
    destruct obj as [o|]; [rewrite insertZ_nat; by apply at_work_slot|by apply at_work_handle].
Qed.

(** Writing a file changes what is known of it and of no other. *)
Lemma at_work_write j st v i k o c c' w h : at_work j st v -> v !! i = Some (Some c) -> fd_object (jb_fad j) !! i = Some o ->
  st !! k = Some (o, c) -> filing block dev nlb n w h (<[k := (o, c')]> st) ->
  at_work (mk_job w h (jb_fad j) (jb_files j)) (<[k := (o, c')]> st) (<[i := Some c']> v).
Proof using.
  intros [F P O V Fi Ap] Hv Ho Hk F'. pose proof (lookup_lt_Some _ _ _ Hk) as Hlk. pose proof (lookup_lt_Some _ _ _ Hv) as Hlv.
  split; cbn [jb_world jb_handle jb_fad jb_files]; rewrite ?length_insert; try done.
  - intros m g d Hm Hd. destruct (decide (i = m)) as [<-|Hne].
    + rewrite list_lookup_insert_eq in Hd by done. injection Hd as <-. destruct (Fi i g _ Hm Hv) as (Hn & He & _). split; [done|].
      split; [done|]. exists o, k. split; [done|]. by apply list_lookup_insert_eq.
    + rewrite list_lookup_insert_ne in Hd by done. destruct (Fi m g d Hm Hd) as [Hn Hr]. split; [done|]. destruct d as [d|]; [|done].
      destruct Hr as (He & o' & k' & Ho' & Hs). split; [done|]. exists o', k'. split; [done|]. rewrite list_lookup_insert_ne; [done|].
      intros <-. rewrite Hk in Hs. injection Hs as <- <-. apply Hne. by apply (Ap i m o c c).
  - assert (forall m d, <[i := Some c']> v !! m = Some (Some d) -> exists d0, v !! m = Some (Some d0)) as Hold.
    { intros m d Hm. destruct (decide (i = m)) as [<-|Hne]; [by exists c|]. rewrite list_lookup_insert_ne in Hm by done. by exists d. }
    intros m m' o' d d' [d0 Hm]%Hold [d1 Hm']%Hold. by apply Ap with d0 d1.
Qed.

Lemma queue_step j st v i f c ddir off buf : at_work j st v -> jb_files j !! i = Some f -> v !! i = Some (Some c) ->
  file_op_ok (length (jb_files j)) (FQueue i ddir off buf) ->
  let size := size_of (h_fs (jb_handle j)) nlb in
  exists w h io st', fio_flexalloc_queue (jb_world j) (jb_handle j) (jb_fad j) (mk_io_u ddir (f_fileno f) off buf (Z.of_nat (length buf)) 0) =
      Some (w, h, io) /\ fs_geo (h_fs h) = fs_geo (h_fs (jb_handle j)) /\
    read_ok (FQueue i ddir off buf) (io_error io, io_xfer_buf io) v /\
    at_work (mk_job w h (jb_fad j) (jb_files j)) st' (view_step size (FQueue i ddir off buf) (io_error io, io_xfer_buf io) v).
Proof using All.
  intros Aw Hi Hv (Hlt & Hoff & Hbuf & Hov) size. destruct (aw_files _ _ _ Aw i f _ Hi Hv) as (Hn & He & o & k & Ho & Hk).
  assert (0 < length buf)%nat as Hlen by (destruct buf; [done|cbn; lia]).
  unfold fio_flexalloc_queue. cbn [io_ddir io_fileno io_offset io_xfer_buf io_xfer_buflen]. rewrite Hn, (aw_pool _ _ _ Aw). cbn [mbind option_bind].
  rewrite lookupZ_nat, Ho. cbn [mbind option_bind]. pose proof (aw_filing _ _ _ Aw) as F.
  assert (forall err, (if negb (err =? 0) then EIO else 0) = 0 -> err = 0) as Herr by (intros err; by destruct (Z.eqb_spec err 0)).
  destruct (sync_store block dev nlb n _ _ st F) as (ws & hs & errs & Esync & Fsync & Gsync).
  destruct ddir; try (rewrite Esync; do 3 eexists; exists st; split; [reflexivity|]; split; [done|]; split; [done|]; by apply at_work_handle).
  - destruct (store_reads block nlb n _ _ st pool Hp (fi_store _ _ _ _ _ _ _ F) k o c off (Z.of_nat (length buf)) buf Hk)
      as (w & err & data & -> & Hb & Hd); [lia..|]. cbn [mbind option_bind]. do 3 eexists. exists st. split; [reflexivity|]. split; [done|]. split.
    + cbn [read_ok fst snd io_xfer_buf io_error]. intros H0%Herr. exists c. split; [done|]. specialize (Hd H0). by rewrite Nat2Z.id in Hd.
    + apply at_work_handle; [done|]. by eapply filing_blocks.
  - destruct (filing_step block dev nlb n _ _ st pool (StWrite k off buf) Hp F (conj Hoff (conj Hbuf Hov))) as (w & fs & st' & Es & F' & G).
    cbn [store_step] in Es. rewrite Hk in Es. cbn [fst] in Es.
    destruct (fla_object_write (H0 := placed (jb_handle j)) (jb_world j) _ pool o buf off _) as [[w1 err]|] eqn:Ew; [|done].
    cbn [mbind option_bind] in *. apply Some3_inj in Es as (-> & <- & <-). do 4 eexists. split; [reflexivity|]. split; [done|]. split; [done|].
    cbn [view_step fst io_error]. rewrite (alter_insert _ _ _ _ Hv). cbn [fmap option_fmap option_map].
    unfold written in F'. cbn [fst snd] in F'. replace ((if negb (err =? 0) then EIO else 0) =? 0) with (err =? 0) by (by destruct (err =? 0)).
    eapply at_work_write; try done. by destruct (jb_handle j).
  - do 3 eexists. exists st. split; [reflexivity|]. split; [done|]. split; [done|]. by apply at_work_handle.
Qed.

Lemma job_step_ok low j st v op : at_work j st v -> file_op_ok (length (jb_files j)) op ->
  exists j' r st', job_step (Z.of_nat (length (jb_files j))) low op j = Some (j', r) /\ read_ok op r v /\
    at_work j' st' (view_step (size_of (h_fs (jb_handle j)) nlb) op r v) /\
    fs_geo (h_fs (jb_handle j')) = fs_geo (h_fs (jb_handle j)) /\ length (jb_files j') = length (jb_files j).
Proof using All.
  intros Aw Hop.
  assert (forall i, (i < length (jb_files j))%nat -> exists f c, jb_files j !! i = Some f /\ v !! i = Some c) as Hget.
  { intros i Hi. pose proof Hi as [f Hf]%lookup_lt_is_Some. rewrite <- (aw_view _ _ _ Aw) in Hi. apply lookup_lt_is_Some in Hi as [c Hc]. by exists f, c. }
  destruct op as [i|i|i|i ddir off buf]; [| | |pose proof Hop as (Hlt & _)]; cbn [job_step].
  - destruct (Hget i Hop) as (f & [c|] & Hf & Hc); rewrite Hf; cbn [mbind option_bind].
    + destruct (aw_files _ _ _ Aw i f _ Hf Hc) as (_ & He & o & k & Ho & Hk).
      destruct (reopen_step j st v i f c k o Aw Hf Hc He Ho Hk Hop) as (w & h & ret & -> & F & G). cbn [mbind option_bind].
      do 2 eexists. exists st. split; [reflexivity|]. split; [done|]. rewrite list_insert_id by done. split; [|done].
      unfold view_step. destruct (_ =? 0); [|by apply at_work_handle]. rewrite (alter_insert _ _ _ _ Hc). cbn [default from_option id].
      rewrite list_insert_id by done. by apply at_work_handle.
    + destruct (create_step j st v i f Aw Hf Hc Hop) as (w & h & fad & f' & ret & st' & -> & G & Aw'). cbn [mbind option_bind].
      do 2 eexists. exists st'. split; [reflexivity|]. split; [done|]. split; [done|]. split; [done|]. cbn [jb_files]. by rewrite length_insert.
  - destruct (Hget i Hop) as (f & c & Hf & Hc). rewrite Hf. cbn [mbind option_bind]. do 2 eexists. exists st. done.
  - destruct (Hget i Hop) as (f & c & Hf & Hc). rewrite Hf. cbn [mbind option_bind].
    destruct (fio_flexalloc_get_file_size low f) as [f' ret] eqn:Ef. do 2 eexists. exists st. split; [reflexivity|]. split; [done|].
    cbn [view_step jb_handle jb_files]. rewrite length_insert. split; [|done].
    apply (at_work_file j st v i f f'); try done; unfold fio_flexalloc_get_file_size in Ef; destruct (f_size_known f); by injection Ef as <- _.
  - destruct (Hget i Hlt) as (f & [c|] & Hf & Hc); rewrite Hf; cbn [mbind option_bind].
    + destruct (aw_files _ _ _ Aw i f _ Hf Hc) as (_ & He & _). rewrite (proj2 (Z.eqb_neq _ 0)) by done.
      destruct (queue_step j st v i f c ddir off buf Aw Hf Hc Hop) as (w & h & io & st' & -> & G & Hr & Aw'). cbn [mbind option_bind].
      do 2 eexists. exists st'. split; [reflexivity|]. split; [exact Hr|]. done.
    + destruct (aw_files _ _ _ Aw i f _ Hf Hc) as (_ & He). rewrite He. cbn [Z.eqb]. do 2 eexists. exists st. split; [reflexivity|].
      split; [by destruct ddir|]. split; [|done]. destruct ddir; try done. cbn [view_step]. rewrite (alter_insert _ _ _ _ Hc). cbn.
      by rewrite list_insert_id.
Qed.

Lemma job_run_ok low ops : forall j st v, at_work j st v -> Forall (file_op_ok (length (jb_files j))) ops ->
  exists j' rs st' v', job_run (Z.of_nat (length (jb_files j))) low ops j = Some (j', rs) /\
    conforms (size_of (h_fs (jb_handle j)) nlb) ops rs v /\ at_work j' st' v'.
Proof using All.
  induction ops as [|op ops IH]; intros j st v Aw Hops; [by exists j, [], st, v|]. apply Forall_cons in Hops as [Hop Hops].
  destruct (job_step_ok low j st v op Aw Hop) as (j1 & r & st1 & Es & Hr & Aw1 & G & Hl). rewrite <- Hl in Hops.
  destruct (IH j1 st1 _ Aw1 Hops) as (j2 & rs & st2 & v2 & Er & Hc & Aw2). exists j2, (r :: rs), st2, v2.
  cbn [job_run conforms]. rewrite Es. cbn [mbind option_bind]. rewrite Hl in Er. rewrite Er. split; [done|]. split; [|done]. split; [done|].
  unfold size_of in *. by rewrite G in Hc.
Qed.
End work.

(** A thread that has its handle and its pool and has opened no file. *)
Definition new_job {W} (w : W) (h : handle) (x : Z) (pool : fla_pool) (nr : nat) : job W :=
  mk_job w h (mk_fad (Some x) (Some pool) (replicate nr (mk_obj 0 0))) (imap (fun i _ => mk_file (Z.of_nat i) 0 0 false) (replicate nr tt)).

(** C20: The files of a job behave like files.  On a device that was formatted and opened, with a
    pool of the thread, fio opens, closes and sizes the thread's files and queues reads, writes,
    synchronisations and other requests of them in any order.  Every request returns.
    A file has an object of its own from the first time it is opened, and is found again
    whenever it is opened later; a read that reports no error gives the bytes last
    written there to that file, whatever was written to the others and whenever the
    system was synchronised in between; after a write that failed nothing is known of
    that file, and of that file only. *)
Theorem engine_files {W} `{E : XnvmeEnv W} `{A : XnvmeAdm W} block `{!XnvmeLaws W block} `{!XnvmeAdmLaws W block}
    dev pr U arg w h fs pool nr low x ops :
  session dev pr U arg w h fs pool -> arg_typed arg -> dev_lba dev mod 4 = 0 -> Forall (file_op_ok nr) ops ->
  exists j rs, job_run (Z.of_nat nr) low ops (new_job w (mk_handle fs (h_dp h) (h_buf h)) x pool nr) = Some (j, rs) /\
    conforms (size_of fs (a_obj_nlb arg)) ops rs (replicate nr None) /\
    forall i k f g o, jb_files j !! i = Some f -> jb_files j !! k = Some g -> f_engine_pos f <> 0 -> f_engine_pos g <> 0 ->
      fd_object (jb_fad j) !! i = Some o -> fd_object (jb_fad j) !! k = Some o -> i = k.
Proof.
  intros Se Ha H4 Hops. destruct (session_filing block dev pr U arg w h fs pool Se Ha H4) as (n & F & Hp).
  set (j0 := new_job _ _ _ _ _). assert (length (jb_files j0) = nr) as Hl by (cbn; by rewrite length_imap, length_replicate).
  assert (at_work block dev (a_obj_nlb arg) n pool j0 [] (replicate nr None)) as Aw.
  { split; cbn [jb_world jb_handle jb_fad jb_files fd_pool fd_object j0 new_job]; rewrite ?length_imap, ?length_replicate; try done.
    - intros i f c Hi [-> _]%lookup_replicate. rewrite list_lookup_imap in Hi. destruct (replicate nr tt !! i); [|done]. by injection Hi as <-.
    - by intros i k o c c' [? _]%lookup_replicate. }
  rewrite <- Hl in Hops. destruct (job_run_ok block dev (a_obj_nlb arg) n pool Hp low ops j0 [] _ Aw Hops) as (j & rs & st & v & Er & Hc & Aw').
  rewrite Hl in Er. exists j, rs. split; [done|]. split; [done|]. intros i k f g o Hi Hk Hf Hg.
  assert (forall m q, jb_files j !! m = Some q -> f_engine_pos q <> 0 -> exists c, v !! m = Some (Some c)) as Hopen.
  { intros m q Hm Hq. pose proof (lookup_lt_Some _ _ _ Hm) as Hlt. rewrite <- (aw_view _ _ _ _ _ _ _ _ Aw') in Hlt.
    apply lookup_lt_is_Some in Hlt as [[c|] Hcm]; [by exists c|]. by destruct (aw_files _ _ _ _ _ _ _ _ Aw' m q _ Hm Hcm). }
  destruct (Hopen i f Hi Hf) as [c Hci], (Hopen k g Hk Hg) as [c' Hck]. by apply (aw_apart _ _ _ _ _ _ _ _ Aw' i k o c c').
Qed.

(** Two files of the concrete system; the requests all succeed. *)
Definition ex_file_ops : list file_op :=
  [FOpen 0; FOpen 1; FSize 0; FQueue 1 DDIR_WRITE 1024 (replicate 512 6); FQueue 0 DDIR_WRITE 0 (replicate 1024 7); FQueue 0 DDIR_SYNC 0 [0];
   FClose 1; FOpen 1; FQueue 1 DDIR_READ 1024 (replicate 512 0)].

Lemma ex_file_ops_ok : Forall (file_op_ok 2) ex_file_ops.
Proof.
  unfold ex_file_ops. repeat (apply Forall_cons; split); try apply Forall_nil_2; cbn [file_op_ok]; rewrite ?length_replicate; try lia;
    (split; [lia|split; [lia|split; [discriminate|cbn [length]; lia]]]).
Qed.

Lemma ex_file_errors : option_map (fun r => map fst r.2) (job_run 2 5120 ex_file_ops
  (new_job ex_disk (mk_handle ex_fs2 (h_dp ex_handle) (h_buf ex_handle)) 0 ex_pool 2)) = Some (replicate 9 0).
Proof. vm_compute. reflexivity. Qed.

Lemma engine_files_witness : exists j rs, job_run 2 5120 ex_file_ops
    (new_job ex_disk (mk_handle ex_fs2 (h_dp ex_handle) (h_buf ex_handle)) 0 ex_pool 2) = Some (j, rs) /\
  conforms (size_of ex_fs2 (a_obj_nlb (ex_arg 97 10))) ex_file_ops rs (replicate 2 None) /\ map fst rs = replicate 9 0.
Proof.
  destruct (engine_files RamDisk.block ex_dev1k ex_request ex_names (ex_arg 97 10) ex_disk ex_handle ex_fs2 ex_pool 2 5120 0
              ex_file_ops ex_session ex_arg_typed) as (j & rs & Er & Hc & _); [reflexivity|exact ex_file_ops_ok|].
  pose proof ex_file_errors as He. change (Z.of_nat 2) with 2 in Er. rewrite Er in He. cbn [option_map snd] in He. apply (inj Some) in He.
  exists j, rs. split; [exact Er|]. split; [exact Hc|exact He].
Defined.
