(* ===== verification/Inspect.v ===== *)
(** * Inspect: [fla_inspect] on the systems the library makes

    [healthy] is what the checks of [Introspection] look for.  Formatting establishes
    it, creating pools under new names and the operations on objects keep it, and so
    does closing the system and opening it again, which is what [fla_inspect] does. *)
From S2P Require Import Prelude Util Freelist Hash XnvmeEnv Flexalloc PoolEntry Geometry CommandSet.
From S2P Require Import SlabList SlabCache Slab Pool Object Alloc DataPlacement Layout Format System Typed.
From S2P Require Import History Introspection Durability.

(** ** The program *)

(** The results of the four checks, which are only printed. *)
Definition inspect_checks (fs : flexalloc) : option (Z * Z * Z * Z) :=
  num ← validate_pool_num_entries fs;
  entries ← validate_pool_entries fs;
  Some (validate_super fs, validate_md_ptr_offsets fs, num, entries).

(** [main] after its options: the report and the exit status. *)
Definition fla_inspect {W} `{XnvmeEnv W} `{XnvmeAdm W} (w : W) (opts : fla_open_opts) :
    option (W * option (Z * Z * Z * Z) * Z) :=
  '(w, h, err) ← fla_open w opts;
  if negb (err =? 0) then Some (w, None, -1)
  else
    h ← h;
    report ← inspect_checks (h_fs h);
    _ ← fla_close_noflush h;
    Some (w, Some report, err).

(** ** Healthy systems *)

(** An entry in use under the hash [h]. *)
Record entry_named (h : Z) (e : fla_pool_entry) : Prop := {
  en_first : pe_name e !! 0%nat <> Some 0;
  en_nul : 0 ∈ pe_name e;
  en_hash : FLA_HTBL_H2 (pe_name e) = Some h;
  en_size : pe_obj_nlb e <> 0
}.

Record healthy (U : list (list Z)) (fs : flexalloc) : Prop := {
  he_dir : dir_inv U fs;
  he_cns : cns_fs fs;
  he_small : md_small (fs_geo fs);
  he_super : super_for (fs_super fs) (fs_geo fs) /\ s_fmt_version (fs_super fs) <> 0;
  he_named : forall i, 0 <= i < g_npools (fs_geo fs) -> free_bit (ps_freelist (fs_pools fs)) i = false -> exists h, dir fs !! h = Some i;
  he_used : forall h i e, dir fs !! h = Some i -> pool_entry_at fs i = Some e -> entry_named h e;
  he_free : forall i e, pool_entry_at fs i = Some e -> free_bit (ps_freelist (fs_pools fs)) i = true ->
    pe_name e = replicate (Z.to_nat FLA_NAME_SIZE_POOL) 0
}.

(** The layout is the one the geometry describes. *)
Lemma md_ptr_offsets_ok fs : geo_ok (fs_geo fs) -> md_small (fs_geo fs) -> validate_md_ptr_offsets fs = 0.
Proof.
  intros G S. destruct (layout_exact (fs_geo fs) G S) as ([Ha Hb _ Hc Hd _ _ (? & ? & ? & ? & ? & ?)] & ? & ? & ? & ?).
  pose proof (go_slabs _ G) as [? _]. pose proof (go_lb _ G). assert (0 <= slab_sgmt_nlb (g_slab_sgmt (fs_geo fs)) * g_lb_nbytes (fs_geo fs)) by nia.
  unfold validate_md_ptr_offsets, mdr_ptr_check_super_offset, md_ptr_check_super_size, md_ptr_check_pool_freelist_size,
    md_ptr_check_pool_htbl_size, md_ptr_check_pool_entries_size, super_off.
  rewrite Ha, Hb, Hc, Hd. rewrite !u32_small by (unfold is_u32; lia). rewrite !(proj2 (Z.eqb_eq _ _)) by lia. done.
Qed.

(** Some pool has objects of ten blocks, a size that the checks take for an invalid
    one. *)
Definition pool_of_ten (fs : flexalloc) : Prop :=
  exists h i e, dir fs !! h = Some i /\ pool_entry_at fs i = Some e /\ pe_obj_nlb e = 10.

(** The checks report nothing but pools of that size. *)
Lemma healthy_checks U fs : healthy U fs -> g_npools (fs_geo fs) <= 32 ->
  exists r, inspect_checks fs = Some (0, 0, 0, r) /\ (r = 0 <-> ~ pool_of_ten fs).
Proof.
  intros [D C Sm [Su Hv] Hn Hu _] H32. unfold inspect_checks, validate_pool_num_entries.
  destruct (num_entries_spec U fs D) as (err & -> & He). cbn [mbind option_bind].
  assert (err = 0) as -> by (apply He; split; [apply Su|done]). cbn [Z.eqb mbind option_bind].
  destruct (dir_readable U fs D) as (slots & R & Hocc & Hhas).
  assert (Forall (slot_readable (g_npools (fs_geo fs))) slots) as Hs.
  { apply Forall_forall. intros e Hin Ho. destruct (di_used _ _ D _ _ (Hocc e Hin Ho)) as [Hr _]. split; [done|].
    destruct (decide (val e = 0)); [by left|right]. rewrite Z.mod_small by lia. done. }
  unfold validate_pool_entries.
  destruct (validate_rounds_spec fs _ slots R Hs (S (Z.to_nat (tbl_size (ps_htbl (fs_pools fs))))) 0 0) as (err & -> & Hr);
    [pose proof (rb_size _ _ _ R); lia|lia|]. cbn [mbind option_bind]. exists err.
  split; [|rewrite Hr; split].
  2: { intros [_ Hall] (h & i & pe & Hd & Hpe & H10). destruct (Hhas h i Hd) as (p & e & Hp & Ho & <- & <-).
       change (drop _ slots) with slots in Hall. rewrite Forall_forall in Hall.
       destruct (Hall e (list_elem_of_lookup_2 _ _ _ Hp) Ho) as [_ (pe' & Hpe' & _ & _ & _ & _ & Hn10)]. congruence. }
  2: { intros Hten. split; [done|]. cbn. apply Forall_forall. intros e Hin Ho. pose proof (Hocc e Hin Ho) as Hd.
    destruct (di_used _ _ D _ _ Hd) as [Hi Hf]. split; [done|].
    destruct (lookupZ_is_Some (ps_entries (fs_pools fs)) (val e)) as [pe Hpe]; [rewrite (di_entries _ _ D); lia|].
    exists pe. split; [done|]. destruct (Hu _ _ pe Hd Hpe) as [? ? ? ?]. do 4 (split; [done|]).
    intros H10. apply Hten. by exists (h2 e), (val e), pe. }
  rewrite md_ptr_offsets_ok by (done || apply C). do 4 f_equal. unfold validate_super. destruct Su as [_ -> _ -> _].
  pose proof (go_npools _ (cf_geo _ C)). pose proof (go_nslabs _ (cf_geo _ C)).
  rewrite !(proj2 (Z.eqb_neq _ 0)), (proj2 (Z.ltb_ge _ _)) by (done || lia). done.
Qed.

(** What a formatted device gives. *)
Lemma fresh_healthy U dev geo p h : keys_ok U -> dev_for dev geo -> geo_ok geo -> md_small geo -> g_npools geo < 2 ^ 15 ->
  fresh_md geo p -> opened dev geo p h -> healthy U (h_fs h).
Proof.
  intros HU D G S Hnp F Op. destruct (fresh_opened U dev geo p h HU D G Hnp F Op) as (R & _ & Eg).
  destruct Op as [(funcs & Efs & _) _ _ _]. split; try apply R.
  - by rewrite Eg.
  - rewrite Eg, Efs. cbn. rewrite (fm_super _ _ F). by split.
  - intros i Hi Hf. rewrite (rd_pools _ _ R) in Hf by done. done.
  - intros h' i e Hd. by rewrite (rd_empty _ _ R), lookup_empty in Hd.
  - intros i e. unfold pool_entry_at, lookupZ. rewrite Efs. cbn. rewrite (fm_entries _ _ F).
    destruct (i <? 0); [done|]. intros [-> _]%lookup_replicate _. done.
Qed.

(** ** Names *)

(** The argument names a pool: a non-empty string, given with its length, with or
    without the NUL, and an object size other than 0. *)
Record names_pool (U : list (list Z)) (arg : fla_pool_create_arg) : Prop := {
  np_in : a_name arg ∈ U;
  np_string : exists s rest, a_name arg = s ++ 0 :: rest /\ s <> [] /\ 0 ∉ s /\
    (a_name_len arg = Z.of_nat (length s) \/ a_name_len arg = Z.of_nat (length s) + 1);
  np_size : 0 < a_obj_nlb arg
}.

Lemma sdbm_prefix s : forall hash r r', 0 ∉ s -> sdbm_loop hash (s ++ 0 :: r) = sdbm_loop hash (s ++ 0 :: r').
Proof.
  induction s as [|c s IH]; intros hash r r' Hs; [done|]. apply not_elem_of_cons in Hs as [Hc Hs]. cbn [app sdbm_loop].
  rewrite (proj2 (Z.eqb_neq c 0)) by congruence. by apply IH.
Qed.

(** The name of a new entry that was cleared. *)
Lemma new_name U arg h : names_pool U arg -> FLA_HTBL_H2 (a_name arg) = Some h -> a_name_len arg < FLA_NAME_SIZE_POOL ->
  forall e0 n, pe_name e0 = replicate (Z.to_nat FLA_NAME_SIZE_POOL) 0 ->
  entry_named h (created e0 arg n (take (Z.to_nat (a_name_len arg)) (a_name arg) ++ drop (Z.to_nat (a_name_len arg)) (pe_name e0))).
Proof.
  intros [_ (s & rest & Es & Hne & Hs & Hl) Ho] Hh Hsz e0 n He. unfold FLA_NAME_SIZE_POOL in *.
  assert (exists r, take (Z.to_nat (a_name_len arg)) (a_name arg) ++ drop (Z.to_nat (a_name_len arg)) (pe_name e0) = s ++ 0 :: r) as [r Er].
  { rewrite Es, He, drop_replicate. destruct Hl as [El|El]; rewrite El in *.
    - rewrite Nat2Z.id, take_app_length. destruct (Z.to_nat 112 - length s)%nat as [|k] eqn:Ek; [lia|]. by exists (replicate k 0).
    - replace (Z.to_nat (Z.of_nat (length s) + 1)) with (length s + 1)%nat by lia. rewrite take_app_add. cbn [take].
      rewrite <- app_assoc. by eexists. }
  split; cbn [created pe_name pe_obj_nlb]; rewrite ?Er.
  - destruct s as [|c s]; [done|]. intros [= ->]. apply Hs. by constructor.
  - apply elem_of_app. right. by constructor.
  - rewrite <- Hh, Es. apply sdbm_prefix, Hs.
  - lia.
Qed.

Lemma string_len U arg : names_pool U arg -> 0 <= a_name_len arg <= Z.of_nat (length (a_name arg)).
Proof. intros [_ (s & rest & -> & _ & _ & Hl) _]. rewrite length_app. cbn [length]. lia. Qed.

(** ** What keeps a system healthy *)

Section steps.
Context {W : Type} `{E : XnvmeEnv W} (block : W -> xnvme_dev -> Z -> list Z) `{!XnvmeLaws W block}.
Context (U : list (list Z)).

Lemma create_healthy w fs arg h w' fs' hdl err : healthy U fs -> names_pool U arg -> FLA_HTBL_H2 (a_name arg) = Some h ->
  dir fs !! h = None -> fla_base_pool_create w fs arg = Some (w', fs', hdl, err) -> healthy U fs'.
Proof using All.
  intros [D C Sm Su Hn Hu Hf] Np Hh Hnew Hc. destruct (calc_objs_spec fs (a_obj_nlb arg) C (np_size _ _ Np)) as (n & En & _).
  destruct (pool_create_spec block U fs D C arg h n (np_in _ _ Np) Hh Hnew En (string_len U arg Np) w) as (w1 & fs1 & hdl1 & err1 & Hc1 & _ & SP & D1 & Hout).
  rewrite Hc in Hc1. injection Hc1 as <- <- <- <-. pose proof SP as [Gg Gd Gc Gs _ _].
  assert (cns_fs fs') as C1 by (destruct C; split; rewrite ?Gg, ?Gd, ?Gc; done).
  destruct Hout as [(_ & _ & Hd & He & Hsf)|(_ & ndx & _ & CO)].
  - split; rewrite ?Gg, ?Gs, ?Hd; unfold pool_entry_at; rewrite ?He; try done.
    + intros i Hi. rewrite Hsf by done. by apply Hn.
    + intros i e Hi. rewrite Hsf; [by apply Hf|]. rewrite <- (di_entries _ _ D). by apply lookupZ_Some in Hi.
  - pose proof CO as [(_ & Hfree & _) Hr _ Hd Efl Hsz (e0 & name & He0 & He & ->) _].
    pose proof (new_name U arg h Np Hh Hsz e0 n (Hf ndx e0 He0 Hfree)) as Hnew_e.
    assert (forall i, 0 <= i < g_npools (fs_geo fs) -> free_bit (ps_freelist (fs_pools fs')) i =
      if decide (i = ndx) then false else free_bit (ps_freelist (fs_pools fs)) i) as Hbit.
    { intros i Hi. rewrite Efl. by apply (flist_bits_clear_other U). }
    split; rewrite ?Gg, ?Gs, ?Hd; unfold pool_entry_at; rewrite ?He; try done.
    + intros i Hi. rewrite Hbit by done. case_decide as Hie; [subst; exists h; apply lookup_insert_eq|].
      intros Hb. destruct (Hn i Hi Hb) as [h' Hh']. exists h'. rewrite lookup_insert_ne by congruence. done.
    + intros h' i e [[<- <-]|[Hne Hi]]%lookup_insert_Some.
      * rewrite lookupZ_insertZ_eq by (rewrite (di_entries _ _ D); lia). by intros [= <-].
      * destruct (decide (ndx = i)) as [->|Hni]; [by destruct (free_not_used U fs i D Hfree h')|].
        rewrite lookupZ_insertZ_ne by done. by apply Hu.
    + intros i e. destruct (decide (ndx = i)) as [->|Hni].
      * intros _. rewrite Hbit by lia. by rewrite decide_True.
      * rewrite lookupZ_insertZ_ne by done. intros Hi. pose proof (lookupZ_Some _ _ _ Hi) as Hr'. rewrite (di_entries _ _ D) in Hr'.
        rewrite Hbit by lia. rewrite decide_False by congruence. by apply Hf.
Qed.

(** Nothing but slab lists, root objects, headers, the cache and statistics changed. *)
Record same_names (fs fs' : flexalloc) : Prop := {
  sn_geo : fs_geo fs' = fs_geo fs;
  sn_dev : d_md_dev (fs_dev fs') = d_md_dev (fs_dev fs);
  sn_super : fs_super fs' = fs_super fs;
  sn_cs : cs_fncs (fs_cs fs') = cs_fncs (fs_cs fs);
  sn_flist : ps_freelist (fs_pools fs') = ps_freelist (fs_pools fs);
  sn_tbl : tbl (ps_htbl (fs_pools fs')) = tbl (ps_htbl (fs_pools fs)) /\ tbl_size (ps_htbl (fs_pools fs')) = tbl_size (ps_htbl (fs_pools fs)) /\
    len (ps_htbl (fs_pools fs')) = len (ps_htbl (fs_pools fs));
  sn_funcs : length (ps_entrie_funcs (fs_pools fs')) = length (ps_entrie_funcs (fs_pools fs));
  sn_entries : (fun e => (pe_obj_nlb e, pe_name e)) <$> ps_entries (fs_pools fs') =
    (fun e => (pe_obj_nlb e, pe_name e)) <$> ps_entries (fs_pools fs)
}.

Lemma same_names_entry fs fs' i e' : same_names fs fs' -> pool_entry_at fs' i = Some e' ->
  exists e, pool_entry_at fs i = Some e /\ pe_obj_nlb e' = pe_obj_nlb e /\ pe_name e' = pe_name e.
Proof using.
  intros [_ _ _ _ _ _ _ He] Hi. unfold pool_entry_at, lookupZ in *. destruct (i <? 0); [done|].
  assert (((fun e => (pe_obj_nlb e, pe_name e)) <$> ps_entries (fs_pools fs')) !! Z.to_nat i = Some (pe_obj_nlb e', pe_name e')) as Hl
    by (by rewrite list_lookup_fmap, Hi).
  rewrite He, list_lookup_fmap in Hl. destruct (ps_entries (fs_pools fs) !! Z.to_nat i) as [e|]; [|done]. injection Hl as ? ?. by exists e.
Qed.

Lemma same_names_dir fs fs' : same_names fs fs' -> dir_inv U fs -> dir_inv U fs' /\ dir fs' = dir fs.
Proof using.
  intros SN D. pose proof SN as [Gg Gd Gs Gc Gf (Gt & Gz & Gl) Gn Ge].
  assert (dir fs' = dir fs) as Ed by (unfold dir, htbl_map; by rewrite Gt). split; [|done].
  assert (length (ps_entries (fs_pools fs')) = length (ps_entries (fs_pools fs))) as Hl by (apply (f_equal length) in Ge; by rewrite !length_fmap in Ge).
  destruct D as [? [? (slots & ? & ? & ? & ?)] ? ? ? Hna ? ?]. split; fold (dir fs'); rewrite ?Gg, ?Gf, ?Ed, ?Hl, ?Gn; try done.
  - split; rewrite ?Gz; [done|]. exists slots. by rewrite Gt, Gl.
  - intros i e' Hi. destruct (same_names_entry _ _ _ _ SN Hi) as (e & He & _ & ->). by eapply Hna.
Qed.

Lemma same_names_healthy fs fs' : same_names fs fs' -> healthy U fs -> healthy U fs'.
Proof using.
  intros SN [D C Sm Su Hn Hu Hf]. destruct (same_names_dir fs fs' SN D) as [D' Ed]. pose proof SN as [Gg Gd Gs Gc Gf _ _ _].
  split; rewrite ?Gg, ?Gs, ?Ed, ?Gf; try done.
  - destruct C. split; by rewrite ?Gg, ?Gd, ?Gc.
  - intros h i e' Hd Hi. destruct (same_names_entry _ _ _ _ SN Hi) as (e & He & E1 & E2). destruct (Hu h i e Hd He).
    by split; rewrite ?E1, ?E2.
  - intros i e' Hi Hb. destruct (same_names_entry _ _ _ _ SN Hi) as (e & He & _ & ->). by eapply Hf.
Qed.

Lemma frame_same_names fs fs' : obj_frame fs fs' -> same_names fs fs'.
Proof using.
  intros [? Gd ? Gc ? ? Gh _ Gf He]. split; rewrite ?Gd, ?Gc, ?Gh, ?Gf; try done.
  apply (f_equal (fmap (fun r : Z * Z * Z * Z * Z * list Z => (r.1.1.1.1.1, r.2)))) in He. by rewrite <- !list_fmap_compose in He.
Qed.

Lemma set_root_same_names fs pool o act fs' err : fla_base_pool_set_root_object fs pool o act = Some (fs', err) -> same_names fs fs'.
Proof using.
  unfold fla_base_pool_set_root_object, upd_entry. intros Hr. run_inv; [done|]. split; try done. cbn.
  match goal with E : lookupZ _ _ = Some ?e |- _ => unfold lookupZ in E; unfold insertZ; destruct (p_ndx pool <? 0); [done|];
    rewrite list_fmap_insert; apply list_insert_id; by rewrite list_lookup_fmap, E end.
Qed.

Lemma same_names_ten fs fs' : same_names fs fs' -> dir_inv U fs -> pool_of_ten fs' <-> pool_of_ten fs.
Proof using.
  intros SN D. destruct (same_names_dir fs fs' SN D) as [D' Ed]. split; intros (h & i & e & Hd & He & H10).
  - destruct (same_names_entry fs fs' i e SN He) as (e0 & He0 & Hn & _). exists h, i, e0. rewrite <- Ed. split; [done|]. split; [done|congruence].
  - rewrite <- Ed in Hd. destruct (di_used _ _ D' _ _ Hd) as [Hi _].
    destruct (lookupZ_is_Some (ps_entries (fs_pools fs')) i) as [e' He']; [rewrite (di_entries _ _ D'); lia|].
    destruct (same_names_entry fs fs' i e' SN He') as (e0 & He0 & Hn & _). exists h, i, e'. split; [done|]. split; [done|congruence].
Qed.

(** A client that only creates pools and sets root objects. *)
Inductive pool_step : W * flexalloc -> W * flexalloc -> Prop :=
  | ps_pool_create w fs arg h w' fs' hdl err : names_pool U arg -> arg_typed arg -> FLA_HTBL_H2 (a_name arg) = Some h ->
      dir fs !! h = None -> fla_base_pool_create w fs arg = Some (w', fs', hdl, err) -> pool_step (w, fs) (w', fs')
  | ps_set_root w fs pool o act fs' err : is_u32 (o_slab_id o) -> is_u32 (o_entry_ndx o) ->
      fla_base_pool_set_root_object fs pool o act = Some (fs', err) -> pool_step (w, fs) (w, fs').

Definition idle (fs : flexalloc) : Prop := forall x, 0 <= x < g_nslabs (fs_geo fs) ->
  cache_elem fs x = Some (mk_elem None FLA_SLAB_CACHE_ELEM_STALE).

Record pools_inv (dev : xnvme_dev) (buf : list Z) (fs : flexalloc) : Prop := {
  pi_healthy : healthy U fs;
  pi_closing : closing dev fs buf;
  pi_device : on_device dev fs;
  pi_idle : idle fs;
  pi_npools : g_npools (fs_geo fs) <= 32
}.

Lemma set_root_rest fs pool o act fs' err : fla_base_pool_set_root_object fs pool o act = Some (fs', err) ->
  fs_dev fs' = fs_dev fs /\ fs_cache fs' = fs_cache fs /\ fs_state fs' = fs_state fs /\ ps_htbl_hdr (fs_pools fs') = ps_htbl_hdr (fs_pools fs).
Proof using. unfold fla_base_pool_set_root_object, upd_entry. intros Hr. run_inv; done. Qed.

Lemma pools_inv_step dev buf s s' : pool_step s s' -> pools_inv dev buf s.2 -> pools_inv dev buf s'.2.
Proof using All.
  intros Hs [He [T St Sz D Su Fl Bl] [Od Om Ol] Id Np32].
  assert (forall fs', healthy U fs' -> typed fs' -> fs_geo fs' = fs_geo s.2 -> fs_dev fs' = fs_dev s.2 -> fs_super fs' = fs_super s.2 ->
    fs_cache fs' = fs_cache s.2 -> fs_state fs' = fs_state s.2 -> ps_htbl_hdr (fs_pools fs') = ps_htbl_hdr (fs_pools s.2) ->
    tbl_size (ps_htbl (fs_pools fs')) = tbl_size (ps_htbl (fs_pools s.2)) -> pools_inv dev buf fs') as Hall.
  { intros fs' He' T' Eg Ed Es Ec Et Eh Ez. split; [done| | | |by rewrite Eg].
    - split; rewrite ?Eg, ?Et, ?Eh, ?Ez, ?Es; try done. rewrite <- Eg. apply (di_flist _ _ (he_dir _ _ He')).
    - destruct Om. by split; [|split|]; rewrite ?Ed, ?Eg, ?Es.
    - intros x Hx. rewrite Eg in Hx. unfold cache_elem. rewrite Ec. by apply Id. }
  destruct Hs as [w fs arg h w' fs' hdl err Np Ha Hh Hn Hc|w fs pool o act fs' err H1 H2 Hc]; cbn [snd] in *.
  - destruct (calc_objs_spec fs (a_obj_nlb arg) (he_cns _ _ He) (np_size _ _ Np)) as (n & En & _).
    destruct (pool_create_spec block U fs (he_dir _ _ He) (he_cns _ _ He) arg h n (np_in _ _ Np) Hh Hn En (string_len U arg Np) w)
      as (w1 & fs1 & hdl1 & err1 & Hc1 & _ & [? ? ? ? ? ?] & _). rewrite Hc in Hc1. injection Hc1 as <- <- <- <-.
    destruct (pool_create_sizes _ _ _ _ _ _ _ Hc) as (? & ? & ?).
    apply Hall; try done; [by eapply create_healthy|by eapply pool_create_typed].
  - pose proof (set_root_same_names _ _ _ _ _ _ Hc) as SN. pose proof SN as [? ? ? ? ? (? & ? & ?) ? ?].
    destruct (set_root_rest _ _ _ _ _ _ Hc) as (? & ? & ? & ?).
    apply Hall; try done; [by eapply same_names_healthy|by eapply set_root_typed].
Qed.

Lemma pools_inv_steps dev buf s s' : rtc pool_step s s' -> pools_inv dev buf s.2 -> pools_inv dev buf s'.2.
Proof using All. induction 1; eauto using pools_inv_step. Qed.
End steps.

(** ** Closing and inspecting *)

Section inspect.
Context {W : Type} `{E : XnvmeEnv W} `{A : XnvmeAdm W} (block : W -> xnvme_dev -> Z -> list Z).
Context `{!XnvmeLaws W block} `{!XnvmeAdmLaws W block}.
Context (U : list (list Z)) (dev : xnvme_dev).

(** A system opened from the metadata that closing wrote. *)
Lemma reopened_same_names fs buf p hd : closing dev fs buf -> cns_fs fs -> dir_inv U fs -> md_of fs = Some p ->
  opened dev (fs_geo fs) (flushed_md fs p) hd -> same_names fs (h_fs hd).
Proof using.
  intros CL C D Hp [(funcs & -> & Hl & _) _ _ _]. unfold md_of in Hp.
  destruct (tbl (ps_htbl (fs_pools fs))) as [t|] eqn:Et; [|done]. cbn in Hp. injection Hp as <-.
  split; cbn; try done; [by rewrite (cf_md _ C)|by rewrite (cf_cs _ C)| |].
  - rewrite Et. split; [done|]. split; [apply (cl_size _ _ _ CL)|done].
  - pose proof (di_funcs _ _ D). lia.
Qed.

Lemma close_inspect fs dp buf opts w : pools_inv U dev buf fs ->
  uri_names (oo_dev_uri opts) dev -> oo_md_dev_uri opts = None -> is_Some (strlen (oo_dev_uri opts)) ->
  exists w1 h1 err, fla_base_close w (mk_handle fs dp buf) = Some (w1, h1, err) /\
    (err = 0 -> exists w2 report st, fla_inspect w1 opts = Some (w2, report, st) /\ same_blocks block w1 w2 /\
       (st = -1 /\ report = None \/ st = 0 /\ exists r, report = Some (0, 0, 0, r) /\ (r = 0 <-> ~ pool_of_ten fs))).
Proof using All.
  intros [He CL Od Id H32] Hu Hm Hs. pose proof (he_cns _ _ He) as C. pose proof (go_slab _ (cf_geo _ C)).
  destruct (close_open block dev fs dp buf 0 1 opts w CL C Od) as (w1 & h1 & err & Ec & _ & Hok); try done; [lia| |].
  { intros x Hx. eexists. split; [by apply Id|]. done. }
  exists w1, h1, err. split; [done|]. intros E0. destruct (Hok E0) as (_ & p & w2 & h2 & err2 & Hp & Eo & Hb & Ho).
  unfold fla_inspect. rewrite Eo. cbn [mbind option_bind]. destruct (Z.eqb_spec err2 0) as [->|]; cbn [negb].
  2: { exists w2, None, (-1). split; [done|]. split; [done|]. by left. }
  destruct (Ho eq_refl) as (hd & -> & Op). cbn [mbind option_bind].
  pose proof (reopened_same_names fs buf p hd CL C (he_dir _ _ He) Hp Op) as SN.
  destruct (healthy_checks U (h_fs hd)) as (r & -> & Hten); [by eapply same_names_healthy|by rewrite (sn_geo _ _ SN)|]. cbn [mbind option_bind].
  destruct (op_fs _ _ _ _ Op) as (funcs & Efs & _). unfold fla_close_noflush. rewrite Efs. cbn.
  do 3 eexists. split; [done|]. split; [done|]. right. split; [done|]. exists r. split; [done|].
  rewrite Hten. by rewrite (same_names_ten U fs (h_fs hd) SN (he_dir _ _ He)).
Qed.
End inspect.

(** ** Claims *)

(** C16: [fla_inspect] reports nothing about systems the library made, but for pools
    whose objects have ten blocks.  A device is formatted for at most 32 pools and
    opened; any pools are created under new names, any root objects set, whatever those
    calls return; the system is closed.  Then [fla_inspect] runs to its end without
    changing a block, and unless the device cannot be opened its first three checks
    find the super block, the layout and the number of pools in order, and the check of
    the pool entries finds them in order exactly when no pool has objects of ten
    blocks, a size that pool creation accepts and that the check takes for an invalid
    one. *)
Theorem inspect_reports_nothing {W} `{E : XnvmeEnv W} `{A : XnvmeAdm W} block `{!XnvmeLaws W block} `{!XnvmeAdmLaws W block}
    U dev pr w0 geo0 md_geo0 junk w1 w2 h w3 fs :
  keys_ok U -> mkfs_request dev pr -> mp_npools pr <= 32 -> fla_mkfs w0 pr geo0 md_geo0 junk = Some (w1, 0) ->
  fla_open w1 (mp_open_opts pr) = Some (w2, Some h, 0) -> rtc (pool_step U) (w2, h_fs h) (w3, fs) ->
  exists w4 h4 err, fla_base_close w3 (mk_handle fs (h_dp h) (h_buf h)) = Some (w4, h4, err) /\
    (err = 0 -> exists w5 report st, fla_inspect w4 (mp_open_opts pr) = Some (w5, report, st) /\ same_blocks block w4 w5 /\
       (st = -1 /\ report = None \/ st = 0 /\ exists r, report = Some (0, 0, 0, r) /\ (r = 0 <-> ~ pool_of_ten fs))).
Proof.
  intros HU R H32 Em Eo Hs. destruct (mkfs_open_typed block dev pr w0 geo0 md_geo0 junk w1 w2 h R Em Eo) as (T & geo & p & Op & F & D & Np).
  pose proof (ty_geo _ T) as (G & Sm & _). assert (fs_geo (h_fs h) = geo) as Eg by (destruct Op as [(funcs & -> & _) _ _ _]; done).
  rewrite Eg in G, Sm. pose proof (mr_npools _ _ R).
  destruct (fresh_opened U dev geo p h HU D G ltac:(lia) F Op) as (Rd & Od & _).
  assert (pools_inv U dev (h_buf h) (h_fs h)) as I.
  { split; [eapply (fresh_healthy U dev geo p h); done || lia| |done|intros x; apply (rd_cache _ _ Rd)|by rewrite Eg, Np].
    pose proof (di_flist _ _ (rd_dir _ _ Rd)) as Hfl. destruct Op as [(funcs & Efs & _) _ _ ?]. rewrite Efs in *.
    split; try done. cbn. by rewrite (fm_super _ _ F). }
  pose proof (pools_inv_steps block U dev (h_buf h) _ _ Hs I) as I'. cbn [snd] in I'.
  apply (close_inspect block U dev fs (h_dp h) (h_buf h) (mp_open_opts pr) w3 I'); apply R.
Qed.

(** A system with one pool of objects of 5 blocks. *)
Definition ex_checked : flexalloc := from_option (fun r => r.1.1.2) ex_cns (fla_base_pool_create ex_disk ex_fs1 (ex_arg 97 5)).
Lemma ex_checked_steps : rtc (pool_step ex_names) (ex_disk, ex_fs1) (ex_disk, ex_checked).
Proof.
  apply rtc_once. eapply ps_pool_create with (arg := ex_arg 97 5) (h := 97) (hdl := Some ex_pool) (err := 0).
  - split; [exact ex_name_in|exists [97], []|cbn; lia]. split; [reflexivity|]. split; [discriminate|]. split; [|by left].
    intros [?|?%not_elem_of_nil]%elem_of_cons; done.
  - split; [cbn; lia|unfold is_u32; cbn; lia|unfold is_u32; cbn; lia].
  - reflexivity.
  - vm_compute. reflexivity.
  - vm_compute. reflexivity.
Qed.

(** The report on the system that closing left, and the exit status. *)
Definition report_after {W} `{XnvmeEnv W} `{XnvmeAdm W} (opts : fla_open_opts) (closed : option (W * handle * Z)) : option (option (Z * Z * Z * Z) * Z) :=
  '(w, _, _) ← closed; '(_, report, st) ← fla_inspect w opts; Some (report, st).

(** Without a pool of ten blocks the report is empty. *)
Lemma inspect_reports_nothing_witness : exists w4 h4 w5,
  fla_base_close ex_disk (mk_handle ex_checked (h_dp ex_handle) (h_buf ex_handle)) = Some (w4, h4, 0) /\
  fla_inspect w4 (mp_open_opts ex_request) = Some (w5, Some (0, 0, 0, 0), 0) /\ ~ pool_of_ten ex_checked.
Proof.
  destruct (inspect_reports_nothing RamDisk.block ex_names ex_dev1k ex_request ex_world ex_geo0 ex_geo0 ex_junk ex_disk ex_disk
    ex_handle ex_disk ex_checked ex_keys ex_request_ok ltac:(cbn; lia) ex_mkfs ex_open ex_checked_steps) as (w4 & h4 & err & Ec & Hi).
  assert (snd <$> fla_base_close ex_disk (mk_handle ex_checked (h_dp ex_handle) (h_buf ex_handle)) = Some 0) as Hc by (vm_compute; reflexivity).
  assert (report_after (mp_open_opts ex_request) (fla_base_close ex_disk (mk_handle ex_checked (h_dp ex_handle) (h_buf ex_handle))) =
    Some (Some (0, 0, 0, 0), 0)) as Hr by (vm_compute; reflexivity).
  rewrite Ec in Hc, Hr. injection Hc as ->. destruct (Hi eq_refl) as (w5 & report & st & Ei & _ & Hrep).
  unfold report_after in Hr. cbn [mbind option_bind] in Hr. rewrite Ei in Hr. cbn [mbind option_bind] in Hr. injection Hr as -> ->.
  exists w4, h4, w5. split; [exact Ec|]. split; [exact Ei|].
  destruct Hrep as [[Hst _]|(_ & r & Hr & H0)]; [discriminate Hst|]. injection Hr as <-. apply H0. reflexivity.
Defined.

(** A small system by hand: the first of two entries is in use, and the table leads to
    the entry [v]. *)
Definition ex_slots (v : Z) : list fla_htbl_entry :=
  [mk_entry FLA_HTBL_ENTRY_UNSET 0 0; mk_entry 97 v 0; mk_entry FLA_HTBL_ENTRY_UNSET 0 0].
Definition ex_small (v : Z) : flexalloc :=
  set_pools (mk_pools [2; 2] (mk_htbl (Some (ex_slots v)) 3 1 0 0 0) (mk_htbl_hdr 3 1)
    [mk_pool_entry 0 0 0 5 7 0 0 0 (97 :: replicate 111 0); mk_pool_entry 0 0 0 0 0 0 0 0 (replicate 112 0)] []) ex_cns.

Lemma ex_small_readable v : readable (ex_small v) 2 (ex_slots v).
Proof.
  split; [|done| |done|done].
  - split; [done|lia|vm_compute; congruence| |].
    + intros [|[|k]] w; [lia| |]; cbn; intros _ _ Hw; simplify_eq; split; lia.
    + intros i [Hi1 Hi2]. change (32 * FLA_FREELIST_U32_ELEMS 2) with 32 in Hi2. unfold free_bit.
      rewrite Z.div_small, Z.mod_small by lia. change (Z.testbit (2 ^ 1) i = false). apply Z.pow2_bits_false. lia.
  - intros i e. unfold pool_entry_at, lookupZ. destruct (i <? 0); [done|]. destruct (Z.to_nat i) as [|[|k]]; cbn; [by intros [= <-]..|done].
Qed.

(** C33: The consistency check of the pool entries is sound and complete.  On a system
    whose arrays have their sizes and whose table leads to existing entries,
    [validate_pool_entries] comes to its end, and its result is 0 exactly when every
    slot in use belongs to a reserved index whose entry has a terminated, non-empty
    name with the hash of the slot, and an object size other than 0 and 10.  (Indices
    that are positive multiples of 32 cannot be checked: the read of their bit is
    undefined.) *)
Theorem inspect_entries_correct fs npools slots : readable fs npools slots -> Forall (slot_readable npools) slots ->
  exists err, validate_pool_entries fs = Some err /\ (err = 0 <-> Forall (fun e => occ e -> slot_good fs e) slots).
Proof.
  intros R Hs. destruct (validate_rounds_spec fs npools slots R Hs (S (Z.to_nat (tbl_size (ps_htbl (fs_pools fs))))) 0 0) as (err & He & Hi);
    [pose proof (rb_size _ _ _ R); lia|lia|]. exists err. split; [exact He|]. rewrite Hi. cbn. tauto.
Qed.

Lemma inspect_entries_correct_witness : exists err, validate_pool_entries (ex_small 0) = Some err /\
  (err = 0 <-> Forall (fun e => occ e -> slot_good (ex_small 0) e) (ex_slots 0)).
Proof.
  apply (inspect_entries_correct (ex_small 0) 2 (ex_slots 0) (ex_small_readable 0)).
  apply Forall_forall. intros e [->|[->|[->|?%not_elem_of_nil]%elem_of_cons]%elem_of_cons]%elem_of_cons Ho; try done.
  split; [cbn; lia|by left].
Defined.

(** C38: An entry of the table that leads behind the pool entries keeps [fla_inspect]
    from ending.  When the first slot in use is not slot 0, its value is not below
    the number of pools and the bit read for it is defined, [check_pool_entries] reports the slot before it, so that the
    loop of [validate_pool_entries] asks again for the slot it has just seen: each
    round is defined and leads to the same one, and no number of rounds is enough. *)
Theorem inspect_loops fs npools slots k e : tbl (ps_htbl (fs_pools fs)) = Some slots ->
  Z.of_nat (length slots) = tbl_size (ps_htbl (fs_pools fs)) -> tbl_size (ps_htbl (fs_pools fs)) < 2 ^ 31 ->
  fla_flist_len (ps_freelist (fs_pools fs)) = Some npools -> slots !! k = Some e -> occ e -> npools <= val e ->
  is_Some (__flist_bit_reserved (ps_freelist (fs_pools fs)) (val e)) -> (0 < k)%nat ->
  (forall j x, (j < k)%nat -> slots !! j = Some x -> ~ occ x) ->
  (exists err, validate_round fs 0 0 = Some (inr (Z.of_nat k, err))) /\
  (forall err, exists err', validate_round fs (Z.of_nat k) err = Some (inr (Z.of_nat k, err'))) /\
  forall fuel, validate_rounds fuel fs 0 0 = None.
Proof.
  intros Ht Hl Hs Hn Hk Ho Hv Hr Hk0 Hb.
  destruct (check_outside fs npools slots k e 0 Ht Hl Hs Hn Hk Ho Hv Hr Hk0) as [b0 H0]; [lia|intros j x Hj; apply Hb; lia|].
  destruct (check_outside fs npools slots k e k Ht Hl Hs Hn Hk Ho Hv Hr Hk0) as [b1 H1]; [lia|intros j x Hj; lia|].
  assert (forall fuel err, validate_rounds fuel fs (Z.of_nat k) err = None) as Hf.
  { induction fuel as [|fuel IH]; intros err; [done|]. cbn [validate_rounds]. rewrite H1. cbn [mbind option_bind]. apply IH. }
  change (Z.of_nat 0) with 0 in H0. split; [by eexists|]. split; [by eexists|]. intros [|fuel]; [done|].
  cbn [validate_rounds]. rewrite H0. cbn [mbind option_bind]. apply Hf.
Qed.

(** Two pool entries, and a slot 1 that leads to entry 2. *)
Lemma inspect_loops_witness : validate_round (ex_small 2) 0 0 = Some (inr (1, POOL_ENTRY_HTBL_VAL_OUT_OF_BOUNDS)) /\
  forall fuel, validate_rounds fuel (ex_small 2) 0 0 = None.
Proof.
  destruct (inspect_loops (ex_small 2) 2 (ex_slots 2) 1 (mk_entry 97 2 0)) as (_ & _ & Hn);
    [reflexivity|reflexivity|vm_compute; reflexivity|reflexivity|reflexivity|discriminate|cbn; lia|by eexists; vm_compute; reflexivity|lia| |].
  - intros [|j] x Hj; [|lia]. intros [= <-] Ho. by apply Ho.
  - split; [vm_compute; reflexivity|exact Hn].
Defined.

(** The check of the entries takes objects of ten blocks, which the library accepts,
    for an invalid size, and cannot read the bit of index 32. *)
Theorem inspect_false_alarms : inspect_checks ex_fs2 = Some (0, 0, 0, POOL_ENTRY_INVALID_OBJ_SIZE) /\
  forall w, __flist_bit_reserved [64; w; w] 32 = None.
Proof. split; [vm_compute; reflexivity|done]. Qed.
