(* ===== verification/PoolLife.v ===== *)
(** * PoolLife: the life of a pool, from creation to destruction

    Destroying a pool that holds no object gives its slabs back to the queue of free
    slabs, its index to the freelist and its name to the directory, so that the next
    pool finds a system like the one before.  The last part shows what happens to a
    pool that still holds objects, and to names given without their terminator. *)
From S2P Require Import Prelude Util Freelist Hash XnvmeEnv Flexalloc PoolEntry Geometry CommandSet.
From S2P Require Import SlabList SlabCache Slab Pool Object Alloc DataPlacement Layout Format System Typed.
From S2P Require Import History Durability Inspect.

(** ** Releasing the slabs *)

Section release.
Context (fs0 : flexalloc) (free l0 : list Z).

(** [done] of the slabs [l0] are back in the queue, [l] are left. *)
Record releasing (fs : flexalloc) (l : list Z) : Prop := {
  re_frame : fs_geo fs = fs_geo fs0 /\ fs_dev fs = fs_dev fs0 /\ fs_cs fs = fs_cs fs0 /\ fs_super fs = fs_super fs0 /\
    fs_pools fs = fs_pools fs0 /\ fs_state fs = fs_state fs0;
  re_hdrs : hdrs_ok fs;
  re_done : exists done, l0 = done ++ l /\
    edll (headers fs) (ss_fslab_head (fs_slabs fs)) (ss_fslab_tail (fs_slabs fs)) (free ++ done) /\
    ss_fslab_num (fs_slabs fs) = ss_fslab_num (fs_slabs fs0) + Z.of_nat (length done) /\
    forall x, cache_elem fs x = if decide (x ∈ done) then Some (mk_elem None FLA_SLAB_CACHE_ELEM_STALE) else cache_elem fs0 x;
  re_left : exists p, lseg (headers fs) p l FLA_LINKED_LIST_NULL;
  re_meta : meta (headers fs) = meta (headers fs0);
  re_out : forall y, y ∉ free ++ l0 -> lookupZ (headers fs) y = lookupZ (headers fs0) y
}.

Context (Hnd : NoDup (free ++ l0)).
Context (Hempty : forall x, x ∈ l0 -> exists p, lookupZ (meta (headers fs0)) x = Some (p, 0)).
Context (Hcached : forall x, x ∈ l0 -> exists el, cache_elem fs0 x = Some el).
Context (Hnum : 0 <= ss_fslab_num (fs_slabs fs0) /\ ss_fslab_num (fs_slabs fs0) + Z.of_nat (length l0) < 2 ^ 31).

Lemma release_one fs x l : releasing fs (x :: l) -> exists h, lookupZ (headers fs) x = Some h /\ hdrs_ok fs /\
  sl_next h = first_id FLA_LINKED_LIST_NULL l /\ exists fs', fla_release_slab fs x = Some (fs', 0) /\ releasing fs' l.
Proof using All.
  intros [Fr Hok (dn & El & Hq & Hn & Hc) (p & h & Hh & _ & Hnx & Hl) Hm Hout]. exists h. split; [done|]. split; [done|]. split; [done|].
  pose proof (in_range fs Hok x h Hh) as Hr. assert (x ∈ l0) as Hx by (rewrite El; set_solver).
  assert (sl_refcount h = 0) as Hz.
  { destruct (Hempty x Hx) as [pl Hp]. rewrite <- Hm in Hp. unfold meta in Hp. rewrite lookupZ_fmap, Hh in Hp. cbn in Hp. congruence. }
  rewrite El in Hnd. assert ((free ++ dn) ++ x :: l = free ++ dn ++ x :: l) as Ea by by rewrite app_assoc.
  rewrite <- Ea in Hnd. apply NoDup_app in Hnd as (Hnd1 & Hd & Hnd2). apply NoDup_cons in Hnd2 as [Hxl Hnd2].
  assert (x ∉ free ++ dn) as Hxq by (intros Hin; eapply Hd; [exact Hin|by constructor]).
  unfold fla_release_slab. rewrite Hh. bind_step. rewrite Hz. no_err. rewrite slab_id_ok by done. no_err.
  unfold fla_slab_cache_elem_drop. destruct (Hcached x Hx) as [el Hel].
  assert (cache_elem fs x = Some el) as Hel' by (rewrite Hc, decide_False; [done|set_solver]).
  rewrite Hel'. bind_step. set (fs1 := set_cache_elem fs x _).
  assert (hdrs_ok fs1) as Hok1 by (split; apply Hok).
  destruct (edll_add_tail_spec fs1 _ _ x (free ++ dn) Hok1 Hq Hr Hxq) as (hs' & Ea' & Hq' & Hch).
  change (fs_slabs fs1) with (fs_slabs fs). rewrite Ea'. bind_step. no_err. eexists. split; [done|].
  rewrite Hn, u32_small by (unfold is_u32; rewrite El, length_app in Hnum; cbn [length] in Hnum; lia). split.
  - done.
  - split; [cbn; rewrite (ch_len _ _ _ Hch)|]; apply Hok.
  - exists (dn ++ [x]). rewrite <- app_assoc. split; [done|]. split; [|split].
    + rewrite app_assoc. exact Hq'.
    + cbn. rewrite length_app. cbn [length]. lia.
    + intros y. unfold cache_elem at 1. cbn [set_free_list set_slabs with_headers fs_cache]. fold (cache_elem fs1 y). destruct (decide (y = x)) as [->|Hne].
      * rewrite decide_True by set_solver. unfold fs1. by erewrite cache_elem_set.
      * unfold fs1. rewrite cache_elem_set_ne by done. rewrite Hc. repeat case_decide; done || set_solver.
  - exists x. eapply changed_lseg; [exact Hch| |exact Hl]. intros y Hy [Hin|Hin]%elem_of_app.
    + apply (Hd y Hin). set_solver.
    + apply list_elem_of_singleton in Hin as ->. done.
  - rewrite <- Hm. apply Hch.
  - intros y Hny. rewrite <- (Hout y Hny). apply (ch_out _ _ _ Hch). rewrite El in Hny. set_solver.
Qed.

Lemma release_all head fuel : hdrs_ok fs0 -> edll (headers fs0) (ss_fslab_head (fs_slabs fs0)) (ss_fslab_tail (fs_slabs fs0)) free ->
  hdll (headers fs0) head l0 -> (length l0 <= fuel)%nat ->
  exists fs', remove_all_loop fuel fs0 head fla_release_slab = Some (fs', FLA_LINKED_LIST_NULL, 0) /\ releasing fs' [].
Proof using All.
  intros Hok Hq [-> Hl _] Hf. apply (remove_all_spec releasing); [exact release_one|done|].
  split; [done|done| |by eexists|done|done]. exists []. rewrite app_nil_r. split; [done|]. split; [done|]. split; [cbn; lia|].
  intros x. rewrite decide_False; [done|apply not_elem_of_nil].
Qed.
End release.

(** ** Destroying a pool *)

(** A pool that could not be created changes nothing. *)
Lemma vacant_kept U fs fs' free : vacant U fs free -> same_but_pools fs fs' -> dir_inv U fs' -> same_free fs fs' -> vacant U fs' free.
Proof.
  intros [D Vf [? ? ?] [? ?] Vq Vn Vc Vs] [Gg Gd Gc _ Gl Ga] D' Hsf. pose proof (wf_range _ _ (di_flist _ _ D)).
  split; try done; unfold headers, cache_elem in *; rewrite ?Gg, ?Gd, ?Gc, ?Gl, ?Ga; try done.
  - rewrite Hsf by lia. done.
  - split; by rewrite ?Gg, ?Gd, ?Gc.
  - split; unfold headers; by rewrite ?Gg, ?Gl.
Qed.

(** A table operation sees nothing of a key but its hashes. *)
Definition same_hashes (k k' : list Z) : Prop := FLA_HTBL_H1 k = FLA_HTBL_H1 k' /\ FLA_HTBL_H2 k = FLA_HTBL_H2 k'.
Lemma lookup_same_hashes t k k' : same_hashes k k' -> htbl_lookup t k = htbl_lookup t k'.
Proof. intros [H1 H2]. unfold htbl_lookup. by rewrite H1, H2. Qed.
Lemma remove_same_hashes t k k' : same_hashes k k' -> htbl_remove t k = htbl_remove t k'.
Proof. intros H. destruct H as [H1 H2]. unfold htbl_remove. by rewrite H1, H2. Qed.

(** A pool without objects has only empty slabs. *)
Lemma no_live_empty fs e n free ls : alloc_inv fs e n free ls -> (forall o, ~ live fs n o) ->
  (forall l, l <> EmptySlabs -> ls l = []) /\ forall x, x ∈ ls EmptySlabs -> lookupZ (meta (headers fs)) x = Some (0, 0).
Proof.
  intros I Hn. assert (forall l x, x ∈ ls l -> lookupZ (meta (headers fs)) x = Some (0, 0) /\ l = EmptySlabs) as Ha.
  { intros l x Hx. destruct (ai_owned _ _ _ _ _ I l x Hx) as (rc & (Hm & fl & st & Hc & Hst & Hwf & Hu & _) & ->).
    assert (rc = 0) as ->; [|done]. rewrite <- Hu. apply bits_all_free; [done|]. intros i Hi.
    destruct (free_bit fl i) eqn:Hf; [done|]. destruct (Hn (mk_obj x i)). by exists fl, st. }
  split; [|intros x Hx; by eapply Ha]. intros l Hl. destruct (ls l) as [|x r] eqn:El; [done|].
  destruct Hl. apply (Ha l x). rewrite El. by constructor.
Qed.

Lemma release_list_nil fs ndx l e : pool_entry_at fs ndx = Some e -> pe_head l e = FLA_LINKED_LIST_NULL ->
  release_list fs ndx l = Some (set_pools (set_entries (insertZ ndx (pe_set_head l FLA_LINKED_LIST_NULL e) (ps_entries (fs_pools fs))) (fs_pools fs)) fs, 0).
Proof.
  intros He Hh. unfold release_list. rewrite He. bind_step. unfold fla_hdll_remove_all.
  assert (remove_all_loop (Z.to_nat (g_nslabs (fs_geo fs))) fs (pe_head l e) fla_release_slab = Some (fs, FLA_LINKED_LIST_NULL, 0)) as ->
    by (rewrite Hh; by destruct (Z.to_nat _)).
  bind_step. unfold upd_entry. unfold pool_entry_at in He. rewrite He. done.
Qed.

Section destroy.
Context (fs : flexalloc) (e : fla_pool_entry) (n : Z) (free : list Z) (ls : slab_list -> list Z).
Context (I : alloc_inv fs e n free ls).

(** The empty slabs go back to the queue. *)
Lemma empties_released : exists fs1, releasing fs free (ls EmptySlabs) fs1 [] /\
  release_list fs 0 EmptySlabs = Some (set_pools (set_entries (insertZ 0 (pe_set_head EmptySlabs FLA_LINKED_LIST_NULL e) (ps_entries (fs_pools fs))) (fs_pools fs)) fs1, 0).
Proof using I.
  pose proof (ai_lists _ _ _ _ _ I) as [Hq He Hls Hap Hfa].
  pose proof (ai_hdrs _ _ _ _ _ I) as Hok. pose proof (ai_num _ _ _ _ _ I) as [Hn1 Hn2]. unfold owned in Hn2.
  assert (forall x, x ∈ ls EmptySlabs -> lookupZ (meta (headers fs)) x = Some (0, 0)) as Hmeta.
  { intros x Hx. destruct (ai_owned _ _ _ _ _ I EmptySlabs x Hx) as (rc & [Hm _] & Hc). rewrite Hm. unfold class in Hc. do 2 f_equal.
    by destruct (Z.eqb_spec rc 0); [|destruct (n <? rc + 1)]. }
  assert (forall x, x ∈ ls EmptySlabs -> 0 <= x < g_nslabs (fs_geo fs)) as Hr.
  { intros x Hx. pose proof (Hmeta x Hx) as Hm. unfold meta in Hm. rewrite lookupZ_fmap in Hm.
    destruct (lookupZ (headers fs) x) as [h|] eqn:Hh; [|done]. by eapply in_range. }
  destruct (release_all fs free (ls EmptySlabs)) with (head := pe_head EmptySlabs e) (fuel := Z.to_nat (g_nslabs (fs_geo fs)))
    as (fs1 & Er & Re); try done.
  { apply NoDup_app. split; [apply Hq|]. split; [|apply (Hls EmptySlabs)]. intros x Hx Hx'. by eapply Hfa. }
  { intros x Hx. exists 0. by apply Hmeta. }
  { intros x Hx. by apply (ai_cache _ _ _ _ _ I), Hr. }
  { pose proof (ho_range _ Hok). unfold FLA_LINKED_LIST_NULL in *. lia. }
  { lia. }
  pose proof (re_frame _ _ _ _ _ Re) as (_ & _ & _ & _ & Ep & _). exists fs1. split; [done|].
  unfold release_list. rewrite He. bind_step. unfold fla_hdll_remove_all. rewrite Er. bind_step. unfold upd_entry. rewrite Ep.
  unfold pool_entry_at in He. by rewrite He.
Qed.

Context (U : list (list Z)) (D : dir_inv U fs) (name : list Z) (h : Z).
Context (Hk : name ∈ U) (Hh : FLA_HTBL_H2 name = Some h) (Hsame : same_hashes (pe_name e) name) (Hdir : dir fs !! h = Some 0).
Context (Hsu : s_npools (fs_super fs) = g_npools (fs_geo fs)).

(** The handle of the pool passes the checks. *)
Lemma destroy_enters : fla_base_pool_destroy fs (mk_pool h 0) =
  '(fs, err) ← fla_pool_release_all_slabs fs 0;
  if negb (err =? 0) then Some (fs, err) else
  '(err, freelist) ← fla_flist_entries_free (ps_freelist (fs_pools fs)) 0 1;
  let fs := set_pools (set_freelist freelist (fs_pools fs)) fs in
  if negb (err =? 0) then Some (fs, err) else
  e ← pool_entry_at fs 0;
  htbl ← htbl_remove (ps_htbl (fs_pools fs)) (pe_name e);
  Some (set_pools (set_htbl htbl (fs_pools fs)) fs, 0).
Proof using All.
  pose proof (wf_range _ _ (di_flist _ _ D)) as Hnp. pose proof (lo_entry _ _ _ _ (ai_lists _ _ _ _ _ I)) as He.
  unfold fla_base_pool_destroy. cbn [p_ndx p_h2]. rewrite (proj2 (Z.ltb_ge _ _)) by lia. rewrite He. bind_step.
  rewrite (lookup_same_hashes _ _ name) by done.
  destruct (htbl_lookup_spec U _ name h (di_keys _ _ D) (di_htbl _ _ D) Hk Hh) as (r & slots & -> & Ht & Hr). bind_step.
  fold (dir fs) in Hr. destruct r as [p|]; [|congruence]. destruct Hr as (x & Hx & Hx2 & Hv). rewrite Hdir in Hv. injection Hv as Hv.
  rewrite Ht. bind_step. rewrite Hx. bind_step. by rewrite Hx2, Z.eqb_refl, <- Hv.
Qed.



Section unused.
Context (Hno : forall o, ~ live fs n o).

Definition detached : fla_pool_entry :=
  pe_set_head PartialSlabs FLA_LINKED_LIST_NULL (pe_set_head FullSlabs FLA_LINKED_LIST_NULL (pe_set_head EmptySlabs FLA_LINKED_LIST_NULL e)).

Lemma release_all_slabs : exists fs', fla_pool_release_all_slabs fs 0 = Some (fs', 0) /\
  exists fs1 es, releasing fs free (ls EmptySlabs) fs1 [] /\ length es = length (ps_entries (fs_pools fs)) /\
    fs' = set_pools (set_entries es (fs_pools fs)) fs1 /\ lookupZ es 0 = Some detached /\
    forall i, i <> 0 -> lookupZ es i = lookupZ (ps_entries (fs_pools fs)) i.
Proof using I Hno Hsame.
  destruct (no_live_empty fs e n free ls I Hno) as [Hnil _]. pose proof (ai_lists _ _ _ _ _ I) as [Hq He Hls Hap Hfa].
  destruct empties_released as (fs1 & Re & Er). unfold fla_pool_release_all_slabs. rewrite Er.
  pose proof (lookupZ_Some _ _ _ He) as Hlt.
  set (e1 := pe_set_head EmptySlabs FLA_LINKED_LIST_NULL e). set (es1 := insertZ 0 e1 (ps_entries (fs_pools fs))).
  bind_step. no_err.
  assert (forall l, l <> EmptySlabs -> pe_head l e = FLA_LINKED_LIST_NULL) as Hh0.
  { intros l Hl. rewrite (hd_head _ _ _ (Hls l)), (Hnil l Hl). done. }
  rewrite (release_list_nil _ 0 FullSlabs e1); [|by apply lookupZ_insertZ_eq|rewrite <- (Hh0 FullSlabs) by done; by destruct e].
  bind_step. no_err. set (e2 := pe_set_head FullSlabs FLA_LINKED_LIST_NULL e1). cbn [fs_pools set_pools set_entries ps_entries].
  rewrite (release_list_nil _ 0 PartialSlabs e2); [|apply lookupZ_insertZ_eq; unfold es1; cbn [ps_entries fs_pools set_pools set_entries]; by rewrite !length_insertZ|rewrite <- (Hh0 PartialSlabs) by done; by destruct e].
  cbn [fs_pools set_pools set_entries ps_entries]. eexists. split; [done|]. exists fs1, (insertZ 0 detached (insertZ 0 e2 es1)).
  split; [done|]. unfold es1. rewrite !length_insertZ. split; [done|]. split; [done|].
  split; [apply lookupZ_insertZ_eq; by rewrite !length_insertZ|]. intros i Hi. by rewrite !lookupZ_insertZ_ne by done.
Qed.

(** The directory without the pool. *)
Lemma destroy_dir_inv fs' t es : htbl_repr U t (delete h (dir fs)) -> fs_geo fs' = fs_geo fs ->
  fs_pools fs' = mk_pools (flist_set (ps_freelist (fs_pools fs)) 0) t (ps_htbl_hdr (fs_pools fs)) es (ps_entrie_funcs (fs_pools fs)) ->
  length es = length (ps_entries (fs_pools fs)) -> lookupZ es 0 = Some detached ->
  (forall i, i <> 0 -> lookupZ es i = lookupZ (ps_entries (fs_pools fs)) i) -> dir_inv U fs' /\ free_bit (ps_freelist (fs_pools fs')) 0 = true.
Proof using I D Hdir.
  intros [Ht Hm] G P Hl H0 Hi. pose proof D as [K _ F En Fu Na Us In]. pose proof (wf_range _ _ F).
  pose proof (elems_bounds (g_npools (fs_geo fs)) ltac:(lia)). pose proof (lo_entry _ _ _ _ (ai_lists _ _ _ _ _ I)) as He.
  split; [|rewrite P; cbn; rewrite (free_bit_set _ (g_npools (fs_geo fs))) by (done || lia); by rewrite decide_True].
  split; unfold pool_entry_at; rewrite ?G, ?P; cbn [ps_htbl ps_freelist ps_entries ps_entrie_funcs]; rewrite ?Hm, ?Hl; try done.
  - apply flist_set_wf; [done|lia].
  - intros i e'. destruct (decide (i = 0)) as [->|Hne]; [rewrite H0; intros [= <-]; apply (Na 0 e He)|].
    rewrite (Hi i Hne). apply Na.
  - intros h' i [Hne Hd]%lookup_delete_Some. destruct (Us h' i Hd) as [Hr Hb]. split; [done|].
    rewrite (free_bit_set _ (g_npools (fs_geo fs))) by (done || lia). case_decide as Hi0; [|done]. subst i. destruct Hne. by eapply In.
  - intros ha hb i [_ Ha]%lookup_delete_Some [_ Hb]%lookup_delete_Some. by eapply In.
Qed.

(** Destroying the pool. *)
Lemma destroy_pool_spec : exists fs', fla_base_pool_destroy fs (mk_pool h 0) = Some (fs', 0) /\
  vacant U fs' (free ++ ls EmptySlabs) /\ dir fs' = delete h (dir fs) /\ fs_geo fs' = fs_geo fs /\ fs_super fs' = fs_super fs.
Proof using All.
  pose proof (wf_range _ _ (di_flist _ _ D)) as Hnp. pose proof (lo_entry _ _ _ _ (ai_lists _ _ _ _ _ I)) as He.
  rewrite destroy_enters.
  destruct release_all_slabs as (fs' & -> & fs1 & es & Re & Hl & -> & H0 & Hi). bind_step. no_err.
  cbn [fs_pools set_pools set_entries ps_freelist].
  rewrite (entries_free_1 _ (g_npools (fs_geo fs))) by (apply D || lia). bind_step. no_err.
  set (fs2 := set_pools _ _). assert (pool_entry_at fs2 0 = Some detached) as -> by exact H0. bind_step.
  change (pe_name detached) with (pe_name e).
  rewrite (remove_same_hashes _ _ name) by done. change (htbl_remove _ name) with (htbl_remove (ps_htbl (fs_pools fs)) name).
  destruct (htbl_remove_spec U _ name h (di_keys _ _ D) (di_htbl _ _ D) Hk Hh) as (t & -> & Hrep & _). bind_step.
  eexists. split; [done|]. destruct Re as [(Rg & Rd & Rc & Rs & Rp & _) Rh (dn & El & Rq & Rn & Rca) _ Rm].
  rewrite app_nil_r in El. subst dn. set (fs3 := set_pools _ fs2).
  destruct (destroy_dir_inv fs3 t es Hrep Rg eq_refl Hl H0 Hi) as [D3 F3]. pose proof (ai_num _ _ _ _ _ I) as [Hn1 Hn2]. unfold owned in Hn2.
  split; [|split; [apply Hrep|done]]. split; try done.
  - destruct (ai_cns _ _ _ _ _ I). split; cbn; rewrite ?Rg, ?Rd, ?Rc; done.
  - by split; apply Rh.
  - cbn. rewrite Rn, Rg, length_app. lia.
  - change (fs_geo fs3) with (fs_geo fs1). rewrite Rg. intros x' Hx'. change (cache_elem fs3 x') with (cache_elem fs1 x'). rewrite Rca.
    case_decide; [by eexists|]. by apply (ai_cache _ _ _ _ _ I).
  - intros x' el. change (cache_elem fs3 x') with (cache_elem fs1 x'). rewrite Rca. case_decide as Hin; [by intros [= <-]|]. intros Hel.
    destruct (decide (ce_state el = FLA_SLAB_CACHE_ELEM_STALE)) as [|Hns]; [done|]. destruct Hin.
    destruct (ai_cached _ _ _ _ _ I x' el Hel Hns) as [l Hin]. destruct (decide (l = EmptySlabs)) as [->|Hne]; [done|].
    rewrite (proj1 (no_live_empty fs e n free ls I Hno) l Hne) in Hin. by apply not_elem_of_nil in Hin.
Qed.
End unused.
End destroy.

(** ** Pools one after the other *)

(** A name given with its terminator. *)
Record terminated (U : list (list Z)) (arg : fla_pool_create_arg) : Prop := {
  tm_in : a_name arg ∈ U;
  tm_string : exists s rest, a_name arg = s ++ 0 :: rest /\ Forall (fun c => c <> 0) s /\ a_name_len arg = Z.of_nat (length s) + 1;
  tm_size : 0 < a_obj_nlb arg
}.

(** Whatever the entry was called before, its name is now that of the argument. *)
Lemma terminated_name U arg old : terminated U arg ->
  same_hashes (take (Z.to_nat (a_name_len arg)) (a_name arg) ++ drop (Z.to_nat (a_name_len arg)) old) (a_name arg).
Proof.
  intros [_ (s & rest & -> & Hs & ->) _]. replace (Z.to_nat (Z.of_nat (length s) + 1)) with (length s + 1)%nat by lia.
  rewrite take_app_add. cbn [take]. rewrite <- app_assoc. cbn [app]. unfold same_hashes, FLA_HTBL_H1, FLA_HTBL_H2, fla_hash_djb2, fla_hash_sdbm.
  rewrite !strlen_of by done. cbn [mbind option_bind]. rewrite !take_app_length. split; [done|]. apply sdbm_prefix.
  rewrite Forall_forall in Hs. intros H0. by apply (Hs 0).
Qed.

Section lives.
Context {W : Type} `{E : XnvmeEnv W}.

(** A client creates a pool, creates and destroys objects in it, destroys those that
    are left, and destroys the pool: the result of that, or nothing when there is no
    pool, and how many creations of objects were refused memory. *)
Definition pool_life (arg : fla_pool_create_arg) (ops : list client_op) (w : W) (fs : flexalloc) :
    option (W * flexalloc * option Z * nat) :=
  '(w, fs, pool, err) ← fla_base_pool_create w fs arg;
  if negb (err =? 0) then Some (w, fs, None, 0%nat)
  else
    pool ← pool;
    let lost := client_lost ops w fs pool [] in
    '(w, fs, held) ← client ops w fs pool [];
    '(w, fs, _) ← client (replicate (length held) (OpDestroy 0)) w fs pool held;
    '(fs, err) ← fla_base_pool_destroy fs pool;
    Some (w, fs, Some err, lost).

Fixpoint pool_lives (rounds : list (fla_pool_create_arg * list client_op)) (w : W) (fs : flexalloc) :
    option (W * flexalloc * list (option Z) * nat) :=
  match rounds with
  | [] => Some (w, fs, [], 0%nat)
  | (arg, ops) :: rounds =>
      '(w, fs, r, lost) ← pool_life arg ops w fs;
      '(w, fs, rs, lost') ← pool_lives rounds w fs;
      Some (w, fs, r :: rs, (lost + lost')%nat)
  end.

Lemma client_frame ops pool : forall (w : W) fs held w' fs' held', client ops w fs pool held = Some (w', fs', held') ->
  forall fs0, obj_frame fs0 fs -> obj_frame fs0 fs'.
Proof using.
  induction ops as [|op ops IH]; intros w fs held w' fs' held' Hr fs0 F; cbn [client] in Hr; [by injection Hr as <- <- <-|].
  destruct (client_step op w fs pool held) as [[[w1 fs1] held1]|] eqn:Es; [|done]. cbn [mbind option_bind] in Hr.
  eapply IH; [exact Hr|]. destruct op; cbn [client_step] in Es; run_inv; try done;
    first [by eapply object_create_frame | by eapply object_destroy_frame].
Qed.

Context (block : W -> xnvme_dev -> Z -> list Z) `{!XnvmeLaws W block}.

Lemma client_drain k pool nlb n : p_ndx pool = 0 -> forall held w fs, holds_in k fs nlb n held ->
  exists fs', client (replicate (length held) (OpDestroy 0)) w fs pool held = Some (w, fs', []) /\ holds_in k fs' nlb n [].
Proof using All.
  intros Hp. induction held as [|o held IH]; intros w fs Hh; [by exists fs|]. cbn [length replicate client client_step lookup list_lookup].
  destruct Hh as [(e & free & ls & I & He & Ek) [Hnd Hl]]. assert (live fs n o) as Hlo by (apply Hl; by constructor).
  destruct (destroy_spec fs e n free ls I pool Hp w o Hlo) as (fs1 & e1 & ls1 & -> & Hl1 & I1 & _ & Ho1 & Ow). cbn [mbind option_bind Z.eqb delete list_delete].
  apply IH. split; [exists e1, free, ls1; split; [done|]; split; [congruence|unfold accounted in *; lia]|]. apply NoDup_cons in Hnd as [Hn Hnd]. split; [done|].
  intros o'. rewrite Hl1, <- Hl, elem_of_cons. split; [intros Hin; split; [by intros ->|by right]|]. by intros [? [?|?]].
Qed.

Context (U : list (list Z)).

Lemma pool_life_spec arg ops w fs free h : vacant U fs free -> s_npools (fs_super fs) = g_npools (fs_geo fs) -> terminated U arg ->
  FLA_HTBL_H2 (a_name arg) = Some h -> dir fs !! h = None ->
  exists w' fs' r lost free', pool_life arg ops w fs = Some (w', fs', r, lost) /\ (r = None \/ r = Some 0) /\ vacant U fs' free' /\
    (length free' + lost)%nat = length free /\ fs_geo fs' = fs_geo fs /\
    s_npools (fs_super fs') = g_npools (fs_geo fs') /\ dir fs' = dir fs /\ forall dev lba, block w' dev lba = block w dev lba.
Proof using All.
  intros V Hsu Tm Hh Hnew. pose proof (va_dir _ _ _ V) as D. pose proof (va_cns _ _ _ V) as C.
  destruct (calc_objs_spec fs (a_obj_nlb arg) C (tm_size _ _ Tm)) as (n & Hn & Hr & _).
  assert (0 <= a_name_len arg <= Z.of_nat (length (a_name arg))) as Hlen.
  { destruct (tm_string _ _ Tm) as (s & rest & -> & _ & ->). rewrite length_app. cbn [length]. lia. }
  destruct (pool_create_spec block U fs D C arg h n (tm_in _ _ Tm) Hh Hnew Hn Hlen w) as (w1 & fs1 & hdl & err & Ec & Hb & SP & D1 & Hout).
  unfold pool_life. rewrite Ec. bind_step. pose proof SP as [Gg Gd Gc Gs Gl Ga].
  destruct Hout as [(Hne & -> & Hd & _ & Hsf)|(-> & ndx & -> & CO)].
  { rewrite (proj2 (Z.eqb_neq err 0)) by done. cbn [negb]. exists w1, fs1, None, 0%nat, free. split; [done|]. split; [by left|].
    split; [by eapply vacant_kept|]. rewrite Gs, Gg. by split; [lia|]. }
  no_err. bind_step. destruct (first_pool U fs free fs1 arg h n ndx V SP CO Hn ltac:(lia) (tm_size _ _ Tm)) as (-> & e & He & I & Hno).
  assert (holds_in (length free) fs1 (a_obj_nlb arg) n []) as Hh1.
  { split; [exists e, free, (fun _ => []); split; [done|]; split; [done|unfold accounted, owned; cbn [length]; lia]|]. split; [constructor|]. intros o. split; [by intros ?%not_elem_of_nil|by intros ?%Hno]. }
  destruct (client_accounts block ops (mk_pool h 0) (a_obj_nlb arg) n eq_refl _ w1 fs1 [] Hh1) as (k & w2 & fs2 & held & Eo & Hh2 & Hk & _ & Hb2).
  rewrite Eo. bind_step. destruct (client_drain k (mk_pool h 0) _ n eq_refl held w2 fs2 Hh2) as (fs3 & Ed & (e3 & free3 & ls3 & I3 & _ & Ek) & _ & Hno3).
  rewrite Ed. bind_step.
  assert (obj_frame fs1 fs3) as F by (eapply client_frame; [exact Ed|]; eapply client_frame; [exact Eo|]; by split).
  pose proof (frame_same_names _ _ F) as SN. destruct (same_names_dir U fs1 fs3 SN D1) as [D3 Ed3].
  destruct (same_names_entry _ _ _ _ SN (lo_entry _ _ _ _ (ai_lists _ _ _ _ _ I3))) as (e1 & He1 & _ & En).
  destruct (co_entry _ _ _ _ _ _ CO) as (e0 & name & He0 & Hes & ->).
  assert (same_hashes (pe_name e3) (a_name arg)) as Hsame.
  { rewrite En. unfold pool_entry_at in He1. rewrite Hes, lookupZ_insertZ_eq in He1 by (by eapply lookupZ_Some).
    injection He1 as <-. by eapply terminated_name. }
  assert (forall o, ~ live fs3 n o) as Hno4 by (intros o Hl; apply Hno3 in Hl; by apply not_elem_of_nil in Hl).
  destruct (destroy_pool_spec fs3 e3 n free3 ls3 I3) with (U := U) (name := a_name arg) (h := h) as (fs4 & -> & V4 & Ed4 & G4 & S4); try done.
  { apply Tm. }
  { rewrite Ed3, (co_dir _ _ _ _ _ _ CO). apply lookup_insert_eq. }
  { by rewrite (sn_super _ _ SN), (sn_geo _ _ SN), Gs, Gg. }
  bind_step. do 5 eexists. split; [done|]. split; [by right|]. split; [exact V4|].
  split. { pose proof (proj1 (no_live_empty _ _ _ _ _ I3 Hno4)) as Hnil. unfold accounted, owned in Ek.
           rewrite (Hnil FullSlabs), (Hnil PartialSlabs) in Ek by done. rewrite length_app. cbn [length] in Ek. lia. }
  split; [by rewrite G4, (sn_geo _ _ SN), Gg|].
  split; [by rewrite S4, G4, (sn_super _ _ SN), (sn_geo _ _ SN), Gs, Gg|]. split; [|intros; by rewrite Hb2].
  rewrite Ed4, Ed3, (co_dir _ _ _ _ _ _ CO). by apply delete_insert_id.
Qed.

Lemma pool_lives_spec rounds : forall w fs free, vacant U fs free -> s_npools (fs_super fs) = g_npools (fs_geo fs) -> dir fs = ∅ ->
  Forall (fun r => terminated U r.1) rounds ->
  exists w' fs' rs lost free', pool_lives rounds w fs = Some (w', fs', rs, lost) /\ Forall (fun r => r = None \/ r = Some 0) rs /\
    vacant U fs' free' /\ (length free' + lost)%nat = length free /\ fs_geo fs' = fs_geo fs /\ dir fs' = ∅ /\ forall dev lba, block w' dev lba = block w dev lba.
Proof using All.
  induction rounds as [|[arg ops] rounds IH]; intros w fs free V Hsu Hd Hr; cbn [pool_lives]; [exists w, fs, [], 0%nat, free; do 3 (split; [done|]); by split; [lia|]|].
  apply Forall_cons in Hr as [Ht Hr]. cbn [fst] in Ht. destruct (ko_string U (di_keys _ _ (va_dir _ _ _ V)) _ (tm_in _ _ Ht)) as (a & h & _ & Hh).
  destruct (pool_life_spec arg ops w fs free h V Hsu Ht Hh) as (w1 & fs1 & r & lost1 & free1 & -> & Hr1 & V1 & Hl1 & G1 & Hsu1 & Hd1 & Hb1); [by rewrite Hd|].
  bind_step. destruct (IH w1 fs1 free1 V1 Hsu1) as (w2 & fs2 & rs & lost2 & free2 & -> & Hrs & V2 & Hl2 & G2 & Hd2 & Hb2); [by rewrite Hd1|done|]. bind_step.
  do 5 eexists. split; [done|]. split; [by constructor|]. split; [exact V2|]. split; [lia|]. split; [congruence|]. split; [done|]. intros. by rewrite Hb2.
Qed.
End lives.

(** The queue holds different slabs of the device, so when it is long enough it holds
    them all. *)
Lemma vacant_all U fs free : vacant U fs free -> Z.of_nat (length free) = g_nslabs (fs_geo fs) -> free ≡ₚ seqZ 0 (g_nslabs (fs_geo fs)).
Proof.
  intros V Hlen. pose proof (va_queue _ _ _ V) as Q. pose proof (va_hdrs _ _ _ V) as Hok.
  apply submseteq_length_Permutation; [|rewrite length_seqZ; lia]. apply NoDup_submseteq; [apply Q|].
  intros x Hx. destruct (ed_links _ _ _ _ Q) as [p Hs]. destruct (lseg_lookup _ _ _ _ x Hs Hx) as [h Hh]. apply elem_of_seqZ. pose proof (in_range fs Hok x h Hh). lia.
Qed.

(** ** Claims *)

(** C15: Pools can be created and destroyed without end, and no slab is lost on the
    way.  On a formatted and opened device a client goes through any number of pools,
    one after the other, whose names are given with their terminator: it creates a
    pool, creates and destroys objects in it in any order, destroys those that are left
    and destroys the pool.  Every round runs to its end, whatever the earlier ones left
    behind in the entries; every pool that could be created is destroyed with result 0;
    and after the last round no name is in the directory, index 0 is free, no freelist
    is cached and no block has changed.  The queue of free slabs is linked in order and
    holds all slabs of the device, in some order, but one for every creation of an
    object that was refused the memory of a freelist: those are the only ones lost. *)
Theorem pools_recycled {W} `{E : XnvmeEnv W} `{A : XnvmeAdm W} block `{!XnvmeLaws W block} `{!XnvmeAdmLaws W block}
    U dev pr w0 geo0 md_geo0 junk w1 w2 h rounds :
  keys_ok U -> mkfs_request dev pr -> fla_mkfs w0 pr geo0 md_geo0 junk = Some (w1, 0) ->
  fla_open w1 (mp_open_opts pr) = Some (w2, Some h, 0) -> Forall (fun r => terminated U r.1) rounds ->
  exists w' fs' rs lost free, pool_lives rounds w2 (h_fs h) = Some (w', fs', rs, lost) /\
    Forall (fun r => r = None \/ r = Some 0) rs /\ vacant U fs' free /\ dir fs' = ∅ /\
    Z.of_nat (length free) + Z.of_nat lost = g_nslabs (fs_geo (h_fs h)) /\
    (lost = 0%nat -> free ≡ₚ seqZ 0 (g_nslabs (fs_geo (h_fs h)))) /\
    forall dev lba, block w' dev lba = block w2 dev lba.
Proof.
  intros HU R Em Eo Hr. destruct (mkfs_open_ready block U dev pr w0 geo0 md_geo0 junk w1 w2 h HU R Em Eo) as (Rd & _ & _).
  destruct (mkfs_open_typed block dev pr w0 geo0 md_geo0 junk w1 w2 h R Em Eo) as (_ & geo & p & [(funcs & Efs & _) _ _ _] & F & _).
  destruct (pool_lives_spec block U rounds w2 (h_fs h) _ (ready_vacant _ _ Rd)) as (w' & fs' & rs & lost & free & El & Hrs & V & Hl & G & Hd & Hb);
    [rewrite Efs; cbn; by rewrite (fm_super _ _ F)|apply Rd|done|].
  pose proof (ho_range _ (rd_hdrs _ _ Rd)) as Hns. rewrite length_seqZ in Hl.
  exists w', fs', rs, lost, free. do 4 (split; [done|]). split; [lia|]. split; [|done].
  intros ->. rewrite <- G. apply (vacant_all U fs' free V). rewrite G. lia.
Qed.

Definition ex_round (c : Z) : fla_pool_create_arg * list client_op := (mk_create_arg 0 [c; 0] 2 10 0 0, [OpCreate; OpCreate; OpDestroy 0]).

Lemma pools_recycled_witness : exists w' fs' rs free, pool_lives [ex_round 97; ex_round 98] ex_disk ex_fs1 = Some (w', fs', rs, 0%nat) /\
  rs = [Some 0; Some 0] /\ vacant ex_names fs' free /\ free ≡ₚ seqZ 0 (g_nslabs (fs_geo ex_fs1)) /\ dir fs' = ∅.
Proof.
  destruct (pools_recycled RamDisk.block ex_names ex_dev1k ex_request ex_world ex_geo0 ex_geo0 ex_junk ex_disk ex_disk ex_handle
    [ex_round 97; ex_round 98] ex_keys ex_request_ok ex_mkfs ex_open) as (w' & fs' & rs & lost & free & El & _ & V & Hd & _ & Hp & _).
  { repeat apply Forall_cons_2; [..|apply Forall_nil_2]; (split; [vm_compute; set_solver| |cbn; lia]); cbn.
    - exists [97], []. split; [reflexivity|]. split; [by repeat constructor|reflexivity].
    - exists [98], []. split; [reflexivity|]. split; [by repeat constructor|reflexivity]. }
  change (h_fs ex_handle) with ex_fs1 in El, Hp.
  assert ((fun r => (r.1.2, r.2)) <$> pool_lives [ex_round 97; ex_round 98] ex_disk ex_fs1 = Some ([Some 0; Some 0], 0%nat)) as Hc
    by (vm_compute; reflexivity).
  rewrite El in Hc. injection Hc as -> ->. exists w', fs', [Some 0; Some 0], free.
  split; [exact El|]. split; [reflexivity|]. split; [exact V|]. split; [exact (Hp eq_refl)|exact Hd].
Defined.

(** The state after creating a pool with the given name and length, and its handle. *)
Definition ex_named (fs : flexalloc) (name : list Z) (n : Z) : flexalloc :=
  from_option (fun r => r.1.1.2) ex_cns (fla_base_pool_create ex_disk fs (mk_create_arg 0 name n 10 0 0)).
Definition ex_destroyed (fs : flexalloc) (pool : fla_pool) : flexalloc := from_option fst ex_cns (fla_base_pool_destroy fs pool).
Definition ex_ab : flexalloc := ex_named ex_fs1 [97; 98; 0] 2.
Definition ex_c : flexalloc := ex_named (ex_destroyed ex_ab (mk_pool 6363201 0)) [99; 0] 1.




(** What destroying a pool does not do.  A pool that still holds objects is not
    destroyed, but the slab with the objects is taken out of its list all the same;
    a second attempt then succeeds, and the slab is in no list, not in the queue of
    free slabs and still counted as in use: it is lost.  And a name that is given
    without its terminator, as a length that is that of the string allows, leaves the
    end of a longer name that the entry had before: after a pool "ab" was destroyed
    the pool "c" at the same entry can be opened, but not destroyed. *)
Theorem pool_destroy_departs :
  (exists fs1 fs2, fla_base_pool_destroy ex_fs3 ex_pool = Some (fs1, 1) /\ fla_base_pool_destroy fs1 ex_pool = Some (fs2, 0) /\
     fla_base_pool_open ex_disk fs2 [97; 0] = Some (ex_disk, None, -1) /\
     ss_fslab_head (fs_slabs fs2) = 1 /\ (sl_refcount <$> lookupZ (headers fs2) 0) = Some 3) /\
  fla_base_pool_destroy ex_ab (mk_pool 6363201 0) = Some (ex_destroyed ex_ab (mk_pool 6363201 0), 0) /\
  fla_base_pool_open ex_disk ex_c [99; 0] = Some (ex_disk, Some (mk_pool 99 0), 0) /\
  fla_base_pool_destroy ex_c (mk_pool 99 0) = Some (ex_c, 1).
Proof. split; [do 2 eexists|]; repeat (split; [vm_compute; reflexivity|]); vm_compute; reflexivity. Qed.
