(* ===== verification/Restart.v ===== *)
(** * Restart: sessions one after the other

    A system that was closed and opened again has the freelists of its slabs on the
    device and nothing in the cache.  [chill] relates the two: a handle with every
    freelist cached, for which [Alloc] and [Store] hold, and the same handle with some
    of the clean freelists left out.  Creating and opening objects load what is
    missing; every other step is the same in both.  The theorem follows a client
    through any number of sessions. *)
From S2P Require Import Prelude Util Freelist Hash XnvmeEnv Flexalloc PoolEntry Geometry CommandSet.
From S2P Require Import SlabList SlabCache Slab Pool Object Alloc ObjectIO DataPlacement Layout Format System Typed.
From S2P Require Import History Store Durability.

(** ** A handle with freelists left out *)

(** The clean freelists of the slabs [K] are not in the cache. *)
Definition chill_elem (K : Z -> bool) (x : Z) (el : fla_slab_flist_cache_elem) : fla_slab_flist_cache_elem :=
  if K x && bool_decide (ce_state el = FLA_SLAB_CACHE_ELEM_CLEAN) then mk_elem None FLA_SLAB_CACHE_ELEM_STALE else el.
Definition chill (K : Z -> bool) (fs : flexalloc) : flexalloc :=
  set_cache (imap (fun i => chill_elem K (Z.of_nat i)) <$> fs_cache fs) fs.
Definition without (K : Z -> bool) (x y : Z) : bool := K y && negb (y =? x).

Lemma chill_cache_elem K fs x : cache_elem (chill K fs) x = chill_elem K x <$> cache_elem fs x.
Proof.
  unfold cache_elem, chill. cbn. destruct (fs_cache fs) as [c|]; [|done]. cbn. unfold lookupZ.
  destruct (Z.ltb_spec x 0); [done|]. rewrite list_lookup_imap. rewrite Z2Nat.id by done. done.
Qed.

Lemma chill_set K fs x el : set_cache_elem (chill K fs) x (chill_elem K x el) = chill K (set_cache_elem fs x el).
Proof.
  unfold set_cache_elem, chill. cbn. destruct (fs_cache fs) as [c|]; [|done]. cbn. unfold set_cache. cbn. do 2 f_equal.
  unfold insertZ. destruct (Z.ltb_spec x 0); [done|]. apply list_eq. intros i.
  rewrite list_lookup_imap, !list_lookup_insert, list_lookup_imap, length_imap. case_decide as Hi; [|done].
  destruct Hi as [<- _]. cbn. by rewrite Z2Nat.id.
Qed.

Lemma chill_refresh K fs x el : cache_elem fs x = Some el -> set_cache_elem (chill K fs) x el = chill (without K x) fs.
Proof.
  intros Hel. unfold set_cache_elem, chill. unfold cache_elem in Hel. cbn. destruct (fs_cache fs) as [c|]; [|done]. cbn in *. unfold set_cache. cbn. do 2 f_equal.
  unfold insertZ, lookupZ in *. destruct (Z.ltb_spec x 0); [done|]. apply list_eq. intros i.
  rewrite list_lookup_insert, !list_lookup_imap, length_imap. case_decide as Hi.
  - destruct Hi as [<- _]. rewrite Hel. cbn. unfold chill_elem, without. by rewrite Z2Nat.id, Z.eqb_refl, andb_false_r.
  - destruct (c !! i) as [e|] eqn:Ei; [|done]. cbn. unfold chill_elem, without.
    rewrite (proj2 (Z.eqb_neq (Z.of_nat i) x)), andb_true_r; [done|]. intros <-. apply lookup_lt_Some in Ei. lia.
Qed.

Lemma header_upd_chill K fs slab f : header_upd (chill K fs) slab f = chill K <$> header_upd fs slab f.
Proof. unfold header_upd. change (headers (chill K fs)) with (headers fs). by destruct (lookupZ _ _). Qed.
Lemma upd_entry_chill K fs ndx f : upd_entry (chill K fs) ndx f = chill K <$> upd_entry fs ndx f.
Proof. unfold upd_entry. change (fs_pools (chill K fs)) with (fs_pools fs). by destruct (lookupZ _ _). Qed.


(** What does not read the cache is the same in both. *)
Ltac chill_same := lazymatch goal with
  | |- context [headers (chill ?K ?fs)] => change (headers (chill K fs)) with (headers fs)
  | |- context [fs_slabs (chill ?K ?fs)] => change (fs_slabs (chill K fs)) with (fs_slabs fs)
  | |- context [pool_entry_at (chill ?K ?fs) ?n] => change (pool_entry_at (chill K fs) n) with (pool_entry_at fs n)
  | |- context [entry_fnc_at (chill ?K ?fs) ?n] => change (entry_fnc_at (chill K fs) n) with (entry_fnc_at fs n)
  | |- context [fla_slab_header_ptr ?s (chill ?K ?fs)] =>
      change (fla_slab_header_ptr s (chill K fs)) with (fla_slab_header_ptr s fs)
  | |- context [fla_slab_id ?s (chill ?K ?fs)] => change (fla_slab_id s (chill K fs)) with (fla_slab_id s fs)
  | |- context [fla_pool_best_slab_list (chill ?K ?fs) ?s] =>
      change (fla_pool_best_slab_list (chill K fs) s) with (fla_pool_best_slab_list fs s)
  end.
Ltac chill_step := (lazymatch goal with
  | |- context [header_upd (chill ?K ?fs) ?s ?f] => rewrite (header_upd_chill K fs s f); destruct (header_upd fs s f)
  | |- context [upd_entry (chill ?K ?fs) ?s ?f] => rewrite (upd_entry_chill K fs s f); destruct (upd_entry fs s f)
  | |- _ => first [chill_same | lazymatch goal with
    | |- context [match fla_slab_header_ptr ?s ?fs with _ => _ end] => destruct (fla_slab_header_ptr s fs)
    | |- context [let '(_, _) := ?p in _] => destruct p
    | |- mbind _ ?m = _ => destruct m
    | |- (if ?b then _ else _) = _ => destruct b
    end]
  end); cbn [fmap option_fmap option_map mbind option_bind fst snd]; try reflexivity.
Ltac chilled := cbn [fmap option_fmap option_map mbind option_bind fst snd]; repeat chill_step.

Lemma prepend_chill K fs slab head :
  fla_hdll_prepend (chill K fs) slab head = (fun r => (chill K r.1.1, r.1.2, r.2)) <$> fla_hdll_prepend fs slab head.
Proof. unfold fla_hdll_prepend, prepend_link. chilled. Qed.
Lemma remove_chill K fs slab head :
  fla_hdll_remove (chill K fs) slab head = (fun r => (chill K r.1.1, r.1.2, r.2)) <$> fla_hdll_remove fs slab head.
Proof. unfold fla_hdll_remove, unlink_next. chilled. Qed.
Lemma remove_head_chill K fs head tail : fla_edll_remove_head (chill K fs) head tail =
  (fun r => (chill K r.1.1.1.1, r.1.1.1.2, r.1.1.2, r.1.2, r.2)) <$> fla_edll_remove_head fs head tail.
Proof. unfold fla_edll_remove_head. chilled. Qed.
Lemma add_tail_chill K fs head tail s : fla_edll_add_tail (chill K fs) head tail s =
  (fun r => (chill K r.1.1.1, r.1.1.2, r.1.2, r.2)) <$> fla_edll_add_tail fs head tail s.
Proof. unfold fla_edll_add_tail. chilled. Qed.

Lemma list_op_chill K op fs slab a :
  (forall fs slab head, op (chill K fs) slab head = (fun r => (chill K r.1.1, r.1.2, r.2)) <$> op fs slab head) ->
  list_op op (chill K fs) slab a = (fun r => (chill K r.1, r.2)) <$> list_op op fs slab a.
Proof.
  intros Hop. unfold list_op. repeat chill_same. destruct (pool_entry_at fs a.1) as [e|]; [|done]. bind_step. rewrite Hop.
  destruct (op fs slab (pe_head a.2 e)) as [[[fs1 h] err]|]; [|done]. chilled.
Qed.
Lemma list_prepend_chill K fs slab a : list_op fla_hdll_prepend (chill K fs) slab a =
  (fun r => (chill K r.1, r.2)) <$> list_op fla_hdll_prepend fs slab a.
Proof. apply list_op_chill, prepend_chill. Qed.
Lemma list_remove_chill K fs slab a : list_op fla_hdll_remove (chill K fs) slab a =
  (fun r => (chill K r.1, r.2)) <$> list_op fla_hdll_remove fs slab a.
Proof. apply list_op_chill, remove_chill. Qed.

(** Slab [x] is the same in both. *)
Definition warm_at (K : Z -> bool) (fs : flexalloc) (x : Z) : Prop :=
  forall el, cache_elem fs x = Some el -> chill_elem K x el = el.

Lemma warm_elem K fs x : warm_at K fs x -> cache_elem (chill K fs) x = cache_elem fs x.
Proof. intros Hw. rewrite chill_cache_elem. destruct (cache_elem fs x) as [el|] eqn:Hel; [|done]. cbn. by rewrite Hw. Qed.

Lemma chill_elem_state K x el el' : chill_elem K x el = el -> ce_state el' = ce_state el -> ce_state el <> FLA_SLAB_CACHE_ELEM_STALE ->
  chill_elem K x el' = el'.
Proof.
  unfold chill_elem. intros He -> Hs. destruct (_ && _); [|done]. by rewrite <- He in Hs.
Qed.
Lemma chill_elem_fixed K x el : ce_state el <> FLA_SLAB_CACHE_ELEM_CLEAN -> chill_elem K x el = el.
Proof. intros Hs. unfold chill_elem. by rewrite bool_decide_eq_false_2, andb_false_r. Qed.
Lemma chill_set_fixed K fs x el : chill_elem K x el = el -> set_cache_elem (chill K fs) x el = chill K (set_cache_elem fs x el).
Proof. intros He. rewrite <- chill_set. by rewrite He. Qed.

Lemma obj_alloc_chill K fs x n : warm_at K fs x ->
  fla_slab_cache_obj_alloc (chill K fs) x n = (fun r => (chill K r.1.1, r.1.2, r.2)) <$> fla_slab_cache_obj_alloc fs x n.
Proof.
  intros Hw. unfold fla_slab_cache_obj_alloc. rewrite warm_elem by done. destruct (cache_elem fs x) as [el|] eqn:Hel; [|done]. bind_step.
  case_bool_decide as Hs; [done|]. destruct (ce_freelist el) as [fl|]; [|done]. bind_step.
  destruct (fla_flist_entries_alloc fl n) as [[i fl']|]; [|done]. bind_step. destruct (i <? 0); cbn [fmap option_fmap option_map fst snd].
  - by rewrite chill_set_fixed by (eapply chill_elem_state; [apply Hw; exact Hel|done|done]).
  - by rewrite chill_set_fixed by by apply chill_elem_fixed.
Qed.
Lemma obj_free_chill K fs o n : warm_at K fs (o_slab_id o) ->
  fla_slab_cache_obj_free (chill K fs) o n = (fun r => (chill K r.1, r.2)) <$> fla_slab_cache_obj_free fs o n.
Proof.
  intros Hw. unfold fla_slab_cache_obj_free. rewrite warm_elem by done. destruct (cache_elem fs (o_slab_id o)) as [el|] eqn:Hel; [|done]. bind_step.
  case_bool_decide as Hs; [done|]. destruct (ce_freelist el) as [fl|]; [|done]. bind_step.
  destruct (fla_flist_entries_free fl (o_entry_ndx o) n) as [[err fl']|]; [|done]. bind_step. destruct (negb _); cbn [fmap option_fmap option_map fst snd].
  - by rewrite chill_set_fixed by (eapply chill_elem_state; [apply Hw; exact Hel|done|done]).
  - by rewrite chill_set_fixed by by apply chill_elem_fixed.
Qed.
Lemma next_obj_chill K fs slab n : warm_at K fs (u32 slab) ->
  fla_slab_next_available_obj (chill K fs) slab n = (fun r => (chill K r.1.1, r.1.2, r.2)) <$> fla_slab_next_available_obj fs slab n.
Proof.
  intros Hw. unfold fla_slab_next_available_obj. repeat chill_same. unfold fla_slab_id. destruct (negb _); [done|].
  rewrite obj_alloc_chill by done. destruct (fla_slab_cache_obj_alloc _ _ _) as [[[fs1 o] err]|]; [|done]. chilled.
Qed.

Section world.
Context {W : Type} `{E : XnvmeEnv W}.
Implicit Types w : W.

Lemma elem_init_chill K w fs x n : warm_at K fs x ->
  fla_slab_cache_elem_init w (chill K fs) x n = (fun r => (r.1.1, chill K r.1.2, r.2)) <$> fla_slab_cache_elem_init w fs x n.
Proof using.
  intros Hw. unfold fla_slab_cache_elem_init. rewrite warm_elem by done. destruct (cache_elem fs x) as [el|] eqn:Hel; [|done]. bind_step.
  destruct (negb _); [done|]. change (cache_flist_size (chill K fs) n) with (cache_flist_size fs n).
  destruct (cache_flist_size fs n) as [size|]; [|done]. bind_step. change (fs_dev (chill K fs)) with (fs_dev fs).
  destruct (fla_xne_alloc_buf w (d_dev (fs_dev fs)) size) as [w1 [buf|]]; [|done].
  destruct (fla_flist_init (words_of_bytes buf) n) as [fl|]; [|done]. cbn [fmap option_fmap option_map mbind option_bind fst snd].
  by rewrite chill_set_fixed by by apply chill_elem_fixed.
Qed.

Lemma format_chill K w fs slab nlb : warm_at K fs (u32 slab) ->
  fla_format_slab w (chill K fs) slab nlb = (fun r => (r.1.1, chill K r.1.2, r.2)) <$> fla_format_slab w fs slab nlb.
Proof using.
  intros Hw. unfold fla_format_slab. rewrite (calc_objs_frame fs (chill K fs)) by done.
  destruct (fla_calc_objs_in_slab fs nlb) as [k|]; [|done]. bind_step.
  destruct (k <? 1); [done|]. rewrite header_upd_chill. unfold header_upd. destruct (lookupZ (headers fs) slab); [|done].
  cbn [fmap option_fmap option_map mbind option_bind]. repeat chill_same. unfold fla_slab_id. destruct (negb _); [done|]. by rewrite elem_init_chill.
Qed.

Lemma acquire_chill K w fs nlb : warm_at K fs (u32 (ss_fslab_head (fs_slabs fs))) ->
  fla_acquire_slab w (chill K fs) nlb = (fun r => (r.1.1.1, chill K r.1.1.2, r.1.2, r.2)) <$> fla_acquire_slab w fs nlb.
Proof using.
  intros Hw. unfold fla_acquire_slab. repeat chill_same. destruct (_ =? 0); [done|]. rewrite remove_head_chill.
  destruct (fla_edll_remove_head _ _ _) as [[[[[fs1 h] t] s] err]|] eqn:Er; [|done]. cbn [fmap option_fmap option_map mbind option_bind fst snd].
  destruct (negb (err =? 0)); [done|]. destruct s as [s|]; [|done]. bind_step.
  assert (s = ss_fslab_head (fs_slabs fs) /\ fs_cache fs1 = fs_cache fs) as [-> Hc].
  { unfold fla_edll_remove_head, fla_slab_header_ptr, header_upd in Er. run_inv; done. }
  change (set_free_list (ss_fslab_num (fs_slabs fs)) h t (chill K fs1)) with (chill K (set_free_list (ss_fslab_num (fs_slabs fs)) h t fs1)).
  rewrite format_chill; [|unfold warm_at, cache_elem in *; cbn; by rewrite Hc].
  destruct (fla_format_slab _ _ _ _) as [[[w2 fs2] err2]|]; [|done]. chilled.
Qed.

Lemma release_chill K fs s : fla_release_slab (chill K fs) s = (fun r => (chill K r.1, r.2)) <$> fla_release_slab fs s.
Proof using.
  unfold fla_release_slab. repeat chill_same. destruct (lookupZ _ _) as [h|]; [|done]. bind_step. destruct (negb _); [done|]. repeat chill_same.
  unfold fla_slab_id. destruct (negb _); [done|]. unfold fla_slab_cache_elem_drop. rewrite chill_cache_elem.
  destruct (cache_elem fs (u32 s)) as [el|]; [|done]. cbn [fmap option_fmap option_map mbind option_bind].
  rewrite chill_set_fixed by by apply chill_elem_fixed. repeat chill_same. rewrite add_tail_chill.
  destruct (fla_edll_add_tail _ _ _ _) as [[[[fs1 h1] t1] err]|]; [|done]. chilled.
Qed.

Lemma next_slab_chill K w fs ndx : warm_at K fs (u32 (ss_fslab_head (fs_slabs fs))) ->
  fla_pool_next_available_slab w (chill K fs) ndx =
    (fun r => (r.1.1.1, chill K r.1.1.2, r.1.2, r.2)) <$> fla_pool_next_available_slab w fs ndx.
Proof using.
  intros Hw. unfold fla_pool_next_available_slab. repeat chill_same. destruct (pool_entry_at fs ndx) as [e|]; [|done]. bind_step.
  destruct (_ =? _); [|chilled]. destruct (_ =? _); [|chilled]. rewrite acquire_chill by done.
  destruct (fla_acquire_slab _ _ _) as [[[[w1 fs1] s] err]|]; [|done]. cbn [fmap option_fmap option_map mbind option_bind fst snd].
  destruct (negb _); [done|]. destruct s as [s|]; [|done]. bind_step. rewrite list_prepend_chill.
  destruct (list_op _ _ _ _) as [[fs2 err2]|]; [|done]. cbn [fmap option_fmap option_map mbind option_bind fst snd].
  destruct (negb _); [|done]. rewrite release_chill. by destruct (fla_release_slab fs2 s) as [[fs3 err3]|].
Qed.

(** Creating in a slab whose freelist is there. *)
Lemma create_in_chill K w fs pool slab el : cache_elem fs (u32 slab) = Some el -> ce_state el <> FLA_SLAB_CACHE_ELEM_STALE ->
  chill_elem K (u32 slab) el = el ->
  object_create_in w (chill K fs) pool slab =
    (fun r => (r.1.1.1, chill K r.1.1.2, r.1.2, r.2)) <$> object_create_in w fs pool slab.
Proof using.
  intros Hel Hs Hk. assert (warm_at K fs (u32 slab)) as Hw by (intros el' Hel'; congruence).
  unfold object_create_in. repeat chill_same. unfold fla_slab_id. destruct (negb _); [done|]. repeat chill_same.
  destruct (pool_entry_at fs _) as [e|] eqn:He; [|done]. bind_step.
  unfold load_if_stale. rewrite (elem_load_cached w fs _ el) by done. rewrite (elem_load_cached w (chill K fs) _ el) by (by rewrite ?warm_elem).
  bind_step. change (FLA_SLAB_CACHE_INVALID_STATE =? _) with true. cbv iota. no_err. repeat chill_same.
  destruct (fla_pool_best_slab_list fs slab) as [a|]; [|done]. bind_step.
  destruct (lookupZ (headers fs) slab) as [h|]; [|done]. bind_step. repeat chill_same. destruct (entry_fnc_at fs (sl_pool h)) as [f|]; [|done].
  bind_step. rewrite He. bind_step. destruct (fla_pool_num_fla_objs f e) as [k|]; [|done]. bind_step. rewrite next_obj_chill by done.
  destruct (fla_slab_next_available_obj _ _ _) as [[[fs1 o] err]|]; [|done]. cbn [fmap option_fmap option_map mbind option_bind fst snd].
  destruct (negb _); [done|]. repeat chill_same. destruct (fla_pool_best_slab_list fs1 slab) as [b|]; [|done]. bind_step.
  destruct (bool_decide _); [done|]. rewrite list_remove_chill.
  destruct (list_op _ _ _ _) as [[fs2 err2]|]; [|done]. cbn [fmap option_fmap option_map mbind option_bind fst snd].
  destruct (negb _); [done|]. rewrite list_prepend_chill. by destruct (list_op _ _ _ _) as [[fs3 err3]|].
Qed.

Lemma destroy_chill K w fs pool o : warm_at K fs (o_slab_id o) ->
  fla_base_object_destroy w (chill K fs) pool o =
    (fun r => (r.1.1, chill K r.1.2, r.2)) <$> fla_base_object_destroy w fs pool o.
Proof using.
  intros Hw. unfold fla_base_object_destroy. change (cs_object_destroy w (chill K fs) pool o) with (cs_object_destroy w fs pool o).
  destruct (cs_object_destroy w fs pool o) as [[w1 err]|]; [|done]. bind_step. destruct (negb _); [done|]. repeat chill_same.
  destruct (fla_slab_header_ptr _ fs) as [slab|]; [|done]. repeat chill_same. destruct (fla_pool_best_slab_list fs slab) as [a|]; [|done]. bind_step.
  repeat chill_same. destruct (lookupZ (headers fs) slab) as [h|]; [|done]. bind_step. repeat chill_same.
  destruct (entry_fnc_at fs (sl_pool h)) as [f|]; [|done]. bind_step. repeat chill_same. destruct (pool_entry_at fs _) as [e|]; [|done]. bind_step.
  destruct (fla_pool_num_fla_objs f e) as [k|]; [|done]. bind_step. rewrite obj_free_chill by done.
  destruct (fla_slab_cache_obj_free fs o k) as [[fs1 err1]|]; [|done]. cbn [fmap option_fmap option_map mbind option_bind fst snd].
  destruct (negb _); [done|]. rewrite header_upd_chill. destruct (header_upd fs1 slab _) as [fs2|]; [|done].
  cbn [fmap option_fmap option_map mbind option_bind]. repeat chill_same. destruct (fla_pool_best_slab_list fs2 slab) as [b|]; [|done]. bind_step.
  rewrite list_remove_chill. destruct (list_op _ _ _ _) as [[fs3 err3]|]; [|done]. cbn [fmap option_fmap option_map mbind option_bind fst snd].
  destruct (negb _); [done|]. rewrite list_prepend_chill. by destruct (list_op _ _ _ _) as [[fs4 err4]|].
Qed.
End world.

(** ** Loading what is missing *)

Section cold.
Context {W : Type} `{E : XnvmeEnv W} `{Dp : FlaDp W}.
Context (block : W -> xnvme_dev -> Z -> list Z) `{!XnvmeLaws W block} `{!FlaDpLaws W block}.

(** Clean freelists are on the device. *)
Definition synced (w : W) (fs : flexalloc) (q : Z) : Prop :=
  forall x fl, 0 <= x < g_nslabs (fs_geo fs) -> cache_elem fs x = Some (mk_elem (Some fl) FLA_SLAB_CACHE_ELEM_CLEAN) ->
    Forall is_u32 fl /\ flist_on_disk block w fs q x fl.

(** The system represents the store, some freelists being left out of the cache. *)
Definition cold_inv (nlb n q : Z) (w : W) (fs : flexalloc) (st : list cell) : Prop :=
  exists K warm, fs = chill K warm /\ store_inv block nlb n w warm st /\ synced w warm q /\
    fla_slab_cache_flist_nlb warm n = Some q /\ g_lb_nbytes (fs_geo warm) mod 4 = 0.

(** Loading a slab of the pool: its freelist is in the cache then, or nothing changed. *)
Lemma load_chill K w fs e n free ls l x q : alloc_inv fs e n free ls -> dev_matches fs -> g_lb_nbytes (fs_geo fs) mod 4 = 0 ->
  fla_slab_cache_flist_nlb fs n = Some q -> synced w fs q -> x ∈ ls l ->
  exists w' K' err, load_if_stale w (chill K fs) x n = Some (w', chill K' fs, err) /\
    (forall dev lba, block w' dev lba = block w dev lba) /\
    (err = 0 /\ warm_at K' fs x \/ K' = K /\ cache_elem (chill K fs) x = Some (mk_elem None FLA_SLAB_CACHE_ELEM_STALE)).
Proof using XnvmeLaws0.
  intros I D H4 Hq Hsy Hx. destruct (owned_facts fs e n free ls I l x Hx) as (h & fl & st & _ & _ & _ & Hc & Hs & _ & _ & Hr).
  destruct (alloc_buffers fs e n free ls I H4) as (q' & Hq' & _ & _ & Hb). rewrite Hq in Hq'. injection Hq' as <-.
  destruct (Hb x _ Hc Hs) as (fl' & [= <-] & Hbuf). unfold load_if_stale.
  assert (cache_elem (chill K fs) x = Some (chill_elem K x (mk_elem (Some fl) st))) as Hcc by (by rewrite chill_cache_elem, Hc).
  destruct (K x && bool_decide (st = FLA_SLAB_CACHE_ELEM_CLEAN)) eqn:Hk.
  - unfold chill_elem in Hcc. cbn [ce_state] in Hcc. rewrite Hk in Hcc.
    apply andb_true_iff in Hk as [_ ->%bool_decide_eq_true]. destruct (Hsy x fl Hr Hc) as [Hu Hd].
    destruct (elem_load_spec block w (chill K fs) x fl n q _ (cns_fs_set_cache _ _ (ai_cns _ _ _ _ _ I))
      (dev_matches_set_cache _ _ D) Hr (elem_buffer_set_cache _ _ _ _ _ Hbuf) Hcc eq_refl Hd) as (w' & fs' & err & -> & Hok & Hbad & Hfr).
    bind_step. destruct (decide (err = 0)) as [->|Hne].
    + rewrite (Hok eq_refl), u32_words by done. rewrite (chill_refresh K fs x _ Hc). exists w', (without K x), 0. split; [done|]. split; [done|].
      left. split; [done|]. intros el Hel. unfold chill_elem, without. by rewrite Z.eqb_refl, andb_false_r.
    + rewrite (Hbad Hne). exists w', K. eexists. split; [done|]. split; [done|]. by right.
  - assert (chill_elem K x (mk_elem (Some fl) st) = mk_elem (Some fl) st) as Hf by (unfold chill_elem; cbn [ce_state]; by rewrite Hk).
    rewrite Hf in Hcc. rewrite (elem_load_cached w (chill K fs) x _ n Hcc Hs). bind_step. exists w, K, 0. split; [done|].
    split; [done|]. left. split; [done|]. intros el Hel. rewrite Hc in Hel. by injection Hel as <-.
Qed.

(** Creating in a slab loads it first. *)
Lemma create_in_load w fs pool e x w' K' warm el : fla_slab_id x fs = (x, 0) -> pool_entry_at fs (p_ndx pool) = Some e ->
  (exists K, fs = chill K warm) -> load_if_stale w fs x (pe_slab_nobj e) = Some (w', chill K' warm, 0) ->
  cache_elem (chill K' warm) x = Some el -> ce_state el <> FLA_SLAB_CACHE_ELEM_STALE ->
  object_create_in w fs pool x = object_create_in w' (chill K' warm) pool x.
Proof using.
  intros Hid He [K ->] Hl Hel Hs. unfold object_create_in. change (fla_slab_id x (chill K' warm)) with (fla_slab_id x (chill K warm)).
  rewrite Hid. no_err. change (pool_entry_at (chill K' warm) (p_ndx pool)) with (pool_entry_at (chill K warm) (p_ndx pool)). rewrite He. bind_step.
  rewrite Hl. unfold load_if_stale. rewrite (elem_load_cached w' (chill K' warm) x el _ Hel Hs). bind_step.
  change (FLA_SLAB_CACHE_INVALID_STATE =? _) with true. cbv iota. no_err. done.
Qed.

(** A slab that could not be loaded: the creation fails and changes nothing. *)
Lemma create_in_stale w fs pool e x w' h f a k err : fla_slab_id x fs = (x, 0) -> pool_entry_at fs (p_ndx pool) = Some e ->
  load_if_stale w fs x (pe_slab_nobj e) = Some (w', fs, err) -> cache_elem fs x = Some (mk_elem None FLA_SLAB_CACHE_ELEM_STALE) ->
  fla_pool_best_slab_list fs x = Some a -> lookupZ (headers fs) x = Some h -> entry_fnc_at fs (sl_pool h) = Some f ->
  fla_pool_num_fla_objs f e = Some k ->
  exists err', object_create_in w fs pool x = Some (w', fs, None, err') /\ err' <> 0.
Proof using.
  intros Hid He Hl Hc Ha Hh Hf Hk. unfold object_create_in. rewrite Hid. no_err. rewrite He. bind_step. rewrite Hl. bind_step.
  destruct (Z.eqb_spec err 0) as [->|Hne]; cbn [negb]; [|by exists err]. rewrite Ha, Hh. bind_step. rewrite Hf. bind_step. rewrite He. bind_step.
  rewrite Hk. bind_step. unfold fla_slab_next_available_obj. rewrite Hid. no_err. unfold fla_slab_cache_obj_alloc. rewrite Hc. bind_step.
  cbn [ce_state]. rewrite bool_decide_eq_true_2 by done. bind_step. by eexists.
Qed.

Lemma synced_static w fs w' fs' q : synced w fs q -> same_static fs fs' ->
  (forall x lba, 0 <= x < g_nslabs (fs_geo fs) -> flist_lba (fs_geo fs) q x <= lba < flist_lba (fs_geo fs) q x + q ->
     block w' (d_dev (fs_dev fs)) lba = block w (d_dev (fs_dev fs)) lba) -> 0 <= q -> synced w' fs' q.
Proof using.
  intros Hsy [G D _ _ _ Cl] Hb Hq x fl Hx Hc. rewrite G in Hx. destruct (Hsy x fl Hx (Cl x _ Hc eq_refl)) as [Hu Hd].
  split; [done|]. unfold flist_on_disk in *. rewrite G, D, <- Hd. apply concat_blocks_ext. intros lba Hl. apply (Hb x); [done|lia].
Qed.

Lemma store_inv_blocks nlb n w w' fs st : store_inv block nlb n w fs st -> (forall dev lba, block w' dev lba = block w dev lba) ->
  store_inv block nlb n w' fs st.
Proof using XnvmeLaws0. intros SI Hb. eapply client_keeps; [done|exact SI|apply same_static_refl|done|apply SI|by left]. Qed.

(** The head of the free slabs is not among the slabs left out. *)
Lemma head_warm K fs e n free ls : alloc_inv fs e n free ls -> warm_at K fs (u32 (ss_fslab_head (fs_slabs fs))).
Proof using.
  intros I el Hel. apply chill_elem_fixed. intros Hc. destruct (ai_cached _ _ _ _ _ I _ _ Hel) as [l Hl]; [by rewrite Hc|].
  destruct (owned_facts fs e n free ls I l _ Hl) as (_ & _ & _ & _ & _ & _ & _ & _ & _ & _ & Hr).
  pose proof (ai_hdrs _ _ _ _ _ I) as Hok. pose proof (ho_range _ Hok) as Hn.
  pose proof (lo_free _ _ _ _ (ai_lists _ _ _ _ _ I)) as [Eh _ _ _]. destruct free as [|x r]; cbn [first_id] in Eh; rewrite Eh in Hr, Hl.
  - change (u32 FLA_LINKED_LIST_NULL) with FLA_LINKED_LIST_NULL in Hr. lia.
  - destruct (free_stale fs e n (x :: r) ls I x) as (h & _ & Hh & _); [by left|]. pose proof (in_range fs Hok x h Hh) as Hx.
    rewrite u32_small in Hl by (unfold is_u32, FLA_LINKED_LIST_NULL in *; lia).
    eapply (lo_free_apart _ _ _ _ (ai_lists _ _ _ _ _ I)); [exact Hl|by left].
Qed.

Lemma owned_id fs e n free ls l x : alloc_inv fs e n free ls -> x ∈ ls l -> fla_slab_id x fs = (x, 0) /\ u32 x = x.
Proof using.
  intros I Hx. destruct (owned_facts fs e n free ls I l x Hx) as (_ & _ & _ & _ & _ & _ & _ & _ & _ & _ & Hr).
  pose proof (slab_id_ok fs (ai_hdrs _ _ _ _ _ I) x Hr) as Hid. split; [done|]. unfold fla_slab_id in Hid. congruence.
Qed.

(** The rest of a creation once the slab is chosen. *)
Lemma cold_create_in K w fs e n free ls l x q pool : alloc_inv fs e n free ls -> dev_matches fs -> g_lb_nbytes (fs_geo fs) mod 4 = 0 ->
  fla_slab_cache_flist_nlb fs n = Some q -> synced w fs q -> x ∈ ls l -> p_ndx pool = 0 ->
  exists w', (forall dev lba, block w' dev lba = block w dev lba) /\
    ((exists K', object_create_in w (chill K fs) pool x =
        (fun r => (r.1.1.1, chill K' r.1.1.2, r.1.2, r.2)) <$> object_create_in w' fs pool x) \/
     exists err, object_create_in w (chill K fs) pool x = Some (w', chill K fs, None, err) /\ err <> 0).
Proof using XnvmeLaws0.
  intros I D H4 Hq Hsy Hx Hp. destruct (owned_id fs e n free ls l x I Hx) as [Hid Hu].
  destruct (owned_facts fs e n free ls I l x Hx) as (h & fl & st & Hh & Hsp & Hr & Hc & Hs & Hw & _).
  pose proof (lo_entry _ _ _ _ (ai_lists _ _ _ _ _ I)) as He. pose proof (ai_nobj _ _ _ _ _ I) as Hn.
  destruct (load_chill K w fs e n free ls l x q I D H4 Hq Hsy Hx) as (w' & K' & err & Hl & Hb & Hres).
  exists w'. split; [done|]. rewrite <- Hn in Hl. destruct Hres as [[-> Hw']|[-> Hst]]; [left; exists K'|right].
  - rewrite (create_in_load w (chill K fs) pool e x w' K' fs (mk_elem (Some fl) st)); try done.
    + apply (create_in_chill K' w' fs pool x (mk_elem (Some fl) st)); rewrite ?Hu; [done|done|by apply Hw'].
    + by rewrite Hp.
    + by exists K.
    + by rewrite warm_elem.
  - eapply (create_in_stale w (chill K fs) pool e x w' h fnc_default (0, class n (used_count fl n)) 1); try done.
    + by rewrite Hp.
    + exact (best_owned fs e n free ls I x h fl st Hh Hsp Hr Hc Hw).
    + rewrite Hsp. apply (ai_fnc _ _ _ _ _ I).
Qed.

(** What a step leaves behind. *)
Definition cold_result (nlb n q : Z) (fs : flexalloc) (r : option (W * flexalloc * list cell)) : Prop :=
  exists w' fs' st', r = Some (w', fs', st') /\ cold_inv nlb n q w' fs' st' /\ fs_geo fs' = fs_geo fs.

Lemma cold_intro nlb n q K K' w warm w' warm' st' : synced w warm q -> fla_slab_cache_flist_nlb warm n = Some q ->
  g_lb_nbytes (fs_geo warm) mod 4 = 0 -> 0 <= q -> same_static warm warm' -> (forall dev lba, block w' dev lba = block w dev lba) ->
  store_inv block nlb n w' warm' st' -> cold_result nlb n q (chill K warm) (Some (w', chill K' warm', st')).
Proof using.
  intros Hsy Hq H4 Hq0 St Hb SI. pose proof St as [G _ _ _ _ _]. do 3 eexists. split; [done|]. split; [|by cbn; rewrite G].
  exists K', warm'. do 2 (split; [done|]). split; [by eapply synced_static; [done|done|intros; apply Hb|]|].
  unfold fla_slab_cache_flist_nlb in *. by rewrite G.
Qed.

Lemma cold_create nlb n q w fs st pool : p_ndx pool = 0 -> cold_inv nlb n q w fs st ->
  cold_result nlb n q fs (store_step (size_of fs nlb) pool StCreate w fs st).
Proof using XnvmeLaws0.
  intros Hp (K & warm & -> & SI & Hsy & Hq & H4). pose proof SI as [[(e & free & ls & I & He) [Hnd Hl]] D L _].
  destruct (alloc_buffers warm e n free ls I H4) as (q' & Hq' & Hq0 & _). rewrite Hq in Hq'. injection Hq' as <-.
  cbn [store_step]. unfold fla_base_object_create. rewrite Hp, next_slab_chill by (by eapply head_warm).
  destruct (next_slab_spec block warm e n free ls I w) as (w1 & fs1 & slab & err & -> & Hb1 & S1 & Hl1 & Hres).
  cbn [fmap option_fmap option_map mbind option_bind fst snd].
  assert (forall e1 free1 ls1, alloc_inv fs1 e1 n free1 ls1 -> pe_obj_nlb e1 = nlb -> holds fs1 nlb n st.*1) as Hh1.
  { intros e1 free1 ls1 I1 He1. split; [by exists e1, free1, ls1|]. split; [done|]. intros o. by rewrite Hl1. }
  destruct Hres as [(-> & x & l & e1 & free1 & ls1 & -> & Hx & Hlf & I1 & Ho & _)|(Herr & free1 & I1 & _)].
  2: { rewrite (proj2 (Z.eqb_neq _ _) Herr). cbn [negb]. bind_step. rewrite (proj2 (Z.eqb_neq _ _) Herr).
       apply (cold_intro nlb n q K K w); try done; [lia|]. eapply client_keeps; [done|exact SI|done|done|by eapply Hh1|by left]. }
  no_err. bind_step. destruct (static_dev warm fs1 S1 D L) as [D1 L1]. pose proof (st_geo _ _ S1) as G1.
  destruct (cold_create_in K w1 fs1 e1 n free1 ls1 l x q pool I1 D1) as (w' & Hb' & Hc); try done.
  { by rewrite G1. }
  { unfold fla_slab_cache_flist_nlb in *. by rewrite G1. }
  { eapply synced_static; [done|done|intros; apply Hb1|lia]. }
  assert (forall dev lba, block w' dev lba = block w dev lba) as Hb by (intros; by rewrite Hb', Hb1).
  assert (pe_obj_nlb e1 = nlb) as He1 by congruence. destruct Hc as [(K' & ->)|(err & -> & Herr)].
  - destruct (create_in_spec fs1 e1 n free1 ls1 I1 pool Hp w' l x Hx Hlf) as (fs2 & r & e2 & ls2 & -> & Hnl & Hl2 & I2 & S2 & Ho2 & _).
    cbn [fmap option_fmap option_map mbind option_bind fst snd]. change (0 =? 0) with true. cbv iota.
    apply (cold_intro nlb n q K K' w); try done; [lia|by eapply same_static_trans|].
    eapply client_keeps; [done|exact SI|by eapply same_static_trans|done| |].
    + rewrite fmap_app. eapply holds_add; [by eapply Hh1|exact Hnl|exact Hl2|exact I2|congruence].
    + intros c [Hc|Hc]%elem_of_app; [by left|]. apply list_elem_of_singleton in Hc as ->. by right.
  - bind_step. rewrite (proj2 (Z.eqb_neq _ _) Herr). apply (cold_intro nlb n q K K w); try done; [lia|].
    eapply client_keeps; [done|exact SI|done|done|by eapply Hh1|by left].
Qed.

(** The slab of a held object. *)
Lemma held_slab fs e n free ls o : alloc_inv fs e n free ls -> live fs n o -> exists l, o_slab_id o ∈ ls l.
Proof using. intros I (fl & st & Hc & Hs & _). exact (ai_cached _ _ _ _ _ I _ _ Hc Hs). Qed.

(** An object whose slab is not loaded is not destroyed. *)
Lemma destroy_stale K w fs e n free ls pool o : alloc_inv fs e n free ls -> p_ndx pool = 0 -> live fs n o ->
  cache_elem (chill K fs) (o_slab_id o) = Some (mk_elem None FLA_SLAB_CACHE_ELEM_STALE) ->
  fla_base_object_destroy w (chill K fs) pool o = Some (w, chill K fs, FLA_SLAB_CACHE_INVALID_STATE).
Proof using.
  intros I Hp Hlo Hst. destruct (held_slab fs e n free ls o I Hlo) as [l Hx].
  destruct (owned_facts fs e n free ls I l _ Hx) as (h & fl & st & Hh & Hsp & Hr & Hc & Hs & Hw & _).
  unfold fla_base_object_destroy, cs_object_destroy. change (fs_cs (chill K fs)) with (fs_cs fs).
  rewrite (cf_cs _ (ai_cns _ _ _ _ _ I)). cbn [mbind option_bind fla_cs_cns_object_destroy]. no_err. repeat chill_same.
  rewrite (header_ptr_owned fs e n free ls I l _ Hx). repeat chill_same. rewrite (best_owned fs e n free ls I _ h fl st Hh Hsp Hr Hc Hw), Hh. bind_step.
  rewrite Hsp. repeat chill_same. rewrite (ai_fnc _ _ _ _ _ I), Hp, (lo_entry _ _ _ _ (ai_lists _ _ _ _ _ I)).
  cbn [mbind option_bind fla_pool_num_fla_objs]. unfold fla_slab_cache_obj_free. rewrite Hst. done.
Qed.

Lemma cold_destroy nlb n q w fs st pool i : p_ndx pool = 0 -> cold_inv nlb n q w fs st ->
  cold_result nlb n q fs (store_step (size_of fs nlb) pool (StDestroy i) w fs st).
Proof using XnvmeLaws0.
  intros Hp (K & warm & -> & SI & Hsy & Hq & H4). pose proof SI as [[(e & free & ls & I & He) [Hnd Hl]] D L _].
  destruct (alloc_buffers warm e n free ls I H4) as (q' & Hq' & Hq0 & _). rewrite Hq in Hq'. injection Hq' as <-.
  cbn [store_step]. destruct (st !! i) as [c|] eqn:Hi; [|apply (cold_intro nlb n q K K w); try done; lia].
  assert (live warm n c.1) as Hlo by (apply Hl; eapply list_elem_of_lookup_2; by rewrite list_lookup_fmap, Hi).
  destruct Hlo as (fl & st0 & Hc & Hs & Hrest). assert (live warm n c.1) as Hlo by by exists fl, st0.
  destruct (K (o_slab_id c.1) && bool_decide (st0 = FLA_SLAB_CACHE_ELEM_CLEAN)) eqn:Hk.
  - rewrite (destroy_stale K w warm e n free ls pool c.1 I Hp Hlo).
    2: { rewrite chill_cache_elem, Hc. cbn. unfold chill_elem. cbn [ce_state]. by rewrite Hk. }
    bind_step. apply (cold_intro nlb n q K K w); try done. lia.
  - rewrite destroy_chill.
    2: { intros el Hel. rewrite Hc in Hel. injection Hel as <-. unfold chill_elem. cbn [ce_state]. by rewrite Hk. }
    destruct (destroy_step_ok block nlb n w warm st pool i Hp SI) as (w2 & fs2 & st2 & Es & SI2 & S2 & _).
    destruct (destroy_spec warm e n free ls I pool Hp w c.1 Hlo) as (fs3 & e3 & ls3 & Ed & _).
    cbn [store_step] in Es. rewrite Hi, Ed in Es. rewrite Ed. cbn [fmap option_fmap option_map mbind option_bind fst snd] in *.
    apply Some3_inj in Es as (<- & <- & <-). apply (cold_intro nlb n q K K w); try done. lia.
Qed.

Lemma cold_open nlb n q w fs st pool i : p_ndx pool = 0 -> cold_inv nlb n q w fs st ->
  cold_result nlb n q fs (store_step (size_of fs nlb) pool (StOpen i) w fs st).
Proof using XnvmeLaws0.
  intros Hp (K & warm & -> & SI & Hsy & Hq & H4). pose proof SI as [[(e & free & ls & I & He) [Hnd Hl]] D L _].
  destruct (alloc_buffers warm e n free ls I H4) as (q' & Hq' & Hq0 & _). rewrite Hq in Hq'. injection Hq' as <-.
  cbn [store_step]. destruct (st !! i) as [c|] eqn:Hi; [|apply (cold_intro nlb n q K K w); try done; lia].
  assert (live warm n c.1) as Hlo by (apply Hl; eapply list_elem_of_lookup_2; by rewrite list_lookup_fmap, Hi).
  destruct (held_slab warm e n free ls c.1 I Hlo) as [l Hx]. unfold fla_base_object_open. repeat chill_same.
  rewrite (header_ptr_owned warm e n free ls I l _ Hx). repeat chill_same. rewrite Hp, (lo_entry _ _ _ _ (ai_lists _ _ _ _ _ I)). bind_step.
  rewrite (ai_nobj _ _ _ _ _ I). destruct (load_chill K w warm e n free ls l _ q I D H4 Hq Hsy Hx) as (w' & K' & err & -> & Hb & _).
  bind_step. apply (cold_intro nlb n q K K' w); try done; [lia|]. by eapply store_inv_blocks.
Qed.

(** The blocks of freelists belong to no object. *)
Lemma flist_no_object fs e n free ls q x lba : alloc_inv fs e n free ls -> 0 < q -> n * pe_obj_nlb e + q <= g_slab_nlb (fs_geo fs) ->
  0 <= x < g_nslabs (fs_geo fs) -> flist_lba (fs_geo fs) q x <= lba < flist_lba (fs_geo fs) q x + q -> no_object_at fs (pe_obj_nlb e) n lba.
Proof using.
  intros I Hq Hfit Hx Hl o Hlo. pose proof (live_placed fs e n free ls o I Hlo) as Po. destruct (ai_range _ _ _ _ _ I) as [Ho _].
  destruct (Z.lt_ge_cases lba (obj_start fs (pe_obj_nlb e) o)) as [|Hge]; [by left|right].
  destruct (Z.le_gt_cases (obj_start fs (pe_obj_nlb e) o + pe_obj_nlb e) lba) as [|Hlt]; [done|].
  destruct (placed_no_flist fs e n o q lba Po Hq Hfit) as [_ Hno]; [lia|]. destruct (Hno x Hx); lia.
Qed.

(** Transfers do not read the cache. *)
Lemma write_chill K w fs pool o buf off len : fla_object_write w (chill K fs) pool o buf off len = fla_object_write w fs pool o buf off len.
Proof using. reflexivity. Qed.
Lemma unaligned_chill K w fs pool o buf off len :
  fla_object_unaligned_write w (chill K fs) pool o buf off len = fla_object_unaligned_write w fs pool o buf off len.
Proof using. reflexivity. Qed.

Lemma cold_write nlb n q w fs st pool op : p_ndx pool = 0 -> cold_inv nlb n q w fs st -> op_ok (size_of fs nlb) op ->
  match op with StWrite _ _ _ | StUnaligned _ _ _ => True | _ => False end ->
  cold_result nlb n q fs (store_step (size_of fs nlb) pool op w fs st).
Proof using All.
  intros Hp (K & warm & -> & SI & Hsy & Hq & H4) Hop Hw. pose proof SI as [[(e & free & ls & I & He) [Hnd Hl]] D L _].
  destruct (alloc_buffers warm e n free ls I H4) as (q' & Hq' & Hq0 & Hfit & _). rewrite Hq in Hq'. injection Hq' as <-.
  destruct (store_step_ok block nlb n w warm st pool op Hp SI Hop) as (w2 & fs2 & st2 & Es & SI2 & S2 & Hkr).
  assert (store_step (size_of (chill K warm) nlb) pool op w (chill K warm) st = Some (w2, chill K fs2, st2)) as ->.
  { destruct op as [|i|i|i off buf|i off buf]; try done; cbn [store_step] in *; destruct (st !! i) as [c|];
      rewrite ?write_chill, ?unaligned_chill; run_inv; done. }
  do 3 eexists. split; [done|]. pose proof S2 as [G _ _ _ _ _]. split; [|by cbn; rewrite G]. exists K, fs2. do 2 (split; [done|]).
  unfold fla_slab_cache_flist_nlb in *. rewrite G. split; [|done].
  eapply synced_static; [done|done| |lia]. intros x lba Hx Hlb. apply Hkr. rewrite <- He. by eapply flist_no_object.
Qed.

Lemma cold_step nlb n q w fs st pool op : p_ndx pool = 0 -> cold_inv nlb n q w fs st -> op_ok (size_of fs nlb) op ->
  cold_result nlb n q fs (store_step (size_of fs nlb) pool op w fs st).
Proof using All.
  intros Hp CI Hop. destruct op; [by apply cold_create|by apply cold_open|by apply cold_destroy|by apply cold_write..].
Qed.

Lemma cold_run nlb n q pool ops : p_ndx pool = 0 -> forall w fs st, cold_inv nlb n q w fs st -> Forall (op_ok (size_of fs nlb)) ops ->
  cold_result nlb n q fs (store_run (size_of fs nlb) pool ops w fs st).
Proof using All.
  intros Hp. induction ops as [|op ops IH]; intros w fs st CI Hops; [by exists w, fs, st|].
  apply Forall_cons in Hops as [Hop Hops]. destruct (cold_step nlb n q w fs st pool op Hp CI Hop) as (w1 & fs1 & st1 & Es & CI1 & G1).
  assert (size_of fs1 nlb = size_of fs nlb) as Esz by (unfold size_of; by rewrite G1).
  destruct (IH w1 fs1 st1 CI1) as (w2 & fs2 & st2 & Er & CI2 & G2); [by rewrite Esz|].
  exists w2, fs2, st2. cbn [store_run]. rewrite Es. bind_step. rewrite <- Esz. split; [done|]. split; [done|congruence].
Qed.
End cold.

(** ** After closing and opening again *)

(** A freelist as loading it from the device would give it. *)
Definition reloaded (el : fla_slab_flist_cache_elem) : fla_slab_flist_cache_elem :=
  match ce_state el with
  | FLA_SLAB_CACHE_ELEM_STALE => mk_elem None FLA_SLAB_CACHE_ELEM_STALE
  | _ => mk_elem (option_map (map u32) (ce_freelist el)) FLA_SLAB_CACHE_ELEM_CLEAN
  end.

(** The handle [fs] with the freelists that [old] has in its cache. *)
Definition rewarm (old fs : flexalloc) : flexalloc :=
  set_cache (Some ((fun x => from_option reloaded (mk_elem None FLA_SLAB_CACHE_ELEM_STALE) (cache_elem old x)) <$>
                     seqZ 0 (g_nslabs (fs_geo fs)))) fs.

Lemma rewarm_elem old fs x : cache_elem (rewarm old fs) x =
  if decide (0 <= x < g_nslabs (fs_geo fs)) then Some (from_option reloaded (mk_elem None FLA_SLAB_CACHE_ELEM_STALE) (cache_elem old x)) else None.
Proof.
  unfold cache_elem at 1, rewarm, lookupZ. cbn. rewrite list_lookup_fmap. destruct (Z.ltb_spec x 0); case_decide; try lia; [done|..].
  - rewrite lookup_seqZ_lt by lia. cbn. do 3 f_equal. lia.
  - rewrite lookup_seqZ_ge by lia. done.
Qed.

Lemma chill_rewarm old fs : fs_cache fs = Some (replicate (Z.to_nat (g_nslabs (fs_geo fs))) (mk_elem None FLA_SLAB_CACHE_ELEM_STALE)) ->
  fs = chill (fun _ => true) (rewarm old fs).
Proof.
  intros Hc. destruct fs as [dv stt c geo su po sl cs]. cbn in Hc. subst c. unfold chill, rewarm, set_cache. cbn. do 2 f_equal.
  apply list_eq. intros i. rewrite list_lookup_imap, list_lookup_fmap. destruct (decide (i < Z.to_nat (g_nslabs geo))%nat) as [Hi|Hi].
  - rewrite lookup_replicate_2, lookup_seqZ_lt by lia. cbn. destruct (cache_elem old _) as [[fl st]|]; [|done]. cbn.
    unfold reloaded. cbn. by destruct st.
  - rewrite lookup_seqZ_ge by lia. rewrite lookup_ge_None_2; [done|]. rewrite length_replicate. lia.
Qed.

(** Reducing the words to 32 bits does not change a well-formed freelist. *)
Lemma free_bit_u32 fl n i : flist_wf fl n -> 0 <= i < 32 * FLA_FREELIST_U32_ELEMS n -> free_bit (u32 <$> fl) i = free_bit fl i.
Proof.
  intros Hw Hi. unfold free_bit. rewrite list_lookup_fmap. destruct (fl !! _) as [v|] eqn:Hv; [|done]. cbn.
  pose proof (Z.div_pos i 32 ltac:(lia) ltac:(lia)). pose proof (Z.div_lt_upper_bound i 32 (FLA_FREELIST_U32_ELEMS n) ltac:(lia) ltac:(lia)).
  rewrite u32_small; [done|]. apply (wf_words _ _ Hw (Z.to_nat (1 + i / 32))); [lia|lia|done].
Qed.

Lemma wf_u32 fl n : flist_wf fl n -> flist_wf (u32 <$> fl) n.
Proof.
  intros Hw. pose proof (wf_range _ _ Hw). split.
  - rewrite list_lookup_fmap, (wf_len _ _ Hw). cbn. by rewrite u32_small by (unfold is_u32; lia).
  - done.
  - rewrite length_fmap. apply Hw.
  - intros k v _ _. rewrite list_lookup_fmap. destruct (fl !! k); [|done]. cbn. intros [= <-]. apply u32_range.
  - intros i Hi. rewrite (free_bit_u32 fl n) by (done || lia). by apply (wf_pad _ _ Hw).
Qed.

Lemma used_u32 fl n : flist_wf fl n -> used_count (u32 <$> fl) n = used_count fl n.
Proof.
  intros Hw. pose proof (wf_range _ _ Hw). pose proof (elems_bounds n ltac:(lia)). unfold used_count, flist_bits. do 3 f_equal.
  apply list_fmap_ext. intros j i Hi. apply lookup_seq in Hi. apply (free_bit_u32 fl n); [done|lia].
Qed.

Section rewarm.
Context (old fs : flexalloc) (e : fla_pool_entry) (n : Z) (free : list Z) (ls : slab_list -> list Z).
Context (I : alloc_inv old e n free ls) (C : cns_fs fs) (G : fs_geo fs = fs_geo old) (Sl : fs_slabs fs = fs_slabs old).
Context (He : pool_entry_at fs 0 = pool_entry_at old 0) (Hf : entry_fnc_at fs 0 = Some fnc_default).

(** What is cached in the one and in the other. *)
Lemma rewarm_cached x el : cache_elem (rewarm old fs) x = Some el -> ce_state el <> FLA_SLAB_CACHE_ELEM_STALE ->
  exists fl st, cache_elem old x = Some (mk_elem (Some fl) st) /\ st <> FLA_SLAB_CACHE_ELEM_STALE /\ flist_wf fl n /\
    el = mk_elem (Some (u32 <$> fl)) FLA_SLAB_CACHE_ELEM_CLEAN /\ 0 <= x < g_nslabs (fs_geo fs).
Proof using I.
  rewrite rewarm_elem. case_decide as Hx; [|done]. intros [= <-] Hs. destruct (cache_elem old x) as [[ofl st]|] eqn:Hel; [|done].
  assert (st <> FLA_SLAB_CACHE_ELEM_STALE) as Hst by (intros ->; done). destruct (ai_cached _ _ _ _ _ I x _ Hel Hst) as [l Hl].
  destruct (owned_facts old e n free ls I l x Hl) as (h & fl & st' & _ & _ & _ & Hc & _ & Hw & _ & _).
  rewrite Hel in Hc. injection Hc as -> ->. exists fl, st'. do 3 (split; [done|]). split; [|done]. by destruct st'.
Qed.

Lemma rewarm_owned l x : x ∈ ls l -> exists fl st, cache_elem old x = Some (mk_elem (Some fl) st) /\
  cache_elem (rewarm old fs) x = Some (mk_elem (Some (u32 <$> fl)) FLA_SLAB_CACHE_ELEM_CLEAN).
Proof using I G.
  intros Hl. destruct (owned_facts old e n free ls I l x Hl) as (h & fl & st & _ & _ & _ & Hc & Hs & _ & _ & Hr).
  exists fl, st. split; [done|]. rewrite rewarm_elem, G, decide_True, Hc by done. by destruct st.
Qed.

Lemma rewarm_live o : live (rewarm old fs) n o <-> live old n o.
Proof using I G.
  destruct (ai_range _ _ _ _ _ I) as [_ Hn]. pose proof (elems_bounds n ltac:(lia)) as Hel. split.
  - intros (fl & st & Hc & Hs & Hk & Hb). destruct (rewarm_cached _ _ Hc Hs) as (fl0 & st0 & Hc0 & Hs0 & Hw & [= -> _] & _).
    exists fl0, st0. do 3 (split; [done|]). by rewrite <- (free_bit_u32 fl0 n) by (done || lia).
  - intros (fl & st & Hc & Hs & Hk & Hb). destruct (ai_cached _ _ _ _ _ I _ _ Hc Hs) as [l Hl].
    destruct (owned_facts old e n free ls I l _ Hl) as (_ & fl1 & st1 & _ & _ & _ & Hc1 & _ & Hw & _ & _). rewrite Hc in Hc1. injection Hc1 as <- <-.
    destruct (rewarm_owned l _ Hl) as (fl0 & st0 & Hc0 & Hc'). rewrite Hc in Hc0. injection Hc0 as <- <-.
    eexists _, _. split; [exact Hc'|]. do 2 (split; [done|]). by rewrite (free_bit_u32 fl n) by (done || lia).
Qed.

Lemma rewarm_inv : alloc_inv (rewarm old fs) e n free ls.
Proof using All.
  destruct I as [C0 H0 L0 F0 N0 K0 R0 Ca Cd Nu Ow]. split; try done.
  - by apply cns_fs_set_cache.
  - destruct H0 as [Hl Hr]. split; unfold headers in *; cbn; by rewrite ?Sl, ?G.
  - eapply lists_ok_frame; [exact L0|exact He|cbn; by rewrite Sl..|]. intros y h _ Hh. exists h. unfold headers in *. cbn. by rewrite Sl.
  - rewrite <- K0. apply calc_objs_frame; [exact G|]. cbn. by rewrite (cf_md _ C), (cf_md _ C0).
  - intros x Hx. change (0 <= x < g_nslabs (fs_geo fs)) in Hx. rewrite rewarm_elem, decide_True by done. by eexists.
  - intros x el Hel Hs. destruct (rewarm_cached x el Hel Hs) as (fl & st & Hc & Hst & _). by eapply Cd.
  - cbn. by rewrite Sl, G.
  - intros l x Hx. destruct (Ow l x Hx) as (rc & [Hm (fl & st & Hc & Hs & Hw & Hu & Hz)] & Hl). exists rc. split; [|done].
    destruct (rewarm_owned l x Hx) as (fl0 & st0 & Hc0 & Hc'). rewrite Hc in Hc0. injection Hc0 as <- <-.
    split; [unfold headers in *; cbn; by rewrite Sl|]. eexists _, _. split; [exact Hc'|]. split; [done|]. split; [by apply wf_u32|].
    split; [by rewrite used_u32|]. unfold sized in *. cbn. by rewrite G, length_map.
Qed.
End rewarm.

(** ** Closing and opening again *)

Lemma bytes_u32 fl : bytes_of_words (u32 <$> fl) = bytes_of_words fl.
Proof. unfold bytes_of_words. induction fl as [|x fl IH]; [done|]. cbn [fmap list_fmap mbind list_bind]. by rewrite word_bytes_u32, <- IH. Qed.

Section reopen.
Context {W : Type} `{E : XnvmeEnv W} `{A : XnvmeAdm W} (block : W -> xnvme_dev -> Z -> list Z).
Context `{!XnvmeLaws W block} `{!XnvmeAdmLaws W block}.

(** What is written at a flush is what the handle had. *)
Lemma md_of_parts fs p : md_of fs = Some p -> md_super p = fs_super fs /\ sg_freelist (md_pools p) = ps_freelist (fs_pools fs) /\
  sg_htbl_hdr (md_pools p) = ps_htbl_hdr (fs_pools fs) /\ sg_entries (md_pools p) = ps_entries (fs_pools fs) /\ md_slabs p = fs_slabs fs.
Proof using. unfold md_of. destruct (tbl (ps_htbl (fs_pools fs))); [|done]. cbn. by intros [= <-]. Qed.

(** The second handle can be closed as the first one. *)
Lemma reopened_closable dev fs buf p hd : closable dev fs buf -> md_of fs = Some p -> opened dev (fs_geo fs) (flushed_md fs p) hd ->
  closable dev (h_fs hd) (h_buf hd) /\ on_device dev (h_fs hd).
Proof using E.
  intros CL Hp Op. destruct (reopened_handle dev fs buf p hd (cl_closing _ _ _ CL) Hp Op) as (Eg & Ed & DM & L & _).
  destruct (md_of_parts fs p Hp) as (Es & Ef & Eh & _). split; [|by split].
  pose proof CL as [[T St Sz D Su Fl Bl] Fb]. pose proof (ty_geo _ T) as (G & Sm & Sn).
  pose proof (opened_typed dev _ _ hd G Sm Sn (flushed_fits fs p T Hp) Op) as T2.
  destruct Op as [(funcs & Efs & _) _ _ Ol]. rewrite Efs in *. split; [split|]; cbn; rewrite ?Es, ?Ef, ?Eh; done.
Qed.

(** With its freelists back in the cache it represents the same objects. *)
Lemma reopened_warm dev K warm buf p hd e n free ls : closable dev (chill K warm) buf -> md_of (chill K warm) = Some p ->
  opened dev (fs_geo warm) (flushed_md (chill K warm) p) hd -> alloc_inv warm e n free ls ->
  0 < g_npools (fs_geo warm) -> g_npools (fs_geo warm) <> 32 ->
  alloc_inv (rewarm warm (h_fs hd)) e n free ls /\ h_fs hd = chill (fun _ => true) (rewarm warm (h_fs hd)).
Proof using.
  intros CL Hp Op I Hnp H32. pose proof (ai_cns _ _ _ _ _ I) as C.
  destruct (md_of_parts _ p Hp) as (_ & _ & _ & Ee & Es).
  assert (obj_placed (h_fs hd) e n (mk_obj 0 0)) as Po.
  { eapply (reopened_placed dev (chill K warm) p); try done; [apply C|apply (cl_first _ _ _ CL)|].
    split; [by apply cns_fs_set_cache|apply (lo_entry _ _ _ _ (ai_lists _ _ _ _ _ I))|apply (ai_fnc _ _ _ _ _ I)| |apply (ai_range _ _ _ _ _ I)|..].
    - rewrite <- (ai_calc _ _ _ _ _ I). by apply calc_objs_frame.
    - pose proof (ho_range _ (ai_hdrs _ _ _ _ _ I)). cbn. lia.
    - destruct (ai_range _ _ _ _ _ I). cbn. lia. }
  destruct Po as [C2 He Hf _ _ _ _]. destruct Op as [(funcs & Efs & _) _ _ _]. split.
  - apply rewarm_inv; try done; [by rewrite Efs|by rewrite Efs|].
    rewrite (lo_entry _ _ _ _ (ai_lists _ _ _ _ _ I)). done.
  - apply chill_rewarm. by rewrite Efs.
Qed.

(** Leaving clean freelists out leaves the dirty ones. *)
Lemma chill_dirty K fs x el : cache_elem (chill K fs) x = Some el -> ce_state el = FLA_SLAB_CACHE_ELEM_DIRTY -> cache_elem fs x = Some el.
Proof using.
  rewrite chill_cache_elem. destruct (cache_elem fs x) as [el'|]; [|done]. cbn. unfold chill_elem. destruct (_ && _); intros [= <-]; done.
Qed.
Lemma dirty_chill K fs x fl : cache_elem fs x = Some (mk_elem fl FLA_SLAB_CACHE_ELEM_DIRTY) ->
  cache_elem (chill K fs) x = Some (mk_elem fl FLA_SLAB_CACHE_ELEM_DIRTY).
Proof using. intros Hc. rewrite chill_cache_elem, Hc. cbn. by rewrite chill_elem_fixed. Qed.

Lemma chill_flushable K fs e n free ls q : alloc_inv fs e n free ls -> g_lb_nbytes (fs_geo fs) mod 4 = 0 ->
  fla_slab_cache_flist_nlb fs n = Some q -> forall x, 0 <= x < g_nslabs (fs_geo fs) -> flushable (chill K fs) n q x.
Proof using.
  intros I H4 Hq x Hx. destruct (alloc_buffers fs e n free ls I H4) as (q' & Hq' & _ & _ & Hb). rewrite Hq in Hq'. injection Hq' as <-.
  destruct (ai_cache _ _ _ _ _ I x Hx) as [el Hel]. exists (chill_elem K x el). split; [by rewrite chill_cache_elem, Hel|]. intros Hd.
  assert (cache_elem fs x = Some (chill_elem K x el)) as Hc by (apply (chill_dirty K); [by rewrite chill_cache_elem, Hel|done]).
  destruct (Hb x _ Hc) as (fl & Hfl & Hbuf); [by rewrite Hd|]. exists fl. split; [done|]. by apply elem_buffer_set_cache.
Qed.

(** After closing and opening the device has every freelist that was in the cache. *)
Lemma reopened_synced dev K warm fs e n free ls q w w1 w2 : alloc_inv warm e n free ls -> on_device dev warm ->
  fs_geo fs = fs_geo warm -> d_dev (fs_dev fs) = dev -> 0 < q <= g_slab_nlb (fs_geo warm) -> synced block w warm q ->
  (forall lba, fla_geo_nblocks (fs_geo warm) <= lba -> (forall x, 0 <= x < g_nslabs (fs_geo warm) -> dirty_at (chill K warm) x ->
     off_flist (fs_geo warm) q x lba) -> block w1 dev lba = block w dev lba) ->
  (forall x fl, 0 <= x < g_nslabs (fs_geo warm) -> cache_elem (chill K warm) x = Some (mk_elem (Some fl) FLA_SLAB_CACHE_ELEM_DIRTY) ->
     flist_on_disk block w1 (chill K warm) q x fl) -> same_blocks block w1 w2 ->
  synced block w2 (rewarm warm fs) q.
Proof using.
  intros I [Od _ _] G D Hq Hsy Hfr Hdk Hs x fl' Hx Hc. change (0 <= x < g_nslabs (fs_geo fs)) in Hx. rewrite G in Hx.
  destruct (rewarm_cached warm fs e n free ls I x _ Hc) as (fl & st & Hw & Hst & _ & [= ->] & _); [done|].
  split; [apply Forall_forall; intros v (u & -> & _)%list_elem_of_fmap; apply u32_range|].
  assert (flist_on_disk block w1 warm q x fl) as Hd1.
  2: { unfold flist_on_disk in *. cbn. rewrite bytes_u32, <- Hd1, G, D, Od. apply concat_blocks_ext. intros lba _. apply Hs. }
  destruct st; [done|..].
  - apply (Hdk x fl Hx). by apply dirty_chill.
  - destruct (Hsy x fl Hx Hw) as [_ Hd]. unfold flist_on_disk in *. rewrite <- Hd, Od. apply concat_blocks_ext. intros lba Hl. apply Hfr.
    + rewrite geo_nblocks_eq by apply (ai_cns _ _ _ _ _ I). unfold flist_lba in Hl. nia.
    + intros y Hy (el & Hel & Hde). apply (flists_apart _ q x y); [done| |lia]. intros ->. apply chill_dirty in Hel; [|done].
      rewrite Hw in Hel. by injection Hel as <-.
Qed.

(** The objects' blocks are those before. *)
Lemma reopened_store dev K warm buf p hd nlb n q w w1 w2 st : closable dev (chill K warm) buf -> md_of (chill K warm) = Some p ->
  opened dev (fs_geo warm) (flushed_md (chill K warm) p) hd -> on_device dev warm -> store_inv block nlb n w warm st ->
  0 < g_npools (fs_geo warm) -> g_npools (fs_geo warm) <> 32 ->
  g_lb_nbytes (fs_geo warm) mod 4 = 0 -> fla_slab_cache_flist_nlb warm n = Some q ->
  (forall lba, fla_geo_nblocks (fs_geo warm) <= lba -> (forall x, 0 <= x < g_nslabs (fs_geo warm) -> dirty_at (chill K warm) x ->
     off_flist (fs_geo warm) q x lba) -> block w1 dev lba = block w dev lba) -> same_blocks block w1 w2 ->
  store_inv block nlb n w2 (rewarm warm (h_fs hd)) st /\ h_fs hd = chill (fun _ => true) (rewarm warm (h_fs hd)).
Proof using XnvmeLaws0.
  intros CL Hp Op [Od _ _] [[(e & free & ls & I & He) [Hnd Hl]] DM L Hb] Hnp H32 H4 Hq Hfr Hs.
  destruct (reopened_warm dev K warm buf p hd e n free ls CL Hp Op I Hnp H32) as [I2 Eh]. split; [|done].
  destruct (reopened_handle (W := W) dev _ buf p hd (cl_closing _ _ _ CL) Hp Op) as (Eg & Ed & DM2 & L2 & _).
  destruct (alloc_buffers warm e n free ls I H4) as (q' & Hq' & Hq0 & Hfit & _). rewrite Hq in Hq'. injection Hq' as <-.
  split; [split; [by exists e, free, ls|]; split; [done|]|by apply dev_matches_set_cache|done|].
  - intros o. by rewrite Hl, rewarm_live.
  - intros c Hc. assert (live warm n c.1) as Hlo by (apply Hl, list_elem_of_fmap; by exists c).
    assert (obj_bytes block (rewarm warm (h_fs hd)) nlb c.1 w2 = obj_bytes block warm nlb c.1 w) as ->; [|by apply Hb].
    pose proof (live_placed warm e n free ls c.1 I Hlo) as Po. destruct (ai_range _ _ _ _ _ I) as [Ho _].
    unfold obj_bytes, obj_start. cbn. rewrite Eg, Ed, Od. apply concat_blocks_ext. intros lba Hx. rewrite Hs.
    destruct (placed_no_flist warm e n c.1 q lba Po Hq0 Hfit) as [Hb0 Hno]; [unfold obj_start in *; rewrite He; lia|].
    apply Hfr; [done|]. intros y Hy _. by apply Hno.
Qed.

Lemma cold_reopen dev fs dp buf nlb n q opts w st : closable dev fs buf -> on_device dev fs -> cold_inv block nlb n q w fs st ->
  0 < g_npools (fs_geo fs) -> g_npools (fs_geo fs) <> 32 ->
  uri_names (oo_dev_uri opts) dev -> oo_md_dev_uri opts = None -> is_Some (strlen (oo_dev_uri opts)) ->
  exists w1 h1 err, fla_base_close w (mk_handle fs dp buf) = Some (w1, h1, err) /\
    (err = 0 -> exists w2 h2 err2, fla_open w1 opts = Some (w2, h2, err2) /\
       (err2 = 0 -> exists hd, h2 = Some hd /\ closable dev (h_fs hd) (h_buf hd) /\ on_device dev (h_fs hd) /\ dp_installed (h_dp hd) /\
          cold_inv block nlb n q w2 (h_fs hd) st /\ fs_geo (h_fs hd) = fs_geo fs /\
          forall w k, fla_base_pool_open w (h_fs hd) k = fla_base_pool_open w fs k)).
Proof using All.
  intros CL Od (K & warm & -> & SI & Hsy & Hq & H4) Hnp H32 Hu Hm Hst. pose proof SI as [[(e & free & ls & I & He) _] DM L _].
  destruct (alloc_buffers warm e n free ls I H4) as (q' & Hq' & Hq0 & Hfit & _). rewrite Hq in Hq'. injection Hq' as <-.
  destruct (ai_range _ _ _ _ _ I) as [Ho Hn]. assert (0 < q <= g_slab_nlb (fs_geo warm)) as Hqs by nia.
  assert (on_device dev warm) as Odw by (split; [apply Od|done|done]).
  destruct (close_open block dev (chill K warm) dp buf n q opts w (cl_closing _ _ _ CL) (cns_fs_set_cache _ _ (ai_cns _ _ _ _ _ I)) Od Hqs
    (chill_flushable K warm e n free ls q I H4 Hq) Hu Hm Hst) as (w1 & h1 & err & Ec & Hfr & Hok).
  exists w1, h1, err. split; [done|]. intros E0. destruct (Hok E0) as (Hdk & p & w2 & h2 & err2 & Hmd & Eo & Hs & Hopen).
  exists w2, h2, err2. split; [done|]. intros E2. destruct (Hopen E2) as (hd & -> & Op). exists hd. split; [done|].
  destruct (reopened_closable dev _ buf p hd CL Hmd Op) as [CL2 Od2]. do 2 (split; [done|]). split; [apply Op|].
  destruct (reopened_handle (W := W) dev _ buf p hd (cl_closing _ _ _ CL) Hmd Op) as (Eg & Ed & _ & _ & Hpo). split; [|done].
  destruct (reopened_store dev K warm buf p hd nlb n q w w1 w2 st CL Hmd Op Odw SI Hnp H32 H4 Hq Hfr Hs) as [SI2 Eh].
  exists (fun _ => true), (rewarm warm (h_fs hd)). do 2 (split; [done|]). split.
  - by eapply (reopened_synced dev K warm (h_fs hd) e n free ls q w w1 w2).
  - unfold fla_slab_cache_flist_nlb in *. cbn. by rewrite Eg.
Qed.
End reopen.

(** ** Sessions *)

Section sessions.
Context {W : Type} `{E : XnvmeEnv W} `{A : XnvmeAdm W}.

(** A round ends with closing the system, or the client synchronises and crashes. *)
Inductive ending := Closes | Crashes.
Definition end_round (en : ending) (w : W) (h : handle) : option (W * handle * Z) :=
  match en with Closes => fla_base_close w h | Crashes => fla_base_sync w h end.

(** Closing writes what a synchronisation writes. *)
Lemma close_sync w h w' h' err : fla_base_close w h = Some (w', h', err) -> exists h'', fla_base_sync w h = Some (w', h'', err).
Proof.
  unfold fla_base_close, fla_base_sync. destruct (fla_flush w h) as [[[w1 h1] e1]|]; [|done]. bind_step.
  destruct (e1 =? 0) eqn:E1; cbn [negb]; [apply Z.eqb_eq in E1 as ->|intros Hrun; simplify_eq; by eexists].
  destruct (fla_close_noflush h1) as [h2|]; [|done]. bind_step. intros Hrun. simplify_eq. by eexists.
Qed.

(** In each round the client runs its operations on the pool and ends; then it opens the
    device again and looks its pool up by name.  What it has at the end is the handle and
    the pool, unless a close, a synchronisation, an open or a lookup failed. *)
Fixpoint sessions (size : Z) (opts : fla_open_opts) (name : list Z) (rounds : list (list store_op * ending)) (w : W) (h : handle)
    (pool : fla_pool) (st : list cell) : option (W * option (handle * fla_pool) * list cell) :=
  match rounds with
  | [] => Some (w, Some (h, pool), st)
  | (ops, en) :: rounds =>
      '(w, fs, st) ← store_run (Dp := placed h) size pool ops w (h_fs h) st;
      '(w, _, err) ← end_round en w (mk_handle fs (h_dp h) (h_buf h));
      if negb (err =? 0) then Some (w, None, st)
      else
        '(w, h, err) ← fla_open w opts;
        if negb (err =? 0) then Some (w, None, st)
        else
          h ← h;
          '(w, pool, err) ← fla_base_pool_open w (h_fs h) name;
          if negb (err =? 0) then Some (w, None, st)
          else pool ← pool; sessions size opts name rounds w h pool st
  end.

Context (block : W -> xnvme_dev -> Z -> list Z) `{!XnvmeLaws W block} `{!XnvmeAdmLaws W block}.
Context (dev : xnvme_dev) (opts : fla_open_opts) (name : list Z) (pool : fla_pool) (nlb n q : Z) (fs0 : flexalloc).
Context (Hu : uri_names (oo_dev_uri opts) dev) (Hm : oo_md_dev_uri opts = None) (Hs : is_Some (strlen (oo_dev_uri opts))).
Context (Hp : p_ndx pool = 0) (Hnp : 0 < g_npools (fs_geo fs0)) (H32 : g_npools (fs_geo fs0) <> 32).

(** The name leads to the pool whenever there is memory for the handle. *)
Context (Hname : forall w, exists w' hdl err, fla_base_pool_open w fs0 name = Some (w', hdl, err) /\ same_blocks block w w' /\
  (err = 0 -> hdl = Some pool)).

(** The system between two rounds. *)
Record running (w : W) (h : handle) (st : list cell) : Prop := {
  rn_closable : closable dev (h_fs h) (h_buf h);
  rn_dev : on_device dev (h_fs h);
  rn_dp : dp_installed (h_dp h);
  rn_cold : cold_inv block nlb n q w (h_fs h) st;
  rn_geo : fs_geo (h_fs h) = fs_geo fs0;
  rn_names : forall w k, fla_base_pool_open w (h_fs h) k = fla_base_pool_open w fs0 k
}.

Lemma cold_blocks w w' fs st : cold_inv block nlb n q w fs st -> same_blocks block w w' -> cold_inv block nlb n q w' fs st.
Proof using XnvmeLaws0.
  intros (K & warm & -> & SI & Hsy & Hq & H4) Hb. pose proof SI as [[(e & free & ls & I & He) _] _ _ _].
  destruct (alloc_buffers warm e n free ls I H4) as (q' & Hq' & Hq0 & _). rewrite Hq in Hq'. injection Hq' as <-.
  exists K, warm. split; [done|]. split; [by eapply store_inv_blocks|]. split; [|done].
  eapply synced_static; [done|apply same_static_refl|intros; apply Hb|lia].
Qed.

Lemma cold_nodup w fs st : cold_inv block nlb n q w fs st -> NoDup st.*1.
Proof using. by intros (_ & _ & _ & [(_ & Hnd & _) _ _ _] & _). Qed.

(** Every round ends, and leaves the system as the next one needs it. *)
Lemma sessions_ok rounds : forall w h st, running w h st -> Forall (Forall (op_ok (size_of fs0 nlb))) rounds.*1 ->
  exists w' out st', sessions (size_of fs0 nlb) opts name rounds w h pool st = Some (w', out, st') /\ NoDup st'.*1 /\
    forall h' pool', out = Some (h', pool') -> pool' = pool /\ running w' h' st'.
Proof using All.
  induction rounds as [|[ops en] rounds IH]; intros w h st [CL Od Hdp CI Hg Hn] Hops.
  { exists w, (Some (h, pool)), st. split; [done|]. split; [by eapply cold_nodup|]. intros h' pool' [= <- <-]. done. }
  rewrite fmap_cons in Hops. apply Forall_cons in Hops as [Hop Hops]. pose proof (placed_laws block h Hdp) as Hpl. cbn [sessions fst] in *.
  assert (size_of fs0 nlb = size_of (h_fs h) nlb) as Esz by (unfold size_of; by rewrite Hg). rewrite Esz in Hop.
  destruct (cold_run (Dp := placed h) block nlb n q pool ops Hp w (h_fs h) st CI Hop) as (w1 & fs1 & st1 & Er & CI1 & G1).
  rewrite <- Esz in Er. rewrite Er. bind_step.
  destruct (closable_run (Dp := placed h) dev (h_fs h) (h_buf h) _ pool ops w st w1 fs1 st1 CL Od Er) as (CL1 & Od1 & F1).
  assert (fs_geo fs1 = fs_geo fs0) as Hg1 by congruence.
  destruct (cold_reopen block dev fs1 (h_dp h) (h_buf h) nlb n q opts w1 st1 CL1 Od1 CI1) as (w2 & h2 & err & Hend & Hok);
    [by rewrite Hg1..|done|done|done|].
  assert (exists h', end_round en w1 (mk_handle fs1 (h_dp h) (h_buf h)) = Some (w2, h', err)) as [h' ->]
    by (destruct en; [by eexists|by eapply close_sync]). bind_step.
  pose proof (cold_nodup _ _ _ CI1) as Hnd.
  destruct (Z.eqb_spec err 0) as [->|Hne]; cbn [negb]; [|by do 3 eexists]. destruct (Hok eq_refl) as (w3 & h3 & err3 & -> & Hopen). bind_step.
  destruct (Z.eqb_spec err3 0) as [->|Hne]; cbn [negb]; [|by do 3 eexists].
  destruct (Hopen eq_refl) as (hd & -> & CL3 & Od3 & Hdp3 & CI3 & Hg3 & Hn3). bind_step.
  assert (forall w k, fla_base_pool_open w (h_fs hd) k = fla_base_pool_open w fs0 k) as Hnames.
  { intros w' k. rewrite Hn3, <- Hn. apply pool_open_ext; by rewrite (of_htbl _ _ F1). }
  rewrite Hnames. destruct (Hname w3) as (w4 & hdl & err4 & -> & Hb4 & Hpool). bind_step.
  destruct (Z.eqb_spec err4 0) as [->|Hne]; cbn [negb]; [|by do 3 eexists]. rewrite (Hpool eq_refl). bind_step.
  apply IH; [|done]. split; try done; [by eapply cold_blocks|congruence].
Qed.

(** What a system holds reads back. *)
Lemma running_reads w h st : running w h st -> forall i o c off len rbuf, st !! i = Some (o, c) -> 0 <= off -> 0 < len ->
  off + len < 2 ^ 63 -> len <= Z.of_nat (length rbuf) ->
  exists w' err data, fla_object_read w (h_fs h) pool o rbuf off len = Some (w', err, data) /\
    (forall dev lba, block w' dev lba = block w dev lba) /\
    (err = 0 -> contents_ok (take (Z.to_nat len) (drop (Z.to_nat off) c)) (take (Z.to_nat len) data)).
Proof using Hp XnvmeLaws0 XnvmeAdmLaws0.
  intros [_ _ _ (K & warm & Eh & SI & _) _ _]. rewrite Eh. intros i o c off len rbuf Hi H0 H1 H2 H3.
  exact (store_reads block nlb n w warm st pool Hp SI i o c off len rbuf Hi H0 H1 H2 H3).
Qed.
End sessions.

(** With everything in the cache, or nothing in it but stale elements. *)
Lemma chill_none fs : chill (fun _ => false) fs = fs.
Proof.
  destruct fs as [dv stt c geo su po sl cs]. unfold chill, set_cache. cbn. f_equal. destruct c as [c|]; [|done]. cbn. f_equal.
  apply list_eq. intros i. rewrite list_lookup_imap. by destruct (c !! i).
Qed.

Lemma session_running {W} `{E : XnvmeEnv W} `{A : XnvmeAdm W} block `{!XnvmeLaws W block} `{!XnvmeAdmLaws W block}
    dev pr U arg w h fs pool : session dev pr U arg w h fs pool -> arg_typed arg -> dev_lba dev mod 4 = 0 ->
  exists n q, running block dev (a_obj_nlb arg) n q fs w (mk_handle fs (h_dp h) (h_buf h)) [].
Proof.
  intros Se Ha H4. destruct (store_start block dev pr U arg w h fs pool Se) as (Hp & Hdp & n & SI).
  destruct (session_closable block dev pr U arg w h fs pool Se Ha) as (CL & Od & Np).
  pose proof SI as [[(e & free & ls & I & He) _] _ _ _].
  assert (g_lb_nbytes (fs_geo fs) mod 4 = 0) as H4' by (by rewrite <- (df_lba _ _ (cl_dev _ _ _ (cl_closing _ _ _ CL)))).
  destruct (alloc_buffers fs e n free ls I H4') as (q & Hq & _). exists n, q. split; try done.
  exists (fun _ => false), fs. split; [by rewrite chill_none|]. split; [done|]. split; [|done]. intros x fl Hx Hc.
  destruct (session_created block dev pr U arg w h fs pool Se) as (k & n' & R & _ & _ & _ & _ & SP & _).
  unfold cache_elem in Hc. rewrite (sp_cache _ _ SP) in Hc. rewrite (sp_geo _ _ SP) in Hx.
  pose proof (rd_cache _ _ R x Hx) as Hel. unfold cache_elem in Hel. by rewrite Hel in Hc.
Qed.

(** The name of a session's pool leads to it. *)
Lemma session_name {W} `{E : XnvmeEnv W} `{A : XnvmeAdm W} block `{!XnvmeLaws W block} `{!XnvmeAdmLaws W block}
    dev pr U arg w h fs pool : session dev pr U arg w h fs pool ->
  forall w, exists w' hdl err, fla_base_pool_open w fs (a_name arg) = Some (w', hdl, err) /\ same_blocks block w w' /\
    (err = 0 -> hdl = Some pool).
Proof.
  intros Se w0. destruct (session_created block dev pr U arg w h fs pool Se) as (k & n & R & _ & _ & Hn & Hb & SP & DI & [Hk Hh] & CO).
  destruct (open_spec block U w0 fs _ k DI (se_name _ _ _ _ _ _ _ _ Se) Hh) as (w' & hdl & err & Eo & Hbl & Hd).
  exists w', hdl, err. split; [done|]. split; [done|]. rewrite (co_dir _ _ _ _ _ _ CO), lookup_insert_eq in Hd.
  destruct Hd as [[-> _]|[_ ->]]; [|done]. intros _. rewrite <- Hk. by destruct pool.
Qed.

(** ** Claim *)

(** C2: The objects of a pool survive any number of restarts.  A client formats a device,
    opens it and creates a pool; in each round it then runs any sequence of creations,
    openings, destructions and writes, and closes the system, or synchronises it and
    crashes; then it opens the device again and looks its pool up by name.  Every round
    runs to the end; the objects held are different from each other, those created in
    different rounds included; and unless closing, synchronising, opening or looking up
    reported an error the client has its pool again, every name leads to where it led in
    the first round, and every object it holds reads as the bytes it last wrote there, in
    whichever round.  (With exactly 32 pools opening installs no functions for the first
    pool, see [Directory].) *)
Theorem store_survives_restarts {W} `{E : XnvmeEnv W} `{A : XnvmeAdm W} block `{!XnvmeLaws W block} `{!XnvmeAdmLaws W block}
    dev pr U arg w2 h fs2 pool rounds :
  session dev pr U arg w2 h fs2 pool -> arg_typed arg -> dev_lba dev mod 4 = 0 -> mp_npools pr <> 32 ->
  Forall (Forall (op_ok (size_of fs2 (a_obj_nlb arg)))) rounds.*1 ->
  exists w' out st, sessions (size_of fs2 (a_obj_nlb arg)) (mp_open_opts pr) (a_name arg) rounds w2
      (mk_handle fs2 (h_dp h) (h_buf h)) pool [] = Some (w', out, st) /\ NoDup st.*1 /\
    forall h' pool', out = Some (h', pool') -> pool' = pool /\
      (forall w k, fla_base_pool_open w (h_fs h') k = fla_base_pool_open w fs2 k) /\
      forall i o c off len rbuf, st !! i = Some (o, c) -> 0 <= off -> 0 < len -> off + len < 2 ^ 63 ->
        len <= Z.of_nat (length rbuf) ->
        exists w5 err5 data, fla_object_read w' (h_fs h') pool o rbuf off len = Some (w5, err5, data) /\
          (err5 = 0 -> contents_ok (take (Z.to_nat len) (drop (Z.to_nat off) c)) (take (Z.to_nat len) data)).
Proof.
  intros Se Ha H4 H32 Hops. destruct (session_running block dev pr U arg w2 h fs2 pool Se Ha H4) as (n & q & Rn).
  destruct (session_start block dev pr U arg w2 h fs2 pool Se) as (Hp & _).
  destruct (session_closable block dev pr U arg w2 h fs2 pool Se Ha) as (_ & _ & Np).
  pose proof (se_request _ _ _ _ _ _ _ _ Se) as Rq. pose proof (mr_npools _ _ Rq) as Hnp.
  destruct (sessions_ok block dev (mp_open_opts pr) (a_name arg) pool (a_obj_nlb arg) n q fs2 (mr_uri _ _ Rq) (mr_own _ _ Rq)
    (mr_string _ _ Rq) Hp ltac:(lia) ltac:(lia) (session_name block dev pr U arg w2 h fs2 pool Se) rounds w2 _ [] Rn Hops)
    as (w' & out & st & Es & Hnd & Hout).
  exists w', out, st. do 2 (split; [done|]). intros h' pool' Eo. destruct (Hout h' pool' Eo) as [-> Rn']. split; [done|].
  split; [apply Rn'|]. intros i o c off len rbuf Hi H0 H1 H2 H3.
  destruct (running_reads block dev pool (a_obj_nlb arg) n q fs2 Hp w' h' st Rn' i o c off len rbuf Hi H0 H1 H2 H3)
    as (w5 & err5 & data & Er & _ & Hd). by exists w5, err5, data.
Qed.

(** Three rounds on the concrete system of [History]: in the second the client opens an
    object of the first, writes to it, destroys it, creates another and crashes. *)
Definition ex_rounds : list (list store_op * ending) :=
  [(ex_store_ops, Closes);
   ([StOpen 0; StUnaligned 0 5 [9; 8]; StWrite 1 1024 (replicate 512 6); StDestroy 0; StCreate], Crashes); ([StOpen 1], Closes)].
Local Notation ex_sessions := (sessions (size_of ex_fs2 (a_obj_nlb (ex_arg 97 10))) (mp_open_opts ex_request) (a_name (ex_arg 97 10)) ex_rounds
  ex_disk (mk_handle ex_fs2 (h_dp ex_handle) (h_buf ex_handle)) ex_pool []).

Lemma ex_rounds_ok : Forall (Forall (op_ok (size_of ex_fs2 (a_obj_nlb (ex_arg 97 10))))) ex_rounds.*1.
Proof.
  apply Forall_cons. split; [exact ex_store_ops_ok|]. assert (size_of ex_fs2 (a_obj_nlb (ex_arg 97 10)) = 5120) as -> by (vm_compute; reflexivity).
  repeat (apply Forall_cons; split); try apply Forall_nil_2; cbn [op_ok]; rewrite ?length_replicate; try done; (split; [lia|split; [discriminate|cbn; lia]]).
Qed.

(** The error of reading an object at the end, and what its first bytes should be. *)
Definition ex_read (r : option (RamDisk.world * option (handle * fla_pool) * list cell)) : option Z :=
  '(w, out, _) ← r; '(h, pool) ← out;
  '(_, err, _) ← fla_object_read w (h_fs h) pool (mk_obj 0 0) (replicate 512 0) 1024 512; Some err.
Definition ex_cell (r : option (RamDisk.world * option (handle * fla_pool) * list cell)) : option (fla_object * list (option Z)) :=
  '(_, _, st) ← r; c ← st !! 0%nat; Some (c.1, take 3 (drop 1024 c.2)).

Lemma ex_read_ok : ex_read ex_sessions = Some 0.
Proof. vm_compute. reflexivity. Qed.
Lemma ex_cell_ok : ex_cell ex_sessions = Some (mk_obj 0 0, [Some 6; Some 6; Some 6]).
Proof. vm_compute. reflexivity. Qed.

Lemma contents_known k : forall c data l, contents_ok c data -> take k c = Some <$> l -> take k data = l.
Proof.
  induction k as [|k IH]; intros c data l Hc Hl; [by destruct l|]. destruct Hc as [|x y c data Hx Hc]; [by destruct l|].
  destruct l as [|z l]; [done|]. cbn in *. injection Hl as -> Hl. f_equal; [by destruct Hx as [|[= ->]]|by apply (IH c)].
Qed.

(** What the second round wrote is read in the fourth. *)
Lemma store_survives_restarts_witness : exists w' h' st w5 data, ex_sessions = Some (w', Some (h', ex_pool), st) /\
  fla_object_read w' (h_fs h') ex_pool (mk_obj 0 0) (replicate 512 0) 1024 512 = Some (w5, 0, data) /\ take 3 data = [6; 6; 6].
Proof.
  destruct (store_survives_restarts RamDisk.block ex_dev1k ex_request ex_names (ex_arg 97 10) ex_disk ex_handle ex_fs2 ex_pool
              ex_rounds ex_session ex_arg_typed) as (w' & out & st & Es & _ & Hout); [reflexivity|cbn; lia|exact ex_rounds_ok|].
  pose proof ex_read_ok as Hr. pose proof ex_cell_ok as Hc. rewrite Es in Hr, Hc. cbn [ex_read ex_cell mbind option_bind] in Hr, Hc.
  destruct out as [[h' pool']|]; [|discriminate Hr]. destruct (Hout h' pool' eq_refl) as (-> & _ & Hrd). cbn [mbind option_bind] in Hr.
  destruct (st !! 0%nat) as [[o c]|] eqn:Hi; [|discriminate Hc]. cbn [mbind option_bind fst snd] in Hc.
  apply (inj Some), (inj2 pair) in Hc as [-> Hc].
  destruct (Hrd 0%nat (mk_obj 0 0) c 1024 512 (replicate 512 0) Hi) as (w5 & err5 & data & Er & Hd); [lia..|rewrite length_replicate; lia|].
  rewrite Er in Hr. cbn [mbind option_bind] in Hr. apply (inj Some) in Hr as ->. exists w', h', st, w5, data. split; [exact Es|]. split; [exact Er|].
  pose proof (contents_known 3 _ _ [6; 6; 6] (Hd eq_refl)) as Hk. rewrite !take_take in Hk. exact (Hk Hc).
Defined.
