(* ===== verification/Socket.v ===== *)
(** * Socket: messages over a stream socket, [src/src/flexalloc_daemon_base.c] and
    [flexalloc_daemon_base.h]

    A message is a header (length of the data, command, tag) and up to
    [FLA_MSG_DATA_MAX] bytes of data, kept in one buffer of [FLA_MSG_BUFSIZ] bytes;
    [struct fla_msg] is a pair of pointers into it, so a message is its buffer here.
    The system calls are the class [SockEnv] on the state [N] of the process and its
    peers; [SockLaws] is what is assumed of them.  A call that never returns is
    [None]. *)
From S2P Require Import Prelude Hash XnvmeEnv Flexalloc Layout.

Definition EINTR : Z := 4.

Definition sizeof_msg_header : Z := 8.
Definition FLA_MSG_DATA_MAX : Z := 2048.
Definition FLA_MSG_BUFSIZ : Z := sizeof_msg_header + FLA_MSG_DATA_MAX.

Definition FLA_MSG_CMD_NULL : Z := 2 ^ 16 - 1.
Definition FLA_MSG_CMD_IDENTIFY : Z := 1.
Definition FLA_MSG_CMD_SYNC : Z := 2.
Definition FLA_MSG_CMD_POOL_OPEN : Z := 3.
Definition FLA_MSG_CMD_POOL_CREATE : Z := 5.
Definition FLA_MSG_CMD_POOL_DESTROY : Z := 6.
Definition FLA_MSG_CMD_POOL_SET_ROOT_OBJECT : Z := 7.
Definition FLA_MSG_CMD_POOL_GET_ROOT_OBJECT : Z := 8.
Definition FLA_MSG_CMD_OBJECT_OPEN : Z := 9.
Definition FLA_MSG_CMD_OBJECT_CREATE : Z := 10.
Definition FLA_MSG_CMD_OBJECT_DESTROY : Z := 11.
Definition FLA_MSG_CMD_SYNC_NO_RSPS : Z := 12.
Definition FLA_MSG_CMD_INIT_INFO : Z := 30.

(** ** The header in the buffer *)

Definition hdr_len (buf : list Z) : Z := field buf 0 4.
Definition hdr_cmd (buf : list Z) : Z := field buf 4 2.
Definition hdr_tag (buf : list Z) : Z := field buf 6 2.

(** Assignment to a field of the header. *)
Definition hdr_put (off : nat) (bs : list Z) (buf : list Z) : list Z :=
  take off buf ++ bs ++ drop (off + length bs) buf.
Definition set_hdr_len (v : Z) (buf : list Z) : list Z := hdr_put 0 (le 4 v) buf.
Definition set_hdr_cmd (v : Z) (buf : list Z) : list Z := hdr_put 4 (le 2 v) buf.
Definition set_hdr_tag (v : Z) (buf : list Z) : list Z := hdr_put 6 (le 2 v) buf.

(** Bytes of the data, and assigning to them. *)
Definition data_get (buf : list Z) (off n : Z) : option (list Z) := buf_get buf (sizeof_msg_header + off) n.
Definition data_put (buf : list Z) (off : Z) (bs : list Z) : option (list Z) :=
  buf_put buf (sizeof_msg_header + off) bs.

(** ** The system calls

    [send] and [recv] return a count, 0 when the peer has closed, or a negative
    number with [errno] set; [recv] always waits for the whole amount
    ([MSG_WAITALL]), its flag is [MSG_PEEK].  [intr] bounds how often calls will
    still be interrupted by a signal. *)
Class SockEnv (N : Type) := {
  errno : N -> Z;
  clear_errno : N -> N;
  intr : N -> nat;
  send : N -> Z -> list Z -> N * Z;
  recv : N -> Z -> bool -> Z -> option (N * Z * list Z);
  sys_close : N -> Z -> N
}.

(** A value of [char], taken as unsigned. *)
Definition is_byte (b : Z) : Prop := 0 <= b < 2 ^ 8.

(** [sent n fd] is what has been sent on [fd] so far, [pending n fd] what has
    arrived and was not read; [alive n fd] says that the peer has not closed. *)
Class SockLaws (N : Type) `{SockEnv N} := {
  sent : N -> Z -> list Z;
  pending : N -> Z -> list Z;
  alive : N -> Z -> Prop;
  clear_errno_ok : forall n, errno (clear_errno n) = 0 /\ intr (clear_errno n) = intr n /\
    (forall fd, sent (clear_errno n) fd = sent n fd /\ pending (clear_errno n) fd = pending n fd);
  send_ok : forall n fd bs n' r, send n fd bs = (n', r) ->
    r <= Z.of_nat (length bs) /\ sent n' fd = sent n fd ++ take (Z.to_nat r) bs /\
    (intr n' <= intr n)%nat /\ (r < 0 -> errno n' = EINTR -> (intr n' < intr n)%nat);
  recv_ok : forall n fd peek k n' r bs, 0 < k -> recv n fd peek k = Some (n', r, bs) ->
    -1 <= r <= k /\ Z.of_nat (length bs) = Z.max r 0 /\ Forall is_byte bs /\ (r < 0 -> 0 < errno n') /\
    exists more rest, pending n fd ++ more = bs ++ rest /\
      pending n' fd = if peek then bs ++ rest else rest;
  alive_ok : forall n fd peek k n' r bs, 0 < k -> alive n fd -> recv n fd peek k = Some (n', r, bs) ->
    r <> 0 /\ alive n' fd
}.

Section messages.
Context {N : Type} `{SockEnv N}.

(** ** Sending *)

Fixpoint send_loop (fuel : nat) (n : N) (sock_fd : Z) (buf : list Z) : option (N * Z) :=
  match buf with
  | [] => Some (n, 0)
  | _ =>
      match fuel with
      | O => None
      | S fuel =>
          let '(n, nwritten) := send n sock_fd buf in
          if nwritten <=? 0 then
            if (nwritten <? 0) && (errno n =? EINTR) then send_loop fuel n sock_fd buf
            else Some (n, if errno n =? 0 then 1 else - errno n)
          else send_loop fuel n sock_fd (drop (Z.to_nat nwritten) buf)
      end
  end.

Definition fla_sock_send_bytes (n : N) (sock_fd : Z) (buf : list Z) : option (N * Z) :=
  let n := clear_errno n in
  send_loop (length buf + intr n) n sock_fd buf.

Definition fla_sock_send_msg (n : N) (sock_fd : Z) (msg : list Z) : option (N * Z) :=
  bs ← buf_get msg 0 (sizeof_msg_header + hdr_len msg);
  fla_sock_send_bytes n sock_fd bs.

(** ** Receiving *)

(** The label [retry_hdr]: [Some err] is a return with [err]. *)
Fixpoint recv_hdr (retries : nat) (n : N) (sock_fd : Z) (msg : list Z) :
    option (N * list Z * nat * option Z) :=
  '(n, r, bs) ← recv n sock_fd true sizeof_msg_header;
  msg ← buf_put msg 0 bs;
  if r =? sizeof_msg_header then Some (n, msg, retries, None) else
  if (0 <? r) || ((r =? -1) && (errno n =? EINTR)) then
    match retries with
    | O => Some (n, msg, retries, Some 1)
    | S retries => recv_hdr retries n sock_fd msg
    end
  else if r =? -1 then Some (n, msg, retries, Some (- errno n))
  else Some (n, msg, retries, None).

(** The label [retry_data]: [off] is where [data] points in the buffer. *)
Fixpoint recv_data (fuel retries : nat) (n : N) (sock_fd : Z) (msg : list Z) (off nleft : Z) :
    option (N * list Z * option Z) :=
  if nleft <=? 0 then Some (n, msg, None) else
  match fuel with
  | O => None
  | S fuel =>
      '(n, r, bs) ← recv n sock_fd false nleft;
      if r <=? 0 then
        match retries with
        | S retries =>
            if errno n =? EINTR then recv_data fuel retries n sock_fd msg off nleft
            else Some (n, msg, Some (- errno n))
        | O => Some (n, msg, Some (- errno n))
        end
      else
        msg ← buf_put msg off bs;
        recv_data fuel retries n sock_fd msg (off + r) (nleft - r)
  end.

Definition fla_sock_recv_msg (n : N) (sock_fd : Z) (msg : list Z) : option (N * list Z * Z) :=
  let msg := set_hdr_cmd FLA_MSG_CMD_NULL msg in
  '(n, msg, retries, ret) ← recv_hdr 3 n sock_fd msg;
  match ret with
  | Some err => Some (n, msg, err)
  | None =>
      if FLA_MSG_DATA_MAX <? hdr_len msg then Some (n, msg, 2) else
      let nleft := sizeof_msg_header + hdr_len msg in
      '(n, msg, ret) ← recv_data (Z.to_nat nleft + retries) retries n sock_fd msg 0 nleft;
      match ret with
      | Some err => Some (n, msg, err)
      | None => Some (n, msg, if hdr_cmd msg =? FLA_MSG_CMD_NULL then 1 else 0)
      end
  end.
End messages.

(** ** Buffers *)

Record msg_buf (buf : list Z) : Prop := {
  mb_length : Z.of_nat (length buf) = FLA_MSG_BUFSIZ;
  mb_bytes : Forall is_byte buf
}.

Lemma length_hdr_put off bs buf : (off + length bs <= length buf)%nat ->
  length (hdr_put off bs buf) = length buf.
Proof. intros Hl. unfold hdr_put. rewrite !length_app, length_take, length_drop. lia. Qed.

Lemma field_take k bs off n : (off + n <= k)%nat -> field (take k bs) off n = field bs off n.
Proof.
  intros Hk. unfold field. rewrite !take_drop_commute, take_take. do 3 f_equal. lia.
Qed.

(** Two buffers with the same first eight bytes have the same header. *)
Lemma hdr_take buf buf' : take 8 buf = take 8 buf' ->
  hdr_len buf = hdr_len buf' /\ hdr_cmd buf = hdr_cmd buf' /\ hdr_tag buf = hdr_tag buf'.
Proof.
  intros Ht. unfold hdr_len, hdr_cmd, hdr_tag.
  rewrite <- !(field_take 8 buf), <- !(field_take 8 buf'), Ht by lia. done.
Qed.

Lemma un_le_range bs : Forall is_byte bs -> 0 <= un_le bs < 256 ^ Z.of_nat (length bs).
Proof.
  induction 1 as [|b bs Hb _ IH]; [cbn; lia|]. cbn [un_le length]. unfold is_byte in Hb.
  rewrite Nat2Z.inj_succ, Z.pow_succ_r by lia. lia.
Qed.

Lemma hdr_len_nonneg buf : Forall is_byte buf -> 0 <= hdr_len buf.
Proof. intros Hb. apply un_le_range, Forall_take, Forall_drop, Hb. Qed.

Lemma le_bytes n : forall v, Forall is_byte (le n v).
Proof.
  induction n as [|n IH]; intros v; cbn [le]; constructor; [|apply IH]. apply Z.mod_pos_bound. lia.
Qed.

Lemma hdr_put_msg off bs buf : (off + length bs <= 2056)%nat -> Forall is_byte bs -> msg_buf buf ->
  msg_buf (hdr_put off bs buf).
Proof.
  intros Ho Hb [Hl Hf]. unfold FLA_MSG_BUFSIZ, sizeof_msg_header, FLA_MSG_DATA_MAX in Hl. split.
  - rewrite length_hdr_put by lia. done.
  - unfold hdr_put. auto using Forall_app_2, Forall_take, Forall_drop.
Qed.

Lemma buf_put_in buf off bs : 0 <= off -> off + Z.of_nat (length bs) <= Z.of_nat (length buf) ->
  buf_put buf off bs = Some (take (Z.to_nat off) buf ++ bs ++ drop (Z.to_nat off + length bs) buf).
Proof. intros ? ?. unfold buf_put. by rewrite !(proj2 (Z.leb_le _ _)) by lia. Qed.

Lemma buf_put_0 buf bs : (length bs <= length buf)%nat -> buf_put buf 0 bs = Some (bs ++ drop (length bs) buf).
Proof. intros Hl. by rewrite buf_put_in by lia. Qed.

Lemma length_buf_put (buf : list Z) (off : Z) (bs : list Z) : 0 <= off -> off + Z.of_nat (length bs) <= Z.of_nat (length buf) ->
  length (take (Z.to_nat off) buf ++ bs ++ drop (Z.to_nat off + length bs) buf) = length buf.
Proof. intros ? ?. rewrite !length_app, length_take, length_drop. lia. Qed.

(** ** Sending terminates and delivers *)

Section laws.
Context {N : Type} `{SockLaws N}.

Lemma send_loop_spec fuel : forall n fd buf, (length buf + intr n <= fuel)%nat ->
  exists n' err, send_loop fuel n fd buf = Some (n', err) /\
    exists k, (k <= length buf)%nat /\ sent n' fd = sent n fd ++ take k buf /\
      (err = 0 <-> k = length buf).
Proof.
  induction fuel as [|fuel IH]; intros n fd buf Hf.
  { destruct buf; [|cbn in Hf; lia]. cbn. exists n, 0. split; [done|]. exists 0%nat. by rewrite app_nil_r. }
  destruct buf as [|b buf]; [cbn; exists n, 0; split; [done|]; exists 0%nat; by rewrite app_nil_r|].
  cbn [send_loop]. destruct (send n fd (b :: buf)) as [n1 r] eqn:Hs.
  destruct (send_ok _ _ _ _ _ Hs) as (Hr & Hsent & Hi & Hintr).
  destruct (Z.leb_spec r 0) as [Hle|Hgt].
  - replace (Z.to_nat r) with 0%nat in Hsent by lia. rewrite take_0, app_nil_r in Hsent.
    destruct (Z.ltb_spec r 0) as [Hlt|]; cbn [andb].
    + destruct (Z.eqb_spec (errno n1) EINTR) as [He|He].
      * specialize (Hintr Hlt He). destruct (IH n1 fd (b :: buf)) as (n' & err & -> & Hk); [lia|].
        rewrite Hsent in Hk. eauto.
      * exists n1, (if errno n1 =? 0 then 1 else - errno n1). split; [done|]. exists 0%nat.
        rewrite take_0, app_nil_r. repeat split; [cbn; lia|done| |cbn; lia].
        destruct (Z.eqb_spec (errno n1) 0); lia.
    + exists n1, (if errno n1 =? 0 then 1 else - errno n1). split; [done|]. exists 0%nat.
      rewrite take_0, app_nil_r. repeat split; [cbn; lia|done| |cbn; lia].
      destruct (Z.eqb_spec (errno n1) 0); lia.
  - destruct (IH n1 fd (drop (Z.to_nat r) (b :: buf))) as (n' & err & -> & k & Hk & Hsent' & Herr).
    { rewrite length_drop. lia. }
    rewrite length_drop in Hk, Herr. exists n', err. split; [done|]. exists (Z.to_nat r + k)%nat.
    rewrite Hsent', Hsent, <- app_assoc, take_take_drop. repeat split; [lia| |]; intros Hx.
    + apply Herr in Hx. lia.
    + apply Herr. lia.
Qed.

(** [fla_sock_send_bytes] returns, however the transfer is split and however
    often it is interrupted: it has sent a prefix of the buffer, and its result is 0
    exactly when that is the whole buffer. *)
Theorem send_bytes_total n fd buf :
  exists n' err k, fla_sock_send_bytes n fd buf = Some (n', err) /\ (k <= length buf)%nat /\
    sent n' fd = sent n fd ++ take k buf /\ (err = 0 <-> k = length buf).
Proof.
  unfold fla_sock_send_bytes. destruct (clear_errno_ok n) as (_ & _ & Hc). destruct (Hc fd) as [<- _].
  destruct (send_loop_spec (length buf + intr (clear_errno n)) (clear_errno n) fd buf)
    as (n' & err & Hrun & k & Hk); [lia|].
  exists n', err, k. split; [exact Hrun|exact Hk].
Qed.

(** ** Receiving *)

(** A call to [recv] always returns. *)
Definition responsive (fd : Z) : Prop := forall n peek k, is_Some (recv n fd peek k).

(** One call of [recv] into the buffer. *)
Lemma recv_into n fd peek k n' r bs msg off : 0 < k -> 0 <= off -> off + k <= Z.of_nat (length msg) ->
  recv n fd peek k = Some (n', r, bs) ->
  exists msg' more rest, buf_put msg off bs = Some msg' /\ length msg' = length msg /\
    (Forall is_byte msg -> Forall is_byte msg') /\
    take (Z.to_nat off) msg' = take (Z.to_nat off) msg /\
    take (length bs) (drop (Z.to_nat off) msg') = bs /\
    -1 <= r <= k /\ Z.of_nat (length bs) = Z.max r 0 /\ (r < 0 -> 0 < errno n') /\
    pending n fd ++ more = bs ++ rest /\ pending n' fd = if peek then bs ++ rest else rest.
Proof.
  intros Hk Hoff Hlen Hr. destruct (recv_ok _ _ _ _ _ _ _ Hk Hr) as (Hrr & Hbs & Hbb & Herr & more & rest & Hq & Hp).
  rewrite buf_put_in by lia. eexists _, more, rest. split; [done|]. split; [apply length_buf_put; lia|].
  split; [intros Hm; auto using Forall_app_2, Forall_take, Forall_drop|].
  split; [by rewrite take_app_le, take_take, Nat.min_id by (rewrite length_take; lia)|].
  split; [|done]. rewrite drop_app_ge by (rewrite length_take; lia).
  rewrite length_take, Nat.min_l, Nat.sub_diag, drop_0, take_app_le by lia. by apply take_ge.
Qed.

(** What [recv_hdr] leaves when it goes on: the first bytes of the stream. *)
Definition hdr_received (n n' : N) (fd : Z) (msg' : list Z) : Prop :=
  exists more, pending n' fd = pending n fd ++ more /\ take 8 msg' = take 8 (pending n' fd) /\
    (8 <= length (pending n' fd))%nat.

Lemma recv_hdr_spec fd (Hresp : responsive fd) retries : forall n msg, msg_buf msg ->
  exists n' msg' retries' ret, recv_hdr retries n fd msg = Some (n', msg', retries', ret) /\
    msg_buf msg' /\ (retries' <= retries)%nat /\
    (alive n fd -> ret <> Some 0 /\ alive n' fd /\ (ret = None -> hdr_received n n' fd msg')).
Proof.
  induction retries as [|retries IH]; intros n msg [Hm Hmb]; cbn [recv_hdr];
    destruct (Hresp n true sizeof_msg_header) as [[[n1 r] bs] Hrecv]; rewrite Hrecv; bind_step;
    unfold FLA_MSG_BUFSIZ, sizeof_msg_header, FLA_MSG_DATA_MAX in *;
    destruct (recv_into n fd true 8 n1 r bs msg 0 ltac:(lia) ltac:(lia) ltac:(lia) Hrecv)
      as (msg1 & more & rest & -> & Hl & Hb & _ & Htk & Hrr & Hbs & Herr & Hq & Hp); bind_step;
    (assert (msg_buf msg1) as Hm1 by (split; [by rewrite Hl|auto]));
    (destruct (Z.eqb_spec r 8) as [->|Hr8];
     [exists n1, msg1; eexists _, _; split; [done|]; split; [done|]; split; [lia|]; intros Ha; split; [done|]; split; [by apply (alive_ok _ _ _ 8 _ _ _ ltac:(lia) Ha Hrecv)|]; intros _;
      exists more; rewrite Hp, Hq; replace (length bs) with 8%nat in Htk by lia;
      change (Z.to_nat 0) with 0%nat in Htk; rewrite drop_0 in Htk; split; [done|];
      rewrite Htk, take_app_le, take_ge, length_app by lia; split; [done|lia]|]).
  - destruct ((0 <? r) || ((r =? -1) && (errno n1 =? EINTR))) eqn:Hc; [eexists _, _, _, _; split_and!; [done|done|lia|]; intros Ha; destruct (alive_ok _ _ _ 8 _ _ _ ltac:(lia) Ha Hrecv); split_and!; [intros [=]; lia|done|by intros [=]]|].
    apply orb_false_iff in Hc as [Hc _]. apply Z.ltb_ge in Hc.
    destruct (Z.eqb_spec r (-1)); [eexists _, _, _, _; split_and!; [done|done|lia|]; intros Ha; destruct (alive_ok _ _ _ 8 _ _ _ ltac:(lia) Ha Hrecv); split_and!; [intros [=]; lia|done|by intros [=]]|].
    eexists _, _, _, _. split; [done|]. split; [done|]. split; [lia|]. intros Ha.
    destruct (alive_ok _ _ _ 8 _ _ _ ltac:(lia) Ha Hrecv). lia.
  - destruct ((0 <? r) || ((r =? -1) && (errno n1 =? EINTR))) eqn:Hc.
    { destruct (IH n1 msg1 Hm1) as (n' & msg' & r' & ret & -> & Hm' & Hr' & Hret).
      exists n', msg', r', ret. split; [done|]. split; [done|]. split; [lia|]. intros Ha.
      destruct (Hret ltac:(by apply (alive_ok _ _ _ 8 _ _ _ ltac:(lia) Ha Hrecv))) as (Hn0 & Ha' & Hrec). split; [done|]. split; [done|]. intros Hn. destruct (Hrec Hn) as (more' & Hp' & Ht). exists (more ++ more').
      rewrite Hp', Hp, app_assoc, Hq, <- app_assoc. rewrite Hp', Hp, <- app_assoc in Ht. done. }
    apply orb_false_iff in Hc as [Hc _]. apply Z.ltb_ge in Hc.
    destruct (Z.eqb_spec r (-1)); [eexists _, _, _, _; split_and!; [done|done|lia|]; intros Ha; destruct (alive_ok _ _ _ 8 _ _ _ ltac:(lia) Ha Hrecv); split_and!; [intros [=]; lia|done|by intros [=]]|].
    eexists _, _, _, _. split; [done|]. split; [done|]. split; [lia|]. intros Ha.
    destruct (alive_ok _ _ _ 8 _ _ _ ltac:(lia) Ha Hrecv). lia.
Qed.

(** Bytes [bs] were taken from the stream. *)
Definition taken (n n' : N) (fd : Z) (bs : list Z) : Prop :=
  exists more, pending n fd ++ more = bs ++ pending n' fd.

Lemma recv_data_spec fd (Hresp : responsive fd) fuel : forall retries n msg off nleft,
  0 <= off -> 0 <= nleft -> off + nleft <= Z.of_nat (length msg) -> (Z.to_nat nleft + retries <= fuel)%nat ->
  exists n' msg' ret, recv_data fuel retries n fd msg off nleft = Some (n', msg', ret) /\
    length msg' = length msg /\ (Forall is_byte msg -> Forall is_byte msg') /\
    (alive n fd -> ret <> Some 0) /\
    (ret = None -> exists bs, Z.of_nat (length bs) = nleft /\ taken n n' fd bs /\
       take (Z.to_nat (off + nleft)) msg' = take (Z.to_nat off) msg ++ bs).
Proof.
  induction fuel as [|fuel IH]; intros retries n msg off nleft Hoff Hn Hl Hf; cbn [recv_data];
    (destruct (Z.leb_spec nleft 0) as [Hz|Hz];
     [exists n, msg, None; split; [done|]; split; [done|]; split; [done|]; split; [done|]; intros _; exists []; split; [cbn; lia|];
      split; [by exists []; rewrite app_nil_r|]; rewrite app_nil_r; f_equal; lia|]); [lia|].
  destruct (Hresp n false nleft) as [[[n1 r] bs] Hrecv]. rewrite Hrecv. bind_step.
  destruct (recv_into _ _ _ _ _ _ _ msg off Hz Hoff Hl Hrecv)
    as (msg1 & more & rest & -> & Hl1 & Hb1 & Hpre & Htk & Hrr & Hbs & Herr & Hq & Hp). bind_step.
  destruct (Z.leb_spec r 0) as [Hr|Hr].
  - assert (bs = []) as -> by (apply nil_length_inv; lia). cbn [app] in Hq, Hp.
    destruct retries as [|retries]; [eexists _, _, _; split_and!; [done|done|done| |by intros [=]]; intros Ha [=]; destruct (alive_ok _ _ _ _ _ _ _ Hz Ha Hrecv); lia|].
    destruct (Z.eqb_spec (errno n1) EINTR); [|eexists _, _, _; split_and!; [done|done|done| |by intros [=]]; intros Ha [=]; destruct (alive_ok _ _ _ _ _ _ _ Hz Ha Hrecv); lia].
    destruct (IH retries n1 msg off nleft Hoff Hn Hl ltac:(lia)) as (n' & msg' & ret & -> & Hl' & Hb' & Hne & Hret).
    exists n', msg', ret. split; [done|]. split; [done|]. split; [done|].
    split; [intros Ha; apply Hne; by apply (alive_ok _ _ _ _ _ _ _ Hz Ha Hrecv)|]. intros Hnone.
    destruct (Hret Hnone) as (bs & Hb & [more' Ht] & Htake). exists bs. split; [done|]. split; [|done].
    exists (more ++ more'). by rewrite app_assoc, Hq, <- Ht, Hp.
  - destruct (IH retries n1 msg1 (off + r) (nleft - r)) as (n' & msg' & ret & -> & Hl' & Hb' & Hne & Hret); [lia..|].
    exists n', msg', ret. split; [done|]. split; [lia|]. split; [auto|].
    split; [intros Ha; apply Hne; by apply (alive_ok _ _ _ _ _ _ _ Hz Ha Hrecv)|]. intros Hnone.
    destruct (Hret Hnone) as (bs' & Hb & [more' Ht] & Htake). exists (bs ++ bs'). split; [rewrite length_app; lia|].
    split; [exists (more ++ more'); by rewrite app_assoc, Hq, <- !app_assoc, <- Ht, Hp|].
    replace (off + nleft) with (off + r + (nleft - r)) by lia. rewrite Htake, app_assoc. f_equal.
    replace (Z.to_nat (off + r)) with (Z.to_nat off + length bs)%nat by lia.
    by rewrite <- take_take_drop, Hpre, Htk.
Qed.

(** C12: [fla_sock_recv_msg] returns after finitely many calls of [recv], whatever
    they give: it gives up after three retries.  Unless the stream ends, a result of
    0 means that one whole message was taken from the stream and is in the buffer:
    a header with a command other than [FLA_MSG_CMD_NULL] and a length within the
    limit, and that many bytes of data. *)
Theorem recv_msg_total n fd msg : responsive fd -> msg_buf msg ->
  exists n' msg' err, fla_sock_recv_msg n fd msg = Some (n', msg', err) /\ msg_buf msg' /\
    (err = 0 -> alive n fd -> exists bs, taken n n' fd bs /\ take (length bs) msg' = bs /\
       Z.of_nat (length bs) = sizeof_msg_header + hdr_len bs /\ hdr_len bs <= FLA_MSG_DATA_MAX /\
       hdr_cmd bs <> FLA_MSG_CMD_NULL).
Proof.
  intros Hresp Hm. unfold fla_sock_recv_msg.
  apply (hdr_put_msg 4 (le 2 FLA_MSG_CMD_NULL)) in Hm; [|cbn; lia|apply le_bytes].
  destruct (recv_hdr_spec fd Hresp 3 n _ Hm) as (n1 & msg1 & retries & ret & Hrun & Hm1 & _ & Hret).
  unfold set_hdr_cmd. rewrite Hrun. bind_step.
  destruct ret as [err|].
  { exists n1, msg1, err. split_and!; [done|done|]. intros -> He. by destruct (Hret He). }
  destruct (Z.ltb_spec FLA_MSG_DATA_MAX (hdr_len msg1)) as [|Hlen].
  { exists n1, msg1, 2. by split_and!. }
  pose proof (hdr_len_nonneg msg1 (mb_bytes _ Hm1)) as Hnn.
  pose proof (mb_length _ Hm1) as Hl1. unfold FLA_MSG_BUFSIZ in Hl1.
  destruct (recv_data_spec fd Hresp (Z.to_nat (sizeof_msg_header + hdr_len msg1) + retries) retries n1 msg1 0
    (sizeof_msg_header + hdr_len msg1)) as (n2 & msg2 & ret & -> & Hl2 & Hb2 & Hne & Hdone);
    [unfold sizeof_msg_header in *; lia..|]. bind_step.
  assert (msg_buf msg2) as Hm2 by (split; [by rewrite Hl2; apply Hm1|apply Hb2, Hm1]).
  destruct ret as [err|].
  { exists n2, msg2, err. split_and!; [done|done|]. intros -> He. destruct (Hne ltac:(by apply Hret)). done. }
  eexists n2, msg2, _. split_and!; [done|done|]. intros Hcmd He.
  destruct (Hret He) as (_ & _ & Hhdr). destruct (Hhdr eq_refl) as (more & Hp1 & Ht1 & H8).
  destruct (Hdone eq_refl) as (bs & Hbs & [more' Htk] & Htake).
  change (take (Z.to_nat 0) msg1 ++ bs) with bs in Htake. rewrite Z.add_0_l in Htake.
  exists bs. replace (length bs) with (Z.to_nat (sizeof_msg_header + hdr_len msg1)) by lia.
  assert (take 8 bs = take 8 msg1) as Hh.
  { rewrite Ht1. rewrite <- (take_app_le (pending n1 fd) more'), Htk by lia. symmetry. apply take_app_le.
    unfold sizeof_msg_header in *. lia. }
  destruct (hdr_take _ _ Hh) as (Hhl & _). destruct (hdr_take msg2 bs) as (_ & Hhc & _).
  { rewrite <- Htake, take_take, Nat.min_l by (unfold sizeof_msg_header; lia). done. }
  split; [exists (more ++ more'); by rewrite app_assoc, <- Hp1|]. rewrite Hhl. split; [done|].
  split; [lia|]. split; [done|]. rewrite <- Hhc. by destruct (Z.eqb_spec (hdr_cmd msg2) FLA_MSG_CMD_NULL).
Qed.
End laws.

Section whole.
Context {N : Type} `{SockEnv N}.

(** A message that arrives in one piece. *)
Lemma recv_msg_whole n fd msg n1 n2 m : msg_buf msg ->
  recv n fd true sizeof_msg_header = Some (n1, sizeof_msg_header, take 8 m) ->
  hdr_len m <= FLA_MSG_DATA_MAX -> hdr_cmd m <> FLA_MSG_CMD_NULL ->
  Z.of_nat (length m) = sizeof_msg_header + hdr_len m -> 0 <= hdr_len m ->
  recv n1 fd false (sizeof_msg_header + hdr_len m) = Some (n2, sizeof_msg_header + hdr_len m, m) ->
  fla_sock_recv_msg n fd msg = Some (n2, m ++ drop (length m) msg, 0).
Proof.
  intros Hm Hpeek Hlen Hcmd Hl Hnn Hrecv. unfold fla_sock_recv_msg.
  pose proof (hdr_put_msg 4 (le 2 FLA_MSG_CMD_NULL) msg ltac:(cbn; lia) ltac:(apply le_bytes) Hm) as Hm'.
  pose proof (mb_length _ Hm) as HL. pose proof (mb_length _ Hm') as HL'.
  set (msg1 := hdr_put 4 _ msg) in *. unfold set_hdr_cmd. fold msg1. cbn [recv_hdr]. rewrite Hpeek. bind_step.
  unfold FLA_MSG_BUFSIZ, sizeof_msg_header, FLA_MSG_DATA_MAX in *.
  assert (length (take 8 m) = 8%nat) as H8 by (rewrite length_take; lia).
  rewrite buf_put_0, H8 by lia. bind_step. rewrite Z.eqb_refl.
  set (msg2 := take 8 m ++ drop 8 msg1). destruct (hdr_take msg2 m) as (Hhl & _ & _).
  { unfold msg2. rewrite take_app_le, take_take, Nat.min_id by lia. done. }
  assert (length msg2 = length msg) as Hl2.
  { unfold msg2. rewrite length_app, length_drop. lia. }
  bind_step. rewrite Hhl. rewrite (proj2 (Z.ltb_ge _ _)) by lia.
  destruct (Z.to_nat (8 + hdr_len m) + 3)%nat as [|fuel] eqn:Hf; [lia|]. cbn [recv_data].
  rewrite (proj2 (Z.leb_gt _ _)) by lia. rewrite Hrecv. bind_step.
  rewrite (proj2 (Z.leb_gt _ _)) by lia. rewrite buf_put_0 by lia. bind_step. rewrite Z.sub_diag.
  replace (recv_data fuel 3 n2 fd _ _ 0) with (Some (n2, m ++ drop (length m) msg2, @None Z)) by (destruct fuel; done).
  bind_step. destruct (hdr_take (m ++ drop (length m) msg2) m) as (_ & -> & _); [apply take_app_le; lia|].
  rewrite (proj2 (Z.eqb_neq _ _)) by done. do 4 f_equal. unfold msg2, msg1, hdr_put.
  assert ((8 <= length m)%nat) as H8m by lia. clear - H8m H8 HL.
  rewrite drop_app_ge, H8, drop_drop by lia.
  rewrite app_assoc, drop_app_ge by (rewrite length_app, length_take, length_le; lia).
  rewrite length_app, length_take, length_le, drop_drop. f_equal. lia.
Qed.

(** When the peer has closed the connection, [fla_sock_recv_msg] reports
    success: the data loop returns [-errno], which is 0 since [fla_sock_send_bytes]
    cleared it, and the check of the command is jumped over.  The data of the buffer
    is what an earlier message left there. *)
Theorem recv_msg_closed n fd msg : msg_buf msg -> hdr_len msg <= FLA_MSG_DATA_MAX -> errno n = 0 ->
  (forall peek k, recv n fd peek k = Some (n, 0, [])) ->
  fla_sock_recv_msg n fd msg = Some (n, set_hdr_cmd FLA_MSG_CMD_NULL msg, 0).
Proof.
  intros Hm Hlen He Hr. unfold fla_sock_recv_msg.
  pose proof (hdr_put_msg 4 (le 2 FLA_MSG_CMD_NULL) msg ltac:(cbn; lia) ltac:(apply le_bytes) Hm) as Hm'.
  pose proof (mb_length _ Hm) as HL. unfold FLA_MSG_BUFSIZ, sizeof_msg_header, FLA_MSG_DATA_MAX in HL.
  cbn [recv_hdr]. rewrite Hr. bind_step. rewrite buf_put_0 by (cbn; lia). bind_step. cbn [length app]. rewrite drop_0.
  change (0 =? sizeof_msg_header) with false. change ((0 <? 0) || ((0 =? -1) && (errno n =? EINTR))) with false.
  change (0 =? -1) with false. cbv iota. bind_step.
  assert (hdr_len (set_hdr_cmd FLA_MSG_CMD_NULL msg) = hdr_len msg) as ->.
  { unfold hdr_len. rewrite <- (field_take 4 msg), <- (field_take 4 (set_hdr_cmd _ _)) by lia.
    unfold set_hdr_cmd, hdr_put. rewrite take_app_le, take_take by (rewrite length_take; lia). done. }
  rewrite (proj2 (Z.ltb_ge _ _)) by done. pose proof (hdr_len_nonneg msg (mb_bytes _ Hm)) as Hnn.
  unfold sizeof_msg_header. destruct (Z.to_nat (8 + hdr_len msg) + 3)%nat eqn:Hf; [lia|]. cbn [recv_data].
  rewrite (proj2 (Z.leb_gt _ _)) by lia. rewrite Hr. bind_step. rewrite He. done.
Qed.
End whole.

(** ** A stream with a script

    [wi_script] says of each further call whether it is interrupted ([None]) or how
    many bytes it transfers at most; after the script calls transfer everything.
    An exhausted stream is at its end, or, while the peer is there, times out. *)
Record wire := mk_wire {
  wi_in : list Z; wi_out : list Z; wi_open : bool; wi_errno : Z; wi_script : list (option positive)
}.

Definition wire_errno (e : Z) (n : wire) : wire := mk_wire (wi_in n) (wi_out n) (wi_open n) e (wi_script n).
Definition wire_next (n : wire) : wire := mk_wire (wi_in n) (wi_out n) (wi_open n) (wi_errno n) (tail (wi_script n)).

Definition wire_limit (n : wire) (k : nat) : option nat :=
  match wi_script n with
  | [] => Some k
  | None :: _ => None
  | Some p :: _ => Some (Nat.min k (Pos.to_nat p))
  end.

Definition wire_send (n : wire) (bs : list Z) : wire * Z :=
  match wire_limit n (length bs) with
  | None => (wire_errno EINTR (wire_next n), -1)
  | Some k => (mk_wire (wi_in n) (wi_out n ++ take k bs) (wi_open n) (wi_errno n) (tail (wi_script n)), Z.of_nat k)
  end.

Definition wire_recv (n : wire) (peek : bool) (k : Z) : wire * Z * list Z :=
  match wire_limit n (Nat.min (Z.to_nat k) (length (wi_in n))) with
  | None => (wire_errno EINTR (wire_next n), -1, [])
  | Some O => if wi_open n then (wire_errno EAGAIN (wire_next n), -1, []) else (wire_next n, 0, [])
  | Some k =>
      (mk_wire (if peek then wi_in n else drop k (wi_in n)) (wi_out n) (wi_open n) (wi_errno n) (tail (wi_script n)),
       Z.of_nat k, u8 <$> take k (wi_in n))
  end.

Lemma wire_limit_le n k j : wire_limit n k = Some j -> (j <= k)%nat.
Proof. unfold wire_limit. destruct (wi_script n) as [|[p|] s]; intros [= <-]; lia. Qed.

#[export] Instance wire_env : SockEnv wire := {
  errno := wi_errno;
  clear_errno := wire_errno 0;
  intr n := length (wi_script n);
  send n _ bs := wire_send n bs;
  recv n _ peek k := Some (wire_recv n peek k);
  sys_close n _ := n
}.

#[export] Program Instance wire_laws : SockLaws wire := {
  sent n _ := wi_out n;
  pending n _ := u8 <$> wi_in n;
  alive n _ := wi_open n = true
}.
Next Obligation. done. Qed.
Next Obligation.
  intros n fd bs n' r. cbn. unfold wire_send, wire_limit. destruct (wi_script n) as [|[p|] s] eqn:Hs; intros [= <- <-];
    cbn [wi_out wi_script wi_errno wire_errno wire_next tail length]; rewrite ?Hs, ?Nat2Z.id; cbn [tail length];
    repeat split; try lia.
  by rewrite take_0, app_nil_r.
Qed.
Next Obligation.
  intros n fd peek k n' r bs Hk. cbn. unfold wire_recv.
  destruct (wire_limit n (Nat.min (Z.to_nat k) (length (wi_in n)))) as [[|j]|] eqn:Hj.
  1: destruct (wi_open n).
  1, 2, 4: intros [= <- <- <-]; cbn; split_and!; [lia..|done|unfold EAGAIN, EINTR; lia|];
    exists [], (u8 <$> wi_in n); rewrite app_nil_r; by destruct peek.
  apply wire_limit_le in Hj. intros [= <- <- <-]. cbn [wi_in wi_errno].
  rewrite length_fmap, length_take. split_and!; [lia..| |lia|].
  - apply Forall_fmap, Forall_true. intros b. unfold is_byte, u8. cbn. apply Z.mod_pos_bound. lia.
  - exists [], (u8 <$> drop (S j) (wi_in n)). rewrite app_nil_r, <- fmap_app, take_drop. by destruct peek.
Qed.
Next Obligation.
  intros n fd peek k n' r bs Hk Ho. cbn. unfold wire_recv. rewrite Ho.
  destruct (wire_limit n (Nat.min (Z.to_nat k) (length (wi_in n)))) as [[|j]|];
    intros [= <- <- <-]; cbn; (split; [lia|done]).
Qed.

(** A request of eleven bytes, received with one interruption and in two pieces. *)
Definition ex_msg : list Z := le 4 3 ++ le 2 FLA_MSG_CMD_POOL_OPEN ++ le 2 7 ++ [97; 98; 99].
Definition ex_buf : list Z := replicate 2056 0.
Definition ex_wire : wire := mk_wire ex_msg [] true 0 [Some 8%positive; None; Some 5%positive].

Lemma ex_buf_ok : msg_buf ex_buf.
Proof. split; [by vm_compute|]. apply Forall_replicate. unfold is_byte. lia. Qed.


Lemma recv_msg_total_witness : exists n' msg' err,
  fla_sock_recv_msg ex_wire 5 ex_buf = Some (n', msg', err) /\ err = 0 /\
  exists bs, taken ex_wire n' 5 bs /\ take (length bs) msg' = bs.
Proof.
  destruct (recv_msg_total ex_wire 5 ex_buf) as (n' & msg' & err & Hrun & _ & Hok).
  - intros n peek k. by eexists.
  - apply ex_buf_ok.
  - assert (err = 0) as ->.
    { apply (f_equal (fmap snd)) in Hrun. vm_compute in Hrun. by injection Hrun. }
    exists n', msg', 0. split; [done|]. split; [done|]. destruct (Hok eq_refl eq_refl) as (bs & Ht & Htk & _). eauto.
Defined.

