(* ===== verification/Daemon.v ===== *)
(** * Daemon: the server, [src/src/flexalloc_daemon_base.c] and [flexalloc_daemon.c]

    The daemon opens a system and serves clients over a UNIX socket.  Each request
    has a response function ([fla_daemon_*_rsp]) that reads its arguments from the
    receive buffer, calls the function of [base_fns] and answers from the send
    buffer; both buffers are kept between messages and shared by all clients, so what
    a message does not overwrite is what an earlier one left.  [msg_handler] selects
    the function, [fla_daemon_loop] polls, accepts and reads.

    Structures are sent as the bytes they have in memory; padding, which nobody
    reads, is sent as zeros. *)
From S2P Require Import Prelude Util Hash XnvmeEnv Flexalloc PoolEntry Pool Object DataPlacement Layout System Socket.

(** ** Structures as bytes *)

Definition int_bytes (v : Z) : list Z := le 4 (u32 v).
Definition int_load (bs : list Z) : Z := i32 (field bs 0 4).

Definition sizeof_fla_pool : Z := 16.
Definition pool_bytes (p : fla_pool) : list Z := le 8 (p_h2 p) ++ le 4 (p_ndx p) ++ le 4 0.
Definition pool_load (bs : list Z) : fla_pool := mk_pool (field bs 0 8) (field bs 8 4).

Definition sizeof_fla_object : Z := 8.
Definition object_bytes (o : fla_object) : list Z := le 4 (o_slab_id o) ++ le 4 (o_entry_ndx o).
Definition object_load (bs : list Z) : fla_object := mk_obj (field bs 0 4) (field bs 4 4).

(** The name is a pointer: its value, meaningless to the other process, is [addr]. *)
Definition sizeof_create_arg : Z := 32.
Definition create_arg_bytes (addr : Z) (a : fla_pool_create_arg) : list Z :=
  le 8 (a_flags a) ++ le 8 addr ++ int_bytes (a_name_len a) ++ le 4 (a_obj_nlb a) ++ le 4 (a_strp_nobjs a) ++
  le 4 (a_strp_nbytes a).
Definition create_arg_load (bs name : list Z) : fla_pool_create_arg :=
  mk_create_arg (field bs 0 8) name (int_load (take 4 (drop 16 bs))) (field bs 20 4) (field bs 24 4) (field bs 28 4).

Definition pool_entry_bytes (e : fla_pool_entry) : list Z := pool_entry_store (replicate 160 0) e.

Definition sizeof_fla_geo : Z := 48.
Definition geo_bytes (g : fla_geo) : list Z :=
  le 8 (g_nlb g) ++ le 4 (g_lb_nbytes g) ++ le 4 (g_slab_nlb g) ++ le 4 (g_npools g) ++ le 4 (g_nslabs g) ++
  le 4 (g_md_nlb g) ++ le 4 (freelist_nlb (g_pool_sgmt g)) ++ le 4 (htbl_nlb (g_pool_sgmt g)) ++
  le 4 (htbl_tbl_size (g_pool_sgmt g)) ++ le 4 (entries_nlb (g_pool_sgmt g)) ++ le 4 (slab_sgmt_nlb (g_slab_sgmt g)).
Definition geo_load (bs : list Z) : fla_geo :=
  mk_geo (field bs 0 8) (field bs 8 4) (field bs 12 4) (field bs 16 4) (field bs 20 4) (field bs 24 4)
    (mk_pool_sgmt (field bs 28 4) (field bs 32 4) (field bs 36 4) (field bs 40 4)) (mk_slab_sgmt (field bs 44 4)).

Record fla_sys_identity := mk_identity { id_type : Z; id_version : Z }.
Definition sizeof_identity : Z := 8.
Definition identity_bytes (i : fla_sys_identity) : list Z := le 4 (id_type i) ++ le 4 (id_version i).
Definition identity_load (bs : list Z) : fla_sys_identity := mk_identity (field bs 0 4) (field bs 4 4).

(** ** The daemon *)

(** [struct fla_daemon]; the URIs are the strings [fla_open] copied into the handle.
    [dm_name_addr] is the address of the name behind a create argument in the
    receive buffer. *)
Record fla_daemon := mk_daemon {
  dm_flexalloc : handle; dm_dev_uri : list Z; dm_md_dev_uri : option (list Z); dm_identity : fla_sys_identity;
  dm_listen_fd : Z; dm_max_clients : Z; dm_name_addr : Z
}.

Definition dm_set_flexalloc (h : handle) (d : fla_daemon) : fla_daemon :=
  mk_daemon h (dm_dev_uri d) (dm_md_dev_uri d) (dm_identity d) (dm_listen_fd d) (dm_max_clients d) (dm_name_addr d).

(** The serving process: devices and allocator, sockets, daemon and the two buffers. *)
Record server (W N : Type) := mk_server {
  sv_w : W; sv_n : N; sv_d : fla_daemon; sv_recv : list Z; sv_send : list Z
}.
Arguments mk_server {W N}.
Arguments sv_w {W N}.
Arguments sv_n {W N}.
Arguments sv_d {W N}.
Arguments sv_recv {W N}.
Arguments sv_send {W N}.

Section server.
Context {W N : Type} `{XnvmeEnv W} `{SockEnv N}.
Notation server := (server W N).

Definition sv_set_n (n : N) (s : server) : server := mk_server (sv_w s) n (sv_d s) (sv_recv s) (sv_send s).
Definition sv_set_recv (b : list Z) (s : server) : server := mk_server (sv_w s) (sv_n s) (sv_d s) b (sv_send s).
Definition sv_set_send (b : list Z) (s : server) : server := mk_server (sv_w s) (sv_n s) (sv_d s) (sv_recv s) b.
Definition sv_h (s : server) : handle := dm_flexalloc (sv_d s).
Definition sv_fs (s : server) : flexalloc := h_fs (sv_h s).
Definition sv_set_w (w : W) (s : server) : server := mk_server w (sv_n s) (sv_d s) (sv_recv s) (sv_send s).
Definition sv_set_h (h : handle) (s : server) : server :=
  mk_server (sv_w s) (sv_n s) (dm_set_flexalloc h (sv_d s)) (sv_recv s) (sv_send s).
Definition sv_set_fs (fs : flexalloc) (s : server) : server :=
  sv_set_h (mk_handle fs (h_dp (sv_h s)) (h_buf (sv_h s))) s.

(** [fla_sock_send_msg(client_fd, send)]. *)
Definition reply (s : server) (client_fd : Z) : option (server * Z) :=
  '(n, err) ← fla_sock_send_msg (sv_n s) client_fd (sv_send s);
  Some (sv_set_n n s, err).

(** The error code at the start of the data, and the length. *)
Definition answer (s : server) (err len : Z) : option server :=
  b ← data_put (sv_send s) 0 (int_bytes err);
  Some (sv_set_send (set_hdr_len len b) s).

(** ** Responses *)

Definition fla_daemon_identify_rsp (s : server) (client_fd : Z) : option (server * Z) :=
  b ← data_put (sv_send s) 0 (identity_bytes (dm_identity (sv_d s)));
  reply (sv_set_send (set_hdr_len sizeof_identity b) s) client_fd.

Definition fla_daemon_fs_init_rsp (s : server) (client_fd : Z) : option (server * Z) :=
  let d := sv_d s in
  b ← data_put (sv_send s) 0 (replicate (Z.to_nat FLA_MSG_DATA_MAX) 0);
  b ← data_put b 0 (geo_bytes (fs_geo (sv_fs s)));
  n ← strlen (dm_dev_uri d);
  let dev_uri_len := Z.of_nat n + 1 in
  b ← data_put b sizeof_fla_geo (le 8 dev_uri_len);
  b ← data_put b (sizeof_fla_geo + 8) (take (S n) (dm_dev_uri d));
  let off := sizeof_fla_geo + 8 + dev_uri_len in
  m ← match dm_md_dev_uri d with Some uri => strlen uri | None => Some O end;
  let md_dev_uri_len := Z.of_nat m in
  b ← data_put b off (le 8 md_dev_uri_len);
  b ← (if 0 <? md_dev_uri_len then data_put b (off + 8) (take m (default [] (dm_md_dev_uri d))) else Some b);
  reply (sv_set_send (set_hdr_len (u32 (sizeof_fla_geo + 8 + dev_uri_len + 8 + md_dev_uri_len)) b) s) client_fd.

Context `{!XnvmeAdm W}.

Definition fla_daemon_close_rsp (s : server) (client_fd : Z) : option (server * Z) :=
  '(w, h, err) ← fla_base_close (sv_w s) (sv_h s);
  s ← answer (sv_set_h h (sv_set_w w s)) err 4;
  reply s client_fd.

(** [rsp] is false for a call with [send == NULL]. *)
Definition fla_daemon_sync_rsp (s : server) (client_fd : Z) (rsp : bool) : option (server * Z) :=
  '(w, h, err) ← fla_base_sync (sv_w s) (sv_h s);
  let s := sv_set_h h (sv_set_w w s) in
  if rsp then s ← answer s err 4; reply s client_fd
  else Some (s, err).

(** [pool_open] is called with [handle == NULL]: a pool that is found is stored
    through it. *)
Definition fla_daemon_pool_open_rsp (s : server) (client_fd : Z) : option (server * Z) :=
  r ← data_put (sv_recv s) (hdr_len (sv_recv s)) [0];
  let s := sv_set_recv r s in
  found ← htbl_lookup (ps_htbl (fs_pools (sv_fs s))) (drop 8 r);
  match found with
  | Some _ => None
  | None => s ← answer s (-1) 4; reply s client_fd
  end.

Definition fla_daemon_pool_create_rsp (s : server) (client_fd : Z) : option (server * Z) :=
  r ← data_put (sv_recv s) 8 (le 8 (dm_name_addr (sv_d s)));
  let s := sv_set_recv r s in
  bs ← data_get r 0 sizeof_create_arg;
  let arg := create_arg_load bs (drop (8 + 32) r) in
  '(w, fs, handle, err) ← fla_base_pool_create (sv_w s) (sv_fs s) arg;
  let s := sv_set_fs fs (sv_set_w w s) in
  if negb (err =? 0) then s ← answer s err 4; reply s client_fd else
  h ← handle;
  s ← answer s err (4 + sizeof_fla_pool + sizeof_pool_entry);
  b ← data_put (sv_send s) 4 (pool_bytes h);
  e ← lookupZ (ps_entries (fs_pools (sv_fs s))) (p_ndx h);
  b ← data_put b (4 + sizeof_fla_pool) (pool_entry_bytes e);
  reply (sv_set_send b s) client_fd.

Definition fla_daemon_pool_destroy_rsp (s : server) (client_fd : Z) : option (server * Z) :=
  if negb (hdr_len (sv_recv s) =? sizeof_fla_pool) then Some (s, 1) else
  let '(w, ok) := malloc (sv_w s) sizeof_fla_pool in
  let s := sv_set_w w s in
  if negb ok then Some (s, - ENOMEM) else
  bs ← data_get (sv_recv s) 0 sizeof_fla_pool;
  '(fs, err) ← fla_base_pool_destroy (sv_fs s) (pool_load bs);
  s ← answer (sv_set_fs fs s) err 4;
  reply s client_fd.

Definition fla_daemon_object_open_rsp (s : server) (client_fd : Z) : option (server * Z) :=
  p ← data_get (sv_recv s) 0 sizeof_fla_pool;
  o ← data_get (sv_recv s) sizeof_fla_pool sizeof_fla_object;
  '(w, fs, err) ← fla_base_object_open (sv_w s) (sv_fs s) (pool_load p) (object_load o);
  s ← answer (sv_set_fs fs (sv_set_w w s)) err 4;
  reply s client_fd.

Definition fla_daemon_object_create_rsp (s : server) (client_fd : Z) : option (server * Z) :=
  p ← data_get (sv_recv s) 0 sizeof_fla_pool;
  '(w, fs, object, err) ← fla_base_object_create (sv_w s) (sv_fs s) (pool_load p);
  let s := sv_set_fs fs (sv_set_w w s) in
  if negb (err =? 0) then s ← answer s err 4; reply s client_fd else
  o ← object;
  s ← answer s err (4 + sizeof_fla_object);
  b ← data_put (sv_send s) 4 (object_bytes o);
  reply (sv_set_send b s) client_fd.

Definition fla_daemon_object_destroy_rsp (s : server) (client_fd : Z) : option (server * Z) :=
  p ← data_get (sv_recv s) 0 sizeof_fla_pool;
  o ← data_get (sv_recv s) sizeof_fla_pool sizeof_fla_object;
  '(w, fs, err) ← fla_base_object_destroy (sv_w s) (sv_fs s) (pool_load p) (object_load o);
  s ← answer (sv_set_fs fs (sv_set_w w s)) err 4;
  reply s client_fd.

Definition fla_daemon_pool_set_root_object_rsp (s : server) (client_fd : Z) : option (server * Z) :=
  p ← data_get (sv_recv s) 0 sizeof_fla_pool;
  o ← data_get (sv_recv s) sizeof_fla_pool sizeof_fla_object;
  a ← data_get (sv_recv s) (sizeof_fla_pool + sizeof_fla_object) 4;
  '(fs, err) ← fla_base_pool_set_root_object (sv_fs s) (pool_load p) (object_load o) (field a 0 4);
  s ← answer (sv_set_fs fs s) err 4;
  reply s client_fd.

(** The error code is not stored in the answer. *)
Definition fla_daemon_pool_get_root_object_rsp (s : server) (client_fd : Z) : option (server * Z) :=
  p ← data_get (sv_recv s) 0 sizeof_fla_pool;
  '(object, err) ← fla_base_pool_get_root_object (sv_fs s) (pool_load p);
  if negb (err =? 0) then reply (sv_set_send (set_hdr_len 4 (sv_send s)) s) client_fd else
  o ← object;
  b ← data_put (set_hdr_len (4 + sizeof_fla_object) (sv_send s)) 4 (object_bytes o);
  reply (sv_set_send b s) client_fd.

(** ** Dispatch *)

Definition rsp_of (cmd : Z) : option (server -> Z -> option (server * Z)) :=
  if cmd =? FLA_MSG_CMD_OBJECT_OPEN then Some fla_daemon_object_open_rsp else
  if cmd =? FLA_MSG_CMD_OBJECT_CREATE then Some fla_daemon_object_create_rsp else
  if cmd =? FLA_MSG_CMD_OBJECT_DESTROY then Some fla_daemon_object_destroy_rsp else
  if cmd =? FLA_MSG_CMD_POOL_OPEN then Some fla_daemon_pool_open_rsp else
  if cmd =? FLA_MSG_CMD_POOL_CREATE then Some fla_daemon_pool_create_rsp else
  if cmd =? FLA_MSG_CMD_POOL_DESTROY then Some fla_daemon_pool_destroy_rsp else
  if cmd =? FLA_MSG_CMD_SYNC then Some (fun s fd => fla_daemon_sync_rsp s fd true) else
  if cmd =? FLA_MSG_CMD_SYNC_NO_RSPS then Some (fun s fd => fla_daemon_sync_rsp s fd false) else
  if cmd =? FLA_MSG_CMD_POOL_GET_ROOT_OBJECT then Some fla_daemon_pool_get_root_object_rsp else
  if cmd =? FLA_MSG_CMD_POOL_SET_ROOT_OBJECT then Some fla_daemon_pool_set_root_object_rsp else
  if cmd =? FLA_MSG_CMD_IDENTIFY then Some fla_daemon_identify_rsp else
  if cmd =? FLA_MSG_CMD_INIT_INFO then Some fla_daemon_fs_init_rsp else None.

Definition msg_handler (s : server) (client_fd : Z) : option (server * Z) :=
  match rsp_of (hdr_cmd (sv_recv s)) with
  | Some rsp => '(s, err) ← rsp s client_fd; Some (s, if err =? 0 then 0 else -1)
  | None => Some (s, -1)
  end.
End server.

(** ** The configuration *)

(** A handler does not touch the sockets of the daemon. *)
Definition keeps {W N} (s s' : server W N) : Prop :=
  dm_listen_fd (sv_d s') = dm_listen_fd (sv_d s) /\ dm_max_clients (sv_d s') = dm_max_clients (sv_d s).

Section keeps.
Context {W N : Type} `{XnvmeEnv W} `{!XnvmeAdm W} `{SockEnv N}.
Implicit Types s : server W N.

Lemma reply_keeps s0 s fd s' err : reply s fd = Some (s', err) -> keeps s0 s -> keeps s0 s'.
Proof. unfold reply. intros Hrun Hk. run_inv. done. Qed.

Lemma answer_keeps s0 s e len s' : answer s e len = Some s' -> keeps s0 s -> keeps s0 s'.
Proof. unfold answer. intros Hrun Hk. run_inv. done. Qed.

Ltac kept := run_inv; repeat match goal with
  | E : answer _ _ _ = Some ?s |- keeps ?s0 _ => apply (answer_keeps s0) in E; [|done]
  | E : reply _ _ = Some (?s, _) |- keeps ?s0 ?s => apply (reply_keeps s0 _ _ _ _ E)
  end; try done.

Lemma rsp_keeps cmd rsp s fd s' err : rsp_of cmd = Some rsp -> rsp s fd = Some (s', err) -> keeps s s'.
Proof.
  unfold rsp_of. intros Hrsp Hrun. repeat (case_match; [simplify_eq|]); simplify_eq; cbv beta in Hrun.
  - unfold fla_daemon_object_open_rsp in Hrun. kept.
  - unfold fla_daemon_object_create_rsp in Hrun. kept.
  - unfold fla_daemon_object_destroy_rsp in Hrun. kept.
  - unfold fla_daemon_pool_open_rsp in Hrun. kept.
  - unfold fla_daemon_pool_create_rsp in Hrun. kept.
  - unfold fla_daemon_pool_destroy_rsp in Hrun. kept.
  - unfold fla_daemon_sync_rsp in Hrun. kept.
  - unfold fla_daemon_sync_rsp in Hrun. kept.
  - unfold fla_daemon_pool_get_root_object_rsp in Hrun. kept.
  - unfold fla_daemon_pool_set_root_object_rsp in Hrun. kept.
  - unfold fla_daemon_identify_rsp in Hrun. kept.
  - unfold fla_daemon_fs_init_rsp in Hrun. kept.
Qed.

Lemma msg_handler_keeps s fd s' err : msg_handler s fd = Some (s', err) -> keeps s s'.
Proof.
  unfold msg_handler. destruct (rsp_of _) as [rsp|] eqn:Hr; [|by intros [= <- _]]. intros Hrun. run_inv.
  by apply (rsp_keeps _ _ _ _ _ _ Hr E).
Qed.
End keeps.
