(* ===== verification/DaemonLoop.v ===== *)
(** * DaemonLoop: [fla_daemon_loop] of [src/src/flexalloc_daemon_base.c]

    The loop keeps an array of descriptors to poll: entry 0 is the listening socket,
    the others belong to clients and are free when negative.  One pass polls the
    entries in use, accepts at most one connection and serves the readable clients.
    The array is not initialised but for the descriptors: [revents] of an entry that
    was never polled holds what the stack held. *)
From S2P Require Import Prelude XnvmeEnv Flexalloc DataPlacement Layout System Socket Daemon.

Definition POLLIN : Z := 1.
Definition POLLERR : Z := 8.
Definition FLA_DAEMON_FD_FREE : Z := -1.

Record pollfd := mk_pollfd { pf_fd : Z; pf_events : Z; pf_revents : Z }.

Definition pf_set_fd (fd : Z) (p : pollfd) : pollfd := mk_pollfd fd (pf_events p) (pf_revents p).
Definition pf_set_events (e : Z) (p : pollfd) : pollfd := mk_pollfd (pf_fd p) e (pf_revents p).
Definition pf_set_revents (r : Z) (p : pollfd) : pollfd := mk_pollfd (pf_fd p) (pf_events p) r.

(** What the loop uses beside sockets: [poll] gives the number of ready entries and
    the [revents] of each, [sys_read] may block for ever ([None]), [keep_running] is
    a read of the flag that the signal handler clears. *)
Class PollEnv (N : Type) := {
  poll : N -> list pollfd -> N * Z * list Z;
  accept : N -> Z -> N * Z;
  sys_read : N -> Z -> Z -> option (N * Z * list Z);
  keep_running : N -> N * bool
}.

Section loop.
Context {W N : Type} `{SockEnv N} `{PollEnv N}.
(** [d->on_msg]. *)
Variable on_msg : server W N -> Z -> option (server W N * Z).

Record loop := mk_loop {
  lp_sv : server W N; lp_clients : list pollfd; lp_max_ndx : Z; lp_active : Z
}.

Definition lp_set_sv (s : server W N) (l : loop) : loop := mk_loop s (lp_clients l) (lp_max_ndx l) (lp_active l).
Definition lp_set_n (n : N) (l : loop) : loop := lp_set_sv (sv_set_n n (lp_sv l)) l.
Definition lp_set_clients (c : list pollfd) (l : loop) : loop := mk_loop (lp_sv l) c (lp_max_ndx l) (lp_active l).
Definition lp_n (l : loop) : N := sv_n (lp_sv l).

(** [fla_daemon_client_disconnect(&clients[i], &active_clients)]. *)
Definition fla_daemon_client_disconnect (l : loop) (i : Z) : option loop :=
  c ← lookupZ (lp_clients l) i;
  let l := mk_loop (lp_sv l) (lp_clients l) (lp_max_ndx l) (lp_active l - 1) in
  let l := lp_set_n (sys_close (lp_n l) (pf_fd c)) l in
  Some (lp_set_clients (insertZ i (pf_set_fd FLA_DAEMON_FD_FREE c) (lp_clients l)) l).

(** Reading and handling one message of client [i]; the flag says whether the count
    of ready entries is decremented after it. *)
Definition serve_client (l : loop) (i sockfd : Z) : option (loop * bool) :=
  '(n, r, bs) ← sys_read (lp_n l) sockfd sizeof_msg_header;
  recv ← buf_put (sv_recv (lp_sv l)) 0 bs;
  let l := lp_set_sv (sv_set_recv recv (sv_set_n n (lp_sv l))) l in
  if negb (r =? sizeof_msg_header) then
    l ← fla_daemon_client_disconnect l i; Some (l, false)
  else
  '(n, r, bs) ← sys_read (lp_n l) sockfd (hdr_len recv);
  recv ← data_put recv 0 bs;
  let l := lp_set_sv (sv_set_recv recv (sv_set_n n (lp_sv l))) l in
  if negb (r =? hdr_len recv) then
    l ← fla_daemon_client_disconnect l i; Some (l, true)
  else
  let send := set_hdr_tag (hdr_tag recv) (set_hdr_cmd (hdr_cmd recv) (sv_send (lp_sv l))) in
  '(s, err) ← on_msg (sv_set_send send (lp_sv l)) sockfd;
  let l := lp_set_sv s l in
  if negb (err =? 0) then l ← fla_daemon_client_disconnect l i; Some (l, true)
  else Some (l, true).

(** The loop over the clients [i .. i + k). *)
Fixpoint serve_clients (k : nat) (l : loop) (i nready : Z) : option loop :=
  match k with
  | O => Some l
  | S k =>
      c ← lookupZ (lp_clients l) i;
      if (pf_fd c <? 0) || (Z.land (pf_revents c) (Z.lor POLLIN POLLERR) =? 0)
      then serve_clients k l (i + 1) nready
      else
        '(l, counted) ← serve_client l i (pf_fd c);
        if (counted : bool) then if nready - 1 <=? 0 then Some l else serve_clients k l (i + 1) (nready - 1)
        else serve_clients k l (i + 1) nready
  end.

(** The first free entry, or the length of the array. *)
Fixpoint free_slot (clients : list pollfd) : Z :=
  match clients with
  | [] => 0
  | c :: clients => if pf_fd c <? 0 then 0 else 1 + free_slot clients
  end.

(** The new connection: [None] in the second component is a failure of [accept].
    Storing [events] in an entry past the array, as the code does when all entries are
    taken, is undefined: the model has no state after it. *)
Definition accept_client (l : loop) : option (loop * bool) :=
  let '(n, connfd) := accept (lp_n l) (dm_listen_fd (sv_d (lp_sv l))) in
  let l := lp_set_n n l in
  if (connfd <? 0) && negb (errno n =? EAGAIN) then Some (l, false) else
  let i := free_slot (lp_clients l) in
  let clients := match lookupZ (lp_clients l) i with
                 | Some c => insertZ i (pf_set_fd connfd c) (lp_clients l)
                 | None => lp_clients l
                 end in
  let l := if i =? dm_max_clients (sv_d (lp_sv l)) then lp_set_n (sys_close (lp_n l) connfd) l else l in
  c ← lookupZ clients i;
  let clients := insertZ i (pf_set_events POLLIN c) clients in
  Some (mk_loop (lp_sv l) clients (if lp_max_ndx l <? i then i else lp_max_ndx l) (lp_active l + 1), true).

(** The [revents] that [poll] stores in the first entries. *)
Definition polled (clients : list pollfd) (rs : list Z) : list pollfd :=
  zip_with (fun c r => pf_set_revents r c) clients rs ++ drop (length rs) clients.

(** The body of the [while]: [Some err] is a return with [err]. *)
Definition loop_pass (l : loop) : option (loop * option Z) :=
  let '(n, nready, rs) := poll (lp_n l) (take (Z.to_nat (lp_max_ndx l + 1)) (lp_clients l)) in
  let l := lp_set_clients (polled (lp_clients l) rs) (lp_set_n n l) in
  let '(l, quit) :=
    if nready =? 0 then
      let '(n, run) := keep_running (lp_n l) in (lp_set_n n l, negb run && (lp_active l =? 0))
    else (l, false) in
  if quit then Some (l, Some 0) else
  if nready <? 0 then Some (l, None) else
  c ← lookupZ (lp_clients l) 0;
  if Z.land (pf_revents c) POLLIN =? 0 then
    l ← serve_clients (Z.to_nat (lp_max_ndx l)) l 1 nready; Some (l, None)
  else
    '(l, ok) ← accept_client l;
    if negb ok then Some (l, Some 1) else
    if nready - 1 <=? 0 then Some (l, None) else
    l ← serve_clients (Z.to_nat (lp_max_ndx l)) l 1 (nready - 1); Some (l, None).

(** The [while] over the flag and the number of active clients, at most [fuel] passes. *)
Fixpoint loop_run (fuel : nat) (l : loop) : option (loop * Z) :=
  let '(n, run) := keep_running (lp_n l) in
  let l := lp_set_n n l in
  if negb run && (lp_active l =? 0) then Some (l, 0) else
  match fuel with
  | O => None
  | S fuel =>
      '(l, ret) ← loop_pass l;
      match ret with
      | Some err => Some (l, err)
      | None => loop_run fuel l
      end
  end.

(** The array before the first pass: [stack] is what it holds uninitialised. *)
Definition loop_start (s : server W N) (stack : list pollfd) : option loop :=
  match take (Z.to_nat (dm_max_clients (sv_d s))) stack with
  | [] => None
  | c :: cs =>
      Some (mk_loop s (pf_set_events POLLIN (pf_set_fd (dm_listen_fd (sv_d s)) c) ::
                       (pf_set_fd FLA_DAEMON_FD_FREE <$> cs)) 0 0)
  end.

Definition fla_daemon_loop (fuel : nat) (s : server W N) (stack : list pollfd) : option (server W N * Z) :=
  let '(n, run) := keep_running (sv_n s) in
  let s := sv_set_n n s in
  if negb run then Some (s, - EINVAL) else
  l ← loop_start s stack;
  '(l, err) ← loop_run fuel l;
  Some (lp_sv l, err).
End loop.
Arguments loop : clear implicits.

(** ** The table of clients *)

(** The entries in use, the listening socket included. *)
Fixpoint busy (fds : list Z) : Z :=
  match fds with [] => 0 | fd :: fds => (if fd <? 0 then 0 else 1) + busy fds end.

Lemma busy_nonneg fds : 0 <= busy fds.
Proof. induction fds as [|fd fds IH]; cbn [busy]; [lia|]. destruct (fd <? 0); lia. Qed.

Lemma busy_insert fds i old fd : lookupZ fds i = Some old ->
  busy (insertZ i fd fds) = busy fds - (if old <? 0 then 0 else 1) + (if fd <? 0 then 0 else 1).
Proof.
  unfold lookupZ, insertZ. destruct (i <? 0); [done|]. generalize (Z.to_nat i) as j. clear i.
  induction fds as [|x fds IH]; intros [|j] Hl; [done|done|..].
  - apply (inj Some) in Hl as ->. change (busy (<[0%nat:=fd]> (old :: fds))) with ((if fd <? 0 then 0 else 1) + busy fds).
    cbn [busy]. lia.
  - change (busy (<[S j:=fd]> (x :: fds))) with ((if x <? 0 then 0 else 1) + busy (<[j:=fd]> fds)).
    rewrite (IH j Hl). cbn [busy]. lia.
Qed.

Lemma busy_pos fds i fd : lookupZ fds i = Some fd -> 0 <= fd -> 1 <= busy fds.
Proof.
  intros Hl Hfd. pose proof (busy_insert fds i fd (-1) Hl) as Hb. rewrite (proj2 (Z.ltb_ge _ _) Hfd) in Hb.
  pose proof (busy_nonneg (insertZ i (-1) fds)). cbn in Hb. lia.
Qed.

Lemma busy_ex fds : 1 <= busy fds -> exists i fd, fds !! i = Some fd /\ 0 <= fd.
Proof.
  induction fds as [|fd fds IH]; cbn [busy]; intros Hb; [lia|]. destruct (Z.ltb_spec fd 0); [|by exists 0%nat, fd].
  destruct IH as (i & x & Hi & Hx); [lia|]. by exists (S i), x.
Qed.

Lemma busy_le fds : busy fds <= Z.of_nat (length fds).
Proof. induction fds as [|fd fds IH]; cbn; [lia|]. case_match; lia. Qed.

Lemma busy_free fds i fd : lookupZ fds i = Some fd -> fd < 0 -> busy fds < Z.of_nat (length fds).
Proof.
  intros Hl Hfd. pose proof (busy_insert fds i fd 0 Hl) as Hb. pose proof (busy_le (insertZ i 0 fds)) as Hle.
  rewrite length_insertZ in Hle. rewrite (proj2 (Z.ltb_lt _ _)) in Hb by done. change (0 <? 0) with false in Hb. cbv iota in Hb. lia.
Qed.

Lemma busy_full fds : Forall (Z.le 0) fds -> busy fds = Z.of_nat (length fds).
Proof. induction 1 as [|fd fds Hfd _ IH]; [done|]. cbn. rewrite (proj2 (Z.ltb_ge _ _)) by done. lia. Qed.

Record slots_ok (listen_fd max_clients active max_ndx : Z) (fds : list Z) : Prop := {
  so_length : Z.of_nat (length fds) = max_clients;
  so_listen : lookupZ fds 0 = Some listen_fd /\ 0 <= listen_fd;
  so_max : 0 <= max_ndx < max_clients;
  so_free : forall i fd, max_ndx < i -> lookupZ fds i = Some fd -> fd < 0;
  so_other : forall i fd, 0 < i -> lookupZ fds i = Some fd -> fd <> listen_fd;
  so_active : active = busy fds - 1
}.

(** Taking a free entry and giving one up. *)
Lemma slots_take lfd mx a m fds i old fd : slots_ok lfd mx a m fds -> lookupZ fds i = Some old -> old < 0 ->
  0 <= fd -> fd <> lfd -> slots_ok lfd mx (a + 1) (if m <? i then i else m) (insertZ i fd fds).
Proof.
  intros [Hl [H0 Hlfd] Hm Hf Hot Ha] Hi Hold Hfd Hne. pose proof (lookupZ_Some _ _ _ Hi) as Hr.
  assert (i <> 0) by (intros ->; rewrite H0 in Hi; simplify_eq; lia). split.
  - by rewrite length_insertZ.
  - by rewrite lookupZ_insertZ_ne by done.
  - destruct (Z.ltb_spec m i); lia.
  - intros j x Hj Hx. apply lookupZ_insertZ_Some in Hx as [[-> ->]|[_ Hx]];
      [destruct (Z.ltb_spec m j); lia|]. apply (Hf j); [|done]. destruct (Z.ltb_spec m i); lia.
  - intros j x Hj Hx. apply lookupZ_insertZ_Some in Hx as [[_ <-]|[_ Hx]]; [done|]. by apply (Hot j).
  - rewrite (busy_insert _ _ old) by done. rewrite (proj2 (Z.ltb_lt _ _) Hold), (proj2 (Z.ltb_ge _ _) Hfd). lia.
Qed.

Lemma slots_drop lfd mx a m fds i old : slots_ok lfd mx a m fds -> lookupZ fds i = Some old -> 0 <= old -> i <> 0 ->
  slots_ok lfd mx (a - 1) m (insertZ i FLA_DAEMON_FD_FREE fds).
Proof.
  intros [Hl [H0 Hlfd] Hm Hf Hot Ha] Hi Hold Hi0. split; [by rewrite length_insertZ|by rewrite lookupZ_insertZ_ne|done|..].
  - intros j x Hj Hx. apply lookupZ_insertZ_Some in Hx as [[-> <-]|[_ Hx]]; [done|]. by apply (Hf j).
  - intros j x Hj Hx. apply lookupZ_insertZ_Some in Hx as [[_ <-]|[_ Hx]]; [unfold FLA_DAEMON_FD_FREE; lia|].
    by apply (Hot j).
  - rewrite (busy_insert _ _ old) by done. rewrite (proj2 (Z.ltb_ge _ _) Hold). cbn. lia.
Qed.

Lemma fds_insert clients i c : pf_fd <$> insertZ i c clients = insertZ i (pf_fd c) (pf_fd <$> clients).
Proof. unfold insertZ. destruct (i <? 0); [done|]. apply list_fmap_insert. Qed.

Lemma insertZ_same {A} (l : list A) i x : lookupZ l i = Some x -> insertZ i x l = l.
Proof. unfold lookupZ, insertZ. destruct (i <? 0); [done|]. apply list_insert_id. Qed.

Lemma fds_polled clients rs : (length rs <= length clients)%nat -> pf_fd <$> polled clients rs = pf_fd <$> clients.
Proof.
  revert rs. induction clients as [|c clients IH]; intros [|r rs] Hl; cbn in *; try lia; [done..|].
  f_equal. apply IH. lia.
Qed.

Lemma free_slot_spec clients : (exists c, lookupZ clients (free_slot clients) = Some c /\ pf_fd c < 0) \/
  (free_slot clients = Z.of_nat (length clients) /\ Forall (fun c => 0 <= pf_fd c) clients).
Proof.
  induction clients as [|c clients IH]; [by right|]. cbn [free_slot length].
  destruct (Z.ltb_spec (pf_fd c) 0) as [Hc|Hc]; [left; by exists c|]. destruct IH as [(c' & Hl & Hc')|[-> Hall]].
  - left. exists c'. split; [|done]. pose proof (lookupZ_Some _ _ _ Hl). unfold lookupZ in *.
    rewrite (proj2 (Z.ltb_ge _ _)) in Hl by lia. rewrite (proj2 (Z.ltb_ge _ _)) by lia.
    rewrite <- Hl. replace (Z.to_nat (1 + free_slot clients)) with (S (Z.to_nat (free_slot clients))) by lia. done.
  - right. split; [lia|by constructor].
Qed.

(** ** The invariant of the loop *)

(** What is documented of the calls: [poll] fills the entries it was given, and
    [accept] on a blocking socket does not fail with [EAGAIN] and returns a new
    descriptor. *)
Class PollLaws (N : Type) `{SockEnv N} `{PollEnv N} := {
  poll_ok : forall n cs n' r rs, poll n cs = (n', r, rs) ->
    length rs = length cs /\ Forall2 (fun c r => pf_fd c < 0 -> r = 0) cs rs;
  accept_ok : forall n fd n' r, 0 <= fd -> accept n fd = (n', r) -> r <> fd /\ (0 <= r \/ errno n' <> EAGAIN)
}.

Section inv.
Context {W N : Type} `{PollLaws N}.
Variable on_msg : server W N -> Z -> option (server W N * Z).
Hypothesis on_msg_keeps : forall s fd s' err, on_msg s fd = Some (s', err) -> keeps s s'.
Notation loop := (loop W N).

Definition loop_inv (l : loop) : Prop :=
  slots_ok (dm_listen_fd (sv_d (lp_sv l))) (dm_max_clients (sv_d (lp_sv l))) (lp_active l) (lp_max_ndx l)
    (pf_fd <$> lp_clients l).

Lemma loop_inv_sv l s : loop_inv l -> keeps (lp_sv l) s -> loop_inv (lp_set_sv s l).
Proof. intros Hi [Hf Hm]. unfold loop_inv in *. cbn. by rewrite Hf, Hm. Qed.

Lemma disconnect_inv l i c l' : fla_daemon_client_disconnect l i = Some l' -> loop_inv l ->
  lookupZ (lp_clients l) i = Some c -> 0 <= pf_fd c -> i <> 0 -> loop_inv l' /\ lp_max_ndx l' = lp_max_ndx l.
Proof.
  intros Hrun Hi Hc Hfd Hi0. revert Hrun. unfold fla_daemon_client_disconnect. rewrite Hc. bind_step.
  intros [= <-]. split; [|done].
  unfold loop_inv in *. cbn. rewrite fds_insert. cbn. apply (slots_drop _ _ _ _ _ _ (pf_fd c)); [done| |done..].
  by rewrite lookupZ_fmap, Hc.
Qed.

Lemma serve_client_inv l i c l' b : loop_inv l -> lookupZ (lp_clients l) i = Some c -> 0 <= pf_fd c -> i <> 0 ->
  serve_client on_msg l i (pf_fd c) = Some (l', b) -> loop_inv l' /\ lp_max_ndx l' = lp_max_ndx l.
Proof using on_msg_keeps.
  intros Hi Hc Hfd Hi0. unfold serve_client. intros Hrun. run_inv.
  - refine (disconnect_inv _ i c l' E1 _ Hc Hfd Hi0). by apply loop_inv_sv.
  - refine (disconnect_inv _ i c l' E3 _ Hc Hfd Hi0). by apply loop_inv_sv; [apply loop_inv_sv|].
  - refine (disconnect_inv _ i c l' E4 _ Hc Hfd Hi0). apply loop_inv_sv; [by apply loop_inv_sv; [apply loop_inv_sv|]|].
    by apply on_msg_keeps in E3.
  - split; [|done]. apply loop_inv_sv; [by apply loop_inv_sv; [apply loop_inv_sv|]|]. by apply on_msg_keeps in E3.
Qed.

Lemma serve_clients_inv k : forall l i nready l', loop_inv l -> 0 < i ->
  serve_clients on_msg k l i nready = Some l' -> loop_inv l' /\ lp_max_ndx l' = lp_max_ndx l.
Proof using on_msg_keeps.
  induction k as [|k IH]; intros l i nready l' Hi H0i; cbn [serve_clients]; [by intros [= <-]|].
  destruct (lookupZ (lp_clients l) i) as [c|] eqn:Hc; [|done]. bind_step.
  destruct (Z.ltb_spec (pf_fd c) 0) as [Hneg|Hfd]; [intros Hrun; by apply IH in Hrun; [..|lia]|]. cbn [orb].
  case_match; [intros Hrun; by apply IH in Hrun; [..|lia]|].
  destruct (serve_client on_msg l i (pf_fd c)) as [[l1 b]|] eqn:Hs; [|done]. bind_step.
  apply serve_client_inv in Hs as [Hi1 Hm1]; [|done|done|done|lia]. rewrite <- Hm1.
  destruct b; [case_match; [by intros [= <-]|]|]; intros Hrun; by apply IH in Hrun; [..|lia].
Qed.

(** A connection while the table is full is stored past its end. *)
Lemma accept_full l n fd : loop_inv l -> accept (lp_n l) (dm_listen_fd (sv_d (lp_sv l))) = (n, fd) -> 0 <= fd ->
  Forall (fun c => 0 <= pf_fd c) (lp_clients l) -> accept_client l = None.
Proof.
  intros Hi Ha Hfd Hall. unfold accept_client. rewrite Ha, (proj2 (Z.ltb_ge _ _)) by done.
  cbn [andb lp_set_n lp_set_sv lp_clients].
  destruct (free_slot_spec (lp_clients l)) as [(c & Hl & Hc)|[Hf _]].
  { unfold lookupZ in Hl. case_match; [done|]. pose proof (Forall_lookup_1 _ _ _ _ Hall Hl). cbn in *. lia. }
  assert (lookupZ (lp_clients l) (free_slot (lp_clients l)) = None) as Hnone; [|by rewrite !Hnone].
  unfold lookupZ. rewrite Hf. case_match; [done|]. apply lookup_ge_None. lia.
Qed.

Lemma accept_inv l l' b : loop_inv l -> accept_client l = Some (l', b) -> if b then loop_inv l' else True.
Proof.
  intros Hi Hrun. pose proof Hrun as Hrun'. revert Hrun. unfold accept_client.
  pose proof (proj2 (so_listen _ _ _ _ _ Hi)) as Hlfd.
  destruct (accept (lp_n l) _) as [n fd] eqn:Ha. destruct (Z.ltb_spec fd 0) as [Hneg|Hfd]; cbn [andb].
  { destruct (accept_ok _ _ _ _ Hlfd Ha) as [_ [?|He]]; [lia|]. rewrite (proj2 (Z.eqb_neq _ _)) by done. by intros [= <- <-]. }
  cbn [lp_set_n lp_set_sv lp_clients lp_sv sv_set_n sv_d].
  destruct (free_slot_spec (lp_clients l)) as [(c & Hl & Hc)|[_ Hall]];
    [|by rewrite (accept_full _ _ _ Hi Ha Hfd Hall) in Hrun'].
  rewrite Hl. pose proof (lookupZ_Some _ _ _ Hl) as Hr. pose proof (so_length _ _ _ _ _ Hi) as Hlen.
  rewrite length_fmap in Hlen. rewrite (proj2 (Z.eqb_neq _ _)) by lia.
  rewrite lookupZ_insertZ_eq by done. bind_step. intros [= <- <-]. unfold loop_inv in *. cbn.
  rewrite !fds_insert. cbn. rewrite insertZ_same by (apply lookupZ_insertZ_eq; rewrite length_fmap; lia).
  apply (slots_take _ _ _ _ _ _ (pf_fd c)); [done|by rewrite lookupZ_fmap, Hl|done|done|].
  by apply (accept_ok _ _ _ _ Hlfd Ha).
Qed.

(** A connection finds the first free entry, when there is one. *)
Lemma accept_outcome l n fd : loop_inv l -> accept (lp_n l) (dm_listen_fd (sv_d (lp_sv l))) = (n, fd) -> 0 <= fd ->
  (lp_active l + 1 < dm_max_clients (sv_d (lp_sv l)) /\ exists l' c, accept_client l = Some (l', true) /\
     lookupZ (lp_clients l) (free_slot (lp_clients l)) = Some c /\ pf_fd c < 0 /\
     pf_fd <$> lp_clients l' = insertZ (free_slot (lp_clients l)) fd (pf_fd <$> lp_clients l) /\
     lp_active l' = lp_active l + 1 /\ loop_inv l') \/
  (lp_active l + 1 = dm_max_clients (sv_d (lp_sv l)) /\ accept_client l = None).
Proof.
  intros Hi Ha Hfd. pose proof (so_active _ _ _ _ _ Hi) as Hact. pose proof (so_length _ _ _ _ _ Hi) as Hlen.
  destruct (free_slot_spec (lp_clients l)) as [(c & Hl & Hc)|[Hf Hall]].
  2: { right. split; [|by eapply accept_full]. rewrite busy_full in Hact by (by apply Forall_fmap). lia. }
  left. assert (lookupZ (pf_fd <$> lp_clients l) (free_slot (lp_clients l)) = Some (pf_fd c)) as Hlf by by rewrite lookupZ_fmap, Hl.
  pose proof (busy_free _ _ _ Hlf Hc). split; [lia|].
  assert (exists l', accept_client l = Some (l', true) /\ lp_active l' = lp_active l + 1 /\
    pf_fd <$> lp_clients l' = insertZ (free_slot (lp_clients l)) fd (pf_fd <$> lp_clients l)) as (l' & Er & Hal & Hfds).
  { unfold accept_client. rewrite Ha, (proj2 (Z.ltb_ge _ _)) by done. cbn [andb lp_set_n lp_set_sv lp_clients]. rewrite Hl.
    rewrite lookupZ_insertZ_eq by (by eapply lookupZ_Some). bind_step. eexists. split; [done|]. split; [by case_match|].
    cbn [lp_clients]. rewrite !fds_insert. cbn [pf_fd pf_set_fd pf_set_events]. apply insertZ_same, lookupZ_insertZ_eq. by eapply lookupZ_Some. }
  exists l', c. split; [done|]. do 4 (split; [done|]). exact (accept_inv l l' true Hi Er).
Qed.

Lemma loop_pass_inv l l' : loop_inv l -> loop_pass on_msg l = Some (l', None) -> loop_inv l'.
Proof using on_msg_keeps H1.
  intros Hi. unfold loop_pass. destruct (poll (lp_n l) _) as [[n nready] rs] eqn:Hp.
  destruct (poll_ok _ _ _ _ _ Hp) as [Hrs _]. rewrite length_take in Hrs.
  set (l1 := lp_set_clients _ _). assert (loop_inv l1) as Hi1.
  { unfold loop_inv, l1. cbn. rewrite fds_polled by lia. exact Hi. }
  clearbody l1. destruct (if nready =? 0 then _ else (l1, false)) as [l2 quit] eqn:Hq.
  assert (loop_inv l2) as Hi2.
  { destruct (nready =? 0); [destruct (keep_running (lp_n l1)) as [n1 run]|]; simplify_eq;
      [by apply loop_inv_sv|done]. }
  clear Hq. destruct quit; [done|]. case_match; [by intros [= <-]|].
  destruct (lookupZ (lp_clients l2) 0) as [c|]; [|done]. bind_step. case_match.
  - intros Hrun. run_inv. apply serve_clients_inv in E as [? _]; [done|done|lia].
  - destruct (accept_client l2) as [[l3 b]|] eqn:Hacc; [|done]. bind_step. destruct b; [|done]. cbn [negb].
    pose proof (accept_inv _ _ _ Hi2 Hacc) as Hi3. cbn in Hi3. intros Hrun. run_inv; [done|].
    apply serve_clients_inv in E as [? _]; [done|done|lia].
Qed.

(** ** Shutting down *)

(** The flag is cleared, nobody connects and every client has closed its end: [poll]
    reports at least one of the clients it was given, and [read] finds the end. *)
Record shutdown (listen_fd : Z) (P : N -> Prop) : Prop := {
  sd_flag : forall n n' run, P n -> keep_running n = (n', run) -> run = false /\ P n';
  sd_read : forall n fd k, P n -> exists n', sys_read n fd k = Some (n', 0, []) /\ P n';
  sd_close : forall n fd, P n -> P (sys_close n fd);
  sd_poll : forall n cs n' r rs, P n -> poll n cs = (n', r, rs) ->
    pf_fd <$> head cs = Some listen_fd ->
    (forall i c, (0 < i)%nat -> cs !! i = Some c -> pf_fd c <> listen_fd) -> P n' /\ 0 <= r /\
    (forall r0, rs !! 0%nat = Some r0 -> Z.land r0 POLLIN = 0) /\
    (forall i c, (0 < i)%nat -> cs !! i = Some c -> 0 <= pf_fd c ->
       exists j cj rj, (0 < j)%nat /\ cs !! j = Some cj /\ 0 <= pf_fd cj /\ rs !! j = Some rj /\ Z.testbit rj 0 = true)
}.

Section shutdown.
Variables (listen_fd : Z) (P : N -> Prop).
Hypothesis down : shutdown listen_fd P.

Lemma serve_closed l i c : loop_inv l -> P (lp_n l) -> lookupZ (lp_clients l) i = Some c -> 0 <= pf_fd c -> i <> 0 ->
  exists l', serve_client on_msg l i (pf_fd c) = Some (l', false) /\ loop_inv l' /\ P (lp_n l') /\
    dm_listen_fd (sv_d (lp_sv l')) = dm_listen_fd (sv_d (lp_sv l)) /\
    lp_active l' = lp_active l - 1 /\ length (lp_clients l') = length (lp_clients l).
Proof.
  intros Hi HP Hc Hfd Hi0. unfold serve_client.
  destruct (sd_read _ P down _ (pf_fd c) sizeof_msg_header HP) as (n1 & -> & HP1). bind_step.
  rewrite buf_put_0 by (cbn; lia). bind_step. change (negb (0 =? sizeof_msg_header)) with true. cbv iota.
  set (l1 := lp_set_sv _ l).
  destruct (fla_daemon_client_disconnect l1 i) as [l2|] eqn:Hd.
  2: { unfold fla_daemon_client_disconnect in Hd. cbn [l1 lp_set_sv lp_clients] in Hd. by rewrite Hc in Hd. }
  bind_step. exists l2. split; [done|].
  destruct (disconnect_inv _ _ c _ Hd (loop_inv_sv _ _ Hi ltac:(done)) Hc Hfd Hi0) as [Hi2 _].
  split; [done|]. unfold fla_daemon_client_disconnect in Hd. cbn [l1 lp_set_sv lp_clients] in Hd. rewrite Hc in Hd.
  cbn [mbind option_bind] in Hd. injection Hd as <-. split_and!; [by apply (sd_close _ P down)|done|done|apply length_insertZ].
Qed.

Lemma serve_all_closed k : forall l i nready, loop_inv l -> P (lp_n l) -> 0 < i ->
  i + Z.of_nat k <= Z.of_nat (length (lp_clients l)) ->
  exists l', serve_clients on_msg k l i nready = Some l' /\ loop_inv l' /\ P (lp_n l') /\
    dm_listen_fd (sv_d (lp_sv l')) = dm_listen_fd (sv_d (lp_sv l)) /\ lp_active l' <= lp_active l /\
    ((exists j c, i <= j < i + Z.of_nat k /\ lookupZ (lp_clients l) j = Some c /\ 0 <= pf_fd c /\
        Z.testbit (pf_revents c) 0 = true) -> lp_active l' < lp_active l).
Proof.
  induction k as [|k IH]; intros l i nready Hi HP H0i Hk; cbn [serve_clients].
  { exists l. split_and!; [done..|lia|]. intros (j & c & Hj & _). lia. }
  destruct (lookupZ_is_Some (lp_clients l) i) as [c Hc]; [lia|]. rewrite Hc. bind_step.
  destruct ((pf_fd c <? 0) || (Z.land (pf_revents c) (Z.lor POLLIN POLLERR) =? 0)) eqn:Hskip.
  - destruct (IH l (i + 1) nready) as (l' & -> & Hi' & HP' & Hd & Ha & Hlt); [done|done|lia|lia|].
    exists l'. split_and!; [done..|]. intros (j & cj & Hj & Hcj & Hfd & Hr). apply Hlt. exists j, cj.
    split_and!; [|lia|done..]. destruct (decide (j = i)) as [->|]; [exfalso|lia].
    rewrite Hc in Hcj. injection Hcj as <-. apply orb_true_iff in Hskip as [Hs|Hs].
    + apply Z.ltb_lt in Hs. lia.
    + apply Z.eqb_eq in Hs. apply (f_equal (fun z => Z.testbit z 0)) in Hs.
      by rewrite Z.land_spec, Hr in Hs.
  - apply orb_false_iff in Hskip as [Hfd _]. apply Z.ltb_ge in Hfd.
    destruct (serve_closed l i c) as (l1 & -> & Hi1 & HP1 & Hd1 & Ha1 & Hlen); [done..|lia|]. bind_step.
    destruct (IH l1 (i + 1) nready) as (l' & -> & Hi' & HP' & Hd & Ha & Hlt); [done|done|lia|lia|].
    exists l'. split_and!; [done..|congruence|lia|lia].
Qed.

Lemma polled_lookup clients rs j c r : clients !! j = Some c -> rs !! j = Some r ->
  polled clients rs !! j = Some (pf_set_revents r c).
Proof.
  intros Hc Hr. unfold polled. rewrite lookup_app_l.
  - rewrite lookup_zip_with, Hc, Hr. done.
  - rewrite length_zip_with. apply lookup_lt_Some in Hc, Hr. lia.
Qed.

Lemma busy_client l : loop_inv l -> 0 < lp_active l ->
  exists i c, (0 < i)%nat /\ Z.of_nat i <= lp_max_ndx l /\ lp_clients l !! i = Some c /\ 0 <= pf_fd c.
Proof.
  intros [Hlen [Hlst Hlfd] Hmax Hfree _ Hact] Ha. destruct (lp_clients l) as [|c0 cs]; [cbn in Hlen; lia|].
  cbn [fmap list_fmap busy] in Hact. assert (pf_fd c0 = dm_listen_fd (sv_d (lp_sv l))) as H00 by (by injection Hlst).
  rewrite H00, (proj2 (Z.ltb_ge _ _)) in Hact by done.
  destruct (busy_ex (pf_fd <$> cs)) as (i & fd & Hi & Hfd); [lia|].
  apply list_lookup_fmap_Some in Hi as (c & -> & Hc). exists (S i), c. split_and!; [lia| |done|done].
  destruct (Z.le_gt_cases (Z.of_nat (S i)) (lp_max_ndx l)); [done|exfalso].
  enough (pf_fd c < 0) by lia. apply (Hfree (Z.of_nat (S i))); [lia|]. rewrite lookupZ_fmap. unfold lookupZ.
  rewrite (proj2 (Z.ltb_ge _ _)), Nat2Z.id by lia. change ((c0 :: cs) !! S i) with (cs !! i). by rewrite Hc.
Qed.

Lemma polled_entries l : loop_inv l -> dm_listen_fd (sv_d (lp_sv l)) = listen_fd ->
  pf_fd <$> head (take (Z.to_nat (lp_max_ndx l + 1)) (lp_clients l)) = Some listen_fd /\
  forall i c, (0 < i)%nat -> take (Z.to_nat (lp_max_ndx l + 1)) (lp_clients l) !! i = Some c -> pf_fd c <> listen_fd.
Proof.
  intros Hi <-. split.
  - destruct (so_listen _ _ _ _ _ Hi) as [Hlst _]. destruct (lp_clients l) as [|c0 cs]; [done|].
    destruct (so_max _ _ _ _ _ Hi). by destruct (Z.to_nat (lp_max_ndx l + 1)) eqn:Hm; [lia|].
  - intros i c H0i [Hc _]%lookup_take_Some. apply (so_other _ _ _ _ _ Hi (Z.of_nat i)); [lia|].
    rewrite lookupZ_fmap. unfold lookupZ. rewrite (proj2 (Z.ltb_ge _ _)), Nat2Z.id by lia. by rewrite Hc.
Qed.

Lemma pass_closed l : loop_inv l -> dm_listen_fd (sv_d (lp_sv l)) = listen_fd -> P (lp_n l) -> 0 < lp_active l ->
  exists l', loop_pass on_msg l = Some (l', None) /\ loop_inv l' /\ dm_listen_fd (sv_d (lp_sv l')) = listen_fd /\
    P (lp_n l') /\ lp_active l' < lp_active l.
Proof.
  intros Hi Hlfd HP Hact. unfold loop_pass. destruct (poll (lp_n l) _) as [[n nready] rs] eqn:Hp.
  destruct (poll_ok _ _ _ _ _ Hp) as [Hrs _]. destruct (sd_poll _ P down _ _ _ _ _ HP Hp) as (HP1 & Hr0 & Hl0 & Hrep); [by apply polled_entries..|].
  destruct (busy_client l Hi Hact) as (i & c & Hi0 & Him & Hc & Hfd).
  destruct (Hrep i c Hi0) as (j & cj & rj & Hj0 & Hcj & Hfdj & Hrj & Hbit); [by rewrite lookup_take_lt by lia|done|].
  apply lookup_take_Some in Hcj as [Hcj Hjm].
  pose proof (so_length _ _ _ _ _ Hi) as Hlen. pose proof (so_max _ _ _ _ _ Hi) as Hmax.
  rewrite length_fmap in Hlen. rewrite length_take in Hrs.
  set (l1 := lp_set_clients _ _). assert (loop_inv l1) as Hi1.
  { unfold loop_inv, l1. cbn. rewrite fds_polled by lia. exact Hi. }
  destruct (if nready =? 0 then _ else (l1, false)) as [l2 quit] eqn:Hq.
  assert (quit = false /\ loop_inv l2 /\ P (lp_n l2) /\ lp_clients l2 = lp_clients l1 /\
    dm_listen_fd (sv_d (lp_sv l2)) = listen_fd /\
    lp_max_ndx l2 = lp_max_ndx l /\ lp_active l2 = lp_active l) as (-> & Hi2 & HP2 & Hcl & Hd2 & Hm & Ha).
  { destruct (nready =? 0); [destruct (keep_running (lp_n l1)) as [n1 run] eqn:Hkr|]; simplify_eq; [|done].
    destruct (sd_flag _ P down _ _ _ HP1 Hkr) as [-> HP2]. cbn [lp_active l1 lp_set_clients lp_set_n lp_set_sv].
    rewrite (proj2 (Z.eqb_neq _ _)) by lia. split_and!; [done|by apply loop_inv_sv|done..]. }
  rewrite (proj2 (Z.ltb_ge _ _)) by done.
  destruct (lookup_lt_is_Some_2 (lp_clients l) 0) as [c0 Hc0]; [lia|].
  destruct (lookup_lt_is_Some_2 rs 0) as [r0 Hr00]; [lia|].
  assert (lookupZ (lp_clients l2) 0 = Some (pf_set_revents r0 c0)) as ->.
  { rewrite Hcl. by apply polled_lookup. }
  bind_step. cbn [pf_revents pf_set_revents]. rewrite (Hl0 r0 Hr00). change (0 =? 0) with true. cbv iota.
  destruct (serve_all_closed (Z.to_nat (lp_max_ndx l2)) l2 1 nready) as (l' & -> & Hi' & HP' & Hd' & _ & Hlt); [done|done|lia| |].
  { pose proof (so_length _ _ _ _ _ Hi2) as L2. pose proof (so_max _ _ _ _ _ Hi2). rewrite length_fmap in L2. lia. }
  bind_step. exists l'. split_and!; [done|done|congruence|done|]. rewrite <- Ha. apply Hlt. exists (Z.of_nat j), (pf_set_revents rj cj).
  split_and!; [lia|lia| |done|done]. rewrite Hcl. unfold lookupZ. rewrite (proj2 (Z.ltb_ge _ _)), Nat2Z.id by lia.
  by apply polled_lookup.
Qed.

Lemma run_closed fuel : forall l, loop_inv l -> dm_listen_fd (sv_d (lp_sv l)) = listen_fd -> P (lp_n l) -> lp_active l <= Z.of_nat fuel ->
  exists l', loop_run on_msg fuel l = Some (l', 0) /\ lp_active l' = 0.
Proof.
  induction fuel as [|fuel IH]; intros l Hi Hd HP Hf; cbn [loop_run];
    destruct (keep_running (lp_n l)) as [n run] eqn:Hkr; destruct (sd_flag _ P down _ _ _ HP Hkr) as [-> HP1];
    cbn [negb andb]; assert (0 <= lp_active l) as Hpos by (rewrite (so_active _ _ _ _ _ Hi);
      pose proof (busy_pos _ _ _ (proj1 (so_listen _ _ _ _ _ Hi)) (proj2 (so_listen _ _ _ _ _ Hi))); lia);
    (destruct (Z.eqb_spec (lp_active (lp_set_n n l)) 0) as [Ha|Ha]; [by eexists|]); cbn in Ha; [lia|].
  destruct (pass_closed (lp_set_n n l)) as (l' & -> & Hi' & Hd' & HP' & Hlt); [by apply loop_inv_sv|done|done|cbn; lia|].
  bind_step. apply IH; [done|done|done|]. cbn in Hlt. lia.
Qed.
End shutdown.
End inv.

(** ** A network in memory

    The server's side of connected clients: the bytes each has sent and was sent,
    and whether it has closed its end; a descriptor without a connection is at its
    end.  [nt_run] are the values the flag will be read with, then it is clear. *)
Record conn := mk_conn { cn_in : list Z; cn_out : list Z; cn_closed : bool }.
Record net := mk_net {
  nt_conns : gmap Z conn; nt_listen : Z; nt_backlog : list Z; nt_run : list bool; nt_errno : Z
}.

Definition no_conn : conn := mk_conn [] [] true.
Definition conn_of (n : net) (fd : Z) : conn := default no_conn (nt_conns n !! fd).
Definition set_conn (fd : Z) (c : conn) (n : net) : net :=
  mk_net (<[fd := c]> (nt_conns n)) (nt_listen n) (nt_backlog n) (nt_run n) (nt_errno n).

(** Up to [k] bytes; with nothing to read a call waits until the peer closes. *)
Definition net_read (n : net) (fd : Z) (peek : bool) (k : Z) : option (net * Z * list Z) :=
  let c := conn_of n fd in
  let bs := take (Z.to_nat k) (cn_in c) in
  if k <=? 0 then Some (n, 0, []) else
  match cn_in c with
  | [] => if cn_closed c then Some (n, 0, []) else None
  | _ => Some (if peek then n else set_conn fd (mk_conn (drop (Z.to_nat k) (cn_in c)) (cn_out c) (cn_closed c)) n,
               Z.of_nat (length bs), bs)
  end.

Definition net_send (n : net) (fd : Z) (bs : list Z) : net * Z :=
  let c := conn_of n fd in
  (set_conn fd (mk_conn (cn_in c) (cn_out c ++ bs) (cn_closed c)) n, Z.of_nat (length bs)).

Definition conn_ready (c : conn) : bool :=
  match cn_in c with [] => cn_closed c | _ => true end.

Definition net_revents (n : net) (p : pollfd) : Z :=
  if pf_fd p <? 0 then 0 else
  if pf_fd p =? nt_listen n then match nt_backlog n with [] => 0 | _ => POLLIN end else
  if conn_ready (conn_of n (pf_fd p)) then POLLIN else 0.

Definition net_poll (n : net) (cs : list pollfd) : net * Z * list Z :=
  let rs := net_revents n <$> cs in
  (n, Z.of_nat (length (filter (fun r => r <> 0) rs)), rs).

Definition net_accept (n : net) (fd : Z) : net * Z :=
  match nt_backlog n with
  | [] => (mk_net (nt_conns n) (nt_listen n) [] (nt_run n) EINTR, -1)
  | x :: l => (mk_net (nt_conns n) (nt_listen n) l (nt_run n) EINTR, if x =? fd then -1 else x)
  end.

#[export] Instance net_env : SockEnv net := {
  errno := nt_errno;
  clear_errno n := mk_net (nt_conns n) (nt_listen n) (nt_backlog n) (nt_run n) 0;
  intr _ := O;
  send := net_send;
  recv := net_read;
  sys_close n fd := mk_net (delete fd (nt_conns n)) (nt_listen n) (nt_backlog n) (nt_run n) (nt_errno n)
}.

#[export] Instance net_poll_env : PollEnv net := {
  poll := net_poll;
  accept := net_accept;
  sys_read n fd k := net_read n fd false k;
  keep_running n := (mk_net (nt_conns n) (nt_listen n) (nt_backlog n) (tail (nt_run n)) (nt_errno n),
                     default false (head (nt_run n)))
}.

#[export] Instance net_poll_laws : PollLaws net.
Proof.
  split.
  - intros n cs n' r rs. cbn. unfold net_poll. intros [= <- <- <-]. split; [apply length_fmap|].
    apply Forall2_fmap_r, Forall_Forall2_diag, Forall_true. intros c Hc. unfold net_revents.
    by rewrite (proj2 (Z.ltb_lt _ _)).
  - intros n fd n' r Hfd. cbn. unfold net_accept.
    destruct (nt_backlog n) as [|x l]; intros [= <- <-]; cbn; [split; [lia|by right]|].
    destruct (Z.eqb_spec x fd); [split; [lia|by right]|split; [done|by right]].
Qed.

(** Every client has closed, nobody is waiting and the flag is clear. *)
Definition net_down (fd : Z) (n : net) : Prop :=
  nt_listen n = fd /\ nt_run n = [] /\ nt_backlog n = [] /\ map_Forall (fun _ c => cn_in c = [] /\ cn_closed c = true) (nt_conns n).

Lemma net_down_conn lfd n fd : net_down lfd n -> cn_in (conn_of n fd) = [] /\ cn_closed (conn_of n fd) = true.
Proof. intros (_ & _ & _ & Hc). unfold conn_of. destruct (nt_conns n !! fd) as [c|] eqn:E; [by apply (Hc fd)|done]. Qed.

Lemma net_shutdown lfd : shutdown lfd (net_down lfd).
Proof.
  split.
  - intros n n' run (Hl & Hr & Hb & Hc). cbn. rewrite Hr. by intros [= <- <-].
  - intros n fd k Hd. exists n. destruct (net_down_conn lfd n fd Hd) as [Hi Hc]. cbn. unfold net_read.
    rewrite Hi, Hc. by destruct (k <=? 0).
  - intros n fd (Hl & Hr & Hb & Hc). split_and!; [done..|]. by apply map_Forall_delete.
  - intros n cs n' r rs Hd. cbn. unfold net_poll. intros [= <- <- <-] Hh Ho. destruct Hd as (Hl & Hr & Hb & Hc).
    split; [done|]. split; [lia|]. split.
    + intros r0. rewrite list_lookup_fmap. destruct cs as [|c0 cs]; [done|]. cbn in Hh |- *. intros [= <-].
      injection Hh as Hh. unfold net_revents. rewrite Hh, Hl, Z.eqb_refl, Hb. by destruct (lfd <? 0).
    + intros i c Hi Hci Hfd. exists i, c, POLLIN. split_and!; [done..| |done]. rewrite list_lookup_fmap, Hci. cbn.
      unfold net_revents. rewrite (proj2 (Z.ltb_ge _ _)), Hl, (proj2 (Z.eqb_neq _ _)) by (done || by apply (Ho i)).
      unfold conn_ready. destruct (net_down_conn lfd n (pf_fd c)) as [-> ->]; done.
Qed.

(** ** Claims *)

Section claims.
Context {W N : Type} `{XnvmeEnv W} `{!XnvmeAdm W} `{PollLaws N}.
Implicit Types (s : server W N) (l : loop W N).

(** One more pass of the [while]. *)
Inductive loop_step (l : loop W N) : loop W N -> Prop :=
  | loop_again n run l' : keep_running (lp_n l) = (n, run) -> run || negb (lp_active l =? 0) = true ->
      loop_pass msg_handler (lp_set_n n l) = Some (l', None) -> loop_step l l'.

Lemma loop_start_inv s stack l : 0 <= dm_listen_fd (sv_d s) ->
  Z.of_nat (length stack) = dm_max_clients (sv_d s) -> loop_start s stack = Some l -> loop_inv l.
Proof.
  intros Hfd Hlen. unfold loop_start. rewrite take_ge by lia. destruct stack as [|c cs]; [done|]. intros [= <-].
  unfold loop_inv. cbn. rewrite <- list_fmap_compose. cbn in Hlen. split.
  - cbn. rewrite length_fmap. lia.
  - done.
  - lia.
  - intros i fd Hi. unfold lookupZ. rewrite (proj2 (Z.ltb_ge _ _)) by lia.
    destruct (Z.to_nat i) eqn:E; [lia|]. cbn. intros (c' & -> & _)%list_lookup_fmap_Some. done.
  - intros i fd Hi. unfold lookupZ. rewrite (proj2 (Z.ltb_ge _ _)) by lia.
    destruct (Z.to_nat i) eqn:E; [lia|]. cbn. intros (c' & -> & _)%list_lookup_fmap_Some. cbn.
    unfold FLA_DAEMON_FD_FREE. lia.
  - cbn. rewrite (proj2 (Z.ltb_ge _ _)) by done. enough (busy ((pf_fd ∘ pf_set_fd FLA_DAEMON_FD_FREE) <$> cs) = 0) by lia.
    clear. induction cs as [|c cs IH]; [done|]. cbn. exact IH.
Qed.

Lemma loop_reach_inv l0 l : rtc loop_step l0 l -> loop_inv l0 -> loop_inv l.
Proof.
  induction 1 as [|l0 l1 l [n run l1' _ _ Hpass] _ IH]; [done|]. intros Hi. apply IH.
  apply (loop_pass_inv msg_handler msg_handler_keeps (lp_set_n n l0)); [by apply loop_inv_sv|done].
Qed.

(** C10: The invariant of the daemon's loop.  In every state that passes of the loop
    reach, entry 0 of the array is the listening socket and no other entry holds it, the
    entries past [max_clients_ndx] are free, that index is inside the array, and
    [active_clients] is the number of client entries in use.  A connection that arrives
    there is entered in the first free entry and counted, and the invariant holds again,
    as long as fewer than [max_clients - 1] clients are connected.  When all entries are
    taken the behaviour is undefined: the code stores past the end of the array, and then
    lets [max_clients_ndx] leave it and counts the client that it has turned away.  A
    history that contains such a connection, or a message longer than the buffer
    ([long_message_undefined]), has no continuation here: the invariant is that of the
    passes before it.  (The listening socket is a blocking one, so that [accept] does not
    fail with [EAGAIN].) *)
Theorem daemon_loop_invariant s stack l0 l : 0 <= dm_listen_fd (sv_d s) ->
  Z.of_nat (length stack) = dm_max_clients (sv_d s) -> loop_start s stack = Some l0 ->
  rtc loop_step l0 l -> loop_inv l /\
  forall n fd, accept (lp_n l) (dm_listen_fd (sv_d (lp_sv l))) = (n, fd) -> 0 <= fd ->
    (lp_active l + 1 < dm_max_clients (sv_d (lp_sv l)) /\ exists l' c, accept_client l = Some (l', true) /\
       lookupZ (lp_clients l) (free_slot (lp_clients l)) = Some c /\ pf_fd c < 0 /\
       pf_fd <$> lp_clients l' = insertZ (free_slot (lp_clients l)) fd (pf_fd <$> lp_clients l) /\
       lp_active l' = lp_active l + 1 /\ loop_inv l') \/
    (lp_active l + 1 = dm_max_clients (sv_d (lp_sv l)) /\ accept_client l = None).
Proof.
  intros Hfd Hlen Hs Hr. assert (loop_inv l) as Hi by (apply (loop_reach_inv l0); [done|]; by apply (loop_start_inv s stack)).
  split; [done|]. intros n fd. by apply accept_outcome.
Qed.

(** C11: Once the flag is cleared and the clients have closed their ends, the loop
    disconnects them and returns 0, after at most as many passes as clients were
    active. *)
Theorem daemon_shuts_down P s stack l0 l : 0 <= dm_listen_fd (sv_d s) ->
  Z.of_nat (length stack) = dm_max_clients (sv_d s) -> loop_start s stack = Some l0 ->
  rtc loop_step l0 l -> shutdown (dm_listen_fd (sv_d (lp_sv l))) P -> P (lp_n l) ->
  exists l', loop_run msg_handler (Z.to_nat (lp_active l)) l = Some (l', 0) /\ lp_active l' = 0.
Proof.
  intros Hfd Hlen Hs Hr Hdown HP. assert (loop_inv l) as Hi.
  { apply (loop_reach_inv l0); [done|]. by apply (loop_start_inv s stack). }
  apply (run_closed msg_handler _ P Hdown); [done|done|done|]. lia.
Qed.

(** A connection that arrives while all entries are taken is undefined behaviour:
    its entry is the one past the array. *)
Theorem full_table_undefined s stack l0 l nready rs n n' fd : 0 <= dm_listen_fd (sv_d s) ->
  Z.of_nat (length stack) = dm_max_clients (sv_d s) -> loop_start s stack = Some l0 -> rtc loop_step l0 l ->
  Forall (fun c => 0 <= pf_fd c) (lp_clients l) ->
  poll (lp_n l) (take (Z.to_nat (lp_max_ndx l + 1)) (lp_clients l)) = (n, nready, POLLIN :: rs) -> 0 < nready ->
  accept n (dm_listen_fd (sv_d (lp_sv l))) = (n', fd) -> 0 <= fd ->
  loop_pass msg_handler l = None.
Proof.
  intros Hlfd Hlen Hs Hr Hall Hp Hn Hacc Hfd. assert (loop_inv l) as Hi.
  { apply (loop_reach_inv l0); [done|]. by apply (loop_start_inv s stack). }
  unfold loop_pass. rewrite Hp. destruct (poll_ok _ _ _ _ _ Hp) as [Hrs _]. rewrite length_take in Hrs.
  rewrite (proj2 (Z.eqb_neq _ _)), (proj2 (Z.ltb_ge _ _)) by lia.
  set (l1 := lp_set_clients _ _). assert (loop_inv l1) as Hi1.
  { unfold loop_inv, l1. cbn [lp_set_clients lp_clients]. rewrite fds_polled by lia. exact Hi. }
  destruct (lookup_lt_is_Some_2 (lp_clients l) 0) as [c Hc]; [cbn in Hrs; lia|].
  assert (lookupZ (lp_clients l1) 0 = Some (pf_set_revents POLLIN c)) as -> by (by apply polled_lookup).
  bind_step. cbn [pf_revents pf_set_revents]. change (Z.land POLLIN POLLIN =? 0) with false. cbv iota.
  rewrite (accept_full l1 n' fd); [done|done|done|done|].
  apply (Forall_fmap pf_fd (Z.le 0)). change (lp_clients l1) with (polled (lp_clients l) (POLLIN :: rs)).
  rewrite fds_polled by lia. by apply (Forall_fmap pf_fd (Z.le 0)).
Qed.

(** A message whose header announces more than the buffer holds overruns it. *)
Theorem long_message_undefined l i fd n hdr n' bs : msg_buf (sv_recv (lp_sv l)) -> length hdr = 8%nat ->
  sys_read (lp_n l) fd sizeof_msg_header = Some (n, sizeof_msg_header, hdr) ->
  sys_read n fd (hdr_len hdr) = Some (n', hdr_len hdr, bs) ->
  FLA_MSG_DATA_MAX < Z.of_nat (length bs) ->
  serve_client (W := W) msg_handler l i fd = None.
Proof.
  intros Hm Hh Hr1 Hr2 Hbs. unfold serve_client. rewrite Hr1. bind_step.
  pose proof (mb_length _ Hm) as Hl. unfold FLA_MSG_BUFSIZ, sizeof_msg_header, FLA_MSG_DATA_MAX in *.
  rewrite buf_put_0 by lia. bind_step. change (negb (8 =? 8)) with false. cbv iota.
  destruct (hdr_take (hdr ++ drop (length hdr) (sv_recv (lp_sv l))) hdr) as (-> & _); [apply take_app_le; lia|].
  cbn [lp_n lp_set_sv sv_set_recv sv_set_n sv_n lp_sv]. rewrite Hr2. bind_step.
  unfold data_put, buf_put, sizeof_msg_header. rewrite length_app, length_drop.
  rewrite (proj2 (Z.leb_le 0 (8 + 0))) by lia. cbn [andb]. by rewrite (proj2 (Z.leb_gt _ _)) by lia.
Qed.
End claims.

(** ** A run

    Two entries, the listening socket 3 and a client that connects as 7 and closes. *)
#[local] Instance ex_adm : XnvmeAdm RamDisk.world := RamAdm.adm [([1], ex_dev)] true.

Definition ex_daemon : fla_daemon :=
  mk_daemon (mk_handle (fs_zero ex_dev None) dp_zero []) [100; 0] None (mk_identity 1000 1) 3 2 0.
Definition ex_net (conns : gmap Z conn) (backlog : list Z) (run : list bool) : net := mk_net conns 3 backlog run 0.
Definition ex_server (n : net) : server RamDisk.world net :=
  mk_server (RamDisk.mk_world ∅ []) n ex_daemon (replicate 2056 0) (replicate 2056 0).
Definition ex_stack : list pollfd := replicate 2 (mk_pollfd 99 99 99).
Definition ex_loop (n : net) : loop RamDisk.world net :=
  mk_loop (ex_server n) [mk_pollfd 3 POLLIN 99; mk_pollfd FLA_DAEMON_FD_FREE 99 99] 0 0.
Definition ex_start : net := ex_net {[7 := no_conn]} [7] [true].

(** The client is in its entry. *)
Definition ex_accepted : loop RamDisk.world net :=
  mk_loop (ex_server (mk_net {[7 := no_conn]} 3 [] [] EINTR))
    [mk_pollfd 3 POLLIN POLLIN; mk_pollfd 7 POLLIN 99] 1 1.

Lemma ex_step : rtc loop_step (ex_loop ex_start) ex_accepted.
Proof.
  apply rtc_once. apply (loop_again _ (ex_net {[7 := no_conn]} [7] []) true); [reflexivity|reflexivity|].
  vm_compute. reflexivity.
Qed.

Lemma daemon_loop_invariant_witness : loop_inv ex_accepted /\ exists l', accept_client (ex_loop ex_start) = Some (l', true) /\ lp_active l' = 1.
Proof.
  split.
  - apply (daemon_loop_invariant (ex_server ex_start) ex_stack (ex_loop ex_start)); [cbn; lia|done|reflexivity|apply ex_step].
  - destruct (daemon_loop_invariant (ex_server ex_start) ex_stack (ex_loop ex_start) (ex_loop ex_start)) as [_ Ha];
      [cbn; lia|done|reflexivity|apply rtc_refl|].
    destruct (Ha (mk_net {[7 := no_conn]} 3 [] [true] EINTR) 7) as [(_ & l' & c & Er & _ & _ & _ & Hn & _)|[Hn _]];
      [vm_compute; reflexivity|lia| |discriminate Hn]. exists l'. split; [exact Er|exact Hn].
Defined.

Lemma daemon_shuts_down_witness :
  exists l', loop_run msg_handler 1 ex_accepted = Some (l', 0) /\ lp_active l' = 0.
Proof.
  apply (daemon_shuts_down (net_down 3) (ex_server ex_start) ex_stack (ex_loop ex_start) ex_accepted);
    [cbn; lia|done|reflexivity|apply ex_step|apply net_shutdown|].
  split_and!; [done..|]. by apply map_Forall_singleton.
Defined.
