(* ===== verification/DaemonClient.v ===== *)
(** * DaemonClient: a client of the daemon, [src/src/flexalloc_daemon_base.c], and the
    dispatch of [src/src/libflexalloc.c]

    A client's handle holds the geometry, the devices and copies of the pool entries;
    every operation on metadata is a request ([fla_daemon_*_rq]) answered by the
    daemon.  The two message buffers of the client are kept between requests.

    [process] is the client's process: its devices and allocator [C], its sockets [N]
    and the client structure.  Memory that is freed is not modelled, nor is the
    closing of devices. *)
From S2P Require Import Prelude Util Hash XnvmeEnv Flexalloc PoolEntry Pool Object DataPlacement Layout System Socket Daemon.

(** The part of [struct flexalloc] a client uses; [None] is [NULL]. *)
Record client_fs := mk_client_fs {
  cf_geo : fla_geo; cf_lb_nbytes : Z; cf_dev_uri : option (list Z); cf_md_dev_uri : option (list Z);
  cf_entries : option (list fla_pool_entry); cf_dev : option xnvme_dev; cf_md_dev : option xnvme_dev
}.

Record fla_daemon_client := mk_client {
  cl_fs : client_fs; cl_version : fla_sys_identity; cl_sock_fd : Z; cl_send : list Z; cl_recv : list Z
}.

Record process (C N : Type) := mk_process { pr_c : C; pr_n : N; pr_cl : fla_daemon_client }.
Arguments mk_process {C N}.
Arguments pr_c {C N}.
Arguments pr_n {C N}.
Arguments pr_cl {C N}.

Definition cf_zero : client_fs :=
  mk_client_fs (mk_geo 0 0 0 0 0 0 (mk_pool_sgmt 0 0 0 0) (mk_slab_sgmt 0)) 0 None None None None None.

Definition cf_set_entries (e : option (list fla_pool_entry)) (f : client_fs) : client_fs :=
  mk_client_fs (cf_geo f) (cf_lb_nbytes f) (cf_dev_uri f) (cf_md_dev_uri f) e (cf_dev f) (cf_md_dev f).

(** The system calls of connections and socket files, with their results. *)
Class UnixEnv (N : Type) := {
  sys_socket : N -> N * Z;
  sys_connect : N -> Z -> list Z -> N * Z;
  sys_bind : N -> Z -> list Z -> N * Z;
  sys_listen : N -> Z -> Z -> N * Z;
  sys_access : N -> list Z -> Z;
  sys_unlink : N -> list Z -> N * Z;
  sys_close_err : N -> Z -> N * Z
}.

(** [fla_sock_sockaddr_init]: the path in the address, 108 bytes long.  The byte past
    the 107 that [strncpy] fills is left as it is, here a zero. *)
Definition fla_sock_sockaddr_init (socket_path : list Z) : option (option (list Z) * Z) :=
  n ← strlen socket_path;
  if (107 <? n)%nat then Some (None, -1)
  else Some (Some (take n socket_path ++ replicate (108 - n) 0), 0).

Section client.
Context {C N : Type} `{XnvmeEnv C} `{!XnvmeAdm C} `{SockEnv N}.
Notation process := (process C N).

Definition pr_set_cl (cl : fla_daemon_client) (p : process) : process := mk_process (pr_c p) (pr_n p) cl.
Definition pr_set_c (c : C) (p : process) : process := mk_process c (pr_n p) (pr_cl p).
Definition pr_set_n (n : N) (p : process) : process := mk_process (pr_c p) n (pr_cl p).
Definition pr_set_send (b : list Z) (p : process) : process :=
  pr_set_cl (mk_client (cl_fs (pr_cl p)) (cl_version (pr_cl p)) (cl_sock_fd (pr_cl p)) b (cl_recv (pr_cl p))) p.
Definition pr_set_recv (b : list Z) (p : process) : process :=
  pr_set_cl (mk_client (cl_fs (pr_cl p)) (cl_version (pr_cl p)) (cl_sock_fd (pr_cl p)) (cl_send (pr_cl p)) b) p.
Definition pr_set_fs (f : client_fs) (p : process) : process :=
  pr_set_cl (mk_client f (cl_version (pr_cl p)) (cl_sock_fd (pr_cl p)) (cl_send (pr_cl p)) (cl_recv (pr_cl p))) p.
Definition pr_send (p : process) : list Z := cl_send (pr_cl p).
Definition pr_recv (p : process) : list Z := cl_recv (pr_cl p).
Definition pr_fs (p : process) : client_fs := cl_fs (pr_cl p).

(** ** Requests *)

Definition fla_send_recv (p : process) : option (process * Z) :=
  '(n, err) ← fla_sock_send_msg (pr_n p) (cl_sock_fd (pr_cl p)) (pr_send p);
  let p := pr_set_n n p in
  if negb (err =? 0) then Some (p, err) else
  '(n, recv, err) ← fla_sock_recv_msg (pr_n p) (cl_sock_fd (pr_cl p)) (pr_recv p);
  Some (pr_set_recv recv (pr_set_n n p), err).

(** A request with the data [bs], then the exchange. *)
Definition request (p : process) (cmd : Z) (bs : list Z) : option (process * Z) :=
  b ← data_put (pr_send p) 0 bs;
  fla_send_recv (pr_set_send (set_hdr_cmd cmd (set_hdr_len (Z.of_nat (length bs)) b)) p).

(** The error code at the start of the answer. *)
Definition answer_err (p : process) : option Z := bs ← data_get (pr_recv p) 0 4; Some (int_load bs).

Definition fla_daemon_identify_rq (p : process) : option (process * option fla_sys_identity * Z) :=
  '(p, err) ← request p FLA_MSG_CMD_IDENTIFY [];
  if negb (err =? 0) then Some (p, None, err) else
  bs ← data_get (pr_recv p) 0 sizeof_identity;
  Some (p, Some (identity_load bs), 0).

(** [calloc] of the entries: all bytes zero. *)
Definition zero_entries (n : Z) : list fla_pool_entry :=
  replicate (Z.to_nat n) (pool_entry_load (replicate 160 0)).

(** From the lengths in the answer on: the URIs, the entries and the devices. *)
Definition fs_init_open (p : process) (md_dev_uri_len : Z) : option (process * Z) :=
  let f := pr_fs p in
  let failed uri := mk_client_fs (cf_geo f) (cf_lb_nbytes f) None (cf_md_dev_uri f) None (cf_dev f) uri in
  let '(c, ok) := malloc (pr_c p) (sizeof_pool_entry * g_npools (cf_geo f)) in
  let p := pr_set_c c p in
  if negb ok then Some (pr_set_fs (failed (match cf_md_dev_uri f with Some _ => None | None => cf_md_dev f end)) p, - ENOMEM)
  else
  dev_uri ← cf_dev_uri f;
  let '(c, dev, err) := fla_xne_dev_open (pr_c p) dev_uri None in
  let p := pr_set_c c p in
  if negb (err =? 0) then Some (pr_set_fs (failed (match cf_md_dev_uri f with Some _ => None | None => cf_md_dev f end)) p, err)
  else
  let opened md := mk_client_fs (cf_geo f) (cf_lb_nbytes f) (Some dev_uri) (cf_md_dev_uri f)
                     (Some (zero_entries (g_npools (cf_geo f)))) dev md in
  if md_dev_uri_len =? 0 then Some (pr_set_fs (opened (cf_md_dev f)) p, 0) else
  md_uri ← cf_md_dev_uri f;
  let '(c, md_dev, err) := fla_xne_dev_open (pr_c p) md_uri None in
  let p := pr_set_c c p in
  if negb (err =? 0) then
    Some (pr_set_fs (mk_client_fs (cf_geo f) (cf_lb_nbytes f) None (cf_md_dev_uri f) None dev None) p, err)
  else Some (pr_set_fs (opened md_dev) p, 0).

Definition fla_daemon_fs_init_rq (p : process) : option (process * Z) :=
  send ← data_put (pr_send p) 0 (replicate (Z.to_nat FLA_MSG_DATA_MAX) 0);
  recv ← data_put (pr_recv p) 0 (replicate (Z.to_nat FLA_MSG_DATA_MAX) 0);
  '(p, err) ← request (pr_set_send send (pr_set_recv recv p)) FLA_MSG_CMD_INIT_INFO [];
  if negb (err =? 0) then Some (p, err) else
  geo ← data_get (pr_recv p) 0 sizeof_fla_geo;
  let geo := geo_load geo in
  l ← data_get (pr_recv p) sizeof_fla_geo 8;
  let dev_uri_len := field l 0 8 in
  let f := pr_fs p in
  let fs uri md := mk_client_fs geo (g_lb_nbytes geo) uri md (cf_entries f) (cf_dev f) (cf_md_dev f) in
  let '(c, ok) := malloc (pr_c p) (u64 (dev_uri_len + 1)) in
  let p := pr_set_c c p in
  uri ← fla_strndup ok (drop (8 + 56) (pr_recv p)) (Z.to_nat dev_uri_len);
  match uri with
  | None => Some (pr_set_fs (fs None (cf_md_dev_uri f)) p, - ENOMEM)
  | Some uri =>
      let off := sizeof_fla_geo + 8 + dev_uri_len in
      m ← data_get (pr_recv p) off 8;
      let md_dev_uri_len := field m 0 8 in
      if md_dev_uri_len =? 0 then fs_init_open (pr_set_fs (fs (Some uri) None) p) md_dev_uri_len else
      let '(c, ok) := malloc (pr_c p) (u64 (md_dev_uri_len + 1)) in
      let p := pr_set_c c p in
      md ← fla_strndup ok (drop (Z.to_nat (8 + off + 8)) (pr_recv p)) (Z.to_nat md_dev_uri_len);
      match md with
      | None => Some (pr_set_fs (fs None None) p, - ENOMEM)
      | Some md => fs_init_open (pr_set_fs (fs (Some uri) (Some md)) p) md_dev_uri_len
      end
  end.

Definition fla_daemon_close_rq (p : process) : option (process * Z) :=
  let cl := pr_cl p in
  if cl_sock_fd cl =? 0 then Some (p, 0) else
  let p := pr_set_send (set_hdr_len 0 (set_hdr_cmd FLA_MSG_CMD_SYNC_NO_RSPS (pr_send p))) p in
  '(n, err) ← fla_sock_send_msg (pr_n p) (cl_sock_fd cl) (pr_send p);
  if negb (err =? 0) then Some (pr_set_n n p, err) else
  let n := sys_close n (cl_sock_fd cl) in
  let f := pr_fs p in
  let f := mk_client_fs (cf_geo f) (cf_lb_nbytes f) None (cf_md_dev_uri f) None None None in
  Some (mk_process (pr_c p) n (mk_client f (cl_version cl) 0 (pr_send p) (pr_recv p)), 0).

(** The daemon's error code is not looked at. *)
Definition fla_daemon_sync_rq (p : process) : option (process * Z) :=
  '(p, err) ← request p FLA_MSG_CMD_SYNC [];
  if negb (err =? 0) then Some (p, err) else Some (p, 0).

(** The copy of the handle and of the entry in an answer. *)
Definition pool_answer (p : process) : option (process * fla_pool) :=
  bs ← data_get (pr_recv p) 4 sizeof_fla_pool;
  let pool := pool_load bs in
  entries ← cf_entries (pr_fs p);
  _ ← lookupZ entries (p_ndx pool);
  e ← data_get (pr_recv p) (4 + sizeof_fla_pool) sizeof_pool_entry;
  Some (pr_set_fs (cf_set_entries (Some (insertZ (p_ndx pool) (pool_entry_load e) entries)) (pr_fs p)) p, pool).

Definition fla_daemon_pool_open_rq (p : process) (name : list Z) : option (process * option fla_pool * Z) :=
  name_len ← fla_strnlen name (Z.to_nat FLA_NAME_SIZE_POOL);
  if Z.of_nat name_len =? FLA_NAME_SIZE_POOL then Some (p, None, 1) else
  let '(c, ok) := malloc (pr_c p) sizeof_fla_pool in
  let p := pr_set_c c p in
  if negb ok then Some (p, None, - ENOMEM) else
  '(p, err) ← request p FLA_MSG_CMD_POOL_OPEN (take name_len name);
  if negb (err =? 0) then Some (p, None, err) else
  err ← answer_err p;
  if negb (err =? 0) then Some (p, None, err) else
  '(p, pool) ← pool_answer p;
  Some (p, Some pool, 0).

Definition fla_daemon_pool_close_rq (p : process) (handle : fla_pool) : process := p.

(** The length of the message is not assigned.  [addr] is the value of the name's
    pointer. *)
Definition fla_daemon_pool_create_rq (p : process) (arg : fla_pool_create_arg) (addr : Z) :
    option (process * option fla_pool * Z) :=
  let '(c, ok) := malloc (pr_c p) sizeof_fla_pool in
  let p := pr_set_c c p in
  if negb ok then Some (p, None, - ENOMEM) else
  b ← data_put (pr_send p) 0 (create_arg_bytes addr arg);
  name ← buf_get (a_name arg) 0 (a_name_len arg);
  b ← data_put b sizeof_create_arg name;
  '(p, err) ← fla_send_recv (pr_set_send (set_hdr_cmd FLA_MSG_CMD_POOL_CREATE b) p);
  if negb (err =? 0) then Some (p, None, err) else
  err ← answer_err p;
  if negb (err =? 0) then Some (p, None, err) else
  '(p, pool) ← pool_answer p;
  Some (p, Some pool, 0).

Definition fla_daemon_pool_destroy_rq (p : process) (handle : fla_pool) : option (process * Z) :=
  '(p, err) ← request p FLA_MSG_CMD_POOL_DESTROY (pool_bytes handle);
  if negb (err =? 0) then Some (p, err) else
  err ← answer_err p; Some (p, err).

Definition fla_daemon_object_open_rq (p : process) (pool : fla_pool) (object : fla_object) : option (process * Z) :=
  '(p, err) ← request p FLA_MSG_CMD_OBJECT_OPEN (pool_bytes pool ++ object_bytes object);
  if negb (err =? 0) then Some (p, err) else
  err ← answer_err p; Some (p, err).

Definition fla_daemon_object_create_rq (p : process) (pool : fla_pool) : option (process * option fla_object * Z) :=
  '(p, err) ← request p FLA_MSG_CMD_OBJECT_CREATE (pool_bytes pool);
  if negb (err =? 0) then Some (p, None, err) else
  err ← answer_err p;
  if negb (err =? 0) then Some (p, None, err) else
  bs ← data_get (pr_recv p) 4 sizeof_fla_object;
  Some (p, Some (object_load bs), 0).

Definition fla_daemon_object_destroy_rq (p : process) (pool : fla_pool) (object : fla_object) : option (process * Z) :=
  '(p, err) ← request p FLA_MSG_CMD_OBJECT_DESTROY (pool_bytes pool ++ object_bytes object);
  if negb (err =? 0) then Some (p, err) else
  err ← answer_err p; Some (p, err).

Definition fla_daemon_pool_set_root_object_rq (p : process) (pool : fla_pool) (object : fla_object) (action : Z) :
    option (process * Z) :=
  '(p, err) ← request p FLA_MSG_CMD_POOL_SET_ROOT_OBJECT (pool_bytes pool ++ object_bytes object ++ le 4 action);
  if negb (err =? 0) then Some (p, err) else
  err ← answer_err p; Some (p, err).

Definition fla_daemon_pool_get_root_object_rq (p : process) (pool : fla_pool) :
    option (process * option fla_object * Z) :=
  '(p, err) ← request p FLA_MSG_CMD_POOL_GET_ROOT_OBJECT (pool_bytes pool);
  if negb (err =? 0) then Some (p, None, err) else
  err ← answer_err p;
  if negb (err =? 0) then Some (p, None, err) else
  bs ← data_get (pr_recv p) 4 sizeof_fla_object;
  Some (p, Some (object_load bs), 0).

(** ** Opening *)

Context `{!UnixEnv N}.

(** [fla_daemon_open] on a client structure whose fields are those of [p]: the second
    component says whether [client->flexalloc] is set. *)
Definition fla_daemon_open (p : process) (socket_path : list Z) : option (process * bool * Z) :=
  let set_fd fd p := pr_set_cl (mk_client (cl_fs (pr_cl p)) (cl_version (pr_cl p)) fd (pr_send p) (pr_recv p)) p in
  let socket_close p err :=
    Some (set_fd 0 (pr_set_n (sys_close (pr_n p) (cl_sock_fd (pr_cl p))) p), false, err) in
  let '(n, fd) := sys_socket (pr_n p) in
  let p := set_fd fd (pr_set_n n p) in
  if fd <? 0 then Some (p, false, 1) else
  '(addr, err) ← fla_sock_sockaddr_init socket_path;
  match addr with
  | None => socket_close p err
  | Some addr =>
      let '(n, err) := sys_connect (pr_n p) fd addr in
      let p := pr_set_n n p in
      if negb (err =? 0) then socket_close p err else
      let '(c, ok) := fla_fs_alloc (pr_c p) in
      let p := pr_set_c c p in
      if negb ok then socket_close p 0 else
      let p := pr_set_fs cf_zero p in
      '(p, identity, err) ← fla_daemon_identify_rq p;
      if negb (err =? 0) then socket_close p 0 else
      let p := pr_set_cl (mk_client (pr_fs p) (default (cl_version (pr_cl p)) identity) fd (pr_send p) (pr_recv p)) p in
      '(p, err) ← fla_daemon_fs_init_rq p;
      if negb (err =? 0) then socket_close p err else Some (p, true, err)
  end.

(** ** Creating and destroying a daemon *)

(** [fla_daemon_create]: [listen_fd], the path in [server] and [max_clients] of the
    daemon when it succeeds; the handler is a parameter of the loop. *)
Definition fla_daemon_create (c : C) (n : N) (socket_path : list Z) (max_clients conn_queue_length : Z) :
    option (C * N * option (Z * list Z * Z) * Z) :=
  if sys_access n socket_path =? 0 then Some (c, n, None, -1) else
  let '(c, ok) := fla_fs_alloc c in
  if negb ok then Some (c, n, None, - ENOMEM) else
  let '(n, fd) := sys_socket n in
  if fd <? 0 then Some (c, n, None, 1) else
  '(addr, _) ← fla_sock_sockaddr_init socket_path;
  match addr with
  | None => Some (c, n, None, -1)
  | Some addr =>
      let '(n, err) := sys_bind n fd addr in
      if err <? 0 then Some (c, n, None, err) else
      let '(n, err) := sys_listen n fd conn_queue_length in
      if err <? 0 then let '(n, _) := sys_unlink n addr in Some (c, n, None, -1)
      else Some (c, n, Some (fd, addr, max_clients), 0)
  end.

(** [fla_daemon_destroy] on the listening socket and the path of the address; the
    path is emptied when the file was removed. *)
Definition fla_daemon_destroy (n : N) (listen_fd : Z) (path : list Z) : option (N * Z * list Z * Z) :=
  let '(n, r) := if listen_fd =? 0 then (n, 0) else sys_close_err n listen_fd in
  if negb (r =? 0) then Some (n, listen_fd, path, -1) else
  c ← path !! 0%nat;
  if (c =? 0) || (sys_access n path =? 0) then Some (n, 0, path, 0) else
  let '(n, r) := sys_unlink n path in
  if negb (r =? 0) then Some (n, 0, path, -2) else Some (n, 0, 0 :: tail path, 0).
End client.

(** ** libflexalloc: dispatch through [fs->fns]

    A handle from [fla_open] has [base_fns], one from [fla_daemon_open] [client_fns]. *)

Inductive fla_fns := base_fns | client_fns.

Inductive fla_lib (W C N : Type) :=
  | lib_base (w : W) (h : handle)
  | lib_client (p : process C N).
Arguments lib_base {W C N}.
Arguments lib_client {W C N}.

Definition lib_fns {W C N} (l : fla_lib W C N) : fla_fns :=
  match l with lib_base _ _ => base_fns | lib_client _ => client_fns end.

Section lib.
Context {W C N : Type} `{XnvmeEnv W} `{!XnvmeAdm W} `{XnvmeEnv C} `{!XnvmeAdm C} `{SockEnv N}.
Notation fla_lib := (fla_lib W C N).

Definition set_h_fs (fs : flexalloc) (h : handle) : handle := mk_handle fs (h_dp h) (h_buf h).

Definition fla_close (l : fla_lib) : option (fla_lib * Z) :=
  match l with
  | lib_base w h => '(w, h, err) ← fla_base_close w h; Some (lib_base w h, err)
  | lib_client p => '(p, err) ← fla_daemon_close_rq p; Some (lib_client p, err)
  end.

Definition fla_sync (l : fla_lib) : option (fla_lib * Z) :=
  match l with
  | lib_base w h => '(w, h, err) ← fla_base_sync w h; Some (lib_base w h, err)
  | lib_client p => '(p, err) ← fla_daemon_sync_rq p; Some (lib_client p, err)
  end.

(** [addr] is the address of the name. *)
Definition fla_pool_create (l : fla_lib) (arg : fla_pool_create_arg) (addr : Z) : option (fla_lib * option fla_pool * Z) :=
  match l with
  | lib_base w h => '(w, fs, pool, err) ← fla_base_pool_create w (h_fs h) arg; Some (lib_base w (set_h_fs fs h), pool, err)
  | lib_client p => '(p, pool, err) ← fla_daemon_pool_create_rq p arg addr; Some (lib_client p, pool, err)
  end.

Definition fla_pool_destroy (l : fla_lib) (pool : fla_pool) : option (fla_lib * Z) :=
  match l with
  | lib_base w h => '(fs, err) ← fla_base_pool_destroy (h_fs h) pool; Some (lib_base w (set_h_fs fs h), err)
  | lib_client p => '(p, err) ← fla_daemon_pool_destroy_rq p pool; Some (lib_client p, err)
  end.

Definition fla_pool_open (l : fla_lib) (name : list Z) : option (fla_lib * option fla_pool * Z) :=
  match l with
  | lib_base w h => '(w, pool, err) ← fla_base_pool_open w (h_fs h) name; Some (lib_base w h, pool, err)
  | lib_client p => '(p, pool, err) ← fla_daemon_pool_open_rq p name; Some (lib_client p, pool, err)
  end.

Definition fla_pool_close (l : fla_lib) (pool : fla_pool) : fla_lib :=
  match l with
  | lib_base w h => l
  | lib_client p => lib_client (fla_daemon_pool_close_rq p pool)
  end.

Definition fla_object_create (l : fla_lib) (pool : fla_pool) : option (fla_lib * option fla_object * Z) :=
  match l with
  | lib_base w h => '(w, fs, o, err) ← fla_base_object_create w (h_fs h) pool; Some (lib_base w (set_h_fs fs h), o, err)
  | lib_client p => '(p, o, err) ← fla_daemon_object_create_rq p pool; Some (lib_client p, o, err)
  end.

Definition fla_object_open (l : fla_lib) (pool : fla_pool) (object : fla_object) : option (fla_lib * Z) :=
  match l with
  | lib_base w h => '(w, fs, err) ← fla_base_object_open w (h_fs h) pool object; Some (lib_base w (set_h_fs fs h), err)
  | lib_client p => '(p, err) ← fla_daemon_object_open_rq p pool object; Some (lib_client p, err)
  end.

Definition fla_object_destroy (l : fla_lib) (pool : fla_pool) (object : fla_object) : option (fla_lib * Z) :=
  match l with
  | lib_base w h => '(w, fs, err) ← fla_base_object_destroy w (h_fs h) pool object; Some (lib_base w (set_h_fs fs h), err)
  | lib_client p => '(p, err) ← fla_daemon_object_destroy_rq p pool object; Some (lib_client p, err)
  end.

Definition fla_pool_set_root_object (l : fla_lib) (pool : fla_pool) (object : fla_object) (act : Z) : option (fla_lib * Z) :=
  match l with
  | lib_base w h => '(fs, err) ← fla_base_pool_set_root_object (h_fs h) pool object act; Some (lib_base w (set_h_fs fs h), err)
  | lib_client p => '(p, err) ← fla_daemon_pool_set_root_object_rq p pool object act; Some (lib_client p, err)
  end.

Definition fla_pool_get_root_object (l : fla_lib) (pool : fla_pool) : option (fla_lib * option fla_object * Z) :=
  match l with
  | lib_base w h => '(o, err) ← fla_base_pool_get_root_object (h_fs h) pool; Some (l, o, err)
  | lib_client p => '(p, o, err) ← fla_daemon_pool_get_root_object_rq p pool; Some (lib_client p, o, err)
  end.
End lib.
