(* ===== verification/DaemonMain.v ===== *)
(** * DaemonMain: the program [flexalloc_daemon], [src/src/flexalloc_daemon.c]

    [main]: the options, the listening socket, opening the system, the loop and the end. *)
From S2P Require Import Prelude Util Freelist Hash XnvmeEnv Flexalloc PoolEntry Geometry CommandSet.
From S2P Require Import SlabList SlabCache Slab Pool Object Alloc DataPlacement Layout Format System History.
From S2P Require Import Socket Daemon DaemonLoop DaemonClient.

Definition MAX_CLIENTS : Z := 110.
Definition MAX_CONN_QUEUE : Z := 100.
Definition FLA_SYS_FLEXALLOC_TYPE : Z := 1000.
Definition FLA_SYS_FLEXALLOC_V1 : Z := 1.

(** The options as [getopt_long] returns them; the result is [socket_path], [device] and
    [md_device]. *)
Fixpoint daemon_options (opts : list (Z * option (list Z))) (socket_path device md_device : option (list Z)) :
    option (list Z) * option (list Z) * option (list Z) :=
  match opts with
  | [] => (socket_path, device, md_device)
  | (c, optarg) :: opts =>
      if c =? 115 then daemon_options opts optarg device md_device
      else if c =? 100 then daemon_options opts socket_path optarg md_device
      else if c =? 109 then daemon_options opts socket_path device optarg
      else daemon_options opts socket_path device md_device
  end.

Section main.
Context {W N : Type} `{XnvmeEnv W} `{XnvmeAdm W} `{SockEnv N} `{PollEnv N} `{UnixEnv N}.

(** The device is closed. *)
Definition close_dev (w : W) (n : N) (h : handle) (err : Z) : option (W * N * Z) :=
  '(w, _, _) ← fla_base_close w h; Some (w, n, err).

(** [stack], [recv] and [send] are the arrays of the loop before they are set. *)
Definition daemon_main (fuel : nat) (w : W) (n : N) (opts : list (Z * option (list Z))) (stack : list pollfd)
    (recv send : list Z) (name_addr : Z) : option (W * N * Z) :=
  match daemon_options opts None None None with
  | (Some socket_path, Some device, md_device) =>
      '(w, n, created, err) ← fla_daemon_create w n socket_path MAX_CLIENTS MAX_CONN_QUEUE;
      if negb (err =? 0) then Some (w, n, 1)
      else
        '(fd, addr, max_clients) ← created;
        '(w, h, err) ← fla_open w (mk_open_opts device md_device None);
        if negb (err =? 0) then Some (w, n, err)
        else
          h ← h;
          let d := mk_daemon h device md_device (mk_identity FLA_SYS_FLEXALLOC_TYPE FLA_SYS_FLEXALLOC_V1) fd max_clients name_addr in
          '(s, err) ← fla_daemon_loop msg_handler fuel (mk_server w n d recv send) stack;
          if negb (err =? 0) then close_dev (sv_w s) (sv_n s) (dm_flexalloc (sv_d s)) err
          else
            '(n, _, _, err) ← fla_daemon_destroy (sv_n s) fd addr;
            if negb (err =? 0) then close_dev (sv_w s) n (dm_flexalloc (sv_d s)) err
            else Some (sv_w s, n, 0)
  | _ => Some (w, n, 2)
  end.
End main.

(** ** What a client created is lost

    The device of [History], formatted and without pools, and a client that connects as
    descriptor 7, asks for a pool called a with objects of 10 blocks and closes. *)
#[local] Instance ex_unix : UnixEnv net := {
  sys_socket n := (n, 3); sys_connect n _ _ := (n, -1); sys_bind n _ _ := (n, 0); sys_listen n _ _ := (n, 0);
  sys_access _ _ := -1; sys_unlink n _ := (n, 0); sys_close_err n _ := (n, 0)
}.

Definition ex_message : list Z :=
  le 4 (sizeof_create_arg + 2) ++ le 2 FLA_MSG_CMD_POOL_CREATE ++ le 2 0 ++ create_arg_bytes 0 (ex_arg 97 10) ++ [97; 0].
Definition ex_clients : net := mk_net {[7 := mk_conn ex_message [] true]} 3 [7] [true; true; true] 0.
Definition ex_options : list (Z * option (list Z)) := [(115, Some [115; 0]); (100, Some [100; 0])].
Definition ex_main : option (RamDisk.world * net * Z) :=
  daemon_main 5 ex_disk ex_clients ex_options (replicate 110 (mk_pollfd 99 99 99)) (replicate 2056 0) (replicate 2056 0) 0.

(** The server when the loop has ended. *)
Definition ex_served : option (server RamDisk.world net) :=
  '(w, h, _) ← fla_open ex_disk (mp_open_opts ex_request); h ← h;
  '(s, _) ← fla_daemon_loop msg_handler 5 (mk_server w ex_clients (mk_daemon h [100; 0] None
      (mk_identity FLA_SYS_FLEXALLOC_TYPE FLA_SYS_FLEXALLOC_V1) 3 MAX_CLIENTS 0) (replicate 2056 0) (replicate 2056 0))
    (replicate 110 (mk_pollfd 99 99 99));
  Some s.

(** Looking up the pool in a system, and in the system on a device. *)
Definition ex_found (w : RamDisk.world) (h : handle) : option (option fla_pool * Z) :=
  '(_, p, err) ← fla_base_pool_open w (h_fs h) [97; 0]; Some (p, err).
Definition ex_reopened (w : RamDisk.world) : option (option fla_pool * Z) :=
  '(w, h, _) ← fla_open w (mp_open_opts ex_request); h ← h; ex_found w h.

(** The pool is in the server's system, the program then ends with status 0 and leaves
    the device as it was, and the pool is not there when the device is opened again. *)
Theorem daemon_loses_changes : exists s n, ex_served = Some s /\ ex_found (sv_w s) (dm_flexalloc (sv_d s)) = Some (Some ex_pool, 0) /\
  ex_main = Some (sv_w s, n, 0) /\ ex_reopened (sv_w s) = Some (None, -1).
Proof.
  assert (match ex_served, ex_main with
          | Some s, Some (w, n, err) => w = sv_w s /\ err = 0 /\ ex_found (sv_w s) (dm_flexalloc (sv_d s)) = Some (Some ex_pool, 0) /\
              ex_reopened w = Some (None, -1)
          | _, _ => False end) as Hx by (vm_compute; split_and!; reflexivity).
  destruct ex_served as [s|]; [|done]. destruct ex_main as [[[w n] err]|]; [|done]. destruct Hx as (-> & -> & Hf & Hr). exists s, n.
  split_and!; [reflexivity|exact Hf|reflexivity|exact Hr].
Qed.

(** Without a socket path or a device nothing is opened. *)
Lemma daemon_main_usage {W N} `{XnvmeEnv W} `{XnvmeAdm W} `{SockEnv N} `{PollEnv N} `{UnixEnv N} fuel (w : W) (n : N) opts stack recv send a :
  (daemon_options opts None None None).1.1 = None \/ (daemon_options opts None None None).1.2 = None ->
  daemon_main fuel w n opts stack recv send a = Some (w, n, 2).
Proof. unfold daemon_main. destruct (daemon_options _ _ _ _) as [[[|] [|]] ?]; by intros [|]. Qed.
