(* ===== verification/Cli.v ===== *)
(** * Cli: the command lines of the programs

    The tables of options of [mkfs.flexalloc], [fla_inspect] and [flexalloc_daemon], the
    help they print ([src/src/flexalloc_cli_common.c]) and the programs from their
    arguments on: [main] of [Mkfs], [Inspect] and [DaemonMain] applied to what
    [getopt_long] makes of the arguments. *)
From Stdlib Require Import String Ascii.
From S2P Require Import Prelude Util Getopt Freelist Hash XnvmeEnv Flexalloc PoolEntry Geometry CommandSet.
From S2P Require Import SlabList SlabCache Slab Pool Object Alloc DataPlacement Layout Format System History Mkfs.
From S2P Require Import Introspection Inspect Socket Daemon DaemonLoop DaemonClient DaemonMain.

Definition chars (s : string) : list Z := (fun a => Z.of_N (N_of_ascii a)) <$> list_ascii_of_string s.
Definition char_of (s : string) : Z := default 0 (head (chars s)).

(** [struct cli_option]. *)
Record cli_option := mk_cli { co_base : long_option; co_description : list Z; co_arg_ex : option (list Z) }.

Definition cli (name : string) (kind : arg_kind) (c : string) (description : string) (arg_ex : option string) : cli_option :=
  mk_cli (mk_long (chars name) kind (char_of c)) (chars description) (chars <$> arg_ex).

(** ** Printing the options *)

Definition ARG_BUFLEN : nat := 384.

(** [sprintf] into the buffer; [None] is a write past its end or a null [arg_ex]. *)
Definition fmt_arg (o : cli_option) : option (list Z) :=
  s ← match lo_has_arg (co_base o) with
      | no_argument => Some (chars "--" ++ lo_name (co_base o))
      | _ => ex ← co_arg_ex o; Some (chars "--" ++ lo_name (co_base o) ++ chars "=" ++ ex)
      end;
  if (length s <? ARG_BUFLEN)%nat then Some s else None.

Fixpoint longest_arg (options : list cli_option) (longest : nat) : option nat :=
  match options with
  | [] => Some longest
  | o :: options =>
      s ← fmt_arg o;
      longest_arg options (if (longest <? length s)%nat then length s else longest)
  end.

Definition newline : Z := 10.
Definition tab : Z := 9.

(** [" -%c, %-*s\t%s\n"]. *)
Definition option_line (longest : nat) (o : cli_option) : option (list Z) :=
  s ← fmt_arg o;
  Some (chars " -" ++ [lo_val (co_base o)] ++ chars ", " ++ s ++ replicate (longest - length s) (char_of " ") ++ [tab] ++
    co_description o ++ [newline]).

Definition print_options (options : list cli_option) : option (list Z) :=
  longest ← longest_arg options 0;
  lines ← mapM (option_line longest) options;
  Some (chars "Options:" ++ [newline] ++ concat lines ++ [newline; newline]).

(** ** The tables *)

Definition mkfs_options : list cli_option :=
  [ cli "slba-nlb" required_argument "s" "size of slab in logical blocks" (Some "NUM"%string);
    cli "pools" required_argument "p" "number of pools" (Some "NUM"%string);
    cli "help" no_argument "h" "display this help" None;
    cli "verbose" no_argument "v" "display additional information..!" None;
    mk_cli (mk_long (chars "md_dev") optional_argument (char_of "m")) (chars "MD device to use" ++ [newline])
      (Some (chars "/path/to/md_device")) ].
Definition mkfs_optstring : list Z := chars "vhs:p:m:".

Definition inspect_options : list cli_option := [ cli "help" no_argument "h" "display this help" None ].
Definition inspect_optstring : list Z := chars "h".

Definition daemon_cli_options : list cli_option :=
  [ cli "socket" required_argument "s" "path of where to create the UNIX socket" (Some "PATH"%string);
    cli "device" required_argument "d" "path of device containing the FlexAlloc system" (Some "DEVICE"%string);
    mk_cli (mk_long (chars "md_device") optional_argument (char_of "m")) (chars "path to metadata device" ++ [newline])
      (Some (chars "DEVICE")) ].
Definition daemon_optstring : list Z := chars "vs:d:m:".

Definition fla_mkfs_help : option (list Z) :=
  os ← print_options mkfs_options;
  Some (chars "Usage: mkfs.flexalloc [options] device" ++ [newline; newline] ++
        chars "Initialize device for use with flexalloc" ++ [newline; newline] ++ os).
Definition fla_inspect_help : option (list Z) :=
  os ← print_options inspect_options;
  Some (chars "Usage: fla_inspect [options] device" ++ [newline; newline] ++
        chars "Inspect flexalloc system state." ++ [newline; newline] ++ os).
Definition fla_daemon_usage : option (list Z) :=
  os ← print_options daemon_cli_options;
  Some (chars "Usage: flexalloc_daemon [options]" ++ [newline; newline] ++
        chars "Provide mediated access to a FlexAlloc system via a daemon" ++ [newline; newline] ++ os).

(** ** The programs *)

Section programs.
Context {W N : Type} `{XnvmeEnv W} `{XnvmeAdm W} `{SockEnv N} `{PollEnv N} `{UnixEnv N}.

Definition mkfs_getopt (args : list (list Z)) : list (Z * option (list Z)) * list (list Z) :=
  getopt_long mkfs_optstring (co_base <$> mkfs_options) args.
Definition mkfs_command (w : W) (args : list (list Z)) (geo0 md_geo0 : fla_geo) (junk : fla_pool * fla_object * Z) : option (W * Z) :=
  let '(opts, rest) := mkfs_getopt args in mkfs_main w opts rest geo0 md_geo0 junk.

Definition inspect_command (w : W) (args : list (list Z)) : option (W * option (Z * Z * Z * Z) * Z) :=
  let '(opts, rest) := getopt_long inspect_optstring (co_base <$> inspect_options) args in
  if existsb (fun o => o.1 =? char_of "h") opts then Some (w, None, 0) else
  match rest with
  | [] => Some (w, None, -1)
  | dev :: _ => fla_inspect w (mk_open_opts dev None None)
  end.

Definition daemon_command (fuel : nat) (w : W) (n : N) (args : list (list Z)) (stack : list pollfd) (recv send : list Z) (name_addr : Z) :
    option (W * N * Z) :=
  daemon_main fuel w n (getopt_long daemon_optstring (co_base <$> daemon_cli_options) args).1 stack recv send name_addr.
End programs.

(** ** The help tells the truth

    Every option of a table is accepted as the help shows it, [--name=ARG] or [--name],
    and with its letter. *)
Definition shown (optstring : list Z) (options : list cli_option) (o : cli_option) (v : list Z) : Prop :=
  let longopts := co_base <$> options in
  let val := lo_val (co_base o) in
  let arg := if decide (lo_has_arg (co_base o) = no_argument) then None else Some v in
  let line its := getopt_long optstring longopts (concat (spelled <$> its)) = ([(val, c_string <$> arg)], []) in
  line [ILong (lo_name (co_base o)) arg] /\
  match arg with None => line [IShort val []] | Some v => line [IShortNext val v] end.

Lemma options_shown : forall v,
  Forall (fun o => shown mkfs_optstring mkfs_options o v) mkfs_options /\
  Forall (fun o => shown inspect_optstring inspect_options o v) inspect_options /\
  Forall (fun o => shown daemon_optstring daemon_cli_options o v) daemon_cli_options.
Proof. intros v. split_and!; repeat (constructor; [split; vm_compute; reflexivity|]); constructor. Qed.

(** ** [mkfs.flexalloc] *)

Lemma mkfs_getopt_run args : getopt_run (mkfs_getopt args).1.
Proof.
  eapply Forall_impl; [apply getopt_lacks|]. intros [c [a|]] Hl Hc; [done|]. exfalso. cbn [fst] in Hc.
  destruct (Hl eq_refl) as [Hq|[(k & Hk & Hr)|(lo & Hin & Hv & Hr)]]; cbn [fst] in *.
  - unfold QUESTION in Hq. lia.
  - destruct Hc as [-> | ->]; vm_compute in Hk; injection Hk as <-; done.
  - unfold mkfs_options in Hin. rewrite !fmap_cons, !elem_of_cons in Hin.
    destruct Hin as [->|[->|[->|[->|[->|Hin]]]]]; try (by apply Hr); try (vm_compute in Hv; lia). by apply not_elem_of_nil in Hin.
Qed.

(** A line of items, and the operands behind a ["--"]. *)
Definition line (its : list item) (tail : option (list (list Z))) : list (list Z) :=
  concat (spelled <$> its) ++ from_option (fun ops => [MINUS; MINUS] :: ops) [] tail.
Definition mkfs_item_ok (it : item) : Prop := item_ok mkfs_optstring (co_base <$> mkfs_options) it.
Definition mkfs_item_option (it : item) : option (Z * option (list Z)) := item_option (co_base <$> mkfs_options) it.

Section mkfs.
Context {W : Type} `{E : XnvmeEnv W} `{A : XnvmeAdm W} (block : W -> xnvme_dev -> Z -> list Z).
Context `{!XnvmeLaws W block} `{!XnvmeAdmLaws W block}.

(** C17: What [mkfs.flexalloc] makes of its arguments.  Options and operands may be
    mixed and every option spelled long or short, abbreviated, its argument attached or
    in the next word: the program goes by the options and operands that were meant.
    Without a device, with more than one operand, without a slab size, or with a slab
    size or number of pools that is not a positive [int], nothing is touched and the
    exit status is not 0, unless help was asked for.  For every other line the program
    is the call of [fla_mkfs] with the device, the last metadata device, the last slab
    size and the last number of pools that were given, no metadata device and 0 pools
    where they were not; the exit status is 0 whatever that call returns.  When the call
    is one that [mkfs_request] describes (from 1 to 2^15 - 1 pools, on a conventional
    device that holds its own metadata, of 16 to 2^31 - 1 blocks of at least 512 bytes,
    and with metadata of less than 2^32 bytes), the program returns, and the device is
    formatted as asked when the call succeeds; of calls without pools or with a metadata
    device no more is said here. *)
Theorem mkfs_command_correct w args opts rest geo0 md_geo0 junk : mkfs_getopt args = (opts, rest) ->
  (forall its tail, Forall mkfs_item_ok its -> args = line its tail ->
     opts = omap mkfs_item_option its /\ rest = omap item_operand its ++ (c_string <$> default [] tail)) /\
  (args_ok opts rest = false ->
     exists status, mkfs_command w args geo0 md_geo0 junk = Some (w, status) /\ (status = 0 <-> given 104 opts <> [])) /\
  (args_ok opts rest = true -> exists pr, requested opts rest pr /\
     mkfs_command w args geo0 md_geo0 junk = (fun r => (r.1, 0)) <$> fla_mkfs w pr geo0 md_geo0 junk /\
     forall dev, mkfs_request dev pr ->
       exists w' err, fla_mkfs w pr geo0 md_geo0 junk = Some (w', err) /\ (err = 0 -> formatted block w' dev pr)).
Proof using All.
  intros Hg. split.
  - intros its tail Hok ->. unfold mkfs_getopt, line in Hg. rewrite getopt_line in Hg by done. by injection Hg as <- <-.
  - unfold mkfs_command. pose proof (mkfs_getopt_run args) as Hrun. rewrite Hg in Hrun |- *. by apply mkfs_program.
Qed.
End mkfs.

(** [mkfs.flexalloc --po=2 d -s 64]. *)
Definition ex_items : list item := [ILong (chars "po") (Some (chars "2")); IOperand (chars "d"); IShortNext (char_of "s") (chars "64")].

(** A line that formats a device, and one with a metadata device and no number of pools. *)
Lemma mkfs_command_correct_witness : line ex_items None = [chars "--po=2"; chars "d"; chars "-s"; chars "64"] /\
  (mkfs_command ex_world (line ex_items None) ex_geo0 ex_geo0 ex_junk = Some (ex_disk, 0) /\ formatted RamDisk.block ex_disk ex_dev1k ex_request) /\
  mkfs_command ex_world [chars "-me"; chars "-s9"; chars "d"] ex_geo0 ex_geo0 ex_junk =
    (fun r => (r.1, 0)) <$> fla_mkfs ex_world (mk_mkfs_p (mk_open_opts [100; 0] (Some [101; 0]) None) 9 0) ex_geo0 ex_geo0 ex_junk.
Proof.
  split; [reflexivity|]. split.
  - destruct (mkfs_command_correct RamDisk.block ex_world (line ex_items None) [(112, Some [50; 0]); (115, Some [54; 52; 0])] [[100; 0]]
      ex_geo0 ex_geo0 ex_junk) as (_ & _ & Ha); [vm_compute; reflexivity|].
    destruct (Ha eq_refl) as (pr & (uri & s & [= <-] & [= <-] & ->) & Em & Hf).
    change (mk_mkfs_p _ _ _) with ex_request in Em, Hf. rewrite Em, ex_mkfs. split; [reflexivity|].
    destruct (Hf ex_dev1k ex_request_ok) as (w' & err & Ef & Hfm). rewrite ex_mkfs in Ef. apply Some2_inj in Ef as [<- <-]. exact (Hfm eq_refl).
  - destruct (mkfs_command_correct RamDisk.block ex_world [chars "-me"; chars "-s9"; chars "d"] [(109, Some [101; 0]); (115, Some [57; 0])] [[100; 0]]
      ex_geo0 ex_geo0 ex_junk) as (_ & _ & Ha); [vm_compute; reflexivity|].
    destruct (Ha eq_refl) as (pr & (uri & s & [= <-] & [= <-] & ->) & Em & _). exact Em.
Defined.
