(* ===== verification/Remote.v ===== *)
(** * Remote: requests answered by the daemon

    A client process connected to the daemon of [DaemonLoop]: its system calls act on
    the server's network, and waiting for an answer runs a pass of the daemon's loop.
    The theorems relate a request to the call of [base_fns] it stands for. *)
From S2P Require Import Prelude Util Hash XnvmeEnv Flexalloc PoolEntry SlabList SlabCache Slab Pool Object DataPlacement Layout System Socket Daemon DaemonLoop DaemonClient.

(** ** Messages as header and data *)

(** A message: the length, command and tag, and the data. *)
Definition message (cmd tag : Z) (bs : list Z) : list Z :=
  le 4 (Z.of_nat (length bs)) ++ le 2 cmd ++ le 2 tag ++ bs.

Lemma length_message cmd tag bs : length (message cmd tag bs) = (8 + length bs)%nat.
Proof. unfold message. rewrite !length_app, !length_le. lia. Qed.

Lemma message_hdr cmd tag bs rest : is_u16 cmd -> is_u16 tag -> Z.of_nat (length bs) < 2 ^ 32 ->
  hdr_len (message cmd tag bs ++ rest) = Z.of_nat (length bs) /\ hdr_cmd (message cmd tag bs ++ rest) = cmd /\
  hdr_tag (message cmd tag bs ++ rest) = tag.
Proof.
  intros Hc Ht Hb. unfold hdr_len, hdr_cmd, hdr_tag, message. rewrite <- !app_assoc. split_and!; read_field.
Qed.

Lemma message_data cmd tag bs rest : drop 8 (message cmd tag bs ++ rest) = bs ++ rest.
Proof.
  unfold message. rewrite <- app_assoc, drop_app_ge, length_le by (rewrite length_le; lia).
  rewrite <- app_assoc, drop_app_ge, length_le by (rewrite length_le; lia).
  rewrite <- app_assoc, drop_app_ge, length_le by (rewrite length_le; lia). apply drop_0.
Qed.

(** A buffer is a header of three fields and the data. *)
Lemma msg_buf_split b : msg_buf b -> exists h c t d, b = h ++ c ++ t ++ d /\ length h = 4%nat /\ length c = 2%nat /\
  length t = 2%nat /\ Z.of_nat (length d) = FLA_MSG_DATA_MAX.
Proof.
  intros [Hl _]. unfold FLA_MSG_BUFSIZ, sizeof_msg_header, FLA_MSG_DATA_MAX in *.
  exists (take 4 b), (take 2 (drop 4 b)), (take 2 (drop 6 b)), (drop 8 b).
  rewrite !length_take, !length_drop. split_and!; [|lia..].
  rewrite (app_assoc (take 4 b)), take_take_drop. rewrite (app_assoc (take (4 + 2) b)), take_take_drop.
  symmetry. apply take_drop.
Qed.

Section split.
Context (h c t d : list Z).
Context (Hh : length h = 4%nat) (Hc : length c = 2%nat) (Ht : length t = 2%nat).

Lemma set_len_split v : set_hdr_len v (h ++ c ++ t ++ d) = le 4 v ++ c ++ t ++ d.
Proof using Hh Hc Ht.
  unfold set_hdr_len, hdr_put. rewrite length_le. cbn [take app Nat.add].
  by rewrite drop_app_ge, Hh by lia.
Qed.

Lemma set_cmd_split v : set_hdr_cmd v (h ++ c ++ t ++ d) = h ++ le 2 v ++ t ++ d.
Proof using Hh Hc Ht.
  unfold set_hdr_cmd, hdr_put. rewrite length_le, take_app_le, take_ge by lia.
  rewrite drop_app_ge, Hh, drop_app_ge, Hc by lia. done.
Qed.

Lemma set_tag_split v : set_hdr_tag v (h ++ c ++ t ++ d) = h ++ c ++ le 2 v ++ d.
Proof using Hh Hc Ht.
  unfold set_hdr_tag, hdr_put. rewrite length_le, (app_assoc h).
  rewrite take_app_le, take_ge by (rewrite length_app; lia).
  rewrite drop_app_ge, length_app, Hh, Hc, drop_app_ge, Ht by (rewrite ?length_app; lia).
  by rewrite <- app_assoc.
Qed.

Lemma data_put_split off bs : 0 <= off -> off + Z.of_nat (length bs) <= Z.of_nat (length d) ->
  data_put (h ++ c ++ t ++ d) off bs =
  Some (h ++ c ++ t ++ (take (Z.to_nat off) d ++ bs ++ drop (Z.to_nat off + length bs) d)).
Proof using Hh Hc Ht.
  intros Ho Hl. unfold data_put, sizeof_msg_header. rewrite buf_put_in by (rewrite ?length_app; lia).
  replace (Z.to_nat (8 + off)) with (8 + Z.to_nat off)%nat by lia.
  rewrite !(app_assoc h), !(app_assoc (h ++ c)).
  assert (length ((h ++ c) ++ t) = 8%nat) as H8 by (rewrite !length_app; lia).
  rewrite take_app_ge, (drop_app_ge _ d), H8 by lia.
  rewrite <- app_assoc. replace (8 + Z.to_nat off - 8)%nat with (Z.to_nat off) by lia.
  by replace (8 + Z.to_nat off + length bs - 8)%nat with (Z.to_nat off + length bs)%nat by lia.
Qed.

Lemma data_get_split off n : 0 <= off -> 0 <= n -> off + n <= Z.of_nat (length d) ->
  data_get (h ++ c ++ t ++ d) off n = Some (take (Z.to_nat n) (drop (Z.to_nat off) d)).
Proof using Hh Hc Ht.
  intros Ho Hn Hl. unfold data_get, sizeof_msg_header. rewrite buf_get_some by (rewrite ?length_app; lia).
  rewrite !(app_assoc h), !(app_assoc (h ++ c)).
  assert (length ((h ++ c) ++ t) = 8%nat) as H8 by (rewrite !length_app; lia).
  rewrite drop_app_ge, H8 by lia. do 3 f_equal. lia.
Qed.
End split.

(** Filling the data from the front. *)
Lemma data_put_next h c t pre rest bs off : length h = 4%nat -> length c = 2%nat -> length t = 2%nat ->
  (length bs <= length rest)%nat -> off = Z.of_nat (length pre) ->
  data_put (h ++ c ++ t ++ (pre ++ rest)) off bs =
  Some (h ++ c ++ t ++ ((pre ++ bs) ++ drop (length bs) rest)).
Proof.
  intros Hh Hc Ht Hl ->. rewrite data_put_split by (rewrite ?length_app; lia). do 4 f_equal. rewrite Nat2Z.id.
  rewrite take_app_le, take_ge, drop_app_ge by lia. rewrite <- app_assoc. do 3 f_equal. lia.
Qed.

(** The data of a received message. *)
Lemma message_get cmd tag bs rest off n : 0 <= off -> 0 <= n -> off + n <= Z.of_nat (length bs) ->
  data_get (message cmd tag bs ++ rest) off n = Some (take (Z.to_nat n) (drop (Z.to_nat off) bs)).
Proof.
  intros Ho Hn Hl. unfold message. rewrite <- !app_assoc, data_get_split by (rewrite ?length_le, ?length_app; lia).
  rewrite drop_app_le, take_app_le by (rewrite ?length_drop; lia). done.
Qed.

(** ** Structures are read back *)

Lemma pool_load_bytes p : is_u64 (p_h2 p) -> is_u32 (p_ndx p) -> pool_load (pool_bytes p) = p.
Proof. destruct p as [a b]. unfold pool_load, pool_bytes. cbn [p_h2 p_ndx]. intros Ha Hb. f_equal; read_field. Qed.

Lemma object_load_bytes o : is_u32 (o_slab_id o) -> is_u32 (o_entry_ndx o) -> object_load (object_bytes o) = o.
Proof.
  destruct o as [a b]. unfold object_load, object_bytes. cbn [o_slab_id o_entry_ndx]. intros Ha Hb.
  rewrite <- (app_nil_r (le 4 b)). f_equal; read_field.
Qed.

Lemma int_load_bytes v : int_load (int_bytes v) = i32 v.
Proof.
  unfold int_load, int_bytes. rewrite <- (app_nil_r (le 4 _)). rewrite field_here by (pose proof (u32_range v); unfold is_u32 in *; cbn; lia).
  unfold i32, u32. rewrite Zplus_mod_idemp_l. done.
Qed.

(** ** Whole messages *)

Lemma send_whole {N} `{SockEnv N} n fd b bs n' :
  send (clear_errno n) fd (b :: bs) = (n', Z.of_nat (length (b :: bs))) ->
  fla_sock_send_bytes n fd (b :: bs) = Some (n', 0).
Proof.
  intros Hs. unfold fla_sock_send_bytes. cbn [length Nat.add send_loop]. rewrite Hs.
  rewrite (proj2 (Z.leb_gt _ _)) by (cbn; lia). rewrite Nat2Z.id, drop_ge by lia. by destruct (_ + _)%nat.
Qed.

Lemma send_message {N} `{SockEnv N} n fd cmd tag bs rest n' : is_u16 cmd -> is_u16 tag ->
  Z.of_nat (length bs) <= FLA_MSG_DATA_MAX ->
  send (clear_errno n) fd (message cmd tag bs) = (n', Z.of_nat (length (message cmd tag bs))) ->
  fla_sock_send_msg n fd (message cmd tag bs ++ rest) = Some (n', 0).
Proof.
  intros Hc Ht Hb Hs. unfold FLA_MSG_DATA_MAX in Hb. unfold fla_sock_send_msg.
  destruct (message_hdr cmd tag bs rest Hc Ht ltac:(lia)) as (-> & _ & _).
  rewrite buf_get_some by (rewrite ?length_app, ?length_message; unfold sizeof_msg_header; lia).
  rewrite drop_0, take_app_le, take_ge by (rewrite length_message; unfold sizeof_msg_header; lia).
  bind_step. apply send_whole. exact Hs.
Qed.

Section serve.
Context {W : Type} `{XnvmeEnv W} `{!XnvmeAdm W}.
Implicit Types (s : server W net) (l : loop W net).

(** The connection after an answer. *)
Definition answered_net (fd : Z) (m : list Z) (n : net) : net := set_conn fd (mk_conn [] m false) (clear_errno n).

Lemma reply_net s fd cmd tag bs rest : nt_conns (sv_n s) !! fd = Some (mk_conn [] [] false) ->
  sv_send s = message cmd tag bs ++ rest -> is_u16 cmd -> is_u16 tag -> Z.of_nat (length bs) <= FLA_MSG_DATA_MAX ->
  reply s fd = Some (sv_set_n (answered_net fd (message cmd tag bs) (sv_n s)) s, 0).
Proof.
  intros Hc Hs Hcmd Htag Hb. unfold reply. rewrite Hs.
  rewrite (send_message _ _ _ _ _ _ (answered_net fd (message cmd tag bs) (sv_n s)) Hcmd Htag Hb); [done|].
  cbn. unfold net_send, conn_of. cbn. rewrite Hc. done.
Qed.

Lemma net_read_some n fd peek k inb out closed : nt_conns n !! fd = Some (mk_conn inb out closed) -> inb <> [] -> 0 < k ->
  net_read n fd peek k = Some (if peek then n else set_conn fd (mk_conn (drop (Z.to_nat k) inb) out closed) n,
    Z.of_nat (length (take (Z.to_nat k) inb)), take (Z.to_nat k) inb).
Proof.
  intros Hc Hi Hk. unfold net_read, conn_of. rewrite Hc, (proj2 (Z.leb_gt _ _)) by done. cbn. by destruct inb.
Qed.

Lemma set_conn_twice fd c c' n : set_conn fd c (set_conn fd c' n) = set_conn fd c n.
Proof. unfold set_conn. cbn. by rewrite insert_insert_eq. Qed.

(** One message of a client is read into the receive buffer and handled. *)
Lemma serve_read l i fd cmd tag bs closed :
  nt_conns (lp_n l) !! fd = Some (mk_conn (message cmd tag bs) [] closed) -> is_u16 cmd -> is_u16 tag ->
  Z.of_nat (length bs) <= FLA_MSG_DATA_MAX -> msg_buf (sv_recv (lp_sv l)) ->
  serve_client msg_handler l i fd =
    ('(s, err) ← msg_handler (mk_server (sv_w (lp_sv l)) (set_conn fd (mk_conn [] [] closed) (lp_n l)) (sv_d (lp_sv l))
       (message cmd tag bs ++ drop (8 + length bs) (sv_recv (lp_sv l)))
       (set_hdr_tag tag (set_hdr_cmd cmd (sv_send (lp_sv l))))) fd;
     if negb (err =? 0) then l ← fla_daemon_client_disconnect (lp_set_sv s l) i; Some (l, true) else Some (lp_set_sv s l, true)).
Proof.
  intros Hc Hcmd Htag Hb Hm. pose proof (mb_length _ Hm) as Hl. unfold FLA_MSG_BUFSIZ, FLA_MSG_DATA_MAX, sizeof_msg_header in *.
  pose proof (length_message cmd tag bs) as Hlm. set (m := message cmd tag bs) in *. unfold serve_client.
  assert (net_read (lp_n l) fd false 8 = Some (set_conn fd (mk_conn (drop 8 m) [] closed) (lp_n l), 8, take 8 m)) as Hr1.
  { rewrite (net_read_some _ _ _ _ _ _ _ Hc), length_take by (lia || by destruct m). done. }
  change (sys_read (lp_n l) fd sizeof_msg_header) with (net_read (lp_n l) fd false 8). rewrite Hr1. bind_step.
  rewrite buf_put_0 by (rewrite length_take; lia). bind_step. change (negb (8 =? sizeof_msg_header)) with false. cbv iota.
  set (recv1 := take 8 m ++ _). destruct (hdr_take recv1 m) as (Hhl & _ & _).
  { unfold recv1. rewrite take_app_le, take_take, Nat.min_id by (rewrite length_take; lia). done. }
  destruct (message_hdr cmd tag bs [] Hcmd Htag ltac:(lia)) as (Hml & Hmc & Hmt). rewrite app_nil_r in Hml, Hmc, Hmt. fold m in Hml, Hmc, Hmt.
  rewrite Hhl, Hml. cbn [lp_n lp_set_sv lp_sv sv_set_recv sv_set_n sv_n sv_w sv_d sv_recv sv_send].
  change (sys_read ?n ?f ?k) with (net_read n f false k).
  assert (net_read (set_conn fd (mk_conn (drop 8 m) [] closed) (lp_n l)) fd false (Z.of_nat (length bs)) =
    Some (set_conn fd (mk_conn [] [] closed) (lp_n l), Z.of_nat (length bs), bs)) as ->.
  { assert (drop 8 m = bs) as Hd.
    { unfold m, message. rewrite !app_assoc, drop_app_ge by (rewrite !length_app, !length_le; lia).
      rewrite !length_app, !length_le. apply drop_0. }
    rewrite Hd. destruct bs as [|b bs']; [done|].
    rewrite (net_read_some _ _ _ _ (b :: bs') [] closed), set_conn_twice;
      [|by cbn; rewrite lookup_insert_eq|done|cbn; lia].
    rewrite Nat2Z.id, drop_ge, take_ge by lia. done. }
  bind_step. assert (take 8 m ++ bs = m) as Htm.
  { unfold m, message. rewrite !app_assoc, take_app_le by (rewrite !length_app, !length_le; lia).
    by rewrite take_ge by (rewrite !length_app, !length_le; lia). }
  assert (data_put recv1 0 bs = Some (m ++ drop (8 + length bs) (sv_recv (lp_sv l)))) as ->.
  { unfold data_put, recv1, sizeof_msg_header. rewrite length_take, Nat.min_l by lia.
    rewrite buf_put_in by (rewrite ?length_app, ?length_take, ?length_drop; lia).
    rewrite take_app_le, take_take, drop_app_ge, drop_drop by (rewrite ?length_take; lia).
    rewrite length_take, app_assoc. change (Z.to_nat (8 + 0)) with 8%nat. rewrite Nat.min_l, Nat.min_l, Htm by lia. do 3 f_equal. lia. }
  bind_step. destruct (hdr_take (m ++ drop (8 + length bs) (sv_recv (lp_sv l))) m) as (-> & -> & ->); [apply take_app_le; lia|].
  rewrite Hml, Hmc, Hmt, Z.eqb_refl. cbn [negb].
  match goal with |- context [msg_handler ?s ?f] => change (msg_handler s f) with (msg_handler (W := W) (mk_server (sv_w (lp_sv l))
    (set_conn fd (mk_conn [] [] closed) (lp_n l)) (sv_d (lp_sv l)) (m ++ drop (8 + length bs) (sv_recv (lp_sv l)))
    (set_hdr_tag tag (set_hdr_cmd cmd (sv_send (lp_sv l))))) fd) end.
  done.
Qed.

Lemma serve_message l i fd cmd tag bs s' :
  nt_conns (lp_n l) !! fd = Some (mk_conn (message cmd tag bs) [] false) -> is_u16 cmd -> is_u16 tag ->
  Z.of_nat (length bs) <= FLA_MSG_DATA_MAX -> msg_buf (sv_recv (lp_sv l)) ->
  msg_handler (mk_server (sv_w (lp_sv l)) (set_conn fd (mk_conn [] [] false) (lp_n l)) (sv_d (lp_sv l))
    (message cmd tag bs ++ drop (8 + length bs) (sv_recv (lp_sv l)))
    (set_hdr_tag tag (set_hdr_cmd cmd (sv_send (lp_sv l))))) fd = Some (s', 0) ->
  serve_client msg_handler l i fd = Some (lp_set_sv s' l, true).
Proof. intros Hc Hcmd Htag Hb Hm Hrun. by rewrite (serve_read l i fd cmd tag bs false Hc Hcmd Htag Hb Hm), Hrun. Qed.

(** ** A pass with one ready client *)

(** Entries [i .. i + k) are free or not ready. *)
Definition idle (l : loop W net) (i : Z) (k : nat) : Prop := forall j, i <= j < i + Z.of_nat k ->
  exists c, lookupZ (lp_clients l) j = Some c /\ (pf_fd c < 0 \/ pf_revents c = 0).

Lemma serve_skip k k' l i nready : idle l i k ->
  serve_clients msg_handler (k + k') l i nready = serve_clients msg_handler k' l (i + Z.of_nat k) nready.
Proof.
  revert i. induction k as [|k IH]; intros i Hi; [by rewrite Z.add_0_r|]. cbn [Nat.add serve_clients].
  destruct (Hi i) as (c & Hc & Hs); [lia|]. rewrite Hc. bind_step.
  assert ((pf_fd c <? 0) || (Z.land (pf_revents c) (Z.lor POLLIN POLLERR) =? 0) = true) as ->.
  { destruct Hs as [Hs| ->]; [by rewrite (proj2 (Z.ltb_lt _ _))|]. by rewrite orb_true_r. }
  rewrite IH; [f_equal; lia|]. intros j Hj. apply Hi. lia.
Qed.

(** The daemon's side of an idle connection in entry [i], nobody else being ready. *)
Record waiting (l : loop W net) (i fd : Z) : Prop := {
  wt_inv : loop_inv l;
  wt_listen : nt_listen (lp_n l) = dm_listen_fd (sv_d (lp_sv l));
  wt_backlog : nt_backlog (lp_n l) = [];
  wt_entry : 0 < i <= lp_max_ndx l /\ 0 <= fd /\ exists c, lookupZ (lp_clients l) i = Some c /\ pf_fd c = fd;
  wt_others : forall j c, j <> i -> 0 < j -> lookupZ (lp_clients l) j = Some c -> 0 <= pf_fd c ->
    pf_fd c <> fd /\ conn_ready (conn_of (lp_n l) (pf_fd c)) = false;
  wt_bufs : msg_buf (sv_recv (lp_sv l)) /\ msg_buf (sv_send (lp_sv l))
}.

(** What [poll] finds while the daemon waits for client [i]: nothing else. *)
Lemma waiting_idle l i fd j cj : waiting l i fd -> 0 < j <= lp_max_ndx l -> j <> i -> lookupZ (lp_clients l) j = Some cj ->
  pf_fd cj < 0 \/ net_revents (lp_n l) cj = 0.
Proof.
  intros [Hinv Hlst Hbl _ Hoth _] Hj Hji Hcj. destruct (Z.lt_ge_cases (pf_fd cj) 0) as [|Hge]; [by left|right].
  destruct (Hoth j cj Hji ltac:(lia) Hcj Hge) as [_ Hnr]. unfold net_revents.
  rewrite (proj2 (Z.ltb_ge _ _)), Hnr, Hbl by done. by destruct (_ =? _).
Qed.

Lemma waiting_listen l i fd c0 : waiting l i fd -> lookupZ (lp_clients l) 0 = Some c0 -> net_revents (lp_n l) c0 = 0.
Proof.
  intros [Hinv Hlst Hbl _ _ _] Hc0. destruct (so_listen _ _ _ _ _ Hinv) as [Hl0 _]. rewrite lookupZ_fmap, Hc0 in Hl0. injection Hl0 as Hl0.
  unfold net_revents. rewrite Hl0, <- Hlst, Z.eqb_refl, Hbl. by destruct (_ <? _).
Qed.

Lemma waiting_ready l i fd c : waiting l i fd -> conn_ready (conn_of (lp_n l) fd) = true -> lookupZ (lp_clients l) i = Some c -> pf_fd c = fd ->
  net_revents (lp_n l) c = POLLIN.
Proof.
  intros [Hinv Hlst _ (Him & Hfd & _) _ _] Hrdy Hc Hcfd.
  unfold net_revents. rewrite Hcfd, Hrdy, (proj2 (Z.ltb_ge _ _)), (proj2 (Z.eqb_neq _ _)); [done| |done].
  rewrite Hlst, <- Hcfd. apply (so_other _ _ _ _ _ Hinv i); [lia|]. by rewrite lookupZ_fmap, Hc.
Qed.

Lemma polled_revents l j cj : 0 <= j <= lp_max_ndx l -> lookupZ (lp_clients l) j = Some cj ->
  lookupZ (polled (lp_clients l) (net_revents (lp_n l) <$> take (Z.to_nat (lp_max_ndx l + 1)) (lp_clients l))) j =
    Some (pf_set_revents (net_revents (lp_n l) cj) cj).
Proof.
  intros Hj Hcj. unfold lookupZ in *. destruct (j <? 0); [done|]. apply polled_lookup; [done|].
  rewrite list_lookup_fmap, lookup_take_lt, Hcj by lia. done.
Qed.

Lemma ready_counted n cs k i c : lookupZ cs i = Some c -> (Z.to_nat i < k)%nat -> net_revents n c = POLLIN ->
  1 <= Z.of_nat (length (filter (fun r => r <> 0) (net_revents n <$> take k cs))).
Proof.
  intros Hc Hk Hr. assert (POLLIN ∈ filter (fun r => r <> 0) (net_revents n <$> take k cs)) as Hin.
  { apply list_elem_of_filter. split; [done|]. apply list_elem_of_fmap. exists c. split; [done|].
    apply (list_elem_of_lookup_2 _ (Z.to_nat i)). rewrite lookup_take_lt by done. unfold lookupZ in Hc. by destruct (i <? 0). }
  destruct (filter _ _); [by apply not_elem_of_nil in Hin|cbn; lia].
Qed.

Lemma pass_one l i fd s' : waiting l i fd -> conn_ready (conn_of (lp_n l) fd) = true ->
  (forall l', lp_sv l' = lp_sv l -> serve_client msg_handler l' i fd = Some (lp_set_sv s' l', true)) ->
  exists cs, loop_pass msg_handler l = Some (mk_loop s' cs (lp_max_ndx l) (lp_active l), None) /\
    pf_fd <$> cs = pf_fd <$> lp_clients l.
Proof.
  intros Hw Hrdy Hserve. pose proof Hw as [Hinv Hlst Hbl (Him & Hfd & c & Hc & Hcfd) Hoth _]. unfold loop_pass.
  cbn [poll net_poll_env]. unfold net_poll.
  pose proof (so_length _ _ _ _ _ Hinv) as Hlen. pose proof (so_max _ _ _ _ _ Hinv) as Hmax. rewrite length_fmap in Hlen.
  set (rs := net_revents (lp_n l) <$> _). set (l1 := lp_set_clients (polled (lp_clients l) rs) (lp_set_n (lp_n l) l)).
  assert (lp_sv l1 = lp_sv l) as Hsv by (unfold l1; destruct l as [[]]; done).
  assert (forall j cj, 0 <= j <= lp_max_ndx l -> lookupZ (lp_clients l) j = Some cj ->
    lookupZ (lp_clients l1) j = Some (pf_set_revents (net_revents (lp_n l) cj) cj)) as Hlk by (intros j cj; apply polled_revents).
  assert (forall j, 0 < j <= lp_max_ndx l -> j <> i -> exists cj, lookupZ (lp_clients l1) j = Some cj /\
    (pf_fd cj < 0 \/ pf_revents cj = 0)) as Hidle.
  { intros j Hj Hji. destruct (lookupZ_is_Some (lp_clients l) j) as [cj Hcj]; [lia|].
    exists (pf_set_revents (net_revents (lp_n l) cj) cj). split; [apply Hlk; [lia|done]|]. exact (waiting_idle l i fd j cj Hw Hj Hji Hcj). }
  pose proof (waiting_ready l i fd c Hw Hrdy Hc Hcfd) as Hri.
  assert (1 <= Z.of_nat (length (filter (fun r => r <> 0) rs))) as Hn by (eapply ready_counted; [exact Hc|lia|done]).
  set (nready := Z.of_nat _) in *. rewrite (proj2 (Z.eqb_neq _ _)), (proj2 (Z.ltb_ge _ _)) by lia.
  destruct (lookupZ_is_Some (lp_clients l) 0) as [c0 Hc0]; [lia|].
  rewrite (Hlk 0 c0) by (done || lia). bind_step. cbn [pf_revents pf_set_revents]. rewrite (waiting_listen l i fd c0 Hw Hc0).
  change (Z.land 0 POLLIN =? 0) with true. cbv iota. change (lp_max_ndx l1) with (lp_max_ndx l).
  replace (Z.to_nat (lp_max_ndx l)) with (Z.to_nat (i - 1) + S (Z.to_nat (lp_max_ndx l - i)))%nat by lia.
  rewrite serve_skip by (intros j Hj; apply Hidle; lia). cbn [serve_clients].
  replace (1 + Z.of_nat (Z.to_nat (i - 1))) with i by lia. rewrite (Hlk i c) by (done || lia). bind_step.
  cbn [pf_fd pf_revents pf_set_revents]. rewrite Hri, Hcfd, (proj2 (Z.ltb_ge _ _)) by done.
  change (false || _) with false. cbv iota. rewrite (Hserve l1 Hsv). bind_step. exists (polled (lp_clients l) rs).
  assert (pf_fd <$> polled (lp_clients l) rs = pf_fd <$> lp_clients l) as Hfds.
  { apply fds_polled. unfold rs. rewrite length_fmap, length_take. lia. }
  split; [|done]. destruct (_ <=? 0); [done|].
  rewrite <- (Nat.add_0_r (Z.to_nat (lp_max_ndx l - i))), serve_skip; [done|].
  intros j Hj. apply Hidle; lia.
Qed.

(** ** A request and its answer *)

Record answered (s s' : server W net) (fd : Z) (w : W) (d : fla_daemon) (m : list Z) : Prop := {
  an_w : sv_w s' = w;
  an_d : sv_d s' = d;
  an_keeps : keeps s s';
  an_net : sv_n s' = answered_net fd m (sv_n s);
  an_bufs : msg_buf (sv_recv s') /\ msg_buf (sv_send s')
}.

(** A server about to handle the message: it is in the receive buffer, the send buffer
    has its command and tag. *)
Record handling (s : server W net) (fd cmd tag : Z) (bs : list Z) : Prop := {
  hn_conn : nt_conns (sv_n s) !! fd = Some (mk_conn [] [] false);
  hn_recv : msg_buf (sv_recv s) /\ exists rest, sv_recv s = message cmd tag bs ++ rest;
  hn_send : msg_buf (sv_send s) /\ exists a d, sv_send s = a ++ le 2 cmd ++ le 2 tag ++ d /\ length a = 4%nat;
  hn_cmd : is_u16 cmd /\ is_u16 tag
}.

(** The daemon answers the request [bs] with [body], going from [w] and [d] to [w'] and [d']. *)
Definition serves (cmd : Z) (bs : list Z) (w : W) (d : fla_daemon) (w' : W) (d' : fla_daemon) (body : list Z) : Prop :=
  forall s fd tag, handling s fd cmd tag bs -> sv_w s = w -> sv_d s = d ->
    exists s', msg_handler s fd = Some (s', 0) /\ answered s s' fd w' d' (message cmd tag body).

Lemma prepared_handling l fd cmd tag bs : nt_conns (lp_n l) !! fd = Some (mk_conn (message cmd tag bs) [] false) ->
  is_u16 cmd -> is_u16 tag -> Z.of_nat (length bs) <= FLA_MSG_DATA_MAX -> Forall is_byte bs ->
  msg_buf (sv_recv (lp_sv l)) -> msg_buf (sv_send (lp_sv l)) ->
  handling (mk_server (sv_w (lp_sv l)) (set_conn fd (mk_conn [] [] false) (lp_n l)) (sv_d (lp_sv l))
    (message cmd tag bs ++ drop (8 + length bs) (sv_recv (lp_sv l)))
    (set_hdr_tag tag (set_hdr_cmd cmd (sv_send (lp_sv l))))) fd cmd tag bs.
Proof.
  intros Hc Hcmd Htag Hlen Hb Hr Hs. destruct (msg_buf_split _ Hs) as (a & b & t & d & He & Ha & Hb2 & Ht & Hd).
  assert (set_hdr_tag tag (set_hdr_cmd cmd (sv_send (lp_sv l))) = a ++ le 2 cmd ++ le 2 tag ++ d) as Heq.
  { rewrite He, set_cmd_split, set_tag_split by (rewrite ?length_le; lia). done. }
  split; cbn [sv_n sv_recv sv_send]; [by cbn; rewrite lookup_insert_eq| | |done].
  - split; [|by eexists]. destruct Hr as [Hl Hf]. unfold FLA_MSG_BUFSIZ, sizeof_msg_header, FLA_MSG_DATA_MAX in *. split.
    + rewrite length_app, length_message, length_drop. unfold FLA_MSG_BUFSIZ, sizeof_msg_header, FLA_MSG_DATA_MAX. lia.
    + unfold message. auto 10 using Forall_app_2, le_bytes, Forall_drop.
  - rewrite Heq. split; [|by exists a, d]. rewrite <- Heq.
    apply hdr_put_msg; [rewrite length_le; lia|apply le_bytes|].
    apply hdr_put_msg; [rewrite length_le; lia|apply le_bytes|done].
Qed.

(** ** The responses *)

Lemma recv_cmd s fd cmd tag bs : handling s fd cmd tag bs -> Z.of_nat (length bs) <= FLA_MSG_DATA_MAX ->
  hdr_cmd (sv_recv s) = cmd /\ hdr_len (sv_recv s) = Z.of_nat (length bs).
Proof.
  intros [_ [_ [rest ->]] _ [Hc Ht]] Hl. unfold FLA_MSG_DATA_MAX in Hl.
  destruct (message_hdr cmd tag bs rest Hc Ht ltac:(lia)) as (-> & -> & _). done.
Qed.

(** A send buffer filled with a whole answer. *)
Lemma reply_message s s1 fd cmd tag bs body d : handling s fd cmd tag bs -> sv_n s1 = sv_n s -> sv_recv s1 = sv_recv s ->
  keeps s s1 -> sv_send s1 = message cmd tag body ++ d -> Z.of_nat (length body) <= FLA_MSG_DATA_MAX ->
  Z.of_nat (length (sv_send s1)) = FLA_MSG_BUFSIZ -> Forall is_byte body -> Forall is_byte d ->
  exists s', reply s1 fd = Some (s', 0) /\ answered s s' fd (sv_w s1) (sv_d s1) (message cmd tag body).
Proof.
  intros Hh Hn Hr Hk Hs Hb Hlen Hbb Hbd. destruct (hn_cmd _ _ _ _ _ Hh) as [Hcmd Htag].
  rewrite (reply_net s1 fd cmd tag body d) by (rewrite ?Hn; (done || apply Hh)).
  eexists. split; [done|]. split; [done|done|done|by cbn; rewrite Hn|]. cbn [sv_recv sv_send sv_set_n]. rewrite Hr. split; [apply Hh|].
  split; [done|]. rewrite Hs. unfold message. auto 10 using Forall_app_2, le_bytes.
Qed.

(** An answer that is only an error code. *)
Lemma answer_reply s s1 fd cmd tag bs err : handling s fd cmd tag bs -> sv_n s1 = sv_n s -> sv_recv s1 = sv_recv s ->
  sv_send s1 = sv_send s -> keeps s s1 ->
  exists s', (s2 ← answer s1 err 4; reply s2 fd) = Some (s', 0) /\
    answered s s' fd (sv_w s1) (sv_d s1) (message cmd tag (int_bytes err)).
Proof.
  intros Hh Hn Hr Hs Hk. destruct (hn_send _ _ _ _ _ Hh) as [Hm (a & d & Hsd & Ha)].
  pose proof (mb_length _ Hm) as Hl. pose proof (mb_bytes _ Hm) as Hf. rewrite Hsd in Hl, Hf.
  rewrite !length_app, !length_le in Hl. unfold FLA_MSG_BUFSIZ, sizeof_msg_header, FLA_MSG_DATA_MAX in Hl.
  unfold answer. rewrite Hs, Hsd, data_put_split by (rewrite ?length_le; unfold int_bytes; rewrite ?length_le; lia).
  bind_step. rewrite set_len_split by (rewrite ?length_le; lia). set (b := le 4 4 ++ _).
  destruct (reply_message s (sv_set_send b s1) fd cmd tag bs (int_bytes err) (drop 4 d)) as (s' & E & A);
    [done..| | | | | |exists s'; split; [exact E|exact A]].
  - cbn [sv_send sv_set_send]. unfold b, message, int_bytes. rewrite length_le, <- !app_assoc. done.
  - unfold int_bytes, FLA_MSG_DATA_MAX. rewrite length_le. lia.
  - cbn [sv_send sv_set_send]. unfold b, int_bytes, FLA_MSG_BUFSIZ, sizeof_msg_header, FLA_MSG_DATA_MAX.
    rewrite !length_app, !length_le, length_take, length_drop. lia.
  - apply le_bytes.
  - apply Forall_drop. rewrite !Forall_app in Hf. apply Hf.
Qed.

Lemma handler_of s fd cmd tag bs rsp s' : handling s fd cmd tag bs -> Z.of_nat (length bs) <= FLA_MSG_DATA_MAX ->
  rsp_of cmd = Some rsp -> rsp s fd = Some (s', 0) -> msg_handler s fd = Some (s', 0).
Proof.
  intros Hh Hl Hr Hrun. unfold msg_handler. destruct (recv_cmd _ _ _ _ _ Hh Hl) as [-> _]. rewrite Hr, Hrun. done.
Qed.

Lemma length_pool_bytes p : length (pool_bytes p) = 16%nat.
Proof. unfold pool_bytes. by rewrite !length_app, !length_le. Qed.
Lemma length_object_bytes o : length (object_bytes o) = 8%nat.
Proof. unfold object_bytes. by rewrite !length_app, !length_le. Qed.

(** The arguments of a request in the receive buffer. *)
Lemma get_pool s fd cmd tag p rest : handling s fd cmd tag (pool_bytes p ++ rest) ->
  data_get (sv_recv s) 0 sizeof_fla_pool = Some (pool_bytes p).
Proof.
  intros [_ [_ [r ->]] _ _]. pose proof (length_pool_bytes p). unfold sizeof_fla_pool.
  rewrite message_get by (rewrite ?length_app; lia). change (Z.to_nat 0) with 0%nat. change (Z.to_nat 16) with 16%nat.
  by rewrite drop_0, take_app_le, take_ge by lia.
Qed.

Lemma get_object s fd cmd tag p o rest : handling s fd cmd tag (pool_bytes p ++ object_bytes o ++ rest) ->
  data_get (sv_recv s) sizeof_fla_pool sizeof_fla_object = Some (object_bytes o).
Proof.
  intros [_ [_ [r ->]] _ _]. pose proof (length_pool_bytes p). pose proof (length_object_bytes o).
  unfold sizeof_fla_pool, sizeof_fla_object. rewrite message_get by (rewrite ?length_app; lia).
  change (Z.to_nat 16) with 16%nat. change (Z.to_nat 8) with 8%nat.
  rewrite drop_app_ge, length_pool_bytes, Nat.sub_diag, drop_0, take_app_le, take_ge by lia. done.
Qed.

Lemma get_action s fd cmd tag p o a : handling s fd cmd tag (pool_bytes p ++ object_bytes o ++ le 4 a) ->
  data_get (sv_recv s) (sizeof_fla_pool + sizeof_fla_object) 4 = Some (le 4 a).
Proof.
  intros [_ [_ [r ->]] _ _]. pose proof (length_pool_bytes p). pose proof (length_object_bytes o).
  unfold sizeof_fla_pool, sizeof_fla_object. rewrite message_get by (rewrite ?length_app, ?length_le; lia).
  change (Z.to_nat (16 + 8)) with 24%nat. change (Z.to_nat 4) with 4%nat.
  rewrite app_assoc, drop_app_ge, length_app, length_pool_bytes, length_object_bytes by (rewrite length_app; lia).
  cbn [Nat.add Nat.sub]. rewrite drop_0, take_ge by (rewrite length_le; lia). done.
Qed.

Definition pool_fits (p : fla_pool) : Prop := is_u64 (p_h2 p) /\ is_u32 (p_ndx p).
Definition object_fits (o : fla_object) : Prop := is_u32 (o_slab_id o) /\ is_u32 (o_entry_ndx o).

Lemma sync_serves w d w' h' err : fla_base_sync w (dm_flexalloc d) = Some (w', h', err) ->
  serves FLA_MSG_CMD_SYNC [] w d w' (dm_set_flexalloc h' d) (int_bytes err).
Proof.
  intros Hrun s fd tag Hh Hw Hhd.
  destruct (answer_reply s (sv_set_h h' (sv_set_w w' s)) fd FLA_MSG_CMD_SYNC tag [] err Hh) as (s' & Hs' & Ha); [done..|].
  exists s'. split; [|by rewrite <- Hhd]. apply (handler_of s fd _ tag [] _ _ Hh ltac:(done) eq_refl). unfold fla_daemon_sync_rsp.
  unfold sv_h at 1. rewrite Hw, Hhd, Hrun. bind_step. exact Hs'.
Qed.

Lemma pool_destroy_serves w d w' fs' err p : pool_fits p -> malloc w sizeof_fla_pool = (w', true) ->
  fla_base_pool_destroy (h_fs (dm_flexalloc d)) p = Some (fs', err) ->
  serves FLA_MSG_CMD_POOL_DESTROY (pool_bytes p) w d w' (dm_set_flexalloc (set_h_fs fs' (dm_flexalloc d)) d) (int_bytes err).
Proof.
  intros [Hp1 Hp2] Hm Hrun s fd tag Hh Hw Hhd.
  assert (Z.of_nat (length (pool_bytes p)) <= FLA_MSG_DATA_MAX) as Hl by (by rewrite length_pool_bytes).
  destruct (answer_reply s (sv_set_fs fs' (sv_set_w w' s)) fd FLA_MSG_CMD_POOL_DESTROY tag (pool_bytes p) err Hh)
    as (s' & Hs' & Ha); [done..|].
  exists s'. split; [|by rewrite <- Hhd]. apply (handler_of s fd _ tag _ _ _ Hh Hl eq_refl).
  unfold fla_daemon_pool_destroy_rsp. destruct (recv_cmd _ _ _ _ _ Hh Hl) as [_ ->]. rewrite length_pool_bytes.
  change (negb (Z.of_nat 16 =? sizeof_fla_pool)) with false. cbv iota. rewrite Hw, Hm. cbn [negb]. cbn [sv_recv sv_set_w].
  rewrite <- (app_nil_r (pool_bytes p)) in Hh. rewrite (get_pool _ _ _ _ _ _ Hh). bind_step.
  rewrite pool_load_bytes by done. change (sv_fs (sv_set_w w' s)) with (h_fs (dm_flexalloc (sv_d s))). rewrite Hhd, Hrun. bind_step. exact Hs'.
Qed.

Lemma object_open_serves w d w' fs' err p o : pool_fits p -> object_fits o ->
  fla_base_object_open w (h_fs (dm_flexalloc d)) p o = Some (w', fs', err) ->
  serves FLA_MSG_CMD_OBJECT_OPEN (pool_bytes p ++ object_bytes o) w d w' (dm_set_flexalloc (set_h_fs fs' (dm_flexalloc d)) d) (int_bytes err).
Proof.
  intros [Hp1 Hp2] [Ho1 Ho2] Hrun s fd tag Hh Hw Hhd.
  assert (Z.of_nat (length (pool_bytes p ++ object_bytes o)) <= FLA_MSG_DATA_MAX) as Hl
    by (by rewrite length_app, length_pool_bytes, length_object_bytes).
  destruct (answer_reply s (sv_set_fs fs' (sv_set_w w' s)) fd FLA_MSG_CMD_OBJECT_OPEN tag _ err Hh) as (s' & Hs' & Ha); [done..|].
  exists s'. split; [|by rewrite <- Hhd]. apply (handler_of s fd _ tag _ _ _ Hh Hl eq_refl).
  unfold fla_daemon_object_open_rsp. rewrite (get_pool _ _ _ _ _ _ Hh). bind_step.
  rewrite <- (app_nil_r (object_bytes o)) in Hh. rewrite (get_object _ _ _ _ _ _ _ Hh). bind_step.
  rewrite pool_load_bytes, object_load_bytes by done. unfold sv_fs at 1, sv_h at 1. rewrite Hw, Hhd, Hrun. bind_step. exact Hs'.
Qed.

Lemma object_destroy_serves w d w' fs' err p o : pool_fits p -> object_fits o ->
  fla_base_object_destroy w (h_fs (dm_flexalloc d)) p o = Some (w', fs', err) ->
  serves FLA_MSG_CMD_OBJECT_DESTROY (pool_bytes p ++ object_bytes o) w d w' (dm_set_flexalloc (set_h_fs fs' (dm_flexalloc d)) d) (int_bytes err).
Proof.
  intros [Hp1 Hp2] [Ho1 Ho2] Hrun s fd tag Hh Hw Hhd.
  assert (Z.of_nat (length (pool_bytes p ++ object_bytes o)) <= FLA_MSG_DATA_MAX) as Hl
    by (by rewrite length_app, length_pool_bytes, length_object_bytes).
  destruct (answer_reply s (sv_set_fs fs' (sv_set_w w' s)) fd FLA_MSG_CMD_OBJECT_DESTROY tag _ err Hh) as (s' & Hs' & Ha); [done..|].
  exists s'. split; [|by rewrite <- Hhd]. apply (handler_of s fd _ tag _ _ _ Hh Hl eq_refl).
  unfold fla_daemon_object_destroy_rsp. rewrite (get_pool _ _ _ _ _ _ Hh). bind_step.
  rewrite <- (app_nil_r (object_bytes o)) in Hh. rewrite (get_object _ _ _ _ _ _ _ Hh). bind_step.
  rewrite pool_load_bytes, object_load_bytes by done. unfold sv_fs at 1, sv_h at 1. rewrite Hw, Hhd, Hrun. bind_step. exact Hs'.
Qed.

Lemma set_root_serves w d fs' err p o a : pool_fits p -> object_fits o -> is_u32 a ->
  fla_base_pool_set_root_object (h_fs (dm_flexalloc d)) p o a = Some (fs', err) ->
  serves FLA_MSG_CMD_POOL_SET_ROOT_OBJECT (pool_bytes p ++ object_bytes o ++ le 4 a) w d w (dm_set_flexalloc (set_h_fs fs' (dm_flexalloc d)) d) (int_bytes err).
Proof.
  intros [Hp1 Hp2] [Ho1 Ho2] Ha4 Hrun s fd tag Hh Hw Hhd.
  assert (Z.of_nat (length (pool_bytes p ++ object_bytes o ++ le 4 a)) <= FLA_MSG_DATA_MAX) as Hl
    by (by rewrite !length_app, length_pool_bytes, length_object_bytes, length_le).
  destruct (answer_reply s (sv_set_fs fs' s) fd FLA_MSG_CMD_POOL_SET_ROOT_OBJECT tag _ err Hh) as (s' & Hs' & Ha); [done..|].
  exists s'. split; [|by rewrite <- Hhd, <- Hw]. apply (handler_of s fd _ tag _ _ _ Hh Hl eq_refl).
  unfold fla_daemon_pool_set_root_object_rsp. rewrite (get_pool _ _ _ _ _ _ Hh). bind_step.
  rewrite (get_object _ _ _ _ _ _ _ Hh). bind_step. rewrite (get_action _ _ _ _ _ _ _ Hh). bind_step.
  rewrite pool_load_bytes, object_load_bytes by done.
  assert (field (le 4 a) 0 4 = a) as ->. { rewrite <- (app_nil_r (le 4 a)). apply field_here. unfold is_u32 in Ha4. cbn. lia. }
  unfold sv_fs at 1, sv_h at 1. rewrite Hhd, Hrun. bind_step. exact Hs'.
Qed.

(** What [fla_base_object_create] returns with 0. *)
Lemma object_create_some w fs p w' fs' o : fla_base_object_create w fs p = Some (w', fs', o, 0) ->
  exists obj, o = Some obj /\ object_fits obj.
Proof.
  unfold fla_base_object_create, object_create_in, fla_slab_next_available_obj, fla_slab_cache_obj_alloc, fla_slab_id.
  intros Hrun. run_inv; try done.
  all: first [by eexists; split; [done|]; split; apply u32_range|exfalso; repeat case_match; done].
Qed.

Lemma object_create_serves w d w' fs' o err p : pool_fits p ->
  fla_base_object_create w (h_fs (dm_flexalloc d)) p = Some (w', fs', o, err) ->
  exists body, serves FLA_MSG_CMD_OBJECT_CREATE (pool_bytes p) w d w' (dm_set_flexalloc (set_h_fs fs' (dm_flexalloc d)) d) (int_bytes err ++ body) /\
    (if err =? 0 then exists obj, o = Some obj /\ object_fits obj /\ body = object_bytes obj else body = []).
Proof.
  intros [Hp1 Hp2] Hrun.
  assert (Z.of_nat (length (pool_bytes p)) <= FLA_MSG_DATA_MAX) as Hl by (by rewrite length_pool_bytes).
  destruct (Z.eqb_spec err 0) as [->|He].
  - destruct (object_create_some _ _ _ _ _ _ Hrun) as (obj & -> & Hof). exists (object_bytes obj). split; [|by exists obj].
    intros s fd tag Hh Hw Hhd. destruct (hn_send _ _ _ _ _ Hh) as [Hm (a & dd & Hsd & Ha)].
    pose proof (mb_length _ Hm) as Hlen. pose proof (mb_bytes _ Hm) as Hf. rewrite Hsd in Hlen, Hf.
    rewrite !length_app, !length_le in Hlen. unfold FLA_MSG_BUFSIZ, sizeof_msg_header, FLA_MSG_DATA_MAX in Hlen.
    set (b := message FLA_MSG_CMD_OBJECT_CREATE tag (int_bytes 0 ++ object_bytes obj) ++ drop 12 dd).
    destruct (reply_message s (sv_set_send b (sv_set_fs fs' (sv_set_w w' s))) fd FLA_MSG_CMD_OBJECT_CREATE tag (pool_bytes p)
      (int_bytes 0 ++ object_bytes obj) (drop 12 dd) Hh) as (s' & Hs' & Han); [done..| | | |].
    { cbn [sv_send sv_set_send]. unfold b. rewrite length_app, length_message, length_app, length_object_bytes, length_drop.
      unfold int_bytes, FLA_MSG_BUFSIZ, sizeof_msg_header, FLA_MSG_DATA_MAX. rewrite length_le. lia. }
    { unfold int_bytes, object_bytes. auto using Forall_app_2, le_bytes. }
    { apply Forall_drop. rewrite !Forall_app in Hf. apply Hf. }
    exists s'. split; [|by rewrite <- Hhd]. apply (handler_of s fd _ tag _ _ _ Hh Hl eq_refl).
    unfold fla_daemon_object_create_rsp. rewrite <- (app_nil_r (pool_bytes p)) in Hh. rewrite (get_pool _ _ _ _ _ _ Hh). bind_step.
    rewrite pool_load_bytes by done. unfold sv_fs at 1, sv_h at 1. rewrite Hw, Hhd, Hrun. bind_step. change (negb (0 =? 0)) with false. cbv iota.
    unfold answer. cbn [sv_send sv_set_fs sv_set_h sv_set_w sv_w sv_n sv_d sv_recv]. rewrite Hsd.
    rewrite data_put_split by (unfold int_bytes; rewrite ?length_le; lia). bind_step.
    rewrite set_len_split by (rewrite ?length_le; lia). cbn [sv_send sv_set_send].
    rewrite data_put_split by (unfold int_bytes; rewrite ?length_app, ?length_take, ?length_drop, ?length_le, ?length_object_bytes; lia).
    bind_step. match goal with |- reply ?x _ = _ => replace x with (sv_set_send b (sv_set_fs fs' (sv_set_w w' s))); [exact Hs'|] end.
    unfold sv_set_send. cbn [sv_w sv_n sv_d sv_recv]. f_equal. unfold b, message.
    rewrite length_app, length_object_bytes. unfold int_bytes. rewrite !length_le, <- !app_assoc.
    change (Z.to_nat 0) with 0%nat. change (Z.to_nat 4) with 4%nat. rewrite take_0. cbn [app Nat.add].
    change (4 + sizeof_fla_object) with 12. do 4 f_equal.
    f_equal. rewrite (drop_app_ge (le 4 _)), length_le, drop_drop by (rewrite length_le; lia). done.
  - exists []. split; [|done]. rewrite app_nil_r. intros s fd tag Hh Hw Hhd.
    destruct (answer_reply s (sv_set_fs fs' (sv_set_w w' s)) fd FLA_MSG_CMD_OBJECT_CREATE tag _ err Hh) as (s' & Hs' & Ha); [done..|].
    exists s'. split; [|by rewrite <- Hhd]. apply (handler_of s fd _ tag _ _ _ Hh Hl eq_refl).
    unfold fla_daemon_object_create_rsp. rewrite <- (app_nil_r (pool_bytes p)) in Hh. rewrite (get_pool _ _ _ _ _ _ Hh). bind_step.
    rewrite pool_load_bytes by done. unfold sv_fs at 1, sv_h at 1. rewrite Hw, Hhd, Hrun. bind_step.
    rewrite (proj2 (Z.eqb_neq _ _)) by done. exact Hs'.
Qed.

(** The answer to [FLA_MSG_CMD_INIT_INFO]: the geometry and the URI with its length. *)
Definition init_info (geo : fla_geo) (uri : list Z) : list Z :=
  geo_bytes geo ++ le 8 (Z.of_nat (length uri) + 1) ++ (uri ++ [0]) ++ le 8 0.

Lemma length_geo_bytes g : length (geo_bytes g) = 48%nat.
Proof. unfold geo_bytes. by rewrite !length_app, !length_le. Qed.

Lemma length_init_info geo uri : length (init_info geo uri) = (65 + length uri)%nat.
Proof. unfold init_info. rewrite !length_app, length_geo_bytes, !length_le. cbn [length]. lia. Qed.

Lemma init_info_bytes geo uri : Forall is_byte uri -> Forall is_byte (init_info geo uri).
Proof.
  intros Hu. assert (is_byte 0) by (unfold is_byte; lia). unfold init_info, geo_bytes.
  repeat first [apply Forall_app_2|apply le_bytes|done]. by constructor.
Qed.

(** One field of the answer behind those before it. *)
Ltac put_next := rewrite data_put_next by
  (repeat first [rewrite length_app|rewrite length_take|rewrite length_drop|rewrite length_replicate|
    rewrite length_geo_bytes|rewrite length_le]; cbn [length]; lia); bind_step.

Lemma fs_init_serves w d uri : dm_dev_uri d = uri ++ [0] -> Forall (fun c => c <> 0) uri -> Forall is_byte uri ->
  dm_md_dev_uri d = None -> Z.of_nat (length (init_info (fs_geo (h_fs (dm_flexalloc d))) uri)) <= FLA_MSG_DATA_MAX ->
  serves FLA_MSG_CMD_INIT_INFO [] w d w d (init_info (fs_geo (h_fs (dm_flexalloc d))) uri).
Proof.
  intros Hu Hnz Hub Hmd Hlen s fd tag Hh Hw Hd. pose proof Hlen as Hlen'. rewrite length_init_info in Hlen'.
  destruct (hn_send _ _ _ _ _ Hh) as [Hm (a & dd & Hsd & Ha)]. pose proof (mb_length _ Hm) as Hl. rewrite Hsd in Hl.
  rewrite !length_app, !length_le in Hl. unfold FLA_MSG_BUFSIZ, sizeof_msg_header, FLA_MSG_DATA_MAX in Hl, Hlen'.
  set (geo := fs_geo (h_fs (dm_flexalloc d))) in *. set (rest := replicate (1983 - length uri) 0).
  set (b := message FLA_MSG_CMD_INIT_INFO tag (init_info geo uri) ++ rest).
  destruct (reply_message s (sv_set_send b s) fd FLA_MSG_CMD_INIT_INFO tag [] (init_info geo uri) rest Hh) as (s' & Hs' & Han);
    [done..| |by apply init_info_bytes|by apply Forall_replicate; unfold is_byte; lia|].
  { cbn [sv_send sv_set_send]. unfold b, rest. rewrite length_app, length_message, length_init_info, length_replicate.
    unfold FLA_MSG_BUFSIZ, sizeof_msg_header, FLA_MSG_DATA_MAX. lia. }
  exists s'. split; [|by rewrite <- Hd, <- Hw]. apply (handler_of s fd _ tag [] _ _ Hh ltac:(done) eq_refl).
  unfold fla_daemon_fs_init_rsp. unfold sv_fs, sv_h. rewrite Hd, Hu, Hmd, strlen_of by done. fold geo. rewrite Hsd.
  unfold FLA_MSG_DATA_MAX, sizeof_fla_geo.
  rewrite data_put_split by (rewrite ?length_replicate, ?length_le; lia). bind_step.
  rewrite length_replicate, drop_ge, app_nil_r by lia.
  change (take (Z.to_nat 0) dd ++ replicate (Z.to_nat 2048) 0) with ([] ++ replicate 2048 0).
  do 4 put_next. change (0 <? Z.of_nat 0) with false. cbv iota. bind_step. rewrite set_len_split by (rewrite ?length_le; lia).
  match goal with |- reply ?x _ = _ => replace x with (sv_set_send b s); [exact Hs'|] end.
  f_equal. unfold b, message, init_info, rest. rewrite (take_ge (uri ++ [0])) by (rewrite length_app; cbn; lia).
  rewrite !drop_replicate, <- !app_assoc. rewrite !length_app, length_geo_bytes, !length_le. cbn [length].
  rewrite u32_small by (unfold is_u32; lia). change (Z.of_nat 0) with 0. rewrite (app_nil_l (geo_bytes geo ++ _)).
  replace (2048 - 48 - 8 - (length uri + 1) - 8)%nat with (1983 - length uri)%nat by lia.
  f_equal. f_equal. lia.
Qed.

(** ** The client's side *)

Record remote := mk_remote { rm_loop : loop W net; rm_fd : Z; rm_errno : Z }.

Definition EPIPE : Z := 32.
Definition rm_conn (r : remote) : option conn := nt_conns (lp_n (rm_loop r)) !! rm_fd r.
Definition rm_set_conn (c : conn) (r : remote) : remote :=
  mk_remote (lp_set_n (set_conn (rm_fd r) c (lp_n (rm_loop r))) (rm_loop r)) (rm_fd r) (rm_errno r).

Definition remote_send (r : remote) (bs : list Z) : remote * Z :=
  match rm_conn r with
  | Some c => (rm_set_conn (mk_conn (cn_in c ++ bs) (cn_out c) (cn_closed c)) r, Z.of_nat (length bs))
  | None => (mk_remote (rm_loop r) (rm_fd r) EPIPE, -1)
  end.

(** With nothing to read the client waits, and the daemon makes a pass. *)
Definition remote_wait (r : remote) : option remote :=
  match rm_conn r with
  | Some (mk_conn _ [] _) =>
      '(l, ret) ← loop_pass msg_handler (rm_loop r);
      match ret with None => Some (mk_remote l (rm_fd r) (rm_errno r)) | Some _ => None end
  | _ => Some r
  end.

Definition remote_recv (r : remote) (peek : bool) (k : Z) : option (remote * Z * list Z) :=
  r ← remote_wait r;
  match rm_conn r with
  | None => Some (r, 0, [])
  | Some c =>
      match cn_out c with
      | [] => None
      | out =>
          let bs := take (Z.to_nat k) out in
          Some (if peek then r else rm_set_conn (mk_conn (cn_in c) (drop (Z.to_nat k) out) (cn_closed c)) r,
                Z.of_nat (length bs), bs)
      end
  end.

#[export] Instance remote_env : SockEnv remote := {
  errno := rm_errno;
  clear_errno r := mk_remote (rm_loop r) (rm_fd r) 0;
  intr _ := O;
  send r _ bs := remote_send r bs;
  recv r _ peek k := remote_recv r peek k;
  sys_close r _ := match rm_conn r with
                   | Some c => rm_set_conn (mk_conn (cn_in c) (cn_out c) true) r
                   | None => r
                   end
}.

(** The client's connection is entry [i] of the daemon [d] on [w]. *)
Record connected (r : remote) (i : Z) (w : W) (d : fla_daemon) : Prop := {
  cd_waiting : waiting (rm_loop r) i (rm_fd r);
  cd_conn : rm_conn r = Some (mk_conn [] [] false);
  cd_w : sv_w (lp_sv (rm_loop r)) = w;
  cd_d : sv_d (lp_sv (rm_loop r)) = d
}.

Lemma waiting_conn l i fd c : waiting l i fd -> waiting (lp_set_n (set_conn fd c (lp_n l)) l) i fd.
Proof.
  intros [Hi Hl Hb He Ho Hbuf]. split; [by apply loop_inv_sv|done|done|done| |done].
  intros j cj Hj H0 Hcj Hfd. destruct (Ho j cj Hj H0 Hcj Hfd) as [Hne Hr]. split; [done|]. rewrite <- Hr.
  f_equal. unfold conn_of. cbn. by rewrite lookup_insert_ne.
Qed.

Lemma waiting_after l i fd s' cs m : waiting l i fd -> keeps (lp_sv l) s' -> sv_n s' = answered_net fd m (lp_n l) ->
  msg_buf (sv_recv s') /\ msg_buf (sv_send s') -> pf_fd <$> cs = pf_fd <$> lp_clients l ->
  waiting (mk_loop s' cs (lp_max_ndx l) (lp_active l)) i fd.
Proof.
  intros [Hi Hl Hb (Him & Hfd & c & Hc & Hcfd) Ho Hbuf] [Hk1 Hk2] Hn Hbufs Hcs.
  assert (forall j c', lookupZ cs j = Some c' -> exists c'', lookupZ (lp_clients l) j = Some c'' /\ pf_fd c'' = pf_fd c') as Hlk.
  { intros j c' Hj. apply (f_equal (fun x => lookupZ x j)) in Hcs. rewrite !lookupZ_fmap, Hj in Hcs. cbn in Hcs.
    destruct (lookupZ (lp_clients l) j) as [c''|]; [|done]. exists c''. split; [done|]. by injection Hcs. }
  split; cbn [lp_sv lp_clients lp_max_ndx].
  - unfold loop_inv. cbn. rewrite Hk1, Hk2, Hcs. exact Hi.
  - unfold lp_n. cbn [lp_sv]. by rewrite Hn, Hk1.
  - unfold lp_n. cbn [lp_sv]. by rewrite Hn.
  - split; [done|]. split; [done|].
    assert (lookupZ (pf_fd <$> cs) i = Some fd) as Hi'. { by rewrite Hcs, lookupZ_fmap, Hc, <- Hcfd. }
    rewrite lookupZ_fmap in Hi'. destruct (lookupZ cs i) as [c'|]; [|done]. exists c'. split; [done|]. by injection Hi'.
  - intros j cj Hj H0 Hcj Hge. destruct (Hlk j cj Hcj) as (c'' & Hc'' & Heq). rewrite <- Heq in *.
    destruct (Ho j c'' Hj H0 Hc'' Hge) as [Hne Hr]. split; [done|]. rewrite <- Hr. f_equal. unfold conn_of, lp_n. cbn [lp_sv].
    rewrite Hn. cbn. by rewrite lookup_insert_ne.
  - done.
Qed.

Lemma answered_net_set fd m c n : answered_net fd m (set_conn fd c n) = answered_net fd m n.
Proof. unfold answered_net, set_conn. cbn. by rewrite insert_insert_eq. Qed.

(** The daemon's pass on a pending request. *)
Lemma pass_serves l i fd cmd tag bs w' d' body : waiting l i fd ->
  nt_conns (lp_n l) !! fd = Some (mk_conn (message cmd tag bs) [] false) -> is_u16 cmd -> is_u16 tag ->
  Z.of_nat (length bs) <= FLA_MSG_DATA_MAX -> Forall is_byte bs ->
  serves cmd bs (sv_w (lp_sv l)) (sv_d (lp_sv l)) w' d' body ->
  exists l', loop_pass msg_handler l = Some (l', None) /\ waiting l' i fd /\
    nt_conns (lp_n l') !! fd = Some (mk_conn [] (message cmd tag body) false) /\
    sv_w (lp_sv l') = w' /\ sv_d (lp_sv l') = d'.
Proof.
  intros Hw Hc Hcmd Htag Hlen Hb Hs. destruct (wt_bufs _ _ _ Hw) as [Hr Hsd].
  destruct (Hs _ fd tag (prepared_handling l fd cmd tag bs Hc Hcmd Htag Hlen Hb Hr Hsd) eq_refl eq_refl)
    as (s' & Hrun & [Hw' Hh' Hk Hn Hbufs]). cbn [sv_n] in Hn. rewrite answered_net_set in Hn.
  destruct (pass_one l i fd s' Hw) as (cs & Hpass & Hcs).
  - unfold conn_of. rewrite Hc. unfold message. done.
  - intros l' Hl'. unfold lp_n in Hc, Hrun. rewrite <- Hl' in Hc, Hr, Hrun.
    by apply (serve_message l' i fd cmd tag bs s' Hc Hcmd Htag Hlen Hr).
  - exists (mk_loop s' cs (lp_max_ndx l) (lp_active l)). split; [done|]. split; [by eapply waiting_after|].
    split; [|done]. unfold lp_n. cbn [lp_sv]. rewrite Hn. cbn. by rewrite lookup_insert_eq.
Qed.

Lemma remote_recv_out r m peek k : rm_conn r = Some (mk_conn [] m false) -> m <> [] ->
  remote_recv r peek k = Some (if peek then r else rm_set_conn (mk_conn [] (drop (Z.to_nat k) m) false) r,
    Z.of_nat (length (take (Z.to_nat k) m)), take (Z.to_nat k) m).
Proof.
  intros Hc Hm. unfold remote_recv, remote_wait. rewrite Hc. destruct m as [|b m]; [done|]. bind_step. by rewrite Hc.
Qed.

Lemma remote_recv_wait r l inb closed peek k : rm_conn r = Some (mk_conn inb [] closed) ->
  loop_pass msg_handler (rm_loop r) = Some (l, None) ->
  remote_recv r peek k = match rm_conn (mk_remote l (rm_fd r) (rm_errno r)) with
                         | Some (mk_conn _ [] _) => None
                         | _ => remote_recv (mk_remote l (rm_fd r) (rm_errno r)) peek k
                         end.
Proof.
  intros Hc Hp. unfold remote_recv at 1, remote_wait. rewrite Hc, Hp. bind_step. unfold remote_recv, remote_wait.
  destruct (rm_conn (mk_remote l (rm_fd r) (rm_errno r))) as [[inb' [|b out] closed']|] eqn:E; bind_step; [done|..]; by rewrite E.
Qed.

Section exchange.
Context {C : Type}.
Implicit Types p : process C remote.

Lemma exchange p i w d cmd tag bs rest w' d' body : connected (pr_n p) i w d -> pr_send p = message cmd tag bs ++ rest ->
  msg_buf (pr_recv p) -> is_u16 cmd -> is_u16 tag -> cmd <> FLA_MSG_CMD_NULL ->
  Z.of_nat (length bs) <= FLA_MSG_DATA_MAX -> Forall is_byte bs -> Z.of_nat (length body) <= FLA_MSG_DATA_MAX ->
  serves cmd bs w d w' d' body ->
  exists r, fla_send_recv p =
      Some (pr_set_recv (message cmd tag body ++ drop (8 + length body) (pr_recv p)) (pr_set_n r p), 0) /\
    connected r i w' d'.
Proof.
  intros [Hw Hc <- <-] Hs Hm Hcmd Htag Hnull Hlen Hb Hlen' Hserv. unfold fla_send_recv. rewrite Hs.
  set (r := pr_n p) in *. set (m := message cmd tag bs) in *. set (m' := message cmd tag body).
  set (r1 := rm_set_conn (mk_conn m [] false) (mk_remote (rm_loop r) (rm_fd r) 0)).
  rewrite (send_message _ _ _ _ _ _ r1 Hcmd Htag Hlen).
  2: { cbn. unfold remote_send, rm_conn. cbn. unfold rm_conn in Hc. by rewrite Hc. }
  bind_step. change (negb (0 =? 0)) with false. cbv iota. cbn [pr_n pr_set_n pr_cl pr_recv].
  destruct (pass_serves (rm_loop r1) i (rm_fd r) cmd tag bs w' d' body) as (l2 & Hpass & Hw2 & Hc2 & Hw' & Hh').
  { by apply waiting_conn. } { cbn. by rewrite lookup_insert_eq. } 1-4: done. { done. }
  set (r2 := mk_remote l2 (rm_fd r) 0). set (r3 := rm_set_conn (mk_conn [] [] false) r2).
  pose proof (length_message cmd tag body) as Hlm. fold m' in Hlm.
  unfold FLA_MSG_DATA_MAX in Hlen, Hlen'.
  destruct (message_hdr cmd tag body [] Hcmd Htag ltac:(lia)) as (Hml & Hmc & _). rewrite app_nil_r in Hml, Hmc. fold m' in Hml, Hmc.
  assert (m' <> []) as Hne by (by unfold m', message).
  change (message cmd tag body) with m' in Hc2. clearbody m'.
  assert (forall peek k, remote_recv r2 peek k = Some (if peek then r2 else rm_set_conn (mk_conn [] (drop (Z.to_nat k) m') false) r2,
    Z.of_nat (length (take (Z.to_nat k) m')), take (Z.to_nat k) m')) as Hout by (intros; by apply remote_recv_out).
  rewrite (recv_msg_whole r1 _ _ r2 r3 m').
  - bind_step. exists r3. rewrite Hlm. split; [done|]. split; [by apply waiting_conn| |done|done].
    unfold rm_conn. cbn. by rewrite lookup_insert_eq.
  - done.
  - cbn [recv remote_env]. rewrite (remote_recv_wait r1 l2 m false); [|unfold rm_conn; cbn; by rewrite lookup_insert_eq|done].
    change (mk_remote l2 (rm_fd r1) (rm_errno r1)) with r2. unfold rm_conn at 1. cbn [rm_loop rm_fd r2]. rewrite Hc2.
    destruct m' as [|b m'']; [done|]. rewrite Hout, length_take. change (Z.to_nat sizeof_msg_header) with 8%nat.
    by rewrite Nat.min_l by lia.
  - unfold FLA_MSG_DATA_MAX. lia.
  - by rewrite Hmc.
  - rewrite Hml, Hlm. unfold sizeof_msg_header. lia.
  - lia.
  - rewrite Hml. cbn [recv remote_env]. rewrite Hout. unfold sizeof_msg_header.
    rewrite drop_ge, take_ge, Hlm by lia. do 3 f_equal. lia.
Qed.

(** ** Requests *)

(** A connected client. *)
Record client_ok (p : process C remote) (i : Z) (w : W) (d : fla_daemon) : Prop := {
  ck_connected : connected (pr_n p) i w d;
  ck_send : msg_buf (pr_send p);
  ck_recv : msg_buf (pr_recv p)
}.

(** The send buffer of a request: the message with the tag that the buffer held. *)
Lemma fill_request send cmd bs : msg_buf send -> Z.of_nat (length bs) <= FLA_MSG_DATA_MAX -> Forall is_byte bs ->
  exists b tag rest, data_put send 0 bs = Some b /\ is_u16 tag /\
    set_hdr_cmd cmd (set_hdr_len (Z.of_nat (length bs)) b) = message cmd tag bs ++ rest /\ msg_buf (message cmd tag bs ++ rest).
Proof.
  intros Hs Hlen Hb. destruct (msg_buf_split _ Hs) as (a & c & t & dd & Hsd & Ha & Hc & Ht & Hd).
  pose proof (mb_bytes _ Hs) as Hf. rewrite Hsd, !Forall_app in Hf. destruct Hf as (_ & _ & Hft & Hfd).
  assert (t = le 2 (un_le t) /\ is_u16 (un_le t)) as [Het Htag].
  { destruct t as [|t0 [|t1 [|]]]; try done. rewrite !Forall_cons in Hft. destruct Hft as (H0 & H1 & _). unfold is_byte in *.
    cbn [un_le le]. split; [|unfold is_u16; lia]. f_equal; [|f_equal].
    - rewrite Z.mul_comm, Z.mod_add by lia. symmetry. apply Z.mod_small. lia.
    - rewrite Z.mul_comm, Z.div_add by lia. rewrite (Z.div_small t0), Z.mod_small by lia. lia. }
  unfold FLA_MSG_DATA_MAX in Hd, Hlen. rewrite Hsd, data_put_split by lia.
  eexists _, (un_le t), (drop (length bs) dd). split; [done|]. split; [done|].
  rewrite set_len_split, set_cmd_split by (rewrite ?length_le; lia). change (Z.to_nat 0) with 0%nat. rewrite take_0. cbn [app Nat.add].
  split; [unfold message; rewrite <- Het, <- !app_assoc; done|].
  split; [|unfold message; auto 10 using Forall_app_2, le_bytes, Forall_drop].
  rewrite length_app, length_message, length_drop. unfold FLA_MSG_BUFSIZ, sizeof_msg_header, FLA_MSG_DATA_MAX. lia.
Qed.

(** A request without data. *)
Lemma fill_command send cmd : msg_buf send ->
  exists tag rest, is_u16 tag /\ set_hdr_len 0 (set_hdr_cmd cmd send) = message cmd tag [] ++ rest /\ msg_buf (message cmd tag [] ++ rest).
Proof.
  intros Hs. destruct (fill_request send cmd [] Hs) as (b & tag & rest & Hput & Htag & Hm & Hb); [done..|].
  exists tag, rest. split; [done|]. split; [|done]. rewrite <- Hm.
  destruct (msg_buf_split _ Hs) as (a & c & t & d & -> & Ha & Hc & Ht & Hd). unfold FLA_MSG_DATA_MAX in Hd.
  rewrite data_put_split in Hput by (cbn; lia). injection Hput as <-.
  rewrite !set_cmd_split, !set_len_split, !set_cmd_split by (rewrite ?length_le; done).
  done.
Qed.

(** The receive buffer after an answer. *)
Lemma received_buf recv cmd tag body : msg_buf recv -> Z.of_nat (length body) <= FLA_MSG_DATA_MAX -> Forall is_byte body ->
  msg_buf (message cmd tag body ++ drop (8 + length body) recv).
Proof.
  intros [Hrl Hrf] Hl Hb. unfold FLA_MSG_BUFSIZ, sizeof_msg_header, FLA_MSG_DATA_MAX in *. split.
  - rewrite length_app, length_message, length_drop. unfold FLA_MSG_BUFSIZ, sizeof_msg_header, FLA_MSG_DATA_MAX. lia.
  - unfold message. auto 10 using Forall_app_2, le_bytes, Forall_drop.
Qed.

Lemma request_serves p i w d cmd bs w' d' body : client_ok p i w d -> is_u16 cmd -> cmd <> FLA_MSG_CMD_NULL ->
  Z.of_nat (length bs) <= FLA_MSG_DATA_MAX -> Forall is_byte bs ->
  Z.of_nat (length body) <= FLA_MSG_DATA_MAX -> Forall is_byte body -> serves cmd bs w d w' d' body ->
  exists p' tag rest, request p cmd bs = Some (p', 0) /\ client_ok p' i w' d' /\
    pr_recv p' = message cmd tag body ++ rest /\ pr_c p' = pr_c p /\ pr_fs p' = pr_fs p.
Proof.
  intros [Hcon Hs Hr] Hcmd Hnull Hlen Hb Hlen' Hb' Hserv.
  destruct (fill_request (pr_send p) cmd bs Hs Hlen Hb) as (b & tag & rest & Hput & Htag & Hm & Hbuf).
  unfold request. rewrite Hput. bind_step. rewrite Hm.
  destruct (exchange (pr_set_send (message cmd tag bs ++ rest) p) i w d cmd tag bs rest w' d' body) as (r & -> & Hcon'); [done..|].
  eexists _, tag, _. split; [done|]. split; [|done]. split; [done|done|]. by apply received_buf.
Qed.

Lemma answer_err_of p cmd tag err body rest : pr_recv p = message cmd tag (int_bytes err ++ body) ++ rest ->
  answer_err p = Some (i32 err).
Proof.
  intros Hr. unfold answer_err. assert (length (int_bytes err) = 4%nat) as H4 by (unfold int_bytes; by rewrite length_le).
  rewrite Hr, message_get by (rewrite ?length_app; lia). bind_step. change (Z.to_nat 0) with 0%nat. change (Z.to_nat 4) with 4%nat.
  rewrite drop_0, take_app_le, take_ge, int_load_bytes by lia. done.
Qed.
End exchange.
End serve.
Arguments remote W : clear implicits.
