(* ===== verification/Dispatch.v ===== *)
(** * Dispatch: the interface of [src/src/libflexalloc.h] directly and through the daemon

    The functions of the library do the same whether they are called on a handle of
    [fla_open] or on one of [fla_daemon_open]: the theorem [remote_refines] for the
    calls that the daemon serves correctly, and the theorems behind it for those that
    it does not. *)
From S2P Require Import Prelude Util Freelist Hash XnvmeEnv Flexalloc PoolEntry Geometry SlabList SlabCache Slab Pool Object DataPlacement Layout System History Socket Daemon DaemonLoop DaemonClient Remote.

(** ** Calls *)

Inductive call :=
  | CallSync
  | CallPoolDestroy (pool : fla_pool)
  | CallObjectOpen (pool : fla_pool) (object : fla_object)
  | CallObjectCreate (pool : fla_pool)
  | CallObjectDestroy (pool : fla_pool) (object : fla_object)
  | CallSetRoot (pool : fla_pool) (object : fla_object) (act : Z).

(** The values fit their types. *)
Definition call_fits (c : call) : Prop :=
  match c with
  | CallSync => True
  | CallPoolDestroy p | CallObjectCreate p => pool_fits p
  | CallObjectOpen p o | CallObjectDestroy p o => pool_fits p /\ object_fits o
  | CallSetRoot p o a => pool_fits p /\ object_fits o /\ is_u32 a
  end.

Section calls.
Context {W C N : Type} `{XnvmeEnv W} `{!XnvmeAdm W} `{XnvmeEnv C} `{!XnvmeAdm C} `{SockEnv N}.
Notation fla_lib := (fla_lib W C N).

Definition no_object (r : fla_lib * Z) : fla_lib * option fla_object * Z := (r.1, None, r.2).

(** A call on the library. *)
Definition run_call (l : fla_lib) (c : call) : option (fla_lib * option fla_object * Z) :=
  match c with
  | CallSync => no_object <$> fla_sync l
  | CallPoolDestroy pool => no_object <$> fla_pool_destroy l pool
  | CallObjectOpen pool object => no_object <$> fla_object_open l pool object
  | CallObjectCreate pool => fla_object_create l pool
  | CallObjectDestroy pool object => no_object <$> fla_object_destroy l pool object
  | CallSetRoot pool object act => no_object <$> fla_pool_set_root_object l pool object act
  end.

Fixpoint run_calls (l : fla_lib) (cs : list call) : option (fla_lib * list (option fla_object * Z)) :=
  match cs with
  | [] => Some (l, [])
  | c :: cs =>
      '(l, o, err) ← run_call l c;
      '(l, rs) ← run_calls l cs;
      Some (l, (o, err) :: rs)
  end.
End calls.

(** The error code is an [int]; that of a synchronisation does not matter, since the
    client does not read it. *)
Definition err_fits (c : call) (err : Z) : Prop := match c with CallSync => True | _ => i32 err = err end.
#[export] Instance err_fits_dec c err : Decision (err_fits c err).
Proof. unfold err_fits. destruct c; apply _. Defined.

(** What a client is told of a result: a failed synchronisation is reported as a
    success. *)
Definition reported (c : call) (r : option fla_object * Z) : option fla_object * Z :=
  match c with
  | CallSync => (None, 0)
  | CallObjectCreate _ => if r.2 =? 0 then r else (None, r.2)
  | _ => r
  end.

Section refinement.
Context {W C : Type} `{XnvmeEnv W} `{!XnvmeAdm W} `{XnvmeEnv C} `{!XnvmeAdm C}.
Implicit Types p : process C (remote W).

(** The calls on a direct handle, in the process of the daemon: before a pool is
    destroyed the daemon allocates the handle that the call frees. *)
Inductive direct : W -> handle -> list call -> W -> handle -> list (option fla_object * Z) -> Prop :=
  | direct_nil w h : direct w h [] w h []
  | direct_cons w h c w1 w2 h2 o err cs w3 h3 rs :
      (if c is CallPoolDestroy _ then malloc w sizeof_fla_pool = (w1, true) else w1 = w) ->
      run_call (C := C) (N := remote W) (lib_base w1 h) c = Some (lib_base w2 h2, o, err) -> err_fits c err ->
      direct w2 h2 cs w3 h3 rs -> direct w h (c :: cs) w3 h3 ((o, err) :: rs).

Lemma pool_bytes_bytes pool : Forall is_byte (pool_bytes pool).
Proof. unfold pool_bytes. auto using Forall_app_2, le_bytes. Qed.
Lemma object_bytes_bytes o : Forall is_byte (object_bytes o).
Proof. unfold object_bytes. auto using Forall_app_2, le_bytes. Qed.

Ltac sizes := rewrite ?length_app, ?length_pool_bytes, ?length_object_bytes, ?length_le; unfold FLA_MSG_DATA_MAX; lia.

(** ** A call as a request and its answer *)

Definition call_cmd (c : call) : Z :=
  match c with
  | CallSync => FLA_MSG_CMD_SYNC
  | CallPoolDestroy _ => FLA_MSG_CMD_POOL_DESTROY
  | CallObjectOpen _ _ => FLA_MSG_CMD_OBJECT_OPEN
  | CallObjectCreate _ => FLA_MSG_CMD_OBJECT_CREATE
  | CallObjectDestroy _ _ => FLA_MSG_CMD_OBJECT_DESTROY
  | CallSetRoot _ _ _ => FLA_MSG_CMD_POOL_SET_ROOT_OBJECT
  end.

Definition call_bytes (c : call) : list Z :=
  match c with
  | CallSync => []
  | CallPoolDestroy p | CallObjectCreate p => pool_bytes p
  | CallObjectOpen p o | CallObjectDestroy p o => pool_bytes p ++ object_bytes o
  | CallSetRoot p o a => pool_bytes p ++ object_bytes o ++ le 4 a
  end.

(** What a request does with its answer. *)
Definition take_answer (p : process C (remote W)) (c : call) : option (process C (remote W) * option fla_object * Z) :=
  match c with
  | CallSync => Some (p, None, 0)
  | CallObjectCreate _ =>
      err ← answer_err p;
      if negb (err =? 0) then Some (p, None, err) else
      bs ← data_get (pr_recv p) 4 sizeof_fla_object;
      Some (p, Some (object_load bs), 0)
  | _ => err ← answer_err p; Some (p, None, err)
  end.

(** A client's call is the request and what is done with the answer. *)
Lemma client_call p c : run_call (W := W) (lib_client p) c =
  ('(p, err) ← request p (call_cmd c) (call_bytes c);
   if negb (err =? 0) then Some (lib_client p, None, err) else
   '(p, o, err) ← take_answer p c; Some (lib_client p, o, err)).
Proof.
  destruct c; cbn; unfold fla_daemon_sync_rq, fla_daemon_pool_destroy_rq, fla_daemon_object_open_rq, fla_daemon_object_create_rq,
    fla_daemon_object_destroy_rq, fla_daemon_pool_set_root_object_rq;
    (destruct (request _ _ _) as [[p' err]|]; [|done]); cbn; (destruct (err =? 0); cbn; [|done]); try done;
    (destruct (answer_err p') as [err'|]; [|done]); cbn; done.
Qed.

Lemma call_request c : is_u16 (call_cmd c) /\ call_cmd c <> FLA_MSG_CMD_NULL /\
  Z.of_nat (length (call_bytes c)) <= FLA_MSG_DATA_MAX /\ Forall is_byte (call_bytes c).
Proof.
  assert (forall a, Forall is_byte (le 4 a)) as Hle by (intros; apply le_bytes).
  pose proof pool_bytes_bytes. pose proof object_bytes_bytes. split_and!; [by destruct c|by destruct c|destruct c; cbn [call_bytes length]; sizes|].
  destruct c; cbn [call_bytes]; auto 10 using Forall_app_2.
Qed.

(** The body of the answer to a call with result [r]. *)
Definition answer_body (c : call) (r : option fla_object * Z) (body : list Z) : Prop :=
  match c with
  | CallObjectCreate _ => exists obj, body = int_bytes r.2 ++ obj /\
      if r.2 =? 0 then exists o, r.1 = Some o /\ object_fits o /\ obj = object_bytes o else obj = []
  | _ => r.1 = None /\ body = int_bytes r.2
  end.

Lemma answer_body_bytes c r body : answer_body c r body -> Forall is_byte body /\ Z.of_nat (length body) <= FLA_MSG_DATA_MAX.
Proof.
  assert (forall e, Forall is_byte (int_bytes e) /\ length (int_bytes e) = 4%nat) as Hi
    by (intros; split; [apply le_bytes|apply length_le]). unfold FLA_MSG_DATA_MAX. destruct (Hi r.2) as [Hb Hl].
  destruct c; cbn [answer_body]; try (intros [_ ->]; rewrite Hl; split; [done|lia]).
  intros (obj & -> & Ho). rewrite length_app, Hl. destruct (_ =? _).
  - destruct Ho as (o & _ & _ & ->). rewrite length_object_bytes. split; [auto using Forall_app_2, object_bytes_bytes|lia].
  - rewrite Ho, app_nil_r. split; [done|cbn; lia].
Qed.

(** The client takes the result out of the answer. *)
Lemma take_answer_reported p c r body tag rest : answer_body c r body -> err_fits c r.2 ->
  pr_recv p = message (call_cmd c) tag body ++ rest -> take_answer p c = Some (p, (reported c r).1, (reported c r).2).
Proof.
  intros Ha Herr Hr. assert (length (int_bytes r.2) = 4%nat) as H4 by (unfold int_bytes; by rewrite length_le).
  destruct c; cbn [answer_body] in Ha; [done|..]; cbn [take_answer reported];
    try (destruct Ha as [<- ->]; rewrite <- (app_nil_r (int_bytes _)) in Hr; rewrite (answer_err_of _ _ _ _ _ _ Hr), Herr; done).
  destruct Ha as (obj & -> & Ho). rewrite (answer_err_of _ _ _ _ _ _ Hr), Herr. bind_step.
  destruct (Z.eqb_spec r.2 0) as [E|]; [|done]. cbn [negb]. destruct Ho as (o & Ho & [Ho1 Ho2] & ->). unfold sizeof_fla_object.
  rewrite Hr, message_get by (rewrite ?length_app, ?length_object_bytes; lia). bind_step.
  change (Z.to_nat 4) with 4%nat. change (Z.to_nat 8) with 8%nat.
  rewrite drop_app_ge, H4, Nat.sub_diag, drop_0, take_ge by (rewrite ?length_object_bytes; lia).
  by rewrite object_load_bytes, Ho, E.
Qed.

(** The daemon serves a call that runs on its handle. *)
Lemma call_served (w : W) d c (w1 w2 : W) h2 o err : call_fits c ->
  (if c is CallPoolDestroy _ then malloc w sizeof_fla_pool = (w1, true) else w1 = w) ->
  run_call (C := C) (N := remote W) (lib_base w1 (dm_flexalloc d)) c = Some (lib_base w2 h2, o, err) ->
  exists body, serves (call_cmd c) (call_bytes c) w d w2 (dm_set_flexalloc h2 d) body /\ answer_body c (o, err) body.
Proof.
  intros Hfit Hm Hrun. destruct c as [|pool|pool ob|pool|pool ob|pool ob a]; cbn in Hrun, Hfit; try subst w1.
  - destruct (fla_base_sync w (dm_flexalloc d)) as [[[w' h'] e]|] eqn:E; [|done]. cbn in Hrun. injection Hrun as -> -> <- ->.
    eexists. split; [by apply sync_serves|done].
  - destruct (fla_base_pool_destroy (h_fs (dm_flexalloc d)) pool) as [[fs' e]|] eqn:E; [|done]. cbn in Hrun. injection Hrun as -> <- <- ->.
    eexists. split; [by apply pool_destroy_serves|done].
  - destruct Hfit. destruct (fla_base_object_open w (h_fs (dm_flexalloc d)) pool ob) as [[[w' fs'] e]|] eqn:E; [|done].
    cbn in Hrun. injection Hrun as -> <- <- ->. eexists. split; [by apply object_open_serves|done].
  - destruct (fla_base_object_create w (h_fs (dm_flexalloc d)) pool) as [[[[w' fs'] o'] e]|] eqn:E; [|done].
    cbn in Hrun. injection Hrun as -> <- -> ->. destruct (object_create_serves w d w2 fs' o err pool Hfit E) as (obj & Hs & Ho).
    exists (int_bytes err ++ obj). split; [done|]. by exists obj.
  - destruct Hfit. destruct (fla_base_object_destroy w (h_fs (dm_flexalloc d)) pool ob) as [[[w' fs'] e]|] eqn:E; [|done].
    cbn in Hrun. injection Hrun as -> <- <- ->. eexists. split; [by apply object_destroy_serves|done].
  - destruct Hfit as (? & ? & ?). destruct (fla_base_pool_set_root_object (h_fs (dm_flexalloc d)) pool ob a) as [[fs' e]|] eqn:E; [|done].
    cbn in Hrun. injection Hrun as -> <- <- ->. eexists. split; [by apply set_root_serves|done].
Qed.

Lemma call_refines p i w d c w1 w2 h2 o err : client_ok p i w d -> call_fits c ->
  (if c is CallPoolDestroy _ then malloc w sizeof_fla_pool = (w1, true) else w1 = w) ->
  run_call (C := C) (N := remote W) (lib_base w1 (dm_flexalloc d)) c = Some (lib_base w2 h2, o, err) -> err_fits c err ->
  exists p', run_call (W := W) (lib_client p) c = Some (lib_client p', (reported c (o, err)).1, (reported c (o, err)).2) /\
    client_ok p' i w2 (dm_set_flexalloc h2 d).
Proof.
  intros Hok Hfit Hm Hrun Herr. destruct (call_served w d c w1 w2 h2 o err Hfit Hm Hrun) as (body & Hserv & Hbody).
  destruct (call_request c) as (Hcmd & Hnull & Hl & Hb). destruct (answer_body_bytes _ _ _ Hbody) as [Hbb Hbl].
  destruct (request_serves p i w d _ _ _ _ body Hok Hcmd Hnull Hl Hb Hbl Hbb Hserv) as (p' & tag & rest & Hreq & Hok' & Hr & _).
  exists p'. split; [|done]. rewrite client_call, Hreq. bind_step. no_err.
  rewrite (take_answer_reported p' c (o, err) body tag rest Hbody Herr Hr). done.
Qed.

(** C7: The library through the daemon refines the library on a direct handle.  For
    every sequence of synchronisations, pool destructions, object openings, creations
    and destructions and settings of root objects that runs on a handle, a connected
    client that makes the same calls gets the same results and the daemon ends with
    the handle and the devices of the direct run, the client still connected.  The one
    difference is that a failed synchronisation is reported as a success. *)
Theorem remote_refines w d cs w' h' rs p i : direct w (dm_flexalloc d) cs w' h' rs -> Forall call_fits cs -> client_ok p i w d ->
  exists p', run_calls (W := W) (lib_client p) cs = Some (lib_client p', zip_with reported cs rs) /\
    client_ok p' i w' (dm_set_flexalloc h' d).
Proof.
  remember (dm_flexalloc d) as h eqn:Hh. intros Hd. revert d Hh p.
  induction Hd as [w h|w h c w1 w2 h2 o err cs w3 h3 rs Hm Hrun Herr _ IH]; intros d -> p Hf Hok;
    [exists p; by destruct d|]. apply Forall_cons in Hf as [Hfc Hf].
  destruct (call_refines p i w d c w1 w2 h2 o err Hok Hfc Hm Hrun Herr) as (p1 & Hc & Hok1).
  destruct (IH (dm_set_flexalloc h2 d) eq_refl p1 Hf Hok1) as (p' & Hcs & Hok'). exists p'. split; [|done]. cbn [run_calls]. rewrite Hc. bind_step.
  rewrite Hcs. bind_step. cbn [zip_with]. by destruct (reported c (o, err)).
Qed.
End refinement.

(** ** Connecting *)

Record geo_fits (g : fla_geo) : Prop := {
  gf_nlb : is_u64 (g_nlb g);
  gf_u32 : Forall is_u32 [g_lb_nbytes g; g_slab_nlb g; g_npools g; g_nslabs g; g_md_nlb g; freelist_nlb (g_pool_sgmt g);
    htbl_nlb (g_pool_sgmt g); htbl_tbl_size (g_pool_sgmt g); entries_nlb (g_pool_sgmt g); slab_sgmt_nlb (g_slab_sgmt g)]
}.

Lemma geo_load_bytes g : geo_fits g -> geo_load (geo_bytes g) = g.
Proof.
  destruct g as [a b c d e f [x y z u] [v]]. intros [Ha Hall]. cbn in Ha, Hall. rewrite !Forall_cons in Hall.
  destruct Hall as (? & ? & ? & ? & ? & ? & ? & ? & ? & ? & _). unfold geo_load, geo_bytes.
  cbn [g_nlb g_lb_nbytes g_slab_nlb g_npools g_nslabs g_md_nlb g_pool_sgmt freelist_nlb htbl_nlb htbl_tbl_size entries_nlb
    g_slab_sgmt slab_sgmt_nlb]. rewrite <- (app_nil_r (le 4 v)). repeat f_equal; read_field.
Qed.

Section connect.
Context {W C : Type} `{XnvmeEnv W} `{!XnvmeAdm W} `{XnvmeEnv C} `{!XnvmeAdm C}.
Implicit Types p : process C (remote W).

(** The parts of the answer. *)
Lemma init_info_parts geo uri cmd tag rest recv : recv = message cmd tag (init_info geo uri) ++ rest ->
  is_u32 (Z.of_nat (length uri) + 1) ->
  data_get recv 0 sizeof_fla_geo = Some (geo_bytes geo) /\
  (exists l, data_get recv sizeof_fla_geo 8 = Some l /\ field l 0 8 = Z.of_nat (length uri) + 1) /\
  take (S (length uri)) (drop (8 + 56) recv) = uri ++ [0] /\ (S (length uri) <= length (drop (8 + 56) recv))%nat /\
  (exists m, data_get recv (sizeof_fla_geo + 8 + (Z.of_nat (length uri) + 1)) 8 = Some m /\ field m 0 8 = 0).
Proof.
  intros -> Hl. unfold sizeof_fla_geo.
  assert (forall off n, 0 <= off -> 0 <= n -> off + n <= Z.of_nat (65 + length uri) ->
    data_get (message cmd tag (init_info geo uri) ++ rest) off n =
    Some (take (Z.to_nat n) (drop (Z.to_nat off) (init_info geo uri)))) as Hget.
  { intros off n Ho Hn Hlen. apply message_get; [done|done|]. by rewrite length_init_info. }
  pose proof (length_geo_bytes geo) as Hg. split_and!.
  - rewrite Hget by lia. change (Z.to_nat 0) with 0%nat. change (Z.to_nat 48) with 48%nat. unfold init_info.
    by rewrite drop_0, take_app_le, take_ge by lia.
  - eexists. rewrite Hget by lia. split; [done|]. change (Z.to_nat 48) with 48%nat. change (Z.to_nat 8) with 8%nat. unfold init_info.
    rewrite drop_app_ge, Hg, Nat.sub_diag, drop_0, field_take by lia. apply field_here. unfold is_u32 in Hl. cbn. lia.
  - assert (drop (8 + 56) (message cmd tag (init_info geo uri) ++ rest) = uri ++ [0] ++ le 8 0 ++ rest) as ->.
    { rewrite <- drop_drop, message_data. unfold init_info. rewrite <- !app_assoc, drop_app_ge, Hg by lia.
      rewrite drop_app_ge, length_le by (rewrite length_le; lia). apply drop_0. }
    rewrite app_assoc, take_app_le, take_ge by (rewrite length_app; cbn; lia). done.
  - rewrite length_drop, length_app, length_message, length_init_info. lia.
  - eexists. rewrite Hget by lia. split; [done|].
    replace (Z.to_nat (48 + 8 + (Z.of_nat (length uri) + 1))) with (57 + length uri)%nat by lia. change (Z.to_nat 8) with 8%nat.
    unfold init_info. rewrite drop_app_ge, Hg by lia. rewrite drop_app_ge, length_le by (rewrite length_le; lia).
    rewrite drop_app_ge, length_app by (rewrite length_app; cbn; lia). cbn [length].
    replace (57 + length uri - 48 - 8 - (length uri + 1))%nat with 0%nat by lia.
    rewrite drop_0, take_ge by (rewrite length_le; lia). done.
Qed.

Lemma set_recv_ok p i w d b : client_ok p i w d -> msg_buf b -> client_ok (pr_set_recv b p) i w d.
Proof. by intros [? ? ?]. Qed.
Lemma set_send_ok p i w d b : client_ok p i w d -> msg_buf b -> client_ok (pr_set_send b p) i w d.
Proof. by intros [? ? ?]. Qed.

Lemma data_put_msg b off bs : msg_buf b -> 0 <= off -> off + Z.of_nat (length bs) <= FLA_MSG_DATA_MAX -> Forall is_byte bs ->
  exists b', data_put b off bs = Some b' /\ msg_buf b'.
Proof.
  intros [Hl Hf] Ho Hlen Hb. unfold data_put. unfold FLA_MSG_BUFSIZ, sizeof_msg_header, FLA_MSG_DATA_MAX in *.
  rewrite buf_put_in by lia. eexists. split; [done|]. split.
  - rewrite length_buf_put by lia. done.
  - auto using Forall_app_2, Forall_take, Forall_drop.
Qed.

(** C13: Connecting transfers the description of the system.  The answer to a client's
    [fla_daemon_fs_init_rq] is taken apart into the geometry of the daemon's system
    and the URI of its device (with a second terminator); the client allocates zeroed
    pool entries for that geometry and opens the same device. *)
Theorem client_init p i w d uri c1 c2 c3 dev geo : client_ok p i w d -> geo = fs_geo (h_fs (dm_flexalloc d)) -> geo_fits geo ->
  dm_dev_uri d = uri ++ [0] -> dm_md_dev_uri d = None -> Forall (fun c => c <> 0) uri -> Forall is_byte uri ->
  Z.of_nat (length uri) <= 1983 ->
  malloc (pr_c p) (Z.of_nat (length uri) + 2) = (c1, true) -> malloc c1 (sizeof_pool_entry * g_npools geo) = (c2, true) ->
  fla_xne_dev_open c2 (uri ++ [0; 0]) None = (c3, Some dev, 0) ->
  exists p', fla_daemon_fs_init_rq p = Some (p', 0) /\ client_ok p' i w d /\ pr_c p' = c3 /\
    pr_fs p' = mk_client_fs geo (g_lb_nbytes geo) (Some (uri ++ [0; 0])) None (Some (zero_entries (g_npools geo)))
                 (Some dev) (cf_md_dev (pr_fs p)).
Proof.
  intros Hok Hgeo Hg Hu Hmd Hnz Hub Hlen Hm1 Hm2 Hopen. unfold fla_daemon_fs_init_rq.
  assert (Forall is_byte (replicate (Z.to_nat FLA_MSG_DATA_MAX) 0)) as Hz by (apply Forall_replicate; unfold is_byte; lia).
  destruct (data_put_msg (pr_send p) 0 (replicate (Z.to_nat FLA_MSG_DATA_MAX) 0)) as (b1 & -> & Hb1);
    [apply Hok|lia|by rewrite length_replicate|done|]. bind_step.
  destruct (data_put_msg (pr_recv p) 0 (replicate (Z.to_nat FLA_MSG_DATA_MAX) 0)) as (b2 & -> & Hb2);
    [apply Hok|lia|by rewrite length_replicate|done|]. bind_step.
  set (p0 := pr_set_send b1 (pr_set_recv b2 p)).
  assert (Z.of_nat (length (init_info geo uri)) <= FLA_MSG_DATA_MAX) as Hil by (rewrite length_init_info; unfold FLA_MSG_DATA_MAX; lia).
  destruct (request_serves p0 i w d FLA_MSG_CMD_INIT_INFO [] w d (init_info geo uri)) as (p1 & tag & rest & -> & Hok1 & Hr & Hc & Hf);
    [by apply set_send_ok, Hb1; apply set_recv_ok|done..|by apply init_info_bytes|by rewrite Hgeo in *; apply fs_init_serves|].
  bind_step. no_err. destruct (init_info_parts geo uri _ _ _ _ Hr) as (Hp1 & (l & Hp2 & Hl) & Hp3 & Hp4 & m & Hp5 & Hm).
  { unfold is_u32. lia. }
  rewrite Hp1. bind_step. rewrite Hp2. bind_step. rewrite Hl, geo_load_bytes, Hc by done. cbn [pr_c p0 pr_set_send pr_set_cl pr_set_recv].
  rewrite u64_small by (unfold is_u64; lia). replace (Z.of_nat (length uri) + 1 + 1) with (Z.of_nat (length uri) + 2) by lia.
  rewrite Hm1. change (pr_recv (pr_set_c c1 p1)) with (pr_recv p1).
  assert (fla_strndup true (drop (8 + 56) (pr_recv p1)) (Z.to_nat (Z.of_nat (length uri) + 1)) = Some (Some (uri ++ [0; 0]))) as ->.
  { unfold fla_strndup. replace (Z.to_nat (Z.of_nat (length uri) + 1)) with (S (length uri)) by lia. rewrite decide_True by done.
    by rewrite Hp3, <- app_assoc. }
  bind_step. rewrite Hp5. bind_step. rewrite Hm. change (0 =? 0) with true. cbv iota. unfold fs_init_open.
  cbn [pr_fs pr_cl pr_set_fs pr_set_cl cl_fs pr_c pr_set_c cf_geo cf_dev_uri cf_md_dev_uri]. rewrite Hm2. cbn [negb]. bind_step.
  cbn [pr_c pr_set_c]. rewrite Hopen. change (negb (0 =? 0)) with false. change (0 =? 0) with true. cbv iota.
  eexists. split; [done|]. split; [by destruct Hok1|]. split; [done|].
  change (cl_fs (pr_cl p1)) with (pr_fs p1). cbn [pr_fs pr_cl pr_set_fs pr_set_cl cl_fs cf_md_dev cf_lb_nbytes]. rewrite Hf. done.
Qed.
End connect.

(** ** A daemon with one client

    The formatted system of [History] with its pool, served to a client that connected
    as descriptor 7. *)
Definition ex_served : fla_daemon :=
  mk_daemon (mk_handle ex_fs2 (h_dp ex_handle) (h_buf ex_handle)) [100; 0] None (mk_identity 1000 1) 3 2 0.
Definition ex_served_loop : loop RamDisk.world net :=
  mk_loop (mk_server ex_disk (mk_net {[7 := mk_conn [] [] false]} 3 [] [] 0) ex_served (replicate 2056 0) (replicate 2056 0))
    [mk_pollfd 3 POLLIN 0; mk_pollfd 7 POLLIN 0] 1 1.
Definition ex_client_fs : client_fs :=
  mk_client_fs (fs_geo ex_fs2) 16 (Some [100; 0]) None (Some (zero_entries 2)) (Some ex_dev1k) None.
Definition ex_process : process RamDisk.world (remote RamDisk.world) :=
  mk_process ex_disk (mk_remote ex_served_loop 7 0)
    (mk_client ex_client_fs (mk_identity 1000 1) 5 (replicate 2056 0) (replicate 2056 0)).

Lemma ex_process_ok : client_ok ex_process 1 ex_disk ex_served.
Proof.
  split; [|apply ex_buf_ok..]. split; [|reflexivity..]. split.
  - split; [reflexivity|split; [reflexivity|cbn; lia]|cbn; lia| | |reflexivity].
    + intros j fd Hj Hl. apply lookupZ_Some in Hl. cbn in Hj, Hl. lia.
    + intros j fd Hj Hl. pose proof (lookupZ_Some _ _ _ Hl) as Hr. cbn in Hr. replace j with 1 in Hl by lia. by injection Hl as <-.
  - reflexivity.
  - reflexivity.
  - split; [cbn; lia|]. split; [cbn; lia|]. by eexists.
  - intros j c Hj H0 Hl. pose proof (lookupZ_Some _ _ _ Hl) as Hr. cbn in Hr. lia.
  - split; apply ex_buf_ok.
Qed.

Definition ex_calls : list call := [CallObjectCreate ex_pool; CallObjectDestroy ex_pool (mk_obj 0 0); CallSync].

Lemma remote_refines_witness : exists p' w' h' rs,
  direct (C := RamDisk.world) ex_disk (dm_flexalloc ex_served) ex_calls w' h' rs /\
  run_calls (W := RamDisk.world) (lib_client ex_process) ex_calls = Some (lib_client p', zip_with reported ex_calls rs).
Proof.
  assert (exists w' h' rs, direct (C := RamDisk.world) ex_disk (dm_flexalloc ex_served) ex_calls w' h' rs)
    as (w' & h' & rs & Hd).
  { eexists _, _, _. eapply direct_cons; [reflexivity|vm_compute; reflexivity|reflexivity|].
    eapply direct_cons; [reflexivity|vm_compute; reflexivity|reflexivity|].
    eapply direct_cons; [reflexivity|vm_compute; reflexivity|reflexivity|]. apply direct_nil. }
  destruct (remote_refines ex_disk ex_served ex_calls w' h' rs ex_process 1 Hd) as (p' & Hrun & _).
  - repeat constructor; cbn; lia.
  - apply ex_process_ok.
  - exists p', w', h', rs. split; [exact Hd|exact Hrun].
Defined.

(** The client's device table: the URI arrives with two terminators. *)
Definition ex_client_disks : XnvmeAdm RamDisk.world := RamAdm.adm [([100; 0; 0], ex_dev1k)] false.

Lemma ex_geo_fits : geo_fits (fs_geo (h_fs (dm_flexalloc ex_served))).
Proof. split; [vm_compute; split; congruence|]. repeat constructor; vm_compute; congruence. Qed.

Notation ex_served_geo := (fs_geo (h_fs (dm_flexalloc ex_served))).

Lemma client_init_witness : exists p', @fla_daemon_fs_init_rq RamDisk.world (remote RamDisk.world) _ ex_client_disks _ ex_process = Some (p', 0) /\
  cf_geo (pr_fs p') = ex_served_geo /\ cf_dev (pr_fs p') = Some ex_dev1k.
Proof.
  destruct (client_init (XnvmeAdm1 := ex_client_disks) ex_process 1 ex_disk ex_served [100] ex_disk ex_disk ex_disk ex_dev1k
    ex_served_geo) as (p' & Hrun & _ & _ & Hfs).
  - apply ex_process_ok.
  - reflexivity.
  - apply ex_geo_fits.
  - reflexivity.
  - reflexivity.
  - by repeat constructor.
  - by repeat constructor.
  - cbn. lia.
  - vm_compute. reflexivity.
  - vm_compute. reflexivity.
  - vm_compute. reflexivity.
  - exists p'. split; [exact Hrun|]. rewrite Hfs. split; reflexivity.
Defined.

(** ** Where the daemon differs *)

Definition ex_direct : fla_lib RamDisk.world RamDisk.world (remote RamDisk.world) := lib_base ex_disk (dm_flexalloc ex_served).
Definition ex_remote : fla_lib RamDisk.world RamDisk.world (remote RamDisk.world) := lib_client ex_process.

Definition ex_before1 : list call := [CallSetRoot ex_pool (mk_obj 1 2) ROOT_OBJ_SET_DEF].
Definition ex_before2 : list call := ex_before1 ++ [CallObjectOpen ex_pool (mk_obj 77 0)].

(** The results of a call, without the state. *)
Definition outcome {A B} (r : option (A * B * Z)) : option (B * Z) := '(_, b, err) ← r; Some (b, err).

(** Calls that the daemon does not serve as the library does.  Opening an existing
    pool stores the handle through [NULL]; creating a pool sends a message of the
    length of the previous request, here of a root object, so that the daemon creates
    a pool of another name; asking for a root object returns the error code of the
    previous answer, here of a refused object. *)
Theorem remote_calls_differ :
  (outcome (fla_pool_open ex_direct [97; 0]) = Some (Some ex_pool, 0) /\ fla_pool_open ex_remote [97; 0] = None) /\
  (outcome ('(l, _) ← run_calls ex_direct ex_before1; fla_pool_create l (ex_arg 98 10) 0) = Some (Some (mk_pool 98 1), 0) /\
   outcome ('(l, _) ← run_calls ex_remote ex_before1; fla_pool_create l (ex_arg 98 10) 0) = Some (Some (mk_pool 0 1), 0)) /\
  (outcome ('(l, _) ← run_calls ex_direct ex_before2; fla_pool_get_root_object l ex_pool) = Some (Some (mk_obj 1 2), 0) /\
   outcome ('(l, _) ← run_calls ex_remote ex_before2; fla_pool_get_root_object l ex_pool) = Some (None, 1)).
Proof. split_and!; vm_compute; reflexivity. Qed.
