(* ===== verification/Clients.v ===== *)
(** * Clients: several clients of one daemon

    The processes of several clients and the daemon's loop, interleaved: a client sends
    a request and, later, takes the answer, or it closes its handle and leaves; in
    between the other clients send theirs and the daemon makes passes of its loop.
    [crowd_step] runs the code of the client ([request] in its two halves,
    [fla_daemon_close_rq]) and of the daemon ([loop_pass]) on the shared network.  The
    specification is a sequential server: a pass visits the clients in the order of the
    table, performs the calls of the waiting ones on the handle, synchronises for those
    that leave, and frees the entries of those that have left. *)
From S2P Require Import Prelude Util Freelist Hash XnvmeEnv Flexalloc PoolEntry Geometry SlabList SlabCache Slab Pool Object Alloc.
From S2P Require Import DataPlacement Layout System History Socket Daemon DaemonLoop DaemonClient Remote Dispatch.

(** ** The two halves of a call *)

Section halves.
Context {W C : Type} `{XnvmeEnv W} `{!XnvmeAdm W} `{XnvmeEnv C} `{!XnvmeAdm C}.
Notation process := (process C (remote W)).

(** Filling the send buffer and sending. *)
Definition begin_call (p : process) (c : call) : option (process * Z) :=
  b ← data_put (pr_send p) 0 (call_bytes c);
  let p := pr_set_send (set_hdr_cmd (call_cmd c) (set_hdr_len (Z.of_nat (length (call_bytes c))) b)) p in
  '(n, err) ← fla_sock_send_msg (pr_n p) (cl_sock_fd (pr_cl p)) (pr_send p);
  Some (pr_set_n n p, err).

(** Receiving and taking the result out of the answer. *)
Definition end_call (p : process) (c : call) : option (process * option fla_object * Z) :=
  '(n, recv, err) ← fla_sock_recv_msg (pr_n p) (cl_sock_fd (pr_cl p)) (pr_recv p);
  let p := pr_set_recv recv (pr_set_n n p) in
  if negb (err =? 0) then Some (p, None, err) else take_answer p c.

(** A call of the library is the one half after the other. *)
Lemma call_halves (p : process) c : run_call (W := W) (lib_client p) c =
  ('(p, err) ← begin_call p c;
   if negb (err =? 0) then Some (lib_client p, None, err) else
   '(p, o, err) ← end_call p c; Some (lib_client p, o, err)).
Proof.
  rewrite client_call. unfold request, begin_call, end_call, fla_send_recv.
  destruct (data_put _ _ _) as [b|]; [|done]. bind_step.
  destruct (fla_sock_send_msg _ _ _) as [[n err]|]; [|done]. bind_step. cbn [pr_n pr_set_n pr_cl pr_recv pr_set_send pr_set_cl].
  destruct (negb (err =? 0)) eqn:E; [by bind_step; rewrite E|].
  destruct (fla_sock_recv_msg _ _ _) as [[[n' recv] err']|]; [|done]. bind_step. by destruct (negb (err' =? 0)).
Qed.

(** ** Clients and the daemon *)

Inductive event :=
  | Submit (i : Z) (c : call)
  | Pass
  | Collect (i : Z)
  | Leave (i : Z).

(** A client's process and the call it is in. *)
Record seat := mk_seat { st_proc : process; st_call : option call }.

(** The daemon's loop, with the network, and the clients by their entry in the table. *)
Record crowd := mk_crowd { cw_loop : loop W net; cw_seats : gmap Z seat }.

(** The process on the network as it is now. *)
Definition on_net (l : loop W net) (p : process) : process := pr_set_n (mk_remote l (rm_fd (pr_n p)) (rm_errno (pr_n p))) p.

(** What a client's call returned. *)
Definition output : Type := Z * call * (option fla_object * Z).

(** A step that is not enabled is [None]: a client that is in a call makes no other, and
    its [recv] waits while no answer has been sent.  A client that has closed its handle
    is gone. *)
Definition crowd_step (s : crowd) (ev : event) : option (crowd * list output) :=
  match ev with
  | Submit i c =>
      st ← cw_seats s !! i;
      match st_call st with
      | Some _ => None
      | None =>
          '(p, err) ← begin_call (on_net (cw_loop s) (st_proc st)) c;
          let l := rm_loop (pr_n p) in
          if err =? 0 then Some (mk_crowd l (<[i := mk_seat p (Some c)]> (cw_seats s)), [])
          else Some (mk_crowd l (<[i := mk_seat p None]> (cw_seats s)), [(i, c, (None, err))])
      end
  | Pass =>
      '(l, ret) ← loop_pass msg_handler (cw_loop s);
      match ret with None => Some (mk_crowd l (cw_seats s), []) | Some _ => None end
  | Collect i =>
      st ← cw_seats s !! i;
      c ← st_call st;
      let p := on_net (cw_loop s) (st_proc st) in
      conn ← rm_conn (pr_n p);
      match cn_out conn with
      | [] => None
      | _ =>
          '(p, o, err) ← end_call p c;
          Some (mk_crowd (rm_loop (pr_n p)) (<[i := mk_seat p None]> (cw_seats s)), [(i, c, (o, err))])
      end
  | Leave i =>
      st ← cw_seats s !! i;
      match st_call st with
      | Some _ => None
      | None =>
          '(p, err) ← fla_daemon_close_rq (on_net (cw_loop s) (st_proc st));
          Some (mk_crowd (rm_loop (pr_n p))
            (partial_alter (fun _ => if err =? 0 then None else Some (mk_seat p None)) i (cw_seats s)), [])
      end
  end.

Fixpoint crowd_run (s : crowd) (evs : list event) : option (crowd * list output) :=
  match evs with
  | [] => Some (s, [])
  | ev :: evs =>
      '(s, out) ← crowd_step s ev;
      '(s, outs) ← crowd_run s evs;
      Some (s, out ++ outs)
  end.

(** ** The sequential server *)

(** A client that is leaving has closed its handle, its last message is still to be read;
    one that has left is still in the table. *)
Inductive phase := Idle | Waiting (c : call) | Answered (c : call) (r : option fla_object * Z) | Leaving | Left.

Definition phase_call (ph : phase) : option call :=
  match ph with Waiting c | Answered c _ => Some c | _ => None end.
(** The client has its process. *)
Definition seated (ph : phase) : bool := match ph with Leaving | Left => false | _ => true end.
(** The daemon has something to read. *)
Definition ready (ph : option phase) : bool := match ph with Some (Waiting _ | Leaving | Left) => true | _ => false end.

(** What the daemon does on its handle: a call, or the synchronisation for a client that
    leaves. *)
Inductive job := Asked (c : call) | Farewell.
Definition job_call (j : job) : call := match j with Asked c => c | Farewell => CallSync end.
Definition performed : Type := Z * job * (option fla_object * Z).

(** The visit to the client of entry [i]: its phase before and after, [None] for a free
    entry.  A client whose farewell fails is disconnected at once. *)
Inductive visit (i : Z) : W -> handle -> option phase -> W -> handle -> option phase -> list performed -> Prop :=
  | visit_call w h c w' h' r : direct (C := C) w h [c] w' h' [r] ->
      visit i w h (Some (Waiting c)) w' h' (Some (Answered c r)) [(i, Asked c, r)]
  | visit_leaving w h w' h' r : direct (C := C) w h [CallSync] w' h' [r] ->
      visit i w h (Some Leaving) w' h' (if r.2 =? 0 then Some Left else None) [(i, Farewell, r)]
  | visit_left w h : visit i w h (Some Left) w h None []
  | visit_rest w h ph : ready ph = false -> visit i w h ph w h ph [].

(** The entries [i .. i + k). *)
Inductive visits : Z -> nat -> W -> handle -> gmap Z phase -> W -> handle -> gmap Z phase -> list performed -> Prop :=
  | visits_nil i w h m : visits i 0 w h m w h m []
  | visits_cons i k w h m w1 h1 ph d1 w2 h2 m2 d2 : visit i w h (m !! i) w1 h1 ph d1 ->
      visits (i + 1) k w1 h1 (partial_alter (fun _ => ph) i m) w2 h2 m2 d2 -> visits i (S k) w h m w2 h2 m2 (d1 ++ d2).

(** [sp_n] entries of the table may be in use. *)
Record spec := mk_spec { sp_w : W; sp_h : handle; sp_n : nat; sp_phase : gmap Z phase }.

(** One step, the jobs done in it with their results, and what clients are told. *)
Inductive spec_step : spec -> event -> spec -> list performed -> list output -> Prop :=
  | spec_submit w h n m i c : m !! i = Some Idle -> call_fits c ->
      spec_step (mk_spec w h n m) (Submit i c) (mk_spec w h n (<[i := Waiting c]> m)) [] []
  | spec_pass w h n m w' h' m' d : m <> ∅ -> visits 1 n w h m w' h' m' d ->
      spec_step (mk_spec w h n m) Pass (mk_spec w' h' n m') d []
  | spec_collect w h n m i c r : m !! i = Some (Answered c r) ->
      spec_step (mk_spec w h n m) (Collect i) (mk_spec w h n (<[i := Idle]> m)) [] [(i, c, reported c r)]
  | spec_leave w h n m i : m !! i = Some Idle ->
      spec_step (mk_spec w h n m) (Leave i) (mk_spec w h n (<[i := Leaving]> m)) [] [].

Inductive spec_run : spec -> list event -> spec -> list performed -> list output -> Prop :=
  | spec_run_nil a : spec_run a [] a [] []
  | spec_run_cons a ev a1 done1 out1 evs a2 done2 out2 : spec_step a ev a1 done1 out1 -> spec_run a1 evs a2 done2 out2 ->
      spec_run a (ev :: evs) a2 (done1 ++ done2) (out1 ++ out2).
End halves.
Arguments seat : clear implicits.
Arguments crowd : clear implicits.
Arguments spec : clear implicits.

(** ** A pass with any number of waiting clients *)

Section pass.
Context {W C : Type} `{XnvmeEnv W} `{!XnvmeAdm W} `{XnvmeEnv C} `{!XnvmeAdm C}.
Implicit Types (l : loop W net) (m : gmap Z phase).

(** Entry [i] of the table belongs to the client with descriptor [fd]. *)
Definition entry l (i fd : Z) : Prop :=
  0 < i <= lp_max_ndx l /\ 0 <= fd /\ exists c, lookupZ (lp_clients l) i = Some c /\ pf_fd c = fd.

(** The daemon with its clients connected, each through a descriptor of its own. *)
Record hub l : Prop := {
  hb_inv : loop_inv l;
  hb_listen : nt_listen (lp_n l) = dm_listen_fd (sv_d (lp_sv l));
  hb_backlog : nt_backlog (lp_n l) = [];
  hb_fds : forall i j fd, entry l i fd -> entry l j fd -> i = j;
  hb_bufs : msg_buf (sv_recv (lp_sv l)) /\ msg_buf (sv_send (lp_sv l))
}.

(** The connection of a client in a phase. *)
Definition conn_phase (ph : phase) (cn : conn) : Prop :=
  match ph with
  | Idle => cn = mk_conn [] [] false
  | Waiting c => call_fits c /\ exists tag, is_u16 tag /\ cn = mk_conn (message (call_cmd c) tag (call_bytes c)) [] false
  | Answered c r => err_fits c r.2 /\ exists tag body, is_u16 tag /\ answer_body c r body /\
      cn = mk_conn [] (message (call_cmd c) tag body) false
  | Leaving => exists tag, is_u16 tag /\ cn = mk_conn (message FLA_MSG_CMD_SYNC_NO_RSPS tag []) [] true
  | Left => cn = mk_conn [] [] true
  end.

(** [m] are the phases of the clients. *)
Record board l m : Prop := {
  bd_phase : forall i ph, m !! i = Some ph -> exists fd cn, entry l i fd /\ nt_conns (lp_n l) !! fd = Some cn /\ conn_phase ph cn;
  bd_entry : forall i fd, entry l i fd -> is_Some (m !! i)
}.

(** How many of the entries [i .. i + k) are ready. *)
Fixpoint ready_count m (i : Z) (k : nat) : nat :=
  match k with O => 0 | S k => (if ready (m !! i) then 1 else 0) + ready_count m (i + 1) k end.

Lemma message_cons cmd tag bs : exists b rest, message cmd tag bs = b :: rest.
Proof. unfold message. cbn [le]. eauto. Qed.

Lemma entry_fun l i fd fd' : entry l i fd -> entry l i fd' -> fd = fd'.
Proof. intros (_ & _ & c & Hc & <-) (_ & _ & c' & Hc' & <-). congruence. Qed.

(** The daemon's side changes, the table of clients does not. *)
Lemma entry_same l l' i fd : pf_fd <$> lp_clients l' = pf_fd <$> lp_clients l -> lp_max_ndx l' = lp_max_ndx l ->
  entry l i fd -> entry l' i fd.
Proof.
  intros Hcs Hm (Hi & Hfd & c & Hc & Hcfd). split; [by rewrite Hm|]. split; [done|].
  apply (f_equal (fun x => lookupZ x i)) in Hcs. rewrite !lookupZ_fmap, Hc in Hcs. cbn in Hcs.
  destruct (lookupZ (lp_clients l') i) as [c'|]; [|done]. exists c'. split; [done|]. injection Hcs as ->. done.
Qed.

Lemma board_revents l m j c : hub l -> board l m -> 0 < j <= lp_max_ndx l -> lookupZ (lp_clients l) j = Some c ->
  net_revents (lp_n l) c = (if ready (m !! j) then POLLIN else 0) /\ (ready (m !! j) = true -> entry l j (pf_fd c)).
Proof.
  intros Hh Hb Hj Hc. unfold net_revents. destruct (Z.ltb_spec (pf_fd c) 0) as [Hneg|Hge].
  - destruct (m !! j) as [ph|] eqn:E; [|done]. exfalso. destruct (bd_phase _ _ Hb j ph E) as (fd & _ & (_ & Hfd & c' & Hc' & Hcf) & _).
    rewrite Hc in Hc'. simplify_eq. lia.
  - assert (entry l j (pf_fd c)) as He by (split; [done|]; split; [done|]; by exists c).
    destruct (bd_entry _ _ Hb j _ He) as [ph Hph]. rewrite Hph.
    destruct (bd_phase _ _ Hb j ph Hph) as (fd & cn & He' & Hcn & Hphase). rewrite (entry_fun _ _ _ _ He' He) in Hcn.
    rewrite (proj2 (Z.eqb_neq _ _)).
    2: { rewrite (hb_listen _ Hh). apply (so_other _ _ _ _ _ (hb_inv _ Hh) j); [lia|]. by rewrite lookupZ_fmap, Hc. }
    unfold conn_of. rewrite Hcn. cbn [default]. split; [|done]. destruct ph as [|call|call r| |]; cbn [conn_phase] in Hphase.
    + by rewrite Hphase.
    + destruct Hphase as (_ & tag & _ & ->). destruct (message_cons (call_cmd call) tag (call_bytes call)) as (b & rest & ->). done.
    + by destruct Hphase as (_ & tag & body & _ & _ & ->).
    + by destruct Hphase as (tag & _ & ->).
    + by rewrite Hphase.
Qed.

(** [poll] counts the ready clients. *)
Lemma board_count l m k : hub l -> board l m -> forall i, 0 < i -> i + Z.of_nat k <= lp_max_ndx l + 1 ->
  length (filter (fun r => r <> 0) (net_revents (lp_n l) <$> take k (drop (Z.to_nat i) (lp_clients l)))) = ready_count m i k.
Proof.
  intros Hh Hb. induction k as [|k IH]; intros i Hi Hk; [done|].
  pose proof (so_length _ _ _ _ _ (hb_inv _ Hh)) as Hlen. pose proof (so_max _ _ _ _ _ (hb_inv _ Hh)) as Hmax. rewrite length_fmap in Hlen.
  destruct (lookupZ_is_Some (lp_clients l) i) as [c Hc]; [lia|].
  destruct (board_revents l m i c Hh Hb ltac:(lia) Hc) as [Hr _]. unfold lookupZ in Hc. rewrite (proj2 (Z.ltb_ge _ _)) in Hc by lia.
  rewrite (drop_S _ c _ Hc). cbn [take]. rewrite fmap_cons, filter_cons, Hr. cbn [ready_count].
  replace (S (Z.to_nat i)) with (Z.to_nat (i + 1)) by lia.
  destruct (ready (m !! i)); [rewrite decide_True by done|rewrite decide_False by (intros Hn; by apply Hn)]; cbn [length]; rewrite IH by lia; done.
Qed.

(** Only the connection [fd] of entry [i] changes, and the client's phase with it. *)
Lemma board_update l l' m i fd cn ph : hub l -> board l m -> entry l i fd ->
  pf_fd <$> lp_clients l' = pf_fd <$> lp_clients l -> lp_max_ndx l' = lp_max_ndx l ->
  nt_conns (lp_n l') = <[fd := cn]> (nt_conns (lp_n l)) -> conn_phase ph cn -> board l' (<[i := ph]> m).
Proof.
  intros Hh Hb He Hcs Hm Hn Hph.
  assert (forall j x, entry l j x <-> entry l' j x) as Hent by (intros; split; by apply entry_same).
  split.
  - intros j ph' Hj. apply lookup_insert_Some in Hj as [[<- <-]|[Hne Hj]].
    + exists fd, cn. split; [by apply Hent|]. split; [by rewrite Hn, lookup_insert_eq|done].
    + destruct (bd_phase _ _ Hb j ph' Hj) as (fd' & cn' & He' & Hcn' & Hph'). exists fd', cn'. split; [by apply Hent|]. split; [|done].
      rewrite Hn, lookup_insert_ne; [done|]. intros ->. apply Hne. by eapply hb_fds.
  - intros j fd' Hj. apply Hent in Hj. rewrite lookup_insert_is_Some.
    destruct (decide (i = j)); [by left|right]. split; [done|]. by eapply bd_entry.
Qed.

Lemma hub_update l l' : hub l -> keeps (lp_sv l) (lp_sv l') -> pf_fd <$> lp_clients l' = pf_fd <$> lp_clients l ->
  lp_max_ndx l' = lp_max_ndx l -> lp_active l' = lp_active l -> nt_listen (lp_n l') = nt_listen (lp_n l) ->
  nt_backlog (lp_n l') = nt_backlog (lp_n l) -> msg_buf (sv_recv (lp_sv l')) /\ msg_buf (sv_send (lp_sv l')) -> hub l'.
Proof.
  intros [Hi Hl Hb Hf Hbuf] [Hk1 Hk2] Hcs Hm Ha Hls Hbl Hbuf'. split; [|by rewrite Hls, Hk1|by rewrite Hbl| |done].
  - unfold loop_inv in *. by rewrite Hk1, Hk2, Hm, Ha, Hcs.
  - intros i j fd Hi' Hj'. apply (Hf i j fd); (eapply entry_same; [..|eassumption]); done.
Qed.

Lemma board_same l l' m : board l m -> pf_fd <$> lp_clients l' = pf_fd <$> lp_clients l -> lp_max_ndx l' = lp_max_ndx l ->
  nt_conns (lp_n l') = nt_conns (lp_n l) -> board l' m.
Proof.
  intros [Hp He] Hcs Hm Hn. split.
  - intros j ph Hj. destruct (Hp j ph Hj) as (fd & cn & Hent & Hx). exists fd, cn. rewrite Hn. split; [by eapply entry_same|done].
  - intros j fd Hj. apply (He j fd). by eapply entry_same; [symmetry|..].
Qed.

(** What serving clients leads to: entries are given up, none is taken. *)
Record served l l' m' (w' : W) (h' : handle) : Prop := {
  sd_hub : hub l';
  sd_board : board l' m';
  sd_w : sv_w (lp_sv l') = w';
  sd_h : dm_flexalloc (sv_d (lp_sv l')) = h';
  sd_max : lp_max_ndx l' = lp_max_ndx l;
  sd_entry : forall j fd, entry l' j fd -> entry l j fd
}.

(** The entries but [i] stay as [poll] left them. *)
Definition others l (i : Z) l' : Prop := forall j c, j <> i -> lookupZ (lp_clients l') j = Some c -> lookupZ (lp_clients l) j = Some c.

Lemma served_trans l l1 m1 w1 h1 l2 m2 w2 h2 : served l l1 m1 w1 h1 -> served l1 l2 m2 w2 h2 -> served l l2 m2 w2 h2.
Proof. intros [_ _ _ _ S5 S6] [T1 T2 T3 T4 T5 T6]. split; try done; [congruence|eauto]. Qed.

(** One waiting client is served. *)
Lemma serve_waiting l m i fd c w2 h2 r : hub l -> board l m -> entry l i fd -> m !! i = Some (Waiting c) ->
  direct (C := C) (sv_w (lp_sv l)) (dm_flexalloc (sv_d (lp_sv l))) [c] w2 h2 [r] ->
  exists l', serve_client msg_handler l i fd = Some (l', true) /\ served l l' (<[i := Answered c r]> m) w2 h2 /\ others l i l'.
Proof.
  intros Hh Hb He Hm Hd. destruct (bd_phase _ _ Hb i _ Hm) as (fd' & cn & He' & Hcn & Hfit & tag & Htag & ->).
  rewrite (entry_fun _ _ _ _ He' He) in Hcn. destruct (hb_bufs _ Hh) as [Hr Hs].
  inversion Hd as [|w h c' w1 w2' h2' o err cs w3 h3 rs Hmal Hrun Herr Hnil]; subst. inversion Hnil; subst.
  destruct (call_served _ (sv_d (lp_sv l)) c w1 w2 h2 o err Hfit Hmal Hrun) as (body & Hserv & Hbody).
  destruct (call_request c) as (Hcmd & Hnull & Hl & Hbs). destruct (answer_body_bytes _ _ _ Hbody) as [Hbb Hbl].
  destruct (Hserv _ fd tag (prepared_handling l fd _ tag _ Hcn Hcmd Htag Hl Hbs Hr Hs) eq_refl eq_refl)
    as (s' & Hmsg & [Hw' Hd' Hk Hn Hbufs]). cbn [sv_n] in Hn. rewrite answered_net_set in Hn.
  exists (lp_set_sv s' l). split; [by apply (serve_message l i fd (call_cmd c) tag (call_bytes c))|]. split; [|by intros ?]. split; try done.
  - apply (hub_update l); try done; unfold lp_n; cbn [lp_sv lp_set_sv]; by rewrite Hn.
  - apply (board_update l _ m i fd (mk_conn [] (message (call_cmd c) tag body) false)); try done;
      [unfold lp_n; cbn [lp_sv lp_set_sv]; by rewrite Hn|]. split; [done|]. by exists tag, body.
  - cbn [lp_sv lp_set_sv]. rewrite Hd'. by destruct (sv_d (lp_sv l)).
Qed.

(** A client is disconnected. *)
Lemma disconnect_served l m i fd : hub l -> board l m -> entry l i fd ->
  exists l', fla_daemon_client_disconnect l i = Some l' /\
    served l l' (delete i m) (sv_w (lp_sv l)) (dm_flexalloc (sv_d (lp_sv l))) /\ others l i l'.
Proof.
  intros Hh Hb He. pose proof He as (Hi & Hfd & c & Hc & Hcfd).
  destruct (fla_daemon_client_disconnect l i) as [l'|] eqn:Hd; [|unfold fla_daemon_client_disconnect in Hd; by rewrite Hc in Hd].
  destruct (disconnect_inv _ _ c _ Hd (hb_inv _ Hh) Hc ltac:(lia) ltac:(lia)) as [Hinv Hmax].
  unfold fla_daemon_client_disconnect in Hd. rewrite Hc in Hd. cbn [mbind option_bind] in Hd. injection Hd as <-.
  match goal with |- exists _, Some ?x = _ /\ _ => set (l' := x) in * end. exists l'. split; [done|].
  assert (forall j x, entry l' j x -> j <> i /\ entry l j x) as Hsub.
  { intros j x (Hj & Hx & cj & Hcj & Hcx). cbn [lp_clients l' lp_set_clients] in Hcj.
    apply lookupZ_insertZ_Some in Hcj as [[_ <-]|[Hne Hcj]]; [cbn in Hcx; unfold FLA_DAEMON_FD_FREE in Hcx; lia|].
    split; [congruence|]. split; [done|]. split; [done|by exists cj]. }
  split; [split; try done; [split; [done|apply Hh|apply Hh| |apply Hh]|split|]|].
  - intros j k x [_ Hj]%Hsub [_ Hk]%Hsub. by eapply hb_fds.
  - intros j ph [Hne Hj]%lookup_delete_Some. destruct (bd_phase _ _ Hb j ph Hj) as (x & cn & Hx & Hcn & Hph).
    exists x, cn. split; [|split; [|done]].
    + destruct Hx as (Hj' & Hx & cj & Hcj & Hcx). split; [done|]. split; [done|]. exists cj. split; [|done].
      cbn [lp_clients l' lp_set_clients]. by rewrite lookupZ_insertZ_ne.
    + unfold lp_n. cbn. rewrite lookup_delete_ne; [done|]. intros <-. apply Hne. eapply hb_fds; [done|exact He|by rewrite <- Hcfd].
  - intros j x [Hne Hj]%Hsub. rewrite lookup_delete_ne by done. by eapply bd_entry.
  - intros j x Hj. by apply Hsub.
  - intros j cj Hne Hcj. cbn [lp_clients l' lp_set_clients] in Hcj. by rewrite lookupZ_insertZ_ne in Hcj.
Qed.

(** A step of the daemon before clients are served. *)
Lemma served_after l l1 l2 m' w' h' : lp_clients l1 = lp_clients l -> lp_max_ndx l1 = lp_max_ndx l -> served l1 l2 m' w' h' ->
  served l l2 m' w' h'.
Proof.
  intros Hcs Hm [S1 S2 S3 S4 S5 S6]. split; try done; [congruence|].
  intros j fd Hj. eapply entry_same; [| |by apply S6]; by rewrite ?Hcs.
Qed.

(** The last message of a client is read: the daemon synchronises and does not answer. *)
Lemma serve_leaving l m i fd w2 h2 r : hub l -> board l m -> entry l i fd -> m !! i = Some Leaving ->
  direct (C := C) (sv_w (lp_sv l)) (dm_flexalloc (sv_d (lp_sv l))) [CallSync] w2 h2 [r] ->
  exists l', serve_client msg_handler l i fd = Some (l', true) /\
    served l l' (partial_alter (fun _ => if r.2 =? 0 then Some Left else None) i m) w2 h2 /\ others l i l'.
Proof.
  intros Hh Hb He Hm Hd. destruct (bd_phase _ _ Hb i _ Hm) as (fd' & cn & He' & Hcn & tag & Htag & ->).
  rewrite (entry_fun _ _ _ _ He' He) in Hcn. destruct (hb_bufs _ Hh) as [Hr Hs].
  inversion Hd as [|w h c' w1 w2' h2' o err cs w3 h3 rs Hmal Hrun Herr Hnil]; subst. inversion Hnil; subst. cbn in Hrun.
  destruct (fla_base_sync (sv_w (lp_sv l)) (dm_flexalloc (sv_d (lp_sv l)))) as [[[w' h'] e]|] eqn:Hsync; [|done]. cbn in Hrun.
  injection Hrun as -> -> _ ->. rewrite (serve_read l i fd FLA_MSG_CMD_SYNC_NO_RSPS tag [] true Hcn) by done.
  set (s1 := mk_server _ _ _ _ _). assert (msg_handler s1 fd = Some (sv_set_h h2 (sv_set_w w2 s1), if err =? 0 then 0 else -1)) as ->.
  { unfold msg_handler. destruct (message_hdr FLA_MSG_CMD_SYNC_NO_RSPS tag [] (drop 8 (sv_recv (lp_sv l)))) as (_ & Hcmd & _); [done..|].
    cbn [s1 sv_recv length Nat.add]. rewrite Hcmd.
    change (rsp_of FLA_MSG_CMD_SYNC_NO_RSPS) with (Some (fun s (fd : Z) => fla_daemon_sync_rsp (W := W) (N := net) s fd false)).
    unfold fla_daemon_sync_rsp, sv_h. cbn [s1 sv_w sv_d]. rewrite Hsync. done. }
  bind_step. set (l1 := lp_set_sv _ l).
  assert (hub l1) as Hh1.
  { apply (hub_update l); try done. split; [by apply received_buf|].
    apply hdr_put_msg; [rewrite length_le; lia|apply le_bytes|]. apply hdr_put_msg; [rewrite length_le; lia|apply le_bytes|done]. }
  assert (board l1 (<[i := Left]> m)) as Hb1 by (by apply (board_update l _ m i fd (mk_conn [] [] true))).
  cbn [snd]. destruct (Z.eqb_spec err 0) as [->|Hne]; cbn [negb Z.eqb].
  - exists l1. split; [done|]. split; [by split|by intros ?].
  - destruct (disconnect_served l1 (<[i := Left]> m) i fd Hh1 Hb1) as (l2 & -> & Hs2 & Ho); [by eapply entry_same; [..|exact He]|].
    bind_step. exists l2. split; [done|]. split; [|done]. apply (served_after l l1); [done..|]. by rewrite delete_insert_eq in Hs2.
Qed.

(** A client that has left is disconnected. *)
Lemma serve_left l m i fd : hub l -> board l m -> entry l i fd -> m !! i = Some Left ->
  exists l', serve_client msg_handler l i fd = Some (l', false) /\
    served l l' (delete i m) (sv_w (lp_sv l)) (dm_flexalloc (sv_d (lp_sv l))) /\ others l i l'.
Proof.
  intros Hh Hb He Hm. destruct (bd_phase _ _ Hb i _ Hm) as (fd' & cn & He' & Hcn & ->). rewrite (entry_fun _ _ _ _ He' He) in Hcn.
  destruct (hb_bufs _ Hh) as [Hr Hs]. pose proof (mb_length _ Hr) as Hlen. unfold FLA_MSG_BUFSIZ, sizeof_msg_header, FLA_MSG_DATA_MAX in Hlen.
  unfold serve_client. change (sys_read (lp_n l) fd sizeof_msg_header) with (net_read (lp_n l) fd false 8).
  assert (net_read (lp_n l) fd false 8 = Some (lp_n l, 0, [])) as -> by (unfold net_read, conn_of; by rewrite Hcn).
  bind_step. rewrite buf_put_0 by (cbn; lia). bind_step. change (negb (0 =? sizeof_msg_header)) with true. cbv iota. cbn [length app drop].
  set (l1 := lp_set_sv _ l).
  destruct (disconnect_served l1 m i fd) as (l2 & -> & Hs2 & Ho); [by apply (hub_update l)|by apply (board_same l)|by eapply entry_same; [..|exact He]|].
  bind_step. exists l2. split; [done|]. split; [by apply (served_after l l1)|done].
Qed.

(** A visit to a client that is ready. *)
Lemma serve_ready l m i fd w' h' ph d : hub l -> board l m -> entry l i fd -> ready (m !! i) = true ->
  visit (C := C) i (sv_w (lp_sv l)) (dm_flexalloc (sv_d (lp_sv l))) (m !! i) w' h' ph d ->
  exists l' counted, serve_client msg_handler l i fd = Some (l', counted) /\
    served l l' (partial_alter (fun _ => ph) i m) w' h' /\ others l i l'.
Proof.
  intros Hh Hb He Hrd Hv. inversion Hv as [w h c w1 h1 r Hd|w h w1 h1 r Hd|w h|w h ph' Hno]; subst; [| | |congruence].
  - destruct (serve_waiting l m i fd c w' h' r) as (l' & ? & ?); [done..|by exists l', true].
  - destruct (serve_leaving l m i fd w' h' r) as (l' & ? & ?); [done..|by exists l', true].
  - destruct (serve_left l m i fd) as (l' & ? & ?); [done..|by exists l', false].
Qed.

Lemma direct_app w h cs w1 h1 rs cs' w2 h2 rs' : direct (C := C) (W := W) w h cs w1 h1 rs ->
  direct (C := C) w1 h1 cs' w2 h2 rs' -> direct (C := C) w h (cs ++ cs') w2 h2 (rs ++ rs').
Proof. induction 1; [done|]. intros Hd. cbn [app]. econstructor; eauto. Qed.

Lemma ready_count_alter m j f k : forall i, j < i -> ready_count (partial_alter f j m) i k = ready_count m i k.
Proof. induction k as [|k IH]; intros i Hj; [done|]. cbn [ready_count]. rewrite lookup_partial_alter_ne, IH by lia. done. Qed.

(** Nothing happens at entries that are not ready. *)
Lemma visit_none i w h ph w' h' ph' d : visit (C := C) (W := W) i w h ph w' h' ph' d -> ready ph = false ->
  w' = w /\ h' = h /\ ph' = ph /\ d = [].
Proof. by destruct 1. Qed.

Lemma visits_none i k w h m w' h' m' d : visits (C := C) (W := W) i k w h m w' h' m' d -> ready_count m i k = O ->
  w' = w /\ h' = h /\ m' = m /\ d = [].
Proof.
  induction 1 as [|i k w h m w1 h1 ph d1 w2 h2 m2 d2 Hv _ IH]; intros Hc; [done|]. cbn [ready_count] in Hc.
  destruct (ready (m !! i)) eqn:E; [done|]. destruct (visit_none _ _ _ _ _ _ _ _ Hv E) as (-> & -> & -> & ->).
  rewrite partial_alter_self in IH. destruct (IH Hc) as (-> & -> & -> & ->). done.
Qed.

(** The loop over the clients visits them in order. *)
Lemma serve_all i k w h m w' h' m' d : visits (C := C) (W := W) i k w h m w' h' m' d -> forall l nready, hub l -> board l m -> 0 < i ->
  i + Z.of_nat k = lp_max_ndx l + 1 -> sv_w (lp_sv l) = w -> dm_flexalloc (sv_d (lp_sv l)) = h ->
  (forall j c, i <= j <= lp_max_ndx l -> lookupZ (lp_clients l) j = Some c -> pf_revents c = if ready (m !! j) then POLLIN else 0) ->
  Z.of_nat (ready_count m i k) <= nready ->
  exists l', serve_clients msg_handler k l i nready = Some l' /\ served l l' m' w' h'.
Proof.
  induction 1 as [i w h m|i k w h m w1 h1 ph d1 w2 h2 m2 d2 Hv Hvs IH]; intros l nready Hh Hb Hi Hk Hw Hhd Hrev Hn; cbn [ready_count serve_clients] in *.
  { exists l. by split. }
  pose proof (so_length _ _ _ _ _ (hb_inv _ Hh)) as Hlen. pose proof (so_max _ _ _ _ _ (hb_inv _ Hh)) as Hmax. rewrite length_fmap in Hlen.
  destruct (lookupZ_is_Some (lp_clients l) i) as [c Hc]; [lia|]. rewrite Hc. bind_step.
  destruct (board_revents l m i c Hh Hb ltac:(lia) Hc) as [_ Hent]. rewrite (Hrev i c) by (done || lia).
  destruct (ready (m !! i)) eqn:Er.
  2: { destruct (visit_none _ _ _ _ _ _ _ _ Hv Er) as (-> & -> & -> & ->). rewrite partial_alter_self in IH. rewrite orb_true_r.
    apply IH; try done; [lia..|]. intros j cj Hj. apply Hrev. lia. }
  specialize (Hent eq_refl). pose proof Hent as (_ & Hfd & _). rewrite (proj2 (Z.ltb_ge _ _)) by done.
  change (false || _) with false. cbv iota. subst w h.
  destruct (serve_ready l m i (pf_fd c) w1 h1 ph d1 Hh Hb Hent Er Hv) as (l1 & counted & -> & Hs1 & Ho1). bind_step.
  set (m1 := partial_alter (fun _ => ph) i m) in *.
  assert (Z.of_nat (ready_count m1 (i + 1) k) <= nready - 1) as Hn1 by (unfold m1; rewrite ready_count_alter by lia; lia).
  assert (forall nready', Z.of_nat (ready_count m1 (i + 1) k) <= nready' ->
    exists l', serve_clients msg_handler k l1 (i + 1) nready' = Some l' /\ served l l' m2 w2 h2) as Hgo.
  { intros nready' Hn'. destruct (IH l1 nready') as (l' & Hrun & Hs2); try (done || apply Hs1); [lia|rewrite (sd_max _ _ _ _ _ Hs1); lia| |].
    - intros j cj Hj Hcj. rewrite (sd_max _ _ _ _ _ Hs1) in Hj. apply Ho1 in Hcj; [|lia].
      rewrite (Hrev j cj) by (done || lia). unfold m1. by rewrite lookup_partial_alter_ne by lia.
    - exists l'. split; [done|]. by eapply served_trans. }
  destruct counted; [|apply Hgo; lia]. destruct (Z.leb_spec (nready - 1) 0); [|by apply Hgo].
  destruct (visits_none _ _ _ _ _ _ _ _ _ Hvs) as (-> & -> & -> & ->); [lia|]. by exists l1.
Qed.

(** With a client the loop does not end. *)
Lemma hub_active l i fd : hub l -> entry l i fd -> lp_active l <> 0.
Proof.
  intros Hh (Hi & Hfd & c & Hc & Hcfd). destruct (hb_inv _ Hh) as [_ [Hf0 Hl0] _ _ _ ->].
  assert (lookupZ (pf_fd <$> lp_clients l) i = Some fd) as Hl by (by rewrite lookupZ_fmap, Hc, <- Hcfd).
  pose proof (busy_insert _ i fd (-1) Hl) as Hb. rewrite (proj2 (Z.ltb_ge _ _)) in Hb by lia.
  assert (1 <= busy (insertZ i (-1) (pf_fd <$> lp_clients l))); [|cbn in Hb; lia].
  eapply (busy_pos _ 0); [|exact Hl0]. by rewrite lookupZ_insertZ_ne by lia.
Qed.

(** An active client has an entry. *)
Lemma hub_client l : hub l -> lp_active l <> 0 -> exists i fd, entry l i fd.
Proof.
  intros Hh Hact. destruct (hb_inv _ Hh) as [Hlen [Hl0 Hf0] Hmax Hfree _ Ha].
  pose proof (busy_insert _ 0 _ (-1) Hl0) as Hb. rewrite (proj2 (Z.ltb_ge _ _)) in Hb by done. change (-1 <? 0) with true in Hb. cbv iota in Hb.
  pose proof (busy_nonneg (insertZ 0 (-1) (pf_fd <$> lp_clients l))) as Hnn.
  destruct (busy_ex (insertZ 0 (-1) (pf_fd <$> lp_clients l))) as (i & fd & Hi & Hfd); [lia|]. rewrite <- lookupZ_nat in Hi.
  apply lookupZ_insertZ_Some in Hi as [[_ <-]|[Hi0 Hi]]; [lia|]. exists (Z.of_nat i), fd.
  assert (~ lp_max_ndx l < Z.of_nat i) by (intros Hlt; specialize (Hfree _ _ Hlt Hi); lia).
  split; [lia|]. split; [done|]. rewrite lookupZ_fmap in Hi. destruct (lookupZ (lp_clients l) (Z.of_nat i)) as [c|]; [|done].
  exists c. split; [done|]. by injection Hi as ->.
Qed.

(** What [poll] finds: its count and the [revents] of the entries. *)
Lemma polled_board l m : hub l -> board l m -> let cs := take (Z.to_nat (lp_max_ndx l + 1)) (lp_clients l) in
  let rs := net_revents (lp_n l) <$> cs in let cs' := polled (lp_clients l) rs in
  Z.of_nat (length (filter (fun r => r <> 0) rs)) = Z.of_nat (ready_count m 1 (Z.to_nat (lp_max_ndx l))) /\
  pf_fd <$> cs' = pf_fd <$> lp_clients l /\ (exists c0, lookupZ cs' 0 = Some c0 /\ pf_revents c0 = 0) /\
  forall j c, 1 <= j <= lp_max_ndx l -> lookupZ cs' j = Some c -> pf_revents c = if ready (m !! j) then POLLIN else 0.
Proof.
  intros Hh Hb cs rs cs'. pose proof Hh as [Hinv Hlst Hbl _ _].
  pose proof (so_length _ _ _ _ _ Hinv) as Hlen. pose proof (so_max _ _ _ _ _ Hinv) as Hmax. rewrite length_fmap in Hlen.
  destruct (lookupZ_is_Some (lp_clients l) 0) as [c0 Hc0]; [lia|].
  assert (net_revents (lp_n l) c0 = 0) as Hr0.
  { destruct (so_listen _ _ _ _ _ Hinv) as [Hl0 _]. rewrite lookupZ_fmap, Hc0 in Hl0. injection Hl0 as Hl0.
    unfold net_revents. rewrite Hl0, <- Hlst, Z.eqb_refl, Hbl. by destruct (_ <? _). }
  split_and!.
  - f_equal. unfold rs, cs. unfold lookupZ in Hc0. cbn in Hc0. replace (Z.to_nat (lp_max_ndx l + 1)) with (S (Z.to_nat (lp_max_ndx l))) by lia.
    rewrite <- (board_count l m _ Hh Hb 1) by lia. destruct (lp_clients l) as [|c cs0]; [done|]. injection Hc0 as ->.
    cbn [take drop]. rewrite fmap_cons, filter_cons, Hr0. rewrite decide_False by (intros Hx; by apply Hx). done.
  - apply fds_polled. unfold rs, cs. rewrite length_fmap, length_take. lia.
  - pose proof (polled_revents l 0 c0 ltac:(lia) Hc0) as Hx. rewrite Hr0 in Hx. eexists. split; [exact Hx|done].
  - intros j c Hj Hc. destruct (lookupZ_is_Some (lp_clients l) j) as [cj Hcj]; [lia|].
    pose proof (polled_revents l j cj ltac:(lia) Hcj) as Hx. fold cs rs cs' in Hx. rewrite Hx in Hc. injection Hc as <-.
    apply (board_revents l m j cj Hh Hb); [lia|done].
Qed.

Lemma pass_many l m w' h' m' d : hub l -> board l m -> m <> ∅ ->
  visits (C := C) 1 (Z.to_nat (lp_max_ndx l)) (sv_w (lp_sv l)) (dm_flexalloc (sv_d (lp_sv l))) m w' h' m' d ->
  exists l', loop_pass msg_handler l = Some (l', None) /\ served l l' m' w' h'.
Proof.
  intros Hh Hb Hne Hd. destruct (polled_board l m Hh Hb) as (Hcount & Hfds & (c0 & Hc0 & Hr0) & Hrev).
  assert (lp_active l <> 0) as Hact.
  { destruct (map_choose m Hne) as (i & ph & Hm). destruct (bd_phase _ _ Hb i ph Hm) as (fd & _ & He & _). by eapply hub_active. }
  unfold loop_pass. cbn [poll net_poll_env]. unfold net_poll.
  set (rs0 := net_revents (lp_n l) <$> _) in *. set (cs := polled (lp_clients l) rs0) in *. rewrite Hcount.
  set (l1 := lp_set_clients cs (lp_set_n (lp_n l) l)). set (nready := Z.of_nat (ready_count m 1 _)).
  assert (exists n2, nt_conns n2 = nt_conns (lp_n l) /\ nt_listen n2 = nt_listen (lp_n l) /\ nt_backlog n2 = nt_backlog (lp_n l) /\
    (if nready =? 0 then let '(n, run) := keep_running (lp_n l1) in (lp_set_n n l1, negb run && (lp_active l1 =? 0)) else (l1, false)) =
    (lp_set_n n2 l1, false)) as (n2 & Hn1 & Hn2 & Hn3 & ->).
  { destruct (nready =? 0); [|by exists (lp_n l); split_and!; [..|unfold l1; destruct l as [[]]]].
    cbn [keep_running net_poll_env]. eexists. split_and!; [..|f_equal; change (lp_active l1) with (lp_active l);
      rewrite (proj2 (Z.eqb_neq _ _) Hact), andb_false_r]; done. }
  rewrite (proj2 (Z.ltb_ge nready 0)) by (unfold nready; lia). set (l2 := lp_set_n n2 l1).
  change (lp_clients l2) with cs. rewrite Hc0. bind_step. rewrite Hr0. change (Z.land 0 POLLIN =? 0) with true. cbv iota.
  assert (hub l2) as Hh2 by (apply (hub_update l); (done || apply Hh)).
  assert (board l2 m) as Hb2 by (by apply (board_same l)).
  change (lp_max_ndx l2) with (lp_max_ndx l).
  destruct (serve_all _ _ _ _ _ _ _ _ _ Hd l2 nready) as (l' & -> & Hs); try done.
  { change (lp_max_ndx l2) with (lp_max_ndx l). pose proof (so_max _ _ _ _ _ (hb_inv _ Hh)). lia. }
  bind_step. exists l'. split; [done|]. destruct Hs as [S1 S2 S3 S4 S5 S6]. split; try done.
  intros j fd Hj. eapply entry_same; [| |by apply S6]; done.
Qed.
End pass.

(** ** The clients' side *)

Section seats.
Context {W C : Type} `{XnvmeEnv W} `{!XnvmeAdm W} `{XnvmeEnv C} `{!XnvmeAdm C}.
Notation process := (process C (remote W)).
Implicit Types (l : loop W net) (p : process).

(** Sending a request leaves it on the connection. *)
Lemma begin_sends p c : rm_conn (pr_n p) = Some (mk_conn [] [] false) -> msg_buf (pr_send p) ->
  exists p' tag, begin_call p c = Some (p', 0) /\ is_u16 tag /\ rm_fd (pr_n p') = rm_fd (pr_n p) /\
    rm_loop (pr_n p') = lp_set_n (set_conn (rm_fd (pr_n p)) (mk_conn (message (call_cmd c) tag (call_bytes c)) [] false)
      (lp_n (rm_loop (pr_n p)))) (rm_loop (pr_n p)) /\
    msg_buf (pr_send p') /\ pr_recv p' = pr_recv p /\ cl_sock_fd (pr_cl p') = cl_sock_fd (pr_cl p).
Proof.
  intros Hc Hs. destruct (call_request c) as (Hcmd & _ & Hl & Hb).
  destruct (fill_request (pr_send p) (call_cmd c) (call_bytes c) Hs Hl Hb) as (b & tag & rest & Hput & Htag & Hm & Hbuf).
  unfold begin_call. rewrite Hput. bind_step. rewrite Hm. cbn [pr_n pr_set_send pr_set_cl pr_cl pr_send cl_send cl_sock_fd].
  set (m := mk_conn (message (call_cmd c) tag (call_bytes c)) [] false).
  erewrite (send_message _ _ _ _ _ _ (rm_set_conn m (mk_remote (rm_loop (pr_n p)) (rm_fd (pr_n p)) 0)) Hcmd Htag Hl).
  2: { cbn [send clear_errno remote_env]. unfold remote_send, rm_conn. cbn [rm_loop rm_fd]. unfold rm_conn in Hc. rewrite Hc. done. }
  bind_step. do 2 eexists. split; [done|]. split; [done|]. done.
Qed.

(** The answer is taken from the connection. *)
Lemma end_receives p c r tag body : rm_conn (pr_n p) = Some (mk_conn [] (message (call_cmd c) tag body) false) ->
  is_u16 tag -> answer_body c r body -> err_fits c r.2 -> msg_buf (pr_recv p) ->
  exists p', end_call p c = Some (p', (reported c r).1, (reported c r).2) /\ rm_fd (pr_n p') = rm_fd (pr_n p) /\
    rm_loop (pr_n p') = lp_set_n (set_conn (rm_fd (pr_n p)) (mk_conn [] [] false) (lp_n (rm_loop (pr_n p)))) (rm_loop (pr_n p)) /\
    pr_send p' = pr_send p /\ msg_buf (pr_recv p') /\ cl_sock_fd (pr_cl p') = cl_sock_fd (pr_cl p).
Proof.
  intros Hc Htag Hbody Herr Hr. destruct (call_request c) as (Hcmd & Hnull & _ & _).
  destruct (answer_body_bytes _ _ _ Hbody) as [Hbb Hbl]. pose proof (length_message (call_cmd c) tag body) as Hlm.
  unfold FLA_MSG_DATA_MAX in Hbl. destruct (message_hdr (call_cmd c) tag body [] Hcmd Htag ltac:(lia)) as (Hml & Hmc & _).
  rewrite app_nil_r in Hml, Hmc. unfold end_call. set (rm := pr_n p) in *.
  set (r3 := rm_set_conn (mk_conn [] [] false) rm).
  assert (message (call_cmd c) tag body <> []) as Hne by (destruct (message_cons (call_cmd c) tag body) as (b & rest & ->); done).
  assert (forall peek k, remote_recv rm peek k = Some (if peek then rm else rm_set_conn (mk_conn [] (drop (Z.to_nat k) (message (call_cmd c) tag body)) false) rm,
    Z.of_nat (length (take (Z.to_nat k) (message (call_cmd c) tag body))), take (Z.to_nat k) (message (call_cmd c) tag body))) as Hout
    by (intros; by apply remote_recv_out).
  rewrite (recv_msg_whole rm _ _ rm r3 (message (call_cmd c) tag body)).
  - bind_step. no_err. rewrite Hlm.
    set (p' := pr_set_recv _ (pr_set_n r3 p)). rewrite (take_answer_reported p' c r body tag (drop (8 + length body) (pr_recv p))) by done.
    exists p'. split; [done|]. split; [done|]. split; [done|]. split; [done|]. split; [by apply received_buf|done].
  - done.
  - cbn [recv remote_env]. rewrite Hout, length_take. change (Z.to_nat sizeof_msg_header) with 8%nat. by rewrite Nat.min_l by lia.
  - unfold FLA_MSG_DATA_MAX. lia.
  - by rewrite Hmc.
  - rewrite Hml, Hlm. unfold sizeof_msg_header. lia.
  - lia.
  - rewrite Hml. cbn [recv remote_env]. rewrite Hout. unfold sizeof_msg_header.
    rewrite drop_ge, take_ge, Hlm by lia. do 3 f_equal. lia.
Qed.

(** Closing the handle leaves the last message on the connection and closes it. *)
Lemma leave_sends p : rm_conn (pr_n p) = Some (mk_conn [] [] false) -> msg_buf (pr_send p) -> cl_sock_fd (pr_cl p) <> 0 ->
  exists p' tag, fla_daemon_close_rq p = Some (p', 0) /\ is_u16 tag /\
    rm_loop (pr_n p') = lp_set_n (set_conn (rm_fd (pr_n p)) (mk_conn (message FLA_MSG_CMD_SYNC_NO_RSPS tag []) [] true)
      (lp_n (rm_loop (pr_n p)))) (rm_loop (pr_n p)).
Proof.
  intros Hc Hs Hfd. destruct (fill_command (pr_send p) FLA_MSG_CMD_SYNC_NO_RSPS Hs) as (tag & rest & Htag & Hm & _).
  unfold fla_daemon_close_rq. rewrite (proj2 (Z.eqb_neq _ _) Hfd), Hm. cbn [pr_n pr_set_send pr_set_cl pr_cl pr_send cl_send cl_sock_fd].
  set (m := mk_conn (message FLA_MSG_CMD_SYNC_NO_RSPS tag []) [] false).
  rewrite (send_message (pr_n p) (cl_sock_fd (pr_cl p)) FLA_MSG_CMD_SYNC_NO_RSPS tag [] rest
    (rm_set_conn m (mk_remote (rm_loop (pr_n p)) (rm_fd (pr_n p)) 0))); [|done..|].
  2: { cbn [send clear_errno remote_env]. unfold remote_send, rm_conn. cbn [rm_loop rm_fd]. unfold rm_conn in Hc. rewrite Hc. done. }
  bind_step. no_err. do 2 eexists. split; [done|]. split; [done|]. cbn [pr_n sys_close remote_env]. unfold rm_conn. cbn.
  rewrite lookup_insert_eq. unfold rm_set_conn. cbn. unfold lp_set_n, lp_set_sv, lp_n. cbn. by rewrite set_conn_twice.
Qed.

(** The process of the client of entry [i]. *)
Definition placed_client l (i : Z) p : Prop :=
  entry l i (rm_fd (pr_n p)) /\ msg_buf (pr_send p) /\ msg_buf (pr_recv p) /\ cl_sock_fd (pr_cl p) <> 0.

(** The clients and the daemon are in the state of the sequential server. *)
Record related (s : crowd W C) (a : spec W) : Prop := {
  rl_hub : hub (cw_loop s);
  rl_board : board (cw_loop s) (sp_phase a);
  rl_w : sv_w (lp_sv (cw_loop s)) = sp_w a;
  rl_h : dm_flexalloc (sv_d (lp_sv (cw_loop s))) = sp_h a;
  rl_n : sp_n a = Z.to_nat (lp_max_ndx (cw_loop s));
  rl_seats : forall i ph, sp_phase a !! i = Some ph -> seated ph = true ->
    exists p, cw_seats s !! i = Some (mk_seat p (phase_call ph)) /\ placed_client (cw_loop s) i p;
  rl_dom : forall i, is_Some (cw_seats s !! i) -> exists ph, sp_phase a !! i = Some ph /\ seated ph = true
}.

(** A step of client [i] that changes its connection and its phase. *)
Lemma related_client s w h n m i fd ph ph' cn st l' : related s (mk_spec w h n m) -> m !! i = Some ph -> entry (cw_loop s) i fd ->
  conn_phase ph' cn -> l' = lp_set_n (set_conn fd cn (lp_n (cw_loop s))) (cw_loop s) ->
  (if seated ph' then exists p', st = Some (mk_seat p' (phase_call ph')) /\ placed_client (cw_loop s) i p' else st = None) ->
  related (mk_crowd l' (partial_alter (fun _ => st) i (cw_seats s))) (mk_spec w h n (<[i := ph']> m)).
Proof.
  intros [Hh Hb Hw Hhd Hn Hst Hdom] Hm He Hcn -> Hseat. cbn [sp_phase sp_w sp_h sp_n] in *.
  split; cbn [cw_loop cw_seats sp_phase sp_w sp_h sp_n]; try done.
  - apply (hub_update (cw_loop s)); (done || apply Hh).
  - by apply (board_update (cw_loop s) _ m i fd cn).
  - intros j ph'' [[<- <-]|[Hne Hj]]%lookup_insert_Some Hs.
    + rewrite Hs in Hseat. rewrite lookup_partial_alter_eq. exact Hseat.
    + rewrite lookup_partial_alter_ne by done. apply (Hst j ph'' Hj Hs).
  - intros j. destruct (decide (i = j)) as [<-|Hne].
    + rewrite lookup_partial_alter_eq, lookup_insert_eq. intros [x ->]. exists ph'. split; [done|]. by destruct (seated ph').
    + rewrite lookup_partial_alter_ne, lookup_insert_ne by done. apply Hdom.
Qed.

(** The client of an idle entry and its connection. *)
Lemma related_seat s w h n m i ph : related s (mk_spec w h n m) -> m !! i = Some ph -> seated ph = true ->
  exists p cn, cw_seats s !! i = Some (mk_seat p (phase_call ph)) /\ placed_client (cw_loop s) i p /\
    nt_conns (lp_n (cw_loop s)) !! rm_fd (pr_n p) = Some cn /\ conn_phase ph cn.
Proof.
  intros Hr Hm Hs. destruct (rl_seats _ _ Hr i ph Hm Hs) as (p & Hp & Hpl). exists p.
  destruct (bd_phase _ _ (rl_board _ _ Hr) i ph Hm) as (fd & cn & He & Hcn & Hph). exists cn.
  rewrite (entry_fun _ _ _ _ He (proj1 Hpl)) in Hcn. done.
Qed.

(** Calls stay what they are while the daemon serves; who has no process gets none. *)
Lemma visit_call_kept i w h ph w' h' ph' d : visit (C := C) (W := W) i w h ph w' h' ph' d ->
  (forall q, ph = Some q -> seated q = true -> exists q', ph' = Some q' /\ seated q' = true /\ phase_call q' = phase_call q) /\
  (forall q', ph' = Some q' -> seated q' = true -> exists q, ph = Some q /\ seated q = true /\ phase_call q' = phase_call q).
Proof.
  destruct 1 as [w h c w' h' r Hd|w h w' h' r Hd|w h|w h ph Hno]; split; intros q Hq Hs; simplify_eq; try done; try (by eauto).
  by destruct (r.2 =? 0); simplify_eq.
Qed.

Lemma visits_call_kept i k w h m w' h' m' d : visits (C := C) (W := W) i k w h m w' h' m' d -> forall j,
  (forall q, m !! j = Some q -> seated q = true -> exists q', m' !! j = Some q' /\ seated q' = true /\ phase_call q' = phase_call q) /\
  (forall q', m' !! j = Some q' -> seated q' = true -> exists q, m !! j = Some q /\ seated q = true /\ phase_call q' = phase_call q).
Proof.
  induction 1 as [|i k w h m w1 h1 ph d1 w2 h2 m2 d2 Hv _ IH]; intros j; [by split; eauto|].
  destruct (IH j) as [IH1 IH2]. destruct (decide (i = j)) as [<-|Hne].
  - rewrite lookup_partial_alter_eq in IH1, IH2. destruct (visit_call_kept _ _ _ _ _ _ _ _ Hv) as [V1 V2]. split.
    + intros q Hp Hs. destruct (V1 q Hp Hs) as (q1 & -> & Hs1 & Hc1). destruct (IH1 q1 eq_refl Hs1) as (q2 & ? & ? & ?). exists q2. split_and!; [done..|congruence].
    + intros q Hp Hs. destruct (IH2 q Hp Hs) as (q1 & -> & Hs1 & Hc1). destruct (V2 q1 eq_refl Hs1) as (q2 & ? & ? & ?). exists q2. split_and!; [done..|congruence].
  - by rewrite lookup_partial_alter_ne in IH1, IH2.
Qed.

(** Every step of the sequential server is one of the clients and the daemon. *)
Lemma step_simulated s a ev a' d o : related s a -> spec_step (C := C) a ev a' d o ->
  exists s', crowd_step s ev = Some (s', o) /\ related s' a'.
Proof.
  intros Hr Hstep. destruct Hstep as [w h n m i c Hm Hfit|w h n m w' h' m' d Hne Hd|w h n m i c r Hm|w h n m i Hm].
  - destruct (related_seat s w h n m i Idle Hr Hm eq_refl) as (p & cn & Hp & (He & Hsend & Hrecv & Hfd) & Hcn & ->).
    destruct (begin_sends (on_net (cw_loop s) p) c) as (p' & tag & Hrun & Htag & Hfd' & Hl & Hsend' & Hrecv' & Hk); [done..|].
    eexists. split; [cbn [crowd_step]; rewrite Hp; bind_step; cbn [st_call phase_call st_proc]; rewrite Hrun; done|].
    apply (related_client s w h n m i (rm_fd (pr_n p)) Idle (Waiting c) (mk_conn (message (call_cmd c) tag (call_bytes c)) [] false)); try done;
      [split; [done|by exists tag]|]. cbn [seated]. exists p'. split; [done|]. unfold placed_client. by rewrite Hfd', Hrecv', Hk.
  - pose proof (rl_w _ _ Hr) as Hw. pose proof (rl_h _ _ Hr) as Hhd. pose proof (rl_n _ _ Hr) as Hn. cbn in Hw, Hhd, Hn. subst n w h.
    destruct (pass_many (cw_loop s) m w' h' m' d (rl_hub _ _ Hr) (rl_board _ _ Hr) Hne Hd) as (l' & Hp & [S1 S2 S3 S4 S5 S6]).
    exists (mk_crowd l' (cw_seats s)). split; [cbn [crowd_step]; by rewrite Hp|].
    split; cbn [cw_loop cw_seats sp_phase sp_w sp_h sp_n]; try done; [by rewrite S5|..].
    + intros j ph Hj Hs. destruct (proj2 (visits_call_kept _ _ _ _ _ _ _ _ _ Hd j) ph Hj Hs) as (ph0 & Hj0 & Hs0 & ->).
      destruct (rl_seats _ _ Hr j ph0 Hj0 Hs0) as (p & Hpj & He & Hrest). exists p. split; [done|]. split; [|done].
      destruct (bd_phase _ _ S2 j ph Hj) as (fd & _ & He' & _). by rewrite (entry_fun _ _ _ _ He (S6 _ _ He')).
    + intros j Hj. apply (rl_dom _ _ Hr) in Hj as (ph & Hj & Hs).
      destruct (proj1 (visits_call_kept _ _ _ _ _ _ _ _ _ Hd j) ph Hj Hs) as (ph' & ? & ? & _). by exists ph'.
  - destruct (related_seat s w h n m i _ Hr Hm eq_refl) as (p & cn & Hp & (He & Hsend & Hrecv & Hfd) & Hcn & Herr & tag & body & Htag & Hbody & ->).
    destruct (end_receives (on_net (cw_loop s) p) c r tag body) as (p' & Hrun & Hfd' & Hl & Hsend' & Hrecv' & Hk); [done..|].
    destruct (message_cons (call_cmd c) tag body) as (b & rest & Hmc).
    eexists. split.
    { cbn [crowd_step]. rewrite Hp. bind_step. cbn [st_call phase_call st_proc]. bind_step. unfold rm_conn at 1. cbn [pr_n on_net pr_set_n rm_loop rm_fd].
      rewrite Hcn. bind_step. cbn [cn_out]. rewrite Hmc, Hrun. bind_step. by destruct (reported c r). }
    apply (related_client s w h n m i (rm_fd (pr_n p)) (Answered c r) Idle (mk_conn [] [] false)); try done.
    cbn [seated]. exists p'. split; [done|]. unfold placed_client. by rewrite Hfd', Hsend', Hk.
  - destruct (related_seat s w h n m i Idle Hr Hm eq_refl) as (p & cn & Hp & (He & Hsend & Hrecv & Hfd) & Hcn & ->).
    destruct (leave_sends (on_net (cw_loop s) p)) as (p' & tag & Hrun & Htag & Hl); [done..|].
    eexists. split; [cbn [crowd_step]; rewrite Hp; bind_step; cbn [st_call phase_call st_proc]; rewrite Hrun; done|].
    apply (related_client s w h n m i (rm_fd (pr_n p)) Idle Leaving (mk_conn (message FLA_MSG_CMD_SYNC_NO_RSPS tag []) [] true)); try done.
    by exists tag.
Qed.

Lemma run_simulated a evs a' d o : spec_run (C := C) a evs a' d o -> forall s, related s a ->
  exists s', crowd_run s evs = Some (s', o) /\ related s' a'.
Proof.
  induction 1 as [a|a ev a1 d1 o1 evs a2 d2 o2 Hstep _ IH]; intros s Hr; [by exists s|].
  destruct (step_simulated s a ev a1 d1 o1 Hr Hstep) as (s1 & Hs1 & Hr1). destruct (IH s1 Hr1) as (s2 & Hs2 & Hr2).
  exists s2. split; [|done]. cbn [crowd_run]. rewrite Hs1. bind_step. by rewrite Hs2.
Qed.
End seats.

(** ** Serialisation *)

Section serialise.
Context {W C : Type} `{XnvmeEnv W} `{!XnvmeAdm W} `{XnvmeEnv C} `{!XnvmeAdm C}.

(** The outputs of client [i], the calls as they are reported, and the answer that a
    client has not taken yet. *)
Definition answers (i : Z) (outs : list output) : list output := filter (fun o => o.1.1 = i) outs.
Definition told (jobs : list performed) : list output :=
  omap (fun x => match x.1.2 with Asked c => Some (x.1.1, c, reported c x.2) | Farewell => None end) jobs.
Definition untaken (m : gmap Z phase) (i : Z) : list output :=
  match m !! i with Some (Answered c r) => [(i, c, reported c r)] | _ => [] end.

Lemma untaken_insert m j ph i : untaken (<[j := ph]> m) i =
  if decide (i = j) then match ph with Answered c r => [(i, c, reported c r)] | _ => [] end else untaken m i.
Proof. unfold untaken. destruct (decide (i = j)) as [->|]; [by rewrite lookup_insert_eq|by rewrite lookup_insert_ne]. Qed.

Lemma answers_cons i o outs : answers i (o :: outs) = (if decide (o.1.1 = i) then [o] else []) ++ answers i outs.
Proof. unfold answers. rewrite filter_cons. by destruct (decide (o.1.1 = i)). Qed.

(** A visit performs at most one job, and leaves its answer with the client. *)
Lemma visit_accounts i w h m w' h' ph d : visit (C := C) (W := W) i w h (m !! i) w' h' ph d ->
  direct (C := C) w h (job_call <$> d.*1.*2) w' h' d.*2 /\
  forall j, untaken (partial_alter (fun _ => ph) i m) j = untaken m j ++ answers j (told d).
Proof.
  intros Hv. remember (m !! i) as ph0 eqn:E. split; [destruct Hv; (done || constructor)|]. intros j. unfold untaken, answers.
  destruct (decide (j = i)) as [->|Hne].
  - rewrite lookup_partial_alter_eq, <- E. destruct Hv as [w h c w' h' r Hd|w h w' h' r Hd|w h|w h ph Hno]; cbn [told omap list_omap fst snd];
      rewrite ?filter_cons, ?filter_nil; cbn [fst snd]; [by rewrite decide_True|by destruct (r.2 =? 0)|done|by rewrite app_nil_r].
  - rewrite lookup_partial_alter_ne by done. destruct Hv as [w h c w' h' r Hd|w h w' h' r Hd|w h|w h ph Hno]; cbn [told omap list_omap fst snd];
      rewrite ?filter_cons, ?filter_nil; cbn [fst snd]; [rewrite decide_False by done|..]; by rewrite app_nil_r.
Qed.

Lemma told_app d d' : told (d ++ d') = told d ++ told d'.
Proof. apply omap_app. Qed.

Lemma visits_accounts i k w h m w' h' m' d : visits (C := C) (W := W) i k w h m w' h' m' d ->
  direct (C := C) w h (job_call <$> d.*1.*2) w' h' d.*2 /\ forall j, untaken m' j = untaken m j ++ answers j (told d).
Proof.
  induction 1 as [|i k w h m w1 h1 ph d1 w2 h2 m2 d2 Hv _ [IHd IHu]]; [split; [constructor|intros; by rewrite app_nil_r]|].
  destruct (visit_accounts _ _ _ _ _ _ _ _ Hv) as [Hd Hu]. rewrite !fmap_app. split; [by eapply direct_app|].
  intros j. rewrite IHu, Hu, told_app, <- app_assoc. unfold answers. by rewrite filter_app.
Qed.

Lemma step_accounts a ev a' d o : spec_step (W := W) (C := C) a ev a' d o ->
  direct (C := C) (sp_w a) (sp_h a) (job_call <$> d.*1.*2) (sp_w a') (sp_h a') d.*2 /\
  forall i, answers i o ++ untaken (sp_phase a') i = untaken (sp_phase a) i ++ answers i (told d).
Proof.
  destruct 1 as [w h n m i c Hm Hfit|w h n m w' h' m' d Hne Hd|w h n m i c r Hm|w h n m i Hm]; cbn [sp_w sp_h sp_phase].
  - split; [constructor|]. intros j. rewrite untaken_insert, app_nil_r. unfold answers. rewrite filter_nil.
    destruct (decide (j = i)) as [->|]; [|done]. unfold untaken. by rewrite Hm.
  - by apply visits_accounts in Hd.
  - split; [constructor|]. intros j. rewrite untaken_insert, app_nil_r, answers_cons. unfold answers. cbn [fst snd]. rewrite filter_nil, app_nil_r.
    destruct (decide (j = i)) as [->|]; [|by rewrite decide_False by done]. rewrite decide_True by done. unfold untaken. by rewrite Hm.
  - split; [constructor|]. intros j. rewrite untaken_insert, app_nil_r. unfold answers. rewrite filter_nil.
    destruct (decide (j = i)) as [->|]; [|done]. unfold untaken. by rewrite Hm.
Qed.

(** C9: The daemon serialises its clients.  However the requests of several connected
    clients, their departures, the passes of the daemon's loop and the taking of answers
    are interleaved, the processes and the daemon run as the sequential server does: what
    is done on the daemon's handle is one sequential run of [jobs], the calls of the
    clients and a synchronisation for each that leaves; every client's results come back
    to it and to no other, in the order it made its calls, and are those of its calls in
    that run; an answer that was not taken yet waits on its connection. *)
Theorem daemon_serialises s a evs a' jobs outs : related (C := C) (W := W) s a -> spec_run (C := C) a evs a' jobs outs ->
  (exists s', crowd_run s evs = Some (s', outs) /\ related s' a') /\
  direct (C := C) (sp_w a) (sp_h a) (job_call <$> jobs.*1.*2) (sp_w a') (sp_h a') jobs.*2 /\
  forall i, answers i outs ++ untaken (sp_phase a') i = untaken (sp_phase a) i ++ answers i (told jobs).
Proof.
  intros Hr Hrun. split; [by eapply run_simulated|]. clear s Hr.
  induction Hrun as [a|a ev a1 d1 o1 evs a2 d2 o2 Hstep _ [IHd IHa]]; [split; [constructor|intros i; by rewrite app_nil_r]|].
  destruct (step_accounts _ _ _ _ _ Hstep) as [Hd Ha]. rewrite !fmap_app. split; [by eapply direct_app|].
  intros i. rewrite told_app. unfold answers in *. rewrite !filter_app, <- app_assoc, IHa, !app_assoc, Ha. done.
Qed.
End serialise.

(** ** Running the sequential server *)

Section exec.
Context {W C : Type} `{XnvmeEnv W} `{!XnvmeAdm W} `{XnvmeEnv C} `{!XnvmeAdm C}.

Definition perform (w : W) (h : handle) (c : call) : option (W * handle * (option fla_object * Z)) :=
  let '(w, ok) := match c with CallPoolDestroy _ => malloc w sizeof_fla_pool | _ => (w, true) end in
  if (ok : bool) then
    match run_call (C := C) (N := remote W) (lib_base w h) c with
    | Some (lib_base w h, o, err) => if decide (err_fits c err) then Some (w, h, (o, err)) else None
    | _ => None
    end
  else None.

Definition visit_exec (i : Z) (w : W) (h : handle) (ph : option phase) : option (W * handle * option phase * list performed) :=
  match ph with
  | Some (Waiting c) => '(w, h, r) ← perform w h c; Some (w, h, Some (Answered c r), [(i, Asked c, r)])
  | Some Leaving => '(w, h, r) ← perform w h CallSync; Some (w, h, if r.2 =? 0 then Some Left else None, [(i, Farewell, r)])
  | Some Left => Some (w, h, None, [])
  | _ => Some (w, h, ph, [])
  end.

Fixpoint visits_exec (i : Z) (k : nat) (w : W) (h : handle) (m : gmap Z phase) : option (W * handle * gmap Z phase * list performed) :=
  match k with
  | O => Some (w, h, m, [])
  | S k =>
      '(w, h, ph, d) ← visit_exec i w h (m !! i);
      '(w, h, m, d') ← visits_exec (i + 1) k w h (partial_alter (fun _ => ph) i m);
      Some (w, h, m, d ++ d')
  end.

Definition spec_next (a : spec W) (ev : event) : option (spec W * list performed * list output) :=
  let 'mk_spec w h n m := a in
  match ev with
  | Submit i c => match m !! i with Some Idle => Some (mk_spec w h n (<[i := Waiting c]> m), [], []) | _ => None end
  | Pass => if decide (m = ∅) then None else '(w, h, m, d) ← visits_exec 1 n w h m; Some (mk_spec w h n m, d, [])
  | Collect i => match m !! i with
                 | Some (Answered c r) => Some (mk_spec w h n (<[i := Idle]> m), [], [(i, c, reported c r)])
                 | _ => None
                 end
  | Leave i => match m !! i with Some Idle => Some (mk_spec w h n (<[i := Leaving]> m), [], []) | _ => None end
  end.

Fixpoint spec_exec (a : spec W) (evs : list event) : option (spec W * list performed * list output) :=
  match evs with
  | [] => Some (a, [], [])
  | ev :: evs => '(a, d, o) ← spec_next a ev; '(a, d', o') ← spec_exec a evs; Some (a, d ++ d', o ++ o')
  end.

Definition event_fits (ev : event) : Prop := match ev with Submit _ c => call_fits c | _ => True end.

Lemma perform_direct w h c w' h' r : perform w h c = Some (w', h', r) -> direct (C := C) w h [c] w' h' [r].
Proof.
  unfold perform. intros Hrun. destruct (match c with CallPoolDestroy _ => malloc w sizeof_fla_pool | _ => (w, true) end) as [w1 ok] eqn:Ew.
  destruct ok; [|done]. run_inv. econstructor; [|done|done|constructor]. by destruct c; simplify_eq.
Qed.

Lemma visit_exec_visit i w h ph w' h' ph' d : visit_exec i w h ph = Some (w', h', ph', d) -> visit (C := C) i w h ph w' h' ph' d.
Proof.
  destruct ph as [[|c|c r| |]|]; cbn [visit_exec]; intros Hrun; run_inv; try by constructor.
  - constructor. by apply perform_direct.
  - apply visit_leaving. by apply perform_direct.
Qed.

Lemma visits_exec_visits k : forall i w h m w' h' m' d, visits_exec i k w h m = Some (w', h', m', d) -> visits (C := C) i k w h m w' h' m' d.
Proof.
  induction k as [|k IH]; intros i w h m w' h' m' d; cbn [visits_exec]; intros Hrun; run_inv; [constructor|].
  econstructor; [by apply visit_exec_visit|by apply IH].
Qed.

Lemma spec_exec_run evs : forall a a' d o, Forall event_fits evs -> spec_exec a evs = Some (a', d, o) -> spec_run (C := C) a evs a' d o.
Proof.
  induction evs as [|ev evs IH]; intros a a' d o Hf; cbn [spec_exec]; intros Hrun; run_inv; [constructor|].
  apply Forall_cons in Hf as [Hev Hf]. econstructor; [|by apply IH].
  destruct a as [w h n m], ev as [i c| |i|i]; cbn [spec_next] in E; run_inv; try by constructor.
  constructor; [done|by apply visits_exec_visits].
Qed.
End exec.

(** ** Two clients of the served system *)

Definition ex_shared : fla_daemon :=
  mk_daemon (mk_handle ex_fs2 (h_dp ex_handle) (h_buf ex_handle)) [100; 0] None (mk_identity 1000 1) 3 3 0.
Definition ex_shared_loop : loop RamDisk.world net :=
  mk_loop (mk_server ex_disk (mk_net {[7 := mk_conn [] [] false; 8 := mk_conn [] [] false]} 3 [] [] 0) ex_shared
      (replicate 2056 0) (replicate 2056 0))
    [mk_pollfd 3 POLLIN 0; mk_pollfd 7 POLLIN 0; mk_pollfd 8 POLLIN 0] 2 2.
Definition ex_seat (fd : Z) : seat RamDisk.world RamDisk.world :=
  mk_seat (mk_process ex_disk (mk_remote ex_shared_loop fd 0)
    (mk_client ex_client_fs (mk_identity 1000 1) 5 (replicate 2056 0) (replicate 2056 0))) None.
Definition ex_crowd : crowd RamDisk.world RamDisk.world := mk_crowd ex_shared_loop {[1 := ex_seat 7; 2 := ex_seat 8]}.
Definition ex_phases : gmap Z phase := {[1 := Idle; 2 := Idle]}.
Definition ex_spec : spec RamDisk.world := mk_spec ex_disk (set_h_fs ex_fs2 ex_handle) 2 ex_phases.

Lemma ex_entry i fd : entry ex_shared_loop i fd <-> (i = 1 /\ fd = 7) \/ (i = 2 /\ fd = 8).
Proof.
  split.
  - intros (Hi & _ & c & Hc & <-). cbn in Hi. assert (i = 1 \/ i = 2) as [-> | ->] by lia; injection Hc as <-; auto.
  - intros [[-> ->]|[-> ->]]; (split; [cbn; lia|]; split; [lia|]; by eexists).
Qed.

Lemma ex_phases_idle i ph : ex_phases !! i = Some ph -> (i = 1 \/ i = 2) /\ ph = Idle.
Proof. unfold ex_phases. intros [[<- <-]|[_ [<- <-]%lookup_singleton_Some]]%lookup_insert_Some; auto. Qed.

Lemma ex_related : related ex_crowd ex_spec.
Proof.
  split; cbn [cw_loop ex_crowd cw_seats ex_spec sp_phase sp_w sp_h sp_n]; try reflexivity.
  - split; [|reflexivity|reflexivity| |split; apply ex_buf_ok].
    + split; [reflexivity|split; [reflexivity|cbn; lia]|cbn; lia| | |reflexivity].
      * intros j fd Hj Hl. apply lookupZ_Some in Hl. cbn in Hj, Hl. lia.
      * intros j fd Hj Hl. pose proof (lookupZ_Some _ _ _ Hl) as Hr. cbn in Hr.
        assert (j = 1 \/ j = 2) as [-> | ->] by lia; by injection Hl as <-.
    + intros i j fd. rewrite !ex_entry. lia.
  - split.
    + intros i ph [[-> | ->] ->]%ex_phases_idle; [exists 7|exists 8]; exists (mk_conn [] [] false);
        (split; [apply ex_entry; auto|]; split; reflexivity).
    + intros i fd [[-> _]|[-> _]]%ex_entry; by eexists.
  - intros i ph [[-> | ->] ->]%ex_phases_idle _; [exists (st_proc (ex_seat 7))|exists (st_proc (ex_seat 8))];
      (split; [reflexivity|]; split; [apply ex_entry; auto|]; split; [apply ex_buf_ok|]; split; [apply ex_buf_ok|done]).
  - intros i [st [[<- _]|[_ [<- _]%lookup_singleton_Some]]%lookup_insert_Some]; by eexists.
Qed.

Definition ex_events : list event :=
  [Submit 2 (CallObjectCreate ex_pool); Submit 1 (CallObjectCreate ex_pool); Pass; Collect 2;
   Submit 2 (CallObjectDestroy ex_pool (mk_obj 0 1)); Pass; Collect 2; Leave 2; Pass; Pass].

Lemma ex_events_fit : Forall event_fits ex_events.
Proof.
  assert (pool_fits ex_pool) by (unfold pool_fits, is_u64, is_u32; cbn; lia).
  assert (object_fits (mk_obj 0 1)) by (unfold object_fits, is_u32; cbn; lia).
  repeat constructor; done.
Qed.

Lemma daemon_serialises_witness : exists s' outs, crowd_run ex_crowd ex_events = Some (s', outs) /\
  answers 2 outs = [(2, CallObjectCreate ex_pool, (Some (mk_obj 0 1), 0)); (2, CallObjectDestroy ex_pool (mk_obj 0 1), (None, 0))] /\
  lp_active (cw_loop s') = 1.
Proof.
  destruct (spec_exec (C := RamDisk.world) ex_spec ex_events) as [[[a' jobs] outs]|] eqn:E; [|vm_compute in E; discriminate].
  destruct (daemon_serialises ex_crowd ex_spec ex_events a' jobs outs ex_related (spec_exec_run _ _ _ _ _ ex_events_fit E))
    as ((s' & Hs' & Hr) & _ & _).
  exists s', outs. split; [exact Hs'|].
  vm_compute in E. injection E as <- _ <-. split; [reflexivity|]. vm_compute in Hs'. injection Hs' as <-. reflexivity.
Defined.

(** ** An entry that was never polled

    Client 7 has closed, client 8 is connecting: its entry is the first beyond those that
    [poll] was given, and [revents] there is what the stack held. *)
Definition ex_joining (junk : Z) : loop RamDisk.world net :=
  mk_loop (mk_server ex_disk (mk_net {[7 := mk_conn [] [] true; 8 := mk_conn [] [] false]} 3 [8] [] 0) ex_shared
      (replicate 2056 0) (replicate 2056 0))
    [mk_pollfd 3 POLLIN 0; mk_pollfd 7 POLLIN 0; mk_pollfd (-1) 0 junk] 1 1.

(** A disconnection does not count as a ready entry, so the loop reaches the new client's
    entry: where the stack held zeros it is passed over, else the daemon waits in [read]
    for a client that has sent nothing. *)
Lemma new_client_blocks : is_Some (loop_pass msg_handler (ex_joining 0)) /\ loop_pass msg_handler (ex_joining 1) = None.
Proof. split; [by vm_compute; eexists|by vm_compute]. Qed.
