(* ===== verification/SharedPool.v ===== *)
(** * SharedPool: clients of one daemon that share a pool

    The composition of [Clients] with the allocator: several processes create objects
    in a pool through the daemon, destroy objects they were given, synchronise and leave,
    each without knowing of the others.  The theorem says that every interleaving runs and
    that no object is ever held by two clients. *)
From S2P Require Import Prelude Util Freelist Hash XnvmeEnv Flexalloc PoolEntry Geometry CommandSet SlabList SlabCache Slab Pool Object Alloc.
From S2P Require Import ObjectIO DataPlacement Layout Format System Typed History Store Durability Sync Socket Daemon DaemonLoop DaemonClient Remote Dispatch Clients.

(** ** Objects divided among clients *)

(** [f i] are the objects of client [i]; together they are the live ones. *)
Record parted (fs : flexalloc) (n : Z) (f : Z -> list fla_object) : Prop := {
  pt_nodup : forall i, NoDup (f i);
  pt_apart : forall i j o, o ∈ f i -> o ∈ f j -> i = j;
  pt_live : forall o, live fs n o <-> exists i, o ∈ f i
}.

Lemma parted_same fs fs' n f f' : parted fs n f -> (forall i, f' i ≡ₚ f i) -> (forall o, live fs' n o <-> live fs n o) -> parted fs' n f'.
Proof.
  intros [Hnd Hap Hl] Hf Hlive. split.
  - intros i. rewrite Hf. apply Hnd.
  - intros i j o. rewrite !Hf. apply Hap.
  - intros o. rewrite Hlive, Hl. split; intros [i Hi]; exists i; by rewrite Hf in *.
Qed.

Lemma parted_gain fs fs' n f f' i o : parted fs n f -> ~ live fs n o -> (forall o', live fs' n o' <-> o' = o \/ live fs n o') ->
  f' i ≡ₚ o :: f i -> (forall j, j <> i -> f' j = f j) -> parted fs' n f'.
Proof.
  intros [Hnd Hap Hl] Hnl Hlive Hi Hj. assert (forall j, o ∉ f j) as Hno by (intros j Ho; apply Hnl, Hl; eauto).
  assert (forall j o', o' ∈ f' j <-> (j = i /\ o' = o) \/ o' ∈ f j) as Hin.
  { intros j o'. destruct (decide (j = i)) as [->|Hne]; [rewrite Hi, elem_of_cons; naive_solver|rewrite Hj by done; naive_solver]. }
  split.
  - intros j. destruct (decide (j = i)) as [->|Hne]; [rewrite Hi; apply NoDup_cons; split; [apply Hno|apply Hnd]|rewrite Hj by done; apply Hnd].
  - intros j k o'. rewrite !Hin. intros [[-> ->]|Hoj] [[-> Ho]|Hok]; [done|by destruct (Hno k)|subst; by destruct (Hno j)|by eapply Hap].
  - intros o'. rewrite Hlive, Hl. setoid_rewrite Hin. naive_solver.
Qed.

Lemma parted_lose fs fs' n f f' i o : parted fs n f -> (forall o', live fs' n o' <-> o' <> o /\ live fs n o') ->
  f i ≡ₚ o :: f' i -> (forall j, j <> i -> f' j = f j) -> parted fs' n f'.
Proof.
  intros [Hnd Hap Hl] Hlive Hi Hj. pose proof (Hnd i) as Hndi. rewrite Hi in Hndi. apply NoDup_cons in Hndi as [Hno Hndi].
  assert (o ∈ f i) as Hoi by (rewrite Hi; by left).
  assert (forall j o', o' ∈ f' j <-> o' <> o /\ o' ∈ f j) as Hin.
  { intros j o'. destruct (decide (j = i)) as [->|Hne].
    - rewrite Hi, elem_of_cons. split; [|naive_solver]. intros Ho. split; [|by right]. by intros ->.
    - rewrite Hj by done. split; [|naive_solver]. intros Ho. split; [|done]. intros ->. apply Hne. by eapply Hap. }
  split.
  - intros j. destruct (decide (j = i)) as [->|Hne]; [done|rewrite Hj by done; apply Hnd].
  - intros j k o'. rewrite !Hin. intros [_ ?] [_ ?]. by eapply Hap.
  - intros o'. rewrite Hlive, Hl. setoid_rewrite Hin. naive_solver.
Qed.

(** ** Moves of the clients *)

Inductive move := MCreate (i : Z) | MDestroy (i : Z) (k : nat) | MSync (i : Z) | MPass | MCollect (i : Z) | MLeave (i : Z).

Section play.
Context {W C : Type} `{XnvmeEnv W} `{!XnvmeAdm W} `{XnvmeEnv C} `{!XnvmeAdm C}.
Context (pool : fla_pool).

(** What client [i] holds. *)
Definition hand (hd : gmap Z (list fla_object)) (i : Z) : list fla_object := default [] (hd !! i).

(** The objects that outputs of creations bring. *)
Definition gained (outs : list output) : list fla_object :=
  omap (fun o => match o.1.2 with CallObjectCreate _ => if o.2.2 =? 0 then o.2.1 else None | _ => None end) outs.

Definition client_idle (s : crowd W C) (i : Z) : bool :=
  match cw_seats s !! i with Some (mk_seat _ None) => true | _ => false end.
Definition has_answer (s : crowd W C) (i : Z) : bool :=
  match cw_seats s !! i with
  | Some (mk_seat p (Some _)) =>
      match rm_conn (pr_n (on_net (cw_loop s) p)) with Some (mk_conn _ (_ :: _) _) => true | _ => false end
  | _ => false
  end.

(** A client that is in a call makes no other and a client without an answer keeps
    waiting: such moves change nothing, and without clients the daemon has nothing to do.
    A client gives an object up when it asks for its destruction; one that leaves keeps
    its objects. *)
Definition move_step (s : crowd W C) (hd : gmap Z (list fla_object)) (mv : move) :
    option (crowd W C * gmap Z (list fla_object)) :=
  match mv with
  | MCreate i =>
      if client_idle s i then '(s, _) ← crowd_step s (Submit i (CallObjectCreate pool)); Some (s, hd) else Some (s, hd)
  | MDestroy i k =>
      match hand hd i !! k with
      | Some o =>
          if client_idle s i then
            '(s, _) ← crowd_step s (Submit i (CallObjectDestroy pool o)); Some (s, <[i := delete k (hand hd i)]> hd)
          else Some (s, hd)
      | None => Some (s, hd)
      end
  | MSync i => if client_idle s i then '(s, _) ← crowd_step s (Submit i CallSync); Some (s, hd) else Some (s, hd)
  | MPass => if lp_active (cw_loop s) =? 0 then Some (s, hd) else '(s, _) ← crowd_step s Pass; Some (s, hd)
  | MCollect i =>
      if has_answer s i then
        '(s, outs) ← crowd_step s (Collect i); Some (s, <[i := hand hd i ++ gained outs]> hd)
      else Some (s, hd)
  | MLeave i => if client_idle s i then '(s, _) ← crowd_step s (Leave i); Some (s, hd) else Some (s, hd)
  end.

Fixpoint play (s : crowd W C) (hd : gmap Z (list fla_object)) (mvs : list move) :
    option (crowd W C * gmap Z (list fla_object)) :=
  match mvs with
  | [] => Some (s, hd)
  | mv :: mvs => '(s, hd) ← move_step s hd mv; play s hd mvs
  end.

(** ** The invariant *)

(** The object that is on its way between a client and the daemon. *)
Definition in_transit (ph : option phase) : list fla_object :=
  match ph with
  | Some (Waiting (CallObjectDestroy _ o)) => [o]
  | Some (Answered (CallObjectCreate _) (Some o, err)) => if err =? 0 then [o] else []
  | _ => []
  end.

Definition mine (m : gmap Z phase) (hd : gmap Z (list fla_object)) (i : Z) : list fla_object := hand hd i ++ in_transit (m !! i).

Definition pool_call (c : call) : Prop := c = CallObjectCreate pool \/ (exists o, c = CallObjectDestroy pool o) \/ c = CallSync.

Context (block : W -> xnvme_dev -> Z -> list Z) `{!XnvmeLaws W block} `{!XnvmeAdmLaws W block}.
Context (dev : xnvme_dev) (nlb n : Z) (Hpool : p_ndx pool = 0).

(** The system is in order and can be synchronised, and its objects are divided. *)
Record shared (w : W) (h : handle) (m : gmap Z phase) (hd : gmap Z (list fla_object)) : Prop := {
  sh_filing : exists st, filing block dev nlb n w h st;
  sh_parted : parted (h_fs h) n (mine m hd);
  sh_calls : forall i ph c, m !! i = Some ph -> phase_call ph = Some c -> pool_call c
}.

Lemma hand_insert hd i l j : hand (<[i := l]> hd) j = if decide (j = i) then l else hand hd j.
Proof. unfold hand. destruct (decide (j = i)) as [->|]; [by rewrite lookup_insert_eq|by rewrite lookup_insert_ne]. Qed.

Lemma mine_alter m hd i f j : j <> i -> mine (partial_alter f i m) hd j = mine m hd j.
Proof. intros Hj. unfold mine. by rewrite lookup_partial_alter_ne. Qed.

(** The client's call changes phase. *)
Lemma calls_alter (m : gmap Z phase) i (ph : option phase) : (forall j p c, m !! j = Some p -> phase_call p = Some c -> pool_call c) ->
  (forall p c, ph = Some p -> phase_call p = Some c -> pool_call c) ->
  forall j p c, partial_alter (fun _ => ph) i m !! j = Some p -> phase_call p = Some c -> pool_call c.
Proof.
  intros Hm Hph j p c Hj. destruct (decide (j = i)) as [->|]; [rewrite lookup_partial_alter_eq in Hj|rewrite lookup_partial_alter_ne in Hj by done]; eauto.
Qed.

Lemma shared_alloc w h m hd : shared w h m hd -> exists e free ls, alloc_inv (h_fs h) e n free ls /\ pe_obj_nlb e = nlb.
Proof. intros [[st [_ _ _ [[Ha _] _ _ _] _]] _ _]. exact Ha. Qed.

Lemma live_fits w h m hd o : shared w h m hd -> live (h_fs h) n o -> object_fits o.
Proof.
  intros (e & free & ls & I & _)%shared_alloc Hl. destruct (live_placed _ _ _ _ _ _ I Hl) as [[G _ _] _ _ _ [_ Hn] Hs Hk].
  pose proof (slab_extent_inside _ _ G Hs) as [_ Hin]. pose proof (slab_extent_inside _ 0 G ltac:(lia)) as [Hb _].
  pose proof (go_slab _ G). pose proof (go_nlb _ G). unfold object_fits, is_u32. split; [nia|lia].
Qed.

(** A change of the system and of a client's phase that moves no object. *)
Lemma shared_same w h w' h' m hd hd' i ph : shared w h m hd -> (exists st, filing block dev nlb n w' h' st) ->
  (forall o, live (h_fs h') n o <-> live (h_fs h) n o) -> (forall p c, ph = Some p -> phase_call p = Some c -> pool_call c) ->
  (forall j, j <> i -> hand hd' j = hand hd j) -> hand hd' i ++ in_transit ph ≡ₚ mine m hd i ->
  shared w' h' (partial_alter (fun _ => ph) i m) hd'.
Proof.
  intros [_ Hp Hc] Hf Hl Hph Hj Hi. split; [done| |by apply calls_alter].
  apply (parted_same (h_fs h) _ n (mine m hd)); [done| |done]. intros j. unfold mine at 1.
  destruct (decide (j = i)) as [->|]; [by rewrite lookup_partial_alter_eq|by rewrite lookup_partial_alter_ne, Hj].
Qed.

(** ** What the daemon does for a client *)

(** Creations and destructions keep the system in order. *)
Lemma filing_create w h st w' fs' obj err : filing block dev nlb n w h st -> fla_base_object_create w (h_fs h) pool = Some (w', fs', obj, err) ->
  exists st', filing block dev nlb n w' (set_h_fs fs' h) st'.
Proof using All.
  intros Hf Hrun. destruct (filing_step block dev nlb n w h st pool StCreate Hpool Hf I) as (w1 & fs1 & st' & Hs & Hf' & _).
  cbn [store_step] in Hs. rewrite Hrun in Hs. cbn [mbind option_bind] in Hs. exists st'.
  destruct (err =? 0); [destruct obj; [|done]|]; cbn in Hs; by simplify_eq.
Qed.

Lemma filing_destroy w h st w' fs' o err : filing block dev nlb n w h st -> live (h_fs h) n o ->
  fla_base_object_destroy w (h_fs h) pool o = Some (w', fs', err) -> exists st', filing block dev nlb n w' (set_h_fs fs' h) st'.
Proof using All.
  intros Hf Hlo Hrun. destruct (proj2 (proj2 (si_holds _ _ _ _ _ _ (fi_store _ _ _ _ _ _ _ Hf)))) with o as [_ Hin].
  apply Hin, list_elem_of_fmap in Hlo as ([o' cs] & -> & [k Hk]%list_elem_of_lookup).
  destruct (filing_step block dev nlb n w h st pool (StDestroy k) Hpool Hf I) as (w1 & fs1 & st' & Hs & Hf' & _).
  cbn [store_step] in Hs. rewrite Hk in Hs. cbn [fst] in Hs, Hrun. rewrite Hrun in Hs. cbn in Hs. exists st'. by simplify_eq.
Qed.

(** A synchronisation moves no object. *)
Lemma shared_sync w h m hd : shared w h m hd -> exists w' h' err, direct (C := C) w h [CallSync] w' h' [(None, err)] /\
  (exists st, filing block dev nlb n w' h' st) /\ forall o, live (h_fs h') n o <-> live (h_fs h) n o.
Proof using All.
  intros [[st Hf] _ _]. destruct (sync_store block dev nlb n w h st Hf) as (w' & h' & err & Hrun & Hf' & _).
  exists w', h', err. split; [econstructor; [done| |done|constructor]; cbn; by rewrite Hrun|]. split; [by exists st|].
  intros o. apply flushed_live. by destruct (flush_flushed w h w' h' err Hrun) as [F _].
Qed.

Lemma shared_call (w : W) h m hd i c : shared w h m hd -> m !! i = Some (Waiting c) ->
  exists w' h' r, direct (C := C) w h [c] w' h' [r] /\ shared w' h' (<[i := Answered c r]> m) hd.
Proof using All.
  intros Hsh Hm. destruct (shared_alloc _ _ _ _ Hsh) as (e & free & ls & I & He). pose proof Hsh as [[st Hf] Hp Hc].
  assert (forall r p c', Some (Answered c r) = Some p -> phase_call p = Some c' -> pool_call c') as Hcall
    by (intros r p c' [= <-] [= <-]; by eapply Hc).
  destruct (Hc i _ c Hm eq_refl) as [->|[[o ->]| ->]].
  - destruct (create_spec block (h_fs h) e n free ls I w pool Hpool) as (w' & fs' & obj & err & Hrun & _ & _ & Hres).
    destruct (filing_create w h st w' fs' obj err Hf Hrun) as [st' Hf']. exists w', (set_h_fs fs' h), (obj, err).
    assert (mine m hd i = hand hd i) as Hmi by (unfold mine; by rewrite Hm, app_nil_r).
    assert (i32 err = err) as Herr by (destruct Hres as [[-> _]|(_ & _ & _ & _ & _ & [[_ [-> | ->]]| ->] & _)]; done).
    split. { econstructor; [done| |done|constructor]. cbn. by rewrite Hrun. }
    destruct Hres as [(-> & o & e' & free' & ls' & -> & Hnl & Hl & I' & He' & _)|(Hne & -> & Hl & _)].
    + split; [by exists st'| |apply calls_alter; [exact Hc|apply Hcall]].
      apply (parted_gain (h_fs h) fs' n (mine m hd) _ i o); [done..| |intros j Hj; by apply mine_alter].
      unfold mine at 1. rewrite lookup_insert_eq, Hmi. cbn [in_transit]. change (0 =? 0) with true. cbv iota. by rewrite Permutation_app_comm.
    + apply (shared_same w h _ _ m hd); [done|by exists st'|done|apply Hcall|done|]. cbn [in_transit]. by rewrite app_nil_r, Hmi.
  - assert (o ∈ mine m hd i) as Ho by (unfold mine; rewrite Hm; apply elem_of_app; right; by left).
    assert (live (h_fs h) n o) as Hlo by (apply (pt_live _ _ _ Hp); eauto).
    destruct (destroy_spec (h_fs h) e n free ls I pool Hpool w o Hlo) as (fs' & e' & ls' & Hrun & Hl & I' & _ & He' & _).
    destruct (filing_destroy w h st w fs' o 0 Hf Hlo Hrun) as [st' Hf'].
    exists w, (set_h_fs fs' h), (None, 0). split. { econstructor; [done| |done|constructor]. cbn. by rewrite Hrun. }
    split; [by exists st'| |apply calls_alter; [exact Hc|apply Hcall]].
    apply (parted_lose (h_fs h) fs' n (mine m hd) _ i o); [done..| |intros j Hj; by apply mine_alter].
    unfold mine. rewrite lookup_insert_eq, Hm. cbn [in_transit]. rewrite app_nil_r. by rewrite Permutation_app_comm.
  - destruct (shared_sync w h m hd Hsh) as (w' & h' & err & Hd & Hf' & Hl). exists w', h', (None, err). split; [done|].
    apply (shared_same w h _ _ m hd); [done..|apply Hcall|done|]. unfold mine. by rewrite Hm.
Qed.

Lemma shared_visit w h m hd i : shared w h m hd ->
  exists w' h' ph d, visit (C := C) i w h (m !! i) w' h' ph d /\ shared w' h' (partial_alter (fun _ => ph) i m) hd.
Proof using All.
  intros Hsh. destruct (ready (m !! i)) eqn:Er.
  2: { exists w, h, (m !! i), []. split; [by constructor|by rewrite partial_alter_self]. }
  destruct (m !! i) as [[|c|c r| |]|] eqn:Em; try done.
  - destruct (shared_call w h m hd i c Hsh Em) as (w' & h' & r & Hd & Hsh'). exists w', h', (Some (Answered c r)), [(i, Asked c, r)].
    split; [by constructor|done].
  - destruct (shared_sync w h m hd Hsh) as (w' & h' & err & Hd & Hf' & Hl). eexists w', h', _, _. split; [by apply visit_leaving|].
    apply (shared_same w h _ _ m hd); [done..| |done|]; cbn [snd]; [intros p c|unfold mine; rewrite Em]; by destruct (err =? 0); intros; simplify_eq.
  - exists w, h, None, []. split; [constructor|]. apply (shared_same w h _ _ m hd); [done|apply Hsh|done..|]. unfold mine. by rewrite Em.
Qed.

Lemma shared_visits k : forall i w h m hd, shared w h m hd ->
  exists w' h' m' d, visits (C := C) i k w h m w' h' m' d /\ shared w' h' m' hd.
Proof using All.
  induction k as [|k IH]; intros i w h m hd Hsh; [exists w, h, m, []; split; [constructor|done]|].
  destruct (shared_visit w h m hd i Hsh) as (w1 & h1 & ph & d1 & Hv & Hsh1).
  destruct (IH (i + 1) _ _ _ _ Hsh1) as (w2 & h2 & m2 & d2 & Hvs & Hsh2). exists w2, h2, m2, (d1 ++ d2). split; [by econstructor|done].
Qed.

(** ** Moves keep the invariant *)

(** The crowd, what each client holds, and the daemon's system. *)
Definition sharing (s : crowd W C) (hd : gmap Z (list fla_object)) : Prop :=
  exists a, related s a /\ shared (sp_w a) (sp_h a) (sp_phase a) hd.

Lemma idle_phase s a i : related s a -> client_idle s i = true -> sp_phase a !! i = Some Idle.
Proof.
  intros Hr Hi. unfold client_idle in Hi. destruct (cw_seats s !! i) as [st|] eqn:E; [|done].
  destruct (rl_dom _ _ Hr i) as (ph & Hph & Hs); [by eexists|]. destruct (rl_seats _ _ Hr i ph Hph Hs) as (p & Hp & _).
  rewrite E in Hp. injection Hp as ->. by destruct ph.
Qed.

Lemma answer_phase s a i : related s a -> has_answer s i = true -> exists c r, sp_phase a !! i = Some (Answered c r).
Proof.
  intros Hr Hi. unfold has_answer in Hi. destruct (cw_seats s !! i) as [st|] eqn:E; [|done].
  destruct (rl_dom _ _ Hr i) as (ph & Hph & Hs); [by eexists|]. destruct a as [w h k m]. cbn [sp_phase] in *.
  destruct (related_seat s w h k m i ph Hr Hph Hs) as (p & cn & Hp & _ & Hcn & Hc).
  rewrite E in Hp. injection Hp as ->. unfold rm_conn in Hi. cbn [pr_n on_net pr_set_n rm_loop rm_fd] in Hi. rewrite Hcn in Hi.
  destruct ph as [|c|c r| |]; try done; [|by eauto]. cbn [conn_phase] in Hc. by destruct Hc as (_ & tag & _ & ->).
Qed.

(** A step of an idle client that gives it the phase [ph]. *)
Lemma step_sharing s a hd hd' i ev ph w' h' o d : related s a -> shared (sp_w a) (sp_h a) (sp_phase a) hd ->
  spec_step (C := C) a ev (mk_spec w' h' (sp_n a) (<[i := ph]> (sp_phase a))) d o -> w' = sp_w a -> h' = sp_h a ->
  (forall c, phase_call ph = Some c -> pool_call c) -> (forall j, j <> i -> hand hd' j = hand hd j) ->
  hand hd' i ++ in_transit (Some ph) ≡ₚ mine (sp_phase a) hd i ->
  exists s', crowd_step s ev = Some (s', o) /\ sharing s' hd'.
Proof using All.
  intros Hr Hsh Hstep -> -> Hc Hj Hi. destruct (step_simulated s a ev _ d o Hr Hstep) as (s' & Hs' & Hr'). exists s'. split; [done|].
  eexists. split; [exact Hr'|]. cbn [sp_w sp_h sp_phase]. apply (shared_same (sp_w a) (sp_h a) _ _ (sp_phase a) hd); [done|apply Hsh|done| |done..].
  intros p c [= <-]. apply Hc.
Qed.

Lemma idle_sharing s a hd hd' i ev ph : related s a -> shared (sp_w a) (sp_h a) (sp_phase a) hd -> sp_phase a !! i = Some Idle ->
  (exists c, ev = Submit i c /\ ph = Waiting c /\ call_fits c /\ pool_call c) \/ (ev = Leave i /\ ph = Leaving) ->
  (forall j, j <> i -> hand hd' j = hand hd j) -> hand hd' i ++ in_transit (Some ph) ≡ₚ hand hd i ->
  exists s', crowd_step s ev = Some (s', []) /\ sharing s' hd'.
Proof using All.
  intros Hr Hsh Hm Hev Hj Hi. destruct a as [w h k m]. cbn [sp_w sp_h sp_phase] in *.
  apply (step_sharing s (mk_spec w h k m) hd hd' i ev ph w h [] []); try done.
  - destruct Hev as [(c & -> & -> & Hfit & _)|[-> ->]]; by constructor.
  - intros c Hc. destruct Hev as [(c' & _ & -> & _ & Hp)|[_ ->]]; [by injection Hc as <-|done].
  - unfold mine. cbn [sp_phase]. by rewrite Hm, app_nil_r.
Qed.

Lemma move_sharing s hd mv : pool_fits pool -> sharing s hd -> exists s' hd', move_step s hd mv = Some (s', hd') /\ sharing s' hd'.
Proof using All.
  intros Hpf (a & Hr & Hsh). assert (sharing s hd) as Hself by (by exists a).
  assert (forall i, client_idle s i = true -> sp_phase a !! i = Some Idle) as Hidle by (intros i; by apply idle_phase).
  destruct mv as [i|i k|i| |i|i]; cbn [move_step].
  - destruct (client_idle s i) eqn:Ei; [|by eauto].
    destruct (idle_sharing s a hd hd i (Submit i (CallObjectCreate pool)) (Waiting (CallObjectCreate pool)) Hr Hsh (Hidle i Ei)) as (s' & -> & Hs');
      [left; eexists; split_and!; [done..|by left]|done|by rewrite app_nil_r|by eauto].
  - destruct (hand hd i !! k) as [o|] eqn:Ek; [|by eauto]. destruct (client_idle s i) eqn:Ei; [|by eauto].
    assert (live (h_fs (sp_h a)) n o) as Hlo.
    { apply (pt_live _ _ _ (sh_parted _ _ _ _ Hsh)). exists i. apply elem_of_app. left. by eapply list_elem_of_lookup_2. }
    destruct (idle_sharing s a hd (<[i := delete k (hand hd i)]> hd) i (Submit i (CallObjectDestroy pool o)) (Waiting (CallObjectDestroy pool o)) Hr Hsh (Hidle i Ei))
      as (s' & -> & Hs'); [| | |by eauto].
    + left. eexists. split_and!; [done..|split; [done|by eapply live_fits]|right; left; by exists o].
    + intros j Hj. rewrite hand_insert. by rewrite decide_False.
    + rewrite hand_insert, decide_True by done. cbn [in_transit]. rewrite Permutation_app_comm. symmetry. by apply delete_Permutation.
  - destruct (client_idle s i) eqn:Ei; [|by eauto].
    destruct (idle_sharing s a hd hd i (Submit i CallSync) (Waiting CallSync) Hr Hsh (Hidle i Ei)) as (s' & -> & Hs');
      [left; eexists; split_and!; [done..|by right; right]|done|by rewrite app_nil_r|by eauto].
  - destruct (Z.eqb_spec (lp_active (cw_loop s)) 0) as [|Hact]; [by eauto|]. destruct a as [w h k m]. cbn [sp_w sp_h sp_phase] in *.
    assert (m <> ∅) as Hne.
    { destruct (hub_client _ (rl_hub _ _ Hr) Hact) as (i & fd & He). destruct (bd_entry _ _ (rl_board _ _ Hr) i fd He) as [ph Hph].
      cbn [sp_phase] in Hph. intros ->. by rewrite lookup_empty in Hph. }
    destruct (shared_visits k 1 w h m hd Hsh) as (w' & h' & m' & d & Hv & Hsh').
    destruct (step_simulated s _ _ _ _ _ Hr (spec_pass w h k m w' h' m' d Hne Hv)) as (s' & -> & Hr'). bind_step.
    exists s', hd. split; [done|]. by eexists.
  - destruct (has_answer s i) eqn:Ei; [|by eauto]. destruct (answer_phase s a i Hr Ei) as (c & r & Hm).
    destruct a as [w h k m]. cbn [sp_w sp_h sp_phase] in *. set (hd' := <[i := hand hd i ++ gained [(i, c, reported c r)]]> hd).
    destruct (step_sharing s (mk_spec w h k m) hd hd' i (Collect i) Idle w h [(i, c, reported c r)] []) as (s' & -> & Hs'); try done.
    + by constructor.
    + intros j Hj. unfold hd'. by rewrite hand_insert, decide_False.
    + unfold hd', mine. cbn [sp_phase]. rewrite hand_insert, decide_True, Hm, app_nil_r by done. f_equiv.
      destruct (sh_calls _ _ _ _ Hsh i _ c Hm eq_refl) as [->|[[o ->]| ->]]; [|done..]. destruct r as [[o|] err]; cbn; destruct (err =? 0) eqn:E; cbn; by rewrite ?E.
    + bind_step. by exists s', hd'.
  - destruct (client_idle s i) eqn:Ei; [|by eauto].
    destruct (idle_sharing s a hd hd i (Leave i) Leaving Hr Hsh (Hidle i Ei)) as (s' & -> & Hs'); [by right|done|by rewrite app_nil_r|by eauto].
Qed.

Lemma play_sharing mvs : pool_fits pool -> forall s hd, sharing s hd -> exists s' hd', play s hd mvs = Some (s', hd') /\ sharing s' hd'.
Proof using All.
  intros Hpf. induction mvs as [|mv mvs IH]; intros s hd Hs; [by exists s, hd|]. cbn [play].
  destruct (move_sharing s hd mv Hpf Hs) as (s1 & hd1 & -> & Hs1). bind_step. by apply IH.
Qed.
End play.

(** ** Claims *)

Lemma sdbm_range key k : FLA_HTBL_H2 key = Some k -> is_u64 k.
Proof.
  unfold FLA_HTBL_H2, fla_hash_sdbm. assert (is_u64 0) as H0 by (unfold is_u64; lia). revert H0. generalize 0 as hash.
  induction key as [|c key IH]; intros hash Hh; [done|]. cbn [sdbm_loop]. case_match; [by intros [= <-]|]. apply IH, u64_range.
Qed.

(** A session of the daemon starts with every client idle and nothing allocated. *)
Lemma session_shared {W C} `{E : XnvmeEnv W} `{A : XnvmeAdm W} `{XnvmeEnv C} `{!XnvmeAdm C} block `{!XnvmeLaws W block}
    `{!XnvmeAdmLaws W block} dev pr U arg w h fs pool n k m (s : crowd W C) :
  session dev pr U arg w h fs pool -> filing block dev (a_obj_nlb arg) n w (set_h_fs fs h) [] ->
  related s (mk_spec w (set_h_fs fs h) k m) -> (forall i ph, m !! i = Some ph -> ph = Idle) ->
  pool_fits pool /\ sharing pool block dev (a_obj_nlb arg) n s ∅.
Proof.
  intros Se Hf Hr Hidle. destruct (session_start block dev pr U arg w h fs pool Se) as (Hp & _).
  destruct (session_created block dev pr U arg w h fs pool Se) as (key & n' & _ & _ & _ & _ & _ & _ & _ & [Hk Hh] & _).
  split; [split; [rewrite Hk; by eapply sdbm_range|rewrite Hp; unfold is_u32; lia]|].
  eexists. split; [exact Hr|]. cbn [sp_w sp_h sp_phase].
  assert (forall i, mine m ∅ i = []) as Hnil.
  { intros i. unfold mine, hand. rewrite lookup_empty. destruct (m !! i) as [ph|] eqn:Ei; [by rewrite (Hidle i ph Ei)|done]. }
  split; [by exists []| |intros i ph c Hi; by rewrite (Hidle i ph Hi)].
  destruct (proj2 (si_holds _ _ _ _ _ _ (fi_store _ _ _ _ _ _ _ Hf))) as [_ Hl].
  split; [intros i; rewrite Hnil; constructor|intros i j o; rewrite Hnil; by intros ?%not_elem_of_nil|].
  intros o. rewrite <- Hl. split; [by intros ?%not_elem_of_nil|]. intros [i Hi]. rewrite Hnil in Hi. by apply not_elem_of_nil in Hi.
Qed.

(** C8: Clients of one daemon share a pool.  On a formatted device with a pool that the
    daemon serves to any number of connected clients, every interleaving of their object
    creations and destructions, synchronisations and departures, of passes of the
    daemon's loop and of the taking of answers runs: no step is undefined and the daemon
    does not end.  A client holds an object at most once, no two clients ever hold the
    same object, those of clients that have left included, and the blocks of different
    held objects do not overlap. *)
Theorem clients_share_pool {W C} `{E : XnvmeEnv W} `{A : XnvmeAdm W} `{XnvmeEnv C} `{!XnvmeAdm C} block `{!XnvmeLaws W block}
    `{!XnvmeAdmLaws W block} dev pr U arg w h fs pool (s : crowd W C) k m mvs :
  session dev pr U arg w h fs pool -> arg_typed arg -> dev_lba dev mod 4 = 0 ->
  related s (mk_spec w (set_h_fs fs h) k m) -> (forall i ph, m !! i = Some ph -> ph = Idle) ->
  exists s' hd, play pool s ∅ mvs = Some (s', hd) /\ (forall i, NoDup (hand hd i)) /\
    (forall i j o, o ∈ hand hd i -> o ∈ hand hd j -> i = j) /\
    let fs' := h_fs (dm_flexalloc (sv_d (lp_sv (cw_loop s')))) in
    forall i j oi oj, oi ∈ hand hd i -> oj ∈ hand hd j -> oi <> oj ->
      exists si ei sj ej, fla_object_slba fs' oi pool = Some si /\ fla_object_elba fs' oi pool = Some ei /\
        fla_object_slba fs' oj pool = Some sj /\ fla_object_elba fs' oj pool = Some ej /\ (ei <= sj \/ ej <= si).
Proof.
  intros Se Hty H4 Hr Hidle. destruct (session_filing block dev pr U arg w h fs pool Se Hty H4) as (n & Hf & Hp).
  destruct (session_shared block dev pr U arg w h fs pool n k m s Se Hf Hr Hidle) as [Hpf Hsh].
  destruct (play_sharing pool block dev (a_obj_nlb arg) n Hp mvs Hpf s ∅ Hsh) as (s' & hd & Hrun & a & Hr' & Hs').
  destruct (shared_alloc _ _ _ _ _ _ _ _ _ Hs') as (e & free & ls & I & _). pose proof (sh_parted _ _ _ _ _ _ _ _ _ Hs') as Pt.
  exists s', hd. split; [done|].
  assert (forall i o, o ∈ hand hd i -> o ∈ mine (sp_phase a) hd i) as Hin by (intros i o Ho; apply elem_of_app; by left).
  split; [|split].
  - intros i. pose proof (pt_nodup _ _ _ Pt i) as Hnd. by apply NoDup_app in Hnd as [? _].
  - intros i j o Hi Hj. eapply (pt_apart _ _ _ Pt); by apply Hin.
  - cbn zeta. intros i j oi oj Hi Hj Hij. rewrite (rl_h _ _ Hr').
    apply (live_extents _ e n free ls); [done|done|apply (pt_live _ _ _ Pt); by eauto..|done].
Qed.

Definition ex_moves : list move :=
  [MCreate 2; MCreate 1; MPass; MCollect 2; MCreate 2; MCollect 1; MPass; MCollect 2; MDestroy 2 0; MPass; MCollect 2;
   MSync 2; MLeave 1; MPass; MCollect 2; MPass].

Lemma clients_share_pool_witness : exists s' hd, play ex_pool ex_crowd ∅ ex_moves = Some (s', hd) /\
  hand hd 1 = [mk_obj 0 0] /\ hand hd 2 = [mk_obj 0 2] /\ lp_active (cw_loop s') = 1 /\
  exists si ei sj ej, fla_object_slba (h_fs (dm_flexalloc (sv_d (lp_sv (cw_loop s'))))) (mk_obj 0 0) ex_pool = Some si /\
    fla_object_elba (h_fs (dm_flexalloc (sv_d (lp_sv (cw_loop s'))))) (mk_obj 0 0) ex_pool = Some ei /\
    fla_object_slba (h_fs (dm_flexalloc (sv_d (lp_sv (cw_loop s'))))) (mk_obj 0 2) ex_pool = Some sj /\
    fla_object_elba (h_fs (dm_flexalloc (sv_d (lp_sv (cw_loop s'))))) (mk_obj 0 2) ex_pool = Some ej /\ (ei <= sj \/ ej <= si).
Proof.
  destruct (clients_share_pool RamDisk.block ex_dev1k ex_request ex_names (ex_arg 97 10) ex_disk ex_handle ex_fs2 ex_pool
    ex_crowd 2 ex_phases ex_moves ex_session ex_arg_typed eq_refl ex_related) as (s' & hd & Hrun & _ & _ & Hd).
  - intros i ph Hi. apply ex_phases_idle in Hi. apply Hi.
  - assert ((fun r => (hand r.2 1, hand r.2 2, lp_active (cw_loop r.1))) <$> play ex_pool ex_crowd ∅ ex_moves =
      Some ([mk_obj 0 0], [mk_obj 0 2], 1)) as Hh by (vm_compute; reflexivity).
    rewrite Hrun in Hh. injection Hh as H1 H2 H3. exists s', hd. split; [exact Hrun|]. split; [exact H1|]. split; [exact H2|]. split; [exact H3|].
    apply (Hd 1 2); [rewrite H1; by left|rewrite H2; by left|discriminate].
Defined.
